(* ===== verification/_CoqProject ===== *)
-Q . S2P
Prelude.v
PyValue.v
Text.v
Effects.v
Contracts.v
HostPolicy.v
HostStore.v
HostTopology.v
HostCoordinator.v
HostSafety.v
HostProps.v
HostReserve.v
HostFacade.v
Stamps.v
Json.v
JsonParse.v
JsonProps.v
Base64.v
DeviceScheduler.v
DeviceSchedulerProps.v
Masking.v
Packets.v
PacketProps.v
Notes.v
Hints.v
PacketWitness.v
Metadata.v
MetadataProps.v
MetadataLaws.v
MetadataSpec.v
ChildIdentity.v
ChildProps.v
Preledger.v
PreledgerProps.v
PreledgerPlan.v
PreledgerOrder.v
Journal.v
Phases.v
Workflow.v
Coordinate.v
TaskContext.v
TaskPacket.v
Selection.v
Inspect.v
JournalProps.v
PhaseProps.v
Records.v
WorkflowLogic.v
WorkflowProps.v
CoordinateProps.v
SelectionProps.v
InspectProps.v
Session.v
GatesProps.v
ContextProps.v
BearerStore.v
BearerProps.v
Program.v
Commands.v
Handoff.v
Attest.v
CommandSafety.v
CommandProps.v
CommandRuns.v
Sandbox.v
Supervisor.v
SupervisorProps.v
TaskGraph.v
Ledger.v
Ownership.v
Readiness.v
SchedulerProps.v
LeaseProps.v
Claims.v
Recovery.v
ClaimsProps.v
ClaimsSpec.v
RecoveryProps.v
SchedulerWitness.v
JournalWitness.v
