(* ===== verification/Prelude.v ===== *)
(** * Project Control: a verification library

    Project Control (src/src/project_control) coordinates coding agents on one host:
    it reserves accelerators, CPU and memory for them, keeps the information packets
    and notes they produce, records amendments of project metadata, hands one-use
    identities to child processes, keeps their credentials, runs their commands once in a
    sandbox, hands their attempts off and compiles task packages into plans.  The Todo
    engine it grew from (src/legacy/todo_orchestrator-reference) decides which task is
    ready, who may edit which path and who holds which lock.  This library models the
    parts that decide, as executable definitions, and proves what they promise.

    ** Conventions

    A Python exception is a value of [exn]; a function that may raise returns
    [result A], and "for" loops whose body may raise are [foldM] or [mapM_result].  A
    transaction is a function from the database to [result (A * db)]; commit and
    rollback are [run] (HostCoordinator), [atomic] (Packets) and the last lines of
    [amend] (Metadata).  A table is a list of records in insertion order; a query is a
    filter and, where the SQL says ORDER BY, [merge_sort]; a constraint, unique index or
    trigger is a test of the INSERT or UPDATE that may fail with [IntegrityError] or
    skip the row.  JSON and other dynamic values are [pyval] (PyValue), dicts are
    association lists in insertion order (keys are strings), and the code's type tests
    and "==" are functions on them.

    Integers are Z: Python's are unbounded.  Times are integers (microseconds in the
    live code, seconds in the Todo ledger), read once per operation.  The factors 0.75
    and 0.80 of the capacity limits are the fractions 3/4 and 4/5.  Strings are byte
    strings; the character classes the code tests (digits, spaces, upper and lower
    case) are those of ASCII.  SHA-256, the text of a float, Python's repr, random
    tokens and uuids, the process table, the clock, the output of nvidia-smi and the
    callback that checks sources are parameters: Section variables, or fields of [env],
    [penv] and [host].

    ** Parts

    - Shared: Prelude (results, loops, sorted sets, sums, combinations), PyValue, Text
      (str methods, csv.reader), Stamps (ISO time stamps), Json (json.dumps with sorted keys), JsonParse
      (json.loads) with the round trips of JsonProps, Base64, Effects
      (computations that call a service, [io]), Program (programs that call a host, threads
      of them, and a rely-guarantee logic).
    - Host resources (host_resources/): Contracts (contracts.py: the normalisers of
      requests and evidence), HostPolicy (policy.py, capacity.py, process.py), HostStore
      (the tables, constraints and triggers of coordinator.py), HostCoordinator (its
      methods, under their own names), HostTopology (topology.py), HostFacade
      (facade.py).  HostSafety lists the operations ([op], [perform]) and proves the
      invariants; HostProps, HostReserve and HostFacade the contracts; HostFacade ends
      with a session on a concrete host.
    - The Device Scheduler facade (device_scheduler.py): DeviceScheduler, under the
      code's names, over a class [service] that answers anything; DeviceSchedulerProps
      what it accepts and gives back and two services.
    - Packets (as1_packets.py, as1_contracts.py): Masking ([mask_payload]), Packets (the
      store), Notes, Hints; PacketProps the invariants, PacketWitness a concrete store.
    - Project metadata (project_metadata.py): Metadata, with MetadataProps (shape and
      invariant of one amendment), MetadataLaws (laws over any history) and
      MetadataSpec (the abstract registry, a concrete store).
    - Child identities (native_child_identity.py): ChildIdentity, ChildProps.
    - Preledger compiler (preledger.py): Preledger, from the files of a directory to the
      plan and its digests, PreledgerProps (what the passes compute), PreledgerPlan (the
      plan), PreledgerOrder (the order of the records, a directory compiled).
    - The compact workflow (compact_workflow.py), whole.  Journal (the private store: one
      JSON file per actor), Phases (phase intents, their native calls, previews), Workflow
      (leases and their renewal, gates, [finish_task]), Coordinate (reviews, integration,
      recovery, [coordinate_task]), TaskContext (fragments, chunks), TaskPacket (packets
      and their sizes), Selection ([next_task]), Inspect ([inspect_task]).  A computation
      is a function of the actor's file, the state of the native authority (an arbitrary
      [host]) and the live renewal workers, a small state monad whose "except" clauses are
      [guarded]; one entry point, or one turn of a renewal worker, is one step, as the
      locks of the code make them for the journal.  JournalProps (the file's invariant,
      handles), PhaseProps (reservation, intents, previews).  Records is the type of a
      record in each phase and the edges between phases; WorkflowLogic a Hoare logic of the
      monad that keeps it, with one rule per construct; WorkflowProps, CoordinateProps and
      SelectionProps apply it to each operation, Session to any sequence of them (with what
      becomes of a journalled phase intent).
      InspectProps, GatesProps (with a log of the native calls), ContextProps prove the
      rest; JournalWitness runs a concrete authority.
    - Credentials (workflow_binding.py): BearerStore, the private file of bearers and the
      sessions opened with them, over the text of the file; BearerProps proves what any
      uses of it keep, and runs some.
    - Authored commands.  Commands (native_providers.py: [JournaledCommandExecutor], its
      journal, the process identities), Handoff (native_authoring_handoff.py and the fence
      of Git effects), Attest (the observers and the attestation of external producers):
      each method is a program over one host ([host_call]) of locks, private files and
      processes.  CommandSafety says what a call may do to the world, the invariant
      [safe_world] and what a thread relies on ([knows]), with the rules of the
      logic; CommandProps the triple of each method, CommandRuns any calls interleaved, stopped
      anywhere, four of them on a concrete host.
    - The supervisor of a command (native_command_supervisor.py): Sandbox (the bubblewrap
      invocation and what it mounts), Supervisor (its programs, over a kernel of
      descendants, a clock and a report), SupervisorProps (that kernel, the loops, the
      reports).  It discharges what CommandSafety assumes of a report.
    - The Todo scheduler: TaskGraph (graph.py, [validate_acyclic]), Ledger (the tables of
      migrations.py and the dependency and barrier rules of graph.py), Ownership
      (ownership.py, resources.py, git_state.py), Readiness (readiness.py); proofs in
      TaskGraph itself, SchedulerProps and LeaseProps, a concrete ledger in SchedulerWitness.
    - Todo claims: Claims (claims.py up to recovery, git_state.py's manifests), Recovery
      (sessions.py, [mutate] of db.py, the claim operation of [continue_work], live
      overrides and forced releases of claims.py).  ClaimsProps states the invariant of
      the ledger and that each operation keeps it, ClaimsSpec what sweeping and claiming
      do, RecoveryProps what holds after any transactions ([operation], [transaction]), the
      evaluation of barriers and tasks in isolated-merge workspaces included ([being_worked],
      [merge_isolated]); SchedulerWitness runs claims, a release, an override, two tasks of
      one merge and a barrier.

    Components meet where the code's do: the facade calls the coordinator with requests
    the contracts parsed; the coordinator asks the policy for limits and classes; notes
    pin packets and hints look packets up; readiness asks the ledger for dependencies
    and ownership for conflicts, locks and room; claiming asks readiness for the best
    candidate and ownership for locks and resources, and its safety follows from theirs;
    the executor, the hand-off and the fence of Git effects meet in the lock of an attempt.

    ** What the theorems show

    - Invariants of every reachable state: of the host registry, the packet store, the
      metadata store, the workflow journal and the Todo ledger (one live claim per task,
      exclusive locks, capacities).
    - Types: a workflow record has, in each phase, the facts the phase promises.
    - Safety over histories: handles move along the edges of their state machine, end only
      on proof, and complete only after their gates; protected residency survives every other call, stale
      amendments are refused, references are never rebound, a credential works once,
      a phase is sent under one key
      until it is refreshed, a preview is
      completed once, a path has one editor (or editors
      that one task merges), an ended claim's token is dead, an approval
      is good for one state only, a lease is used only if it is what was asked for.
    - Safety of concurrent calls: a command starts at most once, all its successful
      executions agree, nothing of an attempt runs once it is handed off, a report that
      settles a command is there only when nothing of it is left, a sandbox is built of
      options that are all understood ([read_options]), and of the host writes only its
      workspace.
    - Functional contracts, on success and on failure, of reservation (sound and
      complete), preemption, sweeping, release, amendment (apply, replay, preview,
      remove), collection, lookup, notes, compilation, readiness, the ready queue, claiming (with
      progress when a task is ready) and the sweep of expired claims.
    - Equivalence with a reference: union-find against reachability, Kahn's loop against
      acyclicity, compilation against reordering of its records (all but the digests).
    - Refinement: the metadata store implements an abstract versioned registry.
    - Termination: the plan validator, the liveness worklist, the loops of the supervisor.
    - Bounds and round trips: a bearer that is stored is served until it is forgotten, through
      every rewriting of its file; packets and inspections fit their limits, a packet names what
      it leaves out, a fragment served in chunks is assembled whole; the size a context
      states is its size.

    ** Fuel

    [close] (Packets) visits each root and each listed parent once: [close_fuel].
    [kahn] removes one task per step: the number of tasks.  [wait_loop] (HostFacade)
    polls: the theorem gives the fuel from the time-out and the least clock step.
    [create_loop] has the 4096 attempts of the code.  The union-find climbs a parent
    chain at most once per device.  [settle] (TaskPacket) needs four turns, and has five: the
    number of digits grows at most once.  The code bounds a fragment by 33 chunks and a
    review queue by 32 pages; so do [fetch_chunks] and [read_queue].

    The loops of Supervisor have a number of turns: one for each process that is still
    created, and one for each sleep of 10 ms before a deadline; they are enough
    ([supervisor_never_spins]).  [json_loads] has twice the length of its text and one.

    ** What is assumed of the host

    A file that is written whole is read back as the value that was written (the round trip
    of JsonProps); flock excludes; a process is known by the object that started it; a
    write of at most PIPE_BUF bytes to a pipe is whole or fails; waiting for any child fails
    with ECHILD only when there is no descendant.  Contracts of the Todo library only check
    ([ContractLaws]).  Limits of json.loads on nesting and digits and of csv.reader on
    the length of a field, encodings of JSON bytes other than UTF-8, surrogates that cannot be
    encoded, and the rounding and overflow of deadlines in floats are not modelled.

    ** Not modelled

    Connections, schema migrations and backups, which carry no decisions; the provisioning
    of references and directories and the composition of providers; the MCP surface, CLI and
    terminal; readers of source trees and reports over them; the Pydantic models that only
    declare types; packaging and archived code; of the Todo reference the completion, gate
    and lane engines, whose claims and scheduling are modelled.  Concurrent threads inside
    one workflow operation are not interleaved: each takes the state as a whole.  A signal
    that raises in the middle of a Python statement is not modelled: a process is stopped
    between two calls. *)

From Stdlib Require Import ZArith.
From stdpp Require Export base numbers list gmap strings sorting.

#[export] Set Default Goal Selector "!".

(** ** Results: values or Python exceptions *)

(** The exceptions the modelled code raises or catches.  The string carries the
    message (the first argument of the Python exception). *)
Inductive exn :=
  | ValueError (msg : string)
  | ContractError (msg : string)
  | RuntimeError (msg : string)
  | PermissionError (msg : string)
  | IntegrityError
  | KeyError (key : string)
  | TypeError (msg : string)
  | OverflowError
  | OSError (msg : string)
  | LookupError (msg : string)
  | CsvError (msg : string)
  | AttributeError (msg : string)
  | TodoError (code : string)
  | WorkflowError (code : string)
  | SchedulerError (code : string)
  | UnsupportedOperation (code : string)
  | ReclamationPending (code : string)
  | NoGrant (code : string)
  | NativeProviderUnavailable (msg : string).

#[export] Instance exn_eq_dec : EqDecision exn.
Proof. solve_decision. Defined.

Inductive result (A : Type) :=
  | Ok (a : A)
  | Err (e : exn).
Arguments Ok {A} _.
Arguments Err {A} _.

#[export] Instance result_ret : MRet result := fun A a => Ok a.
#[export] Instance result_bind : MBind result := fun A B f m =>
  match m with Ok a => f a | Err e => Err e end.
#[export] Instance result_fmap : FMap result := fun A B f m =>
  match m with Ok a => Ok (f a) | Err e => Err e end.

(** [raise_if b e]: the Python statement "if b: raise e". *)
Definition raise_if (b : bool) (e : exn) : result unit :=
  if b then Err e else Ok tt.

Definition is_ok {A} (r : result A) : bool :=
  match r with Ok _ => true | Err _ => false end.

(** Evaluation of a comprehension whose body may raise: left to right, the
    first exception wins. *)
Fixpoint mapM_result {A B} (f : A -> result B) (l : list A) : result (list B) :=
  match l with
  | [] => Ok []
  | x :: l => y ← f x; ys ← mapM_result f l; Ok (y :: ys)
  end.

(** "[x for x in l if f(x)]" whose test may raise. *)
Fixpoint filterM_result {A} (f : A -> result bool) (l : list A) : result (list A) :=
  match l with
  | [] => Ok []
  | x :: l => b ← f x; ys ← filterM_result f l; Ok (if b : bool then x :: ys else ys)
  end.

(** A left fold whose body may raise (a Python "for" loop over [l]). *)
Fixpoint foldM {A B} (f : B -> A -> result B) (b : B) (l : list A) : result B :=
  match l with
  | [] => Ok b
  | x :: l => b' ← f b x; foldM f b' l
  end.

Lemma bind_Ok {A B} (a : A) (f : A -> result B) : Ok a ≫= f = f a.
Proof. done. Qed.

(** [res_step]: one step of a computation whose first action is known. *)
Ltac res_step := rewrite bind_Ok; cbv beta.

Lemma result_bind_ok {A B} (m : result A) (f : A -> result B) b :
  m ≫= f = Ok b -> exists a, m = Ok a /\ f a = Ok b.
Proof. destruct m as [a|e]; simpl; [eauto|discriminate]. Qed.

Lemma result_bind_err {A B} (m : result A) (f : A -> result B) e :
  m ≫= f = Err e -> m = Err e \/ exists a, m = Ok a /\ f a = Err e.
Proof.
  destruct m as [a|e']; simpl; intros H.
  - right. by exists a.
  - left. congruence.
Qed.

Lemma raise_if_ok b e u : raise_if b e = Ok u -> b = false.
Proof. by destruct b. Qed.

Lemma Ok_inj {A} (a b : A) : Ok a = Ok b -> a = b.
Proof. congruence. Qed.

(** [inv_res] splits a hypothesis [m ≫= f = Ok _] (or a guard) repeatedly. *)
Ltac inv_res :=
  repeat match goal with
  | H : (_ ≫= _) = Ok _ |- _ =>
      let a := fresh "a" in let Ha := fresh "Ha" in
      apply result_bind_ok in H; destruct H as (a & Ha & H)
  | H : raise_if _ _ = Ok _ |- _ => apply raise_if_ok in H
  | H : Ok _ = Ok _ |- _ => apply Ok_inj in H; subst
  | H : mret _ = Ok _ |- _ => apply Ok_inj in H; subst
  | H : Err _ = Ok _ |- _ => discriminate H
  | H : Ok _ = Err _ |- _ => discriminate H
  end.

Lemma foldM_invariant {A B} (P : B -> Prop) (f : B -> A -> result B) l b b' :
  (forall b x b', x ∈ l -> P b -> f b x = Ok b' -> P b') ->
  P b -> foldM f b l = Ok b' -> P b'.
Proof.
  revert b; induction l as [|x l IH]; intros b Hstep Hb Hf; simpl in Hf.
  - by inv_res.
  - inv_res. eapply IH; [|eapply Hstep; [left|exact Hb|exact Ha]|exact Hf].
    intros b1 y b2 Hy. apply Hstep. by right.
Qed.

(** [compute_decide]: a closed decidable goal, by evaluating its decision. *)
Ltac compute_decide := apply (bool_decide_unpack _); vm_compute; exact I.

(** ** Sorted duplicate-free lists: Python's "sorted(set(l))" *)

Definition sorted_set (l : list string) : list string :=
  merge_sort String.le (remove_dups l).

Lemma elem_of_sorted_set x l : x ∈ sorted_set l <-> x ∈ l.
Proof.
  unfold sorted_set. rewrite merge_sort_Permutation. apply elem_of_remove_dups.
Qed.

Lemma NoDup_sorted_set l : NoDup (sorted_set l).
Proof.
  unfold sorted_set. rewrite merge_sort_Permutation. apply NoDup_remove_dups.
Qed.

Lemma StronglySorted_sorted_set l : StronglySorted String.le (sorted_set l).
Proof. apply StronglySorted_merge_sort; apply _. Qed.

(** Two inputs with the same elements give the same list. *)
Lemma sorted_set_ext l k :
  (forall x, x ∈ l <-> x ∈ k) -> sorted_set l = sorted_set k.
Proof.
  intros H. apply (StronglySorted_unique String.le).
  1,2: apply StronglySorted_sorted_set.
  apply NoDup_Permutation; [apply NoDup_sorted_set..|].
  intros x. by rewrite !elem_of_sorted_set.
Qed.

Lemma sorted_set_nil l : sorted_set l = [] -> l = [].
Proof.
  intros H. destruct l as [|x l]; [done|].
  assert (x ∈ sorted_set (x :: l)) as Hx by (apply elem_of_sorted_set; left).
  rewrite H in Hx. by apply elem_of_nil in Hx.
Qed.

Create Rewrite HintDb pc.
#[export] Hint Rewrite @elem_of_sorted_set : pc.

(** ** Sums *)

Definition sumZ {A} (f : A -> Z) (l : list A) : Z :=
  foldr (fun x acc => f x + acc)%Z 0%Z l.

Lemma sumZ_app {A} (f : A -> Z) l k : sumZ f (l ++ k) = (sumZ f l + sumZ f k)%Z.
Proof. induction l as [|x l IH]; simpl; lia. Qed.

Lemma sumZ_nonneg {A} (f : A -> Z) l :
  (forall x, x ∈ l -> (0 <= f x)%Z) -> (0 <= sumZ f l)%Z.
Proof.
  induction l as [|x l IH]; intros H; simpl; [lia|].
  specialize (H x (list_elem_of_here _ _)) as Hx.
  assert (0 <= sumZ f l)%Z by (apply IH; intros y Hy; apply H; by right). lia.
Qed.

(** ** Combinations: Python's "itertools.combinations(l, n)" *)

(** Sub-lists of length [n], in the order itertools yields them. *)
Fixpoint combinations {A} (n : nat) (l : list A) : list (list A) :=
  match n, l with
  | O, _ => [[]]
  | S _, [] => []
  | S m, x :: l' => map (cons x) (combinations m l') ++ combinations n l'
  end.

Lemma combinations_spec {A} (n : nat) (l c : list A) :
  c ∈ combinations n l <-> sublist c l /\ length c = n.
Proof.
  revert n c; induction l as [|x l IH]; intros n c.
  - destruct n as [|n]; simpl.
    + rewrite list_elem_of_singleton, sublist_nil_r.
      split; [by intros ->|by intros [-> _]].
    + split; [by intros ?%elem_of_nil|]. intros [->%sublist_nil_r Hl]. done.
  - destruct n as [|n]; simpl.
    + rewrite list_elem_of_singleton.
      split; [intros ->; split; [apply sublist_nil_l|done]|].
      intros [_ Hl]. by apply nil_length_inv.
    + rewrite elem_of_app, list_elem_of_fmap. setoid_rewrite IH.
      split.
      * intros [(c' & -> & Hs & <-)|[Hs Hl]].
        -- split; [by constructor|done].
        -- split; [by constructor|done].
      * intros [Hs Hl]. inversion Hs as [|y c' ? Hs'|y c' ? Hs']; subst.
        -- left. eexists. split; [done|]. split; [done|]. simpl in Hl; lia.
        -- by right.
Qed.

(** ** Lists *)

Lemma map_id_on {A} (f : A -> A) l : (forall x, x ∈ l -> f x = x) -> map f l = l.
Proof.
  intros H. rewrite <-(map_id l) at 2. apply map_ext_in. intros x Hx%list_elem_of_In. auto.
Qed.

Lemma foldl_map {A B C} (f : C -> B -> C) (g : A -> B) l c :
  foldl f c (map g l) = foldl (fun c x => f c (g x)) c l.
Proof. revert c. induction l as [|x l IH]; intros c; simpl; auto. Qed.

Lemma find_none_forall {A} (f : A -> bool) l :
  List.find f l = None <-> forall x, x ∈ l -> f x = false.
Proof.
  split.
  - intros H x Hx. apply (List.find_none _ _ H). by apply list_elem_of_In.
  - intros H. destruct (List.find f l) as [x|] eqn:E; [|done].
    apply List.find_some in E as [Hx Hf]. apply list_elem_of_In in Hx. by rewrite (H x Hx) in Hf.
Qed.

Lemma find_some_elem {A} (f : A -> bool) l x : List.find f l = Some x -> x ∈ l /\ f x = true.
Proof. intros [Hx Hf]%List.find_some. split; [by apply list_elem_of_In|done]. Qed.

Lemma find_app {A} (f : A -> bool) l k :
  List.find f (l ++ k) = match List.find f l with Some x => Some x | None => List.find f k end.
Proof. induction l as [|x l IH]; simpl; [done|]. by destruct (f x). Qed.

Lemma elem_of_list_filter {A} (f : A -> bool) l x : x ∈ List.filter f l <-> x ∈ l /\ f x = true.
Proof. rewrite !list_elem_of_In. apply List.filter_In. Qed.

Lemma find_map_id {A} (k : A -> String.string) (f : A -> A) id l :
  (forall x, k (f x) = k x) ->
  List.find (fun x => String.eqb (k x) id) (map f l) = option_map f (List.find (fun x => String.eqb (k x) id) l).
Proof. intros Hk. induction l as [|x l IH]; [done|]. cbn. rewrite Hk. by destruct (String.eqb _ _). Qed.

Lemma NoDup_map_filter {A B} (f : A -> B) (h : A -> bool) (l : list A) : NoDup (map f l) -> NoDup (map f (List.filter h l)).
Proof.
  induction l as [|a l IH]; cbn; [done|]. intros [Ha Hn]%NoDup_cons. destruct (h a); cbn; [|auto].
  apply NoDup_cons. split; [|auto]. intros (y & E & Hy)%list_elem_of_fmap.
  apply list_elem_of_In, List.filter_In in Hy as [Hy _]. apply Ha. rewrite E.
  apply list_elem_of_fmap. exists y. split; [done|by apply list_elem_of_In].
Qed.

Lemma NoDup_map_eq {A B} (f : A -> B) l x y : NoDup (map f l) -> x ∈ l -> y ∈ l -> f x = f y -> x = y.
Proof.
  intros Hnd [i Hi]%list_elem_of_lookup [j Hj]%list_elem_of_lookup E. assert (i = j) as ->; [|congruence].
  eapply (NoDup_lookup _ _ _ _ Hnd); [by rewrite list_lookup_fmap, Hi|by rewrite list_lookup_fmap, Hj; cbn; rewrite E].
Qed.

Lemma existsb_map {A B} (f : B -> bool) (g : A -> B) l :
  existsb f (map g l) = existsb (fun x => f (g x)) l.
Proof. induction l as [|x l IH]; simpl; congruence. Qed.

Lemma existsb_ext_in {A} (f g : A -> bool) l :
  (forall x, x ∈ l -> f x = g x) -> existsb f l = existsb g l.
Proof.
  induction l as [|x l IH]; intros H; simpl; [done|].
  rewrite (H x) by left. f_equal. apply IH. intros y Hy. apply H. by right.
Qed.

(** "list(dict.fromkeys(l))": the first occurrence of each element, in order. *)
Fixpoint unique_from {A} `{EqDecision A} (seen : list A) (l : list A) : list A :=
  match l with
  | [] => []
  | x :: l => if bool_decide (x ∈ seen) then unique_from seen l else x :: unique_from (x :: seen) l
  end.
Definition unique_first {A} `{EqDecision A} (l : list A) : list A := unique_from [] l.

Lemma elem_of_unique_from {A} `{EqDecision A} (seen l : list A) x :
  x ∈ unique_from seen l <-> x ∈ l /\ (x ∉ seen).
Proof.
  revert seen. induction l as [|y l IH]; intros seen; simpl.
  { split; [by intros ?%not_elem_of_nil|by intros [?%not_elem_of_nil _]]. }
  destruct (bool_decide_reflect (y ∈ seen)) as [Hy|Hy].
  - rewrite IH, elem_of_cons. split; [tauto|]. intros [[->|Hx] Hn]; tauto.
  - rewrite elem_of_cons, IH, !elem_of_cons. destruct (decide (x = y)) as [->|]; tauto.
Qed.

Lemma elem_of_unique_first {A} `{EqDecision A} (l : list A) x : x ∈ unique_first l <-> x ∈ l.
Proof.
  unfold unique_first. rewrite elem_of_unique_from. split; [tauto|].
  intros H. split; [done|apply not_elem_of_nil].
Qed.

Lemma NoDup_unique_from {A} `{EqDecision A} (seen l : list A) : NoDup (unique_from seen l).
Proof.
  revert seen. induction l as [|x l IH]; intros seen; simpl; [constructor|].
  destruct (bool_decide (x ∈ seen)); [done|]. constructor; [|done].
  rewrite elem_of_unique_from. intros [_ H]. apply H. left.
Qed.

Lemma existsb_false_forall {A} (f : A -> bool) l :
  existsb f l = false <-> forall x, x ∈ l -> f x = false.
Proof.
  rewrite <-Bool.not_true_iff_false, existsb_exists. split.
  - intros H x Hx. destruct (f x) eqn:E; [|done]. destruct H. exists x.
    split; [by apply list_elem_of_In|done].
  - intros H (x & Hx & Hf). apply list_elem_of_In in Hx. rewrite (H x Hx) in Hf. done.
Qed.

Lemma NoDup_snoc {A} (l : list A) x : NoDup l -> x ∉ l -> NoDup (l ++ [x]).
Proof.
  intros Hl Hx. apply NoDup_app. split; [done|]. split; [|apply NoDup_singleton].
  intros y Hy ->%list_elem_of_singleton. done.
Qed.
