(* ===== verification/PyValue.v ===== *)
(** * Python values as the wire contracts see them

    The values a JSON document denotes once Python has loaded it, with the
    operations the modelled code applies to them: truth, [isinstance] tests,
    [dict.get], equality against an integer literal, and [json.dumps].  A Python
    [str] is its UTF-8 byte sequence, whose byte order is the code-point order
    Python's [sorted] uses.  A float is an IEEE-754 datum ([spec_float], binary64
    when built by [float_of_int]). *)

From Stdlib Require Import ZArith SpecFloat.
From S2P Require Import Prelude.

#[local] Open Scope Z_scope.
#[local] Set Warnings "-register-all".

Inductive pyval :=
  | PNone
  | PBool (b : bool)
  | PInt (z : Z)
  | PFloat (f : spec_float)
  | PStr (s : string)
  | PList (l : list pyval)
  | PDict (d : list (string * pyval)).

(** Association lists in insertion order stand for [dict]: [dict_get] reads the
    first entry; a dict that Python can hold has no duplicate key. *)
Abbreviation pydict := (list (string * pyval)).

Fixpoint dict_get {K A} `{EqDecision K} (k : K) (d : list (K * A)) : option A :=
  match d with
  | [] => None
  | (k', v) :: d => if decide (k = k') then Some v else dict_get k d
  end.

Definition dict_mem {K A} `{EqDecision K} (k : K) (d : list (K * A)) : bool :=
  bool_decide (k ∈ d.*1).

(** "d[k] = v": in place when the key is present, appended otherwise. *)
Fixpoint dict_set {K A} `{EqDecision K} (k : K) (v : A) (d : list (K * A)) : list (K * A) :=
  match d with
  | [] => [(k, v)]
  | (k', v') :: d => if decide (k = k') then (k, v) :: d
                     else (k', v') :: dict_set k v d
  end.

Definition dict_get_default (k : string) (dflt : pyval) (d : pydict) : pyval :=
  default dflt (dict_get k d).

(** Truth value testing ("if v", "not v", "v or w"). *)
Definition truthy (v : pyval) : bool :=
  match v with
  | PNone => false
  | PBool b => b
  | PInt z => negb (z =? 0)
  | PFloat (S754_zero _) => false
  | PFloat _ => true
  | PStr s => negb (String.eqb s "")
  | PList l => match l with [] => false | _ => true end
  | PDict d => match d with [] => false | _ => true end
  end.

(** Iteration over a value: a list, the keys of a dict or the characters of a string. *)
Fixpoint chars (s : string) : list pyval :=
  match s with
  | EmptyString => []
  | String c s => PStr (String c EmptyString) :: chars s
  end.

Definition py_iter (v : pyval) : result (list pyval) :=
  match v with
  | PList l => Ok l
  | PDict d => Ok (map (fun kv => PStr kv.1) d)
  | PStr s => Ok (chars s)
  | _ => Err (TypeError "not iterable")
  end.

(** Lists and dicts are not hashable. *)
Definition hashable (v : pyval) : bool := match v with PList _ | PDict _ => false | _ => true end.

Definition is_bool (v : pyval) : bool := match v with PBool _ => true | _ => false end.
Definition as_str (v : pyval) : option string := match v with PStr s => Some s | _ => None end.

(** "isinstance(v, int)": [bool] is a subclass of [int]. *)
Definition as_int (v : pyval) : option Z :=
  match v with PInt z => Some z | PBool b => Some (Z.b2z b) | _ => None end.

(** "float(z)": round to nearest even in binary64; an integer too large for a
    double raises [OverflowError]. *)
Definition float_of_int (z : Z) : result spec_float :=
  match binary_normalize 53 1024 z 0 false with
  | S754_infinity _ => Err OverflowError
  | f => Ok f
  end.

(** The integer a finite float equals exactly, if any: mantissa times 2^e. *)
Definition float_exact_int (f : spec_float) : option Z :=
  match f with
  | S754_zero _ => Some 0
  | S754_finite s m e =>
      let v := if s then Z.neg m else Z.pos m in
      if 0 <=? e then Some (v * 2 ^ e)
      else if v mod 2 ^ (- e) =? 0 then Some (v / 2 ^ (- e)) else None
  | _ => None
  end.

(** "v == z" for an integer literal [z]: [True == 1] and [1.0 == 1] hold. *)
Definition eq_int (v : pyval) (z : Z) : bool :=
  match v with
  | PInt z' => z' =? z
  | PBool b => Z.b2z b =? z
  | PFloat f => bool_decide (float_exact_int f = Some z)
  | _ => false
  end.

(** The strings of a list all of whose items are [str]. *)
Fixpoint all_strs (l : list pyval) : option (list string) :=
  match l with
  | [] => Some []
  | PStr s :: l => cons s <$> all_strs l
  | _ => None
  end.

Lemma all_strs_map l ss : all_strs l = Some ss <-> l = map PStr ss.
Proof.
  split.
  - revert ss; induction l as [|v l IH]; intros ss H; simpl in H; simplify_eq; [done|].
    destruct v; try discriminate.
    destruct (all_strs l) as [ss'|] eqn:E; simpl in H; simplify_eq.
    simpl. f_equal. by apply IH.
  - intros ->. induction ss as [|s ss IH]; simpl; [done|]. by rewrite IH.
Qed.

(** ** Lemmas on dictionaries *)

Lemma dict_get_elem {K A} `{EqDecision K} (k : K) v (d : list (K * A)) :
  dict_get k d = Some v -> (k, v) ∈ d.
Proof.
  induction d as [|[k' v'] d IH]; simpl; [done|].
  case_decide; intros; simplify_eq; [by left|right; auto].
Qed.

Lemma dict_get_nil {K A} `{EqDecision K} (k : K) : dict_get k (@nil (K * A)) = None.
Proof. done. Qed.

Lemma dict_get_cons_eq {K A} `{EqDecision K} (k : K) (v : A) d : dict_get k ((k, v) :: d) = Some v.
Proof. simpl. by rewrite decide_True. Qed.

Lemma dict_get_cons_ne {K A} `{EqDecision K} (k k' : K) (v : A) d :
  k <> k' -> dict_get k ((k', v) :: d) = dict_get k d.
Proof. intros H. simpl. by rewrite decide_False. Qed.

Lemma dict_get_NoDup {K A} `{EqDecision K} (k : K) v (d : list (K * A)) :
  NoDup d.*1 -> (k, v) ∈ d -> dict_get k d = Some v.
Proof.
  induction d as [|[k' v'] d IH]; simpl; intros Hd Hin.
  - by apply elem_of_nil in Hin.
  - apply NoDup_cons in Hd as [Hk Hd]. apply elem_of_cons in Hin as [Heq|Hin].
    + simplify_eq. by rewrite decide_True.
    + case_decide; subst; [|by apply IH].
      destruct Hk. apply list_elem_of_fmap. by exists (k', v).
Qed.

Lemma dict_get_None {K A} `{EqDecision K} (k : K) (d : list (K * A)) :
  dict_get k d = None <-> k ∉ d.*1.
Proof.
  induction d as [|[k' v'] d IH]; simpl.
  - split; [intros _; apply not_elem_of_nil|done].
  - rewrite not_elem_of_cons. case_decide; subst; [naive_solver|].
    rewrite IH. naive_solver.
Qed.

Lemma dict_get_set_eq {K A} `{EqDecision K} (k : K) (v : A) d : dict_get k (dict_set k v d) = Some v.
Proof.
  induction d as [|[k' v'] d IH]; simpl; [by rewrite decide_True|].
  case_decide; simpl; subst; [by rewrite decide_True|]. by rewrite decide_False.
Qed.

Lemma dict_get_set_ne {K A} `{EqDecision K} (k k' : K) (v : A) d :
  k <> k' -> dict_get k' (dict_set k v d) = dict_get k' d.
Proof.
  intros Hne. induction d as [|[k2 v2] d IH]; simpl.
  - by rewrite decide_False by congruence.
  - case_decide as H1; subst; simpl.
    + by rewrite !decide_False by congruence.
    + by rewrite IH.
Qed.

Lemma dict_set_keys {K A} `{EqDecision K} (k : K) (v : A) d :
  (dict_set k v d).*1 = if decide (k ∈ d.*1) then d.*1 else d.*1 ++ [k].
Proof.
  induction d as [|[k' v'] d IH]; csimpl; [done|].
  destruct (decide (k = k')) as [->|Hne]; csimpl.
  - clear IH. case_decide as H2; [done|]. destruct H2. by left.
  - rewrite IH. assert (k ∈ k' :: d.*1 <-> k ∈ d.*1) as Hiff by set_solver.
    clear IH. repeat case_decide; tauto.
Qed.

Lemma dict_set_NoDup {K A} `{EqDecision K} (k : K) (v : A) d : NoDup d.*1 -> NoDup (dict_set k v d).*1.
Proof.
  intros Hd. rewrite dict_set_keys. case_decide as H1; [done|].
  apply NoDup_app. split; [done|]. split; [|apply NoDup_singleton].
  intros x Hx ->%list_elem_of_singleton. done.
Qed.

Lemma dict_get_app {K A} `{EqDecision K} (k : K) (d1 d2 : list (K * A)) :
  dict_get k (d1 ++ d2) = match dict_get k d1 with Some v => Some v | None => dict_get k d2 end.
Proof.
  induction d1 as [|[k' v'] d1 IH]; simpl; [done|]. by destruct (decide (k = k')).
Qed.

(** "{key: d[key] for key in ks if key in d}". *)
Definition dict_select {K A} `{EqDecision K} (ks : list K) (d : list (K * A)) : list (K * A) :=
  omap (fun k => v ← dict_get k d; Some (k, v)) ks.

Lemma dict_get_select {K A} `{EqDecision K} (k : K) ks (d : list (K * A)) :
  dict_get k (dict_select ks d) = if bool_decide (k ∈ ks) then dict_get k d else None.
Proof.
  unfold dict_select. induction ks as [|k' ks IH]; csimpl; [done|].
  destruct (decide (k = k')) as [->|Hne].
  - rewrite bool_decide_true by (by left).
    destruct (dict_get k' d) as [v|] eqn:Hk'; csimpl.
    + by rewrite decide_True.
    + rewrite IH. by case_bool_decide.
  - rewrite (bool_decide_ext (k ∈ k' :: ks) (k ∈ ks)) by set_solver.
    destruct (dict_get k' d) as [v|] eqn:Hk'; csimpl; [|done].
    by rewrite decide_False.
Qed.

Lemma dict_select_keys {K A} `{EqDecision K} (k : K) ks (d : list (K * A)) :
  k ∈ (dict_select ks d).*1 -> k ∈ ks.
Proof.
  intros Hk. destruct (decide (k ∈ ks)) as [|Hn]; [done|].
  assert (dict_get k (dict_select ks d) = None) as HN.
  { rewrite dict_get_select. by rewrite bool_decide_false. }
  by apply dict_get_None in HN.
Qed.

Lemma dict_select_ext {K A} `{EqDecision K} ks (d d' : list (K * A)) :
  (forall k, k ∈ ks -> dict_get k d = dict_get k d') -> dict_select ks d = dict_select ks d'.
Proof.
  unfold dict_select. induction ks as [|k ks IH]; intros H; csimpl; [done|].
  rewrite (H k) by left. rewrite IH; [done|]. intros k' Hk'. apply H. by right.
Qed.

(** "groups.setdefault(key(x), []).append(x)" over a list; an item without a key is left out. *)
Definition group_by {K A} `{EqDecision K} (key : A -> option K) (l : list A) : list (K * list A) :=
  foldl (fun groups x => match key x with
                         | Some k => dict_set k (default [] (dict_get k groups) ++ [x]) groups
                         | None => groups
                         end) [] l.

Lemma group_by_get {K A} `{EqDecision K} (key : A -> option K) l k :
  default [] (dict_get k (group_by key l)) = List.filter (fun x => bool_decide (key x = Some k)) l.
Proof.
  unfold group_by. induction l as [|x l IH] using rev_ind; [done|]. rewrite foldl_app, List.filter_app. cbn [foldl List.filter].
  destruct (key x) as [k'|]; [|by rewrite bool_decide_eq_false_2, app_nil_r].
  destruct (decide (k' = k)) as [->|Hne].
  - rewrite dict_get_set_eq, bool_decide_eq_true_2 by done. cbn [default]. by rewrite IH.
  - rewrite dict_get_set_ne, bool_decide_eq_false_2, app_nil_r by congruence. exact IH.
Qed.

Lemma group_by_NoDup {K A} `{EqDecision K} (key : A -> option K) l : NoDup (group_by key l).*1.
Proof.
  unfold group_by. induction l as [|x l IH] using rev_ind; [constructor|]. rewrite foldl_app. cbn [foldl].
  destruct (key x); [by apply dict_set_NoDup|done].
Qed.

Lemma group_by_spec {K A} `{EqDecision K} (key : A -> option K) l k g :
  (k, g) ∈ group_by key l -> g = List.filter (fun x => bool_decide (key x = Some k)) l.
Proof.
  intros H. rewrite <-group_by_get. by rewrite (dict_get_NoDup _ _ _ (group_by_NoDup key l) H).
Qed.

Lemma group_by_covers {K A} `{EqDecision K} (key : A -> option K) l x k :
  x ∈ l -> key x = Some k -> exists g, (k, g) ∈ group_by key l /\ x ∈ g.
Proof.
  intros Hx Hk. pose proof (group_by_get key l k) as Hg.
  assert (x ∈ List.filter (fun x => bool_decide (key x = Some k)) l) as Hin.
  { apply list_elem_of_In, List.filter_In. split; [by apply list_elem_of_In|by apply bool_decide_eq_true]. }
  rewrite <-Hg in Hin. destruct (dict_get k (group_by key l)) as [g|] eqn:E; [|by apply not_elem_of_nil in Hin].
  exists g. split; [by apply dict_get_elem|done].
Qed.

(** Reads concrete fields off dict literals whose values may be variables. *)
Ltac dict_lookup :=
  unfold dict_get_default;
  repeat (rewrite dict_get_nil || rewrite dict_get_cons_eq || rewrite dict_get_cons_ne by discriminate).
