(* ===== verification/Text.v ===== *)
(** * Python string operations

    The [str] methods the modelled code uses, on ASCII text: [splitlines], [split],
    [strip], [startswith], [isdigit], [int], and the "in" tests; and [csv.reader].  Characters above
    127 are bytes of a UTF-8 sequence here and count as none of space, line break,
    digit or letter. *)

From Stdlib Require Import ZArith SpecFloat.
From stdpp Require Import pretty.
From S2P Require Import Prelude PyValue.

#[local] Open Scope string_scope.
#[local] Open Scope Z_scope.
#[local] Open Scope list_scope.

Definition code (c : Ascii.ascii) : nat := Ascii.nat_of_ascii c.

(** A character given by its code. *)
Definition chr (n : nat) : string := String (Ascii.ascii_of_nat n) EmptyString.

Definition in_range (lo hi : nat) (c : Ascii.ascii) : bool := ((lo <=? code c) && (code c <=? hi))%nat.

(** str.isspace on ASCII: HT to CR, FS to US, space. *)
Definition is_space (c : Ascii.ascii) : bool :=
  in_range 9 13 c || in_range 28 31 c || (code c =? 32)%nat.

(** The line breaks of str.splitlines on ASCII: LF, VT, FF, CR, FS, GS, RS. *)
Definition is_break (c : Ascii.ascii) : bool := in_range 10 13 c || in_range 28 30 c.

Definition is_digit (c : Ascii.ascii) : bool := in_range 48 57 c.

Definition snoc (s : string) (c : Ascii.ascii) : string := s +:+ String c EmptyString.

(** "s.splitlines()"; [acc] is the line being read. *)
Fixpoint splitlines_from (acc : string) (s : string) : list string :=
  match s with
  | EmptyString => if String.eqb acc "" then [] else [acc]
  | String c s =>
      if is_break c
      then acc :: match s with
                  | String c' s' =>
                      if ((code c =? 13) && (code c' =? 10))%nat
                      then splitlines_from "" s' else splitlines_from "" s
                  | EmptyString => []
                  end
      else splitlines_from (snoc acc c) s
  end.
Definition splitlines (s : string) : list string := splitlines_from "" s.

(** "s.split(sep)" for a one-character separator. *)
Fixpoint split_on_from (sep : Ascii.ascii) (acc : string) (s : string) : list string :=
  match s with
  | EmptyString => [acc]
  | String c s => if Ascii.eqb c sep then acc :: split_on_from sep "" s
                  else split_on_from sep (snoc acc c) s
  end.
Definition split_on (sep : Ascii.ascii) (s : string) : list string := split_on_from sep "" s.

(** "s.split()". *)
Fixpoint split_ws_from (acc : string) (s : string) : list string :=
  match s with
  | EmptyString => if String.eqb acc "" then [] else [acc]
  | String c s =>
      if is_space c
      then (if String.eqb acc "" then [] else [acc]) ++ split_ws_from "" s
      else split_ws_from (snoc acc c) s
  end.
Definition split_ws (s : string) : list string := split_ws_from "" s.

Fixpoint lstrip_while (f : Ascii.ascii -> bool) (s : string) : string :=
  match s with
  | EmptyString => EmptyString
  | String c s' => if f c then lstrip_while f s' else s
  end.

Fixpoint rstrip_while (f : Ascii.ascii -> bool) (s : string) : string :=
  match s with
  | EmptyString => EmptyString
  | String c s =>
      match rstrip_while f s with
      | EmptyString => if f c then EmptyString else String c EmptyString
      | r => String c r
      end
  end.

Definition strip (s : string) : string := rstrip_while is_space (lstrip_while is_space s).

Fixpoint all_chars (f : Ascii.ascii -> bool) (s : string) : bool :=
  match s with EmptyString => true | String c s => f c && all_chars f s end.

Fixpoint any_char (f : Ascii.ascii -> bool) (s : string) : bool :=
  match s with EmptyString => false | String c s => f c || any_char f s end.

(** "s.isdigit()". *)
Definition isdigit (s : string) : bool := negb (String.eqb s "") && all_chars is_digit s.

Definition digit_value (c : Ascii.ascii) : Z := Z.of_nat (code c) - 48.

Fixpoint digits_value (acc : Z) (s : string) : Z :=
  match s with EmptyString => acc | String c s => digits_value (10 * acc + digit_value c) s end.

(** The digits of an integer literal: digits, with single underscores between. *)
Fixpoint underscored (after_digit : bool) (s : string) : option string :=
  match s with
  | EmptyString => if after_digit then Some EmptyString else None
  | String c s =>
      if is_digit c then String c <$> underscored true s
      else if after_digit && (code c =? 95)%nat then underscored false s else None
  end.

(** "int(s)"; None where it raises ValueError. *)
Definition int_of_str (s : string) : option Z :=
  let s := strip s in
  let body sign s := ds ← underscored false s; Some (sign * digits_value 0 ds) in
  match s with
  | String c s' =>
      if (code c =? 45)%nat then body (-1) s'
      else if (code c =? 43)%nat then body 1 s' else body 1 s
  | EmptyString => None
  end.

(** "int(f)": towards zero. *)
Definition int_of_float (f : spec_float) : result Z :=
  match f with
  | S754_zero _ => Ok 0
  | S754_finite s m e =>
      let v := if 0 <=? e then Z.pos m * 2 ^ e else Z.pos m / 2 ^ (- e) in Ok (if s then - v else v)
  | S754_infinity _ => Err OverflowError
  | S754_nan => Err (ValueError "cannot convert float NaN to integer")
  end.

(** "int(v)" of a JSON value. *)
Definition py_int (v : pyval) : result Z :=
  match v with
  | PInt z => Ok z
  | PBool b => Ok (Z.b2z b)
  | PFloat f => int_of_float f
  | PStr s => match int_of_str s with Some z => Ok z | None => Err (ValueError "invalid literal for int() with base 10") end
  | _ => Err (TypeError "int() argument must be a string or a real number")
  end.

(** "str(v)" of a JSON value; the text of floats, lists and dicts is a parameter. *)
Definition py_str (repr : pyval -> string) (v : pyval) : string :=
  match v with
  | PStr s => s
  | PInt z => pretty z
  | PBool b => if b then "True" else "False"
  | PNone => "None"
  | _ => repr v
  end.

(** "s[n:]". *)
Definition drop_str (n : nat) (s : string) : string :=
  String.substring n (String.length s - n) s.

(** "l.index(x)". *)
Fixpoint index_of (x : string) (l : list string) : option nat :=
  match l with
  | [] => None
  | y :: l => if String.eqb x y then Some O else S <$> index_of x l
  end.

(** "s.startswith(p)". *)
Definition starts_with (p s : string) : bool := String.prefix p s.

(** "s.removeprefix(p)". *)
Definition removeprefix (p s : string) : string :=
  if starts_with p s then drop_str (String.length p) s else s.

(** "s.replace(p, '', 1)". *)
Fixpoint remove_first (p s : string) : string :=
  if starts_with p s then drop_str (String.length p) s
  else match s with
       | EmptyString => EmptyString
       | String c s => String c (remove_first p s)
       end.

(** ASCII lower case. *)
Definition lower_ascii (c : Ascii.ascii) : Ascii.ascii :=
  let n := Ascii.nat_of_ascii c in
  if ((65 <=? n) && (n <=? 90))%nat then Ascii.ascii_of_nat (n + 32) else c.

Fixpoint lower (s : string) : string :=
  match s with EmptyString => EmptyString | String c s => String (lower_ascii c) (lower s) end.

(** Python's "<" on lists of strings. *)
Fixpoint strs_lt (l k : list string) : bool :=
  match l, k with
  | [], [] => false
  | [], _ :: _ => true
  | _ :: _, [] => false
  | x :: l, y :: k => if String.eqb x y then strs_lt l k else String.ltb x y
  end.

(** The number of code points of a UTF-8 string. *)
Fixpoint points (s : string) : nat :=
  match s with
  | EmptyString => O
  | String c s => if in_range 128 191 c then points s else S (points s)
  end.

(** The first [n] code points of a UTF-8 string. *)
Fixpoint take_points (n : nat) (s : string) : string :=
  match s with
  | EmptyString => ""
  | String c r =>
      if in_range 128 191 c then String c (take_points n r)
      else match n with O => "" | S n => String c (take_points n r) end
  end.

Definition is_tail (c : Ascii.ascii) : bool := in_range 128 191 c.

(** "s.encode()[:n].decode("utf-8", "ignore")": the longest prefix of at most [n] bytes that
    ends where a code point does; [kept] is the last such prefix found. *)
Fixpoint take_bytes (n : nat) (acc kept : string) (s : string) : string :=
  match s with
  | EmptyString => acc
  | String c r =>
      let kept := if is_tail c then kept else acc in
      match n with
      | O => kept
      | S n => take_bytes n (snoc acc c) kept r
      end
  end.

(** "s.rsplit(m, 1)" when [m] occurs. *)
Fixpoint rsplit_once (m s : string) : option (string * string) :=
  match s with
  | EmptyString => None
  | String c r =>
      match rsplit_once m r with
      | Some (a, b) => Some (String c a, b)
      | None => if String.prefix m s then Some ("", drop_str (String.length m) s) else None
      end
  end.

(** ** csv.reader, default dialect

    The bound the module sets on the length of a field is not modelled. *)

Inductive csv_state :=
  | StartRecord | StartField | InField | InQuoted | QuoteInQuoted | EatCrnl.

Record csv_reader := {
  cs_state : csv_state;
  cs_field : string;
  cs_fields : list string;
  cs_rows : list (list string)
}.

Definition is_crnl (c : Ascii.ascii) : bool := (code c =? 10)%nat || (code c =? 13)%nat.
Definition is_quote (c : Ascii.ascii) : bool := (code c =? 34)%nat.
Definition is_comma (c : Ascii.ascii) : bool := (code c =? 44)%nat.

Definition csv_goto (r : csv_reader) (st : csv_state) : csv_reader :=
  {| cs_state := st; cs_field := cs_field r; cs_fields := cs_fields r; cs_rows := cs_rows r |}.
Definition csv_add (r : csv_reader) (c : Ascii.ascii) (st : csv_state) : csv_reader :=
  {| cs_state := st; cs_field := snoc (cs_field r) c; cs_fields := cs_fields r; cs_rows := cs_rows r |}.
Definition csv_save (r : csv_reader) (st : csv_state) : csv_reader :=
  {| cs_state := st; cs_field := ""; cs_fields := cs_fields r ++ [cs_field r]; cs_rows := cs_rows r |}.

Definition csv_error : exn := CsvError "new-line character seen in unquoted field".

(** One character of a line. *)
Definition csv_char (r : csv_reader) (c : Ascii.ascii) : result csv_reader :=
  match cs_state r with
  | StartRecord | StartField =>
      if is_crnl c
      then Ok (match cs_state r with StartRecord => csv_goto r EatCrnl | _ => csv_save r EatCrnl end)
      else if is_quote c then Ok (csv_goto r InQuoted)
      else if is_comma c then Ok (csv_save r StartField)
      else Ok (csv_add r c InField)
  | InField =>
      if is_crnl c then Ok (csv_save r EatCrnl)
      else if is_comma c then Ok (csv_save r StartField)
      else Ok (csv_add r c InField)
  | InQuoted => if is_quote c then Ok (csv_goto r QuoteInQuoted) else Ok (csv_add r c InQuoted)
  | QuoteInQuoted =>
      if is_quote c then Ok (csv_add r c InQuoted)
      else if is_comma c then Ok (csv_save r StartField)
      else if is_crnl c then Ok (csv_save r EatCrnl)
      else Ok (csv_add r c InField)
  | EatCrnl => if is_crnl c then Ok r else Err csv_error
  end.

Definition csv_emit (r : csv_reader) : csv_reader :=
  {| cs_state := StartRecord; cs_field := ""; cs_fields := []; cs_rows := cs_rows r ++ [cs_fields r] |}.

(** The end of a line: a record ends, unless a quoted field goes on. *)
Definition csv_eol (r : csv_reader) : csv_reader :=
  match cs_state r with
  | StartRecord | EatCrnl => csv_emit r
  | StartField | InField | QuoteInQuoted => csv_emit (csv_save r StartRecord)
  | InQuoted => r
  end.

(** The end of the input closes a quoted field left open. *)
Definition csv_eof (r : csv_reader) : list (list string) :=
  match cs_state r with
  | InQuoted => cs_rows (csv_emit (csv_save r StartRecord))
  | _ => cs_rows r
  end.

Definition csv_line (r : csv_reader) (line : string) : result csv_reader :=
  csv_eol <$> foldM csv_char r (String.list_ascii_of_string line).

(** Iterating a StringIO yields lines with their LF. *)
Fixpoint io_lines (acc : string) (s : string) : list string :=
  match s with
  | EmptyString => if String.eqb acc "" then [] else [acc]
  | String c s => if (code c =? 10)%nat then snoc acc c :: io_lines "" s
                  else io_lines (snoc acc c) s
  end.

(** A file opened with newline set to the empty string yields its lines with the LF, the CR
    or the CR LF that ends them. *)
Fixpoint newline_lines (acc : string) (s : string) : list string :=
  match s with
  | EmptyString => if String.eqb acc "" then [] else [acc]
  | String c s =>
      if (code c =? 10)%nat then snoc acc c :: newline_lines "" s
      else if (code c =? 13)%nat then
        match s with
        | String c' s' => if (code c' =? 10)%nat then snoc (snoc acc c) c' :: newline_lines "" s'
                          else snoc acc c :: newline_lines "" s
        | EmptyString => [snoc acc c]
        end
      else newline_lines (snoc acc c) s
  end.

(** The records of the lines; a blank line is the empty record. *)
Definition csv_records (lines : list string) : result (list (list string)) :=
  csv_eof <$> foldM csv_line
    {| cs_state := StartRecord; cs_field := ""; cs_fields := []; cs_rows := [] |} lines.

Definition csv_rows (s : string) : result (list (list string)) := csv_records (io_lines "" s).


Example splitlines_crlf : splitlines ("a" +:+ chr 13 +:+ chr 10 +:+ "b" +:+ chr 10) = ["a"; "b"].
Proof. reflexivity. Qed.
Example split_ws_ex : split_ws "  GPU0 X  NV1 " = ["GPU0"; "X"; "NV1"].
Proof. reflexivity. Qed.
Example int_of_str_ex : int_of_str " -1_2 " = Some (-12) /\ int_of_str "1__2" = None.
Proof. split; reflexivity. Qed.

Lemma digits_value_nonneg s acc :
  all_chars is_digit s = true -> 0 <= acc -> 0 <= digits_value acc s.
Proof.
  revert acc. induction s as [|c s IH]; simpl; intros acc H Ha; [done|].
  apply andb_true_iff in H as [Hc Hs]. apply IH; [done|].
  unfold is_digit, in_range in Hc. unfold digit_value.
  apply andb_true_iff in Hc as [Hc%Nat.leb_le _]. lia.
Qed.

(** ** Substrings *)

Lemma substring_split n m s : String.substring 0 n s +:+ String.substring n m s = String.substring 0 (n + m) s.
Proof.
  revert n. induction s as [|c s IH]; intros [|n]; [done|done|by destruct m|].
  cbn [String.substring Nat.add]. rewrite <-IH. done.
Qed.

Lemma substring_length n s : String.length (String.substring 0 n s) = Nat.min n (String.length s).
Proof. revert n. induction s as [|c s IH]; intros [|n]; cbn; try done. by rewrite IH. Qed.

Lemma substring_whole n s : (String.length s <= n)%nat -> String.substring 0 n s = s.
Proof. revert n. induction s as [|c s IH]; intros [|n]; cbn; intros Hn; try done; [lia|]. by rewrite IH by lia. Qed.

Lemma substring_rest n m s : (String.length s <= n + m)%nat -> String.length (String.substring n m s) = (String.length s - n)%nat.
Proof. revert n m. induction s as [|c s IH]; intros [|n] [|m]; cbn; intros H; try done; [lia|by rewrite IH; lia|by apply IH; lia|by apply IH; lia]. Qed.

Lemma take_drop_str n s : String.substring 0 n s +:+ drop_str n s = s.
Proof. unfold drop_str. rewrite substring_split. apply substring_whole. lia. Qed.

Lemma length_drop_str n s : String.length (drop_str n s) = (String.length s - n)%nat.
Proof. apply substring_rest. lia. Qed.
