(* ===== verification/Effects.v ===== *)
(** * Computations that call a service

    [io W A]: a computation that reads and changes the state [W] of what it calls and
    returns or raises.  An exception keeps the state it was raised in: what was sent is
    sent.  Loops whose body calls the service are [mapM_io] and [foldM_io]. *)

From S2P Require Import Prelude.

Definition io (W A : Type) : Type := W -> result A * W.

#[export] Instance io_ret {W} : MRet (io W) := fun A a w => (Ok a, w).
#[export] Instance io_bind {W} : MBind (io W) := fun A B f m w =>
  match m w with
  | (Ok a, w1) => f a w1
  | (Err e, w1) => (Err e, w1)
  end.

(** A result, without a call. *)
Definition lift {W A} (r : result A) : io W A := fun w => (r, w).

(** "raise e". *)
Definition throw {W A} (e : exn) : io W A := lift (Err e).

(** "if b: raise e". *)
Definition guard_io {W} (b : bool) (e : exn) : io W unit := lift (raise_if b e).

Fixpoint mapM_io {W A B} (f : A -> io W B) (l : list A) : io W (list B) :=
  match l with
  | [] => mret []
  | x :: l => y ← f x; ys ← mapM_io f l; mret (y :: ys)
  end.

Fixpoint foldM_io {W A B} (f : B -> A -> io W B) (b : B) (l : list A) : io W B :=
  match l with
  | [] => mret b
  | x :: l => b ← f b x; foldM_io f b l
  end.

Lemma io_bind_ok {W A B} (m : io W A) (f : A -> io W B) w b w' :
  (m ≫= f) w = (Ok b, w') -> exists a w1, m w = (Ok a, w1) /\ f a w1 = (Ok b, w').
Proof. unfold mbind, io_bind. destruct (m w) as [[a|e] w1]; [by eauto|discriminate]. Qed.

Lemma io_bind_run {W A B} (m : io W A) (f : A -> io W B) w a w1 : m w = (Ok a, w1) -> (m ≫= f) w = f a w1.
Proof. unfold mbind, io_bind. by intros ->. Qed.

Lemma io_bind_fail {W A B} (m : io W A) (f : A -> io W B) w e w1 : m w = (Err e, w1) -> (m ≫= f) w = (Err e, w1).
Proof. unfold mbind, io_bind. by intros ->. Qed.

Lemma lift_ok {W A} (r : result A) (w : W) a w' : lift r w = (Ok a, w') -> r = Ok a /\ w' = w.
Proof. by intros [= -> ->]. Qed.

Lemma guard_ok {W} b e (w : W) u w' : guard_io b e w = (Ok u, w') -> b = false /\ w' = w.
Proof. intros [H ->]%lift_ok. by apply raise_if_ok in H. Qed.

(** [inv_io] splits a hypothesis about a successful run repeatedly. *)
Ltac inv_io :=
  repeat match goal with
  | H : (_ ≫= _) _ = (Ok _, _) |- _ =>
      let a := fresh "a" in let w := fresh "w" in let Ha := fresh "Ha" in
      apply io_bind_ok in H; destruct H as (a & w & Ha & H)
  | H : guard_io _ _ _ = (Ok _, _) |- _ =>
      let Hw := fresh "Hw" in apply guard_ok in H; destruct H as [H Hw]; try subst
  | H : lift _ _ = (Ok _, _) |- _ =>
      let Hw := fresh "Hw" in apply lift_ok in H; destruct H as [H Hw]; try subst
  | H : mret _ _ = (Ok _, _) |- _ => injection H; clear H; intros; try subst
  | H : throw _ _ = (Ok _, _) |- _ => discriminate H
  end.

Lemma mapM_io_ok {W A B} (f : A -> io W B) l w ys w' :
  mapM_io f l w = (Ok ys, w') -> length ys = length l /\ forall y, y ∈ ys -> exists x w1 w2, x ∈ l /\ f x w1 = (Ok y, w2).
Proof.
  revert w ys. induction l as [|x l IH]; intros w ys H; cbn [mapM_io] in H; inv_io.
  - split; [done|]. by intros y Hy%not_elem_of_nil.
  - match goal with H : mapM_io _ _ _ = _ |- _ => apply IH in H as [H1 H2] end. split; [by cbn; rewrite H1|].
    intros y [->|Hy]%elem_of_cons; [by exists x, w, w0; split; [left|]|].
    destruct (H2 y Hy) as (z & w1' & w2' & Hz & E). exists z, w1', w2'. split; [by right|done].
Qed.
