(* ===== verification/Contracts.v ===== *)
(** * Wire contracts (src/src/project_control/host_resources/contracts.py)

    The dependency-free validators every host-resource request, command,
    artifact and evidence summary goes through.  Each [normalize_*] is a total
    function from a Python value to the normalised dict or to the exception the
    code raises, with the code's order of checks and its messages. *)

From Stdlib Require Import ZArith SpecFloat.
From S2P Require Import Prelude PyValue.

#[local] Open Scope string_scope.
#[local] Open Scope Z_scope.
#[local] Open Scope list_scope.

(** ** Helpers *)

Definition is_lower_hex (c : Ascii.ascii) : bool :=
  let n := Ascii.nat_of_ascii c in
  ((48 <=? n)%nat && (n <=? 57)%nat) || ((97 <=? n)%nat && (n <=? 102)%nat).

Fixpoint string_forallb (f : Ascii.ascii -> bool) (s : string) : bool :=
  match s with
  | EmptyString => true
  | String c s => f c && string_forallb f s
  end.

(** [_SHA256.fullmatch] and [_GIT_HEAD.fullmatch]. *)
Definition sha256_match (s : string) : bool :=
  (String.length s =? 64)%nat && string_forallb is_lower_hex s.

Definition git_head_match (s : string) : bool :=
  (40 <=? String.length s)%nat && (String.length s <=? 64)%nat
  && string_forallb is_lower_hex s.

Fixpoint join (sep : string) (l : list string) : string :=
  match l with
  | [] => ""
  | [s] => s
  | s :: l => s +:+ sep +:+ join sep l
  end.

Definition object_ (v : pyval) (name : string) : result pydict :=
  match v with
  | PDict d => Ok d
  | _ => Err (ContractError (name +:+ " must be an object"))
  end.

Definition version_ (d : pydict) (name : string) : result unit :=
  raise_if (negb (eq_int (dict_get_default "schema_version" PNone d) 1))
    (ContractError (name +:+ ".schema_version must be 1")).

(** "sorted(set(value) - allowed)". *)
Definition unknown_keys (d : pydict) (allowed : list string) : list string :=
  sorted_set (filter (fun k => k ∉ allowed) d.*1).

Definition extra_ (d : pydict) (allowed : list string) (name : string) : result unit :=
  match unknown_keys d allowed with
  | [] => Ok tt
  | unknown => Err (ContractError
      (name +:+ " has unknown fields: " +:+ join ", " unknown))
  end.

Definition strings_ (v : pyval) (name : string) (nonempty : bool) : result (list string) :=
  match v with
  | PList l =>
      match all_strs l with
      | Some ss =>
          if nonempty && bool_decide ("" ∈ ss)
          then Err (ContractError (name +:+ " must be a list of strings"))
          else if decide (NoDup ss) then Ok ss
          else Err (ContractError (name +:+ " must not contain duplicates"))
      | None => Err (ContractError (name +:+ " must be a list of strings"))
      end
  | _ => Err (ContractError (name +:+ " must be a list of strings"))
  end.

(** "not isinstance(v, str) or not v" raises, otherwise the string. *)
Definition nonempty_str (v : pyval) (msg : string) : result string :=
  match v with
  | PStr s => if String.eqb s "" then Err (ContractError msg) else Ok s
  | _ => Err (ContractError msg)
  end.

Fixpoint all_str_values (d : pydict) : option (list (string * string)) :=
  match d with
  | [] => Some []
  | (k, PStr s) :: d => cons (k, s) <$> all_str_values d
  | _ => None
  end.

Definition str_dict (d : list (string * string)) : pydict :=
  map (fun kv => (kv.1, PStr kv.2)) d.

(** A Mapping from strings to strings, or the error [msg]. *)
Definition str_mapping (v : pyval) (msg : string) : result (list (string * string)) :=
  match v with
  | PDict d => match all_str_values d with
               | Some m => Ok m | None => Err (ContractError msg) end
  | _ => Err (ContractError msg)
  end.

(** ** normalize_command_spec *)

Definition command_allowed : list string :=
  ["schema_version"; "argv"; "cwd"; "env"; "timeout_seconds"].

(** The timeout check: a positive int or float, never a bool; the result is
    "float(timeout)".  A NaN is not "<= 0", so it passes. *)
Definition command_timeout (v : pyval) : result spec_float :=
  let bad := ContractError "command.timeout_seconds must be positive" in
  match v with
  | PInt z => if z <=? 0 then Err bad else float_of_int z
  | PFloat f => if SFleb f (S754_zero false) then Err bad else Ok f
  | _ => Err bad
  end.

Definition normalize_command_spec (value : pyval) : result pydict :=
  d ← object_ value "command";
  _ ← extra_ d command_allowed "command";
  _ ← version_ d "command";
  argv ← strings_ (dict_get_default "argv" PNone d) "command.argv" true;
  _ ← raise_if (bool_decide (argv = [])) (ContractError "command.argv must not be empty");
  cwd ← nonempty_str (dict_get_default "cwd" PNone d) "command.cwd must be a non-empty string";
  env ← str_mapping (dict_get_default "env" (PDict []) d)
          "command.env must map strings to strings";
  timeout ← command_timeout
    (default (PFloat (binary_normalize 53 1024 3600 0 false)) (dict_get "timeout_seconds" d));
  Ok [("schema_version", PInt 1); ("argv", PList (map PStr argv)); ("cwd", PStr cwd);
      ("env", PDict (str_dict env)); ("timeout_seconds", PFloat timeout)].

(** ** normalize_source_identity *)

Definition source_identity_allowed : list string :=
  ["schema_version"; "repo_root"; "git_head"; "dirty_paths"; "fingerprint"].

Definition source_git_head (v : pyval) : result pyval :=
  match v with
  | PNone => Ok PNone
  | PStr s => if git_head_match s then Ok (PStr s)
              else Err (ContractError "source_identity.git_head must be null or a hexadecimal commit id")
  | _ => Err (ContractError "source_identity.git_head must be null or a hexadecimal commit id")
  end.

Definition source_fingerprint (v : pyval) : result string :=
  match v with
  | PStr s => if sha256_match s then Ok s
              else Err (ContractError "source_identity.fingerprint must be a lowercase SHA-256")
  | _ => Err (ContractError "source_identity.fingerprint must be a lowercase SHA-256")
  end.

Definition normalize_source_identity (value : pyval) : result pydict :=
  d ← object_ value "source_identity";
  _ ← extra_ d source_identity_allowed "source_identity";
  _ ← version_ d "source_identity";
  root ← nonempty_str (dict_get_default "repo_root" PNone d)
           "source_identity.repo_root must be a non-empty string";
  head ← source_git_head (dict_get_default "git_head" PNone d);
  dirty ← strings_ (dict_get_default "dirty_paths" PNone d) "source_identity.dirty_paths" true;
  fingerprint ← source_fingerprint (dict_get_default "fingerprint" PNone d);
  Ok [("schema_version", PInt 1); ("repo_root", PStr root); ("git_head", head);
      ("dirty_paths", PList (map PStr (merge_sort String.le dirty)));
      ("fingerprint", PStr fingerprint)].

(** ** normalize_resource_request *)

(** The normalised request: the dict the code returns, field by field. *)
Record request := {
  rq_kind : string;
  rq_ids : list string;
  rq_tags : list (string * string);
  rq_exclusive : list string;
  rq_isolate_pcie_root : bool;
  rq_isolate_nvlink_domain : bool;
  rq_cpu_heavy : bool;
  rq_count : Z;
  rq_cpu_threads : Z;
  rq_ram_bytes : Z
}.

Definition request_dict (r : request) : pydict :=
  [("schema_version", PInt 1); ("kind", PStr (rq_kind r));
   ("ids", PList (map PStr (rq_ids r))); ("tags", PDict (str_dict (rq_tags r)));
   ("exclusive_resources", PList (map PStr (rq_exclusive r)));
   ("isolate_pcie_root", PBool (rq_isolate_pcie_root r));
   ("isolate_nvlink_domain", PBool (rq_isolate_nvlink_domain r));
   ("cpu_heavy", PBool (rq_cpu_heavy r)); ("count", PInt (rq_count r));
   ("cpu_threads", PInt (rq_cpu_threads r)); ("ram_bytes", PInt (rq_ram_bytes r))].

Definition request_allowed : list string :=
  ["schema_version"; "kind"; "ids"; "count"; "tags"; "exclusive_resources";
   "isolate_pcie_root"; "isolate_nvlink_domain"; "cpu_threads"; "cpu_heavy"; "ram_bytes"].

(** "isinstance(item, bool) or not isinstance(item, int) or item < 0". *)
Definition request_nat (d : pydict) (field : string) : result Z :=
  let bad := ContractError ("resource_request." +:+ field +:+ " must be a non-negative integer") in
  match dict_get_default field (PInt 0) d with
  | PInt z => if z <? 0 then Err bad else Ok z
  | _ => Err bad
  end.

Definition request_flag (d : pydict) (field : string) : bool :=
  truthy (dict_get_default field (PBool false) d).

Definition parse_resource_request (value : pyval) : result request :=
  d ← object_ (if truthy value then value else PDict [("schema_version", PInt 1)])
        "resource_request";
  _ ← extra_ d request_allowed "resource_request";
  _ ← version_ d "resource_request";
  _ ← raise_if (dict_mem "ids" d && dict_mem "count" d)
        (ContractError "resource_request may declare ids or count, not both");
  kind ← nonempty_str (dict_get_default "kind" (PStr "accelerator") d)
           "resource_request.kind must be a non-empty string";
  ids ← strings_ (dict_get_default "ids" (PList []) d) "resource_request.ids" true;
  exclusive ← strings_ (dict_get_default "exclusive_resources" (PList []) d)
                "resource_request.exclusive_resources" true;
  tags ← str_mapping (dict_get_default "tags" (PDict []) d)
           "resource_request.tags must map strings to strings";
  count ← request_nat d "count";
  cpu_threads ← request_nat d "cpu_threads";
  ram_bytes ← request_nat d "ram_bytes";
  Ok {| rq_kind := kind; rq_ids := ids; rq_tags := tags; rq_exclusive := exclusive;
        rq_isolate_pcie_root := request_flag d "isolate_pcie_root";
        rq_isolate_nvlink_domain := request_flag d "isolate_nvlink_domain";
        rq_cpu_heavy := request_flag d "cpu_heavy";
        rq_count := count; rq_cpu_threads := cpu_threads; rq_ram_bytes := ram_bytes |}.

Definition normalize_resource_request (value : pyval) : result pydict :=
  request_dict <$> parse_resource_request value.

(** ** normalize_artifact_ref and normalize_evidence_summary *)

Definition artifact_fields : list string :=
  ["schema_version"; "artifact_id"; "job_id"; "kind"; "path"; "content_hash"; "complete"].

(** "if field in result and (not isinstance(...) or not ...)": an optional
    field must be a non-empty string when present. *)
Definition optional_str (d : pydict) (field msg : string) : result unit :=
  match dict_get field d with
  | None => Ok tt
  | Some v => _ ← nonempty_str v msg; Ok tt
  end.

Definition normalize_artifact_ref (value : pyval) : result pydict :=
  d ← object_ value "artifact";
  _ ← extra_ d artifact_fields "artifact";
  _ ← version_ d "artifact";
  _ ← nonempty_str (dict_get_default "kind" PNone d) "artifact.kind must be a non-empty string";
  _ ← nonempty_str (dict_get_default "path" PNone d) "artifact.path must be a non-empty string";
  _ ← optional_str d "artifact_id" "artifact.artifact_id must be a non-empty string";
  _ ← optional_str d "job_id" "artifact.job_id must be a non-empty string";
  _ ← match dict_get_default "content_hash" PNone d with
      | PNone => Ok tt
      | PStr s => raise_if (negb (sha256_match s))
          (ContractError "artifact.content_hash must be null or a lowercase SHA-256")
      | _ => Err (ContractError "artifact.content_hash must be null or a lowercase SHA-256")
      end;
  _ ← raise_if (negb (is_bool (dict_get_default "complete" PNone d)))
        (ContractError "artifact.complete must be boolean");
  Ok (dict_select artifact_fields d).

Definition evidence_states : list string :=
  ["queued"; "running"; "succeeded"; "failed"; "preempted"; "canceled"; "skipped";
   "completed"; "needs_codex"; "no_change"].

Definition evidence_allowed : list string :=
  ["schema_version"; "job_id"; "result_id"; "status"; "valid"; "contaminated"; "severity";
   "classification"; "parser_version"; "summary"; "artifacts"; "source_identity"].

(** "result.get('status') not in _EVIDENCE_STATES": testing a list or a dict for
    membership in a set raises TypeError. *)
Definition evidence_status (v : pyval) : result string :=
  match v with
  | PStr s => if decide (s ∈ evidence_states) then Ok s
              else Err (ContractError "evidence.status is unsupported")
  | PList _ => Err (TypeError "unhashable type: 'list'")
  | PDict _ => Err (TypeError "unhashable type: 'dict'")
  | _ => Err (ContractError "evidence.status is unsupported")
  end.

Definition evidence_bool (d : pydict) (field : string) : result bool :=
  match dict_get_default field PNone d with
  | PBool b => Ok b
  | _ => Err (ContractError ("evidence." +:+ field +:+ " must be boolean"))
  end.

(** The loop over job_id, result_id, classification and parser_version: fields
    present in the input are checked and appended to the result. *)
Definition evidence_optional (d : pydict) (acc : pydict) (field : string) : result pydict :=
  match dict_get field d with
  | None => Ok acc
  | Some PNone => Ok (acc ++ [(field, PNone)])%list
  | Some v =>
      s ← nonempty_str v ("evidence." +:+ field +:+ " must be null or a non-empty string");
      Ok (acc ++ [(field, PStr s)])%list
  end.

(** The dict literal before the optional fields are appended. *)
Definition evidence_base (status : string) (valid contaminated : bool) (severity : Z)
    (summary : pydict) (artifacts : list pydict) : pydict :=
  [("schema_version", PInt 1); ("status", PStr status); ("valid", PBool valid);
   ("contaminated", PBool contaminated); ("severity", PInt severity);
   ("summary", PDict summary); ("artifacts", PList (map PDict artifacts))].

Definition evidence_optional_fields : list string :=
  ["job_id"; "result_id"; "classification"; "parser_version"].

Definition normalize_evidence_summary (value : pyval) : result pydict :=
  d ← object_ value "evidence";
  _ ← extra_ d evidence_allowed "evidence";
  _ ← version_ d "evidence";
  status ← evidence_status (dict_get_default "status" PNone d);
  valid ← evidence_bool d "valid";
  contaminated ← evidence_bool d "contaminated";
  severity ← match dict_get_default "severity" PNone d with
             | PInt z => if z <? 0
                 then Err (ContractError "evidence.severity must be a non-negative integer")
                 else Ok z
             | _ => Err (ContractError "evidence.severity must be a non-negative integer")
             end;
  summary ← match dict_get_default "summary" PNone d with
            | PDict s => Ok s
            | _ => Err (ContractError "evidence.summary must be an object")
            end;
  items ← match dict_get_default "artifacts" PNone d with
          | PList l => Ok l
          | _ => Err (ContractError "evidence.artifacts must be an array")
          end;
  artifacts ← mapM_result normalize_artifact_ref items;
  normalized ← foldM (evidence_optional d)
    (evidence_base status valid contaminated severity summary artifacts)
    evidence_optional_fields;
  match dict_get "source_identity" d with
  | None => Ok normalized
  | Some v => s ← normalize_source_identity v;
              Ok (normalized ++ [("source_identity", PDict s)])%list
  end.

(** ** Lemmas on the helpers *)

Record request_wf (r : request) : Prop := {
  wf_kind : rq_kind r <> "";
  wf_ids_nodup : NoDup (rq_ids r);
  wf_ids_nonempty : "" ∉ rq_ids r;
  wf_exclusive_nodup : NoDup (rq_exclusive r);
  wf_exclusive_nonempty : "" ∉ rq_exclusive r;
  wf_count : 0 <= rq_count r;
  wf_cpu : 0 <= rq_cpu_threads r;
  wf_ram : 0 <= rq_ram_bytes r;
  wf_ids_or_count : rq_ids r <> [] -> rq_count r = 0
}.

Lemma strings_ok v name ss :
  strings_ v name true = Ok ss -> v = PList (map PStr ss) /\ NoDup ss /\ "" ∉ ss.
Proof.
  destruct v; simpl; try discriminate.
  destruct (all_strs l) as [ss'|] eqn:Hs; [|discriminate].
  case_bool_decide as He; [discriminate|].
  destruct (decide (NoDup ss')); [|discriminate].
  intros [= <-]. apply all_strs_map in Hs. by subst l.
Qed.

Lemma strings_complete name ss :
  NoDup ss -> "" ∉ ss -> strings_ (PList (map PStr ss)) name true = Ok ss.
Proof.
  intros Hnd He. simpl.
  assert (all_strs (map PStr ss) = Some ss) as -> by (by apply all_strs_map).
  rewrite bool_decide_false by done. by rewrite decide_True.
Qed.

Lemma nonempty_str_ok v msg s : nonempty_str v msg = Ok s -> v = PStr s /\ s <> "".
Proof.
  destruct v; simpl; try discriminate.
  destruct (String.eqb s0 "") eqn:E; [discriminate|]. intros [= <-].
  split; [done|]. by apply String.eqb_neq.
Qed.

Lemma nonempty_str_complete s msg : s <> "" -> nonempty_str (PStr s) msg = Ok s.
Proof. intros H. simpl. apply String.eqb_neq in H. by rewrite H. Qed.

Lemma all_str_values_str_dict m : all_str_values (str_dict m) = Some m.
Proof. induction m as [|[k s] m IH]; simpl; [done|]. by rewrite IH. Qed.

Lemma request_nat_ok d field z : request_nat d field = Ok z -> 0 <= z.
Proof.
  unfold request_nat. destruct (dict_get_default _ _ _); try discriminate.
  case_match eqn:E; [discriminate|]. intros [= <-]. lia.
Qed.

Lemma request_nat_absent d field z :
  request_nat d field = Ok z -> dict_mem field d = false -> z = 0.
Proof.
  unfold request_nat, dict_get_default, dict_mem. intros H Hm.
  apply bool_decide_eq_false, dict_get_None in Hm. rewrite Hm in H.
  simpl in H. by injection H.
Qed.

Lemma strings_absent field d name b ss :
  strings_ (dict_get_default field (PList []) d) name b = Ok ss ->
  ss <> [] -> dict_mem field d = true.
Proof.
  unfold dict_get_default, dict_mem. intros H Hne. apply bool_decide_eq_true.
  destruct (decide (field ∈ d.*1)) as [|Hn]; [done|].
  apply dict_get_None in Hn. rewrite Hn in H. simpl in H.
  destruct b; simpl in H; by simplify_eq.
Qed.

Create HintDb contracts.
#[export] Hint Resolve request_nat_ok : contracts.

(** [parse_resource_request] returns only well-formed requests. *)
Lemma parse_resource_request_wf v r : parse_resource_request v = Ok r -> request_wf r.
Proof.
  unfold parse_resource_request. intros H. inv_res. simpl.
  repeat match goal with
  | H : nonempty_str _ _ = Ok _ |- _ => apply nonempty_str_ok in H as [? ?]
  end.
  pose proof (strings_ok _ _ _ Ha4) as (_ & ? & ?).
  pose proof (strings_ok _ _ _ Ha5) as (_ & ? & ?).
  split; simpl; eauto with contracts.
  intros Hne. apply andb_false_iff in Ha2 as [Hm|Hm].
  - apply strings_absent in Ha4; congruence.
  - eauto using request_nat_absent.
Qed.

Lemma raise_if_false e : raise_if false e = Ok tt.
Proof. done. Qed.

Lemma extra_ok d allowed name :
  (forall k, k ∈ d.*1 -> k ∈ allowed) -> extra_ d allowed name = Ok tt.
Proof.
  intros H. unfold extra_. destruct (unknown_keys d allowed) as [|k ks] eqn:E; [done|].
  assert (k ∈ unknown_keys d allowed) as Hk by (rewrite E; left).
  unfold unknown_keys in Hk. rewrite elem_of_sorted_set, list_elem_of_filter in Hk.
  destruct Hk as [Hk1 Hk2]. by destruct Hk1; apply H.
Qed.

Lemma extra_ok_inv d allowed name u :
  extra_ d allowed name = Ok u -> forall k, k ∈ d.*1 -> k ∈ allowed.
Proof.
  unfold extra_. destruct (unknown_keys d allowed) eqn:E; [|discriminate]. intros _ k Hk.
  destruct (decide (k ∈ allowed)) as [|Hn]; [done|].
  apply sorted_set_nil in E. assert (k ∈ (filter (λ k, k ∉ allowed) d.*1)) as Hf.
  { by apply list_elem_of_filter. }
  rewrite E in Hf. by apply elem_of_nil in Hf.
Qed.

Lemma merge_sort_fixed ss :
  merge_sort String.le (merge_sort String.le ss) = merge_sort String.le ss.
Proof.
  apply (StronglySorted_unique String.le).
  1,2: apply StronglySorted_merge_sort; apply _.
  apply merge_sort_Permutation.
Qed.

Ltac solve_allowed := let k := fresh in let H := fresh in intros k H; revert H; vm_compute; set_solver.

(** ** Integers converted to binary64 stay away from zero *)

Lemma shr_1_m mrs : 0 <= shr_m mrs -> shr_m (shr_1 mrs) = shr_m mrs / 2.
Proof.
  destruct mrs as [m r s]; simpl. intros Hm.
  destruct m as [|[p|p|]|p]; simpl; try lia; try reflexivity.
  - rewrite Pos2Z.inj_xI. apply (Z.div_unique_pos _ _ _ 1); lia.
  - rewrite Pos2Z.inj_xO. apply (Z.div_unique_pos _ _ _ 0); lia.
Qed.

Lemma iter_shr_1_m n mrs :
  0 <= shr_m mrs -> shr_m (SpecFloat.iter_pos shr_1 n mrs) = shr_m mrs / 2 ^ Z.pos n.
Proof.
  revert mrs. induction n as [n IH|n IH|]; intros mrs Hm; cbn [SpecFloat.iter_pos].
  - assert (0 <= shr_m (shr_1 mrs)) as H1.
    { rewrite shr_1_m by done. apply Z.div_pos; lia. }
    assert (0 <= shr_m (SpecFloat.iter_pos shr_1 n (shr_1 mrs))) as H2.
    { rewrite IH by done. apply Z.div_pos; lia. }
    rewrite (IH _ H2), (IH _ H1), (shr_1_m _ Hm), !Z.div_div by lia. f_equal.
    rewrite Pos2Z.inj_xI. replace (2 * Z.pos n + 1) with (1 + Z.pos n + Z.pos n) by lia.
    rewrite !Z.pow_add_r by lia. lia.
  - assert (0 <= shr_m (SpecFloat.iter_pos shr_1 n mrs)) as H2.
    { rewrite IH by done. apply Z.div_pos; lia. }
    rewrite (IH _ H2), (IH _ Hm), Z.div_div by lia. f_equal.
    rewrite (Pos2Z.inj_xO n). replace (2 * Z.pos n) with (Z.pos n + Z.pos n) by lia.
    rewrite Z.pow_add_r by lia. lia.
  - by rewrite shr_1_m.
Qed.

Lemma digits2_pos_lower p : 2 ^ (Z.pos (digits2_pos p) - 1) <= Z.pos p.
Proof.
  induction p as [p IH|p IH|]; simpl; [| |done].
  all: rewrite Pos2Z.inj_succ.
  all: replace (Z.succ (Z.pos (digits2_pos p)) - 1)
         with (Z.succ (Z.pos (digits2_pos p) - 1)) by lia.
  all: rewrite Z.pow_succ_r by lia; lia.
Qed.

(** One rounding step of binary64 keeps a positive mantissa positive, as long as
    the exponent is above the subnormal range. *)
Lemma shr_fexp_pos m e l :
  0 < m -> -1000 <= e ->
  let '(r, e') := shr_fexp 53 1024 m e l in 0 < shr_m r /\ -1000 <= e'.
Proof.
  intros Hm He. unfold shr_fexp, shr.
  assert (shr_m (shr_record_of_loc m l) = m) as Hr by (by destruct l as [|[]]).
  destruct (fexp 53 1024 (Zdigits2 m + e) - e) as [|n|n] eqn:Hn; simpl;
    [rewrite Hr; lia| |rewrite Hr; lia].
  rewrite iter_shr_1_m by (rewrite Hr; lia). rewrite Hr.
  destruct m as [|p|p]; try lia. simpl Zdigits2 in Hn.
  unfold fexp, emin in Hn. pose proof (digits2_pos_lower p) as Hp.
  split; [|lia]. apply Z.div_str_pos. split; [lia|].
  etransitivity; [|exact Hp]. apply Z.pow_le_mono_r; lia.
Qed.

Lemma round_nearest_even_ge m l : m <= round_nearest_even m l.
Proof. destruct l as [|[]]; simpl; try lia. case_match; lia. Qed.

(** A positive integer converts to a float that is not "<= 0". *)
Lemma float_of_pos_not_le_0 p f :
  float_of_int (Z.pos p) = Ok f -> SFleb f (S754_zero false) = false.
Proof.
  unfold float_of_int, binary_normalize, binary_round.
  destruct (shl_align p 0 (fexp 53 1024 (Z.pos (digits2_pos p) + 0))) as [q e] eqn:Hs.
  assert (-1000 <= e) as He.
  { unfold shl_align, fexp, emin in Hs. case_match; simplify_eq; lia. }
  unfold binary_round_aux.
  pose proof (shr_fexp_pos (Z.pos q) e loc_Exact ltac:(lia) He) as H1.
  destruct (shr_fexp 53 1024 (Z.pos q) e loc_Exact) as [r1 e1]. destruct H1 as [Hr1 He1].
  set (m2 := round_nearest_even (shr_m r1) (loc_of_shr_record r1)).
  assert (0 < m2) as Hm2.
  { pose proof (round_nearest_even_ge (shr_m r1) (loc_of_shr_record r1)). lia. }
  pose proof (shr_fexp_pos m2 e1 loc_Exact Hm2 He1) as H2.
  destruct (shr_fexp 53 1024 m2 e1 loc_Exact) as [r2 e2]. destruct H2 as [Hr2 _].
  destruct (shr_m r2) as [|q2|q2]; try lia.
  destruct (e2 <=? 1024 - 53); [|discriminate]. by intros [= <-].
Qed.

(** A normalised float timeout is accepted unchanged. *)
Lemma command_timeout_fixed v f : command_timeout v = Ok f -> command_timeout (PFloat f) = Ok f.
Proof.
  destruct v; simpl; try discriminate.
  - destruct (z <=? 0) eqn:Hz; [discriminate|].
    destruct z as [|p|p]; [done| |done]. intros H.
    by rewrite (float_of_pos_not_le_0 p).
  - destruct (SFleb f0 (S754_zero false)) eqn:Hf; [discriminate|].
    intros [= <-]. by rewrite Hf.
Qed.

Lemma command_env_fixed m msg : str_mapping (PDict (str_dict m)) msg = Ok m.
Proof. simpl. by rewrite all_str_values_str_dict. Qed.

(** Runs the checks of a normaliser on a dict literal whose fields are known. *)
#[local] Arguments extra_ : simpl never.
#[local] Arguments strings_ : simpl never.
#[local] Arguments nonempty_str : simpl never.
#[local] Arguments str_mapping : simpl never.
#[local] Arguments command_timeout : simpl never.
#[local] Arguments source_git_head : simpl never.
#[local] Arguments source_fingerprint : simpl never.

#[local] Arguments dict_get : simpl never.
#[local] Arguments version_ : simpl never.

Lemma version_ok d name :
  dict_get "schema_version" d = Some (PInt 1) -> version_ d name = Ok tt.
Proof. intros H. unfold version_, dict_get_default. by rewrite H. Qed.

Ltac run_steps :=
  repeat
    (first
      [ rewrite nonempty_str_complete by assumption
      | rewrite strings_complete by assumption
      | rewrite command_env_fixed
      | match goal with H : ?f ?x = Ok _ |- context [?f ?x] => rewrite H end ]; simpl).

Ltac run_checks :=
  simpl; try rewrite extra_ok by solve_allowed; simpl;
  try rewrite version_ok by (by dict_lookup); simpl; dict_lookup; simpl; run_steps.

Theorem command_spec_idempotent v d :
  normalize_command_spec v = Ok d -> normalize_command_spec (PDict d) = Ok d.
Proof.
  unfold normalize_command_spec at 1. intros H. inv_res.
  apply nonempty_str_ok in Ha4 as [_ Hcwd]. apply strings_ok in Ha2 as (_ & Hnd & He).
  apply command_timeout_fixed in Ha6. apply bool_decide_eq_false in Ha3.
  unfold normalize_command_spec. run_checks.
  rewrite bool_decide_false by done. simpl. by run_steps.
Qed.

Lemma source_git_head_fixed v h : source_git_head v = Ok h -> source_git_head h = Ok h.
Proof.
  unfold source_git_head. destruct v; try discriminate; [by intros [= <-]|].
  destruct (git_head_match s) eqn:Hs; [|discriminate]. intros [= <-]. by rewrite Hs.
Qed.

Lemma source_fingerprint_fixed v s :
  source_fingerprint v = Ok s -> source_fingerprint (PStr s) = Ok s.
Proof.
  unfold source_fingerprint. destruct v; try discriminate.
  destruct (sha256_match s0) eqn:Hs; [|discriminate]. intros [= <-]. by rewrite Hs.
Qed.

Theorem source_identity_idempotent v d :
  normalize_source_identity v = Ok d -> normalize_source_identity (PDict d) = Ok d.
Proof.
  unfold normalize_source_identity at 1. intros H. inv_res.
  apply nonempty_str_ok in Ha2 as [_ Hroot]. apply strings_ok in Ha4 as (_ & Hnd & He).
  apply source_git_head_fixed in Ha3. apply source_fingerprint_fixed in Ha5.
  assert (NoDup (merge_sort String.le a4)) as Hnd'.
  { by rewrite merge_sort_Permutation. }
  assert ("" ∉ merge_sort String.le a4) as He'.
  { by rewrite merge_sort_Permutation. }
  unfold normalize_source_identity. run_checks.
  by rewrite merge_sort_fixed.
Qed.

Lemma version_ok_inv d name u :
  version_ d name = Ok u -> eq_int (dict_get_default "schema_version" PNone d) 1 = true.
Proof. unfold version_. intros H%raise_if_ok. by apply negb_false_iff. Qed.

(** The artifact checks only read the listed fields, so selecting those fields
    changes nothing. *)
Lemma artifact_ref_idempotent v d :
  normalize_artifact_ref v = Ok d -> normalize_artifact_ref (PDict d) = Ok d.
Proof.
  unfold normalize_artifact_ref at 1. intros H. inv_res.
  assert (forall k, k ∈ artifact_fields ->
            dict_get k (dict_select artifact_fields a) = dict_get k a) as Hget.
  { intros k Hk. rewrite dict_get_select. by rewrite bool_decide_true. }
  unfold normalize_artifact_ref, object_. res_step.
  rewrite extra_ok by (intros k; apply dict_select_keys). res_step.
  unfold version_, optional_str, dict_get_default in *.
  rewrite !Hget by compute_decide.
  rewrite Ha1; res_step. rewrite Ha2; res_step. rewrite Ha3; res_step.
  rewrite Ha4; res_step. rewrite Ha5; res_step. rewrite Ha6; res_step.
  rewrite Ha7, raise_if_false; res_step. by rewrite (dict_select_ext _ _ a).
Qed.

(** The optional evidence fields: what the loop appends, and that the loop
    accepts exactly null or non-empty strings. *)
Definition evidence_field_ok (d : pydict) (f : string) : Prop :=
  match dict_get f d with
  | None | Some PNone => True
  | Some v => exists s, v = PStr s /\ s <> ""
  end.

Lemma evidence_optional_spec d acc f :
  evidence_field_ok d f -> evidence_optional d acc f = Ok (acc ++ dict_select [f] d)%list.
Proof.
  unfold evidence_field_ok, evidence_optional, dict_select. simpl.
  destruct (dict_get f d) as [v|] eqn:Hf; simpl; [|by rewrite app_nil_r].
  destruct v; try done.
  all: intros (s' & [= ->] & Hs). by rewrite nonempty_str_complete.
Qed.

Lemma evidence_optional_inv d acc f out :
  evidence_optional d acc f = Ok out -> evidence_field_ok d f.
Proof.
  unfold evidence_field_ok, evidence_optional.
  destruct (dict_get f d) as [v|] eqn:Hf; [|done].
  destruct v; try done.
  all: intros H; inv_res; apply nonempty_str_ok in Ha as [Heq Hs]; by eauto.
Qed.

Lemma evidence_fold_spec d fs acc out :
  foldM (evidence_optional d) acc fs = Ok out <->
  Forall (evidence_field_ok d) fs /\ out = (acc ++ dict_select fs d)%list.
Proof.
  revert acc. induction fs as [|f fs IH]; intros acc.
  - simpl. unfold dict_select. simpl. rewrite app_nil_r. split; [|by intros [_ ->]].
    intros [= ->]. split; [constructor|done].
  - assert (dict_select (f :: fs) d = dict_select [f] d ++ dict_select fs d)%list as Hs.
    { unfold dict_select. simpl. by destruct (dict_get f d). }
    rewrite Hs, Forall_cons, app_assoc. simpl. split.
    + intros H. inv_res. pose proof (evidence_optional_inv _ _ _ _ Ha) as Hf.
      rewrite evidence_optional_spec in Ha by done. apply Ok_inj in Ha. subst a.
      apply IH in H. naive_solver.
    + intros [[Hf Hfs] ->]. rewrite evidence_optional_spec by done. res_step.
      by apply IH.
Qed.

Lemma mapM_result_idem {A} (f : A -> result pydict) (g : pydict -> A) l ds :
  (forall x d, f x = Ok d -> f (g d) = Ok d) ->
  mapM_result f l = Ok ds -> mapM_result f (map g ds) = Ok ds.
Proof.
  intros Hf. revert ds. induction l as [|x l IH]; intros ds H; simpl in H; inv_res; [done|].
  simpl. rewrite (Hf _ _ Ha). res_step. by rewrite (IH _ Ha0).
Qed.

Lemma evidence_field_ok_ext d d' f :
  dict_get f d = dict_get f d' -> evidence_field_ok d f -> evidence_field_ok d' f.
Proof. unfold evidence_field_ok. by intros ->. Qed.

Definition source_part (src : pydict) : Prop :=
  src = [] \/ exists s, normalize_source_identity (PDict s) = Ok s /\
                       src = [("source_identity", PDict s)].

#[local] Arguments dict_select : simpl never.

Lemma evidence_base_fields st va co se su ar opt src k :
  k ∈ evidence_optional_fields -> source_part src ->
  dict_get k (evidence_base st va co se su ar ++ dict_select evidence_optional_fields opt ++ src)%list
  = dict_get k opt.
Proof.
  intros Hk Hsrc. rewrite !dict_get_app, dict_get_select, bool_decide_true by done.
  assert (dict_get k (evidence_base st va co se su ar) = None) as ->.
  { apply dict_get_None. revert Hk. vm_compute. set_solver. }
  destruct (dict_get k opt); [done|].
  destruct Hsrc as [->|(s & _ & ->)]; [done|].
  rewrite dict_get_cons_ne; [done|]. intros ->. revert Hk. vm_compute. set_solver.
Qed.

Lemma evidence_keys_allowed st va co se su ar opt src k :
  source_part src ->
  k ∈ (evidence_base st va co se su ar ++ dict_select evidence_optional_fields opt ++ src)%list.*1 ->
  k ∈ evidence_allowed.
Proof.
  intros Hsrc. rewrite !fmap_app, !elem_of_app. intros [Hk|[Hk|Hk]].
  - revert Hk. vm_compute. set_solver.
  - apply dict_select_keys in Hk. revert Hk. vm_compute. set_solver.
  - destruct Hsrc as [->|(s & _ & ->)]; revert Hk; vm_compute; set_solver.
Qed.

Lemma evidence_normal st va co se su ar opt src d :
  d = (evidence_base st va co se su ar ++
       dict_select evidence_optional_fields opt ++ src)%list ->
  st ∈ evidence_states -> 0 <= se ->
  mapM_result normalize_artifact_ref (map PDict ar) = Ok ar ->
  Forall (evidence_field_ok opt) evidence_optional_fields -> source_part src ->
  normalize_evidence_summary (PDict d) = Ok d.
Proof.
  intros Hd Hst Hse Har Hopt Hsrc.
  assert (forall k, k ∈ evidence_optional_fields -> dict_get k d = dict_get k opt) as Hget.
  { intros k Hk. subst d. by apply evidence_base_fields. }
  assert (forall k, k ∈ d.*1 -> k ∈ evidence_allowed) as Hkeys.
  { intros k. subst d. by apply evidence_keys_allowed. }
  assert (dict_get "source_identity" d = dict_get "source_identity" src) as Hs.
  { subst d. by rewrite !dict_get_app, dict_get_select. }
  assert (Forall (evidence_field_ok d) evidence_optional_fields) as Hopt'.
  { rewrite Forall_forall in Hopt |- *. intros k Hk.
    eapply evidence_field_ok_ext; [symmetry; by apply Hget|by apply Hopt]. }
  unfold normalize_evidence_summary, object_. res_step.
  rewrite extra_ok by done. res_step.
  rewrite version_ok by (by subst d). res_step.
  assert (dict_get "status" d = Some (PStr st)) as H1 by (by subst d).
  assert (dict_get "valid" d = Some (PBool va)) as H2 by (by subst d).
  assert (dict_get "contaminated" d = Some (PBool co)) as H3 by (by subst d).
  assert (dict_get "severity" d = Some (PInt se)) as H4 by (by subst d).
  assert (dict_get "summary" d = Some (PDict su)) as H5 by (by subst d).
  assert (dict_get "artifacts" d = Some (PList (map PDict ar))) as H6 by (by subst d).
  unfold evidence_bool, dict_get_default. rewrite H1, H2, H3, H4, H5, H6.
  repeat match goal with |- context [default PNone (Some ?x)] =>
    change (default PNone (Some x)) with x end.
  assert (evidence_status (PStr st) = Ok st) as -> by (simpl; by rewrite decide_True).
  rewrite (proj2 (Z.ltb_ge se 0)) by done. rewrite !bind_Ok, Har. res_step.
  rewrite (proj2 (evidence_fold_spec d _ _ (evidence_base st va co se su ar ++
                    dict_select evidence_optional_fields d)%list)) by done.
  res_step. rewrite Hs, (dict_select_ext _ _ opt) by done.
  destruct Hsrc as [->|(s & Hsn & ->)].
  - subst d. by rewrite app_nil_r.
  - rewrite dict_get_cons_eq, Hsn. res_step. subst d. by rewrite <-app_assoc.
Qed.

Lemma evidence_parts v d :
  normalize_evidence_summary v = Ok d ->
  exists st va co se su ar opt src,
    d = (evidence_base st va co se su ar ++
         dict_select evidence_optional_fields opt ++ src)%list /\
    st ∈ evidence_states /\ 0 <= se /\
    mapM_result normalize_artifact_ref (map PDict ar) = Ok ar /\
    Forall (evidence_field_ok opt) evidence_optional_fields /\ source_part src.
Proof.
  unfold normalize_evidence_summary. intros H. inv_res.
  apply evidence_fold_spec in Ha9 as [Hopt ->].
  assert (a2 ∈ evidence_states) as Hst.
  { unfold evidence_status in Ha2. destruct (dict_get_default _ _ _); try discriminate.
    destruct (decide (s ∈ evidence_states)); by inv_res. }
  assert (0 <= a5) as Hse.
  { destruct (dict_get_default "severity" PNone a); try discriminate.
    destruct (z <? 0) eqn:Hz; [discriminate|]. inv_res. lia. }
  apply (mapM_result_idem _ PDict) in Ha8; [|by intros x d' Hx; eapply artifact_ref_idempotent].
  destruct (dict_get "source_identity" a) as [sv|]; inv_res.
  - match goal with Hs : normalize_source_identity sv = Ok ?s |- _ =>
      exists a2, a3, a4, a5, a6, a8, a, [("source_identity", PDict s)];
      rewrite <-app_assoc; repeat split; try done;
      right; exists s; split; [by eapply source_identity_idempotent|done] end.
  - exists a2, a3, a4, a5, a6, a8, a, []. rewrite app_nil_r.
    repeat split; try done. by left.
Qed.

Theorem evidence_summary_idempotent v d :
  normalize_evidence_summary v = Ok d -> normalize_evidence_summary (PDict d) = Ok d.
Proof.
  intros (st & va & co & se & su & ar & opt & src & ? & ? & ? & ? & ? & ?)%evidence_parts.
  by eapply evidence_normal.
Qed.

(** The wire form a caller sends for a request: "ids" when it names resources,
    "count" otherwise (a request declares one of the two). *)
Definition request_wire (r : request) : pydict :=
  filter (fun kv => kv.1 <> (if decide (rq_ids r = []) then "ids" else "count"))
    (request_dict r).

#[local] Arguments request_nat : simpl never.

Lemma request_nat_complete d field z :
  dict_get field d = Some (PInt z) -> 0 <= z -> request_nat d field = Ok z.
Proof.
  intros H Hz. unfold request_nat, dict_get_default. rewrite H. simpl.
  by rewrite (proj2 (Z.ltb_ge z 0)).
Qed.

(** The wire form in extension, whichever of the two fields it carries. *)
Lemma request_wire_eq r :
  request_wire r =
    [("schema_version", PInt 1); ("kind", PStr (rq_kind r))] ++
    (if decide (rq_ids r = []) then [] else [("ids", PList (map PStr (rq_ids r)))]) ++
    [("tags", PDict (str_dict (rq_tags r)));
     ("exclusive_resources", PList (map PStr (rq_exclusive r)));
     ("isolate_pcie_root", PBool (rq_isolate_pcie_root r));
     ("isolate_nvlink_domain", PBool (rq_isolate_nvlink_domain r));
     ("cpu_heavy", PBool (rq_cpu_heavy r))] ++
    (if decide (rq_ids r = []) then [("count", PInt (rq_count r))] else []) ++
    [("cpu_threads", PInt (rq_cpu_threads r)); ("ram_bytes", PInt (rq_ram_bytes r))].
Proof. unfold request_wire, request_dict. by destruct (decide (rq_ids r = [])). Qed.

Ltac drop_guard :=
  match goal with |- context [raise_if ?b _] => change b with false end;
  rewrite raise_if_false.

(** Every well-formed request is reachable: parsing its wire form gives it back. *)
Theorem resource_request_roundtrip r :
  request_wf r -> parse_resource_request (PDict (request_wire r)) = Ok r.
Proof.
  intros [Hk Hid Hie Hed Hee Hc Hcpu Hram Hioc]. rewrite request_wire_eq.
  destruct r as [kind ids tags ex pr nv heavy count cpu ram]; simpl in *.
  unfold parse_resource_request, object_, truthy.
  destruct (decide (ids = [])) as [->|Hne]; cbn [app].
  - rewrite bind_Ok, extra_ok by solve_allowed. res_step. rewrite version_ok by done.
    res_step. drop_guard. res_step. dict_lookup.
    cbn [default from_option id].
    rewrite nonempty_str_complete by done. res_step.
    change (PList []) with (PList (map PStr [])).
    rewrite !strings_complete by done. do 2 res_step. rewrite command_env_fixed. res_step.
    rewrite (request_nat_complete _ "count" count), (request_nat_complete _ "cpu_threads" cpu),
      (request_nat_complete _ "ram_bytes" ram) by done. reflexivity.
  - rewrite Hioc by done.
    rewrite bind_Ok, extra_ok by solve_allowed. res_step. rewrite version_ok by done.
    res_step. drop_guard. res_step. dict_lookup.
    cbn [default from_option id].
    rewrite nonempty_str_complete by done. res_step.
    rewrite !strings_complete by done. do 2 res_step. rewrite command_env_fixed. res_step.
    match goal with |- context [request_nat ?d "count"] =>
      change (request_nat d "count") with (@Ok Z 0) end.
    rewrite (request_nat_complete _ "cpu_threads" cpu),
      (request_nat_complete _ "ram_bytes" ram) by done. reflexivity.
Qed.

(** What normalisation returns is the dict of a well-formed request. *)
Theorem resource_request_sound v d :
  normalize_resource_request v = Ok d -> exists r, d = request_dict r /\ request_wf r.
Proof.
  unfold normalize_resource_request. destruct (parse_resource_request v) as [r|] eqn:Hr; [|done].
  intros [= <-]. exists r. split; [done|]. by eapply parse_resource_request_wf.
Qed.

(** The normalised dict carries both "ids" and "count", so normalising it a
    second time is always rejected (unlike the other normalisers). *)
Theorem resource_request_output_rejected v d :
  normalize_resource_request v = Ok d ->
  normalize_resource_request (PDict d) =
    Err (ContractError "resource_request may declare ids or count, not both").
Proof.
  intros (r & -> & _)%resource_request_sound.
  unfold normalize_resource_request, parse_resource_request, object_, truthy, request_dict.
  rewrite bind_Ok, extra_ok by solve_allowed. done.
Qed.

(** A non-empty dict with an unknown field is rejected, whatever its other
    fields, with the unknown names sorted and without repetition. *)
Theorem resource_request_unknown_field d k :
  k ∈ d.*1 -> k ∉ request_allowed ->
  normalize_resource_request (PDict d) =
    Err (ContractError ("resource_request has unknown fields: " +:+
                        join ", " (unknown_keys d request_allowed))).
Proof.
  intros Hk Hn. unfold normalize_resource_request, parse_resource_request, object_, truthy.
  destruct d as [|kv d]; [by apply elem_of_nil in Hk|]. rewrite bind_Ok.
  unfold extra_ at 1. destruct (unknown_keys (kv :: d) request_allowed) as [|u us] eqn:E; [|done].
  apply sorted_set_nil in E. assert (k ∈ (filter (λ k, k ∉ request_allowed) (kv :: d).*1)) as Hf.
  { by apply list_elem_of_filter. }
  rewrite E in Hf. by apply elem_of_nil in Hf.
Qed.
