(* ===== verification/HostPolicy.v ===== *)
(** * Host resource policy, capacity and process probes

    src/src/project_control/host_resources/{policy,capacity,process}.py.  What the
    operating system answers (cgroup files, affinity, load, /proc) is a [probe]
    record; the arithmetic on it is the code's.  Products with 0.75, 0.80 and 0.20
    are exact rationals: for the magnitudes of CPU counts and of byte counts below
    2^50 the double-precision product truncates to the same integer. *)

From Stdlib Require Import ZArith QArith.
From S2P Require Import Prelude Contracts.

#[local] Open Scope string_scope.
#[local] Open Scope Z_scope.
#[local] Open Scope list_scope.

(** ** policy.py *)

Module Policy.

Inductive ResourcePriority :=
  | IDLE_MODEL_RESIDENCY
  | BACKGROUND_CUDA
  | FOREGROUND_GPU
  | ACTIVE_LOCAL_DELEGATION
  | CLEAN_CUDA_FOREGROUND.

#[export] Instance ResourcePriority_eq_dec : EqDecision ResourcePriority.
Proof. solve_decision. Defined.

(** The IntEnum values. *)
Definition priority_int (p : ResourcePriority) : Z :=
  match p with
  | IDLE_MODEL_RESIDENCY => 20
  | BACKGROUND_CUDA => 40
  | FOREGROUND_GPU => 60
  | ACTIVE_LOCAL_DELEGATION => 80
  | CLEAN_CUDA_FOREGROUND => 100
  end.

Definition PRIORITY_CLASSES : list (string * ResourcePriority) :=
  [("idle_model_residency", IDLE_MODEL_RESIDENCY);
   ("background_cuda", BACKGROUND_CUDA);
   ("foreground_gpu", FOREGROUND_GPU);
   ("active_local_delegation", ACTIVE_LOCAL_DELEGATION);
   ("clean_cuda_foreground", CLEAN_CUDA_FOREGROUND)].

(** A caller passes either the wire name or the enum member. *)
Inductive priority_arg :=
  | PName (name : string)
  | PEnum (p : ResourcePriority).

Definition unknown_priority : exn := ValueError "unknown resource priority class".

Definition normalize_priority_class (value : priority_arg) : result string :=
  match value with
  | PEnum p =>
      match list_find (fun kv => kv.2 = p) PRIORITY_CLASSES with
      | Some (_, (name, _)) => Ok name
      | None => Err unknown_priority
      end
  | PName name =>
      if PyValue.dict_mem name PRIORITY_CLASSES then Ok name else Err unknown_priority
  end.

Definition priority_value (value : priority_arg) : result Z :=
  name ← normalize_priority_class value;
  match PyValue.dict_get name PRIORITY_CLASSES with
  | Some p => Ok (priority_int p)
  | None => Err (KeyError name)
  end.

(** Total form on stored classes: the value of a known class, -1 otherwise. *)
Definition class_value (name : string) : Z :=
  match priority_value (PName name) with Ok v => v | Err _ => -1 end.

Lemma normalize_known name p :
  PyValue.dict_get name PRIORITY_CLASSES = Some p ->
  normalize_priority_class (PName name) = Ok name.
Proof.
  intros H%PyValue.dict_get_elem. unfold normalize_priority_class, PyValue.dict_mem.
  rewrite bool_decide_true; [done|]. apply list_elem_of_fmap. by exists (name, p).
Qed.

End Policy.

(** ** capacity.py *)

Module Capacity.

Inductive cpu_max_read :=
  | CpuMaxUnreadable
  | CpuMaxUnlimited
  | CpuMaxQuota (quota period : Z).

Record probe := {
  pr_affinity : option Z;
  pr_cpu_count : option Z;
  pr_cpu_max : cpu_max_read;
  pr_page_size : Z;
  pr_phys_pages : Z;
  pr_memory_max : option Z;
  pr_memory_current : option Z;
  pr_mem_available : option Z;
  pr_loadavg : option Q;
  pr_cpp_context_active : bool
}.

(** "x or y" on integers and None. *)
Definition or_int (x : option Z) (y : Z) : Z :=
  match x with Some z => if z =? 0 then y else z | None => y end.

Section Probed.
Context (p : probe).

Definition cpu_capacity : Z :=
  let affinity := match pr_affinity p with Some n => n | None => or_int (pr_cpu_count p) 1 end in
  let quota := match pr_cpu_max p with
               | CpuMaxQuota q per => Some (Z.max 1 (q / Z.max 1 per))
               | _ => None
               end in
  Z.max 1 (Z.min affinity (or_int quota affinity)).

Definition memory_capacity_bytes : Z :=
  let physical := pr_page_size p * pr_phys_pages p in
  match pr_memory_max p with
  | Some cgroup => if cgroup =? 0 then physical else Z.min physical cgroup
  | None => physical
  end.

Definition available_memory_bytes : Z :=
  let host_available := match pr_mem_available p with
                        | Some a => a | None => memory_capacity_bytes end in
  match pr_memory_max p, pr_memory_current p with
  | Some limit, Some current => Z.min host_available (Z.max 0 (limit - current))
  | _, _ => host_available
  end.

(** "max(1, int(cpu_capacity() * 0.75))" and "max(0, int(memory * 0.80))". *)
Definition cpu_limit : Z := Z.max 1 (cpu_capacity * 3 / 4).
Definition ram_limit : Z := Z.max 0 (memory_capacity_bytes * 4 / 5).

Definition background_launch_allowed (request : request) : bool :=
  if negb (rq_cpu_heavy request) then true
  else if pr_cpp_context_active p then false
  else
    let reserve := Z.max (2 * 1024 ^ 3) (memory_capacity_bytes / 5) in
    if available_memory_bytes - rq_ram_bytes request <? reserve then false
    else
      let load := match pr_loadavg p with Some l => l | None => 0%Q end in
      match Qcompare load (inject_Z cpu_limit) with Lt => true | _ => false end.

(** The thread limit background_environment writes into OMP_NUM_THREADS,
    CMAKE_BUILD_PARALLEL_LEVEL and MAKEFLAGS. *)
Definition background_limit (request : request) : Z :=
  Z.max 1 (Z.min (or_int (Some (rq_cpu_threads request)) cpu_limit) cpu_limit).

Lemma cpu_capacity_pos : 1 <= cpu_capacity.
Proof. unfold cpu_capacity. lia. Qed.

Lemma cpu_limit_bounds : 1 <= cpu_limit <= cpu_capacity.
Proof.
  unfold cpu_limit. pose proof cpu_capacity_pos.
  assert (cpu_capacity * 3 / 4 <= cpu_capacity) by (apply Z.div_le_upper_bound; lia). lia.
Qed.

End Probed.
End Capacity.

(** ** process.py *)

Module Process.

(** What the kernel answers about processes: the start time field of
    /proc/<pid>/stat, and whether signal 0 can be delivered. *)
Record proc_table := {
  pt_start : Z -> option string;
  pt_signalable : Z -> bool
}.

(** [_alive]: a missing or zero pid is dead; otherwise the process must accept
    signal 0 and, when both start times are known, they must agree. *)
Definition alive (t : proc_table) (pid : option Z) (expected : option string) : bool :=
  match pid with
  | None => false
  | Some 0 => false
  | Some n =>
      pt_signalable t n &&
      match expected, pt_start t n with
      | Some e, Some a => String.eqb e "" || String.eqb a "" || String.eqb e a
      | _, _ => true
      end
  end.

End Process.
