(* ===== verification/HostStore.v ===== *)
(** * The host registry database (coordinator.py: SCHEMA and the residency triggers)

    The four SQLite tables as lists of rows in rowid order, SQL's three-valued
    logic, the write statements with their constraints (primary keys and the
    partial unique index), and the eight BEFORE triggers of
    [_install_residency_guards], whose RAISE(IGNORE) skips the row.  Times are
    integers (microseconds of the clock the code reads). *)

From Stdlib Require Import ZArith QArith.
From S2P Require Import Prelude HostPolicy.

#[local] Open Scope string_scope.
#[local] Open Scope Z_scope.
#[local] Open Scope list_scope.

(** ** SQL three-valued logic *)

Module Sql.

Abbreviation tri := (option bool).

Definition not3 (a : tri) : tri := negb <$> a.

Definition and3 (a b : tri) : tri :=
  match a, b with
  | Some false, _ | _, Some false => Some false
  | Some true, Some true => Some true
  | _, _ => None
  end.

Definition or3 (a b : tri) : tri :=
  match a, b with
  | Some true, _ | _, Some true => Some true
  | Some false, Some false => Some false
  | _, _ => None
  end.

(** "a = b": NULL when either side is NULL. *)
Definition eq3 {A} `{EqDecision A} (a b : option A) : tri :=
  match a, b with Some x, Some y => Some (bool_decide (x = y)) | _, _ => None end.

(** "a IS NOT b": never NULL. *)
Definition is_not {A} `{EqDecision A} (a b : A) : tri := Some (bool_decide (a <> b)).

(** A WHEN or WHERE clause holds only when it is true (not NULL). *)
Definition holds (a : tri) : bool := match a with Some true => true | _ => false end.

Definition of_bool (b : bool) : tri := Some b.

Lemma holds_or3 a b : holds (or3 a b) = holds a || holds b.
Proof. by destruct a as [[]|], b as [[]|]. Qed.

Lemma holds_and3 a b : holds (and3 a b) = holds a && holds b.
Proof. by destruct a as [[]|], b as [[]|]. Qed.

Lemma holds_is_not {A} `{EqDecision A} (a b : A) : holds (is_not a b) = true <-> a <> b.
Proof. unfold is_not. simpl. case_bool_decide; simpl; naive_solver. Qed.

End Sql.

(** ** Rows *)

Inductive owner_state := OwActive | OwIntent | OwReleased | OwStale | OwOrphaned.
#[export] Instance owner_state_eq_dec : EqDecision owner_state.
Proof. solve_decision. Defined.

(** The state column of host_reservations and host_foreground_intents. *)
Inductive held_state := HeldActive | HeldReleased.
#[export] Instance held_state_eq_dec : EqDecision held_state.
Proof. solve_decision. Defined.

Record resource_row := {
  rr_id : string;
  rr_kind : string;
  rr_tags : list (string * string);
  rr_enabled : bool;
  rr_updated_at : Z
}.

(** A JSON number in a memory baseline or observation, as validation sees it. *)
Inductive number :=
  | NumBool (b : bool)
  | NumFinite (q : Q)
  | NumNonFinite.
#[export] Instance Q_eq_dec : EqDecision Q.
Proof. solve_decision. Defined.
#[export] Instance number_eq_dec : EqDecision number.
Proof. solve_decision. Defined.

Record origin := { og_pid : Z; og_process_start : option string; og_boot_id : string }.
#[export] Instance origin_eq_dec : EqDecision origin.
Proof. solve_decision. Defined.

(** residency_metadata_json of a protected owner. *)
Record residency := {
  rm_phase : string;
  rm_model_pid : option Z;
  rm_process_start : option string;
  rm_baseline : list (string * number);
  rm_origin : origin;
  rm_generation : string;
  rm_resource_ids : list string;
  rm_capability_sha256 : string
}.

Record owner_row := {
  ow_id : string;
  ow_kind : string;
  ow_project_root : option string;
  ow_job_id : option string;
  ow_attempt_id : option string;
  ow_service_id : option string;
  ow_pid : option Z;
  ow_process_start : option string;
  ow_state : owner_state;
  ow_preempt_requested : bool;
  ow_priority_class : string;
  ow_preemptible : bool;
  ow_protected : bool;
  ow_metadata : option residency;
  ow_release_verified : bool;
  ow_cpu_threads : Z;
  ow_ram_bytes : Z;
  ow_acquired_at : Z;
  ow_heartbeat_at : Z
}.

Record reservation_row := {
  rv_resource_id : string;
  rv_owner_id : string;
  rv_state : held_state;
  rv_acquired_at : Z;
  rv_heartbeat_at : Z
}.

Record intent_row := {
  in_id : string;
  in_owner_id : string;
  in_resources : list string;
  in_cpu_threads : Z;
  in_ram_bytes : Z;
  in_state : held_state;
  in_created_at : Z;
  in_heartbeat_at : Z
}.

Record db := {
  resources : list resource_row;
  owners : list owner_row;
  reservations : list reservation_row;
  intents : list intent_row
}.

Definition empty_db : db :=
  {| resources := []; owners := []; reservations := []; intents := [] |}.

Definition set_resources (t : list resource_row) (d : db) : db :=
  {| resources := t; owners := owners d; reservations := reservations d; intents := intents d |}.
Definition set_owners (t : list owner_row) (d : db) : db :=
  {| resources := resources d; owners := t; reservations := reservations d; intents := intents d |}.
Definition set_reservations (t : list reservation_row) (d : db) : db :=
  {| resources := resources d; owners := owners d; reservations := t; intents := intents d |}.
Definition set_intents (t : list intent_row) (d : db) : db :=
  {| resources := resources d; owners := owners d; reservations := reservations d; intents := t |}.

(** ** Queries the code and the triggers share *)

Definition owner_by_id (d : db) (id : string) : option owner_row :=
  List.find (fun o => String.eqb (ow_id o) id) (owners d).

Definition is_live (s : owner_state) : bool :=
  match s with OwActive | OwIntent => true | _ => false end.
Definition is_active (s : owner_state) : bool :=
  match s with OwActive => true | _ => false end.
Definition is_held (s : held_state) : bool :=
  match s with HeldActive => true | HeldReleased => false end.

(** "EXISTS(SELECT 1 FROM host_owners WHERE id=? AND residency_protected=1 AND
    state='active')". *)
Definition protected_active (d : db) (id : string) : bool :=
  existsb (fun o => String.eqb (ow_id o) id && ow_protected o && is_active (ow_state o))
    (owners d).

(** ** Triggers *)

Module Guard.
Import Sql.

Definition meta {A} (f : residency -> A) (o : owner_row) : option A := f <$> ow_metadata o.
Definition meta_opt {A} (f : residency -> option A) (o : owner_row) : option A :=
  ow_metadata o ≫= f.

(** The identity columns a protected row must keep. *)
Definition identity_changed (old new : owner_row) : tri :=
  foldr or3 (Some false)
    [is_not (ow_state new) (ow_state old); is_not (ow_id new) (ow_id old);
     is_not (ow_kind new) (ow_kind old);
     is_not (ow_project_root new) (ow_project_root old);
     is_not (ow_job_id new) (ow_job_id old);
     is_not (ow_attempt_id new) (ow_attempt_id old);
     is_not (ow_service_id new) (ow_service_id old);
     is_not (ow_acquired_at new) (ow_acquired_at old);
     is_not (ow_cpu_threads new) (ow_cpu_threads old);
     is_not (ow_ram_bytes new) (ow_ram_bytes old);
     is_not (meta rm_generation new) (meta rm_generation old);
     is_not (meta rm_capability_sha256 new) (meta rm_capability_sha256 old);
     is_not (meta rm_origin new) (meta rm_origin old);
     is_not (meta rm_baseline new) (meta rm_baseline old);
     is_not (meta rm_resource_ids new) (meta rm_resource_ids old)].

(** pid or process_start changed other than by the reserved-to-spawned step. *)
Definition process_changed (old new : owner_row) : tri :=
  and3 (or3 (is_not (ow_pid new) (ow_pid old))
            (is_not (ow_process_start new) (ow_process_start old)))
    (not3
      (and3 (eq3 (meta rm_phase old) (Some "reserved"))
        (and3 (eq3 (meta rm_phase new) (Some "spawned"))
          (and3 (eq3 (meta_opt rm_model_pid new) (ow_pid new))
                (eq3 (meta_opt rm_process_start new) (ow_process_start new)))))).

(** residency_guard_owner_update. *)
Definition owner_update (old new : owner_row) : bool :=
  ow_protected old && is_active (ow_state old) &&
  ((negb (ow_protected new) &&
    negb (ow_release_verified new && negb (ow_release_verified old))) ||
   (ow_protected new &&
    holds (or3 (identity_changed old new) (process_changed old new)))).

(** residency_guard_owner_insert. *)
Definition owner_insert (d : db) (new : owner_row) : bool := protected_active d (ow_id new).

(** residency_guard_host_reservations_{update,insert}. *)
Definition reservation_update (d : db) (old new : reservation_row) : bool :=
  is_held (rv_state old) && protected_active d (rv_owner_id old) &&
  (bool_decide (rv_state new <> rv_state old) ||
   bool_decide (rv_owner_id new <> rv_owner_id old) ||
   bool_decide (rv_resource_id new <> rv_resource_id old) ||
   bool_decide (rv_acquired_at new <> rv_acquired_at old)).

Definition reservation_insert (d : db) (new : reservation_row) : bool :=
  existsb (fun old => String.eqb (rv_resource_id old) (rv_resource_id new) &&
                      is_held (rv_state old) && protected_active d (rv_owner_id old))
    (reservations d).

(** residency_guard_host_foreground_intents_{update,insert}. *)
Definition intent_update (d : db) (old new : intent_row) : bool :=
  is_held (in_state old) && protected_active d (in_owner_id old) &&
  (bool_decide (in_state new <> in_state old) ||
   bool_decide (in_owner_id new <> in_owner_id old) ||
   bool_decide (in_id new <> in_id old) ||
   bool_decide (in_created_at new <> in_created_at old) ||
   bool_decide (in_resources new <> in_resources old) ||
   bool_decide (in_cpu_threads new <> in_cpu_threads old) ||
   bool_decide (in_ram_bytes new <> in_ram_bytes old)).

Definition intent_insert (d : db) (new : intent_row) : bool :=
  existsb (fun old => String.eqb (in_id old) (in_id new) &&
                      is_held (in_state old) && protected_active d (in_owner_id old))
    (intents d).

End Guard.

(** ** Write statements *)

(** "UPDATE t SET f WHERE w", a BEFORE UPDATE trigger [g] skipping rows. *)
Definition update_rows {A} (w : A -> bool) (f : A -> A) (g : A -> A -> bool) (t : list A) : list A :=
  map (fun r => if w r && negb (g r (f r)) then f r else r) t.

(** cursor.rowcount of that statement. *)
Definition update_count {A} (w : A -> bool) (f : A -> A) (g : A -> A -> bool) (t : list A) : nat :=
  length (List.filter (fun r => w r && negb (g r (f r))) t).

Definition update_owners (w : owner_row -> bool) (f : owner_row -> owner_row) (d : db) : db :=
  set_owners (update_rows w f Guard.owner_update (owners d)) d.

Definition update_reservations (w : reservation_row -> bool)
    (f : reservation_row -> reservation_row) (d : db) : db :=
  set_reservations (update_rows w f (Guard.reservation_update d) (reservations d)) d.

Definition update_intents (w : intent_row -> bool) (f : intent_row -> intent_row) (d : db) : db :=
  set_intents (update_rows w f (Guard.intent_update d) (intents d)) d.

(** INSERT: the BEFORE trigger first (IGNORE: no row, no error), then the
    constraints of the table. *)
Definition insert_owner (o : owner_row) (d : db) : result db :=
  if Guard.owner_insert d o then Ok d
  else if existsb (fun o' => String.eqb (ow_id o') (ow_id o)) (owners d) then Err IntegrityError
  else Ok (set_owners (owners d ++ [o]) d).

(** Two rows clash on the primary key (resource_id, owner_id), or on the partial
    unique index over active rows. *)
Definition reservation_clash (r r' : reservation_row) : bool :=
  String.eqb (rv_resource_id r') (rv_resource_id r) &&
  (String.eqb (rv_owner_id r') (rv_owner_id r) || (is_held (rv_state r') && is_held (rv_state r))).

Definition insert_reservation (r : reservation_row) (d : db) : result db :=
  if Guard.reservation_insert d r then Ok d
  else if existsb (reservation_clash r) (reservations d) then Err IntegrityError
  else Ok (set_reservations (reservations d ++ [r]) d).

Definition insert_intent (i : intent_row) (d : db) : result db :=
  if Guard.intent_insert d i then Ok d
  else if existsb (fun i' => String.eqb (in_id i') (in_id i)) (intents d) then Err IntegrityError
  else Ok (set_intents (intents d ++ [i]) d).

(** "INSERT ... ON CONFLICT(id) DO UPDATE SET ...": the conflicting row is
    rewritten in place. *)
Definition upsert_resource (r : resource_row) (d : db) : db :=
  if existsb (fun r' => String.eqb (rr_id r') (rr_id r)) (resources d)
  then set_resources (map (fun r' => if String.eqb (rr_id r') (rr_id r) then r else r') (resources d)) d
  else set_resources (resources d ++ [r]) d.
