(* ===== verification/HostTopology.v ===== *)
(** * GPU topology discovery (host_resources/topology.py)

    The parser of "nvidia-smi topo -m", the union-find that groups devices joined
    by NVLink, and the two entry points that classify a host and build its device
    inventory.  nvidia-smi itself is the parameter [runner]; csv.reader is that
    of Text.  The main theorem: the groups are exactly the connectivity classes of the
    NVLink relation, unless a row device is not listed. *)

From Stdlib Require Import ZArith.
From stdpp Require Import relations pretty fin_maps fin_sets.
From S2P Require Import Prelude PyValue Text HostStore.

#[local] Open Scope string_scope.
#[local] Open Scope Z_scope.
#[local] Open Scope list_scope.

(** ** Parsing the matrix *)

(** "ANSI_ESCAPE.sub('', raw)": drops every ESC [ digits-or-semicolons m; [pending]
    is an escape sequence begun and not yet finished. *)
Fixpoint strip_ansi (pending : string) (s : string) : string :=
  match s with
  | EmptyString => pending
  | String c s =>
      if (code c =? 27)%nat then pending +:+ strip_ansi (chr 27) s
      else if String.eqb pending "" then String c (strip_ansi "" s)
      else if String.eqb pending (chr 27)
      then if (code c =? 91)%nat then strip_ansi (snoc pending c) s
           else pending +:+ String c (strip_ansi "" s)
      else if is_digit c || (code c =? 59)%nat then strip_ansi (snoc pending c) s
      else if (code c =? 109)%nat then strip_ansi "" s
      else pending +:+ String c (strip_ansi "" s)
  end.

Abbreviation adjacency := (list (Z * string)).

Record matrix := {
  mx_links : list (Z * adjacency);
  mx_numa : list (Z * string);
  mx_columns : list (nat * Z);
  mx_numa_column : option nat;
  mx_complete : bool
}.

Definition empty_matrix : matrix :=
  {| mx_links := []; mx_numa := []; mx_columns := []; mx_numa_column := None; mx_complete := true |}.

Definition line_fields (raw : string) : list string :=
  let clean := strip_ansi "" raw in
  if any_char (fun c => (code c =? 9)%nat) clean
  then match map strip (split_on (Ascii.ascii_of_nat 9) clean) with
       | x :: l => if String.eqb x "" then l else x :: l
       | [] => []
       end
  else split_ws clean.

Definition is_gpu (s : string) : bool := String.prefix "GPU" s.

(** The number of a field "GPU<digits>". *)
Definition gpu_index (s : string) : option Z :=
  if is_gpu s && isdigit (drop_str 3 s) then Some (digits_value 0 (drop_str 3 s)) else None.

Definition header_columns (header : list string) : list (nat * Z) :=
  omap (fun name => n ← gpu_index name; i ← index_of name header; Some (S i, n)) header.

Definition header_numa (header : list string) : option nat :=
  match index_of "NUMA Affinity" header with
  | Some i => Some i
  | None => index_of "NUMA_Affinity" header
  end.

Definition read_header (m : matrix) (fields : list string) : matrix :=
  {| mx_links := mx_links m; mx_numa := mx_numa m; mx_columns := header_columns fields;
     mx_numa_column := match header_numa fields with Some i => Some i | None => mx_numa_column m end;
     mx_complete := mx_complete m |}.

Definition read_row (m : matrix) (index : Z) (fields : list string) : matrix :=
  let cells := omap (fun '(column, peer) => v ← fields !! column; Some (peer, v)) (mx_columns m) in
  {| mx_links := dict_set index (foldl (fun acc kv => dict_set kv.1 kv.2 acc) [] cells) (mx_links m);
     mx_numa :=
       match mx_numa_column m ≫= fun n => fields !! S n with
       | Some value => if isdigit (lstrip_while (fun c => (code c =? 45)%nat) value)
                       then dict_set index value (mx_numa m) else mx_numa m
       | None => mx_numa m
       end;
     mx_columns := mx_columns m; mx_numa_column := mx_numa_column m;
     mx_complete := mx_complete m && (length cells =? length (mx_columns m))%nat |}.

Definition read_line (m : matrix) (raw : string) : matrix :=
  match line_fields raw with
  | [] => m
  | f0 :: rest =>
      if match rest with f1 :: _ => is_gpu f0 && is_gpu f1 | [] => false end
      then read_header m (f0 :: rest)
      else match gpu_index f0 with
           | Some index => read_row m index (f0 :: rest)
           | None => m
           end
  end.

Definition same_elements (l k : list Z) : bool :=
  bool_decide (list_to_set (C := gset Z) l = list_to_set k).

Definition _parse_topology_matrix (topology : string)
    : list Z * list (Z * adjacency) * list (Z * string) * bool :=
  let m := foldl read_line empty_matrix (splitlines topology) in
  let indices := merge_sort Z.le (mx_columns m).*2 in
  (indices, mx_links m, mx_numa m,
   mx_complete m && negb (bool_decide (indices = [])) &&
   same_elements (mx_links m).*1 indices &&
   forallb (fun kv => same_elements kv.2.*1 indices) (mx_links m)).

(** ** Union-find with path halving *)

Abbreviation forest := (gmap Z Z).

Definition missing (v : Z) : exn := KeyError (pretty v).

(** [find]: the loop runs at most [fuel] times; [find_total] below shows that
    the size of the forest is enough. *)
Fixpoint find (fuel : nat) (p : forest) (v : Z) : result (Z * forest) :=
  match fuel with
  | O => Err (RuntimeError "fuel")
  | S fuel =>
      match p !! v with
      | None => Err (missing v)
      | Some w =>
          if w =? v then Ok (v, p)
          else match p !! w with
               | None => Err (missing w)
               | Some g => find fuel (<[v := g]> p) g
               end
      end
  end.

Definition find_in (p : forest) (v : Z) : result (Z * forest) := find (S (size p)) p v.

Definition union (p : forest) (left right : Z) : result forest :=
  '(l, p1) ← find_in p left;
  '(r, p2) ← find_in p1 right;
  Ok (if l =? r then p2 else <[Z.max l r := Z.min l r]> p2).

Definition nvlink (relation : string) : bool := String.prefix "NV" relation.

Definition union_row (p : forest) (left : Z) (adjacent : adjacency) : result forest :=
  foldM (fun p kv => if nvlink kv.2 && bool_decide (is_Some (p !! kv.1))
                     then union p left kv.1 else Ok p) p adjacent.

Definition initial_forest (indices : list Z) : forest := list_to_map (map (fun i => (i, i)) indices).

(** "groups.setdefault(find(index), []).append(index)". *)
Definition group_step (s : forest * list (Z * list Z)) (index : Z)
    : result (forest * list (Z * list Z)) :=
  '(root, p) ← find_in s.1 index;
  Ok (p, dict_set root (default [] (dict_get root s.2) ++ [index]) s.2).

Fixpoint zlist_leb (l k : list Z) : bool :=
  match l, k with
  | [], _ => true
  | _ :: _, [] => false
  | x :: l, y :: k => (x <? y) || ((x =? y) && zlist_leb l k)
  end.
Definition zlist_le (l k : list Z) : Prop := zlist_leb l k = true.
#[export] Instance zlist_le_dec : RelDecision zlist_le.
Proof. intros l k. unfold zlist_le. apply _. Defined.

Definition _nvlink_components (indices : list Z) (links : list (Z * adjacency))
    : result (list (list Z)) :=
  p ← foldM (fun p kv => union_row p kv.1 kv.2) (initial_forest indices) links;
  '(_, groups) ← foldM group_step (p, []) indices;
  Ok (merge_sort zlist_le (map (merge_sort Z.le) groups.*2)).

(** ** classify_local_worker_host_topology *)

Record LocalWorkerHostTopology := {
  mode : string;
  gpu_count : option Z;
  nvlink_components : list (list Z);
  status : string
}.

(** nvidia-smi: None where the runner raises OSError or SubprocessError. *)
Abbreviation runner_fn := (list string -> option string).

Definition classify_local_worker_host_topology (runner : runner_fn) : result LocalWorkerHostTopology :=
  match runner ["nvidia-smi"; "topo"; "-m"] with
  | None => Ok {| mode := "unknown"; gpu_count := None; nvlink_components := [];
                  status := "unavailable" |}
  | Some topology =>
      let '(indices, links, _, complete) := _parse_topology_matrix topology in
      let n := Z.of_nat (length indices) in
      if negb complete
      then Ok {| mode := "unknown"; gpu_count := if n =? 0 then None else Some n;
                 nvlink_components := []; status := "unavailable" |}
      else
        components ← _nvlink_components indices links;
        let sizes := merge_sort Nat.le (map length components) in
        Ok (if (n =? 4) && bool_decide (sizes = [2; 2]%nat)
            then {| mode := "normal"; gpu_count := Some 4; nvlink_components := components;
                    status := "available" |}
            else if (n =? 4) && bool_decide (sizes = [4]%nat)
            then {| mode := "x_mode"; gpu_count := Some 4; nvlink_components := components;
                    status := "available" |}
            else {| mode := "unknown"; gpu_count := Some n; nvlink_components := components;
                    status := "unsupported" |})
  end.

(** ** The union-find is correct *)

Section Relations.
Context {A : Type}.
Implicit Types R S : relation A.

Lemma rtsc_incl R S : (forall x y, R x y -> rtsc S x y) -> forall a b, rtsc R a b -> rtsc S a b.
Proof.
  intros H a b Hab. induction Hab as [|x y z [Hxy|Hxy] _ IH]; [reflexivity| |].
  - etransitivity; [by apply H|done].
  - etransitivity; [symmetry; by apply H|done].
Qed.

Lemma rtsc_step R x y : R x y -> rtsc R x y.
Proof. intros H. apply rtc_once. by left. Qed.
End Relations.

Definition step (p : forest) (a b : Z) : Prop := p !! a = Some b.
Definition conn (p : forest) : relation Z := rtsc (step p).

(** Parents are smaller and present. *)
Definition forest_ok (D : gset Z) (p : forest) : Prop :=
  dom p = D /\ forall v w, p !! v = Some w -> w <= v /\ w ∈ D.

Definition is_root (p : forest) (r : Z) : Prop := p !! r = Some r.

Lemma conn_insert p v w g a b :
  p !! v = Some w -> p !! w = Some g -> w <> v -> conn (<[v:=g]> p) a b <-> conn p a b.
Proof.
  intros Hv Hw Hne. split; apply rtsc_incl; intros x y; unfold step.
  - destruct (decide (x = v)) as [->|Hx].
    + rewrite lookup_insert_eq. intros [= <-]. etransitivity; [by apply rtsc_step|]. by apply rtsc_step.
    + rewrite lookup_insert_ne by done. intros H. by apply rtsc_step.
  - destruct (decide (x = v)) as [->|Hx].
    + rewrite Hv. intros [= <-]. transitivity g.
      * apply rtsc_step. unfold step. by rewrite lookup_insert_eq.
      * symmetry. apply rtsc_step. unfold step. by rewrite lookup_insert_ne.
    + intros H. apply rtsc_step. unfold step. by rewrite lookup_insert_ne.
Qed.

(** The keys a walk from [v] can still visit. *)
Definition below (D : gset Z) (v : Z) : gset Z := filter (fun u => u <= v) D.

Lemma below_lt D v g : g < v -> v ∈ D -> (size (below D g) < size (below D v))%nat.
Proof.
  intros Hlt Hv. apply subset_size. split; [intros x; unfold below; rewrite !elem_of_filter; intros [? ?]; split; [lia|done]|].
  intros Hsub. assert (v ∈ below D v) as Hin by (apply elem_of_filter; split; [lia|done]).
  apply Hsub, elem_of_filter in Hin as [? _]. lia.
Qed.

(** [find] returns the root of its argument and keeps the partition. *)
Record find_ok (D : gset Z) (p : forest) (v r : Z) (p' : forest) : Prop := {
  fo_ok : forest_ok D p';
  fo_root : is_root p' r;
  fo_conn : conn p' v r;
  fo_same : forall a b, conn p' a b <-> conn p a b;
  fo_roots : forall a, is_root p a -> is_root p' a;
  fo_in : r ∈ D
}.

Lemma find_total D fuel p v :
  forest_ok D p -> v ∈ D -> (size (below D v) < fuel)%nat ->
  exists r p', find fuel p v = Ok (r, p') /\ find_ok D p v r p'.
Proof.
  revert p v. induction fuel as [|fuel IH]; intros p v [Hd Hp] Hv Hf; [lia|]. simpl.
  destruct (p !! v) as [w|] eqn:Hw; [|apply not_elem_of_dom in Hw; congruence].
  destruct (Hp _ _ Hw) as [Hle HwD].
  destruct (Z.eqb_spec w v) as [->|Hne].
  { exists v, p. split; [done|]. by split; [split|done|reflexivity|..]. }
  destruct (p !! w) as [g|] eqn:Hg; [|apply not_elem_of_dom in Hg; congruence].
  destruct (Hp _ _ Hg) as [Hge HgD].
  assert (forest_ok D (<[v:=g]> p)) as Hok.
  { split; [rewrite dom_insert_L; set_solver|]. intros a b.
    destruct (decide (a = v)) as [->|Ha].
    - rewrite lookup_insert_eq. intros [= <-]. split; [lia|done].
    - rewrite lookup_insert_ne by done. apply Hp. }
  destruct (IH (<[v:=g]> p) g Hok HgD) as (r & p' & -> & [H1 H2 H3 H4 H5 H6]).
  { assert (size (below D g) < size (below D v))%nat by (apply below_lt; [lia|done]). lia. }
  exists r, p'. split; [done|]. split; try done.
  - etransitivity; [|exact H3]. apply H4. apply (conn_insert p v w g); [done..|].
    etransitivity; [apply rtsc_step; exact Hw|apply rtsc_step; exact Hg].
  - intros a b. rewrite H4. by eapply conn_insert.
  - intros a Ha. apply H5. unfold is_root in *. rewrite lookup_insert_ne; congruence.
Qed.

Lemma find_in_total D p v :
  forest_ok D p -> v ∈ D -> exists r p', find_in p v = Ok (r, p') /\ find_ok D p v r p'.
Proof.
  intros Hok Hv. apply find_total; [done..|]. destruct Hok as [Hd _].
  rewrite <-size_dom, Hd. assert (size (below D v) <= size D)%nat; [|lia].
  apply subseteq_size. intros x. unfold below. rewrite elem_of_filter. naive_solver.
Qed.

Lemma union_total D p l r :
  forest_ok D p -> l ∈ D -> r ∈ D ->
  exists p', union p l r = Ok p' /\ forest_ok D p' /\
    forall a b, conn p' a b <-> rtsc (fun x y => conn p x y \/ (x = l /\ y = r)) a b.
Proof.
  intros Hok Hl Hr. unfold union.
  destruct (find_in_total D p l Hok Hl) as (lr & p1 & -> & H1). rewrite bind_Ok. cbv iota.
  destruct (find_in_total D p1 r (fo_ok _ _ _ _ _ H1) Hr) as (rr & p2 & -> & H2). rewrite bind_Ok.
  cbv iota. eexists. split; [done|]. destruct H1 as [_ R1 C1 S1 _ D1], H2 as [[Hd Hp] R2 C2 S2 K2 D2].
  assert (forall a b, conn p2 a b <-> conn p a b) as HS by (intros; by rewrite S2, S1).
  assert (conn p2 l lr) as Hll by by apply S2.
  destruct (Z.eqb_spec lr rr) as [<-|Hne].
  - split; [done|]. intros a b. rewrite HS. split.
    + intros H. apply rtsc_step. by left.
    + apply rtsc_incl. intros x y [H|[-> ->]]; [done|]. apply HS.
      etransitivity; [exact Hll|]. by symmetry.
  - assert (is_root p2 (Z.max lr rr)) as Hm by (destruct (Z.max_spec lr rr) as [[_ ->]|[_ ->]]; auto).
    split.
    { split; [rewrite dom_insert_L; destruct (Z.max_spec lr rr) as [[_ ->]|[_ ->]]; set_solver|].
      intros a b. destruct (decide (a = Z.max lr rr)) as [->|Ha].
      - rewrite lookup_insert_eq. intros [= <-].
        split; [lia|]. destruct (Z.min_spec lr rr) as [[_ ->]|[_ ->]]; done.
      - rewrite lookup_insert_ne by done. apply Hp. }
    set (p3 := <[_ := _]> p2).
    assert (step p3 (Z.max lr rr) (Z.min lr rr)) as He by (unfold step, p3; by rewrite lookup_insert_eq).
    assert (forall a b, conn p2 a b -> conn p3 a b) as Hinc.
    { apply rtsc_incl. intros x y Hxy. destruct (decide (x = Z.max lr rr)) as [->|Hx].
      - unfold step in Hxy. rewrite Hm in Hxy. injection Hxy as <-. reflexivity.
      - apply rtsc_step. unfold step, p3. by rewrite lookup_insert_ne. }
    assert (conn p3 lr rr) as Hlr.
    { destruct (Z.max_spec lr rr) as [[? Hx]|[? Hx]], (Z.min_spec lr rr) as [[? Hn]|[? Hn]]; try lia;
        rewrite Hx, Hn in He; [symmetry|]; by apply rtsc_step. }
    intros a b. split; apply rtsc_incl.
    + intros x y Hxy. unfold step, p3 in Hxy. destruct (decide (x = Z.max lr rr)) as [->|Hx].
      * rewrite lookup_insert_eq in Hxy. injection Hxy as <-.
        assert (rtsc (fun x y => conn p x y \/ (x = l /\ y = r)) lr rr) as Hq.
        { transitivity l; [apply rtsc_step; left; apply HS; by symmetry|].
          transitivity r; [apply rtsc_step; by right|]. apply rtsc_step. left. by apply HS. }
        destruct (Z.max_spec lr rr) as [[? ->]|[? ->]], (Z.min_spec lr rr) as [[? ->]|[? ->]];
          try lia; [by symmetry|done].
      * rewrite lookup_insert_ne in Hxy by done. apply rtsc_step. left. apply HS. by apply rtsc_step.
    + intros x y [H|[-> ->]]; [by apply Hinc, HS|].
      transitivity lr; [by apply Hinc|]. transitivity rr; [done|]. symmetry. by apply Hinc.
Qed.

(** ** The groups are the connectivity classes *)

Definition row_edges (D : gset Z) (left : Z) (adjacent : adjacency) : list (Z * Z) :=
  map (fun kv => (left, kv.1)) (List.filter (fun kv => nvlink kv.2 && bool_decide (kv.1 ∈ D)) adjacent).

(** The NVLink relation between known devices. *)
Definition nvlink_edges (indices : list Z) (links : list (Z * adjacency)) : list (Z * Z) :=
  flat_map (fun kv => row_edges (list_to_set indices) kv.1 kv.2) links.

Definition linked (es : list (Z * Z)) : relation Z := rtsc (fun x y => (x, y) ∈ es).

Lemma linked_snoc es l r (C : relation Z) :
  (forall a b, C a b <-> linked es a b) ->
  forall a b, rtsc (fun x y => C x y \/ (x = l /\ y = r)) a b <-> linked (es ++ [(l, r)]) a b.
Proof.
  intros HC a b. split; apply rtsc_incl.
  - intros x y [H|[-> ->]].
    + apply HC in H. revert H. apply rtsc_incl. intros u v Hu. apply rtsc_step. set_solver.
    + apply rtsc_step. set_solver.
  - intros x y [H|H%list_elem_of_singleton]%elem_of_app.
    + apply rtsc_step. left. by apply HC, rtsc_step.
    + simplify_eq. apply rtsc_step. by right.
Qed.

Lemma union_row_total D p left adjacent es :
  forest_ok D p -> left ∈ D -> (forall a b, conn p a b <-> linked es a b) ->
  exists p', union_row p left adjacent = Ok p' /\ forest_ok D p' /\
    forall a b, conn p' a b <-> linked (es ++ row_edges D left adjacent) a b.
Proof.
  intros Hok Hl. revert p es Hok. induction adjacent as [|[r rel] adj IH]; intros p es Hok HC.
  { exists p. split; [done|]. split; [done|]. unfold row_edges. simpl. by rewrite app_nil_r. }
  unfold union_row, row_edges. simpl.
  assert (bool_decide (is_Some (p !! r)) = bool_decide (r ∈ D)) as ->.
  { apply bool_decide_ext. rewrite <-elem_of_dom. by rewrite (proj1 Hok). }
  destruct (nvlink rel && bool_decide (r ∈ D)) eqn:Hb; simpl.
  - apply andb_true_iff in Hb as [_ Hr%bool_decide_eq_true].
    destruct (union_total D p left r Hok Hl Hr) as (p1 & -> & Hok1 & HC1). rewrite bind_Ok.
    destruct (IH p1 (es ++ [(left, r)]) Hok1) as (p' & Hf & Hok' & HC').
    { intros a b. rewrite HC1. by apply linked_snoc. }
    exists p'. split; [exact Hf|]. split; [done|]. intros a b. by rewrite HC', <-app_assoc.
  - apply (IH p es Hok HC).
Qed.

(** An edge whose left end, a row of the matrix, is no known device. *)
Definition unlisted (D : gset Z) (e : Z * Z) : bool := negb (bool_decide (e.1 ∈ D)).

(** A row of an unknown device raises at its first edge. *)
Lemma union_row_unlisted D p left adjacent :
  forest_ok D p -> left ∉ D ->
  union_row p left adjacent = match row_edges D left adjacent with [] => Ok p | _ :: _ => Err (missing left) end.
Proof.
  intros [Hd Hp] Hl. induction adjacent as [|[r rel] adj IH]; [done|]. unfold union_row, row_edges. simpl.
  assert (bool_decide (is_Some (p !! r)) = bool_decide (r ∈ D)) as ->.
  { apply bool_decide_ext. by rewrite <-elem_of_dom, Hd. }
  destruct (nvlink rel && bool_decide (r ∈ D)); simpl; [|exact IH].
  rewrite <-Hd in Hl. apply not_elem_of_dom in Hl. unfold union, find_in. simpl. by rewrite Hl.
Qed.

Lemma row_unlisted D left adjacent :
  List.find (unlisted D) (row_edges D left adjacent)
  = if bool_decide (left ∈ D) then None else head (row_edges D left adjacent).
Proof.
  unfold row_edges. induction (List.filter _ adjacent) as [|kv l IH]; simpl; [by case_bool_decide|].
  unfold unlisted at 1. simpl. revert IH. case_bool_decide; simpl; done.
Qed.

(** The rows are joined in order, up to the first edge of an unknown device. *)
Lemma links_total D p links es :
  forest_ok D p -> (forall a b, conn p a b <-> linked es a b) ->
  match List.find (unlisted D) (flat_map (fun kv => row_edges D kv.1 kv.2) links) with
  | Some e => foldM (fun p kv => union_row p kv.1 kv.2) p links = Err (missing e.1)
  | None =>
      exists p', foldM (fun p kv => union_row p kv.1 kv.2) p links = Ok p' /\ forest_ok D p' /\
        forall a b, conn p' a b <-> linked (es ++ flat_map (fun kv => row_edges D kv.1 kv.2) links) a b
  end.
Proof.
  revert p es. induction links as [|[l adj] links IH]; intros p es Hok HC.
  { simpl. exists p. rewrite app_nil_r. auto. }
  cbn [flat_map foldM fst snd]. rewrite find_app, row_unlisted. case_bool_decide as Hl.
  - destruct (union_row_total D p l adj es Hok Hl HC) as (p1 & -> & Hok1 & HC1). rewrite bind_Ok.
    specialize (IH p1 _ Hok1 HC1). destruct (List.find _ _); [done|]. destruct IH as (p' & Hf & Hok' & HC').
    exists p'. split; [exact Hf|]. split; [done|]. intros a b. by rewrite HC', <-app_assoc.
  - rewrite (union_row_unlisted D) by done. destruct (row_edges D l adj) as [|e row] eqn:Erow; cbn [head].
    + rewrite bind_Ok. cbn [app]. by apply IH.
    + assert (e ∈ row_edges D l adj) as He by (rewrite Erow; left). unfold row_edges in He.
      apply list_elem_of_fmap in He as (kv & -> & _). done.
Qed.

Lemma initial_forest_ok indices :
  forest_ok (list_to_set indices) (initial_forest indices) /\
  forall a b, conn (initial_forest indices) a b <-> linked [] a b.
Proof.
  unfold initial_forest.
  assert (forall v w, list_to_map (M := forest) (map (fun i => (i, i)) indices) !! v = Some w ->
    w = v /\ v ∈ indices) as Hl.
  { intros v w H%elem_of_list_to_map_2%list_elem_of_fmap. naive_solver. }
  split; [split|].
  - rewrite dom_list_to_map_L. f_equal. rewrite <-list_fmap_compose. induction indices; simpl; f_equal; auto.
    apply IHindices. intros v w H. apply elem_of_list_to_map_2, list_elem_of_fmap in H. naive_solver.
  - intros v w H. apply Hl in H as [-> H]. split; [lia|]. by apply elem_of_list_to_set.
  - intros a b. split; apply rtsc_incl; intros x y.
    + intros H. apply Hl in H as [-> _]. reflexivity.
    + by intros ?%not_elem_of_nil.
Qed.

(** Roots are unique in their class. *)
Definition leads (p : forest) (a r : Z) : Prop := rtc (step p) a r /\ is_root p r.

Lemma leads_step p a b r : step p a b -> leads p a r <-> leads p b r.
Proof.
  intros Hab. split; intros [H Hr]; (split; [|done]).
  - inversion H as [|? c ? Hac Hc]; simplify_eq.
    + unfold step, is_root in *. replace b with r by congruence. apply rtc_refl.
    + unfold step in *. by replace b with c by congruence.
  - by eapply rtc_l.
Qed.

Lemma leads_conn p a b r : conn p a b -> leads p a r <-> leads p b r.
Proof.
  intros Hab. induction Hab as [|x y z [Hxy|Hxy] _ IH]; [done| |].
  - by rewrite (leads_step _ _ _ r Hxy).
  - by rewrite <-(leads_step _ _ _ r Hxy).
Qed.

Lemma root_rtc p a b : rtc (step p) a b -> is_root p a -> a = b.
Proof.
  induction 1 as [|x y z Hxy _ IH]; intros Hr; [done|].
  unfold step, is_root in *. assert (y = x) as -> by congruence. auto.
Qed.

Lemma root_unique p a b : conn p a b -> is_root p a -> is_root p b -> a = b.
Proof.
  intros Hab Ha Hb. assert (leads p a b) as [H _] by (apply (leads_conn p a b b Hab); by split).
  by apply (root_rtc p).
Qed.

(** The groups built from [seen]: keyed by roots, each group the class of its key. *)
Record groups_ok (p : forest) (seen : list Z) (groups : list (Z * list Z)) : Prop := {
  go_keys : NoDup groups.*1;
  go_roots : forall root g, (root, g) ∈ groups -> is_root p root;
  go_nonempty : forall root g, (root, g) ∈ groups -> g <> [];
  go_class : forall root g i, (root, g) ∈ groups -> i ∈ g <-> i ∈ seen /\ conn p i root;
  go_cover : forall i, i ∈ seen -> exists root g, (root, g) ∈ groups /\ i ∈ g
}.

Lemma dict_set_elem {A} k (v : A) d k' v' :
  NoDup d.*1 -> (k', v') ∈ dict_set k v d <->
  (k' = k /\ v' = v) \/ (k' <> k /\ (k', v') ∈ (d : list (Z * A))).
Proof.
  intros Hd. split.
  - intros H. apply (dict_get_NoDup _ _ _ (dict_set_NoDup k v d Hd)) in H.
    destruct (decide (k' = k)) as [->|Hne].
    + rewrite dict_get_set_eq in H. naive_solver.
    + rewrite dict_get_set_ne in H by done. right. split; [done|]. by apply dict_get_elem.
  - intros [[-> ->]|[Hne H]].
    + apply dict_get_elem. by rewrite dict_get_set_eq.
    + apply dict_get_elem. rewrite dict_get_set_ne by done. by apply dict_get_NoDup.
Qed.

Lemma group_step_ok D p seen groups i :
  forest_ok D p -> i ∈ D -> groups_ok p seen groups ->
  exists p' groups', group_step (p, groups) i = Ok (p', groups') /\ forest_ok D p' /\
    (forall a b, conn p' a b <-> conn p a b) /\ groups_ok p' (seen ++ [i]) groups'.
Proof.
  intros Hok Hi [Hk Hr Hn Hc Hcov]. unfold group_step. simpl.
  destruct (find_in_total D p i Hok Hi) as (r & p' & -> & [H1 H2 H3 H4 H5 H6]).
  rewrite bind_Ok. cbv iota. do 2 eexists. split; [done|]. split; [done|]. split; [done|].
  assert (forall root g, (root, g) ∈ groups -> conn p' i root -> root = r) as Hsame.
  { intros root g Hg Hcn. apply (root_unique p'); [|by apply H5, (Hr _ g)|done].
    etransitivity; [by symmetry|done]. }
  set (old := default [] (dict_get r groups)).
  assert (forall j, j ∈ old <-> j ∈ seen /\ conn p j r) as Hold.
  { intros j. unfold old. destruct (dict_get r groups) as [g|] eqn:Hg; simpl.
    - apply (Hc r g). by apply dict_get_elem.
    - split; [by intros ?%not_elem_of_nil|]. intros [Hj Hjr].
      destruct (Hcov j Hj) as (root & g & Hin & Hjg). exfalso.
      apply dict_get_None in Hg. apply Hg. apply list_elem_of_fmap. exists (root, g).
      split; [|done]. simpl. symmetry. apply (root_unique p'); [|by apply H5, (Hr _ g)|done].
      apply H4. transitivity j; [|done]. symmetry. by apply (Hc root g). }
  split.
  - by apply dict_set_NoDup.
  - intros root g [[-> ->]|[_ Hg]]%dict_set_elem; [done| |done]. by apply H5, (Hr _ g).
  - intros root g [[-> ->]|[_ Hg]]%dict_set_elem; [|by eapply Hn|done]. by destruct old.
  - intros root g j Hg. rewrite H4. apply dict_set_elem in Hg as [[-> ->]|[Hne Hg]]; [| |done].
    + rewrite !elem_of_app, list_elem_of_singleton, Hold.
      assert (conn p i r) by (by apply H4). naive_solver.
    + rewrite (Hc root g j Hg), elem_of_app, list_elem_of_singleton.
      split; [naive_solver|]. intros [[?| ->] Hj]; [done|]. destruct Hne. apply (Hsame root g Hg). by apply H4.
  - intros j [Hj| ->%list_elem_of_singleton]%elem_of_app.
    + destruct (Hcov j Hj) as (root & g & Hin & Hjg). destruct (decide (root = r)) as [->|Hne].
      * exists r, (old ++ [i]). split; [apply dict_set_elem; auto|]. apply elem_of_app. left.
        apply Hold. split; [done|]. by apply (Hc r g).
      * exists root, g. split; [apply dict_set_elem; auto|done].
    + exists r, (old ++ [i]). split; [apply dict_set_elem; auto|]. set_solver.
Qed.

Lemma groups_total D p seen groups l :
  forest_ok D p -> (forall i, i ∈ l -> i ∈ D) -> groups_ok p seen groups ->
  exists p' groups', foldM group_step (p, groups) l = Ok (p', groups') /\
    (forall a b, conn p' a b <-> conn p a b) /\ groups_ok p' (seen ++ l) groups'.
Proof.
  revert p seen groups. induction l as [|i l IH]; intros p seen groups Hok Hl Hg.
  { exists p, groups. rewrite app_nil_r. done. }
  simpl. destruct (group_step_ok D p seen groups i Hok) as (p1 & g1 & -> & Hok1 & Hc1 & Hg1);
    [apply Hl; left|done|]. rewrite bind_Ok.
  destruct (IH p1 (seen ++ [i]) g1 Hok1) as (p' & g' & -> & Hc' & Hg'); [|done|].
  { intros j Hj. apply Hl. by right. }
  exists p', g'. split; [done|]. split; [intros; by rewrite Hc', Hc1|]. by rewrite <-app_assoc in Hg'.
Qed.

(** What the union-find answers. *)
Definition components_spec (indices : list Z) (links : list (Z * adjacency)) (answer : result (list (list Z))) : Prop :=
  match List.find (unlisted (list_to_set indices)) (nvlink_edges indices links) with
  | Some e => answer = Err (missing e.1)
  | None =>
      exists components, answer = Ok components /\
        (forall c, c ∈ components -> c <> []) /\
        (forall x y, (exists c, c ∈ components /\ x ∈ c /\ y ∈ c) <->
           (x ∈ indices) /\ (y ∈ indices) /\ linked (nvlink_edges indices links) x y)
  end.

Lemma nvlink_components_correct indices links : components_spec indices links (_nvlink_components indices links).
Proof.
  destruct (initial_forest_ok indices) as [Hok0 Hc0]. unfold _nvlink_components, components_spec.
  pose proof (links_total (list_to_set indices) (initial_forest indices) links [] Hok0 Hc0) as H.
  fold (nvlink_edges indices links) in H. destruct (List.find _ _) as [e|]; [by rewrite H|].
  destruct H as (p & -> & Hok & Hc).
  rewrite bind_Ok. simpl in Hc.
  destruct (groups_total (list_to_set indices) p [] [] indices Hok) as (p' & groups & -> & Hc' & Hg).
  { intros i Hi. by apply elem_of_list_to_set. }
  { split; simpl; [constructor|..]; try (intros; by apply not_elem_of_nil in H);
      intros; by apply not_elem_of_nil in H. }
  rewrite bind_Ok. cbv iota. destruct Hg as [_ _ Hne Hcl Hcov]. simpl in *.
  assert (forall c, c ∈ merge_sort zlist_le (map (merge_sort Z.le) groups.*2) <->
    exists root g, (root, g) ∈ groups /\ c = merge_sort Z.le g) as Hin.
  { intros c. rewrite merge_sort_Permutation, list_elem_of_fmap. setoid_rewrite list_elem_of_fmap.
    split.
    - intros (g & -> & [root g'] & -> & H). eauto.
    - intros (root & g & H & ->). exists g. split; [done|]. by exists (root, g). }
  eexists. split; [done|]. split.
  - intros c (root & g & H & ->)%Hin Hnil. apply (Hne _ _ H).
    apply Permutation_nil. rewrite <-Hnil. by rewrite merge_sort_Permutation.
  - intros x y. split.
    + intros (c & (root & g & H & ->)%Hin & Hx & Hy). rewrite merge_sort_Permutation in Hx, Hy.
      apply (Hcl _ _ _ H) in Hx as [Hx Hxr], Hy as [Hy Hyr]. split_and!; [done..|].
      apply Hc, Hc'. etransitivity; [done|by symmetry].
    + intros (Hx & Hy & Hxy). destruct (Hcov x Hx) as (root & g & H & Hxg).
      exists (merge_sort Z.le g). split; [apply Hin; eauto|]. rewrite !merge_sort_Permutation.
      split; [done|]. apply (Hcl _ _ _ H). split; [done|].
      apply (Hcl _ _ _ H) in Hxg as [_ Hxr]. etransitivity; [|exact Hxr].
      symmetry. by apply Hc', Hc.
Qed.

(** C40: The union-find terminates.  If each NVLink edge starts at a known device it returns
    the connectivity classes: two devices share a component exactly when a chain of edges
    joins them, and no component is empty.  Otherwise it raises the KeyError of the first
    unknown device with an edge. *)
Theorem nvlink_components_spec indices links :
  match List.find (unlisted (list_to_set indices)) (nvlink_edges indices links) with
  | Some e => _nvlink_components indices links = Err (missing e.1)
  | None =>
      exists components, _nvlink_components indices links = Ok components /\
        (forall c, c ∈ components -> c <> []) /\
        (forall x y, (exists c, c ∈ components /\ x ∈ c /\ y ∈ c) <->
           (x ∈ indices) /\ (y ∈ indices) /\ linked (nvlink_edges indices links) x y)
  end.
Proof. apply nvlink_components_correct. Qed.

(** Rows of known devices only. *)
Lemma nvlink_components_listed indices links :
  (forall kv, kv ∈ links -> kv.1 ∈ indices) ->
  exists components, _nvlink_components indices links = Ok components /\
    (forall x y, (exists c, c ∈ components /\ x ∈ c /\ y ∈ c) <->
       (x ∈ indices) /\ (y ∈ indices) /\ linked (nvlink_edges indices links) x y).
Proof.
  intros Hl. pose proof (nvlink_components_correct indices links) as H. unfold components_spec in H.
  destruct (List.find _ _) as [e|] eqn:E; [|destruct H as (components & H1 & _ & H2); eauto]. exfalso.
  apply List.find_some in E as [He%list_elem_of_In Hu]. unfold nvlink_edges in He.
  apply list_elem_of_In, in_flat_map in He as (kv & Hkv%list_elem_of_In & He%list_elem_of_In).
  apply list_elem_of_fmap in He as (r & -> & _). unfold unlisted in Hu. apply negb_true_iff, bool_decide_eq_false in Hu.
  by apply Hu, elem_of_list_to_set, Hl.
Qed.

Lemma same_elements_spec l k : same_elements l k = true <-> forall x, x ∈ l <-> x ∈ k.
Proof.
  unfold same_elements. rewrite bool_decide_eq_true, set_eq. by setoid_rewrite elem_of_list_to_set.
Qed.

(** Classifying a host never raises; it reports x_mode only for a complete
    matrix of four devices any two of which NVLink connects, and normal only for
    four devices. *)
Theorem classify_total_and_sound runner :
  exists t, classify_local_worker_host_topology runner = Ok t /\
    (mode t = "normal" \/ mode t = "x_mode" -> gpu_count t = Some 4) /\
    (mode t = "x_mode" -> exists topology indices links numa,
       runner ["nvidia-smi"; "topo"; "-m"] = Some topology /\
       _parse_topology_matrix topology = (indices, links, numa, true) /\
       length indices = 4%nat /\
       forall x y, x ∈ indices -> y ∈ indices -> linked (nvlink_edges indices links) x y).
Proof.
  unfold classify_local_worker_host_topology.
  destruct (runner _) as [topology|]; [|eexists; split; [done|]; naive_solver].
  destruct (_parse_topology_matrix topology) as [[[indices links] numa] complete] eqn:Hp.
  destruct complete; simpl; [|eexists; split; [done|]; naive_solver].
  assert (forall kv, kv ∈ links -> kv.1 ∈ indices) as Hl.
  { unfold _parse_topology_matrix in Hp. injection Hp as <- <- _ Hc.
    rewrite !andb_true_iff in Hc. destruct Hc as [[_ Hs] _]. rewrite same_elements_spec in Hs.
    intros kv Hkv. apply Hs, list_elem_of_fmap. by exists kv. }
  destruct (nvlink_components_listed indices links Hl) as (comps & -> & Hspec). rewrite bind_Ok.
  eexists. split; [done|]. destruct (Z.eqb_spec (Z.of_nat (length indices)) 4) as [Hn|]; simpl;
    [|naive_solver].
  case_bool_decide; simpl; [naive_solver|]. case_bool_decide as H4; simpl; [|naive_solver].
  split; [done|]. intros _. exists topology, indices, links, numa. split_and!; [done..|lia|].
  intros x y Hx Hy.
  assert (length (map length comps) = 1%nat) as Hone.
  { by rewrite <-(Permutation_length (merge_sort_Permutation Nat.le _)), H4. }
  rewrite length_map in Hone. destruct comps as [|c [|]]; try done.
  assert (forall z, z ∈ indices -> z ∈ c) as Hall.
  { intros z Hz. destruct (proj2 (Hspec z z)) as (c' & ->%list_elem_of_singleton & ? & _); [|done].
    split_and!; [done..|reflexivity]. }
  apply (proj1 (Hspec x y)). exists c. split; [left|auto].
Qed.

Example csv_rows_ex :
  csv_rows ("0, U,B" +:+ chr 10 +:+ chr 34 +:+ "a,b" +:+ chr 34 +:+ chr 34 +:+ chr 34 +:+ ",c")
  = Ok [["0"; " U"; "B"]; ["a,b" +:+ chr 34; "c"]].
Proof. reflexivity. Qed.

(** ** discover_gpu_topology *)

Record gpu := {
  gp_uuid : string;
  gp_pci_bus_id : string;
  gp_generation : string;
  gp_width : string;
  gp_memory_free : string;
  gp_utilization : string
}.

Definition query_fields : list string :=
  ["index"; "uuid"; "pci.bus_id"; "pcie.link.gen.current"; "pcie.link.width.current";
   "memory.free"; "utilization.gpu"].

Fixpoint joined (sep : string) (l : list string) : string :=
  match l with
  | [] => ""
  | [s] => s
  | s :: l => s +:+ sep +:+ joined sep l
  end.

Definition inventory_query (fields : list string) : list string :=
  ["nvidia-smi"; "--query-gpu=" +:+ joined "," fields; "--format=csv,noheader,nounits"].

(** "values[n] if len(values) > n and values[n] else 'unknown'". *)
Definition or_unknown (values : list string) (n : nat) : string :=
  match values !! n with
  | Some v => if String.eqb v "" then "unknown" else v
  | None => "unknown"
  end.

Definition read_device (devices : list (Z * gpu)) (row : list string) : result (list (Z * gpu)) :=
  match row with
  | c0 :: c1 :: c2 :: _ =>
      match int_of_str (strip c0) with
      | Some index =>
          let values := map strip row in
          Ok (dict_set index
                {| gp_uuid := strip c1; gp_pci_bus_id := strip c2;
                   gp_generation := or_unknown values 3; gp_width := or_unknown values 4;
                   gp_memory_free := or_unknown values 5; gp_utilization := or_unknown values 6 |}
                devices)
      | None => Err (ValueError "invalid literal for int()")
      end
  | _ => Ok devices
  end.

Definition index_le (a b : Z * gpu) : Prop := a.1 <= b.1.
#[export] Instance index_le_dec : RelDecision index_le.
Proof. intros a b. unfold index_le. apply _. Defined.

(** "{index: component for component in components for index in component}". *)
Definition group_for (components : list (list Z)) (index : Z) : list Z :=
  default [index] (last (List.filter (fun c => bool_decide (index ∈ c)) components)).

Definition gpu_resource (components : list (list Z)) (numa : list (Z * string)) (kv : Z * gpu)
    : resource_row :=
  let '(index, device) := kv in
  let domain := hd "" (split_on (Ascii.ascii_of_nat 58) (gp_pci_bus_id device)) in
  let numa_node := default "unknown" (dict_get index numa) in
  let island := joined "-" (map pretty (group_for components index)) in
  {| rr_id := "accelerator:" +:+ gp_uuid device;
     rr_kind := "accelerator";
     rr_tags := [("index", pretty index); ("uuid", gp_uuid device);
                 ("pci_bus_id", gp_pci_bus_id device); ("numa_node", numa_node);
                 ("pcie_root", domain +:+ ":numa:" +:+ numa_node);
                 ("nvlink_domain", "runtime:" +:+ island);
                 ("pcie_generation_current", gp_generation device);
                 ("pcie_link_width_current", gp_width device);
                 ("memory_free_mib", gp_memory_free device);
                 ("utilization_percent", gp_utilization device)];
     rr_enabled := true; rr_updated_at := 0 |}.

Definition discover_gpu_topology (runner : runner_fn) : result (list resource_row) :=
  let run argv := match runner argv with Some out => Ok out | None => Err (OSError "nvidia-smi") end in
  inventory ← match runner (inventory_query query_fields) with
              | Some out => Ok out
              | None => run (inventory_query (take 3 query_fields))
              end;
  topology ← run ["nvidia-smi"; "topo"; "-m"];
  rows ← csv_rows inventory;
  devices ← foldM read_device [] rows;
  let '(_, links, numa, _) := _parse_topology_matrix topology in
  components ← _nvlink_components (merge_sort Z.le devices.*1) links;
  Ok (map (gpu_resource components numa) (merge_sort index_le devices)).

Lemma read_device_keys devices row devices' :
  NoDup devices.*1 -> read_device devices row = Ok devices' -> NoDup devices'.*1.
Proof.
  intros Hd. unfold read_device. repeat case_match; intros; simplify_eq; try done.
  by apply dict_set_NoDup.
Qed.


(** Every discovered device is one resource: ids are made of the uuids the
    inventory lists, in index order, every resource is an enabled accelerator. *)
Theorem discover_resources runner resources :
  discover_gpu_topology runner = Ok resources ->
  exists devices : list (Z * gpu),
    NoDup devices.*1 /\ Sorted index_le devices /\
    map rr_id resources = map (fun kv => "accelerator:" +:+ gp_uuid kv.2) devices /\
    Forall (fun r => rr_kind r = "accelerator" /\ rr_enabled r = true) resources.
Proof.
  unfold discover_gpu_topology. intros H. cbv zeta in H.
  apply result_bind_ok in H as (inventory & _ & H). apply result_bind_ok in H as (topology & _ & H).
  apply result_bind_ok in H as (rows & _ & H). apply result_bind_ok in H as (devices & Hd & H).
  destruct (_parse_topology_matrix topology) as [[[? links] numa] ?].
  apply result_bind_ok in H as (components & _ & H). apply Ok_inj in H as <-.
  assert (NoDup devices.*1) as Hnd.
  { eapply (foldM_invariant (fun d => NoDup d.*1)); [| |exact Hd].
    - intros d row d' _. apply read_device_keys.
    - constructor. }
  exists (merge_sort index_le devices). split_and!.
  - by rewrite merge_sort_Permutation.
  - apply Sorted_merge_sort. intros x y. unfold index_le. lia.
  - rewrite map_map. apply map_ext. by intros [].
  - apply Forall_map, Forall_forall. by intros [].
Qed.

(** The outputs of nvidia-smi on a host whose matrix names a device that the
    inventory does not list. *)
Definition tab : string := chr 9.
Definition ghost_matrix : string :=
  joined (chr 10)
    [tab +:+ "GPU0" +:+ tab +:+ "GPU1"; "GPU0" +:+ tab +:+ "X" +:+ tab +:+ "PIX";
     "GPU1" +:+ tab +:+ "NV2" +:+ tab +:+ "X"].
Definition ghost_runner (argv : list string) : option string :=
  match argv with
  | ["nvidia-smi"; "topo"; "-m"] => Some ghost_matrix
  | _ => Some "0, U0, 0000:01:00.0"
  end.

(** Discovery checks only the right end of an NVLink edge against the
    inventory: a matrix row of an unlisted device makes it raise KeyError. *)
Theorem discover_unlisted_left_raises :
  discover_gpu_topology ghost_runner = Err (KeyError "1").
Proof. vm_compute. reflexivity. Qed.
