(* ===== verification/HostCoordinator.v ===== *)
(** * The host resource coordinator (host_resources/coordinator.py)

    Every method of [HostCoordinator] that reads or writes the registry, as a
    function of what the process observes ([env]: clock, pids, capacity, random
    values) and of the database.  A [tx] is the body of one BEGIN IMMEDIATE
    transaction; [run] commits its result and rolls back on an exception, which
    is what the commit/rollback/close sequences of the code amount to. *)

From Stdlib Require Import ZArith QArith.
From S2P Require Import Prelude PyValue Text Contracts HostPolicy HostStore.

#[local] Open Scope string_scope.
#[local] Open Scope Z_scope.
#[local] Open Scope list_scope.

(** ** Environment *)

Record env := {
  en_now : Z;
  en_pid : Z;
  en_procs : Process.proc_table;
  en_probe : Capacity.probe;
  en_boot_id : string;
  en_sha256 : string -> string;
  en_uuid : string;
  en_intent_uuid : string;
  en_token : string
}.

(** One second of the clock. *)
Definition second : Z := 1000000.

(** ** Row updates the statements perform *)

Definition ow_touch (now : Z) (o : owner_row) : owner_row :=
  {| ow_id := ow_id o; ow_kind := ow_kind o; ow_project_root := ow_project_root o;
     ow_job_id := ow_job_id o; ow_attempt_id := ow_attempt_id o; ow_service_id := ow_service_id o;
     ow_pid := ow_pid o; ow_process_start := ow_process_start o; ow_state := ow_state o;
     ow_preempt_requested := ow_preempt_requested o; ow_priority_class := ow_priority_class o;
     ow_preemptible := ow_preemptible o; ow_protected := ow_protected o;
     ow_metadata := ow_metadata o; ow_release_verified := ow_release_verified o;
     ow_cpu_threads := ow_cpu_threads o; ow_ram_bytes := ow_ram_bytes o;
     ow_acquired_at := ow_acquired_at o; ow_heartbeat_at := now |}.

Definition ow_set_state (s : owner_state) (o : owner_row) : owner_row :=
  {| ow_id := ow_id o; ow_kind := ow_kind o; ow_project_root := ow_project_root o;
     ow_job_id := ow_job_id o; ow_attempt_id := ow_attempt_id o; ow_service_id := ow_service_id o;
     ow_pid := ow_pid o; ow_process_start := ow_process_start o; ow_state := s;
     ow_preempt_requested := ow_preempt_requested o; ow_priority_class := ow_priority_class o;
     ow_preemptible := ow_preemptible o; ow_protected := ow_protected o;
     ow_metadata := ow_metadata o; ow_release_verified := ow_release_verified o;
     ow_cpu_threads := ow_cpu_threads o; ow_ram_bytes := ow_ram_bytes o;
     ow_acquired_at := ow_acquired_at o; ow_heartbeat_at := ow_heartbeat_at o |}.

Definition ow_set_preempt (o : owner_row) : owner_row :=
  {| ow_id := ow_id o; ow_kind := ow_kind o; ow_project_root := ow_project_root o;
     ow_job_id := ow_job_id o; ow_attempt_id := ow_attempt_id o; ow_service_id := ow_service_id o;
     ow_pid := ow_pid o; ow_process_start := ow_process_start o; ow_state := ow_state o;
     ow_preempt_requested := true; ow_priority_class := ow_priority_class o;
     ow_preemptible := ow_preemptible o; ow_protected := ow_protected o;
     ow_metadata := ow_metadata o; ow_release_verified := ow_release_verified o;
     ow_cpu_threads := ow_cpu_threads o; ow_ram_bytes := ow_ram_bytes o;
     ow_acquired_at := ow_acquired_at o; ow_heartbeat_at := ow_heartbeat_at o |}.

Definition ow_set_priority (c : string) (o : owner_row) : owner_row :=
  {| ow_id := ow_id o; ow_kind := ow_kind o; ow_project_root := ow_project_root o;
     ow_job_id := ow_job_id o; ow_attempt_id := ow_attempt_id o; ow_service_id := ow_service_id o;
     ow_pid := ow_pid o; ow_process_start := ow_process_start o; ow_state := ow_state o;
     ow_preempt_requested := ow_preempt_requested o; ow_priority_class := c;
     ow_preemptible := ow_preemptible o; ow_protected := ow_protected o;
     ow_metadata := ow_metadata o; ow_release_verified := ow_release_verified o;
     ow_cpu_threads := ow_cpu_threads o; ow_ram_bytes := ow_ram_bytes o;
     ow_acquired_at := ow_acquired_at o; ow_heartbeat_at := ow_heartbeat_at o |}.

Definition ow_set_process (pid : option Z) (start : option string) (o : owner_row) : owner_row :=
  {| ow_id := ow_id o; ow_kind := ow_kind o; ow_project_root := ow_project_root o;
     ow_job_id := ow_job_id o; ow_attempt_id := ow_attempt_id o; ow_service_id := ow_service_id o;
     ow_pid := pid; ow_process_start := start; ow_state := ow_state o;
     ow_preempt_requested := ow_preempt_requested o; ow_priority_class := ow_priority_class o;
     ow_preemptible := ow_preemptible o; ow_protected := ow_protected o;
     ow_metadata := ow_metadata o; ow_release_verified := ow_release_verified o;
     ow_cpu_threads := ow_cpu_threads o; ow_ram_bytes := ow_ram_bytes o;
     ow_acquired_at := ow_acquired_at o; ow_heartbeat_at := ow_heartbeat_at o |}.

Definition ow_set_residency (protected : bool) (m : option residency) (verified : bool)
    (o : owner_row) : owner_row :=
  {| ow_id := ow_id o; ow_kind := ow_kind o; ow_project_root := ow_project_root o;
     ow_job_id := ow_job_id o; ow_attempt_id := ow_attempt_id o; ow_service_id := ow_service_id o;
     ow_pid := ow_pid o; ow_process_start := ow_process_start o; ow_state := ow_state o;
     ow_preempt_requested := ow_preempt_requested o; ow_priority_class := ow_priority_class o;
     ow_preemptible := ow_preemptible o; ow_protected := protected;
     ow_metadata := m; ow_release_verified := verified;
     ow_cpu_threads := ow_cpu_threads o; ow_ram_bytes := ow_ram_bytes o;
     ow_acquired_at := ow_acquired_at o; ow_heartbeat_at := ow_heartbeat_at o |}.

Definition rv_set (s : held_state) (now : Z) (r : reservation_row) : reservation_row :=
  {| rv_resource_id := rv_resource_id r; rv_owner_id := rv_owner_id r; rv_state := s;
     rv_acquired_at := rv_acquired_at r; rv_heartbeat_at := now |}.

Definition in_release (now : Z) (i : intent_row) : intent_row :=
  {| in_id := in_id i; in_owner_id := in_owner_id i; in_resources := in_resources i;
     in_cpu_threads := in_cpu_threads i; in_ram_bytes := in_ram_bytes i;
     in_state := HeldReleased; in_created_at := in_created_at i; in_heartbeat_at := now |}.

Definition id_is (id : string) (o : owner_row) : bool := String.eqb (ow_id o) id.

(** ** String helpers *)

(** SQLite's "x LIKE 'prefix%'" is case-insensitive on ASCII letters. *)
Definition like_prefix (p s : string) : bool := String.prefix p (lower s).

(** ** Transactions *)

Abbreviation tx A := (db -> result (A * db)).

(** [run]: commit on a result, roll back on an exception. *)
Definition run {A} (m : tx A) (d : db) : result A * db :=
  match m d with Ok (a, d') => (Ok a, d') | Err x => (Err x, d) end.

(** "except sqlite3.IntegrityError: rollback; return dflt". *)
Definition run_or {A} (dflt : A) (m : tx A) (d : db) : result A * db :=
  match m d with
  | Ok (a, d') => (Ok a, d')
  | Err IntegrityError => (Ok dflt, d)
  | Err x => (Err x, d)
  end.

(** ** Inventory: upsert_resources and replace_resources *)

Definition upsert_resources (e : env) (items : list resource_row) (d : db) : result unit * db :=
  run (fun d => Ok (tt, foldl (fun d item =>
         upsert_resource {| rr_id := rr_id item; rr_kind := rr_kind item; rr_tags := rr_tags item;
                            rr_enabled := rr_enabled item; rr_updated_at := en_now e |} d)
         d items)) d.

Definition retire_kind (e : env) (kind : string) (r : resource_row) : resource_row :=
  if String.eqb (rr_kind r) kind
  then {| rr_id := rr_id r; rr_kind := rr_kind r; rr_tags := rr_tags r;
          rr_enabled := false; rr_updated_at := en_now e |}
  else r.

Definition replace_resources (e : env) (kind : string) (items : list resource_row) (d : db)
    : result unit * db :=
  run (fun d =>
    d' ← foldM (fun d item =>
           if String.eqb (rr_kind item) kind
           then Ok (upsert_resource {| rr_id := rr_id item; rr_kind := kind; rr_tags := rr_tags item;
                                       rr_enabled := rr_enabled item; rr_updated_at := en_now e |} d)
           else Err (ValueError "replacement resources must share one kind"))
         (set_resources (map (retire_kind e kind) (resources d)) d) items;
    Ok (tt, d')) d.

(** ** Releasing and sweeping *)

Definition _release_locked (e : env) (id : string) (s : owner_state) (d : db) : db :=
  let now := en_now e in
  let d := update_reservations
             (fun r => String.eqb (rv_owner_id r) id && is_held (rv_state r))
             (rv_set HeldReleased now) d in
  let d := update_owners (id_is id) (fun o => ow_touch now (ow_set_state s o)) d in
  update_intents (fun i => String.eqb (in_owner_id i) id && is_held (in_state i))
    (in_release now) d.

Definition sweep_victim (e : env) (cutoff : Z) (o : owner_row) : bool :=
  is_live (ow_state o) && (ow_heartbeat_at o <? cutoff) && negb (ow_protected o) &&
  negb (Process.alive (en_procs e) (ow_pid o) (ow_process_start o)).

Definition _sweep_locked (e : env) (stale : Z) (d : db) : db :=
  let cutoff := en_now e - stale in
  let victims := List.filter (sweep_victim e cutoff) (owners d) in
  let d := foldl (fun d o => _release_locked e (ow_id o) OwStale d) d victims in
  let gone id := existsb (fun o => id_is id o && negb (is_live (ow_state o))) (owners d) in
  update_intents (fun i => is_held (in_state i) && gone (in_owner_id i)) (in_release (en_now e)) d.

Definition live_count (d : db) : Z :=
  Z.of_nat (length (List.filter (fun o => is_live (ow_state o)) (owners d))).

Definition sweep_stale (e : env) (stale : Z) (d : db) : result Z * db :=
  run (fun d => let d' := _sweep_locked e stale d in Ok (live_count d - live_count d', d')) d.

Definition default_stale : Z := 30 * second.

(** ** Selection *)

Definition tag (k : string) (r : resource_row) : option string := dict_get k (rr_tags r).

(** "str(json.loads(tags_json).get(key)) == value". *)
Definition tags_match (tags : list (string * string)) (r : resource_row) : bool :=
  forallb (fun kv => String.eqb (default "None" (tag kv.1 r)) kv.2) tags.

Definition resource_le (r r' : resource_row) : Prop := String.le (rr_id r) (rr_id r').
#[export] Instance resource_le_dec : RelDecision resource_le.
Proof. intros r r'. unfold resource_le. apply _. Defined.

(** "SELECT * FROM host_resources WHERE enabled=1 AND kind=? ORDER BY id", then
    the tag filter. *)
Definition eligible (d : db) (rq : request) : list resource_row :=
  List.filter (tags_match (rq_tags rq))
    (merge_sort resource_le
      (List.filter (fun r => rr_enabled r && String.eqb (rr_kind r) (rq_kind rq)) (resources d))).

(** "tags.get(name)" when truthy, under its interference namespace. *)
Definition interference (ns name : string) (r : resource_row) : list string :=
  match tag name r with
  | Some v => if String.eqb v "" then [] else ["interference:" +:+ ns +:+ ":" +:+ v]
  | None => []
  end.

Definition _extra_ids (rq : request) (selected : list resource_row) : list string :=
  sorted_set (rq_exclusive rq ++
    (if rq_isolate_pcie_root rq then flat_map (interference "pcie" "pcie_root") selected else []) ++
    (if rq_isolate_nvlink_domain rq then flat_map (interference "nvlink" "nvlink_domain") selected
     else [])).

Definition held_ids (d : db) : list string :=
  map rv_resource_id (List.filter (fun r => is_held (rv_state r)) (reservations d)).

Definition intent_ids (d : db) : list string :=
  flat_map in_resources (List.filter (fun i => is_held (in_state i)) (intents d)).

Definition _active_resource_ids (d : db) : list string := held_ids d ++ intent_ids d.

Definition _cpu_threads (e : env) (rq : request) : Z :=
  if rq_cpu_threads rq =? 0
  then (if rq_cpu_heavy rq then Capacity.cpu_limit (en_probe e) else 0)
  else rq_cpu_threads rq.

(** "SELECT COALESCE(SUM(c),0) FROM host_owners WHERE state IN (...)". *)
Definition owner_sum (live : owner_state -> bool) (c : owner_row -> Z) (d : db) : Z :=
  sumZ c (List.filter (fun o => live (ow_state o)) (owners d)).

Definition _pressure_available (e : env) (d : db) (rq : request) : bool :=
  (owner_sum is_live ow_cpu_threads d + _cpu_threads e rq <=? Capacity.cpu_limit (en_probe e)) &&
  (owner_sum is_live ow_ram_bytes d + rq_ram_bytes rq <=? Capacity.ram_limit (en_probe e)).

(** The combinations of rows to try, in the order the code tries them. *)
Definition choices (d : db) (rq : request) : list (list resource_row) :=
  let rows := eligible d rq in
  match rq_ids rq with
  | [] => if rq_count rq =? 0 then [[]] else combinations (Z.to_nat (rq_count rq)) rows
  | ids =>
      let selected := List.filter (fun r => bool_decide (rr_id r ∈ ids)) rows in
      if (length selected =? length ids)%nat then [selected] else []
  end.

Definition expand (rq : request) (c : list resource_row) : list string :=
  sorted_set (map rr_id c ++ _extra_ids rq c).

Definition disjoint (l k : list string) : bool := forallb (fun x => negb (bool_decide (x ∈ k))) l.

Definition _select_locked (e : env) (rq : request) (d : db) : option (list string) :=
  if _pressure_available e d rq
  then List.find (fun ids => disjoint ids (_active_resource_ids d)) (map (expand rq) (choices d rq))
  else None.

Definition _candidate_resources_locked (d : db) (rq : request) : list (list string) :=
  map (expand rq) (choices d rq).

(** ** Preemption *)

(** Active owners holding an active reservation on one of [ids]. *)
Definition _conflicting_owners_locked (d : db) (ids : list string) : list owner_row :=
  List.filter (fun o => is_active (ow_state o) &&
    existsb (fun r => String.eqb (rv_owner_id r) (ow_id o) && is_held (rv_state r) &&
                      bool_decide (rv_resource_id r ∈ ids)) (reservations d))
    (owners d).

Definition row_priority (o : owner_row) : result Z :=
  Policy.priority_value (Policy.PName (ow_priority_class o)).

(** "all(bool(row.preemptible) and priority(row) < requester for row in owners)",
    stopping at the first row that fails. *)
Fixpoint all_lower (requester : Z) (l : list owner_row) : result bool :=
  match l with
  | [] => Ok true
  | o :: l =>
      if ow_preemptible o
      then v ← row_priority o; if v <? requester then all_lower requester l else Ok false
      else Ok false
  end.

Record candidate := {
  cd_count : Z; cd_cost : Z; cd_resources : list string; cd_owners : list owner_row
}.

Definition candidate_lt (a b : candidate) : bool :=
  (cd_count a <? cd_count b) ||
  ((cd_count a =? cd_count b) &&
   ((cd_cost a <? cd_cost b) ||
    ((cd_cost a =? cd_cost b) && strs_lt (cd_resources a) (cd_resources b)))).

(** "min(candidates, key=...)": the first minimal element. *)
Definition min_candidate (c : candidate) (l : list candidate) : candidate :=
  foldl (fun best x => if candidate_lt x best then x else best) c l.

Fixpoint viable_candidates (d : db) (requester : Z) (l : list (list string))
    : result (list candidate) :=
  match l with
  | [] => Ok []
  | ids :: l =>
      let os := _conflicting_owners_locked d ids in
      ok ← match os with [] => Ok false | _ => all_lower requester os end;
      this ← (if ok : bool
              then costs ← mapM_result row_priority os;
                   Ok [{| cd_count := Z.of_nat (length os); cd_cost := sumZ (fun z => z) costs;
                          cd_resources := ids; cd_owners := os |}]
              else Ok []);
      rest ← viable_candidates d requester l;
      Ok (this ++ rest)
  end.

Definition signal (e : env) (d : db) (o : owner_row) : db :=
  update_owners (id_is (ow_id o)) (fun o => ow_touch (en_now e) (ow_set_preempt o)) d.

Definition _request_preemption_locked (e : env) (rq : request) (cls : string) : tx (list string) :=
  fun d =>
    requester ← Policy.priority_value (Policy.PName cls);
    cands ← viable_candidates d requester (_candidate_resources_locked d rq);
    match cands with
    | [] => Ok ([], d)
    | c :: l => let m := min_candidate c l in
                Ok (cd_resources m, foldl (signal e) d (cd_owners m))
    end.

(** ** Reservation *)

Definition new_reservation (e : env) (owner_id resource_id : string) : reservation_row :=
  {| rv_resource_id := resource_id; rv_owner_id := owner_id; rv_state := HeldActive;
     rv_acquired_at := en_now e; rv_heartbeat_at := en_now e |}.

Definition insert_all (e : env) (owner_id : string) (ids : list string) (d : db) : result db :=
  foldM (fun d id => insert_reservation (new_reservation e owner_id id) d) d ids.

(** The INSERT's row; columns it does not list take their defaults. *)
Definition new_owner (e : env) (id kind : string) (root : option string)
    (job attempt service : option string) (pid : Z) (s : owner_state) (cls : string)
    (preemptible : bool) (cpu ram : Z) : owner_row :=
  {| ow_id := id; ow_kind := kind; ow_project_root := root; ow_job_id := job;
     ow_attempt_id := attempt; ow_service_id := service; ow_pid := Some pid;
     ow_process_start := Process.pt_start (en_procs e) pid; ow_state := s;
     ow_preempt_requested := false; ow_priority_class := cls; ow_preemptible := preemptible;
     ow_protected := false; ow_metadata := None; ow_release_verified := false;
     ow_cpu_threads := cpu; ow_ram_bytes := ram;
     ow_acquired_at := en_now e; ow_heartbeat_at := en_now e |}.

Definition is_accelerator (id : string) : bool := String.prefix "accelerator:" id.

(** [_reserve_locked]; the path argument is the resolved project root. *)
Definition _reserve_locked (e : env) (owner_id kind root : string) (rq : request) (pid : Z)
    (cls : Policy.priority_arg) (job attempt service : option string)
    : tx (option (string * list string)) :=
  fun d =>
    name ← Policy.normalize_priority_class cls;
    match _select_locked e rq d with
    | None =>
        '(_, d') ← _request_preemption_locked e rq name d;
        Ok (None, d')
    | Some ids =>
        d1 ← insert_owner (new_owner e owner_id kind (Some root) job attempt service pid
                             OwActive name true (_cpu_threads e rq) (rq_ram_bytes rq)) d;
        d2 ← insert_all e owner_id ids d1;
        Ok (Some (owner_id, List.filter is_accelerator ids), d2)
    end.

(** "digest(str(root))[:16]": the hash of the JSON encoding of the path, which is
    the path between double quotes when no character of it needs an escape. *)
Definition dquote : string := String (Ascii.ascii_of_nat 34) EmptyString.

Definition root_digest (e : env) (root : string) : string :=
  String.substring 0 16 (en_sha256 e (dquote +:+ root +:+ dquote)).

Definition background_owner_id (e : env) (root job attempt : string) : string :=
  "background:" +:+ root_digest e root +:+ ":" +:+ job +:+ ":" +:+ attempt.

Definition reserve_background (e : env) (root job attempt : string) (rq : request) (pid : Z)
    (d : db) : result (option (string * list string)) * db :=
  run_or None (fun d =>
    _reserve_locked e (background_owner_id e root job attempt) "background" root rq pid
      (Policy.PName "background_cuda") (Some job) (Some attempt) None
      (_sweep_locked e default_stale d)) d.

Definition service_owner_id (e : env) (root service : string) : string :=
  "service:" +:+ root_digest e root +:+ ":" +:+ service +:+ ":" +:+ en_uuid e.

Definition reserve_service (e : env) (root service : string) (rq : request) (pid : Z)
    (cls : Policy.priority_arg) (d : db) : result (option (string * list string)) * db :=
  run_or None (fun d =>
    _reserve_locked e (service_owner_id e root service) "service" root rq pid cls
      None None (Some service) (_sweep_locked e default_stale d)) d.

(** ** Owner state: set_priority, request_preemption, heartbeat *)

Definition set_priority (e : env) (id : string) (cls : Policy.priority_arg) (d : db)
    : result bool * db :=
  match Policy.normalize_priority_class cls with
  | Err x => (Err x, d)
  | Ok name =>
      run (fun d =>
        match owner_by_id d id with
        | None => Ok (false, d)
        | Some o =>
            if negb (is_active (ow_state o)) || ow_preempt_requested o then Ok (false, d)
            else Ok (true, update_owners (id_is id)
                             (fun o => ow_touch (en_now e) (ow_set_priority name o)) d)
        end) d
  end.

Definition request_preemption (e : env) (id : string) (d : db) : result bool * db :=
  run (fun d =>
    let w o := id_is id o && is_active (ow_state o) && ow_preemptible o in
    let f o := ow_touch (en_now e) (ow_set_preempt o) in
    let changed := update_count w f Guard.owner_update (owners d) in
    Ok (negb (changed =? 0)%nat, update_owners w f d)) d.

Definition coalesce {A} (a b : option A) : option A := match a with Some _ => a | None => b end.

(** "if pid" is false for 0: the start time is only looked up for a real pid. *)
Definition heartbeat (e : env) (id : string) (pid : option Z) (d : db) : result unit * db :=
  run (fun d =>
    let start := match pid with
                 | Some p => if p =? 0 then None else Process.pt_start (en_procs e) p
                 | None => None
                 end in
    let d1 := update_owners (id_is id)
      (fun o => ow_set_process (coalesce pid (ow_pid o)) (coalesce start (ow_process_start o))
                  (ow_touch (en_now e) o)) d in
    let d2 := update_reservations
      (fun r => String.eqb (rv_owner_id r) id && is_held (rv_state r))
      (fun r => rv_set (rv_state r) (en_now e) r) d1 in
    Ok (tt, d2)) d.

(** ** Reads *)

Definition row_resources (d : db) (id : string) : list string :=
  merge_sort String.le
    (map rv_resource_id
      (List.filter (fun r => String.eqb (rv_owner_id r) id && is_held (rv_state r))
        (reservations d))).

Definition owner (d : db) (id : string) : option (owner_row * list string) :=
  o ← owner_by_id d id; Some (o, row_resources d id).

Definition acquired_le (o o' : owner_row) : Prop :=
  ow_acquired_at o < ow_acquired_at o' \/
  (ow_acquired_at o = ow_acquired_at o' /\ String.le (ow_id o) (ow_id o')).
#[export] Instance acquired_le_dec : RelDecision acquired_le.
Proof. intros o o'. unfold acquired_le. apply _. Defined.

Definition owners_for_attempt (d : db) (root attempt : string) : list (owner_row * list string) :=
  map (fun o => (o, row_resources d (ow_id o)))
    (merge_sort acquired_le
      (List.filter (fun o => bool_decide (ow_project_root o = Some root) &&
                             bool_decide (ow_attempt_id o = Some attempt)) (owners d))).

Definition release_observation_counts (d : db) : Z * Z * Z :=
  (live_count d, Z.of_nat (length (held_ids d)),
   Z.of_nat (length (List.filter (fun i => is_held (in_state i)) (intents d)))).

Definition owner_activity (d : db) (ids : list string) : Z * Z :=
  (Z.of_nat (length (List.filter
     (fun o => bool_decide (ow_id o ∈ ids) && is_active (ow_state o)) (owners d))),
   Z.of_nat (length (List.filter
     (fun r => bool_decide (rv_owner_id r ∈ ids) && is_held (rv_state r)) (reservations d)))).

Definition conflicts (d : db) (ids : list string) : list string :=
  remove_dups (map rv_owner_id (List.filter
    (fun r => is_held (rv_state r) && bool_decide (rv_resource_id r ∈ ids) &&
              existsb (fun o => id_is (rv_owner_id r) o && is_active (ow_state o)) (owners d))
    (reservations d))).

Definition preempt_requested (d : db) (id : string) : bool :=
  existsb (fun o => id_is id o && is_active (ow_state o) && ow_preempt_requested o) (owners d).

(** ** Foreground hand-off *)

Definition held_by (d : db) (id : string) : list string :=
  map rv_resource_id
    (List.filter (fun r => String.eqb (rv_owner_id r) id && is_held (rv_state r)) (reservations d)).

(** One step of the loop over active owners in [begin_foreground]. *)
Definition foreground_signal (e : env) (mine : Z) (pressure : bool) (ids : list string)
    (d : db) (o : owner_row) : result db :=
  let held := held_by d (ow_id o) in
  if negb (ow_preemptible o) then Ok d
  else v ← row_priority o;
       if (v <? mine) && (pressure || negb (disjoint held ids)) then Ok (signal e d o) else Ok d.

Definition pressure_conflict (e : env) (d : db) (cpu ram : Z) : bool :=
  (Capacity.cpu_limit (en_probe e) <? owner_sum is_active ow_cpu_threads d + cpu) ||
  (Capacity.memory_capacity_bytes (en_probe e) * 4 / 5 <?
   owner_sum is_active ow_ram_bytes d + ram).

Definition foreground_owner_id (e : env) : string := "foreground:" +:+ en_uuid e.

Definition new_intent (e : env) (owner_id : string) (ids : list string) (cpu ram : Z) : intent_row :=
  {| in_id := en_intent_uuid e; in_owner_id := owner_id; in_resources := ids;
     in_cpu_threads := cpu; in_ram_bytes := ram; in_state := HeldActive;
     in_created_at := en_now e; in_heartbeat_at := en_now e |}.

(** The resources a foreground owner will wait for: a free bundle, else the bundle
    whose owners were asked to yield, else the first candidate. *)
Definition foreground_bundle (e : env) (rq : request) (name : string) : tx (list string) :=
  fun d =>
    match _select_locked e rq d with
    | Some ids => Ok (ids, d)
    | None =>
        '(ids, d') ← _request_preemption_locked e rq name d;
        match ids with
        | [] => Ok (match _candidate_resources_locked d' rq with c :: _ => c | [] => [] end, d')
        | _ => Ok (ids, d')
        end
    end.

Definition begin_foreground (e : env) (root : string) (rq : request) (pid : Z)
    (cls : Policy.priority_arg) (d : db) : result (string * list string) * db :=
  match Policy.normalize_priority_class cls with
  | Err x => (Err x, d)
  | Ok name =>
      run (fun d =>
        '(ids, d0) ← foreground_bundle e rq name (_sweep_locked e default_stale d);
        let cpu := rq_cpu_threads rq in
        let ram := rq_ram_bytes rq in
        let oid := foreground_owner_id e in
        d1 ← insert_owner (new_owner e oid "foreground" (Some root) None None None pid
                             OwIntent name false cpu ram) d0;
        d2 ← insert_intent (new_intent e oid ids cpu ram) d1;
        mine ← Policy.priority_value (Policy.PName name);
        d3 ← foldM (foreground_signal e mine (pressure_conflict e d2 cpu ram) ids) d2
               (List.filter (fun o => is_active (ow_state o)) (owners d2));
        Ok ((oid, ids), d3)) d
  end.

Definition activate_foreground (e : env) (id : string) (ids : list string) (d : db)
    : result bool * db :=
  run_or false (fun d =>
    let d := _sweep_locked e default_stale d in
    if negb (disjoint ids (held_ids d)) then Ok (false, d)
    else
      d1 ← insert_all e id ids d;
      Ok (true, update_owners (id_is id)
                  (fun o => ow_touch (en_now e) (ow_set_state OwActive o)) d1)) d.

(** ** Orphaned services of this process *)

Definition reconcile_current_service_owners (e : env) (root : string) (pid : Z)
    (live_ids : list string) (d : db) : result (list string) * db :=
  match Process.pt_start (en_procs e) pid with
  | None => (Ok [], d)
  | Some start =>
      run (fun d =>
        let rows := List.filter (fun o =>
          String.eqb (ow_kind o) "service" && bool_decide (ow_project_root o = Some root) &&
          bool_decide (ow_pid o = Some pid) && bool_decide (ow_process_start o = Some start) &&
          match ow_service_id o with Some s => like_prefix "core4-local-" s | None => false end &&
          is_live (ow_state o)) (owners d) in
        Ok (foldl (fun '(released, d) row =>
              if bool_decide (ow_id row ∈ live_ids) then (released, d)
              else if match owner_by_id d (ow_id row) with
                      | Some o => ow_protected o | None => false end then (released, d)
              else (released ++ [ow_id row], _release_locked e (ow_id row) OwOrphaned d))
            ([], d) rows)) d
  end.

(** ** Protected residency *)

(** "float(value)" of a JSON number, None when it is not finite. *)
Definition number_value (n : number) : option Q :=
  match n with
  | NumBool b => Some (if b then 1%Q else 0%Q)
  | NumFinite q => Some q
  | NumNonFinite => None
  end.

Definition Qlt_b (a b : Q) : bool := match Qcompare a b with Lt => true | _ => false end.

(** "isinstance(v, bool) or not isfinite(float(v)) or float(v) < 0". *)
Definition baseline_bad (n : number) : bool :=
  match n with
  | NumBool _ => true
  | _ => match number_value n with None => true | Some q => Qlt_b q 0 end
  end.

(** Active reservations LIKE 'accelerator:%', without the prefix. *)
Definition accelerator_ids (d : db) (id : string) : list string :=
  map (removeprefix "accelerator:") (List.filter (like_prefix "accelerator:") (held_by d id)).

Definition same_set (l k : list string) : bool :=
  bool_decide (sorted_set l = sorted_set k).

Definition own_origin (e : env) : origin :=
  {| og_pid := en_pid e; og_process_start := Process.pt_start (en_procs e) (en_pid e);
     og_boot_id := en_boot_id e |}.

Record protection := {
  pn_capability : string; pn_generation : string; pn_origin : origin; pn_resource_ids : list string
}.

(** The identity test of [protect_residency]: who may be protected, and with
    which memory baseline. *)
Definition protect_identity_bad (e : env) (d : db) (id : string)
    (baseline : list (string * number)) : bool :=
  match owner_by_id d id with
  | None => true
  | Some o =>
      let accs := accelerator_ids d id in
      negb (is_active (ow_state o)) || negb (String.eqb (ow_kind o) "service") ||
      negb (String.prefix "core4-local-" (default "None" (ow_service_id o))) ||
      bool_decide (ow_pid o <> Some (en_pid e)) ||
      negb (same_set baseline.*1 accs) || bool_decide (accs = []) ||
      existsb (fun kv => baseline_bad kv.2) baseline
  end.

Definition protect_residency (e : env) (id : string) (baseline : list (string * number)) (d : db)
    : result protection * db :=
  run (fun d =>
    _ ← raise_if (protect_identity_bad e d id baseline)
          (ValueError "residency_protection_identity_invalid");
    _ ← raise_if (match owner_by_id d id with Some o => ow_protected o | None => false end)
          (ValueError "residency_protection_immutable");
    let ids := row_resources d id in
    let m := {| rm_phase := "reserved"; rm_model_pid := None; rm_process_start := None;
                rm_baseline := baseline; rm_origin := own_origin e; rm_generation := en_uuid e;
                rm_resource_ids := ids;
                rm_capability_sha256 := en_sha256 e (en_token e) |} in
    Ok ({| pn_capability := en_token e; pn_generation := en_uuid e;
           pn_origin := own_origin e; pn_resource_ids := ids |},
        update_owners (id_is id)
          (fun o => ow_set_residency true (Some m) (ow_release_verified o) o) d)) d.

Definition _verify_residency_capability (e : env) (m : residency)
    (capability generation : option string) : result unit :=
  raise_if
    match capability with
    | None => true
    | Some c => negb (String.length c =? 64)%nat ||
                bool_decide (generation <> Some (rm_generation m)) ||
                negb (String.eqb (en_sha256 e c) (rm_capability_sha256 m))
    end
    (ValueError "residency_cleanup_capability_invalid").

Definition _residency_origin_caller (e : env) (m : residency) : bool :=
  bool_decide (rm_origin m = own_origin e).

Definition spawned_metadata (m : residency) (pid : Z) (start : string) : residency :=
  {| rm_phase := "spawned"; rm_model_pid := Some pid; rm_process_start := Some start;
     rm_baseline := rm_baseline m; rm_origin := rm_origin m; rm_generation := rm_generation m;
     rm_resource_ids := rm_resource_ids m; rm_capability_sha256 := rm_capability_sha256 m |}.

(** The metadata of a protected row; an unprotected database row has none, and
    reading its keys raises KeyError. *)
Definition metadata_of (o : owner_row) : result residency :=
  match ow_metadata o with
  | Some m => Ok m
  | None => Err (KeyError "residency_capability_sha256")
  end.

Definition record_residency_process (e : env) (id : string) (pid : Z)
    (capability generation : string) (d : db) : result unit * db :=
  run (fun d =>
    match owner_by_id d id, Process.pt_start (en_procs e) pid with
    | Some o, Some start =>
        _ ← raise_if (negb (is_active (ow_state o)) || negb (ow_protected o) || String.eqb start "")
              (ValueError "residency_process_identity_invalid");
        m ← metadata_of o;
        _ ← _verify_residency_capability e m (Some capability) (Some generation);
        _ ← raise_if (negb (_residency_origin_caller e m))
              (ValueError "residency_process_owner_mismatch");
        _ ← raise_if (String.eqb (rm_phase m) "spawned" &&
                      (bool_decide (rm_model_pid m <> Some pid) ||
                       bool_decide (rm_process_start m <> Some start)))
              (ValueError "residency_process_identity_immutable");
        _ ← raise_if (String.eqb (rm_phase m) "reserved" &&
                      bool_decide (ow_pid o <> Some (en_pid e)))
              (ValueError "residency_process_owner_mismatch");
        Ok (tt, update_owners (id_is id)
                  (fun o => ow_touch (en_now e)
                     (ow_set_residency (ow_protected o) (Some (spawned_metadata m pid start))
                        (ow_release_verified o) (ow_set_process (Some pid) (Some start) o))) d)
    | _, _ => Err (ValueError "residency_process_identity_invalid")
    end) d.

(** The quiescence proof a caller hands to [release]; None where the JSON value
    has another type.  Observation times are in clock units. *)
Record device := { dv_uuid : string; dv_memory : number }.

Record observation := {
  ob_available : bool;
  ob_devices : option (list device);
  ob_processes : option (list (option Z))
}.

Record quiescence := {
  qp_format : option string;
  qp_owner_id : option string;
  qp_observed : option number;
  qp_owned_pid : option Z;
  qp_observation : option observation
}.

(** "isinstance(observed, bool) or not isinstance(observed, (int, float)) or not
    isfinite(observed) or not 0 <= now - observed <= 5". *)
Definition observation_stale (e : env) (observed : option number) : bool :=
  match observed with
  | Some (NumFinite q) =>
      let age := (inject_Z (en_now e) - q)%Q in
      Qlt_b age 0 || Qlt_b (inject_Z (5 * second)) age
  | _ => true
  end.

(** "{row['uuid']: float(row['memory_used_mib']) for row in rows}". *)
Definition device_memory (l : list device) : list (string * option Q) :=
  foldl (fun acc v => dict_set (dv_uuid v) (number_value (dv_memory v)) acc) [] l.

(** A reading is quiescent when it is finite, non-negative and at most 16 MiB
    above its baseline. *)
Definition memory_bad (baseline : list (string * number)) (kv : string * option Q) : bool :=
  match kv.2 with
  | None => true
  | Some v =>
      Qlt_b v 0 ||
      match dict_get kv.1 baseline ≫= number_value with
      | Some b => Qlt_b (b + 16)%Q v
      | None => true
      end
  end.

Definition _verify_residency_release (e : env) (d : db) (o : owner_row) (m : residency)
    (proof : option quiescence) : result unit :=
  match proof with
  | None => Err (ValueError "residency_release_requires_quiescence")
  | Some q =>
      _ ← raise_if (bool_decide (qp_format q <> Some "CORE4-RESIDENCY-QUIESCENCE/1") ||
                    bool_decide (qp_owner_id q <> Some (ow_id o)))
            (ValueError "residency_release_requires_quiescence");
      _ ← raise_if (observation_stale e (qp_observed q))
            (ValueError "residency_release_observation_stale");
      let pid := rm_model_pid m in
      _ ← raise_if (match pid with
                    | Some _ => bool_decide (ow_pid o <> pid) ||
                                bool_decide (ow_process_start o <> rm_process_start m)
                    | None => false end)
            (ValueError "residency_release_process_identity_changed");
      _ ← raise_if (bool_decide (qp_owned_pid q <> pid) ||
                    match pid with
                    | Some _ => Process.alive (en_procs e) pid (rm_process_start m)
                    | None => false end)
            (ValueError "residency_release_model_still_alive");
      match qp_observation q with
      | Some ob =>
          _ ← raise_if (negb (ob_available ob))
                (ValueError "residency_release_observation_unavailable");
          let accs := accelerator_ids d (ow_id o) in
          _ ← raise_if (bool_decide (row_resources d (ow_id o) <> rm_resource_ids m))
                (ValueError "residency_release_resources_changed");
          match ob_devices ob, ob_processes ob with
          | Some rows, Some processes =>
              _ ← raise_if (negb (same_set (rm_baseline m).*1 accs) ||
                            negb (length rows =? length (remove_dups accs))%nat)
                    (ValueError "residency_release_resources_changed");
              let memory := device_memory rows in
              _ ← raise_if (negb (same_set memory.*1 accs) ||
                            existsb (memory_bad (rm_baseline m)) memory)
                    (ValueError "residency_release_memory_not_quiescent");
              raise_if (existsb (fun p => bool_decide (p = pid)) processes ||
                        (String.eqb (rm_phase m) "reserved" && bool_decide (processes <> [])))
                (ValueError "residency_release_process_not_quiescent")
          | _, _ => Err (ValueError "residency_release_resources_changed")
          end
      | None => Err (ValueError "residency_release_observation_unavailable")
      end
  end.

(** The checks [release] makes before it unprotects an owner. *)
Definition release_check (e : env) (d : db) (o : owner_row) (proof : option quiescence)
    (capability generation : option string) : result residency :=
  m ← metadata_of o;
  _ ← _verify_residency_capability e m capability generation;
  _ ← raise_if (String.eqb (rm_phase m) "reserved" && negb (_residency_origin_caller e m))
        (ValueError "residency_release_reserved_recovery_blocked");
  _ ← raise_if (negb (_residency_origin_caller e m) &&
                Process.alive (en_procs e) (Some (og_pid (rm_origin m)))
                  (og_process_start (rm_origin m)))
        (ValueError "residency_release_owner_alive");
  _ ← _verify_residency_release e d o m proof;
  Ok m.

Definition release (e : env) (id : string) (proof : option quiescence)
    (capability generation : option string) (d : db) : result unit * db :=
  run (fun d =>
    d1 ← match owner_by_id d id with
         | Some o =>
             if ow_protected o
             then _ ← release_check e d o proof capability generation;
                  Ok (update_owners (id_is id)
                        (fun o => ow_set_residency false (ow_metadata o) true o) d)
             else Ok d
         | None => Ok d
         end;
    Ok (tt, _release_locked e id OwReleased d1)) d.
