(* ===== verification/HostSafety.v ===== *)
(** * Safety of the host coordinator

    The operations as one labelled step function, the primitive statements they
    are made of, and the invariants of every reachable registry: exclusive
    reservations, key uniqueness, known priority classes, protected owners carry
    their residency metadata. *)

From Stdlib Require Import ZArith QArith.
From stdpp Require Import relations.
From S2P Require Import Prelude PyValue Contracts HostPolicy HostStore HostCoordinator.

#[local] Open Scope string_scope.
#[local] Open Scope Z_scope.
#[local] Open Scope list_scope.

(** ** Operations as data *)

Inductive op :=
  | OpUpsert (items : list resource_row)
  | OpReplace (kind : string) (items : list resource_row)
  | OpSweep (stale : Z)
  | OpReserveBackground (root job attempt : string) (rq : request) (pid : Z)
  | OpReserveService (root service : string) (rq : request) (pid : Z) (cls : Policy.priority_arg)
  | OpSetPriority (id : string) (cls : Policy.priority_arg)
  | OpRequestPreemption (id : string)
  | OpHeartbeat (id : string) (pid : option Z)
  | OpBeginForeground (root : string) (rq : request) (pid : Z) (cls : Policy.priority_arg)
  | OpActivateForeground (id : string) (ids : list string)
  | OpReconcile (root : string) (pid : Z) (live_ids : list string)
  | OpProtect (id : string) (baseline : list (string * number))
  | OpRecordProcess (id : string) (pid : Z) (capability generation : string)
  | OpRelease (id : string) (proof : option quiescence) (capability generation : option string).

Definition forget {A} (x : result A * db) : result unit * db :=
  (match x.1 with Ok _ => Ok tt | Err e => Err e end, x.2).

(** One call of the coordinator: its outcome, without its value, and the registry
    it leaves. *)
Definition perform (e : env) (o : op) (d : db) : result unit * db :=
  match o with
  | OpUpsert items => forget (upsert_resources e items d)
  | OpReplace kind items => forget (replace_resources e kind items d)
  | OpSweep stale => forget (sweep_stale e stale d)
  | OpReserveBackground root job attempt rq pid =>
      forget (reserve_background e root job attempt rq pid d)
  | OpReserveService root service rq pid cls => forget (reserve_service e root service rq pid cls d)
  | OpSetPriority id cls => forget (set_priority e id cls d)
  | OpRequestPreemption id => forget (request_preemption e id d)
  | OpHeartbeat id pid => forget (heartbeat e id pid d)
  | OpBeginForeground root rq pid cls => forget (begin_foreground e root rq pid cls d)
  | OpActivateForeground id ids => forget (activate_foreground e id ids d)
  | OpReconcile root pid live_ids => forget (reconcile_current_service_owners e root pid live_ids d)
  | OpProtect id baseline => forget (protect_residency e id baseline d)
  | OpRecordProcess id pid c g => forget (record_residency_process e id pid c g d)
  | OpRelease id proof c g => forget (release e id proof c g d)
  end.

Definition exec (e : env) (o : op) (d : db) : db := (perform e o d).2.

Inductive reachable : db -> Prop :=
  | reachable_empty : reachable empty_db
  | reachable_step e o d : reachable d -> reachable (exec e o d).

(** ** Primitive statements *)

Definition known_class (o : owner_row) : Prop :=
  is_Some (dict_get (ow_priority_class o) Policy.PRIORITY_CLASSES).

(** What an UPDATE of host_owners in this code may do to a row: keep its id, keep
    a known priority class known, leave no protected row without metadata, and
    unprotect none. *)
Record owner_edit (f : owner_row -> owner_row) : Prop := {
  oe_id o : ow_id (f o) = ow_id o;
  oe_class o : known_class o -> known_class (f o);
  oe_meta o : (ow_protected o = true -> is_Some (ow_metadata o)) ->
              ow_protected (f o) = true -> is_Some (ow_metadata (f o));
  oe_protected o : ow_protected o = true -> ow_protected (f o) = true
}.

(** An UPDATE of host_reservations or host_foreground_intents never reactivates. *)
Record reservation_edit (f : reservation_row -> reservation_row) : Prop := {
  re_resource r : rv_resource_id (f r) = rv_resource_id r;
  re_owner r : rv_owner_id (f r) = rv_owner_id r;
  re_state r : is_held (rv_state (f r)) = true -> is_held (rv_state r) = true
}.

(** The one statement that unprotects, of [release]. *)
Definition unprotect (o : owner_row) : owner_row := ow_set_residency false (ow_metadata o) true o.

(** [prim r]: one statement; [r] is the owner whose release was verified. *)
Inductive prim (r : option string) : db -> db -> Prop :=
  | prim_resources t d : prim r d (set_resources t d)
  | prim_owners w f d : owner_edit f -> prim r d (update_owners w f d)
  | prim_reservations w f d : reservation_edit f -> prim r d (update_reservations w f d)
  | prim_intents w f d : prim r d (update_intents w f d)
  | prim_unprotect id d : r = Some id -> prim r d (update_owners (id_is id) unprotect d)
  | prim_insert_owner o d d' :
      known_class o -> ow_protected o = false -> insert_owner o d = Ok d' -> prim r d d'
  | prim_insert_reservation v d d' : insert_reservation v d = Ok d' -> prim r d d'
  | prim_insert_intent i d d' : insert_intent i d = Ok d' -> prim r d d'.

Create HintDb host.
#[export] Hint Constructors prim : host.
#[export] Hint Resolve rtc_refl rtc_once : host.

Lemma owner_edit_touch now f : owner_edit f -> owner_edit (fun o => ow_touch now (f o)).
Proof. intros [H1 H2 H3 H4]. split; simpl; intros o; [apply H1|apply H2|apply H3|apply H4]. Qed.

Lemma owner_edit_state s : owner_edit (ow_set_state s).
Proof. by split. Qed.
Lemma owner_edit_preempt : owner_edit ow_set_preempt.
Proof. by split. Qed.
Lemma owner_edit_id : owner_edit (fun o => o).
Proof. by split. Qed.
Lemma owner_edit_priority cls name :
  Policy.normalize_priority_class cls = Ok name -> owner_edit (ow_set_priority name).
Proof.
  intros Hn. split; [done| |done..]. intros o _. unfold known_class; simpl.
  destruct cls as [s|p]; simpl in Hn.
  - destruct (dict_mem s _) eqn:Hm; [|discriminate]. inv_res.
    apply bool_decide_eq_true in Hm.
    destruct (dict_get name Policy.PRIORITY_CLASSES) eqn:Hg; [by eauto|].
    by apply dict_get_None in Hg.
  - destruct p; simpl in Hn; inv_res; by eexists.
Qed.
#[export] Hint Resolve owner_edit_touch owner_edit_state owner_edit_preempt owner_edit_id
  owner_edit_priority : host.

Lemma reservation_edit_release now : reservation_edit (rv_set HeldReleased now).
Proof. by split. Qed.
Lemma reservation_edit_touch now : reservation_edit (fun r => rv_set (rv_state r) now r).
Proof. by split. Qed.
#[export] Hint Resolve reservation_edit_release reservation_edit_touch : host.

Lemma normalized_known cls name e id k r j a s pid st pre cpu ram :
  Policy.normalize_priority_class cls = Ok name ->
  known_class (new_owner e id k r j a s pid st name pre cpu ram).
Proof.
  intros Hn. pose proof (owner_edit_priority _ _ Hn) as [_ Hc _ _].
  set (o := new_owner e id k r j a s pid st "background_cuda" pre cpu ram).
  apply (Hc o). by eexists.
Qed.
#[export] Hint Resolve normalized_known : host.

(** ** Every operation is a sequence of primitive statements *)

(** Splits [Ok (x, d) = Ok (y, d')] and the binds left of it. *)
Ltac inv_tx :=
  inv_res;
  repeat match goal with
  | p : (_ * _)%type |- _ => destruct p; simpl in *
  | H : (_, _) = (_, _) |- _ => apply pair_equal_spec in H as [? ?]; subst
  end; inv_res.

Section Prims.
Context (rel : option string).

Lemma release_locked_prims e id s d : rtc (prim rel) d (_release_locked e id s d).
Proof.
  unfold _release_locked. cbv zeta.
  eapply rtc_r; [|apply prim_intents].
  eapply rtc_r; [|apply prim_owners; eauto with host].
  apply rtc_once, prim_reservations. eauto with host.
Qed.

Lemma foldl_prims {A} (f : db -> A -> db) l d :
  (forall d x, rtc (prim rel) d (f d x)) -> rtc (prim rel) d (foldl f d l).
Proof.
  intros Hf. revert d; induction l as [|x l IH]; intros d; simpl; [eauto with host|].
  etransitivity; [apply Hf|apply IH].
Qed.

Lemma foldM_prims {A} (f : db -> A -> result db) l d d' :
  (forall d x d', f d x = Ok d' -> rtc (prim rel) d d') -> foldM f d l = Ok d' -> rtc (prim rel) d d'.
Proof.
  intros Hf. revert d; induction l as [|x l IH]; intros d H; simpl in H; inv_res; [eauto with host|].
  etransitivity; [by eapply Hf|by apply IH].
Qed.

Lemma sweep_prims e s d : rtc (prim rel) d (_sweep_locked e s d).
Proof.
  unfold _sweep_locked. eapply rtc_r; [|apply prim_intents].
  apply foldl_prims. intros; apply release_locked_prims.
Qed.

Lemma upsert_resource_prim r d : prim rel d (upsert_resource r d).
Proof. unfold upsert_resource. case_match; constructor. Qed.

Lemma signal_prim e d o : prim rel d (signal e d o).
Proof. apply prim_owners. eauto with host. Qed.
#[local] Hint Resolve release_locked_prims sweep_prims upsert_resource_prim signal_prim : host.

Lemma insert_all_prims e id ids d d' : insert_all e id ids d = Ok d' -> rtc (prim rel) d d'.
Proof.
  apply foldM_prims. intros. apply rtc_once. by eapply prim_insert_reservation.
Qed.

Lemma request_preemption_prims e rq c d ids d' :
  _request_preemption_locked e rq c d = Ok (ids, d') -> rtc (prim rel) d d'.
Proof.
  unfold _request_preemption_locked. intros H. inv_res.
  destruct a0 as [|c0 l]; simplify_eq; [eauto with host|].
  apply foldl_prims. eauto with host.
Qed.
#[local] Hint Resolve insert_all_prims request_preemption_prims : host.

Lemma reserve_locked_prims e oid kind root rq pid cls j a s d x d' :
  _reserve_locked e oid kind root rq pid cls j a s d = Ok (x, d') -> rtc (prim rel) d d'.
Proof.
  unfold _reserve_locked. intros H. inv_res.
  destruct (_select_locked e rq d); inv_res.
  - simplify_eq. eapply rtc_l; [eapply prim_insert_owner; eauto with host; done|].
    eauto with host.
  - destruct a1. simplify_eq. eauto with host.
Qed.
#[local] Hint Resolve reserve_locked_prims : host.

Lemma run_prims {A} (m : tx A) d :
  (forall a d', m d = Ok (a, d') -> rtc (prim rel) d d') -> rtc (prim rel) d (run m d).2.
Proof.
  intros H. unfold run. destruct (m d) as [[a d']|] eqn:E; simpl; [by eapply H|done].
Qed.

Lemma run_or_prims {A} (x : A) (m : tx A) d :
  (forall a d', m d = Ok (a, d') -> rtc (prim rel) d d') -> rtc (prim rel) d (run_or x m d).2.
Proof.
  intros H. unfold run_or.
  destruct (m d) as [[a d']|[]] eqn:E; simpl; [by eapply H|done..].
Qed.

Lemma forget_snd {A} (x : result A * db) : (forget x).2 = x.2.
Proof. done. Qed.

Lemma replace_prims e kind items d : rtc (prim rel) d (replace_resources e kind items d).2.
Proof.
  apply run_prims. intros a d' H. inv_tx.
  eapply rtc_l; [apply prim_resources|]. eapply foldM_prims; [|exact Ha].
  intros d0 x d1. simpl. destruct (String.eqb _ _); intros; inv_res. eauto with host.
Qed.

Lemma begin_foreground_prims e root rq pid cls d :
  rtc (prim rel) d (begin_foreground e root rq pid cls d).2.
Proof.
  unfold begin_foreground.
  destruct (Policy.normalize_priority_class cls) as [name|] eqn:Hn; [|simpl; eauto with host].
  apply run_prims. intros x d' H. apply result_bind_ok in H as ([ids d0] & Hb & H).
  assert (rtc (prim rel) d d0) as H0.
  { etransitivity; [apply (sweep_prims e default_stale)|]. unfold foreground_bundle in Hb.
    destruct (_select_locked _ _ _); [apply Ok_inj in Hb; simplify_eq; eauto with host|].
    apply result_bind_ok in Hb as ([[|? ?] d3] & Hp & Hb);
      apply Ok_inj in Hb; simplify_eq; eauto with host. }
  inv_res. simplify_eq.
  etransitivity; [exact H0|].
  eapply rtc_l; [eapply prim_insert_owner; [| |exact Ha]; eauto with host|].
  eapply rtc_l; [eapply prim_insert_intent; exact Ha0|].
  eapply foldM_prims; [|exact Ha2]. intros d1 o d2. unfold foreground_signal.
  destruct (negb _); intros; inv_res; [eauto with host|].
  destruct (_ && _); inv_res; eauto with host.
Qed.

Lemma activate_foreground_prims e id ids d : rtc (prim rel) d (activate_foreground e id ids d).2.
Proof.
  apply run_or_prims. intros a d' H. cbv zeta in H.
  destruct (negb _); inv_tx; [eauto with host|].
  etransitivity; [apply (sweep_prims e default_stale)|].
  etransitivity; [by eapply insert_all_prims|].
  apply rtc_once, prim_owners. eauto with host.
Qed.

Lemma reconcile_prims e root pid live_ids d :
  rtc (prim rel) d (reconcile_current_service_owners e root pid live_ids d).2.
Proof.
  unfold reconcile_current_service_owners.
  destruct (Process.pt_start _ _); [|simpl; eauto with host].
  apply run_prims. intros a d' H. cbv zeta in H. apply Ok_inj in H.
  match type of H with foldl ?f _ ?rows = _ =>
    assert (forall l r d0, rtc (prim rel) d0 (foldl f (r, d0) l).2) as Hl end.
  { induction l as [|o l IH]; intros r d0; simpl; [eauto with host|].
    destruct (bool_decide _); [apply IH|].
    destruct (match owner_by_id d0 (ow_id o) with Some _ => _ | None => _ end); [apply IH|].
    etransitivity; [apply release_locked_prims|apply IH]. }
  match type of H with foldl _ _ ?rows = _ => specialize (Hl rows [] d) end.
  rewrite H in Hl. exact Hl.
Qed.

Lemma residency_edit m v :
  owner_edit (fun o => ow_set_residency true (Some m) (v o) o).
Proof. by split. Qed.

Lemma protect_prims e id baseline d : rtc (prim rel) d (protect_residency e id baseline d).2.
Proof.
  apply run_prims. intros a d' H. cbv zeta in H. inv_tx.
  apply rtc_once, prim_owners. by split.
Qed.

Lemma record_prims e id pid c g d : rtc (prim rel) d (record_residency_process e id pid c g d).2.
Proof.
  apply run_prims. intros a d' H.
  destruct (owner_by_id d id); [|discriminate].
  destruct (Process.pt_start _ _); [|discriminate]. inv_tx.
  apply rtc_once, prim_owners. by split.
Qed.

End Prims.

#[export] Hint Resolve release_locked_prims sweep_prims upsert_resource_prim signal_prim
  insert_all_prims request_preemption_prims reserve_locked_prims : host.

Lemma release_prims e id proof c g d : rtc (prim (Some id)) d (release e id proof c g d).2.
Proof.
  apply run_prims. intros a d' H. inv_tx.
  etransitivity; [|apply release_locked_prims].
  destruct (owner_by_id d id) as [o|]; inv_res; [|eauto with host].
  destruct (ow_protected o); inv_res; [|eauto with host].
  by apply rtc_once, (prim_unprotect (Some id) id d).
Qed.

(** The owner an operation may unprotect. *)
Definition released (o : op) : option string :=
  match o with OpRelease id _ _ _ => Some id | _ => None end.

Lemma exec_prims e o d : rtc (prim (released o)) d (exec e o d).
Proof.
  destruct o; unfold exec; cbn [perform]; rewrite forget_snd.
  - apply run_prims. intros a d' H. inv_tx. apply foldl_prims. eauto with host.
  - apply replace_prims.
  - apply run_prims. intros a d' H. cbv zeta in H. inv_tx. eauto with host.
  - apply run_or_prims. intros a d' H.
    etransitivity; [apply (sweep_prims _ e default_stale)|by eapply reserve_locked_prims].
  - apply run_or_prims. intros a d' H.
    etransitivity; [apply (sweep_prims _ e default_stale)|by eapply reserve_locked_prims].
  - unfold set_priority. destruct (Policy.normalize_priority_class cls) eqn:Hn; [|done].
    apply run_prims. intros x d' H.
    destruct (owner_by_id d id) as [o|]; inv_tx; [|done].
    destruct (_ || _); inv_tx; [done|]. apply rtc_once, prim_owners. eauto with host.
  - apply run_prims. intros a d' H. cbv zeta in H. inv_tx.
    apply rtc_once, prim_owners. eauto with host.
  - apply run_prims. intros a d' H. cbv zeta in H. inv_tx.
    eapply rtc_r; [|apply prim_reservations; eauto with host].
    apply rtc_once, prim_owners. by split.
  - apply begin_foreground_prims.
  - apply activate_foreground_prims.
  - apply reconcile_prims.
  - apply protect_prims.
  - apply record_prims.
  - apply release_prims.
Qed.

(** ** Invariants of reachable registries *)

Record registry_ok (d : db) : Prop := {
  ok_exclusive : NoDup (held_ids d);
  ok_reservation_key : NoDup (map (fun r => (rv_resource_id r, rv_owner_id r)) (reservations d));
  ok_owner_key : NoDup (map ow_id (owners d));
  ok_classes : Forall known_class (owners d);
  ok_metadata : Forall (fun o => ow_protected o = true -> is_Some (ow_metadata o)) (owners d)
}.

Lemma update_rows_map {A B} (p : A -> B) w (f : A -> A) g t :
  (forall r, p (f r) = p r) -> map p (update_rows w f g t) = map p t.
Proof.
  intros Hp. unfold update_rows. rewrite map_map. apply map_ext. intros r.
  by destruct (w r && negb (g r (f r))).
Qed.

Lemma Forall_update_rows {A} (P : A -> Prop) w (f : A -> A) g t :
  (forall r, P r -> P (f r)) -> Forall P t -> Forall P (update_rows w f g t).
Proof.
  intros Hf Ht. unfold update_rows. apply Forall_map. eapply Forall_impl; [exact Ht|].
  intros r Hr. simpl. destruct (_ && _); auto.
Qed.

(** An edit that never reactivates keeps a sublist of the active resources. *)
Lemma held_ids_update w f d :
  reservation_edit f -> sublist (held_ids (update_reservations w f d)) (held_ids d).
Proof.
  intros [H1 H2 H3]. unfold held_ids, update_reservations. simpl.
  generalize (Guard.reservation_update d) as g. intros g.
  induction (reservations d) as [|r t IH]; simpl; [constructor|].
  destruct (w r && negb (g r (f r))).
  - destruct (is_held (rv_state (f r))) eqn:Hf.
    + rewrite (H3 _ Hf). simpl. rewrite H1. by constructor.
    + destruct (is_held (rv_state r)); simpl; [by constructor|done].
  - destruct (is_held (rv_state r)); simpl; [by constructor|done].
Qed.

Lemma insert_reservation_ok r d d' :
  NoDup (held_ids d) ->
  NoDup (map (fun r => (rv_resource_id r, rv_owner_id r)) (reservations d)) ->
  insert_reservation r d = Ok d' ->
  NoDup (held_ids d') /\
  NoDup (map (fun r => (rv_resource_id r, rv_owner_id r)) (reservations d')).
Proof.
  intros Hh Hk. unfold insert_reservation. destruct (Guard.reservation_insert d r); [naive_solver|].
  destruct (existsb (reservation_clash r) (reservations d)) eqn:Hc; [done|].
  intros [= <-]. rewrite existsb_false_forall in Hc. unfold held_ids in *. simpl.
  rewrite List.filter_app, !map_app. split.
  - simpl. destruct (is_held (rv_state r)) eqn:Hr; simpl; [|by rewrite app_nil_r].
    apply NoDup_snoc; [done|]. intros Hin. apply list_elem_of_fmap in Hin as (r' & Heq & Hin).
    apply list_elem_of_In, filter_In in Hin as [Hin Hr'].
    apply list_elem_of_In, Hc in Hin. unfold reservation_clash in Hin.
    rewrite Heq, String.eqb_refl, Hr, Hr' in Hin. simpl in Hin. by rewrite orb_true_r in Hin.
  - simpl. apply NoDup_snoc; [done|]. intros Hin.
    apply list_elem_of_fmap in Hin as (r' & Heq & Hin). apply Hc in Hin.
    injection Heq as Heq1 Heq2. unfold reservation_clash in Hin.
    by rewrite Heq1, Heq2, !String.eqb_refl in Hin.
Qed.

Lemma insert_owner_ok o d d' :
  insert_owner o d = Ok d' ->
  d' = d \/ (d' = set_owners (owners d ++ [o]) d /\ ow_id o ∉ map ow_id (owners d)).
Proof.
  unfold insert_owner. destruct (Guard.owner_insert d o); [intros [= <-]; by left|].
  destruct (existsb _ _) eqn:Hc; [done|]. intros [= <-]. right. split; [done|].
  rewrite existsb_false_forall in Hc. intros (o' & Heq & Hin)%list_elem_of_fmap.
  apply Hc in Hin. by rewrite <-Heq, String.eqb_refl in Hin.
Qed.

Lemma update_owners_registry_ok w f d :
  (forall o, ow_id (f o) = ow_id o) -> (forall o, known_class o -> known_class (f o)) ->
  (forall o, (ow_protected o = true -> is_Some (ow_metadata o)) ->
     ow_protected (f o) = true -> is_Some (ow_metadata (f o))) ->
  registry_ok d -> registry_ok (update_owners w f d).
Proof.
  intros Hid Hcl Hm [H1 H2 H3 H4 H5]. split; simpl; try done.
  - by rewrite update_rows_map.
  - by apply Forall_update_rows.
  - by apply Forall_update_rows.
Qed.

Lemma prim_registry_ok rel d d' : prim rel d d' -> registry_ok d -> registry_ok d'.
Proof.
  intros Hp Hok. pose proof Hok as [H1 H2 H3 H4 H5]. destruct Hp as
    [t d|w f d Hf|w f d Hf|w f d|id d Hr|o d d' Hc Hnp Hi|r d d' Hi|i d d' Hi].
  - by split.
  - destruct Hf. by apply update_owners_registry_ok.
  - split; simpl; try done.
    + eapply sublist_NoDup; [exact H1|]. by apply held_ids_update.
    + rewrite update_rows_map; [done|]. intros r. destruct Hf as [Hr Ho _]. by rewrite Hr, Ho.
  - by split.
  - by apply update_owners_registry_ok.
  - apply insert_owner_ok in Hi as [->|[-> Hn]]; [by split|]. split; simpl; try done.
    + rewrite map_app. by apply NoDup_snoc.
    + apply Forall_app. by split; [|apply Forall_singleton].
    + apply Forall_app. split; [done|]. apply Forall_singleton. congruence.
  - pose proof (insert_reservation_ok _ _ _ H1 H2 Hi) as [? ?].
    unfold insert_reservation in Hi. repeat case_match; simplify_eq; by split.
  - unfold insert_intent in Hi. repeat case_match; simplify_eq; by split.
Qed.

Lemma prims_registry_ok rel d d' : rtc (prim rel) d d' -> registry_ok d -> registry_ok d'.
Proof. induction 1; eauto using prim_registry_ok. Qed.

Lemma empty_registry_ok : registry_ok empty_db.
Proof. split; constructor. Qed.

Lemma exec_registry_ok e o d : registry_ok d -> registry_ok (exec e o d).
Proof. apply (prims_registry_ok _ _ _ (exec_prims e o d)). Qed.

(** C1: Every reachable registry has at most one active reservation per resource,
    unique keys, known priority classes, and metadata on every protected owner. *)
Theorem reachable_registry_ok d : reachable d -> registry_ok d.
Proof.
  induction 1 as [|e o d _ IH]; [apply empty_registry_ok|by apply exec_registry_ok].
Qed.
