(* ===== verification/HostProps.v ===== *)
(** * What the host coordinator guarantees

    Theorems about the operations of HostCoordinator.v on registries that satisfy
    the invariants of HostSafety.v: protected residency survives everything but a
    verified release, a reservation is exclusive and within the capacity limits,
    preemption only reaches lower-priority preemptible owners, a sweep collects
    exactly the dead, a failed call changes nothing. *)

From Stdlib Require Import ZArith QArith.
From stdpp Require Import relations.
From S2P Require Import Prelude PyValue Contracts HostPolicy HostStore HostCoordinator HostSafety.

#[local] Open Scope string_scope.
#[local] Open Scope Z_scope.
#[local] Open Scope list_scope.

(** ** Protected residency *)

(** The columns of a protected owner that identify it. *)
Record identity_kept (o o' : owner_row) : Prop := {
  ik_state : ow_state o' = ow_state o;
  ik_id : ow_id o' = ow_id o;
  ik_kind : ow_kind o' = ow_kind o;
  ik_root : ow_project_root o' = ow_project_root o;
  ik_job : ow_job_id o' = ow_job_id o;
  ik_attempt : ow_attempt_id o' = ow_attempt_id o;
  ik_service : ow_service_id o' = ow_service_id o;
  ik_acquired : ow_acquired_at o' = ow_acquired_at o;
  ik_cpu : ow_cpu_threads o' = ow_cpu_threads o;
  ik_ram : ow_ram_bytes o' = ow_ram_bytes o;
  ik_generation : Guard.meta rm_generation o' = Guard.meta rm_generation o;
  ik_capability : Guard.meta rm_capability_sha256 o' = Guard.meta rm_capability_sha256 o;
  ik_origin : Guard.meta rm_origin o' = Guard.meta rm_origin o;
  ik_baseline : Guard.meta rm_baseline o' = Guard.meta rm_baseline o;
  ik_resources : Guard.meta rm_resource_ids o' = Guard.meta rm_resource_ids o
}.

Lemma identity_kept_refl o : identity_kept o o.
Proof. by split. Qed.

Lemma identity_kept_trans o1 o2 o3 :
  identity_kept o1 o2 -> identity_kept o2 o3 -> identity_kept o1 o3.
Proof. intros [] []. split; congruence. Qed.

Lemma holds_is_not_false {A} `{EqDecision A} (a b : A) :
  Sql.holds (Sql.is_not a b) = false <-> a = b.
Proof. unfold Sql.is_not. simpl. case_bool_decide; simpl; naive_solver. Qed.

Lemma identity_changed_false o o' :
  Sql.holds (Guard.identity_changed o o') = false -> identity_kept o o'.
Proof.
  unfold Guard.identity_changed, foldr. rewrite !Sql.holds_or3, !orb_false_iff, !holds_is_not_false.
  intros H. by split; apply H.
Qed.

Lemma identity_kept_changed o o' :
  identity_kept o o' -> Sql.holds (Guard.identity_changed o o') = false.
Proof.
  intros []. unfold Guard.identity_changed, foldr.
  rewrite !Sql.holds_or3, !orb_false_iff, !holds_is_not_false. by split_and!.
Qed.

(** An UPDATE that keeps identity, protection and process is let through. *)
Lemma owner_update_allowed o o' :
  identity_kept o o' -> ow_protected o' = ow_protected o -> ow_pid o' = ow_pid o ->
  ow_process_start o' = ow_process_start o -> Guard.owner_update o o' = false.
Proof.
  intros Hk Hp Hpid Hs. unfold Guard.owner_update, Guard.process_changed.
  rewrite Sql.holds_or3, identity_kept_changed, Sql.holds_and3, Sql.holds_or3, Hp, Hpid, Hs by done.
  rewrite !(proj2 (holds_is_not_false _ _)) by done.
  by destruct (ow_protected o); rewrite ?andb_false_r.
Qed.

(** The guard lets an UPDATE that keeps the protection through only when it keeps
    the identity. *)
Lemma owner_update_kept o o' :
  ow_protected o = true -> is_active (ow_state o) = true -> ow_protected o' = true ->
  Guard.owner_update o o' = false -> identity_kept o o'.
Proof.
  intros Hp Ha Hp'. unfold Guard.owner_update. rewrite Hp, Ha, Hp'. simpl.
  rewrite Sql.holds_or3, orb_false_iff. intros [H _]. by apply identity_changed_false.
Qed.

Definition same_reservation (r r' : reservation_row) : Prop :=
  rv_resource_id r' = rv_resource_id r /\ rv_owner_id r' = rv_owner_id r /\
  rv_state r' = rv_state r /\ rv_acquired_at r' = rv_acquired_at r.

Definition same_intent (i i' : intent_row) : Prop :=
  in_id i' = in_id i /\ in_owner_id i' = in_owner_id i /\ in_resources i' = in_resources i /\
  in_state i' = in_state i /\ in_cpu_threads i' = in_cpu_threads i /\
  in_ram_bytes i' = in_ram_bytes i /\ in_created_at i' = in_created_at i.

(** Every row [a] of [t] that satisfies [P] still has an [R]-related row. *)
Definition rows_kept {A} (P : A -> Prop) (R : A -> A -> Prop) (t t' : list A) : Prop :=
  forall a, a ∈ t -> P a -> exists a', a' ∈ t' /\ R a a' /\ P a'.

Lemma rows_kept_refl {A} (P : A -> Prop) R t : (forall a, R a a) -> rows_kept P R t t.
Proof. intros HR a Ha HP. by exists a. Qed.

Lemma rows_kept_trans {A} (P : A -> Prop) (R : A -> A -> Prop) t1 t2 t3 :
  (forall a b c, R a b -> R b c -> R a c) ->
  rows_kept P R t1 t2 -> rows_kept P R t2 t3 -> rows_kept P R t1 t3.
Proof.
  intros HR H12 H23 a Ha HP. destruct (H12 a Ha HP) as (b & Hb & Hab & HPb).
  destruct (H23 b Hb HPb) as (c & Hc & Hbc & HPc). exists c. eauto.
Qed.

Lemma rows_kept_snoc {A} (P : A -> Prop) R t x : (forall a, R a a) -> rows_kept P R t (t ++ [x]).
Proof. intros HR a Ha HP. exists a. split; [set_solver|auto]. Qed.

Lemma rows_kept_update {A} (P : A -> Prop) (R : A -> A -> Prop) w f g t :
  (forall a, R a a) ->
  (forall a, P a -> w a = true -> g a (f a) = false -> R a (f a) /\ P (f a)) ->
  rows_kept P R t (update_rows w f g t).
Proof.
  intros Hrefl Hstep a Ha HP. exists (if w a && negb (g a (f a)) then f a else a). split.
  - unfold update_rows. apply list_elem_of_fmap. by exists a.
  - destruct (w a) eqn:Hw; simpl; [|auto]. destruct (g a (f a)) eqn:Hg; simpl; auto.
Qed.

Definition holder (id : string) (o : owner_row) : Prop :=
  ow_id o = id /\ ow_protected o = true /\ is_active (ow_state o) = true.
Definition held_under (id : string) (r : reservation_row) : Prop :=
  rv_owner_id r = id /\ is_held (rv_state r) = true.
Definition intended_under (id : string) (i : intent_row) : Prop :=
  in_owner_id i = id /\ is_held (in_state i) = true.

(** From [d] to [d'] the protected owner [id] lost nothing. *)
Record residency_kept (id : string) (d d' : db) : Prop := {
  rk_owner : rows_kept (holder id) identity_kept (owners d) (owners d');
  rk_reservations : rows_kept (held_under id) same_reservation (reservations d) (reservations d');
  rk_intents : rows_kept (intended_under id) same_intent (intents d) (intents d')
}.

Lemma same_reservation_trans r1 r2 r3 :
  same_reservation r1 r2 -> same_reservation r2 r3 -> same_reservation r1 r3.
Proof. unfold same_reservation. naive_solver congruence. Qed.
Lemma same_intent_trans i1 i2 i3 : same_intent i1 i2 -> same_intent i2 i3 -> same_intent i1 i3.
Proof. unfold same_intent. naive_solver congruence. Qed.
Lemma same_reservation_refl r : same_reservation r r.
Proof. done. Qed.
Lemma same_intent_refl i : same_intent i i.
Proof. done. Qed.
#[local] Hint Resolve identity_kept_refl same_reservation_refl same_intent_refl
  identity_kept_trans same_reservation_trans same_intent_trans rows_kept_refl rows_kept_snoc : host.

Lemma residency_kept_refl id d : residency_kept id d d.
Proof. split; auto with host. Qed.

Lemma residency_kept_trans id d1 d2 d3 :
  residency_kept id d1 d2 -> residency_kept id d2 d3 -> residency_kept id d1 d3.
Proof. intros [] []. split; eapply rows_kept_trans; eauto with host. Qed.

Lemma protected_active_spec d id :
  protected_active d id = true <-> exists o, o ∈ owners d /\ holder id o.
Proof.
  unfold protected_active, holder. rewrite existsb_exists. split.
  - intros (o & Ho%list_elem_of_In & H). rewrite !andb_true_iff, String.eqb_eq in H. naive_solver.
  - intros (o & Ho & <- & Hp & Ha). exists o. rewrite <-list_elem_of_In, String.eqb_refl, Hp, Ha. done.
Qed.

Lemma prim_residency_kept rel id d d' :
  prim rel d d' -> rel <> Some id -> protected_active d id = true -> residency_kept id d d'.
Proof.
  intros Hp Hrel Hpa. destruct Hp as
    [t d|w f d Hf|w f d Hf|w f d|id' d Hr|o d d' Hc Hnp Hi|r d d' Hi|i d d' Hi].
  - split; simpl; auto with host.
  - split; simpl; auto with host. apply rows_kept_update; [auto with host|].
    intros o (Hid & Hpr & Ha) _ Hg. destruct Hf as [H1 _ _ H4].
    assert (identity_kept o (f o)) as Hk by (apply owner_update_kept; auto).
    split; [done|]. split; [by rewrite H1|]. split; [auto|]. by rewrite (ik_state _ _ Hk).
  - split; simpl; auto with host. apply rows_kept_update; [auto with host|].
    intros r [Hid Ha] _ Hg. unfold Guard.reservation_update in Hg.
    rewrite Hid, Ha, Hpa, !andb_true_l, !orb_false_iff, !bool_decide_eq_false in Hg.
    unfold same_reservation, held_under. destruct Hg as [[[H1 H2] H3] H4].
    apply dec_stable in H1, H2, H3, H4. by rewrite H1, H2, H3, H4.
  - split; simpl; auto with host. apply rows_kept_update; [auto with host|].
    intros i [Hid Ha] _ Hg. unfold Guard.intent_update in Hg.
    rewrite Hid, Ha, Hpa, !andb_true_l, !orb_false_iff, !bool_decide_eq_false in Hg.
    unfold same_intent, intended_under. destruct Hg as [[[[[[H1 H2] H3] H4] H5] H6] H7].
    apply dec_stable in H1, H2, H3, H4, H5, H6, H7. by rewrite H1, H2, H3, H4, H5, H6, H7.
  - split; simpl; auto with host. apply rows_kept_update; [auto with host|].
    intros o (Hid & _) Hw _. apply String.eqb_eq in Hw. congruence.
  - apply insert_owner_ok in Hi as [->|[-> _]]; split; simpl; auto with host.
  - unfold insert_reservation in Hi. repeat case_match; simplify_eq; split; simpl; auto with host.
  - unfold insert_intent in Hi. repeat case_match; simplify_eq; split; simpl; auto with host.
Qed.

Lemma residency_kept_protected id d d' :
  residency_kept id d d' -> protected_active d id = true -> protected_active d' id = true.
Proof.
  intros [Ho _ _]. rewrite !protected_active_spec. intros (o & Hin & Hh).
  destruct (Ho o Hin Hh) as (o' & ? & _ & ?). eauto.
Qed.

Lemma prims_residency_kept rel id d d' :
  rtc (prim rel) d d' -> rel <> Some id -> protected_active d id = true -> residency_kept id d d'.
Proof.
  intros H Hrel. induction H as [|d1 d2 d3 H12 _ IH]; intros Hp; [apply residency_kept_refl|].
  assert (residency_kept id d1 d2) as Hk by by eapply prim_residency_kept.
  eapply residency_kept_trans; [exact Hk|]. apply IH. by eapply residency_kept_protected.
Qed.

(** A session: calls one after another, each seeing its own environment. *)
Definition session := list (env * op).
Definition exec_all (s : session) (d : db) : db := foldl (fun d eo => exec eo.1 eo.2 d) d s.

(** C2: No sequence of coordinator calls that does not release a protected active
    owner changes its identity, or drops one of its reservations or intents: the
    residency triggers hold against every other operation. *)
Theorem protected_residency_persists id d (s : session) :
  protected_active d id = true -> Forall (fun eo => released eo.2 <> Some id) s ->
  residency_kept id d (exec_all s d) /\ protected_active (exec_all s d) id = true.
Proof.
  intros Hp Hs. revert d Hp. induction Hs as [|[e o] s Hr Hs IH]; intros d Hp; simpl.
  { split; [apply residency_kept_refl|done]. }
  assert (residency_kept id d (exec e o d)) as Hk
    by (eapply prims_residency_kept; [apply exec_prims|exact Hr|exact Hp]).
  destruct (IH (exec e o d)) as [Hk' Hp']; [by eapply residency_kept_protected|].
  split; [by eapply residency_kept_trans|done].
Qed.

(** ** What releasing does *)

Lemma update_rows_map_if {A} (w : A -> bool) f g (t : list A) :
  (forall r, r ∈ t -> w r = true -> g r (f r) = false) ->
  update_rows w f g t = map (fun r => if w r then f r else r) t.
Proof.
  intros H. unfold update_rows. apply map_ext_in. intros r Hr%list_elem_of_In.
  destruct (w r) eqn:Hw; simpl; [|done]. by rewrite H.
Qed.

Lemma update_rows_skip {A} (w : A -> bool) f g (t : list A) :
  (forall r, r ∈ t -> w r = true -> g r (f r) = true) -> update_rows w f g t = t.
Proof.
  intros H. apply map_id_on. intros r Hr. destruct (w r) eqn:Hw; simpl; [|done]. by rewrite H.
Qed.

Lemma protected_active_false d id o :
  protected_active d id = false -> o ∈ owners d -> ow_id o = id ->
  ow_protected o && is_active (ow_state o) = false.
Proof.
  intros H Ho <-. unfold protected_active in H. rewrite existsb_false_forall in H.
  specialize (H o Ho). by rewrite String.eqb_refl in H.
Qed.

(** Releasing the owners [ids] rewrites exactly their rows. *)
Definition retire_owner (now : Z) (s : owner_state) (o : owner_row) : owner_row :=
  ow_touch now (ow_set_state s o).

Definition after_release (e : env) (ids : list string) (s : owner_state) (d : db) : db :=
  {| resources := resources d;
     owners := map (fun o => if bool_decide (ow_id o ∈ ids) then retire_owner (en_now e) s o else o)
                 (owners d);
     reservations :=
       map (fun r => if bool_decide (rv_owner_id r ∈ ids) && is_held (rv_state r)
                     then rv_set HeldReleased (en_now e) r else r) (reservations d);
     intents :=
       map (fun i => if bool_decide (in_owner_id i ∈ ids) && is_held (in_state i)
                     then in_release (en_now e) i else i) (intents d) |}.

Lemma eqb_singleton (x y : string) : String.eqb x y = bool_decide (x ∈ [y]).
Proof.
  apply eq_bool_prop_intro. rewrite !Is_true_true, bool_decide_eq_true, String.eqb_eq. set_solver.
Qed.

Lemma release_locked_eq e id s d :
  is_active s = false -> protected_active d id = false ->
  _release_locked e id s d = after_release e [id] s d.
Proof.
  intros Hs Hp. unfold _release_locked, after_release, update_owners, update_reservations,
    update_intents, set_owners, set_reservations, set_intents. simpl. f_equal.
  - rewrite update_rows_map_if; [by setoid_rewrite eqb_singleton|].
    intros o Ho Hw%String.eqb_eq. pose proof (protected_active_false _ _ _ Hp Ho Hw) as H.
    unfold Guard.owner_update. by rewrite H.
  - rewrite update_rows_map_if; [by setoid_rewrite eqb_singleton|].
    intros r Hr [Hw%String.eqb_eq _]%andb_true_iff.
    unfold Guard.reservation_update. by rewrite Hw, Hp, andb_false_r.
  - rewrite update_rows_map_if; [by setoid_rewrite eqb_singleton|].
    intros i Hi [Hw%String.eqb_eq _]%andb_true_iff.
    unfold Guard.intent_update. rewrite Hw.
    match goal with |- context [protected_active ?d' id] =>
      assert (protected_active d' id = false) as -> end; [|by rewrite andb_false_r].
    unfold protected_active. simpl. apply existsb_false_forall.
    intros o' (o & -> & Ho)%list_elem_of_fmap. destruct (id_is id o) eqn:Hid; simpl.
    + destruct (negb _); simpl; [by rewrite Hs, !andb_false_r|].
      apply String.eqb_eq in Hid. rewrite <-andb_assoc.
      by rewrite (protected_active_false _ _ _ Hp Ho Hid), andb_false_r.
    + unfold id_is in Hid. by rewrite Hid.
Qed.

Lemma after_release_protected e ids s d id :
  is_active s = false -> protected_active d id = false ->
  protected_active (after_release e ids s d) id = false.
Proof.
  intros Hs Hp. unfold protected_active. simpl. apply existsb_false_forall.
  intros o' (o & -> & Ho)%list_elem_of_fmap. case_bool_decide; simpl.
  - by rewrite Hs, !andb_false_r.
  - unfold protected_active in Hp. rewrite existsb_false_forall in Hp. by apply Hp.
Qed.

Lemma bool_decide_cons (x y : string) l :
  bool_decide (x ∈ y :: l) = bool_decide (x ∈ [y]) || bool_decide (x ∈ l).
Proof.
  apply eq_bool_prop_intro. rewrite orb_True, !bool_decide_spec. set_solver.
Qed.

Lemma after_release_cons e id ids s d :
  after_release e ids s (after_release e [id] s d) = after_release e (id :: ids) s d.
Proof.
  unfold after_release. simpl. rewrite !map_map. f_equal; apply map_ext.
  - intros o. rewrite (bool_decide_cons _ id ids).
    destruct (bool_decide (ow_id o ∈ [id])) ; simpl; [|done]. by destruct (bool_decide _).
  - intros r. rewrite (bool_decide_cons _ id ids).
    destruct (bool_decide (rv_owner_id r ∈ [id])) eqn:H1; simpl; [|done].
    destruct (is_held (rv_state r)) eqn:H2; simpl; [by rewrite andb_false_r|].
    by rewrite H2, andb_false_r.
  - intros i. rewrite (bool_decide_cons _ id ids).
    destruct (bool_decide (in_owner_id i ∈ [id])) eqn:H1; simpl; [|done].
    destruct (is_held (in_state i)) eqn:H2; simpl; [by rewrite andb_false_r|].
    by rewrite H2, andb_false_r.
Qed.

Lemma after_release_nil e s d : after_release e [] s d = d.
Proof.
  destruct d. unfold after_release. simpl.
  f_equal; apply map_id_on; by intros x _.
Qed.

Lemma release_many e s ids d :
  is_active s = false -> (forall id, id ∈ ids -> protected_active d id = false) ->
  foldl (fun d id => _release_locked e id s d) d ids = after_release e ids s d.
Proof.
  intros Hs. revert d. induction ids as [|id ids IH]; intros d Hp; simpl.
  { by rewrite after_release_nil. }
  rewrite release_locked_eq; [|done|apply Hp; set_solver]. rewrite IH; [apply after_release_cons|].
  intros id' Hid. apply after_release_protected; [done|]. apply Hp. set_solver.
Qed.

Lemma owner_by_id_spec d id o :
  NoDup (map ow_id (owners d)) -> owner_by_id d id = Some o <-> o ∈ owners d /\ ow_id o = id.
Proof.
  unfold owner_by_id. intros Hnd. split.
  - intros H%find_some. by rewrite <-list_elem_of_In, String.eqb_eq in H.
  - intros [Ho Hid]. induction (owners d) as [|o' l IH]; [by apply not_elem_of_nil in Ho|].
    simpl in *. apply NoDup_cons in Hnd as [Hn Hnd].
    destruct (String.eqb_spec (ow_id o') id) as [He|He].
    + apply elem_of_cons in Ho as [->|Ho]; [done|]. destruct Hn. apply list_elem_of_fmap.
      exists o. split; [congruence|done].
    + apply IH; [done|]. apply elem_of_cons in Ho as [->|Ho]; [done|done].
Qed.

Lemma owner_by_id_same_key d o o' :
  NoDup (map ow_id (owners d)) -> o ∈ owners d -> o' ∈ owners d -> ow_id o = ow_id o' -> o = o'.
Proof.
  intros Hnd Ho Ho' Hid.
  assert (owner_by_id d (ow_id o') = Some o) as H1 by by apply owner_by_id_spec.
  assert (owner_by_id d (ow_id o') = Some o') as H2 by by apply owner_by_id_spec.
  congruence.
Qed.

Lemma owner_by_id_protected d id o :
  NoDup (map ow_id (owners d)) -> owner_by_id d id = Some o ->
  protected_active d id = ow_protected o && is_active (ow_state o).
Proof.
  intros Hnd Ho. apply owner_by_id_spec in Ho as [Ho Hid]; [|done].
  apply eq_bool_prop_intro. rewrite Is_true_true, protected_active_spec, andb_True, !Is_true_true.
  split; [|by exists o]. intros (o' & Ho' & Hid' & ? & ?).
  assert (o' = o) as -> by (eapply owner_by_id_same_key; eauto; congruence). done.
Qed.

Lemma update_owners_by_id w f d id o :
  (forall o, ow_id (f o) = ow_id o) -> owner_by_id d id = Some o ->
  owner_by_id (update_owners w f d) id =
  Some (if w o && negb (Guard.owner_update o (f o)) then f o else o).
Proof.
  intros Hf Ho. unfold owner_by_id, update_owners, update_rows. simpl. rewrite (find_map_id ow_id).
  - unfold owner_by_id in Ho. by rewrite Ho.
  - intros o'. by destruct (_ && _).
Qed.

(** The registry a verified release leaves. *)
Definition released_registry (e : env) (id : string) (d : db) : db :=
  after_release e [id] OwReleased (update_owners (id_is id) unprotect d).

Lemma release_verified_eq e id o d proof c g m :
  NoDup (map ow_id (owners d)) -> owner_by_id d id = Some o ->
  ow_protected o = true -> ow_release_verified o = false ->
  release_check e d o proof c g = Ok m ->
  release e id proof c g d = (Ok tt, released_registry e id d).
Proof.
  intros Hnd Ho Hp Hv Hc. unfold release, run. rewrite Ho, Hp, Hc, !bind_Ok. unfold released_registry.
  f_equal. apply release_locked_eq; [done|].
  rewrite (owner_by_id_protected _ _ (unprotect o)); [done|simpl; by rewrite update_rows_map|].
  etransitivity; [by apply update_owners_by_id|].
  apply owner_by_id_spec in Ho as [_ Hid]; [|done]. unfold id_is.
  rewrite Hid, String.eqb_refl. unfold Guard.owner_update. simpl. by rewrite Hv, Hp, andb_false_r.
Qed.

Lemma after_release_holds_nothing e id s d :
  (forall r, r ∈ reservations (after_release e [id] s d) -> rv_owner_id r = id ->
     is_held (rv_state r) = false) /\
  (forall i, i ∈ intents (after_release e [id] s d) -> in_owner_id i = id ->
     is_held (in_state i) = false).
Proof.
  split; simpl.
  - intros r' (r & -> & Hr)%list_elem_of_fmap. destruct (bool_decide_reflect (rv_owner_id r ∈ [id])).
    + by destruct (is_held (rv_state r)) eqn:?.
    + simpl. intros Hid. set_solver.
  - intros r' (r & -> & Hr)%list_elem_of_fmap. destruct (bool_decide_reflect (in_owner_id r ∈ [id])).
    + by destruct (is_held (in_state r)) eqn:?.
    + simpl. intros Hid. set_solver.
Qed.

(** Releasing a protected active owner either fails, with the error of the
    quiescence check, and changes nothing; or the check passed, and the owner is
    released, unprotected and holds no reservation and no intent. *)
Theorem release_protected e id o d proof c g :
  registry_ok d -> owner_by_id d id = Some o -> ow_protected o = true ->
  is_active (ow_state o) = true -> ow_release_verified o = false ->
  match release_check e d o proof c g with
  | Err x => release e id proof c g d = (Err x, d)
  | Ok _ =>
      let d' := (release e id proof c g d).2 in
      release e id proof c g d = (Ok tt, d') /\
      (exists o', owner_by_id d' id = Some o' /\ ow_state o' = OwReleased /\
                  ow_protected o' = false /\ ow_release_verified o' = true) /\
      (forall r, r ∈ reservations d' -> rv_owner_id r = id -> is_held (rv_state r) = false) /\
      (forall i, i ∈ intents d' -> in_owner_id i = id -> is_held (in_state i) = false)
  end.
Proof.
  intros Hok Ho Hp Ha Hv. pose proof (ok_owner_key _ Hok) as Hnd.
  destruct (release_check e d o proof c g) as [m|x] eqn:Hc; cbv zeta.
  - rewrite (release_verified_eq _ _ _ _ _ _ _ _ Hnd Ho Hp Hv Hc). simpl. split; [done|].
    split; [|exact (after_release_holds_nothing e id OwReleased _)].
    exists (retire_owner (en_now e) OwReleased (unprotect o)). split; [|done].
    pose proof Ho as [_ Hid]%owner_by_id_spec; [|done].
    unfold owner_by_id, released_registry, after_release. simpl. rewrite (find_map_id ow_id).
    + unfold update_rows. rewrite (find_map_id ow_id); [|by intros o'; destruct (_ && _)].
      assert (id_is id o && negb (Guard.owner_update o (unprotect o)) = true) as Hw.
      { unfold id_is, Guard.owner_update. rewrite Hid, String.eqb_refl. simpl.
        by rewrite Hv, Hp, andb_false_r. }
      unfold owner_by_id in Ho. rewrite Ho. csimpl. rewrite Hw.
      by rewrite bool_decide_eq_true_2 by (simpl; set_solver).
    + intros o'. by destruct (bool_decide _).
  - unfold release, run. by rewrite Ho, Hp, Hc.
Qed.

(** ** Sweeping *)

Definition swept (e : env) (stale : Z) (d : db) (id : string) : bool :=
  existsb (fun o => id_is id o && sweep_victim e (en_now e - stale) o) (owners d).

Definition dead_after_sweep (e : env) (stale : Z) (d : db) (id : string) : bool :=
  existsb (fun o => id_is id o && (sweep_victim e (en_now e - stale) o || negb (is_live (ow_state o))))
    (owners d).

(** The victims of a sweep, in the registry [d] of unique owner ids. *)
Section Sweep.
Context (e : env) (stale : Z) (d : db) (Hnd : NoDup (map ow_id (owners d))).
Let v := sweep_victim e (en_now e - stale).
Let ids := map ow_id (List.filter v (owners d)).

Lemma swept_ids id : bool_decide (id ∈ ids) = swept e stale d id.
Proof.
  apply eq_bool_prop_intro. rewrite bool_decide_spec, Is_true_true.
  unfold swept. rewrite existsb_exists. unfold ids. rewrite list_elem_of_fmap. split.
  - intros (o & -> & Ho). apply list_elem_of_In, filter_In in Ho as [Ho Hv]. exists o.
    split; [done|]. unfold id_is. by rewrite String.eqb_refl.
  - intros (o & Ho & H). apply andb_true_iff in H as [Hi%String.eqb_eq Hv]. exists o.
    split; [done|]. by apply list_elem_of_In, filter_In.
Qed.

Lemma swept_owner o : o ∈ owners d -> swept e stale d (ow_id o) = v o.
Proof.
  intros Ho. apply eq_bool_prop_intro. rewrite !Is_true_true. unfold swept.
  rewrite existsb_exists. split.
  - intros (o' & Ho'%list_elem_of_In & H). apply andb_true_iff in H as [Hi%String.eqb_eq Hv].
    by rewrite (owner_by_id_same_key d o o').
  - intros Hv. exists o. split; [by apply list_elem_of_In|]. unfold id_is. by rewrite String.eqb_refl.
Qed.

Lemma sweep_release_eq :
  foldl (fun d o => _release_locked e (ow_id o) OwStale d) d (List.filter v (owners d)) =
  after_release e ids OwStale d.
Proof.
  transitivity (foldl (fun d id => _release_locked e id OwStale d) d ids).
  { unfold ids. by rewrite foldl_map. }
  apply release_many; [done|]. intros id Hid.
  unfold ids in Hid. apply list_elem_of_fmap in Hid as (o & -> & Ho).
  apply list_elem_of_In, filter_In in Ho as [Ho Hv]. apply list_elem_of_In in Ho.
  rewrite (owner_by_id_protected _ _ o); [|done|by apply owner_by_id_spec].
  unfold v, sweep_victim in Hv. destruct (ow_protected o); [|done].
  by rewrite !andb_false_r in Hv.
Qed.

Lemma after_release_owner_key s : map ow_id (owners (after_release e ids s d)) = map ow_id (owners d).
Proof. simpl. rewrite map_map. apply map_ext. intros o. by destruct (bool_decide _). Qed.

Lemma sweep_gone id :
  existsb (fun o => id_is id o && negb (is_live (ow_state o)))
    (owners (after_release e ids OwStale d)) = dead_after_sweep e stale d id.
Proof.
  simpl. rewrite existsb_map. apply existsb_ext_in. intros o Ho.
  rewrite swept_ids, swept_owner by done. fold v. by destruct (v o).
Qed.

(** A dead owner is not protected and active. *)
Lemma sweep_gone_unprotected id :
  existsb (fun o => id_is id o && negb (is_live (ow_state o)))
    (owners (after_release e ids OwStale d)) = true ->
  protected_active (after_release e ids OwStale d) id = false.
Proof.
  rewrite existsb_exists. intros (o & Ho & H).
  apply andb_true_iff in H as [Hid%String.eqb_eq Hl]. apply list_elem_of_In in Ho.
  assert (NoDup (map ow_id (owners (after_release e ids OwStale d)))) as Hnd'
    by by rewrite after_release_owner_key.
  rewrite (owner_by_id_protected _ _ o); [|done|by apply owner_by_id_spec].
  destruct (ow_state o); try done; by rewrite andb_false_r.
Qed.

End Sweep.

(** A sweep makes stale exactly the owners that are live, unprotected, whose
    heartbeat is too old and whose process is gone; it releases exactly their
    reservations, and the intents of every dead owner; nothing else changes. *)
Theorem sweep_collects_dead e stale d :
  NoDup (map ow_id (owners d)) ->
  _sweep_locked e stale d =
  {| resources := resources d;
     owners := map (fun o => if sweep_victim e (en_now e - stale) o
                             then retire_owner (en_now e) OwStale o else o) (owners d);
     reservations := map (fun r => if swept e stale d (rv_owner_id r) && is_held (rv_state r)
                                   then rv_set HeldReleased (en_now e) r else r) (reservations d);
     intents := map (fun i => if dead_after_sweep e stale d (in_owner_id i) && is_held (in_state i)
                              then in_release (en_now e) i else i) (intents d) |}.
Proof.
  intros Hnd. unfold _sweep_locked. cbv zeta.
  rewrite sweep_release_eq by done.
  set (d1 := after_release e _ OwStale d). unfold update_intents, set_intents.
  rewrite update_rows_map_if.
  - f_equal.
    + subst d1. simpl. apply map_ext_in. intros o Ho%list_elem_of_In.
      by rewrite swept_ids, swept_owner.
    + subst d1. simpl. apply map_ext. intros r. by rewrite swept_ids.
    + etransitivity; [apply map_ext; intros i; rewrite (sweep_gone e stale d Hnd); reflexivity|].
      subst d1. simpl. rewrite map_map. apply map_ext. intros i. rewrite !swept_ids by done.
      destruct (swept e stale d (in_owner_id i)) eqn:Hs; simpl.
      * assert (dead_after_sweep e stale d (in_owner_id i) = true) as ->.
        { unfold swept in Hs. unfold dead_after_sweep. apply existsb_exists in Hs as (o & ? & Ho).
          apply existsb_exists. exists o. split; [done|]. by destruct (id_is _ o), (sweep_victim _ _ o). }
        by destruct (is_held (in_state i)) eqn:Hi; simpl; [|rewrite Hi].
      * by rewrite andb_comm.
  - intros i _ [_ Hg]%andb_true_iff. unfold Guard.intent_update.
    assert (protected_active d1 (in_owner_id i) = false) as ->
      by by apply sweep_gone_unprotected.
    by rewrite andb_false_r.
Qed.
