(* ===== verification/HostReserve.v ===== *)
(** * Reservation and preemption

    What [_reserve_locked] grants, when it grants, and whom
    [_request_preemption_locked] asks to yield; plus the all-or-nothing behaviour
    of every coordinator call. *)

From Stdlib Require Import ZArith QArith.
From stdpp Require Import relations.
From S2P Require Import Prelude PyValue Contracts HostPolicy HostStore HostCoordinator HostSafety.
From S2P Require Import HostProps.

#[local] Open Scope string_scope.
#[local] Open Scope Z_scope.
#[local] Open Scope list_scope.

(** ** Granting resources *)

Lemma disjoint_spec l k : disjoint l k = true <-> forall x, x ∈ l -> x ∉ k.
Proof.
  unfold disjoint. rewrite forallb_forall. split; intros H x.
  - intros Hx%list_elem_of_In. specialize (H x Hx). by rewrite negb_true_iff, bool_decide_eq_false in H.
  - intros Hx%list_elem_of_In. rewrite negb_true_iff, bool_decide_eq_false. auto.
Qed.

Lemma elem_held_ids x d :
  x ∈ held_ids d <->
  exists r, r ∈ reservations d /\ rv_resource_id r = x /\ is_held (rv_state r) = true.
Proof.
  unfold held_ids. rewrite list_elem_of_fmap. setoid_rewrite list_elem_of_In at 1.
  setoid_rewrite filter_In. setoid_rewrite <-list_elem_of_In. naive_solver.
Qed.

Lemma find_disjoint_spec e rq d ids :
  _select_locked e rq d = Some ids ->
  _pressure_available e d rq = true /\ ids ∈ _candidate_resources_locked d rq /\
  (forall x, x ∈ ids -> (x ∉ held_ids d) /\ (x ∉ intent_ids d)).
Proof.
  unfold _select_locked. destruct (_pressure_available e d rq); [|done].
  intros [Hin Hd]%find_some. split; [done|]. split; [by apply list_elem_of_In|].
  intros x Hx. rewrite disjoint_spec in Hd. specialize (Hd x Hx).
  unfold _active_resource_ids in Hd. by rewrite not_elem_of_app in Hd.
Qed.

Lemma candidate_NoDup d rq ids : ids ∈ _candidate_resources_locked d rq -> NoDup ids.
Proof. intros (c & -> & _)%list_elem_of_fmap. apply NoDup_sorted_set. Qed.

Lemma held_ids_snoc d r :
  is_held (rv_state r) = true ->
  held_ids (set_reservations (reservations d ++ [r]) d) = held_ids d ++ [rv_resource_id r].
Proof.
  intros Hr. unfold held_ids. simpl. rewrite List.filter_app, map_app. simpl. by rewrite Hr.
Qed.

Lemma insert_free_reservation e oid x d :
  x ∉ held_ids d ->
  insert_reservation (new_reservation e oid x) d =
  if bool_decide ((x, oid) ∈ map (fun r => (rv_resource_id r, rv_owner_id r)) (reservations d))
  then Err IntegrityError
  else Ok (set_reservations (reservations d ++ [new_reservation e oid x]) d).
Proof.
  intros Hx. rewrite elem_held_ids in Hx. unfold insert_reservation.
  assert (Guard.reservation_insert d (new_reservation e oid x) = false) as ->.
  { apply existsb_false_forall. intros r Hr. simpl.
    destruct (String.eqb_spec (rv_resource_id r) x), (is_held (rv_state r)) eqn:?; simpl; try done.
    destruct Hx. by exists r. }
  assert (existsb (reservation_clash (new_reservation e oid x)) (reservations d) =
    bool_decide ((x, oid) ∈ map (fun r => (rv_resource_id r, rv_owner_id r)) (reservations d))) as ->;
    [|done].
  apply eq_bool_prop_intro. rewrite bool_decide_spec, Is_true_true, existsb_exists, list_elem_of_fmap.
  setoid_rewrite <-list_elem_of_In. unfold reservation_clash. simpl. split.
  - intros (r & Hr & H). exists r. rewrite andb_true_iff, orb_true_iff, !String.eqb_eq in H.
    destruct H as [<- [<-|H]]; [done|]. rewrite andb_true_r in H. destruct Hx. by exists r.
  - intros (r & [= -> ->] & Hr). exists r. by rewrite !String.eqb_refl.
Qed.

Lemma insert_all_cons e oid x ids d :
  insert_all e oid (x :: ids) d =
  d' ← insert_reservation (new_reservation e oid x) d; insert_all e oid ids d'.
Proof. done. Qed.

Lemma set_reservations_id d : set_reservations (reservations d) d = d.
Proof. by destruct d. Qed.

Definition with_reservations (e : env) (oid : string) (ids : list string) (d : db) : db :=
  set_reservations (reservations d ++ map (new_reservation e oid) ids) d.

Lemma insert_all_eq e oid ids d d' :
  NoDup ids -> (forall x, x ∈ ids -> x ∉ held_ids d) -> insert_all e oid ids d = Ok d' ->
  d' = with_reservations e oid ids d.
Proof.
  unfold with_reservations. intros Hnd. revert d. induction Hnd as [|x ids Hx Hnd IH];
    intros d Hfree H.
  - apply Ok_inj in H as <-. simpl. by rewrite app_nil_r, set_reservations_id.
  - rewrite insert_all_cons, insert_free_reservation in H by (apply Hfree; left).
    destruct (bool_decide _); [discriminate|]. rewrite bind_Ok in H. apply IH in H.
    + subst d'. simpl. by rewrite <-app_assoc.
    + intros y Hy. rewrite held_ids_snoc by done. rewrite not_elem_of_app. split.
      * apply Hfree. by right.
      * intros ->%list_elem_of_singleton. done.
Qed.

Lemma insert_all_total e oid ids d :
  NoDup ids -> (forall x, x ∈ ids -> x ∉ held_ids d) ->
  (forall r, r ∈ reservations d -> rv_owner_id r <> oid) ->
  insert_all e oid ids d = Ok (with_reservations e oid ids d).
Proof.
  intros Hnd Hfree Hfresh. assert (is_Some (match insert_all e oid ids d with
    | Ok d' => Some d' | Err _ => None end)) as [d' H].
  { assert (forall x r, r ∈ reservations d -> x ∈ ids ->
      (x, oid) <> (rv_resource_id r, rv_owner_id r)) as Hk by naive_solver.
    clear Hfresh. revert d Hfree Hk. induction Hnd as [|x ids Hx Hnd IH]; intros d Hfree Hk; [by eexists|].
    rewrite insert_all_cons, insert_free_reservation by (apply Hfree; left). rewrite bool_decide_eq_false_2.
    - rewrite bind_Ok. apply IH.
      + intros y Hy. rewrite held_ids_snoc by done. rewrite not_elem_of_app. split.
        * apply Hfree. by right.
        * intros ->%list_elem_of_singleton. done.
      + intros y r [Hr| ->%list_elem_of_singleton]%elem_of_app Hy; simpl; [apply Hk; [done|by right]|].
        congruence.
    - intros (r & Heq & Hr)%list_elem_of_fmap. eapply Hk; [exact Hr|left|exact Heq]. }
  destruct (insert_all e oid ids d) as [d1|] eqn:E; [|done]. simplify_eq.
  by rewrite (insert_all_eq e oid ids d d').
Qed.

Lemma held_ids_with e oid ids d : held_ids (with_reservations e oid ids d) = held_ids d ++ ids.
Proof.
  unfold held_ids, with_reservations. simpl. rewrite List.filter_app, map_app. f_equal.
  induction ids as [|x ids IH]; simpl; [done|]. by rewrite IH.
Qed.

Lemma owner_sum_snoc live c d o :
  owner_sum live c (set_owners (owners d ++ [o]) d) =
  owner_sum live c d + (if live (ow_state o) then c o else 0).
Proof.
  unfold owner_sum. simpl. rewrite List.filter_app, sumZ_app. simpl.
  destruct (live (ow_state o)); simpl; lia.
Qed.

(** The row of the owner a successful reservation adds. *)
Definition granted_owner (e : env) (oid kind root : string) (rq : request) (pid : Z)
    (name : string) (job attempt service : option string) : owner_row :=
  new_owner e oid kind (Some root) job attempt service pid OwActive name true
    (_cpu_threads e rq) (rq_ram_bytes rq).

(** C3: A granted reservation takes one candidate bundle, none of whose resources
    was held or intended before; it holds all of it afterwards, the owner row is
    recorded with the demand, and with it the live owners stay within the CPU and
    RAM limits. *)
Theorem reserve_locked_sound e oid kind root rq pid cls j a s d oid' accs d' :
  protected_active d oid = false ->
  _reserve_locked e oid kind root rq pid cls j a s d = Ok (Some (oid', accs), d') ->
  exists ids name,
    Policy.normalize_priority_class cls = Ok name /\
    oid' = oid /\ accs = List.filter is_accelerator ids /\
    ids ∈ _candidate_resources_locked d rq /\
    (forall x, x ∈ ids -> (x ∉ held_ids d) /\ (x ∉ intent_ids d)) /\
    held_ids d' = held_ids d ++ ids /\
    owners d' = owners d ++ [granted_owner e oid kind root rq pid name j a s] /\
    (oid ∉ map ow_id (owners d)) /\
    owner_sum is_live ow_cpu_threads d' <= Capacity.cpu_limit (en_probe e) /\
    owner_sum is_live ow_ram_bytes d' <= Capacity.ram_limit (en_probe e).
Proof.
  intros Hp H. unfold _reserve_locked in H.
  apply result_bind_ok in H as (name & Hn & H).
  destruct (_select_locked e rq d) as [ids|] eqn:Hs; [|by inv_res; destruct a0].
  apply find_disjoint_spec in Hs as (Hpr & Hc & Hfree).
  inv_res. simplify_eq. exists ids, name.
  unfold insert_owner, Guard.owner_insert in Ha. simpl in Ha. rewrite Hp in Ha.
  destruct (existsb _ _) eqn:He; [done|]. inv_res.
  assert (d' = with_reservations e oid' ids
    (set_owners (owners d ++ [granted_owner e oid' kind root rq pid name j a s]) d)) as ->.
  { eapply insert_all_eq; [by eapply candidate_NoDup| |exact Ha0]. intros x Hx.
    apply (Hfree x Hx). }
  assert (oid' ∉ map ow_id (owners d)) as Hnew.
  { rewrite existsb_false_forall in He. intros (o & -> & Ho)%list_elem_of_fmap.
    specialize (He o Ho). by rewrite String.eqb_refl in He. }
  rewrite held_ids_with.
  unfold _pressure_available in Hpr. apply andb_true_iff in Hpr as [Hcpu%Z.leb_le Hram%Z.leb_le].
  split_and!; try done.
  - change (owner_sum is_live ow_cpu_threads
      (set_owners (owners d ++ [granted_owner e oid' kind root rq pid name j a s]) d) <=
      Capacity.cpu_limit (en_probe e)). by rewrite owner_sum_snoc.
  - change (owner_sum is_live ow_ram_bytes
      (set_owners (owners d ++ [granted_owner e oid' kind root rq pid name j a s]) d) <=
      Capacity.ram_limit (en_probe e)). by rewrite owner_sum_snoc.
Qed.

(** ** Preemption *)

Definition yields (requester : Z) (o : owner_row) : Prop :=
  ow_preemptible o = true /\ Policy.class_value (ow_priority_class o) < requester.

Lemma row_priority_value o v : row_priority o = Ok v -> Policy.class_value (ow_priority_class o) = v.
Proof. unfold row_priority, Policy.class_value. by intros ->. Qed.

Lemma all_lower_true requester l : all_lower requester l = Ok true -> Forall (yields requester) l.
Proof.
  induction l as [|o l IH]; simpl; intros H; [constructor|].
  destruct (ow_preemptible o) eqn:Hp; [|discriminate]. inv_res.
  destruct (a <? requester) eqn:Hl; [|discriminate]. constructor; [|auto].
  split; [done|]. rewrite (row_priority_value _ _ Ha). lia.
Qed.

Lemma all_lower_yields requester l b :
  Forall (yields requester) l -> all_lower requester l = Ok b -> b = true.
Proof.
  induction 1 as [|o l [Hp Hv] _ IH]; simpl; intros H; [by inv_res|].
  rewrite Hp in H. inv_res. rewrite (row_priority_value _ _ Ha) in Hv.
  rewrite (proj2 (Z.ltb_lt _ _) Hv) in H. auto.
Qed.

Lemma costs_value l costs :
  mapM_result row_priority l = Ok costs ->
  sumZ (fun z => z) costs = sumZ (fun o => Policy.class_value (ow_priority_class o)) l.
Proof.
  revert costs. induction l as [|o l IH]; simpl; intros costs H; inv_res; simpl; [done|].
  by rewrite (row_priority_value _ _ Ha), (IH _ Ha0).
Qed.

Definition cost (l : list owner_row) : Z :=
  sumZ (fun o => Policy.class_value (ow_priority_class o)) l.

(** The candidate built from the bundle [ids]. *)
Definition candidate_of (d : db) (ids : list string) : candidate :=
  let os := _conflicting_owners_locked d ids in
  {| cd_count := Z.of_nat (length os); cd_cost := cost os; cd_resources := ids; cd_owners := os |}.

Definition viable (d : db) (requester : Z) (ids : list string) : Prop :=
  _conflicting_owners_locked d ids <> [] /\
  Forall (yields requester) (_conflicting_owners_locked d ids).

Lemma viable_candidates_spec d requester l cands :
  viable_candidates d requester l = Ok cands ->
  forall c, c ∈ cands <-> exists ids, ids ∈ l /\ viable d requester ids /\ c = candidate_of d ids.
Proof.
  revert cands. induction l as [|ids l IH]; simpl; intros cands H c.
  { inv_res. split; [by intros ?%not_elem_of_nil|]. by intros (? & ?%not_elem_of_nil & _). }
  apply result_bind_ok in H as (ok & Hok & H). apply result_bind_ok in H as (this & Hthis & H).
  apply result_bind_ok in H as (rest & Hrest & H). apply Ok_inj in H as <-.
  assert (c ∈ this <-> viable d requester ids /\ c = candidate_of d ids) as Ht.
  { unfold viable, candidate_of. destruct ok.
    - apply result_bind_ok in Hthis as (costs & Hcosts & Hthis). apply Ok_inj in Hthis as <-.
      rewrite list_elem_of_singleton, (costs_value _ _ Hcosts). fold (cost (_conflicting_owners_locked d ids)).
      destruct (_conflicting_owners_locked d ids) as [|o os]; [discriminate|].
      apply all_lower_true in Hok. naive_solver.
    - apply Ok_inj in Hthis as <-. split; [by intros ?%not_elem_of_nil|]. intros [[Hne Hy] _].
      destruct (_conflicting_owners_locked d ids); [done|].
      by apply (all_lower_yields _ _ _ Hy) in Hok. }
  rewrite elem_of_app, Ht, (IH _ Hrest). setoid_rewrite elem_of_cons. naive_solver.
Qed.

(** The order on candidates, without its resource list tie-break. *)
Definition cheaper (a b : candidate) : Prop :=
  cd_count a < cd_count b \/ (cd_count a = cd_count b /\ cd_cost a <= cd_cost b).

Lemma cheaper_trans a b c : cheaper a b -> cheaper b c -> cheaper a c.
Proof. unfold cheaper. lia. Qed.

Lemma min_candidate_spec c l :
  (min_candidate c l ∈ c :: l) /\ Forall (cheaper (min_candidate c l)) (c :: l).
Proof.
  unfold min_candidate. revert c. induction l as [|x l IH]; intros c; simpl.
  { split; [left|]. apply Forall_singleton. unfold cheaper. lia. }
  destruct (IH (if candidate_lt x c then x else c)) as [Hin Hf]. split.
  - set_unfold. destruct (candidate_lt x c); naive_solver.
  - apply Forall_cons in Hf as [Hb Hl].
    assert (cheaper (if candidate_lt x c then x else c) c /\
            cheaper (if candidate_lt x c then x else c) x) as [H1 H2].
    { destruct (candidate_lt x c) eqn:Hlt; unfold candidate_lt in Hlt; unfold cheaper;
        revert Hlt;
        destruct (Z.ltb_spec (cd_count x) (cd_count c)), (Z.eqb_spec (cd_count x) (cd_count c)),
          (Z.ltb_spec (cd_cost x) (cd_cost c)), (Z.eqb_spec (cd_cost x) (cd_cost c)); simpl; intros Hlt; try discriminate; lia. }
    apply Forall_cons. split; [by eapply cheaper_trans|].
    apply Forall_cons. split; [by eapply cheaper_trans|done].
Qed.

Lemma signal_eq e d o :
  signal e d o =
  set_owners (map (fun o' => if bool_decide (ow_id o' ∈ [ow_id o])
                             then ow_touch (en_now e) (ow_set_preempt o') else o') (owners d)) d.
Proof.
  unfold signal, update_owners. f_equal. rewrite update_rows_map_if.
  - apply map_ext. intros o'. unfold id_is. by rewrite eqb_singleton.
  - intros o' _ _. by apply owner_update_allowed.
Qed.

Definition preempted (e : env) (victims : list owner_row) (d : db) : db :=
  set_owners (map (fun o => if bool_decide (ow_id o ∈ map ow_id victims)
                            then ow_touch (en_now e) (ow_set_preempt o) else o) (owners d)) d.

Lemma signal_many e victims d : foldl (signal e) d victims = preempted e victims d.
Proof.
  unfold preempted. revert d. induction victims as [|o l IH]; intros d; simpl.
  { rewrite map_id_on; [by destruct d|]. intros o _. done. }
  rewrite IH, signal_eq. unfold set_owners. simpl. f_equal. rewrite map_map. apply map_ext.
  intros o'. rewrite (bool_decide_cons _ (ow_id o) (map ow_id l)).
  destruct (bool_decide (ow_id o' ∈ [ow_id o])); simpl; [|done]. by destruct (bool_decide _).
Qed.

(** C30: A preemption request either finds no bundle whose holders may all yield and
    changes nothing; or it asks exactly the active owners of the bundle it returns
    to yield, every one of them preemptible and of strictly lower priority, and no
    other bundle has fewer holders, or as many at a lower total priority. *)
Theorem preemption_targets e rq cls requester d ids d' :
  Policy.priority_value (Policy.PName cls) = Ok requester ->
  _request_preemption_locked e rq cls d = Ok (ids, d') ->
  let victims := _conflicting_owners_locked d ids in
  (ids = [] /\ d' = d /\
   forall c, c ∈ _candidate_resources_locked d rq -> ~ viable d requester c) \/
  (ids ∈ _candidate_resources_locked d rq /\ viable d requester ids /\ d' = preempted e victims d /\
   forall c, c ∈ _candidate_resources_locked d rq -> viable d requester c ->
     let os := _conflicting_owners_locked d c in
     (length victims < length os)%nat \/ (length victims = length os /\ cost victims <= cost os)).
Proof.
  intros Hr H. unfold _request_preemption_locked in H. rewrite Hr, bind_Ok in H.
  apply result_bind_ok in H as (cands & Hc & H). pose proof (viable_candidates_spec _ _ _ _ Hc) as Hs.
  destruct cands as [|c l]; apply Ok_inj in H; simplify_eq; cbv zeta.
  - left. split_and!; [done..|]. intros c Hin Hv.
    apply (not_elem_of_nil (candidate_of d' c)), Hs. eauto.
  - right. destruct (min_candidate_spec c l) as [Hin Hmin].
    apply Hs in Hin as (ids & Hids & Hv & Heq). rewrite Heq in *. simpl.
    split_and!; [done..|by rewrite signal_many|].
    intros c' Hc' Hv'. rewrite Forall_forall in Hmin.
    assert (candidate_of d c' ∈ c :: l) as Hin' by (apply Hs; eauto).
    apply Hmin in Hin'. unfold cheaper in Hin'. simpl in Hin'. lia.
Qed.

(** ** When a reservation is granted *)

Lemma find_disjoint_total e rq d c :
  _pressure_available e d rq = true -> c ∈ _candidate_resources_locked d rq ->
  (forall x, x ∈ c -> x ∉ _active_resource_ids d) -> is_Some (_select_locked e rq d).
Proof.
  intros Hp Hc Hfree. unfold _select_locked. rewrite Hp.
  destruct (List.find _ _) eqn:Hf; [by eexists|].
  apply list_elem_of_In in Hc. apply (find_none _ _ Hf) in Hc.
  assert (disjoint c (_active_resource_ids d) = true) by by apply disjoint_spec. congruence.
Qed.

(** C31: When the demand fits the limits and some candidate bundle is free, a fresh
    owner is granted a reservation: the search misses no free bundle. *)
Theorem reserve_locked_complete e oid kind root rq pid cls name j a s d :
  Policy.normalize_priority_class cls = Ok name ->
  (oid ∉ map ow_id (owners d)) -> (forall r, r ∈ reservations d -> rv_owner_id r <> oid) ->
  _pressure_available e d rq = true ->
  (exists c, c ∈ _candidate_resources_locked d rq /\ forall x, x ∈ c -> x ∉ _active_resource_ids d) ->
  exists accs d', _reserve_locked e oid kind root rq pid cls j a s d = Ok (Some (oid, accs), d').
Proof.
  intros Hn Hnew Hfresh Hp (c & Hc & Hfree). unfold _reserve_locked. rewrite Hn, bind_Ok.
  destruct (find_disjoint_total e rq d c Hp Hc Hfree) as [ids Hs]. rewrite Hs.
  apply find_disjoint_spec in Hs as (_ & Hids & Hf).
  assert (forall o, o ∈ owners d -> String.eqb (ow_id o) oid = false) as Hne.
  { intros o Ho. apply String.eqb_neq. intros <-. apply Hnew. apply list_elem_of_fmap. by exists o. }
  unfold insert_owner, Guard.owner_insert, protected_active. simpl.
  rewrite !(proj2 (existsb_false_forall _ _)).
  - rewrite bind_Ok, insert_all_total; [by rewrite bind_Ok; eauto|by eapply candidate_NoDup| |done].
    intros x Hx. apply (Hf x Hx).
  - intros o Ho. by rewrite Hne.
  - intros o Ho. by rewrite Hne.
Qed.

(** ** All or nothing *)

Lemma run_err {A} (m : tx A) d x : forall d', run m d = (Err x, d') -> d' = d.
Proof. unfold run. intros d'. destruct (m d) as [[]|]; naive_solver. Qed.

Lemma run_or_err {A} (y : A) (m : tx A) d x : forall d', run_or y m d = (Err x, d') -> d' = d.
Proof. unfold run_or. intros d'. destruct (m d) as [[]|[]]; naive_solver. Qed.

Lemma forget_err {A} (p : result A * db) x d' : forget p = (Err x, d') -> p = (Err x, d').
Proof. destruct p as [[a|y] d0]; unfold forget; simpl; congruence. Qed.

(** A coordinator call that raises leaves the registry as it found it: every
    method rolls its transaction back. *)
Theorem failed_call_changes_nothing e o d x d' : perform e o d = (Err x, d') -> d' = d.
Proof.
  destruct o; cbn [perform]; intros H%forget_err;
    try exact (run_err _ _ _ _ H); try exact (run_or_err _ _ _ _ _ H).
  - unfold set_priority in H. destruct (Policy.normalize_priority_class _);
      [exact (run_err _ _ _ _ H)|by simplify_eq].
  - unfold begin_foreground in H. destruct (Policy.normalize_priority_class _);
      [exact (run_err _ _ _ _ H)|by simplify_eq].
  - unfold reconcile_current_service_owners in H. destruct (Process.pt_start _ _);
      [exact (run_err _ _ _ _ H)|by simplify_eq].
Qed.

(** ** Priority changes and foreground activation *)

(** A priority change is refused, and changes nothing, for an owner that is
    missing, not active or already asked to yield; otherwise exactly its row gets
    the new class. *)
Theorem set_priority_effect e id cls name d :
  NoDup (map ow_id (owners d)) -> Policy.normalize_priority_class cls = Ok name ->
  match owner_by_id d id with
  | Some o =>
      if is_active (ow_state o) && negb (ow_preempt_requested o)
      then exists d', set_priority e id cls d = (Ok true, d') /\
             owner_by_id d' id = Some (ow_touch (en_now e) (ow_set_priority name o)) /\
             (forall id', id' <> id -> owner_by_id d' id' = owner_by_id d id') /\
             reservations d' = reservations d /\ intents d' = intents d
      else set_priority e id cls d = (Ok false, d)
  | None => set_priority e id cls d = (Ok false, d)
  end.
Proof.
  intros Hnd Hn. unfold set_priority. rewrite Hn. unfold run.
  destruct (owner_by_id d id) as [o|] eqn:Ho; [|done].
  destruct (is_active (ow_state o)) eqn:Ha; simpl; [|done].
  destruct (ow_preempt_requested o) eqn:Hq; simpl; [done|].
  eexists. split; [done|]. pose proof Ho as [_ Hid]%owner_by_id_spec; [|done]. split_and!; try done.
  - rewrite (update_owners_by_id _ _ _ _ o); [|done|done]. unfold id_is.
    rewrite owner_update_allowed by done. by rewrite Hid, String.eqb_refl.
  - intros id' Hne. unfold owner_by_id, update_owners, update_rows. simpl.
    rewrite (find_map_id ow_id); [|by intros o'; destruct (_ && _)].
    destruct (List.find (fun o => String.eqb (ow_id o) id') (owners d)) as [o'|] eqn:Hf; simpl; [|done].
    apply find_some in Hf as [_ Hf%String.eqb_eq]. unfold id_is. subst id'.
    by rewrite (proj2 (String.eqb_neq _ _) Hne).
Qed.

(** A foreground activation that succeeds holds every resource asked for, none
    of which was held after the sweep; one that finds a holder changes nothing but
    what the sweep collects. *)
Theorem activate_foreground_exclusive e id ids d b d' :
  NoDup ids -> activate_foreground e id ids d = (Ok b, d') ->
  let d0 := _sweep_locked e default_stale d in
  match b with
  | true => (forall x, x ∈ ids -> x ∉ held_ids d0) /\ held_ids d' = held_ids d0 ++ ids
  | false => d' = d0 \/ d' = d
  end.
Proof.
  intros Hnd H. unfold activate_foreground, run_or in H. cbv zeta in H. cbv zeta.
  set (d0 := _sweep_locked e default_stale d) in *.
  destruct (disjoint ids (held_ids d0)) eqn:Hd; simpl in H; [|simplify_eq; auto].
  rewrite disjoint_spec in Hd.
  destruct (insert_all e id ids d0) as [d1|x] eqn:Hi.
  - rewrite bind_Ok in H. simplify_eq. split; [done|].
    apply insert_all_eq in Hi; [|done..]. subst d1. apply (held_ids_with e id ids d0).
  - destruct x; simplify_eq/=; auto.
Qed.
