(* ===== verification/HostFacade.v ===== *)
(** * The host resource facade (host_resources/facade.py)

    The validation of inventory items, the wrappers that normalise a request before
    the coordinator sees it, the search for compound GPU bundles, the quiescence
    wait as a polling loop, and the drain callbacks. *)

From Stdlib Require Import ZArith.
From stdpp Require Import pretty.
From S2P Require Import Prelude PyValue Text Contracts HostPolicy HostStore HostCoordinator.
From S2P Require Import HostSafety HostProps.

#[local] Open Scope string_scope.
#[local] Open Scope Z_scope.
#[local] Open Scope list_scope.

(** ** upsert and replace: validation *)

Record resource_item := {
  it_id : string;
  it_kind : string;
  it_tags : pydict;
  it_enabled : bool
}.

Definition item_id (item : pyval) : result (pydict * string) :=
  let bad := ContractError "host resources require a non-empty id" in
  match item with
  | PDict d => match dict_get "id" d with
               | Some (PStr s) => if String.eqb s "" then Err bad else Ok (d, s)
               | _ => Err bad
               end
  | _ => Err bad
  end.

Definition item_enabled (d : pydict) : bool := truthy (dict_get_default "enabled" (PBool true) d).

Definition upsert_item (item : pyval) : result resource_item :=
  '(d, id) ← item_id item;
  match dict_get_default "kind" (PStr "accelerator") d, dict_get_default "tags" (PDict []) d with
  | PStr kind, PDict tags =>
      if String.eqb kind "" then Err (ContractError "host resource kind and tags are invalid")
      else Ok {| it_id := id; it_kind := kind; it_tags := tags; it_enabled := item_enabled d |}
  | _, _ => Err (ContractError "host resource kind and tags are invalid")
  end.

Definition replace_item (kind : string) (item : pyval) : result resource_item :=
  '(d, id) ← item_id item;
  match dict_get_default "kind" (PStr kind) d, dict_get_default "tags" (PDict []) d with
  | PStr item_kind, PDict tags =>
      if String.eqb item_kind kind
      then Ok {| it_id := id; it_kind := kind; it_tags := tags; it_enabled := item_enabled d |}
      else Err (ContractError "replacement resources must share one kind and valid tags")
  | _, _ => Err (ContractError "replacement resources must share one kind and valid tags")
  end.

(** What [upsert] and [replace] hand to the coordinator. *)
Definition upsert (resources : list pyval) : result (list resource_item) :=
  mapM_result upsert_item resources.

Definition replace (kind : pyval) (resources : list pyval) : result (list resource_item) :=
  match kind with
  | PStr k => if String.eqb k "" then Err (ContractError "host resource kind must be non-empty")
              else mapM_result (replace_item k) resources
  | _ => Err (ContractError "host resource kind must be non-empty")
  end.

(** ** list *)

Definition list_resources (kind : option string) (d : db) : list resource_row :=
  merge_sort resource_le
    (List.filter (fun r => match kind with None => true | Some k => String.eqb (rr_kind r) k end)
       (resources d)).

(** ** Reservation wrappers *)

Definition facade_request {A} (value : pyval) (d : db) (k : request -> result A * db) : result A * db :=
  match parse_resource_request value with
  | Ok rq => k rq
  | Err x => (Err x, d)
  end.

(** "pid or os.getpid()". *)
Definition pid_or_own (e : env) (pid : option Z) : Z :=
  match pid with Some p => if p =? 0 then en_pid e else p | None => en_pid e end.

Definition facade_reserve_background (e : env) (root job attempt : string) (value : pyval)
    (pid : option Z) (d : db) : result (option (string * list string)) * db :=
  facade_request value d (fun rq => reserve_background e root job attempt rq (pid_or_own e pid) d).

Definition facade_reserve_service (e : env) (root service : string) (value : pyval)
    (cls : Policy.priority_arg) (pid : option Z) (d : db)
    : result (option (string * list string)) * db :=
  facade_request value d (fun rq => reserve_service e root service rq (pid_or_own e pid) cls d).

Definition facade_begin_foreground (e : env) (root : string) (value : pyval)
    (cls : Policy.priority_arg) (pid : option Z) (d : db) : result (string * list string) * db :=
  facade_request value d (fun rq => begin_foreground e root rq (pid_or_own e pid) cls d).

(** ** wait_for_quiescence *)

(** [sees n] is the registry and [clock n] the monotonic time at the n-th poll; the
    registry changes between polls by what other processes do. *)
Fixpoint wait_loop (fuel : nat) (sees : nat -> db) (clock : nat -> Z) (ids : list string)
    (deadline : Z) (n : nat) : option bool :=
  match fuel with
  | O => None
  | S fuel =>
      match conflicts (sees n) ids with
      | [] => Some true
      | _ => if deadline <=? clock n then Some false
             else wait_loop fuel sees clock ids deadline (S n)
      end
  end.

Definition wait_for_quiescence (fuel : nat) (sees : nat -> db) (clock : nat -> Z)
    (ids : list string) (start timeout : Z) : option bool :=
  wait_loop fuel sees clock (sorted_set ids) (start + Z.max 0 timeout) 0.

(** ** Drain callbacks *)

(** A callback answers True, False or None and may itself change the registry. *)
Record facade := {
  fc_db : db;
  fc_callbacks : list (string * (db -> option bool * db))
}.

Definition register_drain_callback (id : string) (callback : db -> option bool * db) (f : facade)
    : facade :=
  {| fc_db := fc_db f; fc_callbacks := dict_set id callback (fc_callbacks f) |}.

Definition drop_callback {A} (id : string) (l : list (string * A)) : list (string * A) :=
  List.filter (fun kv => negb (String.eqb kv.1 id)) l.

(** [release] of the facade: the coordinator's, then the callback is dropped. *)
Definition facade_release (e : env) (id : string) (proof : option quiescence)
    (capability generation : option string) (f : facade) : result unit * facade :=
  match release e id proof capability generation (fc_db f) with
  | (Ok _, d) => (Ok tt, {| fc_db := d; fc_callbacks := drop_callback id (fc_callbacks f) |})
  | (Err x, d) => (Err x, {| fc_db := d; fc_callbacks := fc_callbacks f |})
  end.

Definition drain_if_requested (e : env) (id : string) (f : facade) : result bool * facade :=
  if negb (preempt_requested (fc_db f) id) then (Ok false, f)
  else match dict_get id (fc_callbacks f) with
       | None => (Ok false, f)
       | Some callback =>
           let '(answer, d) := callback (fc_db f) in
           let f := {| fc_db := d; fc_callbacks := fc_callbacks f |} in
           match answer with
           | Some false => (Ok false, f)
           | _ => match facade_release e id None None None f with
                  | (Ok _, f) => (Ok true, f)
                  | (Err x, f) => (Err x, f)
                  end
           end
       end.

(** ** Compound GPU bundles *)

Definition tag_or (k dflt : string) (r : resource_row) : string := default dflt (tag k r).

(** "groups.setdefault(domain, []).append(device)". *)
Definition group_devices (devices : list resource_row) : list (string * list resource_row) :=
  group_by (fun r => Some (tag_or "nvlink_domain" (rr_id r) r)) devices.

Definition bundle_candidates (count : nat) (devices : list resource_row) : list (list resource_row) :=
  match flat_map (fun kv => combinations count kv.2) (group_devices devices) with
  | [] => combinations count devices
  | l => l
  end.

Record bundle := {
  bn_resource_ids : list string;
  bn_exclusive : list string;
  bn_numa_local : bool;
  bn_numa_nodes : list string;
  bn_memory_free_mib : Z;
  bn_utilization : Z
}.

(** "sum(int(tag) for item in combo if str(tag).isdigit())". *)
Definition digit_sum (k : string) (combo : list resource_row) : Z :=
  sumZ (fun r => digits_value 0 (tag_or k "" r))
    (List.filter (fun r => isdigit (tag_or k "" r)) combo).

Definition make_bundle (combo : list resource_row) : bundle :=
  let nodes := sorted_set (map (tag_or "numa_node" "unknown") combo) in
  {| bn_resource_ids := merge_sort String.le (map rr_id combo);
     bn_exclusive := sorted_set (flat_map (interference "nvlink" "nvlink_domain") combo);
     bn_numa_local := (length nodes =? 1)%nat && negb (bool_decide ("unknown" ∈ nodes));
     bn_numa_nodes := nodes;
     bn_memory_free_mib := digit_sum "memory_free_mib" combo;
     bn_utilization := digit_sum "utilization_percent" combo |}.

(** The sort key: numa-local first, most free memory, least utilisation, ids. *)
Definition bundle_leb (a b : bundle) : bool :=
  let na := Z.b2z (negb (bn_numa_local a)) in
  let nb := Z.b2z (negb (bn_numa_local b)) in
  (na <? nb) || ((na =? nb) &&
    ((bn_memory_free_mib b <? bn_memory_free_mib a) ||
     ((bn_memory_free_mib b =? bn_memory_free_mib a) &&
      ((bn_utilization a <? bn_utilization b) ||
       ((bn_utilization a =? bn_utilization b) &&
        negb (strs_lt (bn_resource_ids b) (bn_resource_ids a))))))).
Definition bundle_le (a b : bundle) : Prop := bundle_leb a b = true.
#[export] Instance bundle_le_dec : RelDecision bundle_le.
Proof. intros a b. unfold bundle_le. apply _. Defined.

Definition compound_gpu_bundles (e : env) (count : Z) (d : db) : result (list bundle) * db :=
  if count <? 1 then (Err (ContractError "GPU bundle count must be positive"), d)
  else
    let d' := (sweep_stale e default_stale d).2 in
    let devices := List.filter rr_enabled (list_resources (Some "accelerator") d') in
    let bundles :=
      List.filter (fun b => match conflicts d' (bn_resource_ids b ++ bn_exclusive b) with
                            | [] => true | _ => false end)
        (map make_bundle (bundle_candidates (Z.to_nat count) devices)) in
    (Ok (merge_sort bundle_le bundles), d').

(** ** Theorems *)

Lemma conflicts_nil d ids :
  conflicts d ids = [] <->
  forall r o, r ∈ reservations d -> is_held (rv_state r) = true -> rv_resource_id r ∈ ids ->
    o ∈ owners d -> ow_id o = rv_owner_id r -> is_active (ow_state o) = false.
Proof.
  unfold conflicts. split.
  - intros H r o Hr Hh Hid Ho Heq. apply not_true_iff_false. intros Ha.
    assert (rv_owner_id r ∈ (remove_dups (map rv_owner_id (List.filter
      (fun r => is_held (rv_state r) && bool_decide (rv_resource_id r ∈ ids) &&
              existsb (fun o => id_is (rv_owner_id r) o && is_active (ow_state o)) (owners d))
      (reservations d))))) as Hin; [|rewrite H in Hin; by apply not_elem_of_nil in Hin].
    apply elem_of_remove_dups, list_elem_of_fmap. exists r. split; [done|].
    apply list_elem_of_In, filter_In. split; [by apply list_elem_of_In|].
    rewrite Hh, (bool_decide_eq_true_2 _ Hid). simpl. apply existsb_exists. exists o.
    split; [by apply list_elem_of_In|]. unfold id_is. by rewrite Heq, String.eqb_refl.
  - intros H. assert (List.filter
      (fun r => is_held (rv_state r) && bool_decide (rv_resource_id r ∈ ids) &&
              existsb (fun o => id_is (rv_owner_id r) o && is_active (ow_state o)) (owners d))
      (reservations d) = []) as ->; [|done].
    destruct (List.filter _ _) as [|r l] eqn:Hf; [done|].
    assert (r ∈ r :: l) as Hr by left. rewrite <-Hf in Hr.
    apply list_elem_of_In, filter_In in Hr as [Hr Hb].
    rewrite !andb_true_iff, bool_decide_eq_true, existsb_exists in Hb.
    destruct Hb as [[Hh Hid] (o & Ho & Hb)]. apply andb_true_iff in Hb as [Heq%String.eqb_eq Ha].
    rewrite (H r o) in Ha; [done|by apply list_elem_of_In|done|done|by apply list_elem_of_In|done].
Qed.

Definition domain (r : resource_row) : string := tag_or "nvlink_domain" (rr_id r) r.

Lemma group_devices_spec devices dom g :
  (dom, g) ∈ group_devices devices -> g = List.filter (fun r => String.eqb (domain r) dom) devices.
Proof.
  intros ->%group_by_spec. apply List.filter_ext. intros r. unfold domain.
  case_bool_decide as H; [injection H as ->; by rewrite String.eqb_refl|]. symmetry. apply String.eqb_neq. congruence.
Qed.

Lemma group_devices_covers devices r :
  r ∈ devices -> exists g, (domain r, g) ∈ group_devices devices.
Proof. intros Hr. destruct (group_by_covers (fun r => Some (domain r)) devices r (domain r) Hr eq_refl) as (g & Hg & _). by exists g. Qed.

Lemma bundle_candidates_spec count devices c :
  c ∈ bundle_candidates count devices ->
  sublist c devices /\ length c = count /\
  ((exists dom, (count <= length (List.filter (fun r => String.eqb (domain r) dom) devices))%nat /\
                exists r, r ∈ devices /\ domain r = dom) ->
   exists dom, Forall (fun r => domain r = dom) c).
Proof.
  unfold bundle_candidates. destruct (flat_map _ _) as [|c0 l] eqn:Hf.
  - intros [Hs Hl]%combinations_spec. split; [done|]. split; [done|].
    intros (dom & Hlen & r & Hr & <-). exfalso.
    destruct (group_devices_covers devices r Hr) as [g Hg].
    pose proof (group_devices_spec _ _ _ Hg) as Hgeq.
    assert (take count g ∈ flat_map (fun kv => combinations count kv.2) (group_devices devices)) as Hin;
      [|rewrite Hf in Hin; by apply not_elem_of_nil in Hin].
    apply list_elem_of_In, in_flat_map. exists (domain r, g). split; [by apply list_elem_of_In|].
    apply list_elem_of_In, combinations_spec. split; [apply sublist_take|].
    rewrite length_take. subst g. lia.
  - intros Hc. rewrite <-Hf in Hc. apply list_elem_of_In, in_flat_map in Hc as ([dom g] & Hg & Hc).
    apply list_elem_of_In in Hg, Hc. apply combinations_spec in Hc as [Hs Hl].
    apply group_devices_spec in Hg as ->.
    assert (sublist (List.filter (fun r => String.eqb (domain r) dom) devices) devices) as Hsub.
    { clear. induction devices as [|r l IH]; simpl; [done|]. case_match; by constructor. }
    split; [by etransitivity|]. split; [done|]. intros _. exists dom. apply Forall_forall. intros r Hr.
    pose proof (elem_of_submseteq _ _ r Hr (sublist_submseteq _ _ Hs)) as Hin.
    apply list_elem_of_In, filter_In in Hin as [_ Hin]. by apply String.eqb_eq.
Qed.

Lemma ltb_asym x y : String.ltb x y = true -> String.ltb y x = false.
Proof.
  unfold String.ltb. rewrite (String.compare_antisym y x). by destruct (String.compare x y).
Qed.

Lemma strs_lt_asym l k : strs_lt l k = true -> strs_lt k l = false.
Proof.
  revert k. induction l as [|x l IH]; intros [|y k]; simpl; try done.
  rewrite (String.eqb_sym y x). destruct (String.eqb x y); [apply IH|apply ltb_asym].
Qed.

Lemma bundle_le_total a b : bundle_le a b \/ bundle_le b a.
Proof.
  unfold bundle_le, bundle_leb.
  destruct (Z.lt_total (Z.b2z (negb (bn_numa_local a))) (Z.b2z (negb (bn_numa_local b)))) as [H|[H|H]];
    [left|rewrite H|right]; [by rewrite (proj2 (Z.ltb_lt _ _) H)| |by rewrite (proj2 (Z.ltb_lt _ _) H)].
  rewrite Z.ltb_irrefl, Z.eqb_refl. simpl.
  destruct (Z.lt_total (bn_memory_free_mib a) (bn_memory_free_mib b)) as [Hm|[Hm|Hm]];
    [right|rewrite Hm|left]; [by rewrite (proj2 (Z.ltb_lt _ _) Hm)| |by rewrite (proj2 (Z.ltb_lt _ _) Hm)].
  rewrite Z.ltb_irrefl, Z.eqb_refl. simpl.
  destruct (Z.lt_total (bn_utilization a) (bn_utilization b)) as [Hu|[Hu|Hu]];
    [left|rewrite Hu|right]; [by rewrite (proj2 (Z.ltb_lt _ _) Hu)| |by rewrite (proj2 (Z.ltb_lt _ _) Hu)].
  rewrite Z.ltb_irrefl, Z.eqb_refl. simpl.
  destruct (strs_lt (bn_resource_ids b) (bn_resource_ids a)) eqn:Hs; [|by left].
  right. by rewrite (strs_lt_asym _ _ Hs).
Qed.

(** Every bundle offered names [count] enabled accelerators, within one NVLink
    domain whenever some domain is large enough, and no active owner holds any of
    its resources or interference domains; bundles come best first. *)
Theorem compound_gpu_bundles_sound e count d bundles d' :
  compound_gpu_bundles e count d = (Ok bundles, d') ->
  let devices := List.filter rr_enabled (list_resources (Some "accelerator") d') in
  d' = _sweep_locked e default_stale d /\
  Sorted bundle_le bundles /\
  forall b, b ∈ bundles -> exists combo,
    sublist combo devices /\ b = make_bundle combo /\
    Z.of_nat (length (bn_resource_ids b)) = count /\
    conflicts d' (bn_resource_ids b ++ bn_exclusive b) = [] /\
    ((exists r, r ∈ devices /\
        count <= Z.of_nat (length (List.filter (fun r' => String.eqb (domain r') (domain r)) devices))) ->
     exists dom, Forall (fun r => domain r = dom) combo).
Proof.
  unfold compound_gpu_bundles. destruct (Z.ltb_spec count 1) as [|Hc]; [done|].
  intros H. injection H as H <-. cbv zeta. split; [done|]. subst bundles. split.
  - apply Sorted_merge_sort. exact bundle_le_total.
  - intros b Hb. rewrite merge_sort_Permutation in Hb.
    apply list_elem_of_In, filter_In in Hb as [Hb Hcf]. apply in_map_iff in Hb as (combo & <- & Hcombo).
    apply list_elem_of_In, bundle_candidates_spec in Hcombo as (Hs & Hl & Hdom).
    exists combo. split; [done|]. split; [done|]. split.
    { simpl. rewrite (Permutation_length (merge_sort_Permutation _ _)), length_map, Hl. lia. }
    split; [by destruct (conflicts _ _)|]. intros (r & Hr & Hlen). apply Hdom.
    exists (domain r). split; [lia|]. by exists r.
Qed.

(** The quiescence wait ends: when the clock advances by at least [delta] at
    every poll, it answers within the fuel its time-out allows; True only at a poll
    that saw no holder, False only past the deadline and never having seen none. *)
Theorem wait_for_quiescence_ends fuel sees clock ids start timeout delta :
  0 < delta -> clock 0%nat >= start -> (forall n, clock (S n) >= clock n + delta) ->
  Z.max 0 timeout < Z.of_nat fuel * delta ->
  exists b, wait_for_quiescence (S fuel) sees clock ids start timeout = Some b /\
    (if b then exists n, conflicts (sees n) (sorted_set ids) = []
     else exists n, clock n >= start + Z.max 0 timeout /\
            forall m, (m <= n)%nat -> conflicts (sees m) (sorted_set ids) <> []).
Proof.
  intros Hd H0 Hs Hf. unfold wait_for_quiescence.
  set (deadline := start + Z.max 0 timeout). set (rs := sorted_set ids).
  assert (forall n, clock n >= start + Z.of_nat n * delta) as Hclock.
  { induction n as [|n IH]; [lia|]. specialize (Hs n). lia. }
  assert (forall fuel n, (forall m, (m < n)%nat -> conflicts (sees m) rs <> []) ->
    deadline - start < (Z.of_nat fuel + Z.of_nat n) * delta ->
    exists b, wait_loop (S fuel) sees clock rs deadline n = Some b /\
    (if b then exists n, conflicts (sees n) rs = []
     else exists n, clock n >= deadline /\
            forall m, (m <= n)%nat -> conflicts (sees m) rs <> [])) as Hloop.
  { clear Hf. clear fuel. induction fuel as [|fuel IH]; intros n Hn Hfuel; simpl;
      destruct (conflicts (sees n) rs) as [|x l] eqn:Hc; try (by eexists; split; [done|]; exists n);
      destruct (Z.leb_spec deadline (clock n)) as [Hle|Hgt];
      try (exists false; split; [done|]; exists n; split; [lia|]; intros m Hm;
           destruct (decide (m = n)) as [->|]; [by rewrite Hc|apply Hn; lia]).
    - specialize (Hclock n). lia.
    - destruct (IH (S n)) as (b & Hb & Hres); [|lia|by exists b].
      intros m Hm. destruct (decide (m = n)) as [->|]; [by rewrite Hc|apply Hn; lia]. }
  apply Hloop; [lia|]. unfold deadline. lia.
Qed.

(** Draining releases the owner only after it was asked to yield and its
    callback did not refuse; a refusal leaves what the callback left. *)
Theorem drain_if_requested_sound e id f f' :
  drain_if_requested e id f = (Ok true, f') ->
  preempt_requested (fc_db f) id = true /\
  exists callback answer d, dict_get id (fc_callbacks f) = Some callback /\
    callback (fc_db f) = (answer, d) /\ answer <> Some false /\
    release e id None None None d = (Ok tt, fc_db f') /\ dict_get id (fc_callbacks f') = None.
Proof.
  unfold drain_if_requested. destruct (preempt_requested (fc_db f) id); simpl; [|done].
  destruct (dict_get id (fc_callbacks f)) as [callback|] eqn:Hc; [|done].
  destruct (callback (fc_db f)) as [answer d] eqn:Hcall. intros H. split; [done|].
  exists callback, answer, d. split; [done|]. split; [done|].
  assert (answer <> Some false) as Hne by (by intros ->). split; [done|].
  assert (match facade_release e id None None None {| fc_db := d; fc_callbacks := fc_callbacks f |} with
    | (Ok _, f) => (Ok true, f) | (Err x, f) => (Err x, f) end = (Ok true, f')) as H'
    by (by destruct answer as [[]|]).
  unfold facade_release in H'. simpl in H'.
  destruct (release e id None None None d) as [[[]|x] d'] eqn:Hr; simplify_eq. simpl. split; [done|].
  apply dict_get_None. unfold drop_callback. intros ([k v] & -> & Hin)%list_elem_of_fmap.
  apply list_elem_of_In, filter_In in Hin as [_ Hin]. simpl in Hin. by rewrite String.eqb_refl in Hin.
Qed.

(** * The host registry at work

    A concrete host (four CPUs, 16 GiB, two NVLinked accelerators) and a session on
    it; each theorem about the coordinator and its facade is applied there, so that
    its hypotheses are seen to hold together. *)

From Stdlib Require Import ZArith QArith.
From stdpp Require Import relations.
From S2P Require Import Prelude PyValue Contracts HostPolicy HostStore HostTopology HostCoordinator.
From S2P Require Import HostSafety HostProps HostReserve.

#[local] Open Scope string_scope.
#[local] Open Scope Z_scope.
#[local] Open Scope list_scope.

(** ** The host *)

Definition procs0 : Process.proc_table :=
  {| Process.pt_start := fun pid => if pid <? 1000 then Some "boot" else None;
     Process.pt_signalable := fun pid => pid <? 1000 |}.

Definition probe0 : Capacity.probe :=
  {| Capacity.pr_affinity := Some 4; Capacity.pr_cpu_count := Some 8;
     Capacity.pr_cpu_max := Capacity.CpuMaxUnlimited; Capacity.pr_page_size := 4096;
     Capacity.pr_phys_pages := 4194304; Capacity.pr_memory_max := None;
     Capacity.pr_memory_current := None; Capacity.pr_mem_available := Some 8589934592;
     Capacity.pr_loadavg := Some 0%Q; Capacity.pr_cpp_context_active := false |}.

Definition token64 : string := String.concat "" (repeat "abcdefgh" 8).

Definition host_at (seconds : Z) (uuid : string) : env :=
  {| en_now := seconds * second; en_pid := 10; en_procs := procs0; en_probe := probe0;
     en_boot_id := "b0"; en_sha256 := fun s => s; en_uuid := uuid;
     en_intent_uuid := "i" +:+ uuid; en_token := token64 |}.

Definition gpu0 (id : string) : resource_row :=
  {| rr_id := "accelerator:" +:+ id; rr_kind := "accelerator"; rr_tags := [("nvlink_domain", "n0")];
     rr_enabled := true; rr_updated_at := 0 |}.

Definition wants (count : Z) : request :=
  {| rq_kind := "accelerator"; rq_ids := []; rq_tags := []; rq_exclusive := [];
     rq_isolate_pcie_root := false; rq_isolate_nvlink_domain := false; rq_cpu_heavy := false;
     rq_count := count; rq_cpu_threads := 1; rq_ram_bytes := 1024 |}.

Definition opening : session :=
  [(host_at 1 "u1", OpUpsert [gpu0 "g0"; gpu0 "g1"]);
   (host_at 2 "u2", OpReserveService "/p" "core4-local-x" (wants 1) 10 (Policy.PName "idle_model_residency"))].

(** Two accelerators, the first held by a service of this process. *)
Definition d_held : db := exec_all opening empty_db.
Definition service0 : string := service_owner_id (host_at 2 "u2") "/p" "core4-local-x".

(** The same, the service protected. *)
Definition d_protected : db :=
  exec (host_at 3 "u3") (OpProtect service0 [("g0", NumFinite 100)]) d_held.

Lemma reachable_exec_all s d : reachable d -> reachable (exec_all s d).
Proof.
  revert d. induction s as [|[e o] s IH]; intros d H; simpl; [done|].
  apply IH. by constructor.
Qed.

Lemma exec_all_registry_ok s d : registry_ok d -> registry_ok (exec_all s d).
Proof.
  revert d. induction s as [|[e o] s IH]; intros d H; simpl; [done|].
  by apply IH, exec_registry_ok.
Qed.

Lemma protected_registry_ok : registry_ok d_protected.
Proof. apply exec_registry_ok, exec_all_registry_ok, empty_registry_ok. Qed.

Lemma reachable_held : reachable d_held.
Proof. apply reachable_exec_all. constructor. Qed.

Lemma reachable_protected : reachable d_protected.
Proof. constructor. apply reachable_held. Qed.

Example service_is_protected : protected_active d_protected service0 = true /\
  held_ids d_protected = ["accelerator:g0"].
Proof. by vm_compute. Qed.

(** ** Registry invariants *)

Lemma reachable_registry_ok_witness : reachable d_protected /\ registry_ok d_protected.
Proof. split; [apply reachable_protected|]. apply reachable_registry_ok, reachable_protected. Defined.

(** Thirty minutes later every other caller tries: a sweep, a heartbeat, a release of
    somebody else, a foreground owner on the same device. *)
Definition onslaught : session :=
  [(host_at 1800 "v1", OpSweep 0); (host_at 1801 "v2", OpHeartbeat service0 (Some 77));
   (host_at 1802 "v3", OpRelease "other" None None None);
   (host_at 1803 "v4", OpBeginForeground "/q" (wants 2) 11 (Policy.PName "clean_cuda_foreground"));
   (host_at 1804 "v5", OpActivateForeground "foreground:v4" ["accelerator:g0"])].

Lemma protected_residency_persists_witness :
  residency_kept service0 d_protected (exec_all onslaught d_protected) /\
  protected_active (exec_all onslaught d_protected) service0 = true.
Proof.
  apply protected_residency_persists; [by vm_compute|].
  repeat constructor; vm_compute; congruence.
Defined.

(** The proof of quiescence this host can give for the protected service. *)
Definition quiet : quiescence :=
  {| qp_format := Some "CORE4-RESIDENCY-QUIESCENCE/1"; qp_owner_id := Some service0;
     qp_observed := Some (NumFinite (inject_Z (4 * second))); qp_owned_pid := None;
     qp_observation := Some {| ob_available := true;
       ob_devices := Some [{| dv_uuid := "g0"; dv_memory := NumFinite 101 |}];
       ob_processes := Some [] |} |}.

Definition service_row : option owner_row := owner_by_id d_protected service0.

Lemma release_protected_witness :
  exists d', release (host_at 5 "u5") service0 (Some quiet) (Some token64) (Some "u3") d_protected = (Ok tt, d') /\
    forall r, r ∈ reservations d' -> rv_owner_id r = service0 -> is_held (rv_state r) = false.
Proof.
  destruct service_row as [o|] eqn:Ho; [|vm_compute in Ho; discriminate].
  assert (Hc : is_ok (release_check (host_at 5 "u5") d_protected o (Some quiet) (Some token64) (Some "u3")) = true).
  { vm_compute in Ho. injection Ho as <-. by vm_compute. }
  pose proof (release_protected (host_at 5 "u5") service0 o d_protected (Some quiet) (Some token64) (Some "u3"))
    as H.
  destruct (release_check _ _ _ _ _ _) as [m|x]; [|discriminate Hc].
  destruct H as (Hrun & _ & Hres & _).
  - apply protected_registry_ok.
  - exact Ho.
  - vm_compute in Ho. by injection Ho as <-.
  - vm_compute in Ho. by injection Ho as <-.
  - vm_compute in Ho. by injection Ho as <-.
  - eexists. split; [exact Hrun|exact Hres].
Defined.

(** ** Reservation, preemption, sweeping *)

Definition second_service (d : db) : result (option (string * list string) * db) :=
  _reserve_locked (host_at 6 "u6") "s2" "service" "/p" (wants 1) 10 (Policy.PName "idle_model_residency")
    None None (Some "y") d.

Lemma reserve_locked_sound_witness :
  exists accs d', second_service d_protected = Ok (Some ("s2", accs), d') /\
    owner_sum is_live ow_cpu_threads d' <= Capacity.cpu_limit probe0 /\
    exists ids, held_ids d' = held_ids d_protected ++ ids.
Proof.
  destruct (second_service d_protected) as [[[[oid accs]|] d']|x] eqn:H;
    [|vm_compute in H; discriminate..].
  assert (Hp : protected_active d_protected "s2" = false) by by vm_compute.
  pose proof H as H'. unfold second_service in H'.
  destruct (reserve_locked_sound _ _ _ _ _ _ _ _ _ _ _ _ _ _ Hp H')
    as (ids & name & _ & -> & _ & _ & _ & Hheld & _ & _ & Hcpu & _).
  exists accs, d'. split; [done|]. split; [exact Hcpu|]. by exists ids.
Defined.

Lemma reserve_locked_complete_witness :
  exists accs d', second_service d_protected = Ok (Some ("s2", accs), d').
Proof.
  apply (reserve_locked_complete (host_at 6 "u6") "s2" "service" "/p" (wants 1) 10
           (Policy.PName "idle_model_residency") "idle_model_residency").
  - by vm_compute.
  - compute_decide.
  - apply Forall_forall. vm_compute. repeat constructor; discriminate.
  - by vm_compute.
  - exists ["accelerator:g1"]. split; [compute_decide|].
    intros x ->%list_elem_of_singleton. compute_decide.
Defined.

(** Both devices wanted by the foreground: the service must yield. *)
Definition foreground_wants (d : db) : result (list string * db) :=
  _request_preemption_locked (host_at 6 "u6") (wants 2) "foreground_gpu" d.

Lemma preemption_targets_witness :
  exists ids d', foreground_wants d_held = Ok (ids, d') /\ ids <> [] /\
    d' = preempted (host_at 6 "u6") (_conflicting_owners_locked d_held ids) d_held.
Proof.
  destruct (foreground_wants d_held) as [[ids d']|x] eqn:H; [|vm_compute in H; discriminate].
  exists ids, d'. split; [done|].
  destruct (preemption_targets (host_at 6 "u6") (wants 2) "foreground_gpu" 60 d_held ids d' eq_refl H)
    as [(-> & _)|(_ & _ & -> & _)].
  - vm_compute in H. discriminate.
  - split; [|done]. intros ->. vm_compute in H. discriminate.
Defined.

(** A process table in which the owner's process is gone. *)
Definition ghost_host : env :=
  {| en_now := 100 * second; en_pid := 11;
     en_procs := {| Process.pt_start := fun _ => None; Process.pt_signalable := fun _ => false |};
     en_probe := probe0; en_boot_id := "b0"; en_sha256 := fun s => s; en_uuid := "w";
     en_intent_uuid := "iw"; en_token := token64 |}.

Lemma sweep_collects_dead_witness :
  exists d', _sweep_locked ghost_host default_stale d_held = d' /\
    map ow_state (owners d') = [OwStale] /\ held_ids d' = [].
Proof.
  eexists. split; [apply sweep_collects_dead; compute_decide|]. split; by vm_compute.
Defined.

(** ** Bundles, waiting, topology *)

Lemma compound_gpu_bundles_sound_witness :
  exists bundles d', compound_gpu_bundles (host_at 6 "u6") 1 d_held = (Ok bundles, d') /\
    bundles <> [] /\ Sorted bundle_le bundles.
Proof.
  destruct (compound_gpu_bundles (host_at 6 "u6") 1 d_held) as [[bundles|x] d'] eqn:H;
    [|vm_compute in H; discriminate].
  exists bundles, d'. split; [done|].
  destruct (compound_gpu_bundles_sound _ _ _ _ _ H) as (_ & Hs & _). split; [|done].
  intros ->. vm_compute in H. discriminate.
Defined.

(** Polls every 50 ms; the device is free from the third poll on. *)
Lemma wait_for_quiescence_ends_witness :
  exists b, wait_for_quiescence 5 (fun n => if (n <? 2)%nat then d_held else empty_db)
              (fun n => 50000 * Z.of_nat n) ["accelerator:g0"] 0 100000 = Some b /\
    (if b then exists n, conflicts (if (n <? 2)%nat then d_held else empty_db) (sorted_set ["accelerator:g0"]) = []
     else exists n, 50000 * Z.of_nat n >= 0 + Z.max 0 100000 /\
            forall m, (m <= n)%nat ->
              conflicts (if (m <? 2)%nat then d_held else empty_db) (sorted_set ["accelerator:g0"]) <> []).
Proof.
  apply (wait_for_quiescence_ends 4 (fun n => if (n <? 2)%nat then d_held else empty_db)
           (fun n => 50000 * Z.of_nat n) ["accelerator:g0"] 0 100000 50000); lia.
Defined.

(** Two devices joined, one apart; and a row of a device that is not listed. *)
Lemma nvlink_components_spec_witness :
  (exists components, _nvlink_components [0; 1; 2] [(0, [(1, "NV4")]); (1, [(2, "PHB")])] = Ok components /\
    forall c, c ∈ components -> c <> []) /\
  _nvlink_components [0; 1] [(0, [(1, "PHB")]); (7, [(1, "NV4")])] = Err (KeyError "7").
Proof.
  split.
  - destruct (nvlink_components_spec [0; 1; 2] [(0, [(1, "NV4")]); (1, [(2, "PHB")])]) as (components & H & Hne & _).
    by exists components.
  - exact (nvlink_components_spec [0; 1] [(0, [(1, "PHB")]); (7, [(1, "NV4")])]).
Defined.

(** ** Requests on the wire *)

Lemma wants_wf : request_wf (wants 2).
Proof. split; simpl; [discriminate|constructor|set_solver|constructor|set_solver|lia..|done]. Qed.

Lemma resource_request_roundtrip_witness :
  parse_resource_request (PDict (request_wire (wants 2))) = Ok (wants 2).
Proof. apply resource_request_roundtrip, wants_wf. Defined.
