(* ===== verification/Stamps.v ===== *)
(** * RFC 3339 timestamps

    [parse_stamp] is what [InformationPacket.timestamp] accepts and [_epoch] reads;
    [format_stamp] is [_stamp].  Instants are integers, in microseconds since the
    epoch, which is the precision datetime keeps. *)

From Stdlib Require Import ZArith.
From stdpp Require Import pretty.
From S2P Require Import Prelude PyValue Text.

#[local] Open Scope string_scope.
#[local] Open Scope Z_scope.
#[local] Open Scope list_scope.

(** ** The proleptic Gregorian calendar *)

Definition leap (y : Z) : bool := ((y mod 4 =? 0) && negb (y mod 100 =? 0)) || (y mod 400 =? 0).

Definition days_in_month (y m : Z) : Z :=
  if m =? 2 then (if leap y then 29 else 28)
  else if bool_decide (m ∈ [4; 6; 9; 11]) then 30 else 31.

(** Days from 1970-01-01 to y-m-d. *)
Definition days_from_civil (y m d : Z) : Z :=
  let y := if m <=? 2 then y - 1 else y in
  let era := y / 400 in
  let yoe := y - era * 400 in
  let doy := (153 * (m + (if 2 <? m then -3 else 9)) + 2) / 5 + d - 1 in
  era * 146097 + (yoe * 365 + yoe / 4 - yoe / 100 + doy) - 719468.

Definition civil_from_days (z : Z) : Z * Z * Z :=
  let z := z + 719468 in
  let era := z / 146097 in
  let doe := z - era * 146097 in
  let yoe := (doe - doe / 1460 + doe / 36524 - doe / 146096) / 365 in
  let doy := doe - (365 * yoe + yoe / 4 - yoe / 100) in
  let mp := (5 * doy + 2) / 153 in
  let d := doy - (153 * mp + 2) / 5 + 1 in
  let m := if mp <? 10 then mp + 3 else mp - 9 in
  (yoe + era * 400 + (if m <=? 2 then 1 else 0), m, d).

(** ** Reading *)

(** Exactly [n] digits at the head of [s]. *)
Fixpoint take_digits (n : nat) (acc : Z) (s : string) : option (Z * string) :=
  match n, s with
  | O, _ => Some (acc, s)
  | S n, String c s => if is_digit c then take_digits n (10 * acc + digit_value c) s else None
  | S _, EmptyString => None
  end.

Definition take_char (ok : list nat) (s : string) : option string :=
  match s with
  | String c s => if bool_decide (code c ∈ ok) then Some s else None
  | EmptyString => None
  end.

(** The digits after the point: the first six count, any further ones are cut. *)
Fixpoint take_fraction (scale acc : Z) (s : string) : Z * string :=
  match s with
  | String c s' => if is_digit c then take_fraction (scale / 10) (acc + scale * digit_value c) s'
                   else (acc, s)
  | EmptyString => (acc, s)
  end.

Definition read_fraction (s : string) : option (Z * string) :=
  match s with
  | String c (String c' _ as s') =>
      if (code c =? 46)%nat
      then if is_digit c' then Some (take_fraction 100000 0 s') else None
      else Some (0, s)
  | _ => Some (0, s)
  end.

(** The offset in minutes; nothing may follow it. *)
Definition read_offset (s : string) : option Z :=
  match s with
  | String c EmptyString => if bool_decide (code c ∈ [90; 122]%nat) then Some 0 else None
  | String c s =>
      sign ← (if (code c =? 43)%nat then Some 1 else if (code c =? 45)%nat then Some (-1) else None);
      '(h, s) ← take_digits 2 0 s;
      s ← take_char [58%nat] s;
      '(m, s) ← take_digits 2 0 s;
      if String.eqb s "" && (h <=? 23) && (m <=? 59) then Some (sign * (60 * h + m)) else None
  | EmptyString => None
  end.

Definition parse_stamp (s : string) : option Z :=
  '(y, s) ← take_digits 4 0 s;
  s ← take_char [45%nat] s;
  '(mo, s) ← take_digits 2 0 s;
  s ← take_char [45%nat] s;
  '(d, s) ← take_digits 2 0 s;
  s ← take_char [84; 116]%nat s;
  '(h, s) ← take_digits 2 0 s;
  s ← take_char [58%nat] s;
  '(mi, s) ← take_digits 2 0 s;
  s ← take_char [58%nat] s;
  '(sec, s) ← take_digits 2 0 s;
  '(micro, s) ← read_fraction s;
  offset ← read_offset s;
  if (1 <=? y) && (1 <=? mo) && (mo <=? 12) && (1 <=? d) && (d <=? days_in_month y mo) &&
     (h <=? 23) && (mi <=? 59) && (sec <=? 59)
  then Some ((((days_from_civil y mo d * 24 + h) * 60 + mi - offset) * 60 + sec) * 1000000 + micro)
  else None.

(** ** Writing *)

(** [n] decimal digits, zero-padded. *)
Fixpoint pad (n : nat) (z : Z) : string :=
  match n with
  | O => EmptyString
  | S n => pad n (z / 10) +:+ chr (Z.to_nat (48 + z mod 10))
  end.

(** "datetime.fromtimestamp(t, timezone.utc).isoformat()". *)
Definition format_stamp (t : Z) : string :=
  let micro := t mod 1000000 in
  let secs := t / 1000000 in
  let '(y, m, d) := civil_from_days (secs / 86400) in
  let s := secs mod 86400 in
  pad 4 y +:+ "-" +:+ pad 2 m +:+ "-" +:+ pad 2 d +:+ "T" +:+
  pad 2 (s / 3600) +:+ ":" +:+ pad 2 (s / 60 mod 60) +:+ ":" +:+ pad 2 (s mod 60) +:+
  (if micro =? 0 then "" else "." +:+ pad 6 micro) +:+ "+00:00".

Example stamp_ex :
  parse_stamp "2024-02-29t12:30:05.25-01:30" = Some 1709215205250000 /\
  format_stamp 1709215205250000 = "2024-02-29T14:00:05.250000+00:00" /\
  parse_stamp "2023-02-29T12:30:05Z" = None.
Proof. split_and!; vm_compute; reflexivity. Qed.

