(* ===== verification/Json.v ===== *)
(** * JSON values: Python equality and canonical text

    [py_eqb] is "==" on the values json.loads produces; [json_dumps] is
    [as1_packets._json] (sorted keys, compact separators, no ASCII escaping, no
    NaN).  The repr of a float, the one piece of text not determined here, is the
    parameter [float_repr]. *)

From Stdlib Require Import ZArith SpecFloat.
From stdpp Require Import pretty.
From S2P Require Import Prelude PyValue Text.

#[local] Open Scope string_scope.
#[local] Open Scope Z_scope.
#[local] Open Scope list_scope.

(** ** Induction over nested values *)

Section Induction.
Context (P : pyval -> Prop).
Context (HNone : P PNone) (HBool : forall b, P (PBool b)) (HInt : forall z, P (PInt z)).
Context (HFloat : forall f, P (PFloat f)) (HStr : forall s, P (PStr s)).
Context (HList : forall l, Forall P l -> P (PList l)).
Context (HDict : forall d, Forall (fun kv => P kv.2) d -> P (PDict d)).

Fixpoint pyval_rect_nested (v : pyval) : P v :=
  match v with
  | PNone => HNone
  | PBool b => HBool b
  | PInt z => HInt z
  | PFloat f => HFloat f
  | PStr s => HStr s
  | PList l => HList l ((fix go l : Forall P l :=
      match l with [] => Forall_nil_2 P
      | x :: l => Forall_cons_2 P x l (pyval_rect_nested x) (go l) end) l)
  | PDict d => HDict d ((fix go (d : list (string * pyval)) : Forall (fun kv => P kv.2) d :=
      match d with [] => Forall_nil_2 _
      | kv :: d => Forall_cons_2 _ kv d (pyval_rect_nested kv.2) (go d) end) d)
  end.
End Induction.

(** ** Equality *)

(** Numbers compare by value: True == 1 == 1.0. *)
Definition num_eqb (a b : pyval) : bool :=
  match a, b with
  | PFloat f, PFloat g => SFeqb f g
  | PFloat f, _ => match as_int b with Some z => eq_int (PFloat f) z | None => false end
  | _, PFloat g => match as_int a with Some z => eq_int (PFloat g) z | None => false end
  | _, _ => match as_int a, as_int b with Some x, Some y => x =? y | _, _ => false end
  end.

(** Pointwise, and of the same length. *)
Fixpoint py_eqb (a b : pyval) : bool :=
  match a, b with
  | PNone, PNone => true
  | PStr s, PStr t => String.eqb s t
  | PList l, PList k =>
      (fix go (l k : list pyval) : bool :=
         match l, k with
         | [], [] => true
         | x :: l, y :: k => py_eqb x y && go l k
         | _, _ => false
         end) l k
  | PDict d, PDict d' =>
      (length d =? length d')%nat &&
      (fix go (d : list (string * pyval)) : bool :=
         match d with
         | [] => true
         | (k, v) :: d => match dict_get k d' with
                          | Some v' => py_eqb v v'
                          | None => false
                          end && go d
         end) d
  | _, _ => num_eqb a b
  end.

(** ** Canonical text *)

Definition hex_digit (n : nat) : string :=
  chr (if (n <? 10)%nat then 48 + n else 87 + n).

Definition escape_char (c : Ascii.ascii) : string :=
  let n := code c in
  if (n =? 34)%nat then chr 92 +:+ chr 34
  else if (n =? 92)%nat then chr 92 +:+ chr 92
  else if (n =? 10)%nat then chr 92 +:+ "n"
  else if (n =? 13)%nat then chr 92 +:+ "r"
  else if (n =? 9)%nat then chr 92 +:+ "t"
  else if (n =? 12)%nat then chr 92 +:+ "f"
  else if (n =? 8)%nat then chr 92 +:+ "b"
  else if (n <? 32)%nat then chr 92 +:+ "u00" +:+ hex_digit (n / 16) +:+ hex_digit (n mod 16)
  else String c EmptyString.

Fixpoint escape (s : string) : string :=
  match s with EmptyString => EmptyString | String c s => escape_char c +:+ escape s end.

Definition quote (s : string) : string := chr 34 +:+ escape s +:+ chr 34.

Fixpoint comma_sep (l : list string) : string :=
  match l with
  | [] => ""
  | [s] => s
  | s :: l => s +:+ "," +:+ comma_sep l
  end.

Definition entry_le {A} (a b : string * A) : Prop := String.le a.1 b.1.
#[export] Instance entry_le_dec {A} : RelDecision (@entry_le A).
Proof. intros a b. unfold entry_le. apply _. Defined.

Section Dumps.
Context (float_repr : spec_float -> string).

Definition float_finite (f : spec_float) : bool :=
  match f with S754_zero _ | S754_finite _ _ _ => true | _ => false end.

(** The entries are rendered before they are sorted; keys are unique, so the order
    is that of the keys. *)
Fixpoint json_dumps (v : pyval) : result string :=
  match v with
  | PNone => Ok "null"
  | PBool b => Ok (if b then "true" else "false")
  | PInt z => Ok (pretty z)
  | PFloat f => if float_finite f then Ok (float_repr f)
                else Err (ValueError "Out of range float values are not JSON compliant")
  | PStr s => Ok (quote s)
  | PList l =>
      texts ← (fix go (l : list pyval) : result (list string) :=
         match l with
         | [] => Ok []
         | x :: l => t ← json_dumps x; ts ← go l; Ok (t :: ts)
         end) l;
      Ok ("[" +:+ comma_sep texts +:+ "]")
  | PDict d =>
      texts ← (fix go (d : list (string * pyval)) : result (list (string * string)) :=
         match d with
         | [] => Ok []
         | (k, x) :: d => t ← json_dumps x; ts ← go d; Ok ((k, quote k +:+ ":" +:+ t) :: ts)
         end) d;
      Ok ("{" +:+ comma_sep (merge_sort entry_le texts).*2 +:+ "}")
  end.

(** "len(_json(v).encode())": a string is its UTF-8 bytes. *)
Definition json_size (v : pyval) : result Z :=
  t ← json_dumps v; Ok (Z.of_nat (String.length t)).

(** "json.dumps(v, sort_keys=True, separators=..., ensure_ascii=False)" with NaN allowed,
    as the default is. *)
Definition float_text (f : spec_float) : string :=
  match f with
  | S754_nan => "NaN"
  | S754_infinity s => if s then "-Infinity" else "Infinity"
  | _ => float_repr f
  end.

Fixpoint json_text (v : pyval) : string :=
  match v with
  | PNone => "null"
  | PBool b => if b then "true" else "false"
  | PInt z => pretty z
  | PFloat f => float_text f
  | PStr s => quote s
  | PList l => "[" +:+ comma_sep (map json_text l) +:+ "]"
  | PDict d =>
      let entry '(k, x) := (k, quote k +:+ ":" +:+ json_text x) in
      "{" +:+ comma_sep (merge_sort entry_le (map entry d)).*2 +:+ "}"
  end.

(** ** ASCII output: "json.dumps(v, sort_keys=True)", ensure_ascii as by default *)

Definition u_escape (n : N) : string :=
  let hex (k : N) := hex_digit (N.to_nat k) in
  chr 92 +:+ "u" +:+ hex (n / 4096)%N +:+ hex (n / 256 mod 16)%N +:+ hex (n / 16 mod 16)%N +:+ hex (n mod 16)%N.

(** A code point above the basic plane is a surrogate pair. *)
Definition escape_point (n : N) : string :=
  if (n <? 65536)%N then u_escape n
  else u_escape (55296 + (n - 65536) / 1024)%N +:+ u_escape (56320 + (n - 65536) mod 1024)%N.

Definition tail_bits (c : Ascii.ascii) : N := (Ascii.N_of_ascii c mod 64)%N.

(** A string is its UTF-8 bytes; code points outside " " .. "~" are escaped. *)
Fixpoint escape_ascii (s : string) : string :=
  match s with
  | EmptyString => ""
  | String a r =>
      let n := Ascii.N_of_ascii a in
      if (n =? 127)%N then u_escape n +:+ escape_ascii r
      else if (n <? 128)%N then escape_char a +:+ escape_ascii r
      else if (n <? 224)%N then
        match r with
        | String b r => escape_point (n mod 32 * 64 + tail_bits b)%N +:+ escape_ascii r
        | EmptyString => ""
        end
      else if (n <? 240)%N then
        match r with
        | String b (String c r) => escape_point ((n mod 16 * 64 + tail_bits b) * 64 + tail_bits c)%N +:+ escape_ascii r
        | _ => ""
        end
      else
        match r with
        | String b (String c (String d r)) =>
            escape_point (((n mod 8 * 64 + tail_bits b) * 64 + tail_bits c) * 64 + tail_bits d)%N +:+ escape_ascii r
        | _ => ""
        end
  end.

Definition quote_ascii (s : string) : string := chr 34 +:+ escape_ascii s +:+ chr 34.

Fixpoint sep_by (sep : string) (l : list string) : string :=
  match l with
  | [] => ""
  | [s] => s
  | s :: l => s +:+ sep +:+ sep_by sep l
  end.

(** [comma] and [colon] are the separators. *)
Fixpoint json_ascii (comma colon : string) (v : pyval) : string :=
  match v with
  | PNone => "null"
  | PBool b => if b then "true" else "false"
  | PInt z => pretty z
  | PFloat f => float_text f
  | PStr s => quote_ascii s
  | PList l => "[" +:+ sep_by comma (map (json_ascii comma colon) l) +:+ "]"
  | PDict d =>
      let entry '(k, x) := (k, quote_ascii k +:+ colon +:+ json_ascii comma colon x) in
      "{" +:+ sep_by comma (merge_sort entry_le (map entry d)).*2 +:+ "}"
  end.

End Dumps.

Example json_ascii_ex :
  json_ascii (fun _ => "0.5") ", " ": " (PDict [("b", PList [PInt (-3); PStr "é€"]); ("a", PStr "😀")])
  = "{" +:+ quote "a" +:+ ": " +:+ chr 34 +:+ chr 92 +:+ "ud83d" +:+ chr 92 +:+ "ude00" +:+ chr 34 +:+ ", "
    +:+ quote "b" +:+ ": [-3, " +:+ chr 34 +:+ chr 92 +:+ "u00e9" +:+ chr 92 +:+ "u20ac" +:+ chr 34 +:+ "]}".
Proof. vm_compute. reflexivity. Qed.

Example json_dumps_ex :
  json_dumps (fun _ => "0.5") (PDict [("b", PList [PInt (-3); PNone]); ("a", PStr "x")])
  = Ok ("{" +:+ quote "a" +:+ ":" +:+ quote "x" +:+ "," +:+ quote "b" +:+ ":[-3,null]}").
Proof. vm_compute. reflexivity. Qed.
