(* ===== verification/JsonParse.v ===== *)
(** * json.loads

    The reader of the standard library, as the code uses it: the number grammar, string
    escapes with surrogate pairs, "NaN" and the infinities, and the last value of a key that
    is repeated.  A string is its UTF-8 bytes.  The float a literal denotes is the parameter
    [float_of]; the nesting the interpreter bounds, and its limit on the digits of an int,
    are not modelled.  [fuel] bounds the calls; it is never used up ([json_loads_total]). *)

From Stdlib Require Import ZArith SpecFloat.
From stdpp Require Import pretty.
From S2P Require Import Prelude PyValue Text Json.

#[local] Open Scope string_scope.
#[local] Open Scope Z_scope.
#[local] Open Scope list_scope.

Module JsonParse.

Definition is_ws (c : Ascii.ascii) : bool := bool_decide (code c ∈ [32; 9; 10; 13]%nat).

Definition skip_ws (s : string) : string := lstrip_while is_ws s.

(** ** Strings *)

Definition hex_value (c : Ascii.ascii) : option N :=
  if is_digit c then Some (N.of_nat (code c - 48))
  else if in_range 97 102 c then Some (N.of_nat (code c - 87))
  else if in_range 65 70 c then Some (N.of_nat (code c - 55))
  else None.

Definition hex4 (a b c d : Ascii.ascii) : option N :=
  a ← hex_value a; b ← hex_value b; c ← hex_value c; d ← hex_value d;
  Some (((a * 16 + b) * 16 + c) * 16 + d)%N.

Definition byte (n : N) : string := String (Ascii.ascii_of_N n) EmptyString.

(** The UTF-8 bytes of a code point; a lone surrogate has three, as any other. *)
Definition utf8 (n : N) : string :=
  if (n <? 128)%N then byte n
  else if (n <? 2048)%N then byte (192 + n / 64) +:+ byte (128 + n mod 64)
  else if (n <? 65536)%N then byte (224 + n / 4096) +:+ byte (128 + n / 64 mod 64) +:+ byte (128 + n mod 64)
  else byte (240 + n / 262144) +:+ byte (128 + n / 4096 mod 64) +:+ byte (128 + n / 64 mod 64) +:+ byte (128 + n mod 64).

Definition high_surrogate (n : N) : bool := ((55296 <=? n) && (n <=? 56319))%N.
Definition low_surrogate (n : N) : bool := ((56320 <=? n) && (n <=? 57343))%N.
Definition paired (hi lo : N) : N := (65536 + (hi - 55296) * 1024 + (lo - 56320))%N.

(** A character escaped by a backslash, other than "u". *)
Definition escaped (c : Ascii.ascii) : option string :=
  match code c with
  | 34%nat => Some (chr 34) | 92%nat => Some (chr 92) | 47%nat => Some "/"
  | 98%nat => Some (chr 8) | 102%nat => Some (chr 12) | 110%nat => Some (chr 10)
  | 114%nat => Some (chr 13) | 116%nat => Some (chr 9)
  | _ => None
  end.

Definition prepend (s : string) (r : option (string * string)) : option (string * string) :=
  '(t, rest) ← r; Some (s +:+ t, rest).

(** What follows the opening quote: the string, and what follows the closing one. *)
Fixpoint scan_string (s : string) : option (string * string) :=
  match s with
  | EmptyString => None
  | String c s =>
      if (code c =? 34)%nat then Some ("", s)
      else if (code c <? 32)%nat then None
      else if negb (code c =? 92)%nat then prepend (String c EmptyString) (scan_string s)
      else match s with
           | EmptyString => None
           | String e s =>
               if negb (code e =? 117)%nat then t ← escaped e; prepend t (scan_string s)
               else match s with
                    | String h1 (String h2 (String h3 (String h4 s))) =>
                        hi ← hex4 h1 h2 h3 h4;
                        match s with
                        | String b (String u (String l1 (String l2 (String l3 (String l4 s'))))) =>
                            if high_surrogate hi && (code b =? 92)%nat && (code u =? 117)%nat then
                              lo ← hex4 l1 l2 l3 l4;
                              if low_surrogate lo then prepend (utf8 (paired hi lo)) (scan_string s')
                              else prepend (utf8 hi) (scan_string s)
                            else prepend (utf8 hi) (scan_string s)
                        | _ => prepend (utf8 hi) (scan_string s)
                        end
                    | _ => None
                    end
           end
  end.

(** ** Valid UTF-8: what bytes.decode accepts *)

Definition tail_byte (c : Ascii.ascii) : bool := let n := Ascii.N_of_ascii c in ((128 <=? n) && (n <? 192))%N.

(** Shortest encodings of code points that are no surrogates. *)
Fixpoint utf8_ok (s : string) : bool :=
  match s with
  | EmptyString => true
  | String a r =>
      let n := Ascii.N_of_ascii a in
      if (n <? 128)%N then utf8_ok r
      else if (n <? 194)%N then false
      else if (n <? 224)%N then match r with String b r => tail_byte b && utf8_ok r | _ => false end
      else if (n <? 240)%N then
        match r with
        | String b (String c r) =>
            let m := Ascii.N_of_ascii b in
            tail_byte b && tail_byte c && negb ((n =? 224) && (m <? 160))%N && negb ((n =? 237) && (160 <=? m))%N && utf8_ok r
        | _ => false
        end
      else if (n <? 245)%N then
        match r with
        | String b (String c (String d r)) =>
            let m := Ascii.N_of_ascii b in
            tail_byte b && tail_byte c && tail_byte d && negb ((n =? 240) && (m <? 144))%N && negb ((n =? 244) && (144 <=? m))%N
            && utf8_ok r
        | _ => false
        end
      else false
  end.

(** ** Numbers *)

(** The leading digits, and the rest. *)
Fixpoint span_digits (s : string) : string * string :=
  match s with
  | EmptyString => ("", "")
  | String c s' => if is_digit c then let '(d, rest) := span_digits s' in (String c d, rest) else ("", s)
  end.

(** "0|[1-9][0-9]*". *)
Definition span_int (s : string) : option (string * string) :=
  match s with
  | String c s' =>
      if (code c =? 48)%nat then Some (String c EmptyString, s')
      else if is_digit c then Some (span_digits s) else None
  | EmptyString => None
  end.

(** "(\.[0-9]+)?". *)
Definition span_frac (s : string) : string * string :=
  match s with
  | String c s' =>
      if (code c =? 46)%nat then
        match span_digits s' with (EmptyString, _) => ("", s) | (d, rest) => (String c d, rest) end
      else ("", s)
  | EmptyString => ("", s)
  end.

(** "([eE][-+]?[0-9]+)?". *)
Definition span_exp (s : string) : string * string :=
  match s with
  | String c s' =>
      if (code c =? 101)%nat || (code c =? 69)%nat then
        let '(sign, s'') := match s' with
                            | String g r => if (code g =? 43)%nat || (code g =? 45)%nat then (String g EmptyString, r) else ("", s')
                            | EmptyString => ("", s')
                            end in
        match span_digits s'' with (EmptyString, _) => ("", s) | (d, rest) => (String c sign +:+ d, rest) end
      else ("", s)
  | EmptyString => ("", s)
  end.

Section Reader.
Context (float_of : string -> spec_float).

(** The longest number literal, after its sign. *)
Definition scan_unsigned (negative : bool) (s : string) : option (pyval * string) :=
  '(int, s) ← span_int s;
  let '(frac, s) := span_frac s in
  let '(exp, s) := span_exp s in
  if String.eqb frac "" && String.eqb exp "" then
    Some (PInt (if negative then - digits_value 0 int else digits_value 0 int), s)
  else Some (PFloat (float_of ((if negative then "-" else "") +:+ int +:+ frac +:+ exp)), s).

Definition scan_number (s : string) : option (pyval * string) :=
  match s with
  | String c s' => if (code c =? 45)%nat then scan_unsigned true s' else scan_unsigned false s
  | EmptyString => None
  end.

(** "s.startswith(word)" and what follows. *)
Fixpoint after (word s : string) : option string :=
  match word, s with
  | EmptyString, _ => Some s
  | String a word, String b s => if Ascii.eqb a b then after word s else None
  | _, _ => None
  end.

Definition constants : list (string * pyval) :=
  [("null", PNone); ("true", PBool true); ("false", PBool false); ("NaN", PFloat S754_nan);
   ("Infinity", PFloat (S754_infinity false)); ("-Infinity", PFloat (S754_infinity true))].

Fixpoint scan_constant (l : list (string * pyval)) (s : string) : option (pyval * string) :=
  match l with
  | [] => None
  | (word, v) :: l => match after word s with Some rest => Some (v, rest) | None => scan_constant l s end
  end.

Definition scan_atom (s : string) : option (pyval * string) :=
  match scan_number s with Some r => Some r | None => scan_constant constants s end.

(** ** Values *)

(** The first character, when it is the one asked for. *)
Definition expect (n : nat) (s : string) : option string :=
  match s with String c s => if (code c =? n)%nat then Some s else None | EmptyString => None end.

Inductive answer := | Read (v : pyval) (rest : string) | Malformed | OutOfFuel.

Definition answer_of (o : option (pyval * string)) : answer :=
  match o with Some (v, rest) => Read v rest | None => Malformed end.

(** A value; then, after "[" and a value, the rest of the elements; and after "{" or a
    comma, the entries, from the quote of a key. *)
Fixpoint value (fuel : nat) (s : string) : answer :=
  match fuel with
  | O => OutOfFuel
  | S fuel =>
      match s with
      | EmptyString => Malformed
      | String c r =>
          if (code c =? 34)%nat then
            match scan_string r with Some (t, rest) => Read (PStr t) rest | None => Malformed end
          else if (code c =? 91)%nat then
            let r := skip_ws r in
            match expect 93 r with Some rest => Read (PList []) rest | None => elements fuel [] r end
          else if (code c =? 123)%nat then
            let r := skip_ws r in
            match expect 125 r with
            | Some rest => Read (PDict []) rest
            | None => match expect 34 r with Some r => entries fuel [] r | None => Malformed end
            end
          else answer_of (scan_atom s)
      end
  end
with elements (fuel : nat) (acc : list pyval) (s : string) : answer :=
  match fuel with
  | O => OutOfFuel
  | S fuel =>
      match value fuel s with
      | Read v s =>
          let s := skip_ws s in
          match expect 93 s with
          | Some rest => Read (PList (acc ++ [v])) rest
          | None => match expect 44 s with
                    | Some s => elements fuel (acc ++ [v]) (skip_ws s)
                    | None => Malformed
                    end
          end
      | r => r
      end
  end
with entries (fuel : nat) (acc : pydict) (s : string) : answer :=
  match fuel with
  | O => OutOfFuel
  | S fuel =>
      match scan_string s with
      | None => Malformed
      | Some (k, s) =>
          match expect 58 (skip_ws s) with
          | None => Malformed
          | Some s =>
              match value fuel (skip_ws s) with
              | Read v s =>
                  let s := skip_ws s in
                  let acc := dict_set k v acc in
                  match expect 125 s with
                  | Some rest => Read (PDict acc) rest
                  | None => match expect 44 s with
                            | Some s => match expect 34 (skip_ws s) with
                                        | Some s => entries fuel acc s
                                        | None => Malformed
                                        end
                            | None => Malformed
                            end
                  end
              | r => r
              end
          end
      end
  end.

Definition fuel_for (s : string) : nat := S (2 * String.length s).

(** None where json.loads raises. *)
Definition json_loads (s : string) : option pyval :=
  match value (fuel_for s) (skip_ws s) with
  | Read v rest => if String.eqb (skip_ws rest) "" then Some v else None
  | _ => None
  end.

End Reader.

End JsonParse.

Example json_loads_ex :
  JsonParse.json_loads (fun _ => S754_nan)
    (" {" +:+ quote "a" +:+ " : [1, -20,null ], " +:+ chr 34 +:+ chr 92 +:+ "u00e9" +:+ chr 34 +:+ ":{}," +:+ quote "a" +:+ ":true}") =
  Some (PDict [("a", PBool true); ("é", PDict [])]).
Proof. vm_compute. reflexivity. Qed.

Example json_loads_rejects :
  map (JsonParse.json_loads (fun _ => S754_nan)) ["[1,]"; "01"; "{1:2}"; ""; "nul"; "1 2"; "-"] = repeat None 7.
Proof. vm_compute. reflexivity. Qed.
