(* ===== verification/JsonProps.v ===== *)
(** * Reading back what was written

    [json_loads] ends on every text, and reads the canonical text of a value back as the
    same value with the keys of its objects in order. *)

From Stdlib Require Import ZArith SpecFloat.
From stdpp Require Import pretty.
From S2P Require Import Prelude PyValue Text Json JsonParse.
Import JsonParse.

#[local] Open Scope string_scope.
#[local] Open Scope Z_scope.
#[local] Open Scope list_scope.

(** ** Strings *)

Lemma append_assoc a b c : a +:+ (b +:+ c) = (a +:+ b) +:+ c.
Proof. induction a as [|x a IH]; [done|]. by apply (f_equal (String x)). Qed.

Lemma append_nil s : s +:+ "" = s.
Proof. induction s as [|c s IH]; [done|]. by apply (f_equal (String c)). Qed.

Lemma append_length a b : String.length (a +:+ b) = (String.length a + String.length b)%nat.
Proof. induction a as [|c a IH]; [done|]. change (String c a +:+ b) with (String c (a +:+ b)). cbn [String.length]. lia. Qed.

Lemma append_cons c s t : String c s +:+ t = String c (s +:+ t).
Proof. done. Qed.

Lemma lstrip_length f s : (String.length (lstrip_while f s) <= String.length s)%nat.
Proof. induction s as [|c s IH]; cbn; [lia|]. destruct (f c); cbn; lia. Qed.

(** ** Ending *)

Lemma scan_string_length s t rest : scan_string s = Some (t, rest) -> (String.length rest < String.length s)%nat.
Proof.
  revert t rest. induction s as [s IH] using (induction_ltof1 _ String.length). unfold ltof in IH.
  assert (forall p s' t rest, (String.length s' < String.length s)%nat -> prepend p (scan_string s') = Some (t, rest) ->
    (String.length rest < String.length s)%nat) as Hp.
  { intros p s' t rest Hl H. unfold prepend in H. destruct (scan_string s') as [[t' r]|] eqn:E; [|discriminate].
    cbn in H. injection H as _ <-. apply IH in E; lia. }
  destruct s as [|c s]; [discriminate|]. cbn [scan_string]. intros t rest.
  destruct (_ =? 34)%nat; [intros [= <- <-]; cbn; lia|]. destruct (_ <? 32)%nat; [discriminate|].
  destruct (negb _); [apply Hp; cbn; lia|]. destruct s as [|e s]; [discriminate|].
  destruct (negb _); [destruct (escaped e); [apply Hp; cbn; lia|discriminate]|].
  destruct s as [|h1 [|h2 [|h3 [|h4 s]]]]; try discriminate.
  destruct (hex4 h1 h2 h3 h4) as [hi|]; [|discriminate]. cbn [mbind option_bind].
  assert (forall x, prepend x (scan_string s) = Some (t, rest) -> (String.length rest < S (S (S (S (S (S (String.length s)))))))%nat) as Hs.
  { intros x. apply Hp. cbn. lia. }
  destruct s as [|b [|u [|l1 [|l2 [|l3 [|l4 s']]]]]]; try (apply Hs).
  destruct (_ && _); [|apply Hs]. destruct (hex4 l1 l2 l3 l4) as [lo|]; [|discriminate]. cbn [mbind option_bind].
  destruct (low_surrogate lo); [apply Hp; cbn; lia|apply Hs].
Qed.

Lemma span_digits_length s d rest : span_digits s = (d, rest) -> String.length s = (String.length d + String.length rest)%nat.
Proof.
  revert d rest. induction s as [|c s IH]; cbn; intros d rest; [by intros [= <- <-]|]. destruct (is_digit c); [|by intros [= <- <-]].
  destruct (span_digits s) as [d' r]. intros [= <- <-]. cbn. by rewrite (IH d' r).
Qed.

Lemma span_int_length s d rest : span_int s = Some (d, rest) -> (String.length rest < String.length s)%nat.
Proof.
  destruct s as [|c s]; [discriminate|]. unfold span_int. destruct (_ =? 48)%nat; [intros [= <- <-]; cbn; lia|].
  destruct (is_digit c) eqn:Hc; [|discriminate]. intros [= H]. cbn in H. rewrite Hc in H. destruct (span_digits s) as [d' r] eqn:E.
  injection H as <- <-. apply span_digits_length in E. cbn. lia.
Qed.

Lemma span_frac_length s d rest : span_frac s = (d, rest) -> (String.length rest <= String.length s)%nat.
Proof.
  destruct s as [|c s]; [by intros [= <- <-]|]. unfold span_frac. destruct (_ =? 46)%nat; [|by intros [= <- <-]].
  destruct (span_digits s) as [[|x d'] r] eqn:E; intros [= <- <-]; apply span_digits_length in E; cbn in *; lia.
Qed.

Lemma span_exp_length s d rest : span_exp s = (d, rest) -> (String.length rest <= String.length s)%nat.
Proof.
  destruct s as [|c s]; [by intros [= <- <-]|]. unfold span_exp. destruct (_ || _); [|by intros [= <- <-]].
  assert (forall g r, (String.length r <= String.length s)%nat ->
    (match span_digits r with (EmptyString, _) => ("", String c s) | (d, rest) => (String c g +:+ d, rest) end) = (d, rest) ->
    (String.length rest <= S (String.length s))%nat) as Hr.
  { intros g r Hr. destruct (span_digits r) as [[|x d'] r'] eqn:E; intros [= <- <-]; apply span_digits_length in E; cbn in *; lia. }
  destruct s as [|g r]; [by apply Hr|]. destruct (_ || _); apply Hr; cbn; lia.
Qed.

Section Reader.
Context (float_of : string -> spec_float).

Lemma scan_number_length s v rest : scan_number float_of s = Some (v, rest) -> (String.length rest < String.length s)%nat.
Proof.
  assert (forall n s v rest, scan_unsigned float_of n s = Some (v, rest) -> (String.length rest < String.length s)%nat) as Hu.
  { intros n s' v' rest' H. unfold scan_unsigned in H. destruct (span_int s') as [[i s1]|] eqn:E1; [|discriminate].
    cbn [mbind option_bind] in H. destruct (span_frac s1) as [f s2] eqn:E2. destruct (span_exp s2) as [e s3] eqn:E3.
    apply span_int_length in E1. apply span_frac_length in E2. apply span_exp_length in E3.
    assert (rest' = s3) as -> by (by destruct (_ && _); injection H). lia. }
  destruct s as [|c s]; [discriminate|]. unfold scan_number. destruct (_ =? 45)%nat; intros H; apply Hu in H; cbn in *; lia.
Qed.

Lemma after_length word s rest : after word s = Some rest -> String.length s = (String.length word + String.length rest)%nat.
Proof.
  revert s. induction word as [|a word IH]; intros [|b s]; cbn; try discriminate; try (by intros [= <-]).
  destruct (Ascii.eqb a b); [|discriminate]. intros H%IH. lia.
Qed.

Lemma scan_atom_length s v rest : scan_atom float_of s = Some (v, rest) -> (String.length rest < String.length s)%nat.
Proof.
  unfold scan_atom. destruct (scan_number float_of s) as [[v' r]|] eqn:E; [intros [= <- <-]; by eapply scan_number_length|].
  assert (forall l, Forall (fun wv => String.length wv.1 <> O) l -> scan_constant l s = Some (v, rest) -> (String.length rest < String.length s)%nat) as Hc.
  { induction 1 as [|[w x] l Hw _ IH]; [discriminate|]. cbn [scan_constant]. destruct (after w s) as [r|] eqn:Ha; [|done].
    intros [= <- <-]. apply after_length in Ha. cbn in Hw. lia. }
  apply Hc. by repeat constructor.
Qed.

Lemma expect_length n s rest : expect n s = Some rest -> String.length s = S (String.length rest).
Proof. destruct s as [|c s]; [discriminate|]. cbn. destruct (_ =? _)%nat; [by intros [= <-]|discriminate]. Qed.

Definition shorter (s : string) (a : answer) : Prop :=
  match a with Read _ rest => (String.length rest < String.length s)%nat | Malformed => True | OutOfFuel => False end.

Lemma fuel_enough fuel :
  (forall s, (2 * String.length s < fuel)%nat -> shorter s (value float_of fuel s)) /\
  (forall acc s, (2 * String.length s + 1 < fuel)%nat -> shorter s (elements float_of fuel acc s)) /\
  (forall acc s, (2 * String.length s < fuel)%nat -> shorter s (entries float_of fuel acc s)).
Proof.
  induction fuel as [|fuel (IHv & IHl & IHd)]; [repeat split; intros; lia|].
  assert (forall s r a, shorter r a -> (String.length r <= String.length s)%nat -> shorter s a) as Hle by (intros s r []; cbn; lia).
  split; [|split].
  - intros [|c s] Hf; [done|]. cbn [value]. cbn [String.length] in Hf. pose proof (lstrip_length is_ws s) as Hs. fold (skip_ws s) in Hs.
    destruct (_ =? 34)%nat.
    { destruct (scan_string s) as [[t r]|] eqn:E; [|done]. apply scan_string_length in E. cbn. lia. }
    destruct (_ =? 91)%nat.
    { destruct (expect 93 _) as [r|] eqn:E; [apply expect_length in E; cbn; lia|]. eapply Hle; [apply IHl; lia|cbn; lia]. }
    destruct (_ =? 123)%nat.
    { destruct (expect 125 _) as [r|] eqn:E; [apply expect_length in E; cbn; lia|].
      destruct (expect 34 _) as [r|] eqn:E'; [|done]. apply expect_length in E'. eapply Hle; [apply IHd; lia|cbn; lia]. }
    destruct (scan_atom float_of (String c s)) as [[v r]|] eqn:E; [|done]. by apply scan_atom_length in E.
  - intros acc s Hf. cbn [elements]. pose proof (IHv s ltac:(lia)) as Hv. destruct (value float_of fuel s) as [v r| |]; try done.
    cbn in Hv. pose proof (lstrip_length is_ws r) as Hr. fold (skip_ws r) in Hr.
    destruct (expect 93 _) as [r'|] eqn:E; [apply expect_length in E; cbn; lia|].
    destruct (expect 44 _) as [r'|] eqn:E'; [|done]. apply expect_length in E'. pose proof (lstrip_length is_ws r') as Hr'. fold (skip_ws r') in Hr'.
    eapply Hle; [apply IHl; lia|lia].
  - intros acc s Hf. cbn [entries]. destruct (scan_string s) as [[k r]|] eqn:E; [|done]. apply scan_string_length in E.
    pose proof (lstrip_length is_ws r) as Hr. fold (skip_ws r) in Hr. destruct (expect 58 _) as [r1|] eqn:E1; [|done]. apply expect_length in E1.
    pose proof (lstrip_length is_ws r1) as Hr1. fold (skip_ws r1) in Hr1. pose proof (IHv (skip_ws r1) ltac:(lia)) as Hv.
    destruct (value float_of fuel _) as [v r2| |]; try done. cbn in Hv. pose proof (lstrip_length is_ws r2) as Hr2. fold (skip_ws r2) in Hr2.
    destruct (expect 125 _) as [r3|] eqn:E3; [apply expect_length in E3; cbn; lia|].
    destruct (expect 44 _) as [r3|] eqn:E3'; [|done]. apply expect_length in E3'. pose proof (lstrip_length is_ws r3) as Hr3. fold (skip_ws r3) in Hr3.
    destruct (expect 34 _) as [r4|] eqn:E4; [|done]. apply expect_length in E4. eapply Hle; [apply IHd; lia|lia].
Qed.

(** Json.loads ends on every text: the fuel given is never used up. *)
Lemma json_loads_total s : value float_of (fuel_for s) (skip_ws s) <> OutOfFuel.
Proof.
  pose proof (lstrip_length is_ws s) as Hs. fold (skip_ws s) in Hs. destruct (fuel_enough (fuel_for s)) as (Hv & _ & _).
  intros H. specialize (Hv (skip_ws s)). rewrite H in Hv. apply Hv. unfold fuel_for. lia.
Qed.

End Reader.

(** ** Strings read back *)

Lemma scan_unicode h1 h2 h3 h4 hi t s :
  hex4 h1 h2 h3 h4 = Some hi -> high_surrogate hi = false -> utf8 hi = t ->
  scan_string (String (Ascii.ascii_of_nat 92) (String (Ascii.ascii_of_nat 117) (String h1 (String h2 (String h3 (String h4 s)))))) =
    prepend t (scan_string s).
Proof.
  intros Hh Hs <-. cbn [scan_string]. change (code (Ascii.ascii_of_nat 92)) with 92%nat. change (code (Ascii.ascii_of_nat 117)) with 117%nat.
  cbn [Nat.eqb Nat.ltb Nat.leb negb]. rewrite Hh. cbn [mbind option_bind]. rewrite Hs. cbn [andb].
  by destruct s as [|b [|u [|l1 [|l2 [|l3 [|l4 s']]]]]].
Qed.

Lemma scan_char c s : scan_string (escape_char c +:+ s) = prepend (String c EmptyString) (scan_string s).
Proof.
  destruct c as [[] [] [] [] [] [] [] []]; first [reflexivity|eapply scan_unicode; reflexivity].
Qed.

Lemma scan_quoted s rest : scan_string (escape s +:+ chr 34 +:+ rest) = Some (s, rest).
Proof.
  induction s as [|c s IH]; [done|]. cbn [escape]. rewrite <-append_assoc, scan_char, IH. done.
Qed.

(** ** Numbers read back *)

(** What may follow a number: nothing that would continue it. *)
Definition stops (rest : string) : bool :=
  match rest with
  | EmptyString => true
  | String c _ => negb (is_digit c || bool_decide (code c ∈ [43; 45; 46; 69; 101]%nat))
  end.

Section Stops.
Context (rest : string) (Hrest : stops rest = true).

Lemma span_digits_stops : span_digits rest = ("", rest).
Proof.
  destruct rest as [|c r]; [done|]. cbn [stops] in Hrest. apply negb_true_iff, orb_false_iff in Hrest as [Hd _]. cbn. by rewrite Hd.
Qed.

Lemma span_frac_stops : span_frac rest = ("", rest).
Proof.
  destruct rest as [|c r]; [done|]. cbn [stops] in Hrest. apply negb_true_iff, orb_false_iff in Hrest as [_ Hd]. unfold span_frac.
  destruct (Nat.eqb_spec (code c) 46) as [He|]; [by rewrite He in Hd|done].
Qed.

Lemma span_exp_stops : span_exp rest = ("", rest).
Proof.
  destruct rest as [|c r]; [done|]. cbn [stops] in Hrest. apply negb_true_iff, orb_false_iff in Hrest as [_ Hd]. unfold span_exp.
  destruct (Nat.eqb_spec (code c) 101) as [He|]; [by rewrite He in Hd|]. destruct (Nat.eqb_spec (code c) 69) as [He|]; [by rewrite He in Hd|done].
Qed.

Lemma span_digits_app s d s' : span_digits s = (d, s') -> span_digits (s +:+ rest) = (d, s' +:+ rest).
Proof.
  revert d s'. induction s as [|c s IH]; cbn [span_digits]; intros d s'; [intros [= <- <-]; apply span_digits_stops|].
  rewrite append_cons. cbn [span_digits]. destruct (is_digit c); [|by intros [= <- <-]].
  destruct (span_digits s) as [d' r] eqn:E. intros [= <- <-]. by rewrite (IH d' r eq_refl).
Qed.

Lemma span_int_app s d s' : span_int s = Some (d, s') -> span_int (s +:+ rest) = Some (d, s' +:+ rest).
Proof.
  destruct s as [|c s]; [discriminate|]. rewrite append_cons. unfold span_int. destruct (_ =? 48)%nat; [by intros [= <- <-]|].
  destruct (is_digit c); [|discriminate]. intros [= H]. rewrite <-append_cons. f_equal. by apply span_digits_app.
Qed.

(** A fraction or an exponent: digits after a mark, or nothing. *)
Lemma marked_app (whole : string) g s d s' :
  (match span_digits s with (EmptyString, _) => ("", whole) | (d, r) => (g +:+ d, r) end) = (d, s') ->
  (match span_digits (s +:+ rest) with (EmptyString, _) => ("", whole +:+ rest) | (d, r) => (g +:+ d, r) end) = (d, s' +:+ rest).
Proof.
  destruct (span_digits s) as [d' r] eqn:E. rewrite (span_digits_app s d' r E). destruct d'; by intros [= <- <-].
Qed.

Lemma span_frac_app s d s' : span_frac s = (d, s') -> span_frac (s +:+ rest) = (d, s' +:+ rest).
Proof.
  destruct s as [|c s]; [intros [= <- <-]; apply span_frac_stops|]. rewrite append_cons. unfold span_frac.
  destruct (_ =? 46)%nat; [|by intros [= <- <-]]. rewrite <-append_cons. apply (marked_app (String c s) (String c EmptyString)).
Qed.

Lemma unsigned_stops :
  (match rest with
   | String g r => if (code g =? 43)%nat || (code g =? 45)%nat then (String g EmptyString, r) else ("", rest)
   | EmptyString => ("", rest)
   end) = ("", rest).
Proof.
  destruct rest as [|c r]; [done|]. cbn [stops] in Hrest. apply negb_true_iff, orb_false_iff in Hrest as [_ Hd].
  destruct (Nat.eqb_spec (code c) 43) as [He|]; [by rewrite He in Hd|]. destruct (Nat.eqb_spec (code c) 45) as [He|]; [by rewrite He in Hd|done].
Qed.

Lemma span_exp_app s d s' : span_exp s = (d, s') -> span_exp (s +:+ rest) = (d, s' +:+ rest).
Proof.
  destruct s as [|c s]; [intros [= <- <-]; apply span_exp_stops|]. rewrite append_cons. unfold span_exp.
  destruct (_ || _); [|by intros [= <- <-]]. rewrite <-append_cons. destruct s as [|g s].
  - change ("" +:+ rest) with rest. intros [= <- <-]. rewrite unsigned_stops, span_digits_stops. done.
  - rewrite append_cons. destruct (_ || _); [|rewrite <-append_cons]; apply (marked_app (String c (String g s))).
Qed.

Lemma scan_unsigned_app float_of n s v s' :
  scan_unsigned float_of n s = Some (v, s') -> scan_unsigned float_of n (s +:+ rest) = Some (v, s' +:+ rest).
Proof.
  unfold scan_unsigned. destruct (span_int s) as [[i s1]|] eqn:E1; [|discriminate]. rewrite (span_int_app s i s1 E1). cbn [mbind option_bind].
  destruct (span_frac s1) as [f s2] eqn:E2. rewrite (span_frac_app s1 f s2 E2).
  destruct (span_exp s2) as [e s3] eqn:E3. rewrite (span_exp_app s2 e s3 E3). by destruct (_ && _); intros [= <- <-].
Qed.

Lemma scan_number_app float_of s v s' :
  scan_number float_of s = Some (v, s') -> scan_number float_of (s +:+ rest) = Some (v, s' +:+ rest).
Proof.
  destruct s as [|c s]; [discriminate|]. rewrite append_cons. unfold scan_number. rewrite <-append_cons.
  destruct (_ =? 45)%nat; apply scan_unsigned_app.
Qed.

End Stops.

(** The digits of a number. *)
Lemma digits_value_app acc a b : digits_value acc (a +:+ b) = digits_value (digits_value acc a) b.
Proof. revert acc. induction a as [|c a IH]; intros acc; [done|]. rewrite append_cons. cbn. apply IH. Qed.

Lemma all_chars_app f a b : all_chars f (a +:+ b) = all_chars f a && all_chars f b.
Proof. induction a as [|c a IH]; [done|]. rewrite append_cons. cbn. by rewrite IH, andb_assoc. Qed.

Lemma pretty_char (x : N) : (x < 10)%N -> is_digit (pretty_N_char x) = true /\ digit_value (pretty_N_char x) = Z.of_N x /\
  (x <> 0%N -> (code (pretty_N_char x) =? 48)%nat = false).
Proof.
  intros Hx. assert (x = 0 \/ x = 1 \/ x = 2 \/ x = 3 \/ x = 4 \/ x = 5 \/ x = 6 \/ x = 7 \/ x = 8 \/ x = 9)%N as H by lia.
  repeat destruct H as [->|H]; [..|subst x]; repeat split; done.
Qed.

Lemma pretty_go (x : N) s :
  exists d, pretty_N_go x s = d +:+ s /\ all_chars is_digit d = true /\ digits_value 0 d = Z.of_N x /\
    (x <> 0%N -> exists c d', d = String c d' /\ (code c =? 48)%nat = false).
Proof.
  revert s. induction (N.lt_wf_0 x) as [x _ IH]; intros s. assert (x = 0 \/ 0 < x)%N as [->|Hx] by lia.
  { exists "". by rewrite pretty_N_go_0. }
  rewrite pretty_N_go_step by done. destruct (IH (x `div` 10)%N (N.div_lt x 10 Hx eq_refl) (String (pretty_N_char (x `mod` 10)) s)) as (d & Hd & Ha & Hv & Hn).
  destruct (pretty_char (x `mod` 10)) as (C1 & C2 & C3); [by apply N.mod_lt|].
  exists (d +:+ String (pretty_N_char (x `mod` 10)) ""). split; [by rewrite Hd, <-append_assoc|]. split; [|split].
  - rewrite all_chars_app, Ha. cbn [all_chars]. by rewrite C1.
  - rewrite digits_value_app, Hv. cbn [digits_value]. rewrite C2, N2Z.inj_mod, N2Z.inj_div. pose proof (Z.div_mod (Z.of_N x) 10 ltac:(lia)). lia.
  - intros _. destruct (decide (x `div` 10 = 0)%N) as [H0|H0].
    + exists (pretty_N_char (x `mod` 10)), "". split; [|apply C3; pose proof (N.div_mod x 10 ltac:(lia)); lia].
      assert (d = "") as ->; [|done]. rewrite H0 in Hd. rewrite pretty_N_go_0 in Hd.
      apply (f_equal String.length) in Hd. rewrite append_length in Hd. destruct d; [done|cbn in Hd; lia].
    + destruct (Hn H0) as (c & d' & -> & Hc). by exists c, (d' +:+ String (pretty_N_char (x `mod` 10)) "").
Qed.

Lemma span_all d : all_chars is_digit d = true -> span_digits d = (d, "").
Proof. induction d as [|c d IH]; [done|]. cbn. intros [-> H]%andb_true_iff. by rewrite (IH H). Qed.

Lemma scan_positive float_of n p :
  scan_unsigned float_of n (pretty (N.pos p)) = Some (PInt (if n : bool then Z.neg p else Z.pos p), "").
Proof.
  change (pretty (N.pos p)) with (pretty_N_go (N.pos p) ""). destruct (pretty_go (N.pos p) "") as (d & -> & Ha & Hv & Hn).
  rewrite append_nil. destruct (Hn ltac:(done)) as (c & d' & -> & Hc). unfold scan_unsigned, span_int. rewrite Hc.
  pose proof Ha as Ha'. cbn [all_chars] in Ha'. apply andb_true_iff in Ha' as [-> _]. rewrite (span_all _ Ha). cbn [mbind option_bind span_frac span_exp String.eqb andb].
  rewrite Hv. by destruct n.
Qed.

Lemma scan_pretty float_of z : scan_number float_of (pretty z) = Some (PInt z, "").
Proof.
  destruct z as [|p|p]; [done| |].
  - pose proof (scan_positive float_of false p) as H. change (pretty (Z.pos p)) with (pretty (N.pos p)).
    unfold scan_number. destruct (pretty (N.pos p)) as [|c s] eqn:E; [discriminate|].
    destruct (Nat.eqb_spec (code c) 45) as [Hc|]; [|done]. exfalso. unfold scan_unsigned, span_int in H.
    rewrite Hc in H. unfold is_digit, in_range in H. by rewrite Hc in H.
  - change (pretty (Z.neg p)) with (String (Ascii.ascii_of_nat 45) (pretty (N.pos p))). unfold scan_number. apply (scan_positive float_of true p).
Qed.

(** ** Sorting by key *)

Section SortKeys.
Context {A B : Type} (P : string * A -> string * B -> Prop) (HP : forall a b, P a b -> a.1 = b.1).

Lemma list_merge_Forall2 l1 k1 l2 k2 :
  Forall2 P l1 k1 -> Forall2 P l2 k2 -> Forall2 P (list_merge entry_le l1 l2) (list_merge entry_le k1 k2).
Proof.
  intros H1. revert l2 k2. induction H1 as [|a b l1 k1 Hab H1 IH1]; intros l2 k2 H2; [by rewrite !list_merge_nil_l|].
  induction H2 as [|c d l2 k2 Hcd H2 IH2]; [rewrite !list_merge_nil_r; by constructor|]. rewrite !list_merge_cons.
  assert (entry_le a c <-> entry_le b d) as Hle by (unfold entry_le; by rewrite (HP a b Hab), (HP c d Hcd)).
  destruct (decide (entry_le a c)), (decide (entry_le b d)); try tauto; constructor; [done|apply IH1; by constructor|done|exact IH2].
Qed.

#[local] Abbreviation same_stack := (Forall2 (option_Forall2 (Forall2 P))).

Lemma to_stack_Forall2 st st' l k :
  same_stack st st' -> Forall2 P l k -> same_stack (merge_list_to_stack entry_le st l) (merge_list_to_stack entry_le st' k).
Proof.
  intros Hst. revert l k. induction Hst as [|o o' st st' Ho Hst IH]; intros l k Hl; cbn [merge_list_to_stack]; [by repeat constructor|].
  destruct Ho as [x y Hxy|]; constructor; try done; [by constructor| |by constructor]. apply IH. by apply list_merge_Forall2.
Qed.

Lemma stack_Forall2 st st' : same_stack st st' -> Forall2 P (merge_stack entry_le st) (merge_stack entry_le st').
Proof.
  induction 1 as [|o o' st st' Ho _ IH]; cbn [merge_stack]; [constructor|]. destruct Ho; [by apply list_merge_Forall2|done].
Qed.

Lemma merge_sort_Forall2 l k : Forall2 P l k -> Forall2 P (merge_sort entry_le l) (merge_sort entry_le k).
Proof.
  unfold merge_sort. enough (forall st st', same_stack st st' -> Forall2 P l k ->
    Forall2 P (merge_sort_aux entry_le st l) (merge_sort_aux entry_le st' k)) as H by (apply H; constructor).
  intros st st' Hst Hl. revert st st' Hst. induction Hl as [|a b l k Hab _ IH]; intros st st' Hst; cbn [merge_sort_aux]; [by apply stack_Forall2|].
  apply IH. apply to_stack_Forall2; [done|by repeat constructor].
Qed.

End SortKeys.

(** ** Values read back *)

(** The same value with the keys of every object in order. *)
Fixpoint canon (v : pyval) : pyval :=
  match v with
  | PList l => PList (map canon l)
  | PDict d => PDict (merge_sort entry_le (map (fun kv => (kv.1, canon kv.2)) d))
  | v => v
  end.

(** No object of the value has a key twice: what a dict can hold. *)
Fixpoint keys_ok (v : pyval) : bool :=
  match v with
  | PList l => forallb keys_ok l
  | PDict d => bool_decide (NoDup d.*1) && forallb (fun kv => keys_ok kv.2) d
  | _ => true
  end.

Definition canon_entry (kv : string * pyval) : string * pyval := (kv.1, canon kv.2).

Lemma canon_dict d : canon (PDict d) = PDict (map canon_entry (merge_sort entry_le d)).
Proof.
  cbn [canon]. f_equal. assert (Forall2 (fun a b => b = canon_entry a) d (map canon_entry d)) as H.
  { induction d; by constructor. }
  apply merge_sort_Forall2 in H; [|by intros a b ->]. change (map (fun kv => (kv.1, canon kv.2)) d) with (map canon_entry d).
  induction H as [|a b l k -> _ IH]; [done|]. cbn. by f_equal.
Qed.

(** The first character of what reads as a value is none of these. *)
Lemma value_begins float_of fuel s v rest :
  value float_of fuel s = Read v rest -> skip_ws s = s /\ expect 93 s = None /\ expect 125 s = None.
Proof.
  destruct fuel as [|fuel]; [discriminate|]. destruct s as [|c s]; [discriminate|]. intros H.
  assert (forall c', c' ∈ map Ascii.ascii_of_nat [32; 9; 10; 13; 93; 125]%nat -> c <> c') as Hc.
  { intros c' Hc' ->. repeat (apply elem_of_cons in Hc' as [->|Hc']; [discriminate|]). by apply not_elem_of_nil in Hc'. }
  assert (forall n, n ∈ [32; 9; 10; 13; 93; 125]%nat -> code c <> n) as Hn.
  { intros n Hn He. apply (Hc c); [|done]. apply list_elem_of_fmap. exists n. split; [|done]. rewrite <-He. symmetry. apply Ascii.ascii_nat_embedding. }
  split; [|split].
  - unfold skip_ws. cbn. unfold is_ws. rewrite bool_decide_eq_false_2; [done|]. intros He. apply (Hn (code c)); [|done]. set_solver.
  - cbn. rewrite (proj2 (Nat.eqb_neq _ _)); [done|]. apply Hn. set_solver.
  - cbn. rewrite (proj2 (Nat.eqb_neq _ _)); [done|]. apply Hn. set_solver.
Qed.

Lemma quote_inj a b : chr 34 +:+ a = chr 34 +:+ b -> a = b.
Proof. by intros [= H]. Qed.

Section RoundTrip.
Context (float_repr : spec_float -> string) (float_of : string -> spec_float).

(** "float(repr(f)) == f": repr prints one literal with a point or an exponent. *)
Definition reads_back (f : spec_float) : Prop :=
  float_finite f = true -> scan_number float_of (float_repr f) = Some (PFloat f, "").

(** Every float of a value reads back. *)
Fixpoint floats_ok (v : pyval) : Prop :=
  match v with
  | PFloat f => reads_back f
  | PList l => (fix go l := match l with [] => True | x :: l => floats_ok x /\ go l end) l
  | PDict d => (fix go (d : pydict) := match d with [] => True | (_, x) :: d => floats_ok x /\ go d end) d
  | _ => True
  end.

#[local] Abbreviation dumps := (json_dumps float_repr).
#[local] Abbreviation value := (value float_of).

Definition entry_dump (kv : string * pyval) : result (string * string) :=
  t ← dumps kv.2; Ok (kv.1, quote kv.1 +:+ ":" +:+ t).

Lemma dumps_list l : dumps (PList l) = (texts ← mapM_result dumps l; Ok ("[" +:+ comma_sep texts +:+ "]")).
Proof.
  cbn [json_dumps]. apply (f_equal (fun m : result _ => texts ← m; Ok ("[" +:+ comma_sep texts +:+ "]"))).
  induction l as [|v l IH]; [done|]. cbn [mapM_result]. by rewrite <-IH.
Qed.

Lemma dumps_dict d :
  dumps (PDict d) = (texts ← mapM_result entry_dump d; Ok ("{" +:+ comma_sep (merge_sort entry_le texts).*2 +:+ "}")).
Proof.
  cbn [json_dumps]. apply (f_equal (fun m : result _ => texts ← m; Ok ("{" +:+ comma_sep (merge_sort entry_le texts).*2 +:+ "}"))).
  induction d as [|[k v] d IH]; [done|]. cbn [mapM_result]. rewrite <-IH. unfold entry_dump. cbn [fst snd]. by destruct (dumps v).
Qed.

(** The text [t] reads as the value [v], whatever stops it. *)
Definition reads (v : pyval) (t : string) : Prop :=
  forall rest fuel, stops rest = true -> (2 * String.length (t +:+ rest) < fuel)%nat -> value fuel (t +:+ rest) = Read v rest.

Lemma reads_atom v t : scan_number float_of t = Some (v, "") -> reads v t.
Proof.
  intros H rest fuel Hs Hf. apply (scan_number_app rest Hs) in H. change ("" +:+ rest) with rest in H.
  destruct fuel as [|fuel]; [lia|]. destruct (t +:+ rest) as [|c s]; [discriminate|]. cbn [JsonParse.value].
  assert (forall n, n ∈ [34; 91; 123]%nat -> (code c =? n)%nat = false) as Hc.
  { intros n Hn. apply Nat.eqb_neq. intros He. unfold scan_number, scan_unsigned, span_int, is_digit, in_range in H. rewrite He in H.
    set_unfold in Hn. by destruct Hn as [->|[->|[->|[]]]]. }
  rewrite !Hc by set_solver. unfold scan_atom. by rewrite H.
Qed.

Lemma reads_elements vs ts acc rest fuel :
  Forall2 reads vs ts -> vs <> [] -> (2 * String.length (comma_sep ts +:+ "]" +:+ rest) + 1 < fuel)%nat ->
  elements float_of fuel acc (comma_sep ts +:+ "]" +:+ rest) = Read (PList (acc ++ vs)) rest.
Proof.
  intros H. revert acc fuel. induction H as [|v t vs ts Hv H IH]; intros acc fuel Hne Hf; [done|].
  destruct fuel as [|fuel]; [lia|]. cbn [elements]. destruct H as [|v2 t2 vs ts Hv2 H].
  - cbn [comma_sep] in *. rewrite Hv by (done || lia). done.
  - change (comma_sep (t :: t2 :: ts)) with (t +:+ "," +:+ comma_sep (t2 :: ts)) in *. rewrite <-!append_assoc in *.
    rewrite Hv by (done || lia). rewrite !append_length in Hf. cbn [String.length] in Hf.
    set (next := comma_sep (t2 :: ts) +:+ "]" +:+ rest) in *.
    assert ((2 * String.length next + 1 < fuel)%nat) as Hfuel by (unfold next; rewrite !append_length; cbn [String.length]; lia).
    specialize (IH (acc ++ [v]) fuel ltac:(done) Hfuel). rewrite <-app_assoc in IH.
    assert (skip_ws next = next) as Hskip.
    { destruct fuel as [|fuel]; [lia|]. cbn [elements] in IH. destruct (value fuel next) as [v' r| |] eqn:Hval; try discriminate.
      by apply value_begins in Hval as (? & _). }
    change (skip_ws ("," +:+ next)) with (String (Ascii.ascii_of_nat 44) next). cbn [expect]. 
    change (code (Ascii.ascii_of_nat 44)) with 44%nat. cbn [Nat.eqb]. rewrite Hskip. exact IH.
Qed.

(** The text [e] between quotes reads as the string [s]. *)
Definition string_reads (s e : string) : Prop := forall rest, scan_string (e +:+ chr 34 +:+ rest) = Some (s, rest).

Definition between_quotes (e : string) : string := chr 34 +:+ e +:+ chr 34.

Lemma reads_string s e : string_reads s e -> reads (PStr s) (between_quotes e).
Proof.
  intros H rest [|fuel] Hs Hf; [lia|]. unfold between_quotes. rewrite <-!append_assoc.
  change (chr 34 +:+ e +:+ chr 34 +:+ rest) with (String (Ascii.ascii_of_nat 34) (e +:+ chr 34 +:+ rest)).
  cbn [JsonParse.value]. change (code (Ascii.ascii_of_nat 34)) with 34%nat. cbn [Nat.eqb]. by rewrite H.
Qed.

Definition entry_reads (kv : string * pyval) (kt : string * string) : Prop :=
  kt.1 = kv.1 /\ exists e t, kt.2 = between_quotes e +:+ ":" +:+ t /\ string_reads kv.1 e /\ reads kv.2 t.

(** The entries of an object begin with the quote of a key. *)
Lemma entries_begin d ts tail :
  Forall2 entry_reads d ts -> d <> [] -> exists s, comma_sep ts.*2 +:+ tail = chr 34 +:+ s.
Proof.
  intros H Hne. destruct H as [|kv kt d ts (_ & e & t & Ht & _) _]; [done|]. csimpl. rewrite Ht. unfold between_quotes.
  destruct (ts.*2) as [|t2 l]; rewrite <-!append_assoc; by eexists.
Qed.

Lemma reads_entries d ts acc rest fuel s :
  Forall2 entry_reads d ts -> d <> [] -> NoDup (acc ++ d).*1 ->
  comma_sep ts.*2 +:+ "}" +:+ rest = chr 34 +:+ s -> (2 * String.length s < fuel)%nat ->
  entries float_of fuel acc s = Read (PDict (acc ++ d)) rest.
Proof.
  intros H. revert acc fuel s. induction H as [|[k v] [k' t] d ts (Hk & e & u & Ht & He & Hv) H IH]; intros acc fuel s Hne Hnd Hs Hf; [done|].
  cbn [fst snd] in *. subst k' t. destruct fuel as [|fuel]; [lia|]. cbn [entries].
  assert (k ∉ acc.*1) as Hfresh.
  { rewrite fmap_app in Hnd. apply NoDup_app in Hnd as (_ & Hd & _). intros Hin. apply (Hd k Hin). left. }
  assert (forall v, dict_set k v acc = acc ++ [(k, v)]) as Hset.
  { clear -Hfresh. induction acc as [|[k1 v1] acc IH]; [done|]. intros v. cbn in *. apply not_elem_of_cons in Hfresh as [Hne Hf].
    rewrite decide_False by done. by rewrite IH. }
  assert (NoDup ((acc ++ [(k, v)]) ++ d).*1) as Hnd' by by rewrite <-app_assoc.
  destruct H as [|kv2 kt2 d ts H2 H].
  - cbn [comma_sep fmap list_fmap fst snd] in Hs. unfold between_quotes in Hs. rewrite <-!append_assoc in Hs. apply quote_inj in Hs as <-.
    rewrite He. change (expect 58 (skip_ws (":" +:+ u +:+ "}" +:+ rest))) with (Some (u +:+ "}" +:+ rest)). cbv iota.
    assert (value fuel (u +:+ "}" +:+ rest) = Read v ("}" +:+ rest)) as Hval.
    { apply Hv; [done|]. rewrite !append_length in *. cbn [String.length] in *. lia. }
    destruct (value_begins _ _ _ _ _ Hval) as (-> & _). rewrite Hval. by rewrite Hset.
  - destruct (entries_begin (kv2 :: d) (kt2 :: ts) ("}" +:+ rest) ltac:(by constructor) ltac:(done)) as (s2 & Hs2).
    change (comma_sep (((k, between_quotes e +:+ ":" +:+ u) :: kt2 :: ts).*2)) with
      ((between_quotes e +:+ ":" +:+ u) +:+ "," +:+ comma_sep ((kt2 :: ts).*2)) in Hs.
    unfold between_quotes in Hs. rewrite <-!append_assoc, Hs2 in Hs. apply quote_inj in Hs as <-.
    rewrite He. change (expect 58 (skip_ws (":" +:+ u +:+ "," +:+ chr 34 +:+ s2))) with (Some (u +:+ "," +:+ chr 34 +:+ s2)). cbv iota.
    assert (value fuel (u +:+ "," +:+ chr 34 +:+ s2) = Read v ("," +:+ chr 34 +:+ s2)) as Hval.
    { apply Hv; [done|]. rewrite !append_length in *. cbn [String.length] in *. lia. }
    destruct (value_begins _ _ _ _ _ Hval) as (-> & _). rewrite Hval, Hset.
    change (expect 125 (skip_ws ("," +:+ chr 34 +:+ s2))) with (@None string).
    change (expect 44 (skip_ws ("," +:+ chr 34 +:+ s2))) with (Some (chr 34 +:+ s2)).
    cbv iota beta zeta. change (expect 34 (skip_ws (chr 34 +:+ s2))) with (Some s2). cbv iota.
    rewrite (IH _ fuel s2); [by rewrite <-app_assoc|done|done|done|]. rewrite !append_length in Hf. cbn [String.length] in Hf. lia.
Qed.

Lemma reads_list vs ts : Forall2 reads vs ts -> reads (PList vs) ("[" +:+ comma_sep ts +:+ "]").
Proof.
  intros Hall rest fuel Hs Hf. rewrite <-!append_assoc in *. destruct fuel as [|fuel]; [lia|].
  change ("[" +:+ comma_sep ts +:+ "]" +:+ rest) with (String (Ascii.ascii_of_nat 91) (comma_sep ts +:+ "]" +:+ rest)) in *.
  cbn [JsonParse.value]. change (code (Ascii.ascii_of_nat 91)) with 91%nat. cbn [Nat.eqb String.length] in *.
  destruct (decide (vs = [])) as [->|Hne]; [by apply Forall2_nil_inv_l in Hall as ->|].
  pose proof (reads_elements _ _ [] rest fuel Hall Hne ltac:(lia)) as He.
  assert (exists v r, value (pred fuel) (comma_sep ts +:+ "]" +:+ rest) = Read v r) as (v & r & Hval).
  { destruct fuel as [|fuel]; [discriminate|]. cbn [elements] in He. destruct (value fuel _) as [v r| |] eqn:E; try discriminate. by exists v, r. }
  destruct (value_begins _ _ _ _ _ Hval) as (-> & -> & _). exact He.
Qed.

Lemma reads_dict d ts : Forall2 entry_reads d ts -> NoDup d.*1 -> reads (PDict d) ("{" +:+ comma_sep ts.*2 +:+ "}").
Proof.
  intros Hall Hnd rest fuel Hs Hf. rewrite <-!append_assoc in *. destruct fuel as [|fuel]; [lia|].
  change ("{" +:+ comma_sep ts.*2 +:+ "}" +:+ rest) with (String (Ascii.ascii_of_nat 123) (comma_sep ts.*2 +:+ "}" +:+ rest)) in *.
  cbn [JsonParse.value]. change (code (Ascii.ascii_of_nat 123)) with 123%nat. cbn [Nat.eqb String.length] in *.
  destruct (decide (d = [])) as [->|Hne]; [by apply Forall2_nil_inv_l in Hall as ->|].
  destruct (entries_begin d ts ("}" +:+ rest) Hall Hne) as (s2 & Hs2).
  rewrite Hs2 in *. change (skip_ws (chr 34 +:+ s2)) with (chr 34 +:+ s2). change (expect 125 (chr 34 +:+ s2)) with (@None string).
  change (expect 34 (chr 34 +:+ s2)) with (Some s2). cbv iota zeta.
  rewrite (reads_entries d ts [] rest fuel s2); [done|done|done|done|done|].
  change (chr 34 +:+ s2) with (String (Ascii.ascii_of_nat 34) s2) in Hf. cbn [String.length] in Hf. lia.
Qed.

(** The entries of an object, written and then sorted. *)
Lemma reads_sorted d ts :
  Forall2 (fun kv kt => entry_reads (canon_entry kv) kt) d ts -> NoDup d.*1 ->
  reads (canon (PDict d)) ("{" +:+ comma_sep (merge_sort entry_le ts).*2 +:+ "}").
Proof.
  intros Hall Hnd. rewrite canon_dict. apply merge_sort_Forall2 in Hall; [|intros a b [He _]; by rewrite He].
  apply reads_dict; [by apply Forall2_fmap_l in Hall|].
  replace ((map canon_entry (merge_sort entry_le d)).*1) with ((merge_sort entry_le d).*1); [by rewrite merge_sort_Permutation|].
  clear. induction (merge_sort entry_le d) as [|a l IH]; [done|]. csimpl. by f_equal.
Qed.

Lemma reads_null rest_ok : reads PNone "null" /\ reads (PBool rest_ok) (if rest_ok then "true" else "false").
Proof. split; intros rest [|fuel] Hs Hf; try lia; by destruct rest, rest_ok. Qed.

Lemma dumps_reads v t : dumps v = Ok t -> keys_ok v = true -> floats_ok v -> reads (canon v) t.
Proof.
  revert t. induction v as [|b|z|f|s|l IH|d IH] using pyval_rect_nested; intros t Ht Hk Hf.
  - injection Ht as <-. apply (reads_null true).
  - injection Ht as <-. apply reads_null.
  - injection Ht as <-. apply reads_atom, scan_pretty.
  - cbn in Ht. destruct (float_finite f) eqn:Hff; [|discriminate]. injection Ht as <-. by apply reads_atom, Hf.
  - injection Ht as <-. apply reads_string. intros rest. apply scan_quoted.
  - rewrite dumps_list in Ht. apply result_bind_ok in Ht as (ts & Hts & Ht). injection Ht as <-. apply reads_list.
    revert ts Hts. induction IH as [|v l Hv _ IHl]; cbn; intros ts Hts; [by injection Hts as <-|].
    apply result_bind_ok in Hts as (t & Ht & Hts). apply result_bind_ok in Hts as (ts' & Hts' & Hts). injection Hts as <-.
    cbn in Hk. apply andb_true_iff in Hk as [Hk1 Hk2]. destruct Hf as [Hf1 Hf2]. constructor; [by apply Hv|by apply IHl].
  - rewrite dumps_dict in Ht. apply result_bind_ok in Ht as (ts & Hts & Ht). injection Ht as <-.
    cbn [keys_ok] in Hk. apply andb_true_iff in Hk as [Hnd Hk]. apply bool_decide_eq_true in Hnd. apply reads_sorted; [|done].
    clear Hnd. revert ts Hts. induction IH as [|[k v] d Hv _ IHd]; cbn [mapM_result]; intros ts Hts; [by injection Hts as <-|].
    apply result_bind_ok in Hts as (t & Ht & Hts). apply result_bind_ok in Hts as (ts' & Hts' & Hts). injection Hts as <-.
    cbn in Hk. apply andb_true_iff in Hk as [Hk1 Hk2]. destruct Hf as [Hf1 Hf2]. constructor; [|by apply IHd].
    unfold entry_dump in Ht. cbn [fst snd] in Ht. apply result_bind_ok in Ht as (u & Hu & Ht). injection Ht as <-.
    split; [done|]. exists (escape k), u. split; [done|]. split; [intros rest; apply scan_quoted|by apply Hv].
Qed.

(** A text that reads as a value is what json.loads finds. *)
Lemma reads_loads v t : reads v t -> json_loads float_of t = Some v.
Proof.
  intros H. unfold json_loads. assert (value (fuel_for t) t = Read v "") as Hv.
  { rewrite <-(append_nil t) at 2. apply H; [done|]. rewrite append_nil. unfold fuel_for. lia. }
  destruct (value_begins _ _ _ _ _ Hv) as (-> & _). by rewrite Hv.
Qed.

(** Writing and reading back: the canonical text of a value that a program can hold reads as that value, its
    objects with their keys in order. *)
Lemma json_round_trip v t : dumps v = Ok t -> keys_ok v = true -> floats_ok v -> json_loads float_of t = Some (canon v).
Proof. intros Ht Hk Hf. by apply reads_loads, dumps_reads. Qed.

End RoundTrip.

(** * Reading back ASCII output

    The text json.dumps writes by default, with every character outside ASCII escaped, reads
    as the same value, for strings of valid UTF-8. *)

From Stdlib Require Import ZArith SpecFloat.
From S2P Require Import Prelude PyValue Text Json JsonParse.
Import JsonParse.

#[local] Open Scope string_scope.
#[local] Open Scope Z_scope.
#[local] Open Scope list_scope.

(** ** Bits *)

Lemma split64 x y : (y < 64)%N -> ((x * 64 + y) / 64 = x)%N /\ ((x * 64 + y) mod 64 = y)%N.
Proof.
  intros Hy. split; [rewrite N.div_add_l by lia; rewrite N.div_small by done; lia|]. rewrite N.add_comm, N.Div0.mod_add. by apply N.mod_small.
Qed.

Lemma byte_at c n : n = Ascii.N_of_ascii c -> byte n = String c EmptyString.
Proof. intros ->. unfold byte. by rewrite Ascii.ascii_N_embedding. Qed.

(** The payload of a tail byte. *)
Lemma tail_spec c : tail_byte c = true -> exists y, tail_bits c = y /\ (y < 64)%N /\ Ascii.N_of_ascii c = (128 + y)%N.
Proof.
  unfold tail_byte, tail_bits. intros [H1 H2]%andb_true_iff. apply N.leb_le in H1. apply N.ltb_lt in H2.
  exists (Ascii.N_of_ascii c - 128)%N. set (n := Ascii.N_of_ascii c) in *. clearbody n.
  assert (n = 2 * 64 + (n - 128))%N as Hn by lia. split; [|lia]. rewrite Hn at 1. by apply split64; lia.
Qed.

Lemma lead_bits c base k : (k = 8 \/ k = 16 \/ k = 32)%N -> (N.div base k * k = base)%N ->
  (base <= Ascii.N_of_ascii c < base + k)%N -> exists x, (Ascii.N_of_ascii c mod k = x)%N /\ (x < k)%N /\ Ascii.N_of_ascii c = (base + x)%N.
Proof.
  intros Hk Hb [H1 H2]. exists (Ascii.N_of_ascii c - base)%N. set (n := Ascii.N_of_ascii c) in *. clearbody n. split; [|lia].
  assert (n = (n - base) + (base / k) * k)%N as Hn by lia. rewrite Hn at 1. rewrite N.Div0.mod_add. apply N.mod_small. lia.
Qed.

(** ** Escapes *)

Lemma hex_digit_value k : (k < 16)%N -> exists c, hex_digit (N.to_nat k) = String c EmptyString /\ hex_value c = Some k.
Proof.
  intros Hk. assert (k ∈ map N.of_nat (seq 0 16)) as Hin.
  { apply list_elem_of_In, in_map_iff. exists (N.to_nat k). split; [lia|]. apply in_seq. lia. }
  cbn in Hin. repeat (apply elem_of_cons in Hin as [->|Hin]; [by eexists|]). by apply not_elem_of_nil in Hin.
Qed.

Lemma u_escape_hex n : (n < 65536)%N ->
  exists a b c d, u_escape n = String (Ascii.ascii_of_nat 92) (String (Ascii.ascii_of_nat 117) (String a (String b (String c (String d ""))))) /\
    hex4 a b c d = Some n.
Proof.
  intros Hn.
  destruct (hex_digit_value (n / 4096)) as (a & Ha & Va); [apply N.Div0.div_lt_upper_bound; lia|].
  destruct (hex_digit_value (n / 256 mod 16)) as (b & Hb & Vb); [by apply N.mod_lt|].
  destruct (hex_digit_value (n / 16 mod 16)) as (c & Hc & Vc); [by apply N.mod_lt|].
  destruct (hex_digit_value (n mod 16)) as (d & Hd & Vd); [by apply N.mod_lt|].
  exists a, b, c, d. split; [unfold u_escape; by rewrite Ha, Hb, Hc, Hd|]. unfold hex4. rewrite Va, Vb, Vc, Vd. cbn [mbind option_bind]. f_equal.
  pose proof (N.div_mod n 16 ltac:(lia)) as H0. pose proof (N.div_mod (n / 16) 16 ltac:(lia)) as H1. pose proof (N.div_mod (n / 256) 16 ltac:(lia)) as H2.
  assert (n / 16 / 16 = n / 256)%N as E1 by by rewrite N.Div0.div_div. assert (n / 256 / 16 = n / 4096)%N as E2 by by rewrite N.Div0.div_div.
  rewrite E1 in H1. rewrite E2 in H2. lia.
Qed.

Lemma scan_u_escape n s : (n < 65536)%N -> high_surrogate n = false -> scan_string (u_escape n +:+ s) = prepend (utf8 n) (scan_string s).
Proof. intros Hn Hs. destruct (u_escape_hex n Hn) as (a & b & c & d & -> & Hh). by eapply scan_unicode. Qed.

Lemma scan_pair hi lo s :
  (hi < 65536)%N -> (lo < 65536)%N -> high_surrogate hi = true -> low_surrogate lo = true ->
  scan_string (u_escape hi +:+ u_escape lo +:+ s) = prepend (utf8 (paired hi lo)) (scan_string s).
Proof.
  intros H1 H2 Hhi Hlo. destruct (u_escape_hex hi H1) as (a & b & c & d & -> & Vh). destruct (u_escape_hex lo H2) as (a' & b' & c' & d' & -> & Vl).
  change (scan_string (String (Ascii.ascii_of_nat 92) (String (Ascii.ascii_of_nat 117) (String a (String b (String c (String d
    (String (Ascii.ascii_of_nat 92) (String (Ascii.ascii_of_nat 117) (String a' (String b' (String c' (String d' s)))))))))))) =
    prepend (utf8 (paired hi lo)) (scan_string s)).
  cbn [scan_string]. change (code (Ascii.ascii_of_nat 92)) with 92%nat. change (code (Ascii.ascii_of_nat 117)) with 117%nat.
  cbn [Nat.eqb Nat.ltb Nat.leb negb]. rewrite Vh. cbn [mbind option_bind]. rewrite Hhi. cbn [andb]. rewrite Vl. cbn [mbind option_bind]. by rewrite Hlo.
Qed.

Lemma scan_point n s :
  (n < 1114112)%N -> high_surrogate n = false -> scan_string (escape_point n +:+ s) = prepend (utf8 n) (scan_string s).
Proof.
  intros Hn Hs. unfold escape_point. destruct (N.ltb_spec n 65536) as [Hlt|Hge]; [by apply scan_u_escape|]. rewrite <-append_assoc.
  set (m := (n - 65536)%N). assert (n = 65536 + m)%N as Hnm by lia. assert (m < 1048576)%N as Hm by lia. clearbody m.
  assert (m / 1024 < 1024)%N as Hq by (apply N.Div0.div_lt_upper_bound; lia). assert (m mod 1024 < 1024)%N as Hr by by apply N.mod_lt.
  pose proof (N.div_mod m 1024 ltac:(lia)) as Hdm. set (q := (m / 1024)%N) in *. set (r := (m mod 1024)%N) in *. clearbody q r.
  rewrite scan_pair.
  - unfold paired. f_equal. f_equal. lia.
  - lia.
  - lia.
  - unfold high_surrogate. apply andb_true_iff. rewrite !N.leb_le. lia.
  - unfold low_surrogate. apply andb_true_iff. rewrite !N.leb_le. lia.
Qed.

(** ** Strings *)

Lemma prepend_byte c t r : prepend (String c EmptyString +:+ t) r = prepend (String c EmptyString) (prepend t r).
Proof. by destruct r as [[u rest]|]. Qed.

Lemma prepend_ok t s rest : prepend t (Some (s, rest)) = Some (t +:+ s, rest).
Proof. done. Qed.

(** A code point is written with the bytes it was read from. *)
Lemma utf8_two x y : (2 <= x < 32)%N -> (y < 64)%N -> utf8 (x * 64 + y) = byte (192 + x) +:+ byte (128 + y).
Proof.
  intros Hx Hy. destruct (split64 x y Hy) as [H1 H2]. unfold utf8. rewrite (proj2 (N.ltb_ge _ _)), (proj2 (N.ltb_lt _ _)) by lia. by rewrite H1, H2.
Qed.

Lemma utf8_three x y z : (x < 16)%N -> (y < 64)%N -> (z < 64)%N -> (2048 <= (x * 64 + y) * 64 + z)%N ->
  utf8 ((x * 64 + y) * 64 + z) = byte (224 + x) +:+ byte (128 + y) +:+ byte (128 + z).
Proof.
  intros Hx Hy Hz Hn. destruct (split64 (x * 64 + y) z Hz) as [H1 H2]. destruct (split64 x y Hy) as [H3 H4]. unfold utf8.
  rewrite (proj2 (N.ltb_ge _ _)), (proj2 (N.ltb_ge _ _)), (proj2 (N.ltb_lt _ _)) by lia.
  change 4096%N with (64 * 64)%N. rewrite <-N.Div0.div_div. by rewrite H1, H2, H3, H4.
Qed.

Lemma utf8_four x y z u : (x < 8)%N -> (y < 64)%N -> (z < 64)%N -> (u < 64)%N -> (65536 <= ((x * 64 + y) * 64 + z) * 64 + u)%N ->
  utf8 (((x * 64 + y) * 64 + z) * 64 + u) = byte (240 + x) +:+ byte (128 + y) +:+ byte (128 + z) +:+ byte (128 + u).
Proof.
  intros Hx Hy Hz Hu Hn. destruct (split64 ((x * 64 + y) * 64 + z) u Hu) as [H1 H2]. destruct (split64 (x * 64 + y) z Hz) as [H3 H4].
  destruct (split64 x y Hy) as [H5 H6]. unfold utf8.
  rewrite (proj2 (N.ltb_ge _ _)), (proj2 (N.ltb_ge _ _)), (proj2 (N.ltb_ge _ _)) by lia.
  change 262144%N with (64 * (64 * 64))%N. change 4096%N with (64 * 64)%N. rewrite <-!N.Div0.div_div. by rewrite H1, H2, H3, H4, H5, H6.
Qed.

Lemma ascii_string_reads s : utf8_ok s = true -> string_reads s (escape_ascii s).
Proof.
  induction s as [s IH] using (induction_ltof1 _ String.length). unfold ltof in IH. intros Hok rest.
  destruct s as [|a r]; [done|]. cbn [escape_ascii utf8_ok] in *. set (n := Ascii.N_of_ascii a) in *.
  destruct (N.eqb_spec n 127) as [H127|_].
  { rewrite <-append_assoc, scan_u_escape by (rewrite H127; done). rewrite (proj2 (N.ltb_lt n 128)) in Hok by lia.
    rewrite IH by (done || cbn; lia). rewrite prepend_ok, H127. change (utf8 127) with (byte 127). by rewrite (byte_at a 127) by done. }
  destruct (N.ltb_spec n 128) as [H128|H128].
  { rewrite <-append_assoc, scan_char. by rewrite IH by (done || cbn; lia). }
  destruct (N.ltb_spec n 194) as [|H194]; [done|]. destruct (N.ltb_spec n 224) as [H224|H224].
  { destruct r as [|b r]; [done|]. apply andb_true_iff in Hok as [Hb Hok]. destruct (tail_spec b Hb) as (y & Hy & Hy' & Nb).
    destruct (lead_bits a 192 32) as (x & Hx & Hx' & Na); [auto|done|fold n; lia|]. fold n in Hx, Na. rewrite Hx, Hy, <-append_assoc.
    rewrite scan_point; [|lia|unfold high_surrogate; apply andb_false_iff; left; apply N.leb_gt; lia].
    rewrite IH by (done || cbn; lia). rewrite prepend_ok, utf8_two by lia. rewrite (byte_at a), (byte_at b) by done. done. }
  destruct (N.ltb_spec n 240) as [H240|H240].
  { destruct r as [|b [|c r]]; try done. rewrite !andb_true_iff in Hok. destruct Hok as ((((Hb & Hc) & Hn1) & Hn2) & Hok).
    destruct (tail_spec b Hb) as (y & Hy & Hy' & Nb). destruct (tail_spec c Hc) as (z & Hz & Hz' & Nc).
    destruct (lead_bits a 224 16) as (x & Hx & Hx' & Na); [auto|done|fold n; lia|]. fold n in Hx, Na. rewrite Hx, Hy, Hz, <-append_assoc.
    rewrite Nb, Na in *.
    repeat match goal with H : negb (_ && _) = true |- _ => apply negb_true_iff, andb_false_iff in H end.
    rewrite ?N.eqb_neq, ?N.ltb_ge, ?N.leb_gt in *.
    rewrite scan_point; [|lia|unfold high_surrogate; apply andb_false_iff; rewrite !N.leb_gt; lia].
    rewrite IH by (done || cbn; lia). rewrite prepend_ok, utf8_three by lia. rewrite (byte_at a), (byte_at b), (byte_at c) by done. done. }
  destruct (N.ltb_spec n 245) as [H245|H245]; [|done]. destruct r as [|b [|c [|d r]]]; try done.
  rewrite !andb_true_iff in Hok. destruct Hok as (((((Hb & Hc) & Hd) & Hn1) & Hn2) & Hok).
  destruct (tail_spec b Hb) as (y & Hy & Hy' & Nb). destruct (tail_spec c Hc) as (z & Hz & Hz' & Nc). destruct (tail_spec d Hd) as (u & Hu & Hu' & Nd).
  destruct (lead_bits a 240 8) as (x & Hx & Hx' & Na); [auto|done|fold n; lia|]. fold n in Hx, Na. rewrite Hx, Hy, Hz, Hu, <-append_assoc.
  rewrite Nb, Na in *. repeat match goal with H : negb (_ && _) = true |- _ => apply negb_true_iff, andb_false_iff in H end.
  rewrite ?N.eqb_neq, ?N.ltb_ge, ?N.leb_gt in *.
  rewrite scan_point; [|lia|unfold high_surrogate; apply andb_false_iff; rewrite !N.leb_gt; lia].
  rewrite IH by (done || cbn; lia). rewrite prepend_ok, utf8_four by lia. rewrite (byte_at a), (byte_at b), (byte_at c), (byte_at d) by done. done.
Qed.

(** ** The text is ASCII *)

Definition is_ascii (c : Ascii.ascii) : bool := (code c <? 128)%nat.
Definition ascii_only (s : string) : bool := all_chars is_ascii s.

Lemma ascii_app a b : ascii_only (a +:+ b) = ascii_only a && ascii_only b.
Proof. apply all_chars_app. Qed.

Lemma ascii_utf8 s : ascii_only s = true -> utf8_ok s = true.
Proof.
  induction s as [|c s IH]; [done|]. intros [Hc Hs]%andb_true_iff. cbn [utf8_ok]. unfold is_ascii, code in Hc. apply Nat.ltb_lt in Hc.
  rewrite (proj2 (N.ltb_lt (Ascii.N_of_ascii c) 128)); [by apply IH|]. unfold Ascii.nat_of_ascii in Hc. lia.
Qed.

(** What a reader of numbers takes off is ASCII. *)
Definition takes_ascii (s rest : string) : Prop := exists taken, s = taken +:+ rest /\ ascii_only taken = true.

Lemma takes_refl s : takes_ascii s s.
Proof. by exists "". Qed.

Lemma takes_trans a b c : takes_ascii a b -> takes_ascii b c -> takes_ascii a c.
Proof. intros (x & -> & Hx) (y & -> & Hy). exists (x +:+ y). split; [apply append_assoc|]. by rewrite ascii_app, Hx, Hy. Qed.

Lemma takes_char c s rest : is_ascii c = true -> takes_ascii s rest -> takes_ascii (String c s) rest.
Proof. intros Hc (x & -> & Hx). exists (String c x). split; [done|]. apply andb_true_iff. by split. Qed.

Lemma digit_ascii c : is_digit c = true -> is_ascii c = true.
Proof. unfold is_digit, in_range, is_ascii. intros [_ H]%andb_true_iff. apply Nat.leb_le in H. apply Nat.ltb_lt. lia. Qed.

Lemma code_ascii c n : (code c =? n)%nat = true -> (n <? 128)%nat = true -> is_ascii c = true.
Proof. unfold is_ascii. intros H%Nat.eqb_eq. by rewrite H. Qed.

Lemma span_digits_ascii s d rest : span_digits s = (d, rest) -> takes_ascii s rest.
Proof.
  revert d rest. induction s as [|c s IH]; cbn; intros d rest; [intros [= <- <-]; apply takes_refl|].
  destruct (is_digit c) eqn:Hc; [|intros [= <- <-]; apply takes_refl]. destruct (span_digits s) as [d' r] eqn:E. intros [= <- <-].
  apply takes_char; [by apply digit_ascii|by eapply IH].
Qed.

Lemma marked_ascii (whole g s d rest : string) :
  takes_ascii whole s -> (match span_digits s with (EmptyString, _) => ("", whole) | (d, r) => (g +:+ d, r) end) = (d, rest) ->
  takes_ascii whole rest.
Proof.
  intros Hw. destruct (span_digits s) as [d' r] eqn:E. apply span_digits_ascii in E. destruct d'; intros [= <- <-]; [apply takes_refl|].
  by eapply takes_trans.
Qed.

Lemma span_int_ascii s d rest : span_int s = Some (d, rest) -> takes_ascii s rest.
Proof.
  destruct s as [|c s]; [discriminate|]. unfold span_int. destruct (code c =? 48)%nat eqn:Hc.
  - intros [= <- <-]. apply takes_char; [by eapply code_ascii|apply takes_refl].
  - destruct (is_digit c); [|discriminate]. intros [= H]. by eapply span_digits_ascii.
Qed.

Lemma span_frac_ascii s d rest : span_frac s = (d, rest) -> takes_ascii s rest.
Proof.
  destruct s as [|c s]; [intros [= <- <-]; apply takes_refl|]. unfold span_frac. destruct (code c =? 46)%nat eqn:Hc; [|intros [= <- <-]; apply takes_refl].
  intros H. eapply (marked_ascii (String c s) (String c EmptyString) s); [|exact H]. apply takes_char; [by eapply code_ascii|apply takes_refl].
Qed.

Lemma span_exp_ascii s d rest : span_exp s = (d, rest) -> takes_ascii s rest.
Proof.
  destruct s as [|c s]; [intros [= <- <-]; apply takes_refl|]. unfold span_exp.
  destruct (_ || _) eqn:Hc; [|intros [= <- <-]; apply takes_refl].
  assert (is_ascii c = true) as Hca by (apply orb_true_iff in Hc as [Hc|Hc]; by eapply code_ascii).
  destruct s as [|g r]; [intros [= <- <-]; apply takes_refl|]. destruct ((code g =? 43)%nat || _) eqn:Hg; intros H.
  - eapply (marked_ascii (String c (String g r)) (String c (String g EmptyString)) r); [|exact H]. apply takes_char; [done|].
    apply takes_char; [apply orb_true_iff in Hg as [Hg|Hg]; by eapply code_ascii|apply takes_refl].
  - eapply (marked_ascii (String c (String g r)) (String c EmptyString) (String g r)); [|exact H]. apply takes_char; [done|apply takes_refl].
Qed.

Lemma scan_number_ascii float_of s v : scan_number float_of s = Some (v, "") -> ascii_only s = true.
Proof.
  intros H. enough (takes_ascii s "") as (x & -> & Hx) by by rewrite append_nil.
  assert (forall n s, scan_unsigned float_of n s = Some (v, "") -> takes_ascii s "") as Hu.
  { clear. intros n s H. unfold scan_unsigned in H. destruct (span_int s) as [[i s1]|] eqn:E1; [|discriminate]. cbn [mbind option_bind] in H.
    destruct (span_frac s1) as [f s2] eqn:E2. destruct (span_exp s2) as [e s3] eqn:E3.
    assert (s3 = "") as -> by (by destruct (_ && _); injection H).
    eapply takes_trans; [by eapply span_int_ascii|]. eapply takes_trans; [by eapply span_frac_ascii|by eapply span_exp_ascii]. }
  destruct s as [|c s]; [discriminate|]. unfold scan_number in H. destruct (code c =? 45)%nat eqn:Hc; [|by eapply Hu].
  apply takes_char; [by eapply code_ascii|by eapply Hu].
Qed.

Lemma hex_ascii c k : hex_value c = Some k -> is_ascii c = true.
Proof.
  unfold hex_value, is_ascii, is_digit, in_range. intros H. apply Nat.ltb_lt.
  destruct (_ && _) eqn:E1; [apply andb_true_iff in E1 as [_ E]; apply Nat.leb_le in E; lia|].
  destruct ((97 <=? code c)%nat && _) eqn:E2; [apply andb_true_iff in E2 as [_ E]; apply Nat.leb_le in E; lia|].
  destruct ((65 <=? code c)%nat && _) eqn:E3; [apply andb_true_iff in E3 as [_ E]; apply Nat.leb_le in E; lia|discriminate].
Qed.

Lemma u_escape_ascii n : (n < 65536)%N -> ascii_only (u_escape n) = true.
Proof.
  intros Hn. destruct (u_escape_hex n Hn) as (a & b & c & d & -> & H). unfold hex4 in H.
  destruct (hex_value a) eqn:Ha; [|discriminate]. destruct (hex_value b) eqn:Hb; [|discriminate].
  destruct (hex_value c) eqn:Hc; [|discriminate]. destruct (hex_value d) eqn:Hd; [|discriminate].
  unfold ascii_only. cbn [all_chars]. by rewrite (hex_ascii a _ Ha), (hex_ascii b _ Hb), (hex_ascii c _ Hc), (hex_ascii d _ Hd).
Qed.

Lemma escape_point_ascii n : (n < 2097152)%N -> ascii_only (escape_point n) = true.
Proof.
  intros Hn. unfold escape_point. destruct (N.ltb_spec n 65536) as [Hlt|Hge]; [by apply u_escape_ascii|].
  assert ((n - 65536) / 1024 < 2048)%N by (apply N.Div0.div_lt_upper_bound; lia). assert ((n - 65536) mod 1024 < 1024)%N by by apply N.mod_lt.
  set (q := ((n - 65536) / 1024)%N) in *. set (r := ((n - 65536) mod 1024)%N) in *. clearbody q r.
  rewrite ascii_app, !u_escape_ascii by lia. done.
Qed.

Lemma escape_char_ascii c : is_ascii c = true -> ascii_only (escape_char c) = true.
Proof. destruct c as [[] [] [] [] [] [] [] []]; done. Qed.

Lemma mod_bound a k : (0 < k)%N -> (a mod k <= k - 1)%N.
Proof. intros Hk. pose proof (N.mod_lt a k ltac:(lia)). lia. Qed.

Lemma escape_ascii_ascii s : ascii_only (escape_ascii s) = true.
Proof.
  induction s as [s IH] using (induction_ltof1 _ String.length). unfold ltof in IH. destruct s as [|a r]; [done|]. cbn [escape_ascii].
  pose proof (fun c => mod_bound (Ascii.N_of_ascii c) 64 ltac:(lia)) as Hb. change (forall c, (tail_bits c <= 63)%N) in Hb.
  pose proof (mod_bound (Ascii.N_of_ascii a) 32 ltac:(lia)) as M32. pose proof (mod_bound (Ascii.N_of_ascii a) 16 ltac:(lia)) as M16.
  pose proof (mod_bound (Ascii.N_of_ascii a) 8 ltac:(lia)) as M8.
  destruct (N.eqb_spec (Ascii.N_of_ascii a) 127) as [H127|_].
  { rewrite ascii_app, u_escape_ascii by (rewrite H127; lia). apply IH. cbn. lia. }
  destruct (N.ltb_spec (Ascii.N_of_ascii a) 128) as [H128|_].
  { rewrite ascii_app, escape_char_ascii; [apply IH; cbn; lia|]. unfold is_ascii, code, Ascii.nat_of_ascii. apply Nat.ltb_lt. lia. }
  destruct (_ <? 224)%N; [|destruct (_ <? 240)%N].
  - destruct r as [|b r]; [done|]. rewrite ascii_app, escape_point_ascii; [apply IH; cbn; lia|]. pose proof (Hb b). lia.
  - destruct r as [|b [|c r]]; try done. rewrite ascii_app, escape_point_ascii; [apply IH; cbn; lia|]. pose proof (Hb b). pose proof (Hb c). lia.
  - destruct r as [|b [|c [|d r]]]; try done. rewrite ascii_app, escape_point_ascii; [apply IH; cbn; lia|].
    pose proof (Hb b). pose proof (Hb c). pose proof (Hb d). lia.
Qed.

(** ** Values *)

(** Every string is valid UTF-8 and no object has a key twice. *)
Fixpoint text_ok (v : pyval) : bool :=
  match v with
  | PStr s => utf8_ok s
  | PList l => forallb text_ok l
  | PDict d => bool_decide (NoDup d.*1) && forallb (fun kv => utf8_ok kv.1 && text_ok kv.2) d
  | _ => true
  end.

Lemma sep_by_comma l : sep_by "," l = comma_sep l.
Proof. induction l as [|s l IH]; [done|]. destruct l as [|s' l]; [done|]. cbn [sep_by comma_sep] in *. by rewrite IH. Qed.

Section Ascii.
Context (float_repr : spec_float -> string) (float_of : string -> spec_float).
#[local] Abbreviation ascii := (json_ascii float_repr "," ":").
#[local] Abbreviation reads := (reads float_of).

Lemma constant_reads t v :
  (t, v) ∈ [("NaN", PFloat S754_nan); ("Infinity", PFloat (S754_infinity false)); ("-Infinity", PFloat (S754_infinity true))] -> reads v t.
Proof.
  intros H rest [|fuel] Hs Hf; [lia|]. repeat (apply elem_of_cons in H as [[= -> ->]|H]; [by destruct rest|]). by apply not_elem_of_nil in H.
Qed.

Lemma ascii_reads v : text_ok v = true -> floats_ok float_repr float_of v -> reads (canon v) (ascii v).
Proof.
  induction v as [|b|z|f|s|l IH|d IH] using pyval_rect_nested; intros Hk Hf.
  - apply (reads_null float_of true).
  - apply reads_null.
  - apply reads_atom, scan_pretty.
  - destruct (float_finite f) eqn:Hff.
    + replace (ascii (PFloat f)) with (float_repr f) by (by destruct f). by apply reads_atom, Hf.
    + destruct f as [|s| |]; try done; apply constant_reads; [destruct s|]; cbn; set_solver.
  - by apply reads_string, ascii_string_reads.
  - cbn [json_ascii canon]. rewrite sep_by_comma. apply reads_list. cbn in Hk. induction IH as [|v l Hv _ IHl]; [constructor|].
    cbn in Hk. apply andb_true_iff in Hk as [Hk1 Hk2]. destruct Hf as [Hf1 Hf2]. constructor; [by apply Hv|by apply IHl].
  - cbn [json_ascii]. rewrite sep_by_comma. cbn [text_ok] in Hk. apply andb_true_iff in Hk as [Hnd Hk]. apply bool_decide_eq_true in Hnd.
    apply reads_sorted; [|done]. clear Hnd. induction IH as [|[k v] d Hv _ IHd]; [constructor|].
    cbn in Hk. apply andb_true_iff in Hk as [Hk1 Hk2]. apply andb_true_iff in Hk1 as [Hk0 Hk1]. destruct Hf as [Hf1 Hf2]. constructor; [|by apply IHd].
    split; [done|]. exists (escape_ascii k), (ascii v). split; [done|]. split; [by apply ascii_string_reads|by apply Hv].
Qed.

(** What json.dumps writes by default, with compact separators, reads back. *)
Lemma ascii_round_trip v : text_ok v = true -> floats_ok float_repr float_of v -> json_loads float_of (ascii v) = Some (canon v).
Proof. intros Hk Hf. by apply reads_loads, ascii_reads. Qed.

Lemma sep_ascii l : Forall (fun s => ascii_only s = true) l -> ascii_only (sep_by "," l) = true.
Proof.
  induction 1 as [|s l Hs Hl IH]; [done|]. destruct l as [|s2 l]; [done|].
  change (sep_by "," (s :: s2 :: l)) with (s +:+ "," +:+ sep_by "," (s2 :: l)). by rewrite !ascii_app, Hs, IH.
Qed.

Lemma json_ascii_only v : floats_ok float_repr float_of v -> ascii_only (ascii v) = true.
Proof.
  induction v as [|b|z|f|s|l IH|d IH] using pyval_rect_nested; intros Hf.
  - done.
  - by destruct b.
  - apply (scan_number_ascii float_of _ (PInt z)), scan_pretty.
  - destruct f as [s|s| |s m e]; [apply (scan_number_ascii float_of _ (PFloat (S754_zero s))), Hf; done|by destruct s|done|].
    apply (scan_number_ascii float_of _ (PFloat (S754_finite s m e))), Hf. done.
  - change (ascii_only (chr 34 +:+ escape_ascii s +:+ chr 34) = true). by rewrite !ascii_app, escape_ascii_ascii.
  - cbn [json_ascii]. rewrite !ascii_app, sep_ascii; [done|]. induction IH as [|v l Hv _ IHl]; [constructor|].
    destruct Hf as [Hf1 Hf2]. constructor; [by apply Hv|by apply IHl].
  - cbn [json_ascii]. rewrite !ascii_app, sep_ascii; [done|].
    rewrite Forall_fmap, merge_sort_Permutation. induction IH as [|[k v] d Hv _ IHd]; [constructor|].
    destruct Hf as [Hf1 Hf2]. constructor; [|by apply IHd]. cbn [compose snd]. unfold quote_ascii.
    rewrite !ascii_app, escape_ascii_ascii. cbn [snd] in Hv. by rewrite Hv.
Qed.

End Ascii.
