(* ===== verification/Base64.v ===== *)
(** * Base 64

    base64.b64encode and b64decode with validate=True, their URL-safe variants, and the
    decoder without validation, which skips every character outside the alphabet.  Bytes are
    the characters of a string. *)

From Stdlib Require Import ZArith.
From S2P Require Import Prelude PyValue Text JsonProps.

#[local] Open Scope string_scope.
#[local] Open Scope N_scope.

Module Base64.

(** ** The alphabets *)

Definition sextet (url : bool) (k : N) : Ascii.ascii :=
  Ascii.ascii_of_N (if k <? 26 then 65 + k else if k <? 52 then 71 + k else if k <? 62 then k - 4
                    else if k =? 62 then (if url then 45 else 43) else (if url then 95 else 47)).

Definition sextet_value (url : bool) (c : Ascii.ascii) : option N :=
  let n := Ascii.N_of_ascii c in
  if (65 <=? n) && (n <=? 90) then Some (n - 65)
  else if (97 <=? n) && (n <=? 122) then Some (n - 71)
  else if (48 <=? n) && (n <=? 57) then Some (n + 4)
  else if n =? (if url then 45 else 43) then Some 62
  else if n =? (if url then 95 else 47) then Some 63
  else None.

Definition pad : Ascii.ascii := Ascii.ascii_of_N 61.
Definition byte_of (n : N) : Ascii.ascii := Ascii.ascii_of_N n.

(** ** Encoding *)

Fixpoint encode (url : bool) (s : string) : string :=
  match s with
  | EmptyString => ""
  | String a EmptyString =>
      let a := Ascii.N_of_ascii a in
      String (sextet url (a / 4)) (String (sextet url (a mod 4 * 16)) (String pad (String pad "")))
  | String a (String b EmptyString) =>
      let a := Ascii.N_of_ascii a in let b := Ascii.N_of_ascii b in
      String (sextet url (a / 4)) (String (sextet url (a mod 4 * 16 + b / 16)) (String (sextet url (b mod 16 * 4)) (String pad "")))
  | String a (String b (String c s)) =>
      let a := Ascii.N_of_ascii a in let b := Ascii.N_of_ascii b in let c := Ascii.N_of_ascii c in
      String (sextet url (a / 4)) (String (sextet url (a mod 4 * 16 + b / 16))
        (String (sextet url (b mod 16 * 4 + c / 64)) (String (sextet url (c mod 64)) (encode url s))))
  end.

Definition b64encode : string -> string := encode false.
Definition urlsafe_b64encode : string -> string := encode true.

(** ** Decoding *)

(** With validation: groups of four, the last one padded. *)
Fixpoint b64decode (s : string) : option string :=
  match s with
  | EmptyString => Some ""
  | String c1 (String c2 (String c3 (String c4 s))) =>
      v1 ← sextet_value false c1; v2 ← sextet_value false c2;
      let b1 := byte_of (v1 * 4 + v2 / 16) in
      if Ascii.eqb c3 pad then
        if Ascii.eqb c4 pad && String.eqb s "" then Some (String b1 "") else None
      else
        v3 ← sextet_value false c3;
        let b2 := byte_of (v2 mod 16 * 16 + v3 / 4) in
        if Ascii.eqb c4 pad then if String.eqb s "" then Some (String b1 (String b2 "")) else None
        else
          v4 ← sextet_value false c4;
          let b3 := byte_of (v3 mod 4 * 64 + v4) in
          t ← b64decode s; Some (String b1 (String b2 (String b3 t)))
  | _ => None
  end.

(** Both alphabets: the URL-safe one is translated to the other first. *)
Definition any_value (c : Ascii.ascii) : option N :=
  match sextet_value true c with Some v => Some v | None => sextet_value false c end.

(** Without validation: [bits] holds the sextets of the open group, and [pads] its padding.
    A complete padding ends the text; what follows is ignored. *)
Fixpoint decode_lenient (bits : list N) (pads : nat) (s : string) : option string :=
  match s with
  | EmptyString => match bits with [] => Some "" | _ => None end
  | String c s =>
      if Ascii.eqb c pad then
        match bits with
        | [_; _] => if (2 <=? S pads)%nat then Some "" else decode_lenient bits (S pads) s
        | [_; _; _] => Some ""
        | _ => decode_lenient bits pads s
        end
      else match any_value c with
           | None => decode_lenient bits pads s
           | Some v =>
               match bits with
               | [] => decode_lenient [v] O s
               | [v1] => t ← decode_lenient [v1; v] O s; Some (String (byte_of (v1 * 4 + v / 16)) t)
               | [v1; v2] => t ← decode_lenient [v1; v2; v] O s; Some (String (byte_of (v2 mod 16 * 16 + v / 4)) t)
               | _ :: _ :: v3 :: _ => t ← decode_lenient [] O s; Some (String (byte_of (v3 mod 4 * 64 + v)) t)
               end
           end
  end.

Definition urlsafe_b64decode (s : string) : option string := decode_lenient [] O s.

End Base64.
Import Base64.

(** ** Decoding what was encoded *)

Lemma sextet_ok url k : k < 64 -> sextet_value url (sextet url k) = Some k /\ Ascii.eqb (sextet url k) pad = false.
Proof.
  intros Hk. assert (k ∈ map N.of_nat (seq 0 64)) as Hin.
  { apply list_elem_of_In, in_map_iff. exists (N.to_nat k). split; [lia|]. apply in_seq. lia. }
  clear Hk. cbn in Hin. destruct url; repeat (apply elem_of_cons in Hin as [->|Hin]; [by split|]); by apply not_elem_of_nil in Hin.
Qed.

Lemma byte_bound c : Ascii.N_of_ascii c < 256.
Proof. apply Ascii.N_ascii_bounded. Qed.

Lemma byte_back c n : n = Ascii.N_of_ascii c -> byte_of n = c.
Proof. intros ->. apply Ascii.ascii_N_embedding. Qed.

(** Three bytes in four sextets, and back. *)
Lemma sextets a b c :
  a < 256 -> b < 256 -> c < 256 ->
  let v1 := a / 4 in let v2 := a mod 4 * 16 + b / 16 in let v3 := b mod 16 * 4 + c / 64 in let v4 := c mod 64 in
  (v1 < 64 /\ v2 < 64 /\ v3 < 64 /\ v4 < 64) /\ v1 * 4 + v2 / 16 = a /\ v2 mod 16 * 16 + v3 / 4 = b /\ v3 mod 4 * 64 + v4 = c.
Proof.
  intros Ha Hb Hc v1 v2 v3 v4.
  pose proof (N.div_mod a 4 ltac:(lia)) as Da. pose proof (N.mod_lt a 4 ltac:(lia)) as Ma.
  pose proof (N.div_mod b 16 ltac:(lia)) as Db. pose proof (N.mod_lt b 16 ltac:(lia)) as Mb.
  pose proof (N.div_mod c 64 ltac:(lia)) as Dc. pose proof (N.mod_lt c 64 ltac:(lia)) as Mc.
  assert (v2 / 16 = a mod 4 /\ v2 mod 16 = b / 16) as [E1 E2].
  { assert (b / 16 < 16) as Hq by (apply N.Div0.div_lt_upper_bound; lia). unfold v2. split.
    - rewrite N.div_add_l by lia. rewrite N.div_small by done. lia.
    - rewrite N.add_comm, N.Div0.mod_add. by apply N.mod_small. }
  assert (v3 / 4 = b mod 16 /\ v3 mod 4 = c / 64) as [E3 E4].
  { assert (c / 64 < 4) as Hq by (apply N.Div0.div_lt_upper_bound; lia). unfold v3. split.
    - rewrite N.div_add_l by lia. rewrite N.div_small by done. lia.
    - rewrite N.add_comm, N.Div0.mod_add. by apply N.mod_small. }
  rewrite E1, E2, E3, E4. unfold v1, v2, v3, v4.
  assert (a / 4 < 64) by (apply N.Div0.div_lt_upper_bound; lia). assert (b / 16 < 16) by (apply N.Div0.div_lt_upper_bound; lia).
  assert (c / 64 < 4) by (apply N.Div0.div_lt_upper_bound; lia). lia.
Qed.

Lemma string_ind3 (P : string -> Prop) :
  P "" -> (forall a, P (String a "")) -> (forall a b, P (String a (String b ""))) ->
  (forall a b c s, P s -> P (String a (String b (String c s)))) -> forall s, P s.
Proof.
  intros H0 H1 H2 H3 s. induction s as [s IH] using (induction_ltof1 _ String.length). unfold ltof in IH.
  destruct s as [|a [|b [|c s]]]; [done..|]. apply H3, IH. cbn. lia.
Qed.

(** Decoding what was encoded gives it back. *)
Lemma b64_round_trip s : b64decode (b64encode s) = Some s.
Proof.
  unfold b64encode. induction s as [|a|a b|a b c s IH] using string_ind3; [done|..]; cbn [encode b64decode].
  - destruct (sextets (Ascii.N_of_ascii a) 0 0) as ((L1 & L2 & _) & E1 & _); [apply byte_bound|lia|lia|].
    change (0 / 16) with 0 in *. rewrite N.add_0_r in *. rewrite (proj1 (sextet_ok false _ L1)), (proj1 (sextet_ok false _ L2)). cbn [mbind option_bind].
    rewrite E1. cbn. by rewrite (byte_back a).
  - destruct (sextets (Ascii.N_of_ascii a) (Ascii.N_of_ascii b) 0) as ((L1 & L2 & L3 & _) & E1 & E2 & _); [apply byte_bound|apply byte_bound|lia|].
    change (0 / 64) with 0 in *. rewrite N.add_0_r in *. destruct (sextet_ok false _ L3) as [V3 P3].
    rewrite (proj1 (sextet_ok false _ L1)), (proj1 (sextet_ok false _ L2)). cbn [mbind option_bind]. rewrite P3, V3. cbn [mbind option_bind].
    rewrite E1, E2. cbn. by rewrite (byte_back a), (byte_back b).
  - destruct (sextets (Ascii.N_of_ascii a) (Ascii.N_of_ascii b) (Ascii.N_of_ascii c)) as ((L1 & L2 & L3 & L4) & E1 & E2 & E3); [apply byte_bound..|].
    destruct (sextet_ok false _ L3) as [V3 P3]. destruct (sextet_ok false _ L4) as [V4 P4].
    rewrite (proj1 (sextet_ok false _ L1)), (proj1 (sextet_ok false _ L2)). cbn [mbind option_bind]. rewrite P3, V3. cbn [mbind option_bind].
    rewrite P4, V4. cbn [mbind option_bind]. rewrite IH. cbn [mbind option_bind]. rewrite E1, E2, E3.
    by rewrite (byte_back a), (byte_back b), (byte_back c).
Qed.

Lemma any_ok k : k < 64 -> any_value (sextet true k) = Some k /\ Ascii.eqb (sextet true k) pad = false.
Proof. intros Hk. destruct (sextet_ok true k Hk) as [Hv Hp]. unfold any_value. by rewrite Hv. Qed.

(** The decoder without validation agrees on an encoded text, and does not need its padding. *)
Lemma lenient_encode s : urlsafe_b64decode (urlsafe_b64encode s) = Some s.
Proof.
  unfold urlsafe_b64decode, urlsafe_b64encode. induction s as [|a|a b|a b c s IH] using string_ind3; [done|..]; cbn [encode].
  - destruct (sextets (Ascii.N_of_ascii a) 0 0) as ((L1 & L2 & _) & E1 & _); [apply byte_bound|lia|lia|].
    change (0 / 16) with 0 in *. rewrite N.add_0_r in *. destruct (any_ok _ L1) as [V1 P1]. destruct (any_ok _ L2) as [V2 P2].
    cbn [decode_lenient]. rewrite P1, V1, P2, V2. cbn. rewrite E1. by rewrite (byte_back a).
  - destruct (sextets (Ascii.N_of_ascii a) (Ascii.N_of_ascii b) 0) as ((L1 & L2 & L3 & _) & E1 & E2 & _); [apply byte_bound|apply byte_bound|lia|].
    change (0 / 64) with 0 in *. rewrite N.add_0_r in *. destruct (any_ok _ L1) as [V1 P1]. destruct (any_ok _ L2) as [V2 P2].
    destruct (any_ok _ L3) as [V3 P3]. cbn [decode_lenient]. rewrite P1, V1, P2, V2, P3, V3. cbn. rewrite E1, E2.
    by rewrite (byte_back a), (byte_back b).
  - destruct (sextets (Ascii.N_of_ascii a) (Ascii.N_of_ascii b) (Ascii.N_of_ascii c)) as ((L1 & L2 & L3 & L4) & E1 & E2 & E3); [apply byte_bound..|].
    destruct (any_ok _ L1) as [V1 P1]. destruct (any_ok _ L2) as [V2 P2].
    destruct (any_ok _ L3) as [V3 P3]. destruct (any_ok _ L4) as [V4 P4].
    cbn [decode_lenient]. rewrite P1, V1, P2, V2, P3, V3, P4, V4, IH. cbn. rewrite E1, E2, E3.
    by rewrite (byte_back a), (byte_back b), (byte_back c).
Qed.

Example b64_ex : b64encode "Man is" = "TWFuIGlz" /\ b64decode "TQ==" = Some "M" /\ b64decode "TQ=" = None /\ b64decode "T Q=" = None.
Proof. repeat split; vm_compute; reflexivity. Qed.
