(* ===== verification/DeviceScheduler.v ===== *)
(** * The Device Scheduler facade (device_scheduler.py)

    When the operator selects the Device Scheduler as resource authority, this facade maps
    Project Control owners onto its leases.  The service is whatever answers [client]: an
    operation and its arguments to an answer, over its own state [W].  Values are the JSON
    they denote; a class of [except] clauses is a function on [answer].  The text of values
    that are not strings, integers or booleans ([py_repr]), "float(s)" of a string, the
    path resolver and the process table are parameters. *)

From Stdlib Require Import ZArith SpecFloat.
From stdpp Require Import pretty.
From S2P Require Import Prelude PyValue Text Json Effects Contracts.

#[local] Open Scope string_scope.
#[local] Open Scope Z_scope.
#[local] Open Scope list_scope.

Module DeviceScheduler.

(** ** Values *)

(** "x if isinstance(x, Mapping) else {}". *)
Definition mapping_or_empty (v : option pyval) : pydict := match v with Some (PDict d) => d | _ => [] end.

Definition str_is (v : option pyval) (s : string) : bool :=
  match v with Some (PStr t) => String.eqb t s | _ => false end.

(** The value of an int or a finite float as a mantissa and a power of two. *)
Definition dyadic (v : pyval) : option (Z * Z) :=
  match v with
  | PInt z => Some (z, 0)
  | PFloat (S754_zero _) => Some (0, 0)
  | PFloat (S754_finite s m e) => Some (if s then Z.neg m else Z.pos m, e)
  | _ => None
  end.

(** "a <= b" on such numbers. *)
Definition num_le (a b : pyval) : bool :=
  match dyadic a, dyadic b with
  | Some (m, e), Some (n, f) => let k := Z.min e f in m * 2 ^ (e - k) <=? n * 2 ^ (f - k)
  | _, _ => false
  end.

(** [dict(pairs)] and "{**d, **d'}". *)
Definition update (d d' : pydict) : pydict := foldl (fun d kv => dict_set kv.1 kv.2 d) d d'.

(** ** The service *)

(** What calling the client came to: a value, a DeviceSchedulerError, or another exception
    (its "code" attribute, if any, and its class). *)
Inductive answer :=
  | value (v : pyval)
  | scheduler_error (code : string)
  | other_error (code : option string) (cls : string).

Definition no_grant_codes : list string := ["conflict"; "resource_conflict"; "admission_denied"; "idempotency_conflict"].
Definition _ACTIVE_LEASE_STATES : list string := ["active"; "release_requested"; "reclaiming"; "unknown"; "expired"].
Definition _GPU_ALIASES : list string := ["accelerator"; "gpu"; "nvidia_gpu"; "cuda_gpu"].

(** What answers an operation, over the state [W] of the other side. *)
Class service (W : Type) := client : string -> pydict -> W -> answer * W.

(** The process the facade runs in and the standard-library functions whose text is not
    determined here; [ttl] is the facade's lease_ttl_seconds. *)
Class runtime := {
  py_repr : pyval -> string;
  float_of_str : string -> option spec_float;
  float_repr : spec_float -> string;
  sha256 : string -> string;
  resolve : string -> string;
  own_pid : Z;
  process_start : Z -> option string;
  ttl : spec_float
}.

(** "str(v)". *)
Abbreviation py_str := (Text.py_str py_repr).

Section Facade.
Context `{rt : runtime} {W : Type} `{srv : !service W}.

Definition str_or_empty (v : option pyval) : string := py_str (default (PStr "") v).

(** "float(v)". *)
Definition py_float (v : pyval) : result spec_float :=
  match v with
  | PInt z => float_of_int z
  | PBool b => float_of_int (Z.b2z b)
  | PFloat f => Ok f
  | PStr s => match float_of_str s with Some f => Ok f | None => Err (ValueError "could not convert string to float") end
  | _ => Err (TypeError "float() argument must be a string or a real number")
  end.

(** "int(float(v) / (1024 * 1024))", absent where it raises. *)
Definition mebibytes (v : pyval) : option Z :=
  match (f ← py_float v; int_of_float (SFdiv 53 1024 f (binary_normalize 53 1024 (1024 * 1024) 0 false))) with
  | Ok z => Some z
  | Err _ => None
  end.

Definition granting_error (code text : string) : exn :=
  if bool_decide (code ∈ no_grant_codes) then NoGrant code else SchedulerError text.

Definition _call (operation : string) (arguments : pydict) : io W pydict := fun w =>
  let '(a, w) := client operation arguments w in
  (match a with
   | scheduler_error code => Err (granting_error code code)
   | other_error code cls =>
       let text := operation +:+ "_failed_" +:+ match code with Some c => if String.eqb c "" then cls else c | None => cls end in
       match code with Some c => Err (granting_error c text) | None => Err (SchedulerError text) end
   | value (PDict d) =>
       match dict_get "error" d with
       | Some (PDict e) =>
           let code := py_str (dict_get_default "code" (PStr "operation_failed") e) in
           Err (granting_error code (operation +:+ " failed (" +:+ code +:+ ")"))
       | _ => Ok d
       end
   | value _ => Err (SchedulerError ("Device Scheduler returned an invalid " +:+ operation +:+ " response"))
   end, w).

Definition _as_mapping (v : pyval) (name : string) : result pydict :=
  match v with
  | PDict d => Ok d
  | _ => Err (SchedulerError ("Device Scheduler returned an invalid " +:+ name))
  end.

(** ** The inventory *)

Definition flat_resource (v : pyval) : result pydict :=
  item ← _as_mapping v "resource";
  Ok (match dict_get "resource" item with
      | Some (PDict nested) => update nested (List.filter (fun kv => negb (String.eqb kv.1 "resource")) item)
      | _ => item
      end).

Definition _resources : io W (list pydict) :=
  result ← _call "resources.list" [];
  match dict_get "resources" result with
  | Some (PList values) => lift (mapM_result flat_resource values)
  | _ => throw (SchedulerError "resources.list omitted resources")
  end.

Definition _kind (r : pydict) : string := str_or_empty (dict_get "kind" r).
Definition attributes (r : pydict) : pydict := mapping_or_empty (dict_get "attributes" r).
Definition capacities (r : pydict) : pydict := mapping_or_empty (dict_get "capacities" r).
Definition resource_id (r : pydict) : string := str_or_empty (dict_get "resource_id" r).
Definition is_gpu (r : pydict) : bool := bool_decide (lower (_kind r) ∈ _GPU_ALIASES).
Definition is_isolation (r : pydict) : bool := String.eqb (lower (_kind r)) "isolation".

Definition _legacy_id (r : pydict) : string :=
  match is_gpu r, dict_get "uuid" (attributes r) with
  | true, Some (PStr uuid) => "accelerator:" +:+ uuid
  | _, _ => resource_id r
  end.

Definition _domain_members (r : pydict) : list string :=
  if is_isolation r
  then match dict_get "member_resource_ids" (attributes r) with Some (PList l) => map py_str l | _ => [] end
  else [].

Definition present (key : string) (v : option pyval) : list (string * string) :=
  match v with Some PNone | None => [] | Some v => [(key, py_str v)] end.

Definition present_mib (key : string) (v : option pyval) : list (string * string) :=
  match v with
  | Some PNone | None => []
  | Some v => match mebibytes v with Some z => [(key, pretty z)] | None => [] end
  end.

Definition _tags (r : pydict) (all : list pydict) : list (string * string) :=
  let attrs := attributes r in
  present "uuid" (dict_get "uuid" attrs) ++
  present "pci_bus_id" (dict_get "pci_bus_id" attrs) ++
  present "name" (dict_get "name" attrs) ++
  present "index" (dict_get "index_observation" attrs) ++
  present_mib "memory_free_mib" (dict_get "memory_free_bytes_observation" attrs) ++
  present "utilization_percent" (dict_get "utilization_percent_observation" attrs) ++
  present_mib "memory_total_mib" (dict_get "memory_bytes" (capacities r)) ++
  match List.filter (fun item => bool_decide (resource_id r ∈ _domain_members item)) all with
  | [domain] => [("nvlink_domain", py_str (default (default (PStr "") (dict_get "resource_id" domain))
                                             (dict_get "domain_id" (attributes domain))))]
  | _ => []
  end.

Record listed := {
  ls_id : string;
  ls_kind : string;
  ls_tags : list (string * string);
  ls_enabled : bool
}.

Definition unavailable (r : pydict) : bool :=
  match dict_get "available" r with Some (PBool false) => true | _ => false end.

Definition legacy_kind (r : pydict) : string := if is_gpu r then "accelerator" else _kind r.

Definition by_string {A} (f : A -> string) (a b : A) : Prop := String.le (f a) (f b).
#[export] Instance by_string_dec {A} (f : A -> string) : RelDecision (by_string f).
Proof. intros a b. unfold by_string. apply _. Defined.

Definition list_resources (kind : option string) : io W (list listed) :=
  resources ← _resources;
  let wanted k := if bool_decide (lower k ∈ _GPU_ALIASES) then "accelerator" else k in
  mret (merge_sort (by_string ls_id)
    (map (fun r => {| ls_id := _legacy_id r; ls_kind := legacy_kind r; ls_tags := _tags r resources;
                      ls_enabled := negb (unavailable r) && match capacities r with [] => false | _ => true end |})
       (List.filter (fun r => match kind with Some k => String.eqb (legacy_kind r) (wanted k) | None => true end) resources))).

Definition discover_gpus : io W (list listed) := list_resources (Some "accelerator").

(** ** Requirements *)

(** A finite positive number of bytes. *)
Definition valid_capacity (v : option pyval) : bool :=
  match v with
  | Some ((PInt _ | PFloat _) as v) =>
      match py_float v with
      | Ok f => float_finite f && SFltb (S754_zero false) f
      | Err _ => false
      end
  | _ => false
  end.

Definition external_lease (r : pydict) : option pydict :=
  match dict_get "external_lease" r with Some (PDict d) => Some d | _ => None end.

(** A GPU that is offered, with a size, and whose exclusive release the service verifies. *)
Definition verified (r : pydict) : bool :=
  is_gpu r && negb (unavailable r) && valid_capacity (dict_get "memory_bytes" (capacities r))
  && match external_lease r with
     | Some c => match dict_get "supported" c with Some (PBool true) => true | _ => false end
                 && str_is (dict_get "mode" c) "exclusive_gpu_quiescence"
                 && str_is (dict_get "required_allocation_mode" c) "exclusive"
                 && str_is (dict_get "release_method" c) "repeatable_read_only_observation"
     | None => false
     end.

Definition tags_match (wanted tags : list (string * string)) : bool :=
  forallb (fun kv => bool_decide (dict_get kv.1 tags = Some kv.2)) wanted.

Definition offered (wanted : list (string * string)) (resources : list pydict) (r : pydict) : bool :=
  verified r && tags_match wanted (_tags r resources).

Definition gpu_candidates (wanted : list (string * string)) (resources : list pydict) : list pydict :=
  merge_sort (by_string _legacy_id) (List.filter (offered wanted resources) resources).

(** "{self._legacy_id(item): item for item in resources}". *)
Definition aliases (resources : list pydict) : list (string * pydict) :=
  foldl (fun d r => dict_set (_legacy_id r) r d) [] resources.

(** "item in candidates" is identity or equality; an item of the inventory is identical to a
    candidate when it is offered itself. *)
Definition choose_id (wanted : list (string * string)) (resources : list pydict) (legacy_id : string) : result pydict :=
  let bad := UnsupportedOperation ("requested GPU lacks a verified exclusive reclamation capability: " +:+ legacy_id) in
  match dict_get legacy_id (aliases resources) with
  | Some r => if offered wanted resources r
                 || existsb (fun c => py_eqb (PDict c) (PDict r)) (gpu_candidates wanted resources)
              then Ok r else Err bad
  | None => Err bad
  end.

Definition adapter (r : pydict) : option pyval := dict_get "source_adapter_id" r.

Definition adapter_key (r : pydict) : option string :=
  match adapter r with Some (PStr a) => if String.eqb a "" then None else Some a | _ => None end.

Definition by_adapter (candidates : list pydict) : list (string * list pydict) := group_by adapter_key candidates.

Definition choose_count (candidates : list pydict) (count : Z) : result (list pydict) :=
  match List.filter (fun kv => count <=? Z.of_nat (length kv.2)) (merge_sort entry_le (by_adapter candidates)) with
  | [] => Err (NoGrant "insufficient_verified_gpu_resources")
  | (_, group) :: _ => Ok (take (Z.to_nat count) group)
  end.

(** The set of adapters of the chosen items has one element, a string. *)
Definition one_adapter (chosen : list pydict) : result unit :=
  _ ← raise_if (existsb (fun r => match adapter r with Some (PList _ | PDict _) => true | _ => false end) chosen)
        (TypeError "unhashable type");
  raise_if (negb match chosen with
                 | [] => false
                 | r :: _ => match adapter r with
                             | Some (PStr a) => forallb (fun r => str_is (adapter r) a) chosen
                             | _ => false
                             end
                 end)
    (UnsupportedOperation "external GPU lease must use one trusted reclamation adapter").

Record requirement := { q_resource : string; q_memory : spec_float }.

Definition requirement_of (r : pydict) : result requirement :=
  let bad := UnsupportedOperation "GPU admission budget is invalid" in
  let capacity := dict_get_default "memory_bytes" PNone (capacities r) in
  let budget := dict_get_default "admission_memory_bytes" capacity (default [] (external_lease r)) in
  _ ← match budget with
      | PInt z => f ← float_of_int z; Ok tt
      | PFloat f => raise_if (negb (float_finite f)) bad
      | _ => Err bad
      end;
  _ ← raise_if (num_le budget (PInt 0) || negb (num_le budget capacity)) bad;
  memory ← py_float budget;
  match dict_get "resource_id" r with
  | Some id => Ok {| q_resource := py_str id; q_memory := memory |}
  | None => Err (KeyError "resource_id")
  end.

Definition requirement_value (q : requirement) : pyval :=
  PDict [("kind", PStr "gpu"); ("quantities", PDict [("memory_bytes", PFloat q.(q_memory))]);
         ("selectors", PDict [("resource_id", PStr q.(q_resource))]);
         ("mode", PStr "exclusive"); ("same_host", PBool true)].

Definition nonempty {A} (l : list A) : bool := match l with [] => false | _ => true end.

(** What the request asks beyond one kind of GPU lease. *)
Definition asks_more (rq : request) : bool :=
  rq.(rq_cpu_heavy) || negb (rq.(rq_cpu_threads) =? 0) || negb (rq.(rq_ram_bytes) =? 0) || nonempty rq.(rq_exclusive)
  || rq.(rq_isolate_pcie_root) || rq.(rq_isolate_nvlink_domain).

Definition legacy_request (raw : pyval) : result request :=
  match parse_resource_request raw with
  | Err (ContractError _ | ValueError _ | TypeError _) => Err (SchedulerError "legacy resource request is invalid")
  | r => r
  end.

(** The checks before the inventory is read. *)
Definition supported_request (raw : pyval) : result request :=
  rq ← legacy_request raw;
  _ ← raise_if (negb (bool_decide (lower rq.(rq_kind) ∈ _GPU_ALIASES)))
        (UnsupportedOperation "external DS leases currently support only GPU-only allocations");
  _ ← raise_if (asks_more rq)
        (UnsupportedOperation "legacy CPU, memory, topology, and conflict-domain guarantees are not covered by GPU quiescence leases");
  _ ← raise_if (Bool.eqb (nonempty rq.(rq_ids)) (negb (rq.(rq_count) =? 0)))
        (SchedulerError "external GPU lease requires exactly one of ids or positive count");
  Ok rq.

Definition choose (rq : request) (resources : list pydict) : result (list pydict) :=
  chosen ← (if nonempty rq.(rq_ids) then mapM_result (choose_id rq.(rq_tags) resources) rq.(rq_ids)
            else choose_count (gpu_candidates rq.(rq_tags) resources) rq.(rq_count));
  _ ← one_adapter chosen;
  Ok chosen.

Definition _requirements (raw : pyval) : io W (list requirement) :=
  rq ← lift (supported_request raw);
  resources ← _resources;
  lift (chosen ← choose rq resources; mapM_result requirement_of chosen).

(** ** Owners *)

Definition optional_id (key : string) (v : option string) : result pydict :=
  match v with
  | None => Ok []
  | Some s => if String.eqb s "" then Err (SchedulerError (key +:+ " must be non-empty")) else Ok [(key, PStr s)]
  end.

Definition _owner_context (owner_id kind project_root : string) (pid : option Z)
    (job_id attempt_id service_id : option string) : result pydict :=
  let process_id := default own_pid pid in
  _ ← raise_if (process_id <=? 0) (SchedulerError "owner process pid must be positive");
  job ← optional_id "job_id" job_id;
  attempt ← optional_id "attempt_id" attempt_id;
  service ← optional_id "service_id" service_id;
  Ok ([("issuer", PStr "project-control"); ("owner_id", PStr owner_id); ("owner_kind", PStr kind);
       ("project_root", PStr (resolve project_root)); ("pid", PStr (pretty process_id))] ++ job ++ attempt ++ service ++
      match process_start process_id with
      | Some s => if String.eqb s "" then [] else [("process_start", PStr s)]
      | None => []
      end).

Definition _digest (v : pyval) : string := sha256 (json_ascii float_repr "," ":" v).

Definition _background_owner_id (project_root job_id attempt_id : string) : string :=
  "pc:background:" +:+ String.substring 0 32
    (_digest (PDict [("project_root", PStr (resolve project_root)); ("job_id", PStr job_id); ("attempt_id", PStr attempt_id)])).

(** "result.get("lease", result)". *)
Definition lease_of (result : pydict) : pyval := dict_get_default "lease" (PDict result) result.

Definition request_payload (owner_id : string) (context : pydict) (key : string) (requirements : list requirement) : pydict :=
  [("request", PDict
     [("request_id", PStr owner_id); ("owner_id", PStr owner_id); ("owner_context", PDict context);
      ("requirements", PList (map requirement_value requirements)); ("lease_ttl_seconds", PFloat ttl);
      ("idempotency_key", PStr key)])].

(** [_request] with the requirements and the key given, as its one caller does; None when
    nothing is granted. *)
Definition _request (owner_id : string) (context : pydict) (key : string) (requirements : list requirement) :
    io W (option pydict) := fun w =>
  match _call "leases.request" (request_payload owner_id context key requirements) w with
  | (Err (NoGrant _), w) => (Ok None, w)
  | (Err x, w) => (Err x, w)
  | (Ok result, w) =>
      (match lease_of result with
       | PDict lease =>
           if str_is (dict_get "owner_id" lease) owner_id
           then Ok (if str_is (dict_get "state" lease) "active" then Some lease else None)
           else Err (SchedulerError "leases.request returned an invalid owner")
       | _ => Err (SchedulerError "leases.request returned an invalid owner")
       end, w)
  end.

(** ** Leases *)

(** "str(x.get(key))": "None" when absent. *)
Definition str_or_none (v : option pyval) : string := py_str (default PNone v).

Definition by_resource_id (resources : list pydict) : list (string * pydict) :=
  foldl (fun d r => dict_set (str_or_none (dict_get "resource_id" r)) r d) [] resources.

(** What follows the second colon of "gpu:x:y". *)
Fixpoint after_colon (s : string) : option string :=
  match s with
  | EmptyString => None
  | String c s => if (code c =? 58)%nat then Some s else after_colon s
  end.

Definition gpu_suffix (rid : string) : option string :=
  if starts_with "gpu:" rid then after_colon (drop_str 4 rid) else None.

(** The legacy id of one allocation, if it has one. *)
Definition allocated_id (foreground : bool) (resources : list (string * pydict)) (a : pyval) : result (list string) :=
  match a with
  | PDict d =>
      let rid := str_or_empty (dict_get "resource_id" d) in
      Ok match dict_get rid resources with
         | None => if starts_with "gpu:" rid
                   then match gpu_suffix rid with Some uuid => ["accelerator:" +:+ uuid] | None => [] end
                   else if foreground then [rid] else []
         | Some r => if is_gpu r then [_legacy_id r]
                     else if foreground && negb (bool_decide (lower (_kind r) ∈ ["cpu"; "memory"])) then [rid] else []
         end
  | _ => Err (SchedulerError "lease allocation is invalid")
  end.

Definition lease_context (lease : pydict) : option pydict :=
  match dict_get "owner_context" lease with Some (PDict d) => Some d | _ => None end.

Definition allocations (lease : pydict) : option (list pyval) :=
  match dict_get "allocations" lease with Some (PList l) => Some l | None => Some [] | _ => None end.

Definition _resources_for_lease (lease : pydict) : io W (list string) :=
  resources ← _resources;
  lift match allocations lease with
       | None => Err (SchedulerError "lease allocations are invalid")
       | Some l =>
           let foreground := str_is (dict_get "owner_kind" (default [] (lease_context lease))) "foreground" in
           ids ← mapM_result (allocated_id foreground (by_resource_id resources)) l;
           Ok (sorted_set (concat ids))
       end.

Record reservation := { rs_owner : string; rs_resources : list string }.

Definition _reservation (lease : pydict) : io W reservation :=
  match dict_get "owner_id" lease with
  | None => throw (KeyError "owner_id")
  | Some owner => ids ← _resources_for_lease lease; mret {| rs_owner := py_str owner; rs_resources := ids |}
  end.

Definition released_state (result : pydict) : string :=
  match lease_of result with PDict d => py_str (dict_get_default "state" (PStr "unknown") d) | _ => "unknown" end.

Definition is_released (result : pydict) : bool :=
  match lease_of result with PDict d => str_is (dict_get "state" d) "released" | _ => false end.

(** Gives the grant back; always raises. *)
Definition _reject_grant {A} (lease : pydict) (reason : string) : io W A :=
  let stuck := throw (ReclamationPending "mismatched scheduler grant cannot be safely released") in
  match dict_get "lease_id" lease, dict_get "fencing_token" lease with
  | Some (PStr lease_id), Some (PInt token) =>
      if String.eqb lease_id "" then stuck
      else
        result ← _call "leases.release" [("lease_id", PStr lease_id); ("fencing_token", PInt token)];
        throw (if is_released result then SchedulerError reason
               else ReclamationPending ("mismatched scheduler grant remains " +:+ released_state result))
  | _, _ => stuck
  end.

Definition expected_of (requirements : list requirement) : list (string * spec_float) :=
  foldl (fun d q => dict_set q.(q_resource) q.(q_memory) d) [] requirements.

(** One allocation of the grant is exclusive, with the memory that was asked for. *)
Definition allocation_ok (expected : list (string * spec_float)) (a : pyval) : bool :=
  match a with
  | PDict d =>
      let wanted := match dict_get (str_or_none (dict_get "resource_id" d)) expected with
                    | Some f => PFloat f | None => PNone end in
      str_is (dict_get "mode" d) "exclusive"
      && py_eqb (dict_get_default "memory_bytes" PNone (mapping_or_empty (dict_get "quantities" d))) wanted
  | _ => true
  end.

Definition allocation_id (a : pyval) : string :=
  match a with PDict d => str_or_empty (dict_get "resource_id" d) | _ => "" end.

(** "actual != set(expected)" for the ids read so far. *)
Definition same_ids (actual : list string) (expected : list (string * spec_float)) : bool :=
  forallb (fun id => bool_decide (id ∈ expected.*1)) actual && forallb (fun id => bool_decide (id ∈ actual)) expected.*1.

Definition background_key (owner_id : string) (resource_request : pyval) : string :=
  "pc-bg-" +:+ String.substring 0 40 (_digest (PDict [("owner", PStr owner_id); ("request", resource_request)])).

Definition reserve_background (project_root job_id attempt_id : string) (resource_request : pyval) (pid : option Z) :
    io W (option reservation) :=
  _ ← guard_io (String.eqb job_id "" || String.eqb attempt_id "")
        (SchedulerError "background owner requires non-empty job and attempt IDs");
  let owner_id := _background_owner_id project_root job_id attempt_id in
  context ← lift (_owner_context owner_id "background" project_root pid (Some job_id) (Some attempt_id) None);
  requirements ← _requirements resource_request;
  granted ← _request owner_id context (background_key owner_id resource_request) requirements;
  match granted with
  | None => mret None
  | Some lease =>
      let expected := expected_of requirements in
      let granted := match dict_get "allocations" lease with Some (PList l) => l | _ => [] end in
      if negb (forallb (allocation_ok expected) granted)
      then _reject_grant lease "Device Scheduler grant did not match the verified exclusive GPU request"
      else if negb (same_ids (map allocation_id granted) expected)
              || negb match lease_context lease with Some c => py_eqb (PDict c) (PDict context) | None => false end
      then _reject_grant lease "Device Scheduler grant did not match the Project Control owner request"
      else r ← _reservation lease; mret (Some r)
  end.

Definition _leases : io W (list pydict) :=
  result ← _call "leases.list" [];
  match dict_get "leases" result with
  | Some (PList values) => lift (mapM_result (fun v => _as_mapping v "lease") values)
  | _ => throw (SchedulerError "leases.list omitted leases")
  end.

Definition ours (lease : pydict) : bool :=
  starts_with "pc:" (str_or_empty (dict_get "owner_id" lease))
  && match lease_context lease with
     | Some c => str_is (dict_get "issuer" c) "project-control"
                 && py_eqb (dict_get_default "owner_id" PNone c) (dict_get_default "owner_id" PNone lease)
     | None => false
     end.

Definition _matching_leases (owner_id : option string) : io W (list pydict) :=
  leases ← _leases;
  mret (List.filter (fun l => ours l && match owner_id with Some o => str_is (dict_get "owner_id" l) o | None => true end) leases).

(** The state, as text, is one of an active lease. *)
Definition lease_active (lease : pydict) : bool :=
  bool_decide (str_or_none (dict_get "state" lease) ∈ _ACTIVE_LEASE_STATES).

Definition _current_lease (owner_id : string) : io W (option pydict) :=
  matches ← _matching_leases (Some owner_id);
  match List.filter lease_active matches with
  | _ :: _ :: _ => throw (SchedulerError "multiple active DS leases match one Project Control owner")
  | [l] => mret (Some l)
  | [] => mret (head matches)
  end.

(** ** Owner views *)

Definition context_pid (context : pydict) : result (option Z) :=
  let v := dict_get_default "pid" PNone context in
  if negb (truthy v) then Ok None
  else match py_int v with
       | Ok z => Ok (Some z)
       | Err (TypeError _ | ValueError _) => Ok None
       | Err x => Err x
       end.

Record owner_view := {
  ov_owner : string;
  ov_kind : pyval;
  ov_root : pyval;
  ov_job : pyval;
  ov_attempt : pyval;
  ov_service : pyval;
  ov_pid : option Z;
  ov_start : pyval;
  ov_state : string;
  ov_cpu_threads : Z;
  ov_ram_bytes : Z;
  ov_resources : list string;
  ov_lease : pyval;
  ov_token : pyval;
  ov_expires : pyval
}.

(** "int(float(quantities.get(key, 0)))". *)
Definition quantity (key : string) (a : pydict) : result Z :=
  f ← py_float (dict_get_default key (PInt 0) (mapping_or_empty (dict_get "quantities" a)));
  int_of_float f.

(** The CPU threads and memory of the allocations. *)
Definition add_allocation (resources : list (string * pydict)) (acc : Z * Z) (a : pyval) : result (Z * Z) :=
  match a with
  | PDict d =>
      let r := default [] (dict_get (str_or_empty (dict_get "resource_id" d)) resources) in
      if String.eqb (lower (_kind r)) "cpu" then n ← quantity "cores" d; Ok (acc.1 + n, acc.2)
      else if String.eqb (lower (_kind r)) "memory" then n ← quantity "bytes" d; Ok (acc.1, acc.2 + n)
      else Ok acc
  | _ => Ok acc
  end.

Definition owner (owner_id : string) : io W (option owner_view) :=
  current ← _current_lease owner_id;
  match current with
  | None => mret None
  | Some lease =>
      match lease_context lease with
      | Some context =>
          if str_is (dict_get "issuer" context) "project-control" && str_is (dict_get "owner_id" context) owner_id then
            resources ← _resources;
            let granted := match dict_get "allocations" lease with Some (PList l) => l | _ => [] end in
            sums ← lift (foldM (add_allocation (by_resource_id resources)) (0, 0) granted);
            pid ← lift (context_pid context);
            let state := py_str (dict_get_default "state" (PStr "unknown") lease) in
            ids ← (if String.eqb state "released" then mret [] else _resources_for_lease lease);
            let field k := dict_get_default k PNone context in
            mret (Some {| ov_owner := owner_id; ov_kind := dict_get_default "owner_kind" (PStr "external") context;
                          ov_root := field "project_root"; ov_job := field "job_id"; ov_attempt := field "attempt_id";
                          ov_service := field "service_id"; ov_pid := pid; ov_start := field "process_start";
                          ov_state := state; ov_cpu_threads := sums.1; ov_ram_bytes := sums.2; ov_resources := ids;
                          ov_lease := dict_get_default "lease_id" PNone lease;
                          ov_token := dict_get_default "fencing_token" PNone lease;
                          ov_expires := dict_get_default "expires_at" PNone lease |})
          else mret None
      | None => mret None
      end
  end.

(** The sorting key of a view: its "expires_at" as text. *)
Definition expires_text (v : owner_view) : string := py_str v.(ov_expires).

Definition owners_for_attempt (project_root attempt_id : string) : io W (list owner_view) :=
  leases ← _matching_leases None;
  views ← mapM_io (fun l => owner (str_or_empty (dict_get "owner_id" l)))
            (List.filter (fun l => let c := default [] (lease_context l) in
                                   str_is (dict_get "project_root" c) (resolve project_root)
                                   && str_is (dict_get "attempt_id" c) attempt_id) leases);
  mret (merge_sort (by_string expires_text) (omap id views)).

(** ** Conflicts *)

(** Legacy and scheduler ids to scheduler ids. *)
Definition inventory_ids (resources : list pydict) : list (string * string) :=
  let ds r := str_or_none (dict_get "resource_id" r) in
  foldl (fun d r => dict_set (ds r) (ds r) d)
    (foldl (fun d r => dict_set (_legacy_id r) (ds r) d) [] resources) resources.

Definition translated (wanted : list string) (resources : list pydict) : list string :=
  remove_dups (omap (fun id => dict_get id (inventory_ids resources)) wanted).

Definition holds_any (ids : list string) (lease : pydict) : bool :=
  match dict_get "allocations" lease with
  | Some (PList l) => existsb (fun a => match a with
                                        | PDict d => bool_decide (str_or_none (dict_get "resource_id" d) ∈ ids)
                                        | _ => false
                                        end) l
  | _ => false
  end.

Definition conflicts (resource_ids : list string) : io W (list string) :=
  let wanted := remove_dups resource_ids in
  if negb (nonempty wanted) then mret []
  else
    resources ← _resources;
    let ids := translated wanted resources in
    _ ← guard_io (negb (length ids =? length wanted)%nat) (SchedulerError "cannot map resource IDs to current DS inventory");
    leases ← _leases;
    mret (sorted_set (List.filter (fun o => negb (String.eqb o ""))
            (map (fun l => str_or_empty (dict_get "owner_id" l))
               (List.filter (fun l => lease_active l && holds_any ids l) leases)))).

(** The poll loop; [clock n] is the monotonic time at the n-th poll, and sleeping may change
    what the service answers. *)
Fixpoint wait_loop (fuel : nat) (clock : nat -> Z) (sleep : W -> W) (ids : list string) (deadline : Z) (n : nat) :
    io W (option bool) :=
  match fuel with
  | O => mret None
  | S fuel =>
      busy ← conflicts ids;
      if negb (nonempty busy) then mret (Some true)
      else if deadline <=? clock n then mret (Some false)
      else fun w => wait_loop fuel clock sleep ids deadline (S n) (sleep w)
  end.

Definition wait_for_quiescence (fuel : nat) (clock : nat -> Z) (sleep : W -> W) (ids : list string) (start timeout : Z) :
    io W (option bool) :=
  wait_loop fuel clock sleep ids (start + Z.max 0 timeout) 0.

(** ** Using and giving back a lease *)

Definition activate_foreground (owner_id : option string) (resource_ids : option (list string)) : io W bool :=
  view ← match owner_id with Some o => owner o | None => mret None end;
  mret match view, resource_ids with
       | Some v, Some ids => String.eqb v.(ov_state) "active"
                             && bool_decide (merge_sort String.le ids = merge_sort String.le v.(ov_resources))
       | _, _ => false
       end.

(** "lease[key]". *)
Definition item (lease : pydict) (key : string) : result pyval :=
  match dict_get key lease with Some v => Ok v | None => Err (KeyError key) end.

Definition lease_arguments (lease : pydict) : result pydict :=
  lease_id ← item lease "lease_id";
  token ← item lease "fencing_token";
  Ok [("lease_id", lease_id); ("fencing_token", token)].

Definition heartbeat (owner_id : string) (pid : option Z) : io W unit :=
  current ← _current_lease owner_id;
  match current with
  | None => throw (SchedulerError "no active Device Scheduler lease for owner")
  | Some lease =>
      _ ← guard_io (negb (str_is (dict_get "state" lease) "active")) (SchedulerError "no active Device Scheduler lease for owner");
      let context := default [] (lease_context lease) in
      _ ← guard_io (negb (str_is (dict_get "issuer" context) "project-control"))
            (SchedulerError "lease is outside the Project Control owner namespace");
      _ ← guard_io match pid with
                   | Some p => negb (String.eqb (pretty p) (str_or_none (dict_get "pid" context)))
                   | None => false
                   end (UnsupportedOperation "owner process identity is immutable under DS leases");
      arguments ← lift (lease_arguments lease);
      _ ← _call "leases.renew" (arguments ++ [("ttl_seconds", PFloat ttl)]);
      mret tt
  end.

(** [evidence]: some legacy residency argument is given. *)
Definition release (owner_id : string) (evidence : bool) : io W unit :=
  _ ← guard_io evidence (UnsupportedOperation "legacy residency evidence is not accepted by DS");
  current ← _current_lease owner_id;
  match current with
  | None => mret tt
  | Some lease =>
      if str_is (dict_get "state" lease) "released" then mret tt
      else
        arguments ← lift (lease_arguments lease);
        result ← _call "leases.release" arguments;
        guard_io (negb (is_released result))
          (ReclamationPending ("Device Scheduler release remains " +:+ released_state result))
  end.

(** ** Bundles and counts *)

Record bundle := { bn_resource_ids : list string; bn_exclusive : list string }.

Definition domain_key (isolation : list pydict) (r : pydict) : string :=
  match List.filter (fun d => bool_decide (resource_id r ∈ _domain_members d)) isolation with
  | [d] => str_or_none (dict_get "resource_id" d)
  | _ => resource_id r
  end.

Definition group_gpus (isolation gpus : list pydict) : list (string * list pydict) :=
  group_by (fun r => Some (domain_key isolation r)) gpus.

Definition bundle_candidates (count : nat) (isolation gpus : list pydict) : list (list pydict) :=
  match concat (map (fun kv => combinations count kv.2) (group_gpus isolation gpus)) with
  | [] => combinations count gpus
  | l => l
  end.

Definition make_bundle (isolation combo : list pydict) : bundle :=
  let ds_ids := map (fun r => str_or_none (dict_get "resource_id" r)) combo in
  {| bn_resource_ids := merge_sort String.le (map _legacy_id combo);
     bn_exclusive := merge_sort String.le
       (map (fun d => str_or_none (dict_get "resource_id" d))
          (List.filter (fun d => existsb (fun m => bool_decide (m ∈ ds_ids)) (_domain_members d)) isolation)) |}.

Definition bundle_le (a b : bundle) : Prop :=
  (length a.(bn_exclusive) < length b.(bn_exclusive))%nat
  \/ length a.(bn_exclusive) = length b.(bn_exclusive) /\ strs_lt b.(bn_resource_ids) a.(bn_resource_ids) = false.
#[export] Instance bundle_le_dec : RelDecision bundle_le.
Proof. intros a b. unfold bundle_le. apply _. Defined.

Definition free_bundle (isolation : list pydict) (combo : list pydict) : io W (list bundle) :=
  let b := make_bundle isolation combo in
  busy ← conflicts (b.(bn_resource_ids) ++ b.(bn_exclusive));
  mret (if nonempty busy then [] else [b]).

Definition compound_gpu_bundles (count : Z) : io W (list bundle) :=
  resources ← _resources;
  _ ← guard_io (count <? 0) (ValueError "r must be non-negative");
  let isolation := List.filter is_isolation resources in
  let gpus := List.filter is_gpu resources in
  found ← mapM_io (free_bundle isolation) (bundle_candidates (Z.to_nat count) isolation gpus);
  mret (merge_sort bundle_le (concat found)).

(** "len" of the allocations. *)
Definition allocation_count (lease : pydict) : result Z :=
  match dict_get "allocations" lease with
  | None => Ok 0
  | Some (PList l) => Ok (Z.of_nat (length l))
  | Some (PDict d) => Ok (Z.of_nat (length d))
  | Some (PStr s) => Ok (Z.of_nat (points s))
  | Some _ => Err (TypeError "object has no len()")
  end.

(** The membership test on the state itself. *)
Definition state_active (lease : pydict) : result bool :=
  match dict_get "state" lease with
  | Some (PStr s) => Ok (bool_decide (s ∈ _ACTIVE_LEASE_STATES))
  | Some (PList _ | PDict _) => Err (TypeError "unhashable type")
  | _ => Ok false
  end.

Definition release_observation_counts : io W (Z * Z * Z) :=
  leases ← _leases;
  active ← lift (filterM_result state_active leases);
  counts ← lift (mapM_result allocation_count active);
  mret (Z.of_nat (length active), sumZ id counts, 0).

Definition owner_activity (owner_ids : list string) : io W (Z * Z) :=
  leases ← _matching_leases None;
  active ← lift (filterM_result (fun l =>
    match dict_get "owner_id" l with
    | Some (PStr o) => if bool_decide (o ∈ owner_ids) then state_active l else Ok false
    | _ => Ok false
    end) leases);
  counts ← lift (mapM_result allocation_count active);
  mret (Z.of_nat (length (remove_dups (map (fun l => str_or_empty (dict_get "owner_id" l)) active))), sumZ id counts).

(** The operations of the local facade that the scheduler has no equivalent for. *)
Inductive unsupported :=
  | op_upsert | op_replace | op_reserve_service | op_begin_foreground | op_reconcile_owners | op_preempt_requested
  | op_request_preemption | op_set_priority | op_protect_residency | op_record_process | op_register_drain | op_drain.

Definition refuse {A} (op : unsupported) : io W A :=
  throw (UnsupportedOperation
    match op with
    | op_upsert | op_replace => "resource discovery is Device Scheduler-owned"
    | op_reserve_service => "managed services must use an operator-registered Device Scheduler backend"
    | op_begin_foreground => "Project Control foreground handoff is unavailable until it supports a verified DS continuation; unmanaged allocation is disabled"
    | op_reconcile_owners => "DS owns lease reconciliation; no local stale-owner sweep is permitted"
    | op_preempt_requested | op_drain => "DS leases do not expose a legacy preemption signal"
    | op_request_preemption => "lease release is not an implicit preemption grant"
    | op_set_priority => "legacy owner priority mutation has no lease equivalent"
    | op_protect_residency => "residency protection belongs to an operator-registered DS backend"
    | op_record_process => "DS backend owns managed process tracking"
    | op_register_drain => "in-process drain callbacks are unsupported under DS authority"
    end).

End Facade.

End DeviceScheduler.
