(* ===== verification/DeviceSchedulerProps.v ===== *)
(** * The Device Scheduler facade: what it accepts, gives back and reports

    The theorems assume nothing of the service: whatever it answers, a reservation is
    reported only for a grant that matches a verified request, and a grant that does not
    match is given back or reported as pending. *)

From Stdlib Require Import ZArith SpecFloat.
From S2P Require Import Prelude PyValue Text Json Effects Contracts DeviceScheduler.
Import DeviceScheduler.

#[local] Open Scope string_scope.
#[local] Open Scope Z_scope.
#[local] Open Scope list_scope.

Lemma mapM_result_elem {A B} (f : A -> result B) l ys y :
  mapM_result f l = Ok ys -> y ∈ ys -> exists x, x ∈ l /\ f x = Ok y.
Proof.
  revert ys. induction l as [|x l IH]; intros ys H Hy; cbn in H.
  { apply Ok_inj in H as <-. by apply not_elem_of_nil in Hy. }
  apply result_bind_ok in H as (z & Hz & H). apply result_bind_ok in H as (zs & Hzs & H). apply Ok_inj in H as <-.
  apply elem_of_cons in Hy as [->|Hy]; [exists x; split; [left|done]|].
  destruct (IH zs Hzs Hy) as (x' & Hx' & E). exists x'. split; [by right|done].
Qed.

Section Facade.
Context `{rt : runtime} {W : Type} `{srv : !service W}.

(** ** Choosing GPUs *)

Lemma elem_of_candidates wanted resources r :
  r ∈ gpu_candidates wanted resources <-> r ∈ resources /\ offered wanted resources r = true.
Proof. unfold gpu_candidates. by rewrite merge_sort_Permutation, elem_of_list_filter. Qed.

Lemma elem_of_aliases resources k r : dict_get k (aliases resources) = Some r -> r ∈ resources /\ _legacy_id r = k.
Proof.
  unfold aliases. induction resources as [|x l IH] using rev_ind; [done|]. rewrite foldl_app. cbn [foldl].
  destruct (decide (_legacy_id x = k)) as [<-|Hne].
  - rewrite dict_get_set_eq. intros [= ->]. split; [apply elem_of_app; right; left|done].
  - rewrite dict_get_set_ne by done. intros [H1 H2]%IH. split; [apply elem_of_app; by left|done].
Qed.

(** The item is offered, or equal to one that is. *)
Definition backed (wanted : list (string * string)) (resources : list pydict) (r : pydict) : Prop :=
  r ∈ resources /\ exists c, c ∈ resources /\ offered wanted resources c = true /\ (c = r \/ py_eqb (PDict c) (PDict r) = true).

Lemma choose_id_backed wanted resources id r :
  choose_id wanted resources id = Ok r -> backed wanted resources r /\ _legacy_id r = id.
Proof.
  unfold choose_id. destruct (dict_get id (aliases resources)) as [x|] eqn:E; [|done].
  apply elem_of_aliases in E as [Hx Hid]. destruct (_ || _) eqn:Ho; [|done]. intros H. apply Ok_inj in H as <-.
  split; [|done]. split; [done|]. apply orb_true_iff in Ho as [Ho|Ho]; [by exists x; auto|].
  apply existsb_exists in Ho as (c & Hc & Heq). apply list_elem_of_In, elem_of_candidates in Hc as [Hc Ho]. exists c; auto.
Qed.

(** The offered items of one adapter, in the order of their legacy ids. *)
Definition adapter_group (candidates : list pydict) (a : string) : list pydict :=
  List.filter (fun r => bool_decide (adapter_key r = Some a)) candidates.

Lemma by_adapter_spec candidates a g : (a, g) ∈ by_adapter candidates -> g = adapter_group candidates a.
Proof. apply group_by_spec. Qed.

Lemma by_adapter_covers candidates a :
  adapter_group candidates a <> [] -> (a, adapter_group candidates a) ∈ by_adapter candidates.
Proof.
  intros H. destruct (adapter_group candidates a) as [|r l] eqn:E; [done|].
  assert (r ∈ adapter_group candidates a) as Hr by (rewrite E; left). apply elem_of_list_filter in Hr as [Hr Hk%bool_decide_eq_true].
  destruct (group_by_covers adapter_key candidates r a Hr Hk) as (g & Hg & _).
  rewrite <-E. by rewrite <-(by_adapter_spec _ _ _ Hg).
Qed.

#[local] Instance entry_le_trans {A} : Transitive (@entry_le A).
Proof. intros a b c. unfold entry_le. apply transitivity. Qed.
#[local] Instance entry_le_total {A} : Total (@entry_le A).
Proof. intros a b. unfold entry_le. apply total, _. Qed.

(** With a positive count: the first adapter, by name, with enough offered GPUs; its first [count] ones. *)
Lemma choose_count_spec candidates count :
  0 < count ->
  match choose_count candidates count with
  | Ok chosen => exists a, count <= Z.of_nat (length (adapter_group candidates a)) /\
      chosen = take (Z.to_nat count) (adapter_group candidates a) /\
      forall a', count <= Z.of_nat (length (adapter_group candidates a')) -> String.le a a'
  | Err x => x = NoGrant "insufficient_verified_gpu_resources" /\
      forall a, Z.of_nat (length (adapter_group candidates a)) < count
  end.
Proof.
  intros Hc. unfold choose_count. set (p := fun kv : string * list pydict => count <=? Z.of_nat (length kv.2)).
  assert (forall a, count <= Z.of_nat (length (adapter_group candidates a)) ->
    (a, adapter_group candidates a) ∈ List.filter p (merge_sort entry_le (by_adapter candidates))) as Hin.
  { intros a Ha. apply elem_of_list_filter. rewrite merge_sort_Permutation. split; [|by apply Z.leb_le].
    apply by_adapter_covers. intros E. rewrite E in Ha. cbn in Ha. lia. }
  assert (StronglySorted entry_le (List.filter p (merge_sort entry_le (by_adapter candidates)))) as Hsorted.
  { assert (StronglySorted entry_le (merge_sort entry_le (by_adapter candidates))) as Hs by (apply StronglySorted_merge_sort; apply _).
    revert Hs. generalize (merge_sort entry_le (by_adapter candidates)) as l. induction l as [|x l IH]; [done|].
    intros [Hs Hall]%StronglySorted_inv. cbn [List.filter]. destruct (p x); [|by apply IH]. constructor; [by apply IH|].
    apply Forall_forall. intros y [Hy _]%elem_of_list_filter. rewrite Forall_forall in Hall. by apply Hall. }
  destruct (List.filter p _) as [|[a g] rest] eqn:E.
  - split; [done|]. intros a. apply Z.lt_nge. intros Ha. apply Hin in Ha. by apply not_elem_of_nil in Ha.
  - assert ((a, g) ∈ List.filter p (merge_sort entry_le (by_adapter candidates))) as Hag by (rewrite E; left).
    apply elem_of_list_filter in Hag as [Hag Hlen%Z.leb_le]. rewrite merge_sort_Permutation in Hag.
    apply by_adapter_spec in Hag as ->. cbn in Hlen. exists a. split; [done|]. split; [done|].
    intros a' Ha'. apply Hin in Ha' as [[= -> _]|Ha']%elem_of_cons; [reflexivity|].
    apply StronglySorted_inv in Hsorted as [_ Hall]. rewrite Forall_forall in Hall. by apply (Hall _ Ha').
Qed.

Lemma supported_spec raw rq :
  supported_request raw = Ok rq ->
  lower rq.(rq_kind) ∈ _GPU_ALIASES /\ asks_more rq = false /\ nonempty rq.(rq_ids) = (rq.(rq_count) =? 0) /\ 0 <= rq.(rq_count).
Proof.
  unfold supported_request. intros H. apply result_bind_ok in H as (rq0 & Hp & H).
  apply result_bind_ok in H as (u1 & H1%raise_if_ok & H). apply result_bind_ok in H as (u2 & H2%raise_if_ok & H).
  apply result_bind_ok in H as (u3 & H3%raise_if_ok & H). apply Ok_inj in H as <-.
  apply negb_false_iff, bool_decide_eq_true in H1. split; [done|]. split; [done|]. split.
  { by destruct (nonempty (rq_ids rq0)), (rq_count rq0 =? 0). }
  unfold legacy_request in Hp. destruct (parse_resource_request raw) as [r|[]] eqn:E; try discriminate Hp.
  apply Ok_inj in Hp as ->. by destruct (parse_resource_request_wf _ _ E).
Qed.

(** What [choose] returns: ids as asked, or the count from one group; one adapter. *)
Record chosen_ok (rq : request) (resources chosen : list pydict) : Prop := {
  ch_backed : Forall (backed rq.(rq_tags) resources) chosen;
  ch_ids : rq.(rq_count) = 0 -> map _legacy_id chosen = rq.(rq_ids);
  ch_count : 0 < rq.(rq_count) -> Z.of_nat (length chosen) = rq.(rq_count);
  ch_adapter : exists a, Forall (fun r => adapter r = Some (PStr a)) chosen
}.

Lemma one_adapter_ok chosen u : one_adapter chosen = Ok u -> exists a, Forall (fun r => adapter r = Some (PStr a)) chosen.
Proof.
  unfold one_adapter. intros H. apply result_bind_ok in H as (v & _ & H). apply raise_if_ok, negb_false_iff in H.
  destruct chosen as [|r l]; [done|]. destruct (adapter r) as [[]|]; try discriminate. exists s. apply Forall_forall.
  intros x Hx. rewrite forallb_forall in H. apply list_elem_of_In in Hx. specialize (H x Hx). unfold str_is in H.
  destruct (adapter x) as [[]|]; try discriminate. by apply String.eqb_eq in H as ->.
Qed.

Lemma choose_ok raw rq resources chosen :
  supported_request raw = Ok rq -> choose rq resources = Ok chosen -> chosen_ok rq resources chosen.
Proof.
  intros (_ & _ & Hone & Hpos)%supported_spec H. unfold choose in H. apply result_bind_ok in H as (l & Hl & H).
  apply result_bind_ok in H as (u & Ha%one_adapter_ok & H). apply Ok_inj in H as ->.
  rewrite Hone in Hl. destruct (Z.eqb_spec (rq_count rq) 0) as [E|Hne].
  - assert (forall ids l, mapM_result (choose_id (rq_tags rq) resources) ids = Ok l ->
      Forall (backed (rq_tags rq) resources) l /\ map _legacy_id l = ids) as Hmap.
    { clear. intros ids. induction ids as [|id ids IH]; intros l H; cbn in H; [by apply Ok_inj in H as <-|].
      apply result_bind_ok in H as (r & Hr & H). apply result_bind_ok in H as (rs & Hrs & H). apply Ok_inj in H as <-.
      apply choose_id_backed in Hr as [Hb Hid]. destruct (IH _ Hrs) as [H1 H2].
      split; [by constructor|]. cbn. by rewrite Hid, H2. }
    apply Hmap in Hl as [H1 H2]. split; [done|done|lia|done].
  - pose proof (choose_count_spec (gpu_candidates (rq_tags rq) resources) (rq_count rq) ltac:(lia)) as Hc.
    rewrite Hl in Hc. destruct Hc as (a & Hlen & -> & _). split; [|lia| |done].
    + apply Forall_forall. intros r Hr%elem_of_take. destruct Hr as (n & Hn & _). apply list_elem_of_lookup_2 in Hn.
      apply elem_of_list_filter in Hn as [Hn _]. apply elem_of_candidates in Hn as [Hr Ho]. split; [done|]. exists r; auto.
    + intros _. rewrite length_take. lia.
Qed.

(** The requirement of a chosen GPU: its own id and a positive budget within its capacity. *)
Lemma requirement_ok r q :
  requirement_of r = Ok q ->
  exists id budget, dict_get "resource_id" r = Some id /\ q.(q_resource) = py_str id /\ py_float budget = Ok q.(q_memory) /\
    num_le budget (PInt 0) = false /\ num_le budget (dict_get_default "memory_bytes" PNone (capacities r)) = true.
Proof.
  unfold requirement_of. intros H. apply result_bind_ok in H as (u1 & _ & H).
  apply result_bind_ok in H as (u2 & Hb%raise_if_ok & H). apply result_bind_ok in H as (f & Hf & H).
  apply orb_false_iff in Hb as [H1 H2%negb_false_iff]. destruct (dict_get "resource_id" r) as [id|]; [|done].
  apply Ok_inj in H as <-. by exists id, (dict_get_default "admission_memory_bytes"
    (dict_get_default "memory_bytes" PNone (capacities r)) (default [] (external_lease r))).
Qed.

(** ** Grants *)

Lemma request_granted owner_id context key qs w lease w' :
  _request owner_id context key qs w = (Ok (Some lease), w') ->
  exists result, _call "leases.request" (request_payload owner_id context key qs) w = (Ok result, w') /\
    lease_of result = PDict lease /\ dict_get "owner_id" lease = Some (PStr owner_id) /\
    dict_get "state" lease = Some (PStr "active").
Proof.
  unfold _request. destruct (_call _ _ w) as [[result|[]] w1]; try discriminate. intros H.
  destruct (lease_of result) as [| | | | | |d] eqn:E; try discriminate. unfold str_is in H.
  destruct (dict_get "owner_id" d) as [[]|] eqn:Eo; try discriminate. destruct (String.eqb_spec s owner_id) as [->|]; [|discriminate].
  destruct (dict_get "state" d) as [[]|] eqn:Es; try discriminate.
  destruct (String.eqb_spec s "active") as [->|]; [|discriminate]. injection H as -> ->. by exists result.
Qed.

Lemma expected_elem qs k f : dict_get k (expected_of qs) = Some f -> exists q, q ∈ qs /\ q.(q_resource) = k /\ q.(q_memory) = f.
Proof.
  unfold expected_of. induction qs as [|x l IH] using rev_ind; [done|]. rewrite foldl_app. cbn [foldl].
  destruct (decide (q_resource x = k)) as [<-|Hne].
  - rewrite dict_get_set_eq. intros [= <-]. exists x. split; [apply elem_of_app; right; left|done].
  - rewrite dict_get_set_ne by done. intros (q & Hq & E)%IH. exists q. split; [apply elem_of_app; by left|done].
Qed.

Lemma expected_keys qs k : k ∈ (expected_of qs).*1 <-> k ∈ map q_resource qs.
Proof.
  unfold expected_of. induction qs as [|x l IH] using rev_ind; [done|]. rewrite foldl_app, map_app. cbn [foldl].
  rewrite dict_set_keys, elem_of_app. destruct (decide (q_resource x ∈ _)) as [Hin|Hin].
  - rewrite IH. split; [by left|intros [H| ->%list_elem_of_singleton]; [done|by apply IH]].
  - rewrite elem_of_app, IH. done.
Qed.

(** A grant that matches the request: exactly the requested ids, each exclusive with the requested memory. *)
Record grant_matches (qs : list requirement) (context lease : pydict) : Prop := {
  gm_ids : forall id, id ∈ map q_resource qs <->
    exists a l, dict_get "allocations" lease = Some (PList l) /\ a ∈ l /\ allocation_id a = id;
  gm_exclusive : forall l d, dict_get "allocations" lease = Some (PList l) -> PDict d ∈ l ->
    dict_get "mode" d = Some (PStr "exclusive") /\
    (dict_get "resource_id" d <> None -> exists q, q ∈ qs /\ q.(q_resource) = allocation_id (PDict d) /\
       py_eqb (dict_get_default "memory_bytes" PNone (mapping_or_empty (dict_get "quantities" d))) (PFloat q.(q_memory)) = true);
  gm_context : exists c, lease_context lease = Some c /\ py_eqb (PDict c) (PDict context) = true
}.

Definition granted_list (lease : pydict) : list pyval :=
  match dict_get "allocations" lease with Some (PList l) => l | _ => [] end.

Lemma grant_accepted qs context lease :
  qs <> [] ->
  forallb (allocation_ok (expected_of qs)) (granted_list lease) = true ->
  same_ids (map allocation_id (granted_list lease)) (expected_of qs) = true ->
  match lease_context lease with Some c => py_eqb (PDict c) (PDict context) | None => false end = true ->
  grant_matches qs context lease.
Proof.
  intros Hne Hall Hids Hc. unfold same_ids in Hids. apply andb_true_iff in Hids as [H1 H2].
  rewrite forallb_forall in Hall, H1, H2.
  assert (granted_list lease <> []) as Hl.
  { intros E. rewrite E in H2. destruct qs as [|q qs]; [done|].
    assert (In (q_resource q) (expected_of (q :: qs)).*1) as Hq by (apply list_elem_of_In, expected_keys; left).
    apply H2, bool_decide_eq_true in Hq. by apply not_elem_of_nil in Hq. }
  assert (exists l, dict_get "allocations" lease = Some (PList l) /\ granted_list lease = l) as (l & El & Eg).
  { clear -Hl. unfold granted_list in *. destruct (dict_get "allocations" lease) as [[]|]; try done. by eexists. }
  rewrite Eg in *. split.
  - intros id. rewrite <-expected_keys. split.
    + intros Hid%list_elem_of_In. apply H2, bool_decide_eq_true in Hid. apply list_elem_of_fmap in Hid as (a & -> & Ha). by exists a, l.
    + intros (a & l' & E & Ha & <-). rewrite El in E. injection E as <-.
      assert (In (allocation_id a) (map allocation_id l)) as Hin by (apply in_map; by apply list_elem_of_In).
      by apply H1, bool_decide_eq_true in Hin.
  - intros l' d E Hd. rewrite El in E. injection E as <-. pose proof Hd as Hd2. apply list_elem_of_In in Hd. apply Hall in Hd.
    cbn [allocation_ok] in Hd. apply andb_true_iff in Hd as [Hm Hmem]. unfold str_is in Hm.
    destruct (dict_get "mode" d) as [[]|] eqn:Em; try discriminate. apply String.eqb_eq in Hm as ->. split; [done|].
    intros Hsome. destruct (dict_get "resource_id" d) as [id|] eqn:Eid; [|done].
    assert (allocation_id (PDict d) = py_str id) as Ea by (unfold allocation_id, str_or_empty; by rewrite Eid).
    assert (In (allocation_id (PDict d)) (map allocation_id l)) as Hin by (apply in_map; by apply list_elem_of_In).
    apply H1, bool_decide_eq_true in Hin. rewrite Ea in *. unfold str_or_none in Hmem. change (default PNone (Some id)) with id in Hmem.
    destruct (dict_get (py_str id) (expected_of qs)) as [f|] eqn:Ef.
    + apply expected_elem in Ef as (q & Hq & E1 & E2). exists q. split; [done|]. split; [done|]. rewrite E2. exact Hmem.
    + by apply dict_get_None in Ef.
  - destruct (lease_context lease) as [c|]; [by exists c|done].
Qed.

Lemma reject_fails {A} lease reason w (a : A) w' : _reject_grant lease reason w <> (Ok a, w').
Proof.
  unfold _reject_grant. destruct (dict_get "lease_id" lease) as [[]|]; try done. destruct (dict_get "fencing_token" lease) as [[]|]; try done.
  destruct (String.eqb s ""); [done|]. intros H. apply io_bind_ok in H as (r & w1 & _ & H). discriminate H.
Qed.

(** The id and the fencing token a lease can be released with. *)
Definition release_key (lease : pydict) : option (string * Z) :=
  match dict_get "lease_id" lease, dict_get "fencing_token" lease with
  | Some (PStr lease_id), Some (PInt token) => if String.eqb lease_id "" then None else Some (lease_id, token)
  | _, _ => None
  end.

(** What became of a mismatched lease when [x] was raised: released under its token and confirmed; the answer was
    not that, and the lease is reported as pending; the call raised, and [x] is what it raised; or there was
    nothing to release it with, and it is reported as pending. *)
Definition given_back (lease : pydict) (w : W) (x : exn) (w' : W) : Prop :=
  match release_key lease with
  | Some (lease_id, token) =>
      let call := _call "leases.release" [("lease_id", PStr lease_id); ("fencing_token", PInt token)] w in
      (exists result, call = (Ok result, w') /\
         if is_released result then exists reason, x = SchedulerError reason else exists text, x = ReclamationPending text)
      \/ call = (Err x, w')
  | None => w' = w /\ exists text, x = ReclamationPending text
  end.

Lemma reject_released {A} lease reason w x w' :
  @_reject_grant rt W srv A lease reason w = (Err x, w') -> given_back lease w x w'.
Proof.
  unfold _reject_grant, given_back, release_key. intros H.
  destruct (dict_get "lease_id" lease) as [[]|]; try (injection H as <- <-; split; [done|by eexists]).
  destruct (dict_get "fencing_token" lease) as [[]|]; try (injection H as <- <-; split; [done|by eexists]).
  destruct (String.eqb s ""); [injection H as <- <-; split; [done|by eexists]|]. cbv zeta.
  destruct (_call "leases.release" [("lease_id", PStr s); ("fencing_token", PInt z)] w) as [[result|y] w1] eqn:E.
  - rewrite (io_bind_run _ _ _ _ _ E) in H. left. exists result.
    destruct (is_released result); injection H as <- <-; (split; [done|by eexists]).
  - rewrite (io_bind_fail _ _ _ _ _ E) in H. injection H as -> ->. by right.
Qed.

Lemma requirements_run raw w qs w' :
  _requirements raw w = (Ok qs, w') ->
  exists rq resources chosen, supported_request raw = Ok rq /\ _resources w = (Ok resources, w') /\
    choose rq resources = Ok chosen /\ mapM_result requirement_of chosen = Ok qs.
Proof.
  unfold _requirements. intros H. inv_io. apply result_bind_ok in H as (chosen & Hc & H).
  by exists a, a0, chosen.
Qed.

Lemma chosen_nonempty raw rq resources chosen :
  supported_request raw = Ok rq -> choose rq resources = Ok chosen -> chosen <> [].
Proof.
  intros Hs Hc. destruct (choose_ok raw rq resources chosen Hs Hc) as [_ H1 H2 _]. intros ->.
  destruct (supported_spec _ _ Hs) as (_ & _ & Hone & Hpos).
  destruct (Z.eqb_spec (rq_count rq) 0) as [E|Hne]; [|specialize (H2 ltac:(lia)); cbn in H2; lia].
  specialize (H1 E). cbn in H1. by rewrite <-H1 in Hone.
Qed.

Lemma mapM_length {A B} (f : A -> result B) l ys : mapM_result f l = Ok ys -> length ys = length l.
Proof.
  revert ys. induction l as [|x l IH]; intros ys H; cbn in H; [by apply Ok_inj in H as <-|].
  apply result_bind_ok in H as (z & _ & H). apply result_bind_ok in H as (zs & Hzs & H). apply Ok_inj in H as <-.
  cbn. by rewrite (IH _ Hzs).
Qed.

(** The run of [reserve_background] up to the answer to its request: the owner's context, the inventory it
    read, the GPUs it chose there, their requirements, and what was granted. *)
Definition asked (root job attempt : string) (raw : pyval) (pid : option Z) (w : W) (rq : request)
    (resources chosen : list pydict) (context : pydict) (qs : list requirement) (granted : option pydict) (w2 : W) : Prop :=
  let owner_id := _background_owner_id root job attempt in
  job <> "" /\ attempt <> "" /\
  _owner_context owner_id "background" root pid (Some job) (Some attempt) None = Ok context /\
  supported_request raw = Ok rq /\
  exists w1, _resources w = (Ok resources, w1) /\ choose rq resources = Ok chosen /\ mapM_result requirement_of chosen = Ok qs /\
    _request owner_id context (background_key owner_id raw) qs w1 = (Ok granted, w2).

Definition grant_accepts (qs : list requirement) (context lease : pydict) : bool :=
  forallb (allocation_ok (expected_of qs)) (granted_list lease)
  && same_ids (map allocation_id (granted_list lease)) (expected_of qs)
  && match lease_context lease with Some c => py_eqb (PDict c) (PDict context) | None => false end.

(** From the answer on. *)
Lemma reserve_asked root job attempt raw pid w rq resources chosen context qs granted w2 :
  asked root job attempt raw pid w rq resources chosen context qs granted w2 ->
  match granted with
  | None => reserve_background root job attempt raw pid w = (Ok None, w2)
  | Some lease =>
      if grant_accepts qs context lease
      then reserve_background root job attempt raw pid w = (r ← _reservation lease; mret (Some r)) w2
      else exists reason, reserve_background root job attempt raw pid w = _reject_grant lease reason w2
  end.
Proof.
  intros (Hj & Ha & Hctx & Hrq & w1 & Hres & Hch & Hqs & Hreq). unfold reserve_background.
  rewrite (io_bind_run _ _ w tt w) by (by rewrite (proj2 (String.eqb_neq _ _) Hj), (proj2 (String.eqb_neq _ _) Ha)). cbv zeta.
  rewrite (io_bind_run _ _ w context w) by (unfold lift; by rewrite Hctx).
  rewrite (io_bind_run _ _ w qs w1).
  2: { unfold _requirements. rewrite (io_bind_run _ _ w rq w) by (unfold lift; by rewrite Hrq).
       rewrite (io_bind_run _ _ _ _ _ Hres). unfold lift. by rewrite Hch, bind_Ok, Hqs. }
  rewrite (io_bind_run _ _ _ _ _ Hreq). destruct granted as [lease|]; [|done]. fold (granted_list lease). unfold grant_accepts.
  destruct (forallb _ _); cbn [negb andb]; [|by eexists]. destruct (same_ids _ _); cbn [negb andb orb]; [|by eexists].
  destruct (match lease_context lease with Some _ => _ | None => _ end); cbn [negb]; [done|by eexists].
Qed.

Lemma reserve_ok_asked root job attempt raw pid w r w' :
  reserve_background root job attempt raw pid w = (Ok r, w') ->
  exists rq resources chosen context qs granted w2, asked root job attempt raw pid w rq resources chosen context qs granted w2.
Proof.
  unfold reserve_background. intros H.
  apply io_bind_ok in H as (u & w0 & [Hids ->]%guard_ok & H). apply orb_false_iff in Hids as [Hj%String.eqb_neq Ha%String.eqb_neq].
  cbv zeta in H. apply io_bind_ok in H as (context & w0 & [Hctx ->]%lift_ok & H).
  apply io_bind_ok in H as (qs & w1 & Hqs & H). apply io_bind_ok in H as (granted & w2 & Hreq & _).
  apply requirements_run in Hqs as (rq & resources & chosen & H1 & H2 & H3 & H4).
  exists rq, resources, chosen, context, qs, granted, w2. do 4 (split; [done|]). by exists w1.
Qed.

(** C25: A reservation is real.  Whatever the service answers, [reserve_background] reports a reservation only
    after asking for GPUs of the inventory it read: each verified (or equal to a verified one) and carrying the
    asked tags, exactly the asked ids or the asked number, all of one adapter, each with a positive memory
    budget within its capacity; and only for an active lease of exactly these resources, exclusive, with
    these budgets, under the owner and the context it sent. *)
Theorem reserve_background_sound root job attempt raw pid w r w' :
  reserve_background root job attempt raw pid w = (Ok (Some r), w') ->
  exists rq resources chosen context qs lease w2,
    asked root job attempt raw pid w rq resources chosen context qs (Some lease) w2 /\
    asks_more rq = false /\ chosen_ok rq resources chosen /\
    Forall2 (fun g q => exists budget, py_float budget = Ok q.(q_memory) /\ num_le budget (PInt 0) = false /\
               num_le budget (dict_get_default "memory_bytes" PNone (capacities g)) = true /\
               q.(q_resource) = str_or_none (dict_get "resource_id" g)) chosen qs /\
    dict_get "owner_id" lease = Some (PStr (_background_owner_id root job attempt)) /\
    dict_get "state" lease = Some (PStr "active") /\ grant_matches qs context lease /\
    r.(rs_owner) = _background_owner_id root job attempt.
Proof.
  intros H. destruct (reserve_ok_asked _ _ _ _ _ _ _ _ H) as (rq & resources & chosen & context & qs & granted & w2 & Has).
  pose proof (reserve_asked _ _ _ _ _ _ _ _ _ _ _ _ _ Has) as Hr. destruct granted as [lease|]; [|rewrite H in Hr; discriminate Hr].
  destruct (grant_accepts qs context lease) eqn:Hacc.
  2: { destruct Hr as [reason Hr]. rewrite H in Hr. symmetry in Hr. by apply reject_fails in Hr. }
  rewrite H in Hr. symmetry in Hr. apply io_bind_ok in Hr as (res & w3 & Hres & [= <- <-]).
  pose proof Has as (_ & _ & _ & Hrq & w1 & _ & Hch & Hqs & Hreq).
  apply request_granted in Hreq as (result & _ & _ & Ho & Hs).
  destruct (supported_spec _ _ Hrq) as (_ & Hmore & _). pose proof (choose_ok _ _ _ _ Hrq Hch) as Hok.
  exists rq, resources, chosen, context, qs, lease, w2. split; [exact Has|]. do 2 (split; [done|]). split; [|split; [done|split; [done|split]]].
  - clear -Hqs. revert qs Hqs. induction chosen as [|g l IH]; intros qs H; cbn in H; [by apply Ok_inj in H as <-|].
    apply result_bind_ok in H as (q & Hq & H). apply result_bind_ok in H as (qs' & Hqs & H). apply Ok_inj in H as <-.
    constructor; [|by apply IH]. apply requirement_ok in Hq as (id & budget & E & -> & ? & ? & ?).
    exists budget. do 3 (split; [done|]). unfold str_or_none. by rewrite E.
  - unfold grant_accepts in Hacc. apply andb_true_iff in Hacc as [[H1 H2]%andb_true_iff H3]. apply grant_accepted; try done.
    intros ->. apply mapM_length in Hqs. cbn in Hqs. destruct chosen; [|done]. by apply (chosen_nonempty _ _ _ _ Hrq Hch).
  - unfold _reservation in Hres. rewrite Ho in Hres. apply io_bind_ok in Hres as (ids & w4 & _ & [= <- _]). done.
Qed.

(** C26: A grant that does not match is given back.  When the service grants a lease that differs from the
    request, [reserve_background] never returns it: it asks for its release under its fencing token and raises
    the mismatch if the service confirms it, reports the lease as pending if the service does not, and passes
    on what that call raises; a lease without a usable id and token is reported as pending. *)
Theorem mismatch_given_back root job attempt raw pid w rq resources chosen context qs lease w2 :
  asked root job attempt raw pid w rq resources chosen context qs (Some lease) w2 ->
  grant_accepts qs context lease = false ->
  exists x w', reserve_background root job attempt raw pid w = (Err x, w') /\ given_back lease w2 x w'.
Proof.
  intros Has Hacc. pose proof (reserve_asked _ _ _ _ _ _ _ _ _ _ _ _ _ Has) as Hr. cbn beta iota in Hr. rewrite Hacc in Hr.
  destruct Hr as [reason Hr]. rewrite Hr. destruct (_reject_grant lease reason w2) as [[a|x] w'] eqn:E; [by apply reject_fails in E|].
  exists x, w'. split; [done|]. by eapply reject_released.
Qed.

(** ** Conflicts and waiting *)

(** No conflict is reported only when no active lease that was listed holds one of the resources. *)
Lemma conflicts_none ids w w' :
  ids <> [] -> conflicts ids w = (Ok [], w') ->
  exists resources leases w1, _resources w = (Ok resources, w1) /\ _leases w1 = (Ok leases, w') /\
    length (translated (remove_dups ids) resources) = length (remove_dups ids) /\
    forall l, l ∈ leases -> lease_active l = true -> str_or_empty (dict_get "owner_id" l) <> "" ->
      holds_any (translated (remove_dups ids) resources) l = false.
Proof.
  unfold conflicts. intros Hne H. destruct (nonempty (remove_dups ids)) eqn:En; cbn [negb] in H.
  2: { destruct ids as [|i ids]; [done|]. assert (i ∈ remove_dups (i :: ids)) as Hi by (apply elem_of_remove_dups; left).
       destruct (remove_dups (i :: ids)); [by apply not_elem_of_nil in Hi|done]. }
  apply io_bind_ok in H as (resources & w1 & Hr & H). apply io_bind_ok in H as (u & w2 & [Hlen ->]%guard_ok & H).
  apply io_bind_ok in H as (leases & w2 & Hl & H). injection H as H <-. exists resources, leases, w1.
  do 2 (split; [done|]). split; [by apply negb_false_iff, Nat.eqb_eq in Hlen|]. intros l Hin Ha Ho.
  destruct (holds_any _ l) eqn:Eh; [|done]. exfalso.
  assert (str_or_empty (dict_get "owner_id" l) ∈ (sorted_set (List.filter (fun o => negb (String.eqb o ""))
            (map (fun l => str_or_empty (dict_get "owner_id" l))
               (List.filter (fun l => lease_active l && holds_any (translated (remove_dups ids) resources) l) leases))))) as Hm.
  { unfold sorted_set. rewrite merge_sort_Permutation, elem_of_remove_dups, elem_of_list_filter. split.
    - apply list_elem_of_fmap. exists l. split; [done|]. apply elem_of_list_filter. split; [done|]. by rewrite Ha, Eh.
    - apply negb_true_iff. by apply String.eqb_neq. }
  rewrite H in Hm. by apply not_elem_of_nil in Hm.
Qed.

(** Waiting answers true only after a poll that saw no conflict. *)
Lemma wait_true fuel clock sleep ids deadline n w w' :
  wait_loop fuel clock sleep ids deadline n w = (Ok (Some true), w') -> exists w1, conflicts ids w1 = (Ok [], w').
Proof.
  revert n w. induction fuel as [|fuel IH]; intros n w H; [discriminate H|]. cbn [wait_loop] in H.
  apply io_bind_ok in H as (busy & w1 & Hb & H). destruct busy as [|b l]; cbn [nonempty negb] in H.
  - injection H as <-. by exists w.
  - destruct (deadline <=? clock n); [discriminate H|]. by apply IH in H.
Qed.

(** The wait ends: when the clock has reached the deadline by the poll [k], [S k] polls are enough. *)
Lemma wait_terminates k clock sleep ids deadline n w :
  deadline <= clock (n + k)%nat -> (wait_loop (S k) clock sleep ids deadline n w).1 <> Ok None.
Proof.
  revert n w. induction k as [|k IH]; intros n w Hk.
  - rewrite Nat.add_0_r in Hk. cbn [wait_loop]. unfold mbind, io_bind. destruct (conflicts ids w) as [[[|b l]|x] w1]; cbn; try discriminate.
    apply Z.leb_le in Hk. by rewrite Hk.
  - remember (S k) as k' eqn:Ek. cbn [wait_loop]. unfold mbind, io_bind.
    destruct (conflicts ids w) as [[[|b l]|x] w1]; cbn [nonempty negb fst]; try (cbn; discriminate).
    destruct (deadline <=? clock n); [cbn; discriminate|]. apply IH. subst k'. by rewrite Nat.add_succ_comm.
Qed.

End Facade.

(** * The Device Scheduler facade against two services

    One offers two GPUs of one adapter and grants what it is asked; the other grants the
    same lease for another GPU. *)

From Stdlib Require Import ZArith SpecFloat.
From S2P Require Import Prelude PyValue Text Json Effects Contracts DeviceScheduler.
Import DeviceScheduler.

#[local] Open Scope string_scope.
#[local] Open Scope Z_scope.
#[local] Open Scope list_scope.

#[local] Instance host : runtime := {|
  py_repr := fun _ => "?"; float_of_str := fun _ => None; float_repr := fun _ => "1.0"; sha256 := fun s => s;
  resolve := fun s => s; own_pid := 7; process_start := fun _ => Some "boot"; ttl := binary_normalize 53 1024 60 0 false |}.

Definition gpu (id : string) : pyval :=
  PDict [("resource_id", PStr ("gpu:nv:" +:+ id)); ("kind", PStr "gpu"); ("source_adapter_id", PStr "nv");
         ("attributes", PDict [("uuid", PStr id)]); ("capacities", PDict [("memory_bytes", PInt 1048576)]);
         ("external_lease", PDict [("supported", PBool true); ("mode", PStr "exclusive_gpu_quiescence");
            ("required_allocation_mode", PStr "exclusive"); ("release_method", PStr "repeatable_read_only_observation")])].

(** The lease answering a request: its owner and context, one exclusive allocation of [id]. *)
Definition lease_for (id : string) (arguments : pydict) : pydict :=
  let request := mapping_or_empty (dict_get "request" arguments) in
  [("lease_id", PStr "l1"); ("fencing_token", PInt 1); ("state", PStr "active");
   ("owner_id", default PNone (dict_get "owner_id" request));
   ("owner_context", default PNone (dict_get "owner_context" request));
   ("allocations", PList [PDict [("resource_id", PStr ("gpu:nv:" +:+ id)); ("mode", PStr "exclusive");
      ("quantities", PDict [("memory_bytes", PFloat (binary_normalize 53 1024 1048576 0 false))])]])].

(** A service that leases [id] whatever is asked; its state is the operations it has answered. *)
Definition leasing (id : string) (operation : string) (arguments : pydict) (w : list string) : answer * list string :=
  (value (PDict (if String.eqb operation "resources.list" then [("resources", PList [gpu "a"; gpu "b"])]
                 else if String.eqb operation "leases.request" then [("lease", PDict (lease_for id arguments))]
                 else [("state", PStr "released")])), operation :: w).

Definition one_gpu : pyval := PDict [("schema_version", PInt 1); ("kind", PStr "accelerator"); ("count", PInt 1)].

Section Honest.
#[local] Instance honest : service (list string) := leasing "a".

Definition granted_run : result (option reservation) * list string := reserve_background "/p" "j" "a" one_gpu None [].

Lemma reserve_background_sound_witness :
  exists r w', reserve_background "/p" "j" "a" one_gpu None [] = (Ok (Some r), w') /\
    r.(rs_resources) = ["accelerator:a"] /\ r.(rs_owner) = _background_owner_id "/p" "j" "a".
Proof.
  destruct granted_run as [[[r|]|] w'] eqn:E; [|vm_compute in E; discriminate E..].
  exists r, w'. split; [exact E|]. split.
  - assert (H : (match granted_run.1 with Ok (Some r) => r.(rs_resources) | _ => [] end) = ["accelerator:a"])
      by (vm_compute; reflexivity).
    rewrite E in H. exact H.
  - destruct (reserve_background_sound _ _ _ _ _ _ _ _ E) as (rq & rs & ch & ctx & qs & l & w2 & H). exact (proj2 (proj2 (proj2 (proj2 (proj2 (proj2 (proj2 H))))))).
Defined.
End Honest.

Section Mismatched.
#[local] Instance mismatched : service (list string) := leasing "b".

Definition wanted_gpu : pyval := PDict [("schema_version", PInt 1); ("kind", PStr "gpu"); ("ids", PList [PStr "accelerator:a"])].

(** The parts of the run, one by one. *)
Definition get {A} (d : A) (r : result A) : A := match r with Ok a => a | Err _ => d end.
Definition owner_b : string := _background_owner_id "/p" "j" "a".
Definition context_b : pydict := get [] (_owner_context owner_b "background" "/p" None (Some "j") (Some "a") None).
Definition inventory_b : list pydict := get [] (_resources []).1.
Definition request_b : request :=
  {| rq_kind := "gpu"; rq_ids := ["accelerator:a"]; rq_tags := []; rq_exclusive := []; rq_isolate_pcie_root := false;
     rq_isolate_nvlink_domain := false; rq_cpu_heavy := false; rq_count := 0; rq_cpu_threads := 0; rq_ram_bytes := 0 |}.
Definition chosen_b : list pydict := get [] (choose request_b inventory_b).
Definition requirements_b : list requirement := get [] (mapM_result requirement_of chosen_b).
Definition lease_b : pydict := lease_for "b" (request_payload owner_b context_b (background_key owner_b wanted_gpu) requirements_b).

Lemma asked_b : asked "/p" "j" "a" wanted_gpu None [] request_b inventory_b chosen_b context_b requirements_b (Some lease_b)
  ["leases.request"; "resources.list"].
Proof.
  split; [discriminate|]. split; [discriminate|]. split; [vm_compute; reflexivity|]. split; [vm_compute; reflexivity|].
  exists ["resources.list"]. repeat split; vm_compute; reflexivity.
Qed.

Lemma mismatch_given_back_witness :
  grant_accepts requirements_b context_b lease_b = false /\
  exists x w', reserve_background "/p" "j" "a" wanted_gpu None [] = (Err x, w') /\
    given_back lease_b ["leases.request"; "resources.list"] x w'.
Proof.
  assert (H : grant_accepts requirements_b context_b lease_b = false) by (vm_compute; reflexivity).
  split; [exact H|]. exact (mismatch_given_back _ _ _ _ _ _ _ _ _ _ _ _ _ asked_b H).
Defined.

(** The lease was given back before the call raised. *)
Example mismatch_released : reserve_background "/p" "j" "a" wanted_gpu None [] =
  (Err (SchedulerError "Device Scheduler grant did not match the verified exclusive GPU request"),
   ["leases.release"; "leases.request"; "resources.list"]).
Proof. vm_compute. reflexivity. Qed.
End Mismatched.
