(* ===== verification/Masking.v ===== *)
(** * Masking of private fields (as1_packets.mask_payload)

    Values of fields whose name is a credential name, and bearer tokens inside
    text, are replaced before anything is stored; the omissions list says where.
    The main theorem: masking is idempotent, so what [create] masks is what [_put]
    accepts. *)

From Stdlib Require Import ZArith Ascii.
From stdpp Require Import pretty.
From S2P Require Import Prelude PyValue Text Json.

#[local] Open Scope string_scope.
#[local] Open Scope Z_scope.
#[local] Open Scope list_scope.

Definition _PRIVATE_KEYS : list string :=
  ["password"; "secret"; "access_token"; "refresh_token"; "api_key"; "authorization"; "credential";
   "credentials"; "workflow_handle"; "capability"; "bearer"; "hidden_reasoning"; "chain_of_thought";
   "private_context"].

Fixpoint replace_char (a b : Ascii.ascii) (s : string) : string :=
  match s with
  | EmptyString => EmptyString
  | String c s => String (if Ascii.eqb c a then b else c) (replace_char a b s)
  end.

(** "key.lower().replace('-', '_')". *)
Definition normal_key (key : string) : string :=
  replace_char (Ascii.ascii_of_nat 45) (Ascii.ascii_of_nat 95) (lower key).

Definition is_private (key : string) : bool := bool_decide (normal_key key ∈ _PRIVATE_KEYS).

(** ** Bearer tokens in text *)

Definition is_letter (c : Ascii.ascii) : bool := in_range 65 90 c || in_range 97 122 c.
Definition is_word (c : Ascii.ascii) : bool := is_letter c || is_digit c || (code c =? 95)%nat.

(** [A-Za-z0-9._~+/=-] *)
Definition is_token (c : Ascii.ascii) : bool :=
  is_letter c || is_digit c ||
  bool_decide (code c ∈ [46; 95; 126; 43; 47; 61; 45]%nat).

Fixpoint span_rest (f : Ascii.ascii -> bool) (s : string) : string :=
  match s with
  | EmptyString => EmptyString
  | String c s' => if f c then span_rest f s' else s
  end.

(** What follows "f+" at the head of [s], None when [s] does not start with [f]. *)
Definition plus_rest (f : Ascii.ascii -> bool) (s : string) : option string :=
  match s with
  | String c s' => if f c then Some (span_rest f s') else None
  | EmptyString => None
  end.

(** Case-insensitive literal [p] (given in lower case). *)
Fixpoint literal_rest (p s : string) : option string :=
  match p, s with
  | EmptyString, _ => Some s
  | String a p, String c s => if Ascii.eqb (lower_ascii c) a then literal_rest p s else None
  | String _ _, EmptyString => None
  end.

(** What follows a match of "Bearer\s+[token]+" at the head of [s]. *)
Definition bearer_rest (s : string) : option string :=
  s1 ← literal_rest "bearer" s;
  s2 ← plus_rest is_space s1;
  plus_rest is_token s2.

(** "_BEARER.sub('Bearer [masked]', s)"; [prev] says whether the previous character
    is a word character, where the boundary fails.  After a match the next
    character is no token character, so no match can start there. *)
Fixpoint bearer_sub_from (fuel : nat) (prev : bool) (s : string) : string :=
  match fuel, s with
  | O, _ => s
  | _, EmptyString => EmptyString
  | S fuel, String c s' =>
      match (if prev then None else bearer_rest s) with
      | Some rest => "Bearer [masked]" +:+ bearer_sub_from fuel true rest
      | None => String c (bearer_sub_from fuel (is_word c) s')
      end
  end.
Definition bearer_sub (s : string) : string := bearer_sub_from (String.length s) false s.

(** ** mask_payload *)

Record omission := { om_path : string; om_reason : string }.

Definition masked_at (path : string) : omission := {| om_path := path; om_reason := "policy_masked" |}.

Definition masked : string := "[masked]".

Definition is_masked (v : pyval) : bool :=
  match v with PStr s => String.eqb s masked | _ => false end.

Fixpoint mask_payload (v : pyval) (path : string) : pyval * list omission :=
  match v with
  | PDict d =>
      let r := (fix go (d : list (string * pyval)) : list (string * pyval) * list omission :=
         match d with
         | [] => ([], [])
         | (key, item) :: d =>
             let location := path +:+ "/" +:+ key in
             let here :=
               if is_private key
               then (PStr masked, if is_masked item then [] else [masked_at location])
               else mask_payload item location in
             let rest := go d in
             ((key, here.1) :: rest.1, here.2 ++ rest.2)
         end) d in
      (PDict r.1, r.2)
  | PList l =>
      let r := (fix go (n : nat) (l : list pyval) : list pyval * list omission :=
         match l with
         | [] => ([], [])
         | item :: l =>
             let here := mask_payload item (path +:+ "/" +:+ pretty n) in
             let rest := go (S n) l in
             (here.1 :: rest.1, here.2 ++ rest.2)
         end) O l in
      (PList r.1, r.2)
  | PStr s =>
      let cleaned := bearer_sub s in
      (PStr cleaned, if String.eqb cleaned s then [] else [masked_at path])
  | _ => (v, [])
  end.

Example bearer_sub_ex :
  bearer_sub "auth: bearer  a.b-c= end, xBearer q, Bearer" = "auth: Bearer [masked] end, xBearer q, Bearer".
Proof. vm_compute. reflexivity. Qed.

(** ** Masking is idempotent *)

(** No match of the pattern begins in [s]. *)
Fixpoint no_bearer (prev : bool) (s : string) : Prop :=
  match s with
  | EmptyString => True
  | String c s' => (prev = true \/ bearer_rest s = None) /\ no_bearer (is_word c) s'
  end.

Lemma no_bearer_sub fuel prev s : no_bearer prev s -> bearer_sub_from fuel prev s = s.
Proof.
  revert prev s. induction fuel as [|fuel IH]; intros prev s H; [done|].
  destruct s as [|c s]; [done|]. simpl in *. destruct H as [Hh Ht].
  rewrite (IH _ _ Ht). destruct prev; [done|]. destruct Hh as [|Hh]; [done|]. by rewrite Hh.
Qed.

Lemma bearer_sub_untouched fuel c s :
  (String.length (String c s) <= fuel)%nat ->
  exists fuel', (String.length s <= fuel')%nat /\
    bearer_sub_from fuel true (String c s) = String c (bearer_sub_from fuel' (is_word c) s).
Proof. destruct fuel as [|fuel]; simpl; [lia|]. intros H. exists fuel. split; [lia|done]. Qed.

(** A letter of the literal is a word character. *)
Lemma bearer_letter a c :
  lower_ascii c = a -> bool_decide (code a ∈ [97; 98; 101; 114]%nat) = true -> is_word c = true.
Proof. intros <-. destruct c as [[] [] [] [] [] [] [] []]; vm_compute; done. Qed.

Lemma literal_sub p fuel s r :
  all_chars (fun a => bool_decide (code a ∈ [97; 98; 101; 114]%nat)) p = true ->
  (String.length s <= fuel)%nat -> literal_rest p (bearer_sub_from fuel true s) = Some r ->
  exists r0 fuel', (String.length r0 <= fuel')%nat /\ literal_rest p s = Some r0 /\
    r = bearer_sub_from fuel' true r0.
Proof.
  revert fuel s. induction p as [|a p IH]; intros fuel s Hp Hf H.
  { simpl in H. simplify_eq. exists s, fuel. done. }
  simpl in Hp. apply andb_true_iff in Hp as [Ha Hp]. destruct s as [|c s]; [by destruct fuel|].
  destruct (bearer_sub_untouched fuel c s Hf) as (fuel' & Hf' & Heq). rewrite Heq in H. simpl in H.
  simpl. destruct (Ascii.eqb_spec (lower_ascii c) a) as [Hc|]; [|done].
  rewrite (bearer_letter a c Hc Ha) in H. by apply (IH fuel').
Qed.

Lemma bearer_rest_cons c s :
  bearer_rest (String c s) =
  if Ascii.eqb (lower_ascii c) "b"%char
  then s1 ← literal_rest "earer" s; s2 ← plus_rest is_space s1; plus_rest is_token s2
  else None.
Proof. unfold bearer_rest. cbn [literal_rest]. by destruct (Ascii.eqb _ _). Qed.

(** A match starts with the letter b or B, which is a token and no space. *)
Lemma bearer_rest_head c s rest :
  bearer_rest (String c s) = Some rest -> is_space c = false /\ is_token c = true /\ is_word c = true.
Proof.
  rewrite bearer_rest_cons. destruct (Ascii.eqb_spec (lower_ascii c) "b"%char) as [Hc|]; [|done].
  intros _. revert Hc. destruct c as [[] [] [] [] [] [] [] []]; vm_compute; done.
Qed.

Lemma bearer_sub_head fuel prev c s :
  (String.length (String c s) <= fuel)%nat ->
  (exists rest, bearer_rest (String c s) = Some rest /\ exists out,
     bearer_sub_from fuel prev (String c s) = String "B" out) \/
  exists fuel', (String.length s <= fuel')%nat /\
    bearer_sub_from fuel prev (String c s) = String c (bearer_sub_from fuel' (is_word c) s).
Proof.
  destruct fuel as [|fuel]; simpl; [lia|]. intros H.
  destruct (if prev then None else bearer_rest (String c s)) as [rest|] eqn:Hm.
  - left. exists rest. destruct prev; [done|]. split; [done|]. eexists. reflexivity.
  - right. exists fuel. split; [lia|done].
Qed.

Lemma span_sub fuel s :
  (String.length s <= fuel)%nat ->
  exists fuel', (String.length (span_rest is_space s) <= fuel')%nat /\
    span_rest is_space (bearer_sub_from fuel false s) =
    bearer_sub_from fuel' false (span_rest is_space s).
Proof.
  revert fuel. induction s as [|c s IH]; intros fuel Hf; [exists fuel; by destruct fuel|].
  destruct (bearer_sub_head fuel false c s Hf) as [(rest & Hm & out & Heq)|(fuel' & Hf' & Heq)].
  - pose proof (bearer_rest_head _ _ _ Hm) as (Hsp & _ & _). exists fuel. simpl span_rest at 1 3.
    rewrite Hsp. split; [done|]. rewrite Heq. reflexivity.
  - rewrite Heq. simpl. destruct (is_space c) eqn:Hsp.
    + assert (is_word c = false) as -> by
        (revert Hsp; destruct c as [[] [] [] [] [] [] [] []]; vm_compute; done).
      by apply IH.
    + exists fuel. split; [done|]. by rewrite Heq.
Qed.

Lemma bearer_rest_sub c s fuel :
  (String.length s <= fuel)%nat -> bearer_rest (String c s) = None ->
  bearer_rest (String c (bearer_sub_from fuel (is_word c) s)) = None.
Proof.
  intros Hf Hn. destruct (bearer_rest (String c (bearer_sub_from fuel (is_word c) s))) as [r|] eqn:H;
    [|done]. exfalso. revert H Hn. rewrite !bearer_rest_cons.
  destruct (Ascii.eqb_spec (lower_ascii c) "b"%char) as [Hc|]; [|done].
  rewrite (bearer_letter "b"%char c Hc eq_refl). intros H Hn.
  apply bind_Some in H as (s1 & Hl & H). apply bind_Some in H as (s2 & Hs & Ht).
  apply literal_sub in Hl as (r0 & fuel1 & Hf1 & Hl & ->); [|done|done]. rewrite Hl in Hn. simpl in Hn.
  destruct r0 as [|c0 r0]; [by destruct fuel1|].
  destruct (bearer_sub_untouched fuel1 c0 r0 Hf1) as (fuel2 & Hf2 & Heq). rewrite Heq in Hs.
  simpl in Hs, Hn. destruct (is_space c0) eqn:Hsp; [|done].
  assert (is_word c0 = false) as Hw by
    (revert Hsp; destruct c0 as [[] [] [] [] [] [] [] []]; vm_compute; done).
  rewrite Hw in Hs. destruct (span_sub fuel2 r0 Hf2) as (fuel3 & Hf3 & Hsub). rewrite Hsub in Hs.
  simplify_eq. simpl in Hn. destruct (span_rest is_space r0) as [|c1 r1]; [by destruct fuel3|].
  destruct (bearer_sub_head fuel3 false c1 r1 Hf3) as [(rest & Hm & _)|(fuel4 & _ & Heq4)].
  - apply bearer_rest_head in Hm as (_ & Htk & _). simpl in Hn. by rewrite Htk in Hn.
  - rewrite Heq4 in Ht. simpl in Ht, Hn. by destruct (is_token c1).
Qed.

Lemma bearer_rest_length s rest : bearer_rest s = Some rest -> (String.length rest < String.length s)%nat.
Proof.
  assert (forall f s, String.length (span_rest f s) <= String.length s)%nat as Hspan.
  { intros f t. induction t as [|c t IH]; simpl; [done|]. destruct (f c); simpl; lia. }
  assert (forall f s r, plus_rest f s = Some r -> (String.length r <= String.length s)%nat) as Hplus.
  { intros f [|c t] r; simpl; [done|]. destruct (f c); [|done]. intros [= <-]. pose proof (Hspan f t). lia. }
  assert (forall p s r, literal_rest p s = Some r ->
    (String.length r + String.length p = String.length s)%nat) as Hlit.
  { intros p. induction p as [|a p IH]; intros [|c t] r; simpl; try naive_solver lia.
    destruct (Ascii.eqb _ _); [|done]. intros H%IH. lia. }
  unfold bearer_rest. intros H. apply bind_Some in H as (s1 & H1%Hlit & H).
  apply bind_Some in H as (s2 & H2%Hplus & H3%Hplus). simpl in H1. lia.
Qed.

(** After a match no token character follows. *)
Lemma bearer_rest_stops s c rest : bearer_rest s = Some (String c rest) -> is_token c = false.
Proof.
  unfold bearer_rest. intros H. apply bind_Some in H as (s1 & _ & H).
  apply bind_Some in H as (s2 & _ & H). unfold plus_rest in H.
  destruct s2 as [|a s2]; [done|]. destruct (is_token a); [|done]. injection H as H. clear -H.
  induction s2 as [|b s2 IH]; simpl in H; [done|]. destruct (is_token b) eqn:Hb; [auto|]. by simplify_eq.
Qed.

Lemma no_bearer_prefix out : no_bearer false out -> no_bearer false ("Bearer [masked]" +:+ out).
Proof. intros H. simpl. repeat (split; [right; reflexivity|]). exact H. Qed.

Lemma bearer_sub_clean fuel prev s :
  (String.length s <= fuel)%nat -> no_bearer prev (bearer_sub_from fuel prev s).
Proof.
  revert prev s. induction fuel as [|fuel IH]; intros prev s Hf.
  { by destruct s; simpl in *; [|lia]. }
  destruct s as [|c s]; [done|]. cbn [bearer_sub_from].
  destruct (if prev then None else bearer_rest (String c s)) as [rest|] eqn:Hm.
  - destruct prev; [done|]. apply no_bearer_prefix.
    pose proof (bearer_rest_length _ _ Hm) as Hlen. simpl in Hf, Hlen.
    assert (no_bearer true (bearer_sub_from fuel true rest)) as Hrest by (apply IH; lia).
    destruct rest as [|c1 rest]; [by destruct fuel|].
    destruct (bearer_sub_untouched fuel c1 rest) as (fuel' & _ & Heq); [simpl in *; lia|].
    rewrite Heq in *. simpl in *. split; [|apply Hrest]. right.
    apply bearer_rest_stops in Hm. rewrite bearer_rest_cons.
    destruct (Ascii.eqb_spec (lower_ascii c1) "b"%char) as [Hc|]; [|done]. exfalso.
    revert Hc Hm. destruct c1 as [[] [] [] [] [] [] [] []]; vm_compute; done.
  - simpl in Hf. split; [|apply IH; lia].
    destruct prev; [by left|]. right. apply bearer_rest_sub; [lia|done].
Qed.

(** Substituting again changes nothing. *)
Lemma bearer_sub_idem s : bearer_sub (bearer_sub s) = bearer_sub s.
Proof. apply no_bearer_sub, bearer_sub_clean. done. Qed.

Definition mask_entries (path : string) : list (string * pyval) -> list (string * pyval) * list omission :=
  fix go d := match d with
    | [] => ([], [])
    | (key, item) :: d =>
        let location := path +:+ "/" +:+ key in
        let here :=
          if is_private key
          then (PStr masked, if is_masked item then [] else [masked_at location])
          else mask_payload item location in
        let rest := go d in
        ((key, here.1) :: rest.1, here.2 ++ rest.2)
    end.

Definition mask_items (path : string) : nat -> list pyval -> list pyval * list omission :=
  fix go n l := match l with
    | [] => ([], [])
    | item :: l =>
        let here := mask_payload item (path +:+ "/" +:+ pretty n) in
        let rest := go (S n) l in
        (here.1 :: rest.1, here.2 ++ rest.2)
    end.

Lemma mask_dict_eq d path :
  mask_payload (PDict d) path = (PDict (mask_entries path d).1, (mask_entries path d).2).
Proof. done. Qed.
Lemma mask_list_eq l path :
  mask_payload (PList l) path = (PList (mask_items path O l).1, (mask_items path O l).2).
Proof. done. Qed.

Lemma mask_items_idem path path' n m l :
  Forall (fun v => forall path path', mask_payload (mask_payload v path).1 path' = ((mask_payload v path).1, [])) l ->
  mask_items path' m (mask_items path n l).1 = ((mask_items path n l).1, []).
Proof.
  intros H. revert n m. induction H as [|v l Hv _ IH]; intros n m; [done|].
  simpl. rewrite Hv. simpl. by rewrite IH.
Qed.

Lemma mask_entries_idem path path' d :
  Forall (fun kv => forall path path',
    mask_payload (mask_payload kv.2 path).1 path' = ((mask_payload kv.2 path).1, [])) d ->
  mask_entries path' (mask_entries path d).1 = ((mask_entries path d).1, []).
Proof.
  intros H. induction H as [|[key v] d Hv _ IH]; [done|].
  simpl. rewrite IH. destruct (is_private key) eqn:Hp; simpl; rewrite ?Hp; simpl; [done|].
  by rewrite Hv.
Qed.

(** Masking is idempotent: a masked value is stored unchanged and reports no
    omission wherever it sits, so nothing private is left in it. *)
Theorem mask_payload_idempotent v path path' :
  mask_payload (mask_payload v path).1 path' = ((mask_payload v path).1, []).
Proof.
  revert path path'. induction v as [| | | |s|l IH|d IH] using pyval_rect_nested;
    intros path path'; try done.
  - simpl. by rewrite bearer_sub_idem, String.eqb_refl.
  - rewrite !mask_list_eq. simpl fst. rewrite mask_list_eq. by rewrite mask_items_idem.
  - rewrite !mask_dict_eq. simpl fst. rewrite mask_dict_eq. by rewrite mask_entries_idem.
Qed.

(** A value masking leaves alone holds no private field. *)
Inductive holds_private : pyval -> Prop :=
  | hp_field d key v : (key, v) ∈ d -> is_private key = true -> v <> PStr masked -> holds_private (PDict d)
  | hp_in_dict d key v : (key, v) ∈ d -> is_private key = false -> holds_private v -> holds_private (PDict d)
  | hp_in_list l v : v ∈ l -> holds_private v -> holds_private (PList l)
  | hp_text s : bearer_sub s <> s -> holds_private (PStr s).

Lemma mask_entries_reports path d key v :
  (key, v) ∈ d ->
  (if is_private key then v <> PStr masked
   else forall path, (mask_payload v path).2 <> []) ->
  (mask_entries path d).2 <> [].
Proof.
  intros Hin Hv. induction d as [|[k x] d IH]; [by apply not_elem_of_nil in Hin|].
  simpl. apply elem_of_cons in Hin as [[= <- <-]|Hin].
  - destruct (is_private key).
    + unfold is_masked. destruct v; simpl; try done.
      destruct (String.eqb_spec s masked) as [->|]; simpl; [done|done].
    + intros [H _]%app_nil. by apply Hv in H.
  - intros [_ H]%app_nil. by apply IH in H.
Qed.

(** Masking reports an omission for every value that holds a private field or a
    bearer token anywhere, so a packet with one is refused. *)
Theorem mask_payload_complete v path : holds_private v -> (mask_payload v path).2 <> [].
Proof.
  intros H. revert path. induction H as [d key v Hin Hk Hv|d key v Hin Hk _ IH|l v Hin _ IH|s Hs];
    intros path.
  - rewrite mask_dict_eq. apply (mask_entries_reports path d key v Hin). by rewrite Hk.
  - rewrite mask_dict_eq. apply (mask_entries_reports path d key v Hin). by rewrite Hk.
  - rewrite mask_list_eq. simpl. generalize O. induction l as [|x l IHl]; intros n;
      [by apply not_elem_of_nil in Hin|]. simpl. apply elem_of_cons in Hin as [->|Hin].
    + intros [H _]%app_nil. by apply IH in H.
    + intros [_ H]%app_nil. by apply IHl in H.
  - simpl. by destruct (String.eqb_spec (bearer_sub s) s).
Qed.

(** A value masking reports nothing about is left as it is. *)
Lemma mask_clean_same v path : (mask_payload v path).2 = [] -> (mask_payload v path).1 = v.
Proof.
  revert path. induction v as [| | | |s|l IH|d IH] using pyval_rect_nested; intros path; try done.
  - simpl. by destruct (String.eqb_spec (bearer_sub s) s) as [->|].
  - rewrite mask_list_eq. simpl. intros H. f_equal. revert H. generalize O as n.
    induction IH as [|v l Hv _ IHl]; intros n; simpl; [done|]. intros [H1 H2]%app_nil.
    by rewrite Hv, IHl.
  - rewrite mask_dict_eq. simpl. intros H. f_equal. revert H.
    induction IH as [|[k v] d Hv _ IHd]; simpl; [done|]. intros [H1 H2]%app_nil. rewrite IHd by done.
    destruct (is_private k); simpl in *; [|by rewrite Hv].
    unfold is_masked in H1. destruct v; try done. by destruct (String.eqb_spec s masked) as [->|].
Qed.
