(* ===== verification/Packets.v ===== *)
(** * The packet store (as1_packets.py, with the contracts of as1_contracts.py)

    SQLitePacketStore as a state: the bodies, packet, pin, retention and note
    tables.  One operation is one transaction: a function from the store to a value
    or an exception and the store it leaves; an exception rolls back.  A packet row
    keeps its metadata as a record, whose identifier, alias and body hash are the
    columns of the same name.  SHA-256 and the repr of floats are parameters, the
    clock is read once per operation. *)

From Stdlib Require Import ZArith SpecFloat.
From stdpp Require Import pretty gmap fin_sets relations.
From S2P Require Import Prelude PyValue Text Stamps Json Masking Contracts HostCoordinator.

#[local] Open Scope string_scope.
#[local] Open Scope Z_scope.
#[local] Open Scope list_scope.

(** ** Contracts: source locators and packets *)

(** [relative_path]: no absolute, drive-letter, backslash, NUL or ".." path. *)
Definition drive_letter (s : string) : bool :=
  match s with String c (String c' _) => is_letter c && (code c' =? 58)%nat | _ => false end.

Definition relative_path_bad (s : string) : bool :=
  String.eqb s "" || String.prefix "/" s || drive_letter s ||
  any_char (fun c => (code c =? 92)%nat || (code c =? 0)%nat) s ||
  bool_decide (".." ∈ split_on (Ascii.ascii_of_nat 47) s).

Record source_locator := {
  sl_project : string;
  sl_repository : string;
  sl_path : string;
  sl_sha256 : string;
  sl_revision : option string;
  sl_line_start : option Z;
  sl_line_end : option Z;
  sl_worktree : option string
}.

Definition range_bad (a b : option Z) : bool :=
  match a with Some x => x <? 1 | None => false end ||
  match b with Some y => y <? 1 | None => false end ||
  match a, b with Some x, Some y => y <? x | _, _ => false end.

Definition source_ok (s : source_locator) : bool :=
  negb (String.eqb (sl_project s) "") && negb (String.eqb (sl_repository s) "") &&
  negb (relative_path_bad (sl_path s)) && sha256_match (sl_sha256 s) &&
  negb (range_bad (sl_line_start s) (sl_line_end s)).

Definition opt_str (o : option string) : pyval := match o with Some s => PStr s | None => PNone end.
Definition opt_int (o : option Z) : pyval := match o with Some z => PInt z | None => PNone end.

(** [model_dump]. *)
Definition source_wire (s : source_locator) : pyval :=
  PDict [("project", PStr (sl_project s)); ("repository", PStr (sl_repository s));
         ("path", PStr (sl_path s)); ("content_sha256", PStr (sl_sha256 s));
         ("revision", opt_str (sl_revision s)); ("line_start", opt_int (sl_line_start s));
         ("line_end", opt_int (sl_line_end s)); ("worktree", opt_str (sl_worktree s))].

(** [model_validate] of a dict, strict and without extra fields. *)
Definition read_str (k : string) (d : pydict) : option string := dict_get k d ≫= as_str.
Definition read_opt_str (k : string) (d : pydict) : option (option string) :=
  match dict_get_default k PNone d with PNone => Some None | PStr s => Some (Some s) | _ => None end.
Definition read_opt_int (k : string) (d : pydict) : option (option Z) :=
  match dict_get_default k PNone d with PNone => Some None | PInt z => Some (Some z) | _ => None end.

Definition source_fields : list string :=
  ["project"; "repository"; "path"; "content_sha256"; "revision"; "line_start"; "line_end"; "worktree"].

Definition parse_source (v : pyval) : option source_locator :=
  match v with
  | PDict d =>
      project ← read_str "project" d;
      repository ← read_str "repository" d;
      path ← read_str "path" d;
      sha ← read_str "content_sha256" d;
      revision ← read_opt_str "revision" d;
      line_start ← read_opt_int "line_start" d;
      line_end ← read_opt_int "line_end" d;
      worktree ← read_opt_str "worktree" d;
      let s := {| sl_project := project; sl_repository := repository; sl_path := path;
                  sl_sha256 := sha; sl_revision := revision; sl_line_start := line_start;
                  sl_line_end := line_end; sl_worktree := worktree |} in
      if source_ok s && forallb (fun k => bool_decide (k ∈ source_fields)) d.*1 then Some s else None
  | _ => None
  end.

(** An InformationPacket without its payload, and with it. *)
Record meta := {
  mt_packet_id : string;
  mt_alias : string;
  mt_created_at : string;
  mt_tool : string;
  mt_sha256 : string;
  mt_sources : list source_locator;
  mt_parents : list string;
  mt_access_scope : pydict;
  mt_expires_at : option string;
  mt_freshness : option pydict;
  mt_omissions : option (list pyval);
  mt_pinned_by : option (list string)
}.

Record packet := { pk_meta : meta; pk_payload : pydict }.

Definition strs (l : list string) : pyval := PList (map PStr l).

Definition meta_wire (m : meta) : pydict :=
  [("format", PStr "pc-packet/1"); ("packet_id", PStr (mt_packet_id m)); ("alias", PStr (mt_alias m));
   ("created_at", PStr (mt_created_at m)); ("tool", PStr (mt_tool m));
   ("payload_sha256", PStr (mt_sha256 m)); ("sources", PList (map source_wire (mt_sources m)));
   ("parents", strs (mt_parents m)); ("access_scope", PDict (mt_access_scope m));
   ("expires_at", opt_str (mt_expires_at m));
   ("freshness", match mt_freshness m with Some d => PDict d | None => PNone end);
   ("omissions", match mt_omissions m with Some l => PList l | None => PNone end);
   ("pinned_by", match mt_pinned_by m with Some l => strs l | None => PNone end)].

Definition packet_wire (p : packet) : pyval :=
  PDict (meta_wire (pk_meta p) ++ [("payload", PDict (pk_payload p))]).

(** ^[a-z]+(?:-[a-z]+){1,3}$ *)
Definition alias_ok (s : string) : bool :=
  let parts := split_on (Ascii.ascii_of_nat 45) s in
  (2 <=? length parts)%nat && (length parts <=? 4)%nat &&
  forallb (fun p => negb (String.eqb p "") && all_chars (in_range 97 122) p) parts.

(** "len(s)" of a str: its code points. *)
Fixpoint str_len (s : string) : nat :=
  match s with
  | EmptyString => O
  | String c s => (if in_range 128 191 c then 0 else 1) + str_len s
  end.

(** ** The store *)

Record packet_row := {
  pr_meta : meta;
  pr_invocation : pyval;
  pr_expired : bool
}.
Definition pr_id (r : packet_row) : string := mt_packet_id (pr_meta r).
Definition pr_alias (r : packet_row) : string := mt_alias (pr_meta r).
Definition pr_hash (r : packet_row) : string := mt_sha256 (pr_meta r).

Record retention_row := { rt_owner : string; rt_terminal : bool; rt_updated : Z }.

Record note_row := {
  nt_id : string;
  nt_project : string;
  nt_metadata : pydict;
  nt_access_scope : pydict;
  nt_created : Z;
  nt_updated : Z
}.

Record store := {
  bodies : gmap string pydict;
  packets : list packet_row;
  pins : gset (string * string);
  retention : list retention_row;
  notes : list note_row
}.

Definition empty_store : store :=
  {| bodies := ∅; packets := []; pins := ∅; retention := []; notes := [] |}.

Definition set_packets (b : gmap string pydict) (t : list packet_row) (s : store) : store :=
  {| bodies := b; packets := t; pins := pins s; retention := retention s; notes := notes s |}.
Definition set_pins (p : gset (string * string)) (s : store) : store :=
  {| bodies := bodies s; packets := packets s; pins := p; retention := retention s; notes := notes s |}.
Definition set_retention (t : list retention_row) (s : store) : store :=
  {| bodies := bodies s; packets := packets s; pins := pins s; retention := t; notes := notes s |}.
Definition set_notes (t : list note_row) (s : store) : store :=
  {| bodies := bodies s; packets := packets s; pins := pins s; retention := retention s; notes := t |}.

Definition row_by_id (s : store) (id : string) : option packet_row :=
  List.find (fun r => String.eqb (pr_id r) id) (packets s).

(** "WHERE id=? OR alias=?". *)
Definition row_by_reference (s : store) (ref : string) : option packet_row :=
  List.find (fun r => String.eqb (pr_id r) ref || String.eqb (pr_alias r) ref) (packets s).

Definition unpin_all (owner : string) (p : gset (string * string)) : gset (string * string) :=
  filter (fun q => q.1 <> owner) p.

(** A transaction: an exception leaves the store as it was. *)
Definition atomic {A} (m : store -> result (A * store)) (s : store) : result A * store :=
  match m s with Ok (a, s') => (Ok a, s') | Err x => (Err x, s) end.

(** ** Operations *)

(** What a store was built with and what one call observes. *)
Record penv := {
  pe_now : Z;
  pe_access : option (pydict -> pydict -> list pyval -> bool);
  pe_recent_limit : Z;
  pe_max_payload : Z;
  pe_uuid : nat -> string;
  pe_alias : nat -> nat -> string
}.

Section Store.
Context (sha256 : string -> string) (float_repr : spec_float -> string) (e : penv).

Definition canonical_digest (v : pyval) : result string :=
  t ← json_dumps float_repr v; Ok (sha256 t).

Definition invalid : exn := ValueError "validation error".

(** [InformationPacket.model_validate] on typed fields. *)
Definition validate_packet (p : packet) : result unit :=
  let m := pk_meta p in
  let stamp_bad s := match parse_stamp s with None => true | Some _ => false end in
  _ ← raise_if ((str_len (mt_packet_id m) <? 8)%nat || negb (alias_ok (mt_alias m)) ||
                negb (sha256_match (mt_sha256 m)) || negb (forallb source_ok (mt_sources m)) ||
                stamp_bad (mt_created_at m) ||
                match mt_expires_at m with Some s => stamp_bad s | None => false end) invalid;
  digest ← canonical_digest (PDict (pk_payload p));
  raise_if (negb (String.eqb digest (mt_sha256 m)) || negb (bool_decide (NoDup (mt_parents m)))) invalid.

(** [_authorized]: every field but principal and profile must agree. *)
Definition _authorized (required supplied : pydict) : bool :=
  negb (bool_decide (required = [])) && negb (bool_decide (supplied = [])) &&
  forallb (fun kv => bool_decide (kv.1 ∈ ["principal"; "profile"]) ||
                     match dict_get kv.1 supplied with Some v => py_eqb v kv.2 | None => false end)
    required.

Definition permitted (required supplied : pydict) (sources : list pyval) : bool :=
  match pe_access e with
  | Some f => f required supplied sources
  | None => _authorized required supplied
  end.

Definition row_permitted (r : packet_row) (supplied : pydict) : bool :=
  permitted (mt_access_scope (pr_meta r)) supplied (map source_wire (mt_sources (pr_meta r))).

(** *** Liveness *)

(** "parents[ident]": the last row of that identifier. *)
Definition parents_of (s : store) (id : string) : list string :=
  match row_by_id s id with Some r => mt_parents (pr_meta r) | None => [] end.

(** Not expired, by flag or by clock. *)
Definition fresh (r : packet_row) : bool :=
  negb (pr_expired r) &&
  match mt_expires_at (pr_meta r) with
  | None => true
  | Some t => match parse_stamp t with Some x => pe_now e <? x | None => false end
  end.

Definition roots (s : store) : gset string :=
  set_map snd (pins s) ∪ list_to_set (map pr_id (List.filter fresh (packets s))).

(** One parent of the popped packet: live now, and pending if it was not before. *)
Definition visit (acc : gset string * list string) (p : string) : gset string * list string :=
  if bool_decide (p ∈ acc.1) then acc else ({[ p ]} ∪ acc.1, p :: acc.2).

Fixpoint close (fuel : nat) (parents : string -> list string) (live : gset string)
    (pending : list string) : gset string :=
  match fuel, pending with
  | _, [] => live
  | O, _ => live
  | S fuel, x :: pending =>
      let acc := foldl visit (live, pending) (parents x) in
      close fuel parents acc.1 acc.2
  end.

Definition all_parents (s : store) : list string := flat_map (fun r => mt_parents (pr_meta r)) (packets s).

Definition close_fuel (s : store) : nat := size (roots s) + length (all_parents s).

Definition _live_ids (s : store) : gset string :=
  close (close_fuel s) (parents_of s) (roots s) (elements (roots s)).

Definition live (s : store) (id : string) : bool := bool_decide (id ∈ _live_ids s).

(** *** put *)

(** Each parent must exist, be live and unexpired, and lie within the scope. *)
Definition parent_bad (s : store) (scope : pydict) (parent : string) : bool :=
  match row_by_id s parent with
  | None => true
  | Some r => pr_expired r || negb (live s parent) ||
              negb (_authorized (mt_access_scope (pr_meta r)) scope)
  end.

Definition insert_row (r : packet_row) (body : pydict) (owners : list string) (s : store) : result store :=
  if existsb (fun r' => String.eqb (pr_alias r') (pr_alias r) || String.eqb (pr_id r') (pr_id r)) (packets s)
  then Err IntegrityError
  else
    let b := match bodies s !! pr_hash r with
             | Some _ => bodies s
             | None => <[pr_hash r := body]> (bodies s)
             end in
    Ok (set_pins (list_to_set (map (fun o => (o, pr_id r)) owners) ∪ pins s)
          (set_packets b (packets s ++ [r]) s)).

Definition _put (p : packet) (extra : pyval) (s : store) : result packet * store :=
  atomic (fun s =>
    let m := pk_meta p in
    _ ← validate_packet p;
    _ ← raise_if (negb (bool_decide ((mask_payload (packet_wire p) "").2 = [])))
          (ValueError "packet contains unmasked private fields");
    _ ← raise_if (bool_decide (mt_access_scope m = []))
          (ValueError "explicit trusted access scope required");
    size ← json_size float_repr (PDict (pk_payload p));
    _ ← raise_if (pe_max_payload e <? size) (ValueError "packet exceeds configured payload cap");
    match row_by_id s (mt_packet_id m) with
    | Some prior =>
        _ ← raise_if (pr_expired prior ||
                      negb (py_eqb (PDict (meta_wire (pr_meta prior))) (PDict (meta_wire m))))
              (ValueError "immutable packet ID cannot be rebound");
        Ok (p, s)
    | None =>
        _ ← raise_if (String.eqb (mt_packet_id m) (mt_alias m) ||
                      existsb (fun r => String.eqb (pr_id r) (mt_alias m) ||
                                        String.eqb (pr_alias r) (mt_packet_id m)) (packets s))
              (ValueError "packet ID and alias namespaces cannot shadow one another");
        _ ← raise_if (existsb (parent_bad s (mt_access_scope m)) (mt_parents m))
              (ValueError "parent missing, expired or outside packet scope");
        _ ← json_dumps float_repr (PDict (meta_wire m ++ [("_invocation", extra)]));
        s' ← insert_row {| pr_meta := m; pr_invocation := extra; pr_expired := false |}
               (pk_payload p) (default [] (mt_pinned_by m)) s;
        Ok (p, s')
    end) s.

Definition put (p : packet) (s : store) : result packet * store := _put p (PDict []) s.

Record create_args := {
  ca_tool : string;
  ca_payload : pydict;
  ca_access_scope : pydict;
  ca_sources : list source_locator;
  ca_parents : list string;
  ca_request : pydict;
  ca_audit_id : option string;
  ca_freshness : option pydict;
  ca_omissions : list pyval;
  ca_ttl : option Z
}.

Definition omission_wire (o : omission) : pyval :=
  PDict [("path", PStr (om_path o)); ("reason", PStr (om_reason o))].

(** [mask_payload] of a dict is a dict. *)
Definition masked_dict (v : pyval) : pydict := match v with PDict d => d | _ => [] end.

Definition created_packet (a : create_args) (digest : string) (attempt : nat) : packet :=
  let cleaned := mask_payload (PDict (ca_payload a)) "" in
  {| pk_meta :=
       {| mt_packet_id := "pkt_" +:+ pe_uuid e attempt;
          mt_alias := pe_alias e attempt (Nat.min 4 (2 + attempt / 256));
          mt_created_at := format_stamp (pe_now e); mt_tool := ca_tool a; mt_sha256 := digest;
          mt_sources := ca_sources a; mt_parents := ca_parents a;
          mt_access_scope := ca_access_scope a;
          mt_expires_at := (fun ttl => format_stamp (pe_now e + ttl)) <$> ca_ttl a;
          mt_freshness := ca_freshness a;
          mt_omissions := Some (ca_omissions a ++ map omission_wire cleaned.2);
          mt_pinned_by := None |};
     pk_payload := masked_dict cleaned.1 |}.

(** The retries on a taken alias: attempts [attempt], [attempt + 1], ... *)
Fixpoint create_loop (fuel : nat) (a : create_args) (extra : pyval) (digest : string)
    (attempt : nat) (s : store) : result packet * store :=
  match fuel with
  | O => (Err (RuntimeError "alias namespace exhausted; no alias was recycled"), s)
  | S fuel =>
      let p := created_packet a digest attempt in
      match validate_packet p with
      | Err x => (Err x, s)
      | Ok _ =>
          match _put p extra s with
          | (Err IntegrityError, _) => create_loop fuel a extra digest (S attempt) s
          | r => r
          end
      end
  end.

Definition create_attempts : nat := 4096.

Definition create (a : create_args) (s : store) : result packet * store :=
  let extra := PDict [("normalized_request", PDict (ca_request a)); ("audit_id", opt_str (ca_audit_id a))] in
  if negb (bool_decide ((mask_payload extra "").2 = []))
  then (Err (ValueError "request/audit metadata contains private fields"), s)
  else match canonical_digest (mask_payload (PDict (ca_payload a)) "").1 with
       | Err x => (Err x, s)
       | Ok digest => create_loop create_attempts a extra digest 0 s
       end.

(** *** lookup, resolve, invocation *)

Inductive lookup_status := LookOk (p : packet) | LookNotFound | LookForbidden | LookExpired.

Definition corrupt : exn := RuntimeError "packet body missing: storage corruption".

Definition lookup (ref : string) (scope : pydict) (s : store) : result lookup_status :=
  match row_by_reference s ref with
  | None => Ok LookNotFound
  | Some r =>
      if negb (row_permitted r scope) then Ok LookForbidden
      else if pr_expired r || negb (live s (pr_id r)) then Ok LookExpired
      else match bodies s !! pr_hash r with
           | None => Err corrupt
           | Some body =>
               let p := {| pk_meta := pr_meta r; pk_payload := body |} in
               _ ← validate_packet p; Ok (LookOk p)
           end
  end.

Definition resolve (ref : string) (scope : pydict) (s : store) : result (option packet) :=
  st ← lookup ref scope s; Ok (match st with LookOk p => Some p | _ => None end).

Definition invocation (ref : string) (scope : pydict) (s : store) : result (option pyval) :=
  st ← lookup ref scope s;
  match st with
  | LookOk _ => Ok (pr_invocation <$> row_by_reference s ref)
  | _ => Ok None
  end.

(** *** Pins and retention *)

Definition pin_one (owner : string) (s : store) (ref : string) : result store :=
  match row_by_reference s ref with
  | None => Err (ValueError "cannot pin missing/expired evidence")
  | Some r =>
      if pr_expired r || negb (live s (pr_id r))
      then Err (ValueError "cannot pin missing/expired evidence")
      else Ok (set_pins ({[ (owner, pr_id r) ]} ∪ pins s) s)
  end.

Definition _pin (owner : string) (refs : list string) (s : store) : result store :=
  foldM (pin_one owner) s refs.

Definition pin (owner : string) (refs : list string) (s : store) : result unit * store :=
  atomic (fun s => s' ← _pin owner refs s; Ok (tt, s')) s.

Definition unpin (owner : string) (s : store) : store := set_pins (unpin_all owner (pins s)) s.

(** "ORDER BY updated DESC, owner DESC". *)
Definition retention_le (a b : retention_row) : Prop :=
  rt_updated b < rt_updated a \/ (rt_updated a = rt_updated b /\ String.le (rt_owner b) (rt_owner a)).
#[local] Instance retention_le_dec : RelDecision retention_le.
Proof. intros a b. unfold retention_le. apply _. Defined.

Definition stale_retention (s : store) : list string :=
  map rt_owner (drop (Z.to_nat (pe_recent_limit e))
    (merge_sort retention_le (List.filter rt_terminal (retention s)))).

Definition drop_job (s : store) (owner : string) : store :=
  set_retention (List.filter (fun r => negb (String.eqb (rt_owner r) owner)) (retention s))
    (unpin owner s).

Definition retain_job (owner : string) (refs : list string) (terminal : bool) (s : store)
    : result unit * store :=
  atomic (fun s =>
    s1 ← _pin owner refs s;
    let s2 := set_retention
      (List.filter (fun r => negb (String.eqb (rt_owner r) owner)) (retention s1) ++
       [{| rt_owner := owner; rt_terminal := terminal; rt_updated := pe_now e |}]) s1 in
    Ok (tt, foldl drop_job s2 (stale_retention s2))) s.

(** *** gc *)

Definition expire (live_ids : gset string) (r : packet_row) : packet_row :=
  if negb (pr_expired r) && negb (bool_decide (pr_id r ∈ live_ids))
  then {| pr_meta := pr_meta r; pr_invocation := pr_invocation r; pr_expired := true |}
  else r.

Definition used_hashes (rows : list packet_row) : gset string :=
  list_to_set (map pr_hash (List.filter (fun r => negb (pr_expired r)) rows)).

Definition gc (s : store) : list string * store :=
  let live_ids := _live_ids s in
  let expired := map pr_id
    (List.filter (fun r => negb (pr_expired r) && negb (bool_decide (pr_id r ∈ live_ids))) (packets s)) in
  let rows := map (expire live_ids) (packets s) in
  (expired, set_packets (filter (fun kv => kv.1 ∈ used_hashes rows) (bodies s)) rows s).

(** *** reconcile_retention *)

(** One reference of one retained owner: the packet it pins, if any. *)
Definition retained_pin (s : store) (scope : pydict) (ref : pyval) : result (option string) :=
  match ref with
  | PStr ref =>
      match last (List.filter (fun r => String.eqb (pr_id r) ref || String.eqb (pr_alias r) ref) (packets s)) with
      | None => Ok None
      | Some r =>
          if negb (row_permitted r scope) || pr_expired r || negb (live s (pr_id r)) then Ok None
          else match bodies s !! pr_hash r with
               | None => Err corrupt
               | Some body =>
                   _ ← validate_packet {| pk_meta := pr_meta r; pk_payload := body |};
                   Ok (Some (pr_id r))
               end
      end
  | _ => Ok None
  end.

Definition retained_pins (s : store) (owner : string) (scope : pydict) (refs : list pyval)
    : result (list (string * string)) :=
  ids ← mapM_result (retained_pin s scope) refs;
  Ok (map (fun id => (owner, id)) (omap id ids)).

Definition reconcile_retention (retained : list (string * (pydict * list pyval)))
    (unpin_owners : list string) (s : store) : result unit * store :=
  atomic (fun s =>
    ps ← mapM_result (fun kv => retained_pins s kv.1 kv.2.1 kv.2.2) retained;
    Ok (tt, set_pins (foldl (fun p o => unpin_all o p) (list_to_set (concat ps) ∪ pins s) unpin_owners) s)) s.

End Store.
