(* ===== verification/PacketProps.v ===== *)
(** * What the packet store guarantees

    Liveness is reachability from the pinned and fresh packets; every reachable
    store has unique references, a digest-checked body for each unexpired packet
    and unexpired parents; references are never rebound; garbage collection takes
    exactly what is not live; retention is bounded. *)

From Stdlib Require Import ZArith SpecFloat.
From stdpp Require Import gmap fin_sets relations.
From S2P Require Import Prelude PyValue Text Stamps Json Masking Contracts HostCoordinator Packets.

#[local] Open Scope string_scope.
#[local] Open Scope Z_scope.
#[local] Open Scope list_scope.

(** ** Liveness *)

Section Close.
Context (parents : string -> list string).

Definition parent_edge (x y : string) : Prop := y ∈ parents x.

Lemma visit_spec ps live pending :
  let acc := foldl visit (live, pending) ps in
  acc.1 = live ∪ list_to_set ps /\
  (forall x, x ∈ acc.2 <-> x ∈ pending \/ (x ∈ ps /\ x ∉ live)) /\
  (length acc.2 + size live = length pending + size (live ∪ list_to_set ps))%nat.
Proof.
  revert live pending. induction ps as [|p ps IH]; intros live pending; simpl.
  { split; [set_solver|]. split; [set_solver|]. f_equal. f_equal. set_solver. }
  unfold visit at 2 4 6. simpl. destruct (bool_decide_reflect (p ∈ live)) as [Hp|Hp].
  - destruct (IH live pending) as (-> & Hx & Hl). split; [set_solver|]. split; [set_solver|].
    rewrite Hl. f_equal. f_equal. set_solver.
  - destruct (IH ({[ p ]} ∪ live) (p :: pending)) as (-> & Hx & Hl). split; [set_solver|]. split.
    + intros x. rewrite Hx, elem_of_cons. set_unfold. destruct (decide (x = p)); naive_solver.
    + simpl in Hl. rewrite size_union in Hl by set_solver. rewrite size_singleton in Hl.
      replace (live ∪ ({[ p ]} ∪ list_to_set ps)) with ({[ p ]} ∪ live ∪ list_to_set ps) by set_solver.
      lia.
Qed.

(** Everything live is reached from a root; everything live but pending is closed. *)
Lemma close_spec fuel universe roots live pending :
  (forall x, list_to_set (parents x) ⊆ (universe : gset string)) ->
  roots ⊆ live -> live ⊆ universe ->
  (forall x, x ∈ pending -> x ∈ live) ->
  (forall x, x ∈ live -> x ∈ pending \/ forall y, parent_edge x y -> y ∈ live) ->
  (forall x, x ∈ live -> exists r, r ∈ roots /\ rtc parent_edge r x) ->
  (length pending + size universe <= fuel + size live)%nat ->
  forall x, x ∈ close fuel parents live pending <-> exists r, r ∈ roots /\ rtc parent_edge r x.
Proof.
  intros Hu. revert live pending. induction fuel as [|fuel IH]; intros live pending Hr Hl Hp Hc Hs Hf x.
  { assert (pending = []) as ->.
    { apply nil_length_inv. pose proof (subseteq_size _ _ Hl). lia. }
    simpl. split; [apply Hs|]. intros (r & Hin & Hx). apply Hr in Hin. clear -Hc Hx Hin.
    induction Hx as [|a b c Hab _ IHx]; [done|]. apply IHx.
    destruct (Hc a Hin) as [H|H]; [by apply not_elem_of_nil in H|by apply H]. }
  destruct pending as [|y pending].
  { simpl. split; [apply Hs|]. intros (r & Hin & Hx). apply Hr in Hin. clear -Hc Hx Hin.
    induction Hx as [|a b c Hab _ IHx]; [done|]. apply IHx.
    destruct (Hc a Hin) as [H|H]; [by apply not_elem_of_nil in H|by apply H]. }
  simpl. destruct (visit_spec (parents y) live pending) as (Hacc & Hpend & Hlen).
  rewrite Hacc. apply IH.
  - set_solver.
  - specialize (Hu y). set_solver.
  - intros z Hz. apply Hpend in Hz. set_unfold. naive_solver.
  - intros z Hz. rewrite Hpend. destruct (decide (z = y)) as [->|Hne].
    + right. intros w Hw. unfold parent_edge in Hw. set_solver.
    + set_unfold in Hz. destruct Hz as [Hz|Hz].
      * destruct (Hc z Hz) as [H|H]; [set_solver|]. right. intros w Hw. apply elem_of_union_l. by apply H.
      * destruct (decide (z ∈ live)) as [Hzl|]; [|by left; right].
        destruct (Hc z Hzl) as [H|H]; [set_solver|]. right. intros w Hw. apply elem_of_union_l. by apply H.
  - intros z Hz. set_unfold in Hz. destruct Hz as [Hz|Hz]; [by apply Hs|].
    destruct (Hs y) as (r & ? & ?); [apply Hp; left|]. exists r. split; [done|].
    eapply rtc_r; [done|]. exact Hz.
  - simpl in Hf. rewrite <-Hacc in *. lia.
Qed.
End Close.

Section Live.
Context (e : penv).

(** A packet is a parent of another one when the latter's row lists it. *)
Definition provenance (s : store) : relation string := parent_edge (parents_of s).

Definition rooted (s : store) (id : string) : Prop :=
  (exists owner, (owner, id) ∈ pins s) \/
  exists r, r ∈ packets s /\ pr_id r = id /\ fresh e r = true.

Lemma elem_roots s id : id ∈ roots e s <-> rooted s id.
Proof.
  unfold roots, rooted. rewrite elem_of_union, elem_of_map, elem_of_list_to_set, list_elem_of_fmap.
  setoid_rewrite list_elem_of_In. setoid_rewrite filter_In. setoid_rewrite <-list_elem_of_In. split.
  - intros [([o i] & -> & H)|(r & -> & H & Hf)]; [left; by exists o|right; by exists r].
  - intros [[o H]|(r & H & <- & Hf)]; [left; by exists (o, id)|right; by exists r].
Qed.

Lemma parents_of_elem s x y : y ∈ parents_of s x -> y ∈ all_parents s.
Proof.
  unfold parents_of, row_by_id, all_parents. destruct (List.find _ _) as [r|] eqn:Hf;
    [|by intros ?%not_elem_of_nil].
  apply find_some in Hf as [Hr _]. intros Hy. apply list_elem_of_In, in_flat_map. exists r.
  split; [done|by apply list_elem_of_In].
Qed.

(** Membership in the live set. *)
Lemma live_ids_iff s id :
  id ∈ _live_ids e s <-> exists r, rooted s r /\ rtc (provenance s) r id.
Proof.
  unfold _live_ids. setoid_rewrite <-elem_roots.
  apply close_spec with (universe := roots e s ∪ list_to_set (all_parents s)).
  - intros x y. rewrite elem_of_list_to_set, elem_of_union, elem_of_list_to_set.
    intros Hy. right. by eapply parents_of_elem.
  - done.
  - set_solver.
  - intros x. by rewrite elem_of_elements.
  - intros x Hx. left. by rewrite elem_of_elements.
  - intros x Hx. exists x. split; [done|apply rtc_refl].
  - unfold close_fuel. change (length (elements (roots e s))) with (size (roots e s)).
    assert (size (roots e s ∪ list_to_set (all_parents s)) <= size (roots e s) + length (all_parents s))%nat;
      [|lia].
    rewrite size_union_alt. assert (size (list_to_set (all_parents s) ∖ roots e s : gset string) <=
      length (all_parents s))%nat; [|lia].
    transitivity (size (list_to_set (all_parents s) : gset string)); [apply subseteq_size; set_solver|].
    generalize (all_parents s) as l. intros l. induction l as [|x l IH]; simpl; [done|].
    rewrite size_union_alt, size_singleton.
    assert (size (list_to_set l ∖ {[x]} : gset string) <= size (list_to_set l : gset string))%nat;
      [apply subseteq_size; set_solver|lia].
Qed.

(** C37: The worklist of [_live_ids] terminates and computes liveness exactly: a
    packet is live when some pinned or unexpired packet descends from it. *)
Theorem live_ids_spec s id :
  id ∈ _live_ids e s <-> exists r, rooted s r /\ rtc (provenance s) r id.
Proof. apply live_ids_iff. Qed.

Lemma live_true s id : live e s id = true <-> id ∈ _live_ids e s.
Proof. unfold live. apply bool_decide_eq_true. Qed.

Lemma live_parent s x y : x ∈ _live_ids e s -> y ∈ parents_of s x -> y ∈ _live_ids e s.
Proof.
  rewrite !live_ids_iff. intros (r & Hr & Hx) Hy. exists r. split; [done|]. by eapply rtc_r.
Qed.

Lemma live_rooted s x : rooted s x -> x ∈ _live_ids e s.
Proof. intros H. apply live_ids_iff. exists x. split; [done|apply rtc_refl]. Qed.
End Live.

(** ** Reachable stores *)

Section Invariants.
Context (sha256 : string -> string) (float_repr : spec_float -> string).

Definition row_packet (r : packet_row) (body : pydict) : packet :=
  {| pk_meta := pr_meta r; pk_payload := body |}.

Record store_ok (s : store) : Prop := {
  so_ids : NoDup (map pr_id (packets s));
  so_aliases : NoDup (map pr_alias (packets s));
  so_disjoint : forall r r', r ∈ packets s -> r' ∈ packets s -> pr_id r <> pr_alias r';
  so_digest : forall h body, bodies s !! h = Some body ->
    canonical_digest sha256 float_repr (PDict body) = Ok h;
  so_body : forall r, r ∈ packets s -> pr_expired r = false ->
    exists body, bodies s !! pr_hash r = Some body;
  so_valid : forall r body, r ∈ packets s ->
    canonical_digest sha256 float_repr (PDict body) = Ok (pr_hash r) ->
    validate_packet sha256 float_repr (row_packet r body) = Ok tt;
  so_parents : forall r p, r ∈ packets s -> pr_expired r = false -> p ∈ mt_parents (pr_meta r) ->
    exists r', r' ∈ packets s /\ pr_id r' = p /\ pr_expired r' = false
}.

(** Validation reads the payload through its digest only. *)
Lemma validate_digest p body :
  validate_packet sha256 float_repr p = Ok tt ->
  canonical_digest sha256 float_repr (PDict body) = Ok (mt_sha256 (pk_meta p)) ->
  validate_packet sha256 float_repr {| pk_meta := pk_meta p; pk_payload := body |} = Ok tt.
Proof.
  unfold validate_packet. simpl. intros H Hd. apply result_bind_ok in H as (u & Hu & H).
  apply result_bind_ok in H as (digest & _ & H). apply raise_if_ok in Hu, H.
  rewrite Hu. simpl. rewrite Hd, bind_Ok, String.eqb_refl.
  apply orb_false_iff in H as [_ H]. simpl. by rewrite H.
Qed.

(** *** The operations and the stores they reach *)

Inductive packet_op :=
  | OpPut (p : packet)
  | OpCreate (a : create_args)
  | OpPin (owner : string) (refs : list string)
  | OpUnpin (owner : string)
  | OpRetain (owner : string) (refs : list string) (terminal : bool)
  | OpGc
  | OpReconcile_retention (retained : list (string * (pydict * list pyval))) (unpin_owners : list string).

Definition packet_step (e : penv) (o : packet_op) (s : store) : store :=
  match o with
  | OpPut p => (put sha256 float_repr e p s).2
  | OpCreate a => (create sha256 float_repr e a s).2
  | OpPin owner refs => (pin e owner refs s).2
  | OpUnpin owner => unpin owner s
  | OpRetain owner refs terminal => (retain_job e owner refs terminal s).2
  | OpGc => (gc e s).2
  | OpReconcile_retention retained owners =>
      (reconcile_retention sha256 float_repr e retained owners s).2
  end.

Inductive reachable_store : store -> Prop :=
  | rs_empty : reachable_store empty_store
  | rs_step e o s : reachable_store s -> reachable_store (packet_step e o s).

(** What one call does to the packet tables: nothing, one insertion, or a
    collection. *)
Inductive table_step (e : penv) : store -> store -> Prop :=
  | ts_same s s' : bodies s' = bodies s -> packets s' = packets s -> table_step e s s'
  | ts_insert s s' p extra owners :
      validate_packet sha256 float_repr p = Ok tt ->
      row_by_id s (mt_packet_id (pk_meta p)) = None ->
      mt_packet_id (pk_meta p) <> mt_alias (pk_meta p) ->
      (forall r, r ∈ packets s -> pr_id r <> mt_alias (pk_meta p) /\ pr_alias r <> mt_packet_id (pk_meta p)) ->
      (forall y, y ∈ mt_parents (pk_meta p) -> parent_bad e s (mt_access_scope (pk_meta p)) y = false) ->
      insert_row {| pr_meta := pk_meta p; pr_invocation := extra; pr_expired := false |}
        (pk_payload p) owners s = Ok s' ->
      table_step e s s'
  | ts_gc s : table_step e s (gc e s).2.

Lemma atomic_snd {A} (m : store -> result (A * store)) s :
  (atomic m s).2 = match m s with Ok (_, s') => s' | Err _ => s end.
Proof. unfold atomic. by destruct (m s) as [[]|]. Qed.

Lemma put_table e p extra s : table_step e s (_put sha256 float_repr e p extra s).2.
Proof.
  unfold _put. rewrite atomic_snd. cbv zeta.
  destruct (_ ≫= _) as [[q s']|x] eqn:H; [|by apply ts_same].
  apply result_bind_ok in H as ([] & Hv & H). apply result_bind_ok in H as (? & _ & H).
  apply result_bind_ok in H as (? & _ & H). apply result_bind_ok in H as (? & _ & H).
  apply result_bind_ok in H as (? & _ & H).
  destruct (row_by_id s (mt_packet_id (pk_meta p))) as [prior|] eqn:Hprior.
  { apply result_bind_ok in H as (? & _ & H). apply Ok_inj in H as [= -> ->]. by apply ts_same. }
  apply result_bind_ok in H as (? & Hs & H). apply result_bind_ok in H as (? & Hp & H).
  apply result_bind_ok in H as (? & _ & H). apply result_bind_ok in H as (s1 & Hi & H).
  apply Ok_inj in H as [= -> ->]. apply raise_if_ok in Hs, Hp.
  apply orb_false_iff in Hs as [Hne%String.eqb_neq Hs]. rewrite existsb_false_forall in Hs. rewrite existsb_false_forall in Hp.
  eapply ts_insert; try done. intros r Hr. specialize (Hs r Hr).
  apply orb_false_iff in Hs as [H1%String.eqb_neq H2%String.eqb_neq]. done.
Qed.

Lemma create_loop_table e a extra digest fuel attempt s :
  table_step e s (create_loop sha256 float_repr e fuel a extra digest attempt s).2.
Proof.
  revert attempt. induction fuel as [|fuel IH]; intros attempt; simpl; [by apply ts_same|].
  destruct (validate_packet _ _ _); [|by apply ts_same].
  pose proof (put_table e (created_packet e a digest attempt) extra s) as Hp.
  destruct (_put _ _ _ _ _ _) as [[q|x] s'] eqn:Hput; [done|]. destruct x; done.
Qed.

Lemma pin_one_table e owner s ref s' :
  pin_one e owner s ref = Ok s' ->
  bodies s' = bodies s /\ packets s' = packets s /\ notes s' = notes s /\ retention s' = retention s /\
  exists r, row_by_reference s ref = Some r /\ pr_expired r = false /\ live e s (pr_id r) = true /\
    pins s' = {[ (owner, pr_id r) ]} ∪ pins s.
Proof.
  unfold pin_one. destruct (row_by_reference s ref) as [r|] eqn:Hr; [|done].
  destruct (pr_expired r) eqn:He; simpl; [done|]. destruct (live e s (pr_id r)) eqn:Hl; simpl; [|done].
  intros [= <-]. naive_solver.
Qed.

Lemma _pin_table e owner refs s s' :
  _pin e owner refs s = Ok s' -> bodies s' = bodies s /\ packets s' = packets s.
Proof.
  intros H. apply (foldM_invariant (fun s' => bodies s' = bodies s /\ packets s' = packets s)
    (pin_one e owner) refs s s') in H; [done| |done].
  intros s1 x s2 _ [H1 H2] Hs. apply pin_one_table in Hs as (H3 & H4 & _). by rewrite H3, H4.
Qed.

Lemma drop_jobs_table l s : bodies (foldl drop_job s l) = bodies s /\ packets (foldl drop_job s l) = packets s.
Proof. revert s. induction l as [|o l IH]; intros s; simpl; [done|]. by destruct (IH (drop_job s o)) as [-> ->]. Qed.

Lemma packet_step_table e o s : table_step e s (packet_step e o s).
Proof.
  destruct o; simpl.
  - apply put_table.
  - unfold create. cbv zeta. destruct (negb _); [by apply ts_same|].
    destruct (canonical_digest _ _ _); [apply create_loop_table|by apply ts_same].
  - unfold pin. rewrite atomic_snd. destruct (_pin e owner refs s) as [s'|x] eqn:H;
      [|by apply ts_same]. apply _pin_table in H as [? ?]. by apply ts_same.
  - by apply ts_same.
  - unfold retain_job. rewrite atomic_snd. destruct (_pin e owner refs s) as [s'|x] eqn:H;
      [|by apply ts_same]. apply _pin_table in H as [H1 H2]. simpl.
    match goal with |- context [foldl drop_job ?s2 ?l] => destruct (drop_jobs_table l s2) as [H3 H4] end.
    apply ts_same; [by rewrite H3|by rewrite H4].
  - apply ts_gc.
  - unfold reconcile_retention. rewrite atomic_snd.
    destruct (mapM_result _ _); by apply ts_same.
Qed.

Lemma row_by_id_some s id r : row_by_id s id = Some r -> r ∈ packets s /\ pr_id r = id.
Proof.
  unfold row_by_id. intros [Hr Hid%String.eqb_eq]%find_some. by rewrite list_elem_of_In.
Qed.

Lemma row_by_id_none s id : row_by_id s id = None -> forall r, r ∈ packets s -> pr_id r <> id.
Proof.
  unfold row_by_id. intros H r Hr. apply list_elem_of_In in Hr. apply (find_none _ _ H) in Hr.
  by apply String.eqb_neq.
Qed.

Lemma insert_row_spec r body owners s s' :
  insert_row r body owners s = Ok s' ->
  packets s' = packets s ++ [r] /\ (pr_alias r ∉ map pr_alias (packets s)) /\
  (pr_id r ∉ map pr_id (packets s)) /\
  bodies s' = match bodies s !! pr_hash r with Some _ => bodies s | None => <[pr_hash r := body]> (bodies s) end /\
  pins s' = list_to_set (map (fun o => (o, pr_id r)) owners) ∪ pins s /\
  notes s' = notes s /\ retention s' = retention s.
Proof.
  unfold insert_row. destruct (existsb _ _) eqn:He; [done|]. intros [= <-]. simpl.
  rewrite existsb_false_forall in He. split_and!; try done.
  - intros (r' & Heq & Hr')%list_elem_of_fmap. specialize (He r' Hr').
    by rewrite <-Heq, String.eqb_refl in He.
  - intros (r' & Heq & Hr')%list_elem_of_fmap. specialize (He r' Hr').
    by rewrite <-Heq, String.eqb_refl, orb_true_r in He.
Qed.

Lemma insert_store_ok e s p extra owners s' :
  store_ok s ->
  validate_packet sha256 float_repr p = Ok tt ->
  mt_packet_id (pk_meta p) <> mt_alias (pk_meta p) ->
  (forall r, r ∈ packets s -> pr_id r <> mt_alias (pk_meta p) /\ pr_alias r <> mt_packet_id (pk_meta p)) ->
  (forall y, y ∈ mt_parents (pk_meta p) -> parent_bad e s (mt_access_scope (pk_meta p)) y = false) ->
  insert_row {| pr_meta := pk_meta p; pr_invocation := extra; pr_expired := false |}
    (pk_payload p) owners s = Ok s' -> store_ok s'.
Proof.
  intros [H1 H2 H3 H4 H5 H6 H7] Hv Hne Hsh Hpar Hi. apply insert_row_spec in Hi as (Hp & Ha & Hid & Hb & _).
  set (row := {| pr_meta := pk_meta p; pr_invocation := extra; pr_expired := false |}) in *.
  assert (canonical_digest sha256 float_repr (PDict (pk_payload p)) = Ok (pr_hash row)) as Hdig.
  { unfold validate_packet in Hv. apply result_bind_ok in Hv as (? & _ & Hv).
    apply result_bind_ok in Hv as (dg & Hdg & Hv). apply raise_if_ok, orb_false_iff in Hv as [Hv _].
    apply negb_false_iff, String.eqb_eq in Hv. subst dg. exact Hdg. }
  split; rewrite ?Hp.
  - rewrite map_app. by apply NoDup_snoc.
  - rewrite map_app. by apply NoDup_snoc.
  - intros r r' [Hr| ->%list_elem_of_singleton]%elem_of_app [Hr'| ->%list_elem_of_singleton]%elem_of_app;
      [by apply H3|by apply Hsh|intros Heq; by apply (Hsh r' Hr')|done].
  - intros h body. rewrite Hb. destruct (bodies s !! pr_hash row) eqn:Hh; [apply H4|].
    intros [[<- <-]|[_ Hin]]%lookup_insert_Some; [done|by apply H4].
  - intros r [Hr| ->%list_elem_of_singleton]%elem_of_app He; rewrite Hb.
    + destruct (H5 r Hr He) as [b Hbd]. exists b. destruct (bodies s !! pr_hash row) eqn:Hh; [done|].
      rewrite lookup_insert_ne; [done|]. intros Heq. rewrite Heq in Hh. congruence.
    + destruct (bodies s !! pr_hash row) as [b|] eqn:Hh; [by exists b|]. exists (pk_payload p).
      by rewrite lookup_insert_eq.
  - intros r body [Hr| ->%list_elem_of_singleton]%elem_of_app Hd; [by apply H6|].
    by apply (validate_digest p).
  - intros r y [Hr| ->%list_elem_of_singleton]%elem_of_app He Hy.
    + destruct (H7 r y Hr He Hy) as (r' & Hr' & ?). exists r'. split; [set_solver|done].
    + specialize (Hpar y Hy). unfold parent_bad in Hpar. destruct (row_by_id s y) as [r'|] eqn:Hry; [|done].
      apply row_by_id_some in Hry as [Hr' <-]. rewrite !orb_false_iff in Hpar.
      exists r'. split; [set_solver|]. split; [done|]. apply Hpar.
Qed.

Lemma expire_meta l r : pr_meta (expire l r) = pr_meta r.
Proof. unfold expire. by destruct (_ && _). Qed.

Lemma expire_kept e s r :
  pr_expired (expire (_live_ids e s) r) = false <-> pr_expired r = false /\ pr_id r ∈ _live_ids e s.
Proof.
  unfold expire. destruct (pr_expired r) eqn:He; simpl; [rewrite He; naive_solver|].
  destruct (bool_decide_reflect (pr_id r ∈ _live_ids e s)); simpl; [rewrite He|]; naive_solver.
Qed.

Lemma gc_packets e s : packets (gc e s).2 = map (expire (_live_ids e s)) (packets s).
Proof. done. Qed.

Lemma gc_body e s r :
  r ∈ packets s -> pr_expired r = false -> pr_id r ∈ _live_ids e s ->
  bodies (gc e s).2 !! pr_hash r = bodies s !! pr_hash r.
Proof.
  intros Hr He Hl. simpl. apply option_eq. intros body. rewrite map_lookup_filter_Some. simpl.
  split; [by intros [? _]|]. intros Hb. split; [done|]. unfold used_hashes.
  apply elem_of_list_to_set, list_elem_of_fmap. exists (expire (_live_ids e s) r).
  unfold pr_hash. rewrite expire_meta. split; [done|].
  apply list_elem_of_In, filter_In. split; [apply in_map; by apply list_elem_of_In|].
  apply negb_true_iff, expire_kept. done.
Qed.

Lemma store_ok_row s r :
  store_ok s -> r ∈ packets s -> row_by_id s (pr_id r) = Some r.
Proof.
  intros Hok Hr. unfold row_by_id. pose proof (so_ids _ Hok) as Hnd. clear Hok.
  induction (packets s) as [|r' l IH]; [by apply not_elem_of_nil in Hr|].
  simpl in *. apply NoDup_cons in Hnd as [Hn Hnd].
  apply elem_of_cons in Hr as [->|Hr]; [by rewrite String.eqb_refl|].
  destruct (String.eqb_spec (pr_id r') (pr_id r)) as [Heq|]; [|by apply IH].
  destruct Hn. apply list_elem_of_fmap. by exists r.
Qed.

Lemma gc_store_ok e s : store_ok s -> store_ok (gc e s).2.
Proof.
  intros Hok. pose proof Hok as [H1 H2 H3 H4 H5 H6 H7].
  split; rewrite ?gc_packets.
  - rewrite map_map. erewrite map_ext; [exact H1|]. intros r. unfold pr_id. by rewrite expire_meta.
  - rewrite map_map. erewrite map_ext; [exact H2|]. intros r. unfold pr_alias. by rewrite expire_meta.
  - intros r r' (a & -> & Ha)%list_elem_of_fmap (b & -> & Hb)%list_elem_of_fmap.
    unfold pr_id, pr_alias. rewrite !expire_meta. by apply H3.
  - intros h body Hb. simpl in Hb. apply map_lookup_filter_Some in Hb as [Hb _]. by apply H4.
  - intros r' (r & -> & Hr)%list_elem_of_fmap [He Hl]%expire_kept.
    destruct (H5 r Hr He) as [body Hb]. exists body. unfold pr_hash. rewrite expire_meta.
    fold (pr_hash r). by rewrite gc_body.
  - intros r' body (r & -> & Hr)%list_elem_of_fmap. unfold pr_hash, row_packet. rewrite expire_meta.
    by apply H6.
  - intros r' y (r & -> & Hr)%list_elem_of_fmap [He Hl]%expire_kept Hy. rewrite expire_meta in Hy.
    destruct (H7 r y Hr He Hy) as (p & Hp & Hid & Hpe). exists (expire (_live_ids e s) p).
    split; [by apply list_elem_of_fmap_2|]. split; [unfold pr_id; by rewrite expire_meta|].
    apply expire_kept. split; [done|]. rewrite Hid. eapply live_parent; [exact Hl|].
    unfold parents_of. by rewrite (store_ok_row s r Hok Hr).
Qed.

Lemma table_step_ok e s s' : table_step e s s' -> store_ok s -> store_ok s'.
Proof.
  intros Hst Hok. destruct Hst as [s s' Hb Hp|s s' p extra owners Hv Hn Hne Hsh Hpar Hi|s].
  - destruct Hok as [H1 H2 H3 H4 H5 H6 H7]. split; rewrite ?Hb, ?Hp; done.
  - by eapply insert_store_ok.
  - by apply gc_store_ok.
Qed.

Lemma empty_packets_ok : store_ok empty_store.
Proof.
  split; simpl; try constructor; intros; by match goal with
    | H : _ ∈ [] |- _ => apply not_elem_of_nil in H
    | H : ∅ !! _ = Some _ |- _ => rewrite lookup_empty in H end.
Qed.

Lemma packet_step_ok e o s : store_ok s -> store_ok (packet_step e o s).
Proof. apply (table_step_ok _ _ _ (packet_step_table e o s)). Qed.

(** C27: Every reachable store has unique identifiers and aliases that never shadow
    one another, a digest-checked body for each unexpired packet, and unexpired
    parents for it: collection never breaks provenance. *)
Theorem reachable_store_ok s : reachable_store s -> store_ok s.
Proof. induction 1 as [|e o s _ IH]; [apply empty_packets_ok|by apply packet_step_ok]. Qed.

(** ** Looking up *)

(** Looking a reference up in a reachable store never raises. *)
Theorem lookup_never_raises e ref scope s :
  store_ok s -> exists st, lookup sha256 float_repr e ref scope s = Ok st.
Proof.
  intros Hok. unfold lookup. destruct (row_by_reference s ref) as [r|] eqn:Hr; [|by eexists].
  apply find_some in Hr as [Hr _]. apply list_elem_of_In in Hr.
  destruct (negb (row_permitted e r scope)); [by eexists|].
  destruct (pr_expired r) eqn:He; simpl; [by eexists|].
  destruct (live e s (pr_id r)); simpl; [|by eexists].
  destruct (so_body _ Hok r Hr He) as [body Hb]. rewrite Hb.
  pose proof (so_digest _ Hok _ _ Hb) as Hd. pose proof (so_valid _ Hok r body Hr Hd) as Hv.
  unfold row_packet in Hv. rewrite Hv. by eexists.
Qed.

(** A lookup that yields a packet yields the one filed under the reference, to
    a permitted scope only, live and unexpired, with a payload that has the
    recorded digest. *)
Theorem lookup_sound e ref scope s p :
  store_ok s -> lookup sha256 float_repr e ref scope s = Ok (LookOk p) ->
  exists r, r ∈ packets s /\ (pr_id r = ref \/ pr_alias r = ref) /\ pk_meta p = pr_meta r /\
    row_permitted e r scope = true /\ pr_expired r = false /\ pr_id r ∈ _live_ids e s /\
    canonical_digest sha256 float_repr (PDict (pk_payload p)) = Ok (mt_sha256 (pk_meta p)).
Proof.
  intros Hok. unfold lookup. destruct (row_by_reference s ref) as [r|] eqn:Hr; [|done].
  apply find_some in Hr as [Hr Href]. apply list_elem_of_In in Hr.
  apply orb_true_iff in Href. rewrite !String.eqb_eq in Href.
  destruct (row_permitted e r scope) eqn:Hp; simpl; [|done].
  destruct (pr_expired r) eqn:He; simpl; [done|].
  destruct (live e s (pr_id r)) eqn:Hl; simpl; [|done].
  destruct (bodies s !! pr_hash r) as [body|] eqn:Hb; [|done]. intros H.
  apply result_bind_ok in H as (? & _ & H). apply Ok_inj in H as [= <-]. simpl.
  exists r. apply live_true in Hl. split_and!; try done. by apply (so_digest _ Hok).
Qed.

(** ** References are never rebound *)

(** Every row survives, with its metadata; expiry is permanent. *)
Definition rows_persist (s s' : store) : Prop :=
  forall r, r ∈ packets s -> exists r', r' ∈ packets s' /\ pr_meta r' = pr_meta r /\
    pr_invocation r' = pr_invocation r /\ (pr_expired r = true -> pr_expired r' = true).

Lemma rows_persist_refl s : rows_persist s s.
Proof. intros r Hr. by exists r. Qed.

Lemma table_step_persists e s s' : table_step e s s' -> rows_persist s s'.
Proof.
  intros Hst r Hr. destruct Hst as [s s' Hb Hp|s s' p extra owners Hv Hn Hne Hsh Hpar Hi|s].
  - exists r. by rewrite Hp.
  - apply insert_row_spec in Hi as (Hp & _). exists r. rewrite Hp. split; [set_solver|done].
  - exists (expire (_live_ids e s) r). rewrite gc_packets. split; [by apply list_elem_of_fmap_2|].
    split; [apply expire_meta|]. unfold expire. destruct (pr_expired r) eqn:He; simpl; [done|].
    by destruct (bool_decide _).
Qed.

Definition packet_session := list (penv * packet_op).
Definition packet_steps (l : packet_session) (s : store) : store :=
  foldl (fun s eo => packet_step eo.1 eo.2 s) s l.

Lemma row_by_reference_unique s r ref :
  store_ok s -> r ∈ packets s -> pr_id r = ref \/ pr_alias r = ref -> row_by_reference s ref = Some r.
Proof.
  intros Hok Hr Href. unfold row_by_reference.
  destruct (List.find _ (packets s)) as [r'|] eqn:Hf.
  - apply find_some in Hf as [Hr' H]. apply list_elem_of_In in Hr'.
    apply orb_true_iff in H. rewrite !String.eqb_eq in H.
    assert (forall a b, a ∈ packets s -> b ∈ packets s -> pr_id a = pr_id b -> a = b) as Hids.
    { intros a b Ha Hb Heq. pose proof (store_ok_row s a Hok Ha). pose proof (store_ok_row s b Hok Hb).
      congruence. }
    assert (forall a b, a ∈ packets s -> b ∈ packets s -> pr_alias a = pr_alias b -> a = b) as Hals.
    { pose proof (so_aliases _ Hok) as Hnd. clear -Hnd. induction (packets s) as [|x l IH];
        intros a b Ha Hb Heq; [by apply not_elem_of_nil in Ha|].
      simpl in Hnd. apply NoDup_cons in Hnd as [Hn Hnd].
      apply elem_of_cons in Ha as [->|Ha], Hb as [->|Hb]; [done| | |by apply IH];
        destruct Hn; apply list_elem_of_fmap; eauto. }
    f_equal. destruct H as [H|H], Href as [H2|H2].
    + apply Hids; [done..|congruence].
    + destruct (so_disjoint _ Hok r' r Hr' Hr). congruence.
    + destruct (so_disjoint _ Hok r r' Hr Hr'). congruence.
    + apply Hals; [done..|congruence].
  - apply list_elem_of_In in Hr. apply (find_none _ _ Hf) in Hr.
    apply orb_false_iff in Hr as [H1%String.eqb_neq H2%String.eqb_neq]. tauto.
Qed.

(** An identifier or alias, once given, names the same packet for ever: after
    any further calls it resolves to the same metadata, live or expired. *)
Theorem reference_never_rebound ref r s l :
  store_ok s -> row_by_reference s ref = Some r ->
  exists r', row_by_reference (packet_steps l s) ref = Some r' /\
    pr_meta r' = pr_meta r /\ (pr_expired r = true -> pr_expired r' = true).
Proof.
  intros Hok Hr. pose proof Hr as [Hin Href]%find_some. apply list_elem_of_In in Hin.
  apply orb_true_iff in Href. rewrite !String.eqb_eq in Href. clear Hr.
  revert s r Hok Hin Href. induction l as [|[e o] l IH]; intros s r Hok Hin Href; simpl.
  { exists r. split; [by apply row_by_reference_unique|done]. }
  pose proof (packet_step_table e o s) as Hst.
  destruct (table_step_persists _ _ _ Hst r Hin) as (r' & Hin' & Hm & _ & He).
  destruct (IH (packet_step e o s) r') as (r2 & H1 & H2 & H3); [by eapply table_step_ok|done| |].
  { unfold pr_id, pr_alias in *. by rewrite Hm. }
  exists r2. split; [done|]. split; [congruence|]. auto.
Qed.

(** ** Garbage collection *)

(** C36: A collection returns exactly the unexpired packets that are not live and
    marks them expired; what is live stays unexpired and keeps its body. *)
Theorem gc_exact e s :
  store_ok s ->
  (forall id, id ∈ (gc e s).1 <->
     exists r, r ∈ packets s /\ pr_id r = id /\ pr_expired r = false /\ id ∉ _live_ids e s) /\
  (forall r, r ∈ packets s -> exists r', row_by_id (gc e s).2 (pr_id r) = Some r' /\
     pr_meta r' = pr_meta r /\
     (pr_expired r' = true <-> pr_expired r = true \/ pr_id r ∉ _live_ids e s)) /\
  (forall r, r ∈ packets s -> pr_expired r = false -> pr_id r ∈ _live_ids e s ->
     bodies (gc e s).2 !! pr_hash r = bodies s !! pr_hash r).
Proof.
  intros Hok. split_and!.
  - intros id. simpl. rewrite list_elem_of_fmap. split.
    + intros (r & -> & Hr). apply list_elem_of_In, filter_In in Hr as [Hr H].
      apply andb_true_iff in H as [He%negb_true_iff Hl%negb_true_iff%bool_decide_eq_false].
      exists r. by apply list_elem_of_In in Hr.
    + intros (r & Hr & <- & He & Hl). exists r. split; [done|]. apply list_elem_of_In, filter_In.
      split; [by apply list_elem_of_In|]. by rewrite He, bool_decide_eq_false_2.
  - intros r Hr. exists (expire (_live_ids e s) r). split.
    + assert (pr_id r = pr_id (expire (_live_ids e s) r)) as -> by (unfold pr_id; by rewrite expire_meta).
      apply store_ok_row; [by apply gc_store_ok|]. rewrite gc_packets. by apply list_elem_of_fmap_2.
    + split; [apply expire_meta|]. pose proof (expire_kept e s r) as Hk.
      destruct (pr_expired (expire (_live_ids e s) r)), (pr_expired r),
        (decide (pr_id r ∈ _live_ids e s)); naive_solver.
  - intros r. apply gc_body.
Qed.

(** ** Retention *)

Lemma drop_jobs_spec l s :
  retention (foldl drop_job s l) =
    List.filter (fun r => negb (bool_decide (rt_owner r ∈ l))) (retention s) /\
  (forall o id, (o, id) ∈ pins (foldl drop_job s l) <-> (o, id) ∈ pins s /\ o ∉ l).
Proof.
  revert s. induction l as [|x l IH]; intros s; simpl.
  { split.
    - symmetry. induction (retention s) as [|r t IHt]; simpl; [done|]. by f_equal.
    - intros o id. split; [|tauto]. intros H. split; [done|]. apply not_elem_of_nil. }
  destruct (IH (drop_job s x)) as [Hr Hp]. split.
  - rewrite Hr. simpl. induction (retention s) as [|r t IHt]; simpl; [done|].
    destruct (String.eqb_spec (rt_owner r) x) as [->|Hne]; simpl.
    + rewrite (bool_decide_eq_true_2 (x ∈ x :: l)) by left. by simpl.
    + assert (bool_decide (rt_owner r ∈ x :: l) = bool_decide (rt_owner r ∈ l)) as ->.
      { apply bool_decide_ext. rewrite elem_of_cons. naive_solver. }
      destruct (bool_decide (rt_owner r ∈ l)); simpl; [done|]. by f_equal.
  - intros o id. rewrite Hp. simpl. unfold unpin_all. rewrite elem_of_filter, not_elem_of_cons.
    simpl. tauto.
Qed.

Lemma filter_filter_comm {A} (f g : A -> bool) l : List.filter f (List.filter g l) = List.filter g (List.filter f l).
Proof.
  induction l as [|x l IH]; simpl; [done|].
  destruct (f x) eqn:Hf, (g x) eqn:Hg; simpl; rewrite ?Hf, ?Hg; congruence.
Qed.

Lemma filter_length_perm {A} (f : A -> bool) l k :
  l ≡ₚ k -> length (List.filter f l) = length (List.filter f k).
Proof. intros H. induction H; simpl; repeat case_match; simpl; lia. Qed.

(** After a job is retained, at most the configured number of terminal jobs
    keep a retention row, and a job dropped by the limit holds no pin. *)
Theorem retain_job_bounded e owner refs terminal s s' :
  retain_job e owner refs terminal s = (Ok tt, s') ->
  (length (List.filter rt_terminal (retention s')) <= Z.to_nat (pe_recent_limit e))%nat /\
  (forall o, o <> owner -> o ∈ map rt_owner (retention s) -> o ∉ map rt_owner (retention s') ->
     forall id, (o, id) ∉ pins s').
Proof.
  unfold retain_job, atomic. destruct (_pin e owner refs s) as [s1|x] eqn:Hpin; [|done].
  rewrite bind_Ok. intros H. injection H as <-.
  assert (retention s1 = retention s) as Hret.
  { apply (foldM_invariant (fun s' => retention s' = retention s) (pin_one e owner) refs s s1) in Hpin;
      [done| |done]. intros s2 x s3 _ H2 Hs. apply pin_one_table in Hs as (_ & _ & _ & H3 & _). congruence. }
  set (s2 := set_retention _ s1). set (l := stale_retention e s2).
  destruct (drop_jobs_spec l s2) as [Hr Hp]. split.
  - rewrite Hr, filter_filter_comm. set (T := List.filter rt_terminal (retention s2)) in *.
    rewrite (filter_length_perm _ T (merge_sort retention_le T)) by (by rewrite merge_sort_Permutation).
    set (k := Z.to_nat (pe_recent_limit e)) in *.
    rewrite <-(take_drop k (merge_sort retention_le T)), List.filter_app, length_app.
    assert (List.filter (fun r => negb (bool_decide (rt_owner r ∈ l))) (drop k (merge_sort retention_le T)) = [])
      as ->.
    { assert (forall r, r ∈ drop k (merge_sort retention_le T) -> rt_owner r ∈ l) as Hin.
      { intros r Hr'. unfold l, stale_retention. by apply list_elem_of_fmap_2. }
      induction (drop k (merge_sort retention_le T)) as [|r t IH]; simpl; [done|].
      rewrite bool_decide_eq_true_2 by (apply Hin; left). simpl. apply IH. intros r' Hr'.
      apply Hin. by right. }
    simpl. pose proof (filter_length_le (fun r => negb (bool_decide (rt_owner r ∈ l)))
      (take k (merge_sort retention_le T))) as Hle. rewrite length_take in Hle. lia.
  - intros o Hne Ho Hgone id Hid. apply Hp in Hid as [_ Hnl]. apply Hgone. rewrite Hr.
    apply list_elem_of_fmap in Ho as (r & -> & Hin). apply list_elem_of_fmap. exists r. split; [done|].
    apply list_elem_of_In, filter_In. split; [|by rewrite bool_decide_eq_false_2].
    simpl. apply in_app_iff. left. apply filter_In. rewrite Hret. split; [by apply list_elem_of_In|].
    by rewrite (proj2 (String.eqb_neq _ _) Hne).
Qed.

End Invariants.
