(* ===== verification/Notes.v ===== *)
(** * Knowledge notes and hints (as1_packets.py)

    Notes are advisory records kept in the packet store with pins on the packets
    they cite: their validation, the checks on the evidence they cite, and the four
    operations on them; and [assemble_hints], which selects packets under a byte
    budget and attributes whatever is stale. *)

From Stdlib Require Import ZArith SpecFloat.
From stdpp Require Import pretty gmap fin_sets.
From S2P Require Import Prelude PyValue Text Stamps Json Masking Contracts HostCoordinator.
From S2P Require Import Packets PacketProps.

#[local] Open Scope string_scope.
#[local] Open Scope Z_scope.
#[local] Open Scope list_scope.

Definition _NOTE_FIELDS : list string :=
  ["note_id"; "project"; "kind"; "claim"; "reason_matters"; "sources"; "evidence_packets";
   "dependencies"; "coverage"; "uncertainty"; "provenance"; "supersedes"; "contradicts";
   "next_action"; "authoritative"; "is_independent_evidence"].
Definition _NOTE_PROVENANCE : list string := ["user"; "source"; "test"; "model"].
Definition _MAX_NOTE_BYTES : Z := 8 * 1024.
Definition _MAX_NOTES_PER_PROJECT : nat := 128.

(** "value.setdefault(k, v)". *)
Definition setdefault (k : string) (v : pyval) (d : pydict) : pydict :=
  if dict_mem k d then d else dict_set k v d.

Definition is_str (s : string) (v : pyval) : bool :=
  match v with PStr t => String.eqb t s | _ => false end.

Definition get (k : string) (d : pydict) : pyval := dict_get_default k PNone d.

(** "isinstance(v, str) and v.strip()". *)
Definition nonblank (v : pyval) : bool :=
  match v with PStr s => negb (String.eqb (strip s) "") | _ => false end.

Section Validate.
Context (float_repr : spec_float -> string).

Definition with_defaults (user_goal : bool) (d : pydict) : pydict :=
  let d := if user_goal then dict_set "provenance" (PStr "user") (dict_set "kind" (PStr "goal") d) else d in
  setdefault "uncertainty" (PList []) (setdefault "coverage" (PDict []) (setdefault "dependencies" (PDict [])
    (setdefault "evidence_packets" (PList []) (setdefault "sources" (PList []) d)))).

Definition check_note_id (d : pydict) : result unit :=
  match get "note_id" d with
  | PStr s =>
      _ ← raise_if (String.eqb (strip s) "" || (128 <? str_len s)%nat)
            (ValueError "note_id must be a stable nonempty identifier of at most 128 characters");
      raise_if (any_char (fun c => (code c <? 32)%nat) s) (ValueError "note_id contains a control character")
  | _ => Err (ValueError "note_id must be a stable nonempty identifier of at most 128 characters")
  end.

Fixpoint check_texts (fields : list string) (d : pydict) : result unit :=
  match fields with
  | [] => Ok tt
  | f :: fields =>
      _ ← raise_if (negb (nonblank (get f d))) (ValueError (f +:+ " must be a nonempty string"));
      check_texts fields d
  end.

(** Membership in a set of strings: an unhashable value raises. *)
Definition check_provenance (d : pydict) : result unit :=
  match get "provenance" d with
  | PStr s => raise_if (negb (bool_decide (s ∈ _NOTE_PROVENANCE))) (ValueError "unsupported note provenance")
  | PList _ | PDict _ => Err (TypeError "unhashable type")
  | _ => Err (ValueError "unsupported note provenance")
  end.

Definition read_sources (l : list pyval) : result (list pyval) :=
  mapM_result (fun v => match parse_source v with
                        | Some s => Ok (source_wire s)
                        | None => Err (ValueError "invalid source locator")
                        end) l.

Definition is_packet_ref (v : pyval) : bool :=
  match v with PStr s => String.prefix "pkt_" s | _ => false end.

Definition check_evidence (l : list pyval) : result (list string) :=
  _ ← raise_if (negb (forallb is_packet_ref l)) (ValueError "evidence_packets must contain original packet IDs");
  match all_strs l with
  | Some refs => _ ← raise_if (negb (bool_decide (NoDup refs))) (ValueError "evidence_packets must be unique");
                 Ok refs
  | None => Err (ValueError "evidence_packets must contain original packet IDs")
  end.

Definition dependency_bad (kv : string * pyval) : bool :=
  String.eqb kv.1 "" || match kv.2 with PStr s => String.eqb s "" | _ => true end.

Definition check_dependencies (d : pydict) : result unit :=
  match get "dependencies" d with
  | PDict deps => raise_if (existsb dependency_bad deps)
                    (ValueError "dependencies must map nonempty determinant names to digests")
  | _ => Err (ValueError "dependencies must map nonempty determinant names to digests")
  end.

Definition check_json (f : string) (d : pydict) : result unit :=
  match json_dumps float_repr (get f d) with
  | Ok _ => Ok tt
  | Err _ => Err (ValueError (f +:+ " must be JSON data"))
  end.

Definition check_note_refs (f : string) (d : pydict) : result unit :=
  match get f d with
  | PNone => Ok tt
  | v => raise_if (negb (forallb (fun r => match r with PStr s => negb (String.eqb s "") | _ => false end)
                           (match v with PList l => l | _ => [v] end)))
           (ValueError (f +:+ " must contain note IDs"))
  end.

Definition check_next_action (d : pydict) : result unit :=
  match get "next_action" d with
  | PNone | PStr _ => Ok tt
  | _ => Err (ValueError "next_action must be text or null")
  end.

(** "if value.get(f) is True: raise; value[f] = False". *)
Definition deny_authority (d : pydict) (f : string) : result pydict :=
  match get f d with
  | PBool true => Err (ValueError "knowledge notes cannot be authority or independent evidence")
  | _ => Ok (dict_set f (PBool false) d)
  end.

Definition cites_nothing (d : pydict) : bool :=
  (is_str "source" (get "provenance" d) || is_str "test" (get "provenance" d)) &&
  (negb (truthy (get "sources" d)) || negb (truthy (get "evidence_packets" d))).

Definition _validate_note (record : pyval) (user_goal : bool) : result pydict :=
  match record with
  | PDict d =>
      _ ← raise_if (bool_decide (unknown_keys d _NOTE_FIELDS <> []))
            (ValueError ("unknown note fields: " +:+ join ", " (unknown_keys d _NOTE_FIELDS)));
      _ ← raise_if (negb user_goal && (is_str "user" (get "provenance" d) || is_str "goal" (get "kind" d)))
            (ValueError "user goals require the trusted put_user_goal path");
      let d := with_defaults user_goal d in
      _ ← check_note_id d;
      _ ← check_texts ["project"; "kind"; "claim"; "reason_matters"] d;
      _ ← check_provenance d;
      match get "sources" d, get "evidence_packets" d with
      | PList sources, PList evidence =>
          wires ← read_sources sources;
          let d := dict_set "sources" (PList wires) d in
          _ ← check_evidence evidence;
          _ ← check_dependencies d;
          _ ← check_json "coverage" d;
          _ ← check_json "uncertainty" d;
          _ ← check_note_refs "supersedes" d;
          _ ← check_note_refs "contradicts" d;
          _ ← check_next_action d;
          d ← foldM deny_authority d ["authoritative"; "is_independent_evidence"];
          _ ← raise_if (cites_nothing d)
                (ValueError "source/test notes require original source locators and evidence packets");
          let cleaned := mask_payload (PDict d) "" in
          _ ← raise_if (bool_decide (cleaned.2 <> []))
                (ValueError "note contains private or authority material");
          size ← json_size float_repr cleaned.1;
          _ ← raise_if (_MAX_NOTE_BYTES <? size) (ValueError "note exceeds 8 KiB record cap");
          Ok (masked_dict cleaned.1)
      | _, _ => Err (ValueError "sources and evidence_packets must be lists")
      end
  | _ => Err (TypeError "note record must be a mapping")
  end.

End Validate.

(** ** Evidence *)

Definition markers : list string := ["knowledge_notes"; "prepared_notes"; "derived_knowledge"; "knowledge_context"].

Definition prepared_marker (d : pydict) : bool :=
  match dict_get "prepared_context" d with
  | Some (PDict p) => dict_mem "notes" p || dict_mem "goals" p
  | _ => false
  end.

Fixpoint contains_marker (v : pyval) : bool :=
  match v with
  | PDict d =>
      existsb (fun kv => bool_decide (kv.1 ∈ markers)) d || prepared_marker d ||
      (fix go (d : pydict) : bool := match d with [] => false | (_, x) :: d => contains_marker x || go d end) d
  | PList l => (fix go (l : list pyval) : bool := match l with [] => false | x :: l => contains_marker x || go l end) l
  | _ => false
  end.

(** The stored metadata of a row, with its invocation record. *)
Definition row_metadata (r : packet_row) : pydict :=
  meta_wire (pr_meta r) ++ [("_invocation", pr_invocation r)].

Definition _prepared_context_packet (r : packet_row) (payload : pydict) : bool :=
  contains_marker (PDict (row_metadata r)) || contains_marker (PDict payload) ||
  bool_decide (normal_key (mt_tool (pr_meta r)) ∈
    ["knowledge"; "knowledge_context"; "prepared_context"; "notebook_context"]).

Section Notes.
Context (sha256 : string -> string) (float_repr : spec_float -> string) (e : penv).

(** Two optional values under "!=". *)
Definition same_value (a b : option pyval) : bool :=
  match a, b with
  | Some x, Some y => py_eqb x y
  | None, Some y => py_eqb PNone y
  | Some x, None => py_eqb x PNone
  | None, None => true
  end.

Definition _note_scope_allows (saved supplied : pydict) (sources : list pyval) : bool :=
  negb (bool_decide (supplied = [])) &&
  same_value (dict_get "principal" saved) (dict_get "principal" supplied) &&
  permitted e saved supplied sources.

Definition scope_project (scope : pydict) (project : pyval) : bool := py_eqb (get "project" scope) project.

Definition as_list (v : pyval) : list pyval := match v with PList l => l | _ => [] end.
Definition note_sources (d : pydict) : list pyval := as_list (get "sources" d).
Definition note_refs (d : pydict) : list string := default [] (all_strs (as_list (get "evidence_packets" d))).

(** The checks on one cited packet; its sources on success. *)
Definition check_packet (s : store) (scope : pydict) (id : string) : result (list pyval) :=
  match row_by_id s id with
  | None => Err (ValueError "note evidence packet is missing or expired")
  | Some r =>
      _ ← raise_if (pr_expired r || negb (live e s (pr_id r)))
            (ValueError "note evidence packet is missing or expired");
      let sources := map source_wire (mt_sources (pr_meta r)) in
      _ ← raise_if (negb (_note_scope_allows (mt_access_scope (pr_meta r)) scope sources))
            (PermissionError "note evidence packet is outside current trusted scope");
      match bodies s !! pr_hash r with
      | None => Err corrupt
      | Some body =>
          _ ← raise_if (_prepared_context_packet r body)
                (ValueError "prepared knowledge context cannot corroborate a note");
          Ok sources
      end
  end.

Definition wires (l : list pyval) : result (list string) := mapM_result (json_dumps float_repr) l.

Definition _validate_note_evidence (s : store) (record scope : pydict) : result (list string) :=
  _ ← raise_if (bool_decide (scope = []) || negb (scope_project scope (get "project" record)))
        (PermissionError "note project must match the trusted access scope");
  _ ← raise_if (negb (_note_scope_allows scope scope (note_sources record)))
        (PermissionError "note outside current trusted access scope");
  cited ← mapM_result (check_packet s scope) (note_refs record);
  _ ← (if is_str "source" (get "provenance" record) || is_str "test" (get "provenance" record)
       then known ← wires (concat cited);
            own ← wires (note_sources record);
            raise_if (negb (forallb (fun w => bool_decide (w ∈ known)) own))
              (ValueError "source/test note locators must appear in cited original packets")
       else Ok tt);
  Ok (note_refs record).

(** ** Operations *)

Definition note_by_id (s : store) (id : string) : option note_row :=
  List.find (fun n => String.eqb (nt_id n) id) (notes s).

Definition note_id_of (record : pydict) : string := match get "note_id" record with PStr s => s | _ => "" end.
Definition project_of (record : pydict) : string := match get "project" record with PStr s => s | _ => "" end.

Definition note_owner (id : string) : string := "note:" +:+ id.

Definition upsert_note (n : note_row) (s : store) : store :=
  set_notes (List.filter (fun n' => negb (String.eqb (nt_id n') (nt_id n))) (notes s) ++ [n]) s.

Definition project_count (s : store) (project id : string) : nat :=
  length (List.filter (fun n => String.eqb (nt_project n) project && negb (String.eqb (nt_id n) id)) (notes s)).

(** Who may update: the stored scope must allow it, and the project stays. *)
Definition check_prior (prior : note_row) (value scope : pydict) : result unit :=
  _ ← raise_if (negb (String.eqb (nt_project prior) (project_of value)) ||
                negb (_note_scope_allows (nt_access_scope prior) scope (note_sources (nt_metadata prior))))
        (PermissionError "cannot update a note outside its original trusted scope");
  raise_if (negb (scope_project scope (get "project" value)))
    (PermissionError "note project must match the trusted access scope").

Definition _put_note (record : pyval) (scope : pydict) (user_goal : bool) (s : store)
    : result pydict * store :=
  atomic (fun s =>
    value ← _validate_note float_repr record user_goal;
    let id := note_id_of value in
    let prior := note_by_id s id in
    _ ← match prior with Some p => check_prior p value scope | None => Ok tt end;
    refs ← _validate_note_evidence s value scope;
    _ ← raise_if (bool_decide (prior = None) && (_MAX_NOTES_PER_PROJECT <=? project_count s (project_of value) id)%nat)
          (ValueError "project knowledge capacity reached (128 records)");
    let stored_scope := match prior with Some p => nt_access_scope p | None => scope end in
    _ ← json_dumps float_repr (PDict stored_scope);
    let s1 := set_pins (list_to_set (map (fun ref => (note_owner id, ref)) refs) ∪
                        unpin_all (note_owner id) (pins s)) s in
    Ok (value,
        upsert_note
          {| nt_id := id; nt_project := project_of value; nt_metadata := value;
             nt_access_scope := stored_scope;
             nt_created := match prior with Some p => nt_created p | None => pe_now e end;
             nt_updated := pe_now e |} s1)) s.

Definition put_note (record : pyval) (scope : pydict) (s : store) : result pydict * store :=
  _put_note record scope false s.
Definition put_user_goal (record : pyval) (scope : pydict) (s : store) : result pydict * store :=
  _put_note record scope true s.

Definition readable (scope : pydict) (n : note_row) : bool :=
  scope_project scope (get "project" (nt_metadata n)) &&
  _note_scope_allows (nt_access_scope n) scope (note_sources (nt_metadata n)).

Definition get_note (id : string) (scope : pydict) (s : store) : option pydict :=
  match note_by_id s id with
  | Some n => if readable scope n then Some (nt_metadata n) else None
  | None => None
  end.

(** "ORDER BY updated DESC, note_id". *)
Definition note_le (a b : note_row) : Prop :=
  nt_updated b < nt_updated a \/ (nt_updated a = nt_updated b /\ String.le (nt_id a) (nt_id b)).
#[local] Instance note_le_dec : RelDecision note_le.
Proof. intros a b. unfold note_le. apply _. Defined.

Definition list_notes (scope : pydict) (project : string) (limit : pyval) (s : store)
    : result (list pydict) :=
  match limit with
  | PInt n =>
      _ ← raise_if ((n <? 1) || (Z.of_nat _MAX_NOTES_PER_PROJECT <? n))
            (ValueError "limit must be between 1 and 128");
      _ ← raise_if (negb (scope_project scope (PStr project)))
            (PermissionError "requested project must match the trusted access scope");
      let rows := take (Z.to_nat n)
        (merge_sort note_le (List.filter (fun r => String.eqb (nt_project r) project) (notes s))) in
      Ok (map nt_metadata (List.filter
            (fun r => _note_scope_allows (nt_access_scope r) scope (note_sources (nt_metadata r))) rows))
  | _ => Err (ValueError "limit must be between 1 and 128")
  end.

Definition delete_note (id : string) (scope : pydict) (s : store) : bool * store :=
  match note_by_id s id with
  | Some n =>
      if readable scope n
      then (true, set_notes (List.filter (fun n' => negb (String.eqb (nt_id n') id)) (notes s))
                    (set_pins (unpin_all (note_owner id) (pins s)) s))
      else (false, s)
  | None => (false, s)
  end.

End Notes.

(** ** Theorems *)

Lemma deny_authority_spec d d' :
  foldM deny_authority d ["authoritative"; "is_independent_evidence"] = Ok d' ->
  get "authoritative" d' = PBool false /\ get "is_independent_evidence" d' = PBool false /\
  forall k, k <> "authoritative" -> k <> "is_independent_evidence" -> get k d' = get k d.
Proof.
  cbn [foldM]. intros H. apply result_bind_ok in H as (d1 & H1 & H).
  apply result_bind_ok in H as (d2 & H2 & H). apply Ok_inj in H as <-.
  assert (forall f a b, deny_authority a f = Ok b -> b = dict_set f (PBool false) a) as Hd.
  { intros f a b. unfold deny_authority. destruct (get f a) as [|[]| | | | |]; naive_solver. }
  apply Hd in H1 as ->. apply Hd in H2 as ->. unfold get, dict_get_default. split_and!.
  - by rewrite dict_get_set_ne, dict_get_set_eq.
  - by rewrite dict_get_set_eq.
  - intros k ? ?. by rewrite !dict_get_set_ne.
Qed.

Lemma get_set_ne k k' v d : k <> k' -> get k' (dict_set k v d) = get k' d.
Proof. intros. unfold get, dict_get_default. by rewrite dict_get_set_ne. Qed.

Lemma get_setdefault_ne k k' v d : k <> k' -> get k' (setdefault k v d) = get k' d.
Proof. intros. unfold setdefault. destruct (dict_mem k d); [done|by apply get_set_ne]. Qed.

Lemma with_defaults_same user_goal d k :
  k ∉ ["sources"; "evidence_packets"; "dependencies"; "coverage"; "uncertainty"; "kind"; "provenance"] ->
  get k (with_defaults user_goal d) = get k d.
Proof.
  intros Hk. unfold with_defaults. rewrite !get_setdefault_ne by set_solver.
  destruct user_goal; [|done]. by rewrite !get_set_ne by set_solver.
Qed.

Lemma with_defaults_trust user_goal d k :
  k = "kind" \/ k = "provenance" ->
  get k (with_defaults user_goal d) =
  if user_goal then PStr (if String.eqb k "kind" then "goal" else "user") else get k d.
Proof.
  intros Hk. unfold with_defaults. rewrite !get_setdefault_ne by (destruct Hk as [-> | ->]; done).
  destruct user_goal; [|done]. destruct Hk as [-> | ->].
  - rewrite get_set_ne by done. unfold get, dict_get_default. by rewrite dict_get_set_eq.
  - unfold get, dict_get_default. by rewrite dict_get_set_eq.
Qed.

(** An accepted note claims no authority, carries nothing masking would
    remove, and fits the record cap; it is a user goal exactly when it came
    through the trusted path. *)
Theorem validated_note_advisory float_repr record user_goal value :
  _validate_note float_repr record user_goal = Ok value ->
  get "authoritative" value = PBool false /\
  get "is_independent_evidence" value = PBool false /\
  (mask_payload (PDict value) "").2 = [] /\
  (exists size, json_size float_repr (PDict value) = Ok size /\ size <= _MAX_NOTE_BYTES) /\
  (if user_goal then get "provenance" value = PStr "user" /\ get "kind" value = PStr "goal"
   else is_str "user" (get "provenance" value) = false /\ is_str "goal" (get "kind" value) = false).
Proof.
  unfold _validate_note. destruct record as [| | | | | |d]; try done. intros H.
  apply result_bind_ok in H as (? & _ & H). apply result_bind_ok in H as (? & Htrust & H).
  apply raise_if_ok in Htrust. set (d1 := with_defaults user_goal d) in *.
  apply result_bind_ok in H as (? & _ & H). apply result_bind_ok in H as (? & _ & H).
  apply result_bind_ok in H as (? & _ & H).
  destruct (get "sources" d1) as [| | | | |sources|]; try done.
  destruct (get "evidence_packets" d1) as [| | | | |evidence|]; try done.
  apply result_bind_ok in H as (wires & _ & H). set (d2 := dict_set "sources" (PList wires) d1) in *.
  do 7 (apply result_bind_ok in H as (? & _ & H)).
  apply result_bind_ok in H as (d3 & Hdeny & H). apply deny_authority_spec in Hdeny as (Ha & Hi & Hother).
  apply result_bind_ok in H as (? & _ & H). apply result_bind_ok in H as (? & Hmask & H).
  apply result_bind_ok in H as (size & Hsize & H). apply result_bind_ok in H as (? & Hcap & H).
  apply Ok_inj in H as <-. apply raise_if_ok in Hmask, Hcap.
  apply bool_decide_eq_false, dec_stable in Hmask. pose proof (mask_clean_same _ _ Hmask) as Hsame.
  rewrite Hsame in *. unfold masked_dict. split_and!; try done.
  - exists size. split; [done|]. lia.
  - rewrite !Hother by done. subst d2. rewrite !get_set_ne by done. subst d1.
    rewrite !with_defaults_trust by auto. destruct user_goal; [done|].
    simpl in Htrust. by apply orb_false_iff in Htrust.
Qed.

Section NoteStore.
Context (sha256 : string -> string) (float_repr : spec_float -> string) (e : penv).

Lemma put_note_ok record scope user_goal s value s' :
  _put_note float_repr e record scope user_goal s = (Ok value, s') ->
  _validate_note float_repr record user_goal = Ok value /\
  match note_by_id s (note_id_of value) with Some p => check_prior e p value scope = Ok tt | None => True end /\
  _validate_note_evidence float_repr e s value scope = Ok (note_refs value) /\
  (note_by_id s (note_id_of value) = None ->
     project_count s (project_of value) (note_id_of value) < _MAX_NOTES_PER_PROJECT)%nat /\
  s' = upsert_note
    {| nt_id := note_id_of value; nt_project := project_of value; nt_metadata := value;
       nt_access_scope := match note_by_id s (note_id_of value) with
                          | Some p => nt_access_scope p | None => scope end;
       nt_created := match note_by_id s (note_id_of value) with
                     | Some p => nt_created p | None => pe_now e end;
       nt_updated := pe_now e |}
    (set_pins (list_to_set (map (fun ref => (note_owner (note_id_of value), ref)) (note_refs value)) ∪
               unpin_all (note_owner (note_id_of value)) (pins s)) s).
Proof.
  unfold _put_note, atomic. destruct (_ ≫= _) as [[v s1]|] eqn:H; [|done]. intros [= -> ->].
  apply result_bind_ok in H as (value' & Hv & H). cbv zeta in H.
  apply result_bind_ok in H as (u & Hprior & H). apply result_bind_ok in H as (refs & Hev & H).
  apply result_bind_ok in H as (? & Hcap & H). apply result_bind_ok in H as (? & _ & H).
  apply Ok_inj in H. injection H as -> <-. apply raise_if_ok in Hcap.
  assert (refs = note_refs value) as ->.
  { unfold _validate_note_evidence in Hev. inv_res. done. }
  split; [done|]. split; [destruct (note_by_id s (note_id_of value)); [by destruct u|done]|].
  split; [done|]. split; [|done].
  intros Hn. rewrite Hn in Hcap. apply andb_false_iff in Hcap as [Hcap|Hcap].
  - by rewrite bool_decide_eq_true_2 in Hcap.
  - by apply Nat.leb_gt in Hcap.
Qed.

Lemma note_by_id_spec s id n : note_by_id s id = Some n -> n ∈ notes s /\ nt_id n = id.
Proof. unfold note_by_id. intros [H He%String.eqb_eq]%find_some. by rewrite list_elem_of_In. Qed.

(** Updating a note never widens it: the stored scope, the creation time and
    the project stay those of the first version, and only a caller that scope
    admits can do it. *)
Theorem note_update_keeps_scope record scope user_goal s value s' prior :
  _put_note float_repr e record scope user_goal s = (Ok value, s') ->
  note_by_id s (note_id_of value) = Some prior ->
  _note_scope_allows e (nt_access_scope prior) scope (note_sources (nt_metadata prior)) = true /\
  exists n, note_by_id s' (note_id_of value) = Some n /\ nt_metadata n = value /\
    nt_access_scope n = nt_access_scope prior /\ nt_created n = nt_created prior /\
    nt_project n = nt_project prior.
Proof.
  intros H Hp. apply put_note_ok in H as (_ & Hprior & _ & _ & ->). rewrite Hp in *.
  unfold check_prior in Hprior. apply result_bind_ok in Hprior as (? & Hc & _).
  apply raise_if_ok, orb_false_iff in Hc as [Hproj Hallow].
  apply negb_false_iff in Hproj, Hallow. apply String.eqb_eq in Hproj. split; [done|].
  eexists. split.
  - unfold note_by_id, upsert_note. simpl. set (id := note_id_of value).
    induction (notes s) as [|m l IH]; simpl; [by rewrite String.eqb_refl|].
    destruct (String.eqb_spec (nt_id m) id) as [Heq|Hne]; simpl; [done|].
    by rewrite (proj2 (String.eqb_neq _ _) Hne).
  - by split_and!.
Qed.

(** An accepted note pins exactly the packets it cites, each of which is then
    live, and drops the pins of its earlier version. *)
Theorem note_pins_evidence record scope user_goal s value s' :
  _put_note float_repr e record scope user_goal s = (Ok value, s') ->
  (forall id, (note_owner (note_id_of value), id) ∈ pins s' <-> id ∈ note_refs value) /\
  (forall id, id ∈ note_refs value -> id ∈ _live_ids e s') /\
  (forall o id, o <> note_owner (note_id_of value) -> (o, id) ∈ pins s' <-> (o, id) ∈ pins s).
Proof.
  intros H. apply put_note_ok in H as (_ & _ & _ & _ & ->).
  assert (forall o id, (o, id) ∈ list_to_set (C := gset (string * string))
      (map (fun ref => (note_owner (note_id_of value), ref)) (note_refs value)) ∪
      unpin_all (note_owner (note_id_of value)) (pins s) <->
    (o = note_owner (note_id_of value) /\ id ∈ note_refs value) \/
    (o <> note_owner (note_id_of value) /\ (o, id) ∈ pins s)) as Hp.
  { intros o id. rewrite elem_of_union, elem_of_list_to_set, list_elem_of_fmap. unfold unpin_all.
    rewrite elem_of_filter. simpl. split; [naive_solver|]. intros [[-> H]|H]; [left; by exists id|by right]. }
  split_and!; simpl.
  - intros id. rewrite Hp. naive_solver.
  - intros id Hid. apply live_rooted. left. exists (note_owner (note_id_of value)). simpl. apply Hp. by left.
  - intros o id Hne. rewrite Hp. naive_solver.
Qed.

(** No project exceeds the record capacity, and note identifiers are unique. *)
Record notes_ok (s : store) : Prop := {
  no_ids : NoDup (map nt_id (notes s));
  no_capacity : forall project,
    (length (List.filter (fun n => String.eqb (nt_project n) project) (notes s)) <= _MAX_NOTES_PER_PROJECT)%nat
}.

Lemma filter_length_mono {A} (f g : A -> bool) l :
  (forall x, x ∈ l -> f x = true -> g x = true) ->
  (length (List.filter f l) <= length (List.filter g l))%nat.
Proof.
  induction l as [|x l IH]; intros H; simpl; [done|].
  assert (length (List.filter f l) <= length (List.filter g l))%nat by (apply IH; intros; apply H; [by right|done]).
  destruct (f x) eqn:Hf; [rewrite (H x) by (try left; done); simpl; lia|]. destruct (g x); simpl; lia.
Qed.

Lemma filter_drop_one (l : list note_row) id n project :
  NoDup (map nt_id l) -> n ∈ l -> nt_id n = id -> nt_project n = project ->
  S (length (List.filter (fun m => String.eqb (nt_project m) project && negb (String.eqb (nt_id m) id)) l)) =
  length (List.filter (fun m => String.eqb (nt_project m) project) l).
Proof.
  intros Hnd Hn <- <-. induction l as [|m l IH]; [by apply not_elem_of_nil in Hn|].
  simpl in *. apply NoDup_cons in Hnd as [Hm Hnd]. apply elem_of_cons in Hn as [->|Hn].
  - rewrite !String.eqb_refl. simpl. f_equal. f_equal. apply filter_ext_in. intros x Hx.
    rewrite (proj2 (String.eqb_neq (nt_id x) (nt_id m))); [by rewrite andb_true_r|].
    intros Heq. apply Hm, list_elem_of_fmap. exists x. split; [done|by apply list_elem_of_In].
  - assert (nt_id m <> nt_id n) as Hne.
    { intros Heq. apply Hm. rewrite Heq. by apply list_elem_of_fmap_2. }
    rewrite (proj2 (String.eqb_neq _ _) Hne), andb_true_r.
    destruct (String.eqb (nt_project m) (nt_project n)); simpl; [f_equal|]; by apply IH.
Qed.

(** Writing and deleting notes keep every project within its capacity of 128
    records and note identifiers unique. *)
Theorem notes_capacity record scope user_goal s id :
  notes_ok s ->
  notes_ok (_put_note float_repr e record scope user_goal s).2 /\
  notes_ok (delete_note e id scope s).2.
Proof.
  intros [Hids Hcap]. split.
  - destruct (_put_note float_repr e record scope user_goal s) as [[value|x] s'] eqn:H; simpl.
    2: { unfold _put_note, atomic in H. destruct (_ ≫= _) as [[]|]; [done|]. injection H as _ <-. by split. }
    apply put_note_ok in H as (_ & Hprior & _ & Hnew & ->). simpl.
    set (nid := note_id_of value) in *. unfold upsert_note. split; simpl.
    + rewrite map_app. simpl. apply NoDup_snoc.
      * clear -Hids. induction (notes s) as [|n l IH]; simpl; [constructor|].
        simpl in Hids. apply NoDup_cons in Hids as [Hn Hids].
        destruct (negb _); simpl; [|by apply IH]. constructor; [|by apply IH].
        intros (m & Heq & Hm)%list_elem_of_fmap. apply list_elem_of_In, filter_In in Hm as [Hm _].
        apply Hn, list_elem_of_fmap. exists m. split; [done|by apply list_elem_of_In].
      * intros (m & Heq & Hm)%list_elem_of_fmap. apply list_elem_of_In, filter_In in Hm as [_ Hm].
        rewrite <-Heq, String.eqb_refl in Hm. done.
    + intros project. rewrite List.filter_app, length_app. simpl.
      set (rest := List.filter (fun n => negb (String.eqb (nt_id n) nid)) (notes s)).
      assert (List.filter (fun n => String.eqb (nt_project n) project) rest =
        List.filter (fun n => String.eqb (nt_project n) project && negb (String.eqb (nt_id n) nid)) (notes s))
        as ->.
      { subst rest. clear. induction (notes s) as [|n l IH]; simpl; [done|].
        destruct (negb (String.eqb (nt_id n) nid)) eqn:Hn; simpl; rewrite ?andb_true_r, ?andb_false_r;
          [destruct (String.eqb (nt_project n) project); simpl; by rewrite IH|done]. }
      destruct (String.eqb_spec (project_of value) project) as [Hpr|Hpr]; simpl.
      * destruct (note_by_id s nid) as [p|] eqn:Hp.
        -- apply note_by_id_spec in Hp as [Hin Hpid].
           unfold check_prior in Hprior. apply result_bind_ok in Hprior as (? & Hc & _).
           apply raise_if_ok, orb_false_iff in Hc as [Hc _]. apply negb_false_iff, String.eqb_eq in Hc.
           pose proof (filter_drop_one (notes s) nid p project Hids Hin Hpid) as Hd.
           rewrite Nat.add_1_r, Hd by congruence. apply Hcap.
        -- specialize (Hnew eq_refl). unfold project_count in Hnew. rewrite Hpr in Hnew. lia.
      * rewrite Nat.add_0_r. etransitivity; [|apply (Hcap project)].
        apply filter_length_mono. intros x _ [H _]%andb_true_iff. done.
  - unfold delete_note. destruct (note_by_id s id); [|by split]. destruct (readable e scope n); [|by split].
    split; simpl.
    + clear -Hids. induction (notes s) as [|m l IH]; simpl; [constructor|].
      simpl in Hids. apply NoDup_cons in Hids as [Hn Hids].
      destruct (negb _); simpl; [|by apply IH]. constructor; [|by apply IH].
      intros (k & Heq & Hk)%list_elem_of_fmap. apply list_elem_of_In, filter_In in Hk as [Hk _].
      apply Hn, list_elem_of_fmap. exists k. split; [done|by apply list_elem_of_In].
    + intros project. etransitivity; [|apply (Hcap project)].
      rewrite PacketProps.filter_filter_comm. apply filter_length_le.
Qed.
End NoteStore.
