(* ===== verification/Hints.v ===== *)
(** * Assembling hints (as1_packets.assemble_hints)

    The packets a caller names, in order, each with the dependency changes that make
    it stale, deduplicated by payload and kept while the byte budget lasts. *)

From Stdlib Require Import ZArith SpecFloat.
From stdpp Require Import pretty gmap fin_sets.
From S2P Require Import Prelude PyValue Text Stamps Json Masking Contracts HostCoordinator Packets Notes.
From S2P Require Import PacketProps.

#[local] Open Scope string_scope.
#[local] Open Scope Z_scope.
#[local] Open Scope list_scope.

(** ** Expectations *)

(** A set of values as a list without "==" duplicates. *)
Definition add_value (v : pyval) (l : list pyval) : list pyval :=
  if existsb (py_eqb v) l then l else l ++ [v].

(** "dict(freshness.get('dependencies', {}))". *)
Definition dependencies_of (freshness : pydict) : result pydict :=
  match dict_get_default "dependencies" (PDict []) freshness with
  | PDict d => Ok d
  | PList [] => Ok []
  | _ => Err (TypeError "cannot convert dependencies")
  end.

Definition source_key (s : source_locator) : string := "file:" +:+ sl_repository s +:+ "/" +:+ sl_path s.

Definition expectations (p : packet) (freshness : pydict) : result (list (string * list pyval)) :=
  deps ← dependencies_of freshness;
  _ ← raise_if (negb (forallb (fun kv => hashable kv.2) deps)) (TypeError "unhashable type");
  Ok (foldl (fun acc s =>
        dict_set (source_key s)
          (add_value (PStr (sl_sha256 s)) (default [] (dict_get (source_key s) acc))) acc)
      (map (fun kv => (kv.1, [kv.2])) deps) (mt_sources (pk_meta p))).

(** ** What is stale *)

Inductive change :=
  | Conflicting (key : string) (values : list string)
  | Unverified (key : string)
  | Changed (key : string)
  | ScopeMissing
  | VolatileExpired
  | ManifestMissing.

Definition dependency_change (current : string -> pyval) (kv : string * list pyval)
    : result (list change) :=
  match kv.2 with
  | [expected] =>
      let actual := current kv.1 in
      Ok (if py_eqb actual expected then []
          else [match actual with PNone => Unverified kv.1 | _ => Changed kv.1 end])
  | values => match all_strs values with
              | Some l => Ok [Conflicting kv.1 (merge_sort String.le l)]
              | None => Err (TypeError "'<' not supported")
              end
  end.

Definition discovery_key (k : string) : bool :=
  String.prefix "discovery:" k || String.prefix "directory_membership:" k || String.prefix "exports:" k.

(** "age > max_age", the age in microseconds and the bound in seconds. *)
Definition older_than (age : Z) (max_age : pyval) : result bool :=
  match max_age with
  | PFloat (S754_finite s m x) =>
      let v := (if s then Z.neg m else Z.pos m) * 1000000 in
      Ok (if 0 <=? x then v * 2 ^ x <? age else v <? age * 2 ^ (- x))
  | PFloat (S754_zero _) => Ok (0 <? age)
  | PFloat (S754_infinity s) => Ok s
  | PFloat S754_nan => Ok false
  | v => match as_int v with
         | Some n => Ok (n * 1000000 <? age)
         | None => Err (TypeError "'>' not supported")
         end
  end.

Section Hints.
Context (sha256 : string -> string) (float_repr : spec_float -> string) (e : penv).
Context (current : string -> pyval).

Definition changes_of (p : packet) : result (list change) :=
  let freshness := default [] (mt_freshness (pk_meta p)) in
  let volatile := truthy (get "volatile" freshness) in
  expected ← expectations p freshness;
  deps ← mapM_result (dependency_change current) expected;
  let scope := if truthy (get "negative" freshness) && negb (existsb (fun kv => discovery_key kv.1) expected)
               then [ScopeMissing] else [] in
  age ← (if volatile
         then match parse_stamp (mt_created_at (pk_meta p)) with
              | Some t => b ← older_than (pe_now e - t) (dict_get_default "max_age_seconds" (PInt 0) freshness);
                          Ok (if b : bool then [VolatileExpired] else [])
              | None => Err (ValueError "Invalid isoformat string")
              end
         else Ok []);
  Ok (concat deps ++ scope ++ age ++
      (if bool_decide (expected = []) && negb volatile then [ManifestMissing] else [])).

(** ** Selection under the budget *)

Inductive hint_omission :=
  | OmStatus (ref : string) (st : lookup_status)
  | OmStale (ref : string) (changes : list change)
  | OmProducer (ref : string) (detail : pyval)
  | OmDuplicate (ref : string)
  | OmBudget (ref : string) (needed : Z).

Record provenance_entry := {
  pv_reference : string;
  pv_packet_id : string;
  pv_sources : list pyval;
  pv_freshness : string
}.

Record hint := {
  hn_packet : packet;
  hn_freshness : string;
  hn_also_from : list provenance_entry
}.
Definition hn_sha (h : hint) : string := mt_sha256 (pk_meta (hn_packet h)).

Record hints := {
  hs_packets : list hint;
  hs_omissions : list hint_omission;
  hs_used : Z
}.

Definition no_hints : hints := {| hs_packets := []; hs_omissions := []; hs_used := 0 |}.

Definition omit (l : list hint_omission) (h : hints) : hints :=
  {| hs_packets := hs_packets h; hs_omissions := hs_omissions h ++ l; hs_used := hs_used h |}.

Definition provenance_wire (v : provenance_entry) : pyval :=
  PDict [("reference", PStr (pv_reference v)); ("packet_id", PStr (pv_packet_id v));
         ("sources", PList (pv_sources v)); ("freshness", PStr (pv_freshness v))].

Definition hint_wire (p : packet) (freshness : string) : pyval :=
  PDict [("packet", packet_wire p); ("freshness", PStr freshness)].

(** "seen[sha].setdefault('also_from', []).append(entry)". *)
Definition also_from (sha : string) (v : provenance_entry) (l : list hint) : list hint :=
  map (fun h => if String.eqb (hn_sha h) sha
                then {| hn_packet := hn_packet h; hn_freshness := hn_freshness h;
                        hn_also_from := hn_also_from h ++ [v] |}
                else h) l.

Definition add_hint (budget : Z) (s : store) (scope : pydict) (h : hints) (ref : string) : result hints :=
  st ← lookup sha256 float_repr e ref scope s;
  match st with
  | LookOk p =>
      changes ← changes_of p;
      let stale := match changes with [] => "current" | _ => "stale" end in
      let h := omit ((match changes with [] => [] | _ => [OmStale ref changes] end) ++
                     map (OmProducer ref) (default [] (mt_omissions (pk_meta p)))) h in
      if existsb (fun k => String.eqb (hn_sha k) (mt_sha256 (pk_meta p))) (hs_packets h)
      then
        let v := {| pv_reference := ref; pv_packet_id := mt_packet_id (pk_meta p);
                    pv_sources := map source_wire (mt_sources (pk_meta p)); pv_freshness := stale |} in
        size ← json_size float_repr (provenance_wire v);
        if hs_used h + size <=? budget
        then Ok {| hs_packets := also_from (mt_sha256 (pk_meta p)) v (hs_packets h);
                   hs_omissions := hs_omissions h ++ [OmDuplicate ref];
                   hs_used := hs_used h + size |}
        else Ok (omit [OmBudget ref size] h)
      else
        size ← json_size float_repr (hint_wire p stale);
        if budget <? hs_used h + size then Ok (omit [OmBudget ref size] h)
        else Ok {| hs_packets := hs_packets h ++ [{| hn_packet := p; hn_freshness := stale; hn_also_from := [] |}];
                   hs_omissions := hs_omissions h;
                   hs_used := hs_used h + size |}
  | st => Ok (omit [OmStatus ref st] h)
  end.

Definition assemble_hints (references : list string) (scope : pydict) (budget : Z) (s : store)
    : result hints :=
  foldM (add_hint budget s scope) no_hints (unique_first references).

(** ** Theorems *)

(** The size of a hint as it will be sent, its duplicates' provenance included. *)
Definition entry_size (v : provenance_entry) : Z :=
  match json_size float_repr (provenance_wire v) with Ok n => n | Err _ => 0 end.
Definition hint_size (h : hint) : Z :=
  match json_size float_repr (hint_wire (hn_packet h) (hn_freshness h)) with Ok n => n | Err _ => 0 end +
  sumZ entry_size (hn_also_from h).

Lemma json_size_nonneg v n : json_size float_repr v = Ok n -> 0 <= n.
Proof. unfold json_size. intros H. inv_res. lia. Qed.

Lemma also_from_size sha v l :
  NoDup (map hn_sha l) -> existsb (fun k => String.eqb (hn_sha k) sha) l = true ->
  sumZ hint_size (also_from sha v l) = sumZ hint_size l + entry_size v.
Proof.
  induction l as [|h l IH]; simpl; intros Hnd Hin; [done|]. apply NoDup_cons in Hnd as [Hn Hnd].
  destruct (String.eqb_spec (hn_sha h) sha) as [Heq|Hne]; simpl in Hin.
  - assert (also_from sha v l = l) as ->.
    { apply map_id_on. intros k Hk. destruct (String.eqb_spec (hn_sha k) sha) as [Hks|]; [|done].
      destruct Hn. apply list_elem_of_fmap. exists k. split; [congruence|done]. }
    unfold hint_size at 1 3. simpl. rewrite sumZ_app. simpl. lia.
  - rewrite IH by done. lia.
Qed.

Lemma also_from_sha sha v l : map hn_sha (also_from sha v l) = map hn_sha l.
Proof. unfold also_from. rewrite map_map. apply map_ext. intros h. by destruct (String.eqb _ _). Qed.

Record hints_ok (budget : Z) (h : hints) : Prop := {
  ho_distinct : NoDup (map hn_sha (hs_packets h));
  ho_used : hs_used h = sumZ hint_size (hs_packets h);
  ho_budget : hs_used h <= Z.max 0 budget
}.

Lemma add_hint_ok budget s scope h ref h' :
  hints_ok budget h -> add_hint budget s scope h ref = Ok h' -> hints_ok budget h'.
Proof.
  intros [H1 H2 H3] H. unfold add_hint in H. apply result_bind_ok in H as (st & _ & H).
  destruct st as [p| | |]; try (apply Ok_inj in H as <-; by split).
  apply result_bind_ok in H as (changes & _ & H). cbv zeta in H.
  destruct (existsb _ _) eqn:Hdup; apply result_bind_ok in H as (size & Hs & H); simpl in H.
  - destruct (Z.leb_spec (hs_used h + size) budget); apply Ok_inj in H as <-; [|by split].
    split; simpl; [by rewrite also_from_sha| |lia].
    rewrite also_from_size by done. unfold entry_size. rewrite Hs. lia.
  - destruct (Z.ltb_spec budget (hs_used h + size)); apply Ok_inj in H as <-; [by split|].
    split; simpl; [| |lia].
    + rewrite map_app. apply NoDup_snoc; [done|]. intros (k & Heq & Hk)%list_elem_of_fmap.
      rewrite existsb_false_forall in Hdup. specialize (Hdup k Hk).
      apply String.eqb_neq in Hdup. by symmetry in Heq.
    + rewrite sumZ_app. simpl. unfold hint_size at 2. simpl. rewrite Hs. simpl. lia.
Qed.

(** The hints use exactly the bytes they count and never more than the budget,
    and no two of them carry the same payload. *)
Theorem assemble_hints_budget references scope budget s h :
  assemble_hints references scope budget s = Ok h ->
  hs_used h = sumZ hint_size (hs_packets h) /\ hs_used h <= Z.max 0 budget /\
  NoDup (map hn_sha (hs_packets h)).
Proof.
  intros H. assert (hints_ok budget h) as [? ? ?]; [|done].
  eapply (foldM_invariant (hints_ok budget)); [| |exact H].
  - intros h1 ref h2 _. apply add_hint_ok.
  - split; simpl; [constructor|done|lia].
Qed.
End Hints.
