(* ===== verification/PacketWitness.v ===== *)
(** * The packet store at work

    A concrete store with a parent packet, a derived one that cites it and a pin; the
    theorems about packets, masking, notes and hints applied there. *)

From Stdlib Require Import ZArith SpecFloat.
From stdpp Require Import pretty gmap fin_sets relations.
From S2P Require Import Prelude PyValue Text Stamps Json Masking Contracts HostCoordinator.
From S2P Require Import Packets PacketProps Notes Hints.

#[local] Open Scope string_scope.
#[local] Open Scope Z_scope.
#[local] Open Scope list_scope.

(** ** The store *)

Definition hex64 (_ : string) : string := String.concat "" (repeat "0123abcd" 8).
Definition show_float (_ : spec_float) : string := "0.5".

Definition at_second (n : Z) (uuid alias : string) : penv :=
  {| pe_now := n * 1000000; pe_access := None; pe_recent_limit := 2; pe_max_payload := 100000;
     pe_uuid := fun _ => uuid; pe_alias := fun _ _ => alias |}.

Definition trusted : pydict := [("project", PStr "p")].

Definition record_of (note : string) (parents : list string) (ttl : option Z) : create_args :=
  {| ca_tool := "search"; ca_payload := [("text", PStr note)]; ca_access_scope := trusted;
     ca_sources := []; ca_parents := parents; ca_request := []; ca_audit_id := None;
     ca_freshness := None; ca_omissions := []; ca_ttl := ttl |}.

(** A parent that expires after ten seconds, a child that never does, and a third
    packet that expires and that nothing keeps. *)
Definition history : list (penv * packet_op) :=
  [(at_second 100 "parent01" "red-fox", OpCreate (record_of "hello" [] (Some 10000000)));
   (at_second 101 "child002" "blue-owl", OpCreate (record_of "world" ["pkt_parent01"] None));
   (at_second 102 "alone003" "grey-cat", OpCreate (record_of "alone" [] (Some 10000000)))].

Definition s_open : store := packet_steps hex64 show_float history empty_store.
Definition later : penv := at_second 500 "later004" "lone-elk".

Lemma reachable_steps l s :
  reachable_store hex64 show_float s -> reachable_store hex64 show_float (packet_steps hex64 show_float l s).
Proof.
  revert s. induction l as [|[e o] l IH]; intros s H; simpl; [done|]. apply IH. by constructor.
Qed.

Lemma reachable_open : reachable_store hex64 show_float s_open.
Proof. apply reachable_steps. constructor. Qed.

Lemma steps_ok l s : store_ok hex64 show_float s -> store_ok hex64 show_float (packet_steps hex64 show_float l s).
Proof. revert s. induction l as [|[e o] l IH]; intros s H; simpl; [done|]. by apply IH, packet_step_ok. Qed.

Lemma open_ok : store_ok hex64 show_float s_open.
Proof. apply steps_ok, empty_packets_ok. Qed.

Example open_packets : map pr_id (packets s_open) = ["pkt_parent01"; "pkt_child002"; "pkt_alone003"].
Proof. by vm_compute. Qed.

(** ** Liveness and collection *)

Lemma reachable_store_ok_witness :
  reachable_store hex64 show_float s_open /\ store_ok hex64 show_float s_open.
Proof. split; [apply reachable_open|]. apply reachable_store_ok, reachable_open. Defined.

Lemma gc_exact_witness :
  (gc later s_open).1 = ["pkt_alone003"] /\
  forall id, id ∈ (gc later s_open).1 <->
    exists r, r ∈ packets s_open /\ pr_id r = id /\ pr_expired r = false /\ id ∉ _live_ids later s_open.
Proof.
  split; [by vm_compute|]. apply (gc_exact hex64 show_float later s_open), open_ok.
Defined.

Lemma reference_never_rebound_witness :
  exists r r', row_by_reference s_open "red-fox" = Some r /\
    row_by_reference (packet_steps hex64 show_float [(later, OpGc); (later, OpUnpin "job")] s_open) "red-fox"
      = Some r' /\ pr_meta r' = pr_meta r.
Proof.
  destruct (row_by_reference s_open "red-fox") as [r|] eqn:Hr; [|vm_compute in Hr; discriminate].
  destruct (reference_never_rebound hex64 show_float "red-fox" r s_open [(later, OpGc); (later, OpUnpin "job")]
              open_ok Hr) as (r' & H & Hm & _).
  exists r, r'. split; [reflexivity|]. split; [exact H|exact Hm].
Defined.

Lemma lookup_sound_witness :
  exists p, lookup hex64 show_float later "pkt_parent01" trusted s_open = Ok (LookOk p) /\
    canonical_digest hex64 show_float (PDict (pk_payload p)) = Ok (mt_sha256 (pk_meta p)).
Proof.
  destruct (lookup hex64 show_float later "pkt_parent01" trusted s_open) as [[p| | |]|x] eqn:H;
    [|vm_compute in H; discriminate..].
  exists p. split; [done|].
  by destruct (lookup_sound _ _ _ _ _ _ _ open_ok H) as (r & _ & _ & _ & _ & _ & _ & Hd).
Defined.

(** ** Masking *)

Definition leaky : pyval := PDict [("query", PStr "x"); ("auth", PDict [("api_key", PStr "k1")])].

Lemma mask_payload_complete_witness : holds_private leaky /\ (mask_payload leaky "").2 <> [].
Proof.
  assert (holds_private leaky) as H.
  { apply hp_in_dict with "auth" (PDict [("api_key", PStr "k1")]); [right; by left|by vm_compute|].
    by apply hp_field with "api_key" (PStr "k1"); [left|vm_compute|]. }
  split; [done|]. by apply mask_payload_complete.
Defined.

(** ** Notes and hints *)

Definition goal_note : pyval :=
  PDict [("note_id", PStr "n1"); ("project", PStr "p"); ("kind", PStr "finding"); ("claim", PStr "it holds");
         ("reason_matters", PStr "because"); ("provenance", PStr "model");
         ("evidence_packets", PList [PStr "pkt_child002"])].

Lemma note_pins_evidence_witness :
  exists value s', _put_note show_float later goal_note trusted false s_open = (Ok value, s') /\
    (forall id, (note_owner "n1", id) ∈ pins s' <-> id ∈ ["pkt_child002"]).
Proof.
  assert (Hv : match (_put_note show_float later goal_note trusted false s_open).1 with
               | Ok v => note_id_of v = "n1" /\ note_refs v = ["pkt_child002"]
               | Err _ => False end) by (vm_compute; done).
  destruct (_put_note show_float later goal_note trusted false s_open) as [[value|x] s'] eqn:H; [|destruct Hv].
  exists value, s'. split; [reflexivity|]. destruct Hv as [Hid Hrefs].
  pose proof (note_pins_evidence hex64 show_float later goal_note trusted false s_open value s' H) as [Hpins _].
  by rewrite Hid, Hrefs in Hpins.
Defined.

Definition no_source (_ : string) : pyval := PNone.

Lemma assemble_hints_budget_witness :
  exists h, assemble_hints hex64 show_float later no_source ["red-fox"; "blue-owl"] trusted 2000 s_open = Ok h /\
    hs_used h <= Z.max 0 2000 /\ NoDup (map hn_sha (hs_packets h)).
Proof.
  destruct (assemble_hints hex64 show_float later no_source ["red-fox"; "blue-owl"] trusted 2000 s_open)
    as [h|x] eqn:H; [|vm_compute in H; discriminate].
  exists h. split; [reflexivity|].
  exact (proj2 (assemble_hints_budget hex64 show_float later no_source ["red-fox"; "blue-owl"] trusted 2000 s_open h H)).
Defined.
