(* ===== verification/Metadata.v ===== *)
(** * Project metadata: the append-only amendment store (project_metadata.py)

    [ProjectMetadataStore] keeps, per project, a revision counter, versioned
    declarations, the operations already applied (for replay), reviewed previews and
    the invalidations each revision caused.  [amend] is one transaction.  The
    TEXT columns that hold JSON are the values that JSON denotes; the repr of
    floats, the hash function and the callback that checks sources are parameters. *)

From Stdlib Require Import ZArith SpecFloat.
From S2P Require Import Prelude PyValue Json.

#[local] Open Scope string_scope.
#[local] Open Scope Z_scope.
#[local] Open Scope list_scope.

Module Metadata.

(** ** Requests *)

Inductive action :=
  | register_identity | register_relation | register_generation | configure_provider
  | remove_registration | record_skill_use | update_orientation.

#[export] Instance action_eq_dec : EqDecision action.
Proof. solve_decision. Defined.

Definition action_name (a : action) : string :=
  match a with
  | register_identity => "register_identity"
  | register_relation => "register_relation"
  | register_generation => "register_generation"
  | configure_provider => "configure_provider"
  | remove_registration => "remove_registration"
  | record_skill_use => "record_skill_use"
  | update_orientation => "update_orientation"
  end.

Definition ACTIONS (a : action) : option string :=
  match a with
  | register_identity => Some "identity"
  | register_relation => Some "relation"
  | register_generation => Some "generation"
  | configure_provider => Some "provider"
  | remove_registration => None
  | record_skill_use => Some "skill_use"
  | update_orientation => Some "orientation"
  end.

(** A validated ProjectAmendment, as "model_dump(exclude_none=True)" gives it. *)
Record amendment := {
  am_project : string;
  am_action : action;
  am_intent : string;
  am_expected : Z;
  am_operation : string;
  am_payload : pydict;
  am_mode : option string
}.

(** The items of [value] other than "mode" and "expected_revision". *)
Definition hashed_fields (r : amendment) : pydict :=
  [("format", PStr "pc-project-amendment/1"); ("project", PStr r.(am_project));
   ("action", PStr (action_name r.(am_action))); ("intent", PStr r.(am_intent));
   ("operation_id", PStr r.(am_operation)); ("payload", PDict r.(am_payload))].

Definition request_value (r : amendment) : pydict :=
  hashed_fields r ++ [("expected_revision", PInt r.(am_expected))]
  ++ match r.(am_mode) with Some m => [("mode", PStr m)] | None => [] end.

(** "payload.get("kind") if action == "remove_registration" else ACTIONS[action]":
    a value that is not a string names no registration. *)
Definition kind_of (a : action) (payload : pydict) : option string :=
  match a with
  | remove_registration => dict_get "kind" payload ≫= as_str
  | _ => ACTIONS a
  end.

(** ** Tables *)

Record project_row := { pj_project : string; pj_scope : string; pj_revision : Z }.

Record declaration := {
  d_project : string;
  d_kind : string;
  d_id : string;
  d_version : Z;
  d_payload : pydict;
  d_retired : bool;
  d_origin : string;
  d_created : Z;
  d_revision : Z
}.

Record operation_row := {
  o_project : string;
  o_operation : string;
  o_hash : string;
  o_request : pydict;
  o_receipt : pydict;
  o_created : Z
}.

Record preview_row := {
  v_project : string;
  v_operation : string;
  v_hash : string;
  v_expected : Z;
  v_review : pydict;
  v_created : Z
}.

Record invalidation_row := {
  i_project : string;
  i_revision : Z;
  i_kind : string;
  i_entity : string;
  i_action : string;
  i_created : Z
}.

Record store := {
  projects : list project_row;
  declarations : list declaration;
  operations : list operation_row;
  previews : list preview_row;
  invalidations : list invalidation_row
}.

Definition empty_store : store := Build_store [] [] [] [] [].

(** ** Reads *)

Definition project_of (db : store) (project : string) : option project_row :=
  List.find (fun p => String.eqb p.(pj_project) project) db.(projects).

Definition revision_of (db : store) (project : string) : Z :=
  match project_of db project with Some p => p.(pj_revision) | None => 0 end.

Definition prior_operation (db : store) (project op : string) : option operation_row :=
  List.find (fun o => String.eqb o.(o_project) project && String.eqb o.(o_operation) op) db.(operations).

Definition prior_preview (db : store) (project op : string) : option preview_row :=
  List.find (fun v => String.eqb v.(v_project) project && String.eqb v.(v_operation) op) db.(previews).

Definition same_key (a b : declaration) : bool :=
  String.eqb a.(d_project) b.(d_project) && String.eqb a.(d_kind) b.(d_kind)
  && String.eqb a.(d_id) b.(d_id).

(** "version=(SELECT MAX(x.version) ...)". *)
Definition is_latest (db : store) (d : declaration) : bool :=
  forallb (fun x => negb (same_key x d) || (x.(d_version) <=? d.(d_version))) db.(declarations).

(** "ORDER BY d.kind,d.id". *)
Definition key_le (a b : declaration) : Prop :=
  a.(d_kind) <> b.(d_kind) /\ String.le a.(d_kind) b.(d_kind)
  \/ a.(d_kind) = b.(d_kind) /\ String.le a.(d_id) b.(d_id).
#[export] Instance key_le_dec : RelDecision key_le.
Proof. intros a b. unfold key_le. apply _. Defined.

Definition _latest (db : store) (project : string) : list declaration :=
  merge_sort key_le
    (List.filter (fun d => String.eqb d.(d_project) project && is_latest db d) db.(declarations)).

Definition by_key (rows : list declaration) (kind id : string) : option declaration :=
  List.find (fun d => String.eqb d.(d_kind) kind && String.eqb d.(d_id) id) rows.

(** What [read_context] returns; the declarations keep their columns. *)
Record context := {
  c_revision : Z;
  c_all : list declaration;
  c_declarations : list declaration;
  c_orientation : list declaration;
  c_skill_uses : list declaration;
  c_registrations : list declaration;
  c_invalidations : list invalidation_row;
  c_scope_matches : bool
}.

(** "ORDER BY revision,kind,entity_id". *)
Definition invalidation_le (a b : invalidation_row) : Prop :=
  a.(i_revision) < b.(i_revision)
  \/ a.(i_revision) = b.(i_revision)
     /\ (a.(i_kind) <> b.(i_kind) /\ String.le a.(i_kind) b.(i_kind)
         \/ a.(i_kind) = b.(i_kind) /\ String.le a.(i_entity) b.(i_entity)).
#[export] Instance invalidation_le_dec : RelDecision invalidation_le.
Proof. intros a b. unfold invalidation_le. apply _. Defined.

(** [created]: the database file exists; before, every table is absent. *)
Definition read_context (created : bool) (db : store) (project scope : string) : context :=
  if negb created then Build_context 0 [] [] [] [] [] [] true
  else
    let rows := _latest db project in
    let active := List.filter (fun d => negb d.(d_retired)) rows in
    {| c_revision := revision_of db project;
       c_all := rows;
       c_declarations := List.filter (fun d => negb (bool_decide (d.(d_kind) ∈ ["orientation"; "skill_use"]))) active;
       c_orientation := List.filter (fun d => String.eqb d.(d_kind) "orientation") active;
       c_skill_uses := List.filter (fun d => String.eqb d.(d_kind) "skill_use") active;
       c_registrations := List.filter (fun d => d.(d_retired) || negb (String.eqb d.(d_kind) "orientation")) rows;
       c_invalidations := merge_sort invalidation_le
         (List.filter (fun i => String.eqb i.(i_project) project) db.(invalidations));
       c_scope_matches := match project_of db project with
                          | None => true
                          | Some p => String.eqb p.(pj_scope) scope
                          end |}.

(** ** Writes: each INSERT checks its primary key *)

(** "INSERT ... ON CONFLICT(project) DO UPDATE". *)
Fixpoint upsert_project (p : project_row) (l : list project_row) : list project_row :=
  match l with
  | [] => [p]
  | q :: l => if String.eqb q.(pj_project) p.(pj_project) then p :: l else q :: upsert_project p l
  end.

Definition set_scope (project scope : string) (l : list project_row) : list project_row :=
  map (fun q => if String.eqb q.(pj_project) project
                then Build_project_row q.(pj_project) scope q.(pj_revision) else q) l.

Definition insert_declaration (d : declaration) (db : store) : result store :=
  _ ← raise_if (existsb (fun x => same_key x d && (x.(d_version) =? d.(d_version))) db.(declarations))
        IntegrityError;
  Ok (Build_store db.(projects) (db.(declarations) ++ [d]) db.(operations) db.(previews) db.(invalidations)).

Definition insert_operation (o : operation_row) (db : store) : result store :=
  _ ← raise_if (bool_decide (is_Some (prior_operation db o.(o_project) o.(o_operation)))) IntegrityError;
  Ok (Build_store db.(projects) db.(declarations) (db.(operations) ++ [o]) db.(previews) db.(invalidations)).

Definition insert_preview (v : preview_row) (db : store) : result store :=
  _ ← raise_if (bool_decide (is_Some (prior_preview db v.(v_project) v.(v_operation)))) IntegrityError;
  Ok (Build_store db.(projects) db.(declarations) db.(operations) (db.(previews) ++ [v]) db.(invalidations)).

(** "INSERT OR IGNORE INTO metadata_invalidations". *)
Definition insert_invalidation (db : store) (i : invalidation_row) : store :=
  if existsb (fun j => String.eqb j.(i_project) i.(i_project) && (j.(i_revision) =? i.(i_revision))
                       && String.eqb j.(i_kind) i.(i_kind) && String.eqb j.(i_entity) i.(i_entity))
       db.(invalidations)
  then db
  else Build_store db.(projects) db.(declarations) db.(operations) db.(previews)
         (db.(invalidations) ++ [i]).

(** ** The review of an amendment *)

(** "item.get(key, [])", iterated. *)
Definition items_at (key : string) (item : pydict) : result (list pyval) :=
  py_iter (dict_get_default key (PList []) item).

(** "for group in item.get("field_anchors", {}).values() for anchor in group". *)
Definition field_anchor_items (item : pydict) : result (list pyval) :=
  match dict_get_default "field_anchors" (PDict []) item with
  | PDict groups => ls ← mapM_result (fun kv => py_iter kv.2) groups; Ok (concat ls)
  | _ => Err (AttributeError "values")
  end.

Definition locator_path (locator : pyval) : option string :=
  match locator with PDict d => dict_get "path" d ≫= as_str | _ => None end.

Definition locator_paths (item : pydict) : result (list string) :=
  anchors ← items_at "anchors" item;
  inputs ← items_at "inputs" item;
  grouped ← field_anchor_items item;
  Ok (omap locator_path (anchors ++ inputs ++ grouped)).

(** "[{kind, entity_id} for identity in sorted(entities) for kind in (...)]". *)
Definition invalidation_pairs (entities : list string) : list (string * string) :=
  concat (map (fun identity => map (fun kind => (kind, identity)) ["graph"; "search"; "orientation"])
            (sorted_set entities)).

Definition pair_json (p : string * string) : pyval :=
  PDict [("kind", PStr p.1); ("entity_id", PStr p.2)].

Definition affected_json (d : declaration) : pyval :=
  PDict [("kind", PStr d.(d_kind)); ("id", PStr d.(d_id)); ("version", PInt d.(d_version))].

(** "content[key].get("kind") == kind and ... for key in ("source", "target")". *)
Definition endpoint_matches (identities : list string) (kind id : string) (current content : pydict)
    (key : string) : bool :=
  match dict_get key content with
  | Some (PDict ref) =>
      py_eqb (dict_get_default "kind" PNone ref) (PStr kind)
      && py_eqb (dict_get_default "id" PNone ref) (PStr id)
      && match dict_get "project_uuid" ref with
         | Some (PStr uuid) => bool_decide (uuid ∈ identities)
         | _ => false
         end
      && match dict_get_default "repository" PNone current with
         | PNone => true
         | repository => py_eqb (dict_get_default "repository" PNone ref) repository
         end
  | _ => false
  end.

Definition is_related (identities : list string) (kind id : string) (current : declaration)
    (row : declaration) : bool :=
  negb row.(d_retired) && String.eqb row.(d_kind) "relation"
  && existsb (endpoint_matches identities kind id current.(d_payload) row.(d_payload)) ["source"; "target"].

(** "payload["id"]"; the caller has checked that it is a string. *)
Definition payload_id (payload : pydict) : result string :=
  match dict_get "id" payload with
  | Some (PStr s) => Ok s
  | Some _ => Err (TypeError "id")
  | None => Err (KeyError "id")
  end.

Section WithHost.
Context (float_repr : spec_float -> string) (sha256 : string -> string).

Definition _encode (v : pyval) : result string := json_dumps float_repr v.

Definition _digest (v : pyval) : result string := t ← _encode v; Ok (sha256 t).

(** The rows a removal retires: the registration, then the live relations that name it. *)
Definition removal_rows (latest : list declaration) (identities : list string) (kind : option string)
    (id : string) (payload : pydict) : result (list declaration) :=
  match kind ≫= (fun k => c ← by_key latest k id; Some (k, c)) with
  | None => Err (ValueError "registration_stale")
  | Some (k, current) =>
      _ ← raise_if current.(d_retired) (ValueError "registration_stale");
      match dict_get "version" payload with
      | None => Err (KeyError "version")
      | Some v =>
          _ ← raise_if (negb (eq_int v current.(d_version))) (ValueError "registration_stale");
          Ok (current :: List.filter (is_related identities k id current) latest)
      end
  end.

Record review := {
  r_rows : list declaration;      (* affected_rows *)
  r_noop : bool;
  r_pairs : list (string * string);  (* invalidations *)
  r_value : pydict                (* the review dict *)
}.

Definition current_of (latest : list declaration) (kind : option string) (id : string) : option declaration :=
  kind ≫= fun k => by_key latest k id.

Definition affected_rows (db : store) (r : amendment) (identities : list string) (id : string) :
    result (list declaration) :=
  let latest := _latest db r.(am_project) in
  let kind := kind_of r.(am_action) r.(am_payload) in
  match r.(am_action) with
  | remove_registration => removal_rows latest identities kind id r.(am_payload)
  | _ => Ok (option_list (current_of latest kind id))
  end.

Definition is_noop (db : store) (r : amendment) (id : string) : bool :=
  negb (bool_decide (r.(am_action) = remove_registration)) &&
  match current_of (_latest db r.(am_project)) (kind_of r.(am_action) r.(am_payload)) id with
  | Some c => negb c.(d_retired) && String.eqb c.(d_origin) "project_declared"
              && py_eqb (PDict c.(d_payload)) (PDict r.(am_payload))
  | None => false
  end.

(** From [validate_sources] to [review_digest]. *)
Definition review_of (db : store) (r : amendment) (identities : list string)
    (validate_sources : pydict -> result (list pydict)) (trust_digest : string) : result review :=
  sources ← validate_sources r.(am_payload);
  id ← payload_id r.(am_payload);
  rows ← affected_rows db r identities id;
  paths ← mapM_result locator_paths (r.(am_payload) :: map d_payload rows);
  let noop := is_noop db r id in
  let pairs := if noop then [] else invalidation_pairs (id :: concat paths) in
  let affected := PList (map affected_json rows) in
  let sources := PList (map PDict sources) in
  let invalidations := PList (map pair_json pairs) in
  digest ← _digest (PDict [("affected", affected); ("sources", sources);
                           ("trust_digest", PStr trust_digest); ("payload", PDict r.(am_payload));
                           ("invalidations", invalidations)]);
  Ok {| r_rows := rows; r_noop := noop; r_pairs := pairs;
        r_value := [("review_digest", PStr digest); ("affected", affected); ("sources", sources);
                    ("invalidations", invalidations); ("trust_digest", PStr trust_digest)] |}.

(** ** The amendment *)

(** The row a target gets: retired with the content it had, or the new payload. *)
Definition new_declaration (r : amendment) (latest : list declaration) (now next : Z)
    (kind id : string) : declaration :=
  let previous := by_key latest kind id in
  let retired := bool_decide (r.(am_action) = remove_registration) in
  {| d_project := r.(am_project); d_kind := kind; d_id := id;
     d_version := match previous with Some p => p.(d_version) + 1 | None => 1 end;
     d_payload := match previous with
                  | Some p => if retired then p.(d_payload) else r.(am_payload)
                  | None => r.(am_payload)
                  end;
     d_retired := retired; d_origin := "project_declared"; d_created := now; d_revision := next |}.

Definition targets (r : amendment) (kind : option string) (id : string) (rows : list declaration) :
    list (string * string) :=
  match r.(am_action) with
  | remove_registration => map (fun d => (d.(d_kind), d.(d_id))) rows
  | _ => map (fun k => (k, id)) (option_list kind)
  end.

Definition change_json (r : amendment) (kind : option string) (id : string) : pyval :=
  PDict [("action", PStr (action_name r.(am_action)));
         ("kind", match kind with Some k => PStr k | None => PNone end); ("id", PStr id)].

Definition affected_value (rv : review) : pyval := PList (map affected_json rv.(r_rows)).

(** "INSERT INTO metadata_operations", then commit. *)
Definition record_operation (r : amendment) (hash : string) (receipt : pydict) (now : Z) (db : store) :
    result store :=
  _ ← _encode (PDict (request_value r));
  _ ← _encode (PDict receipt);
  insert_operation {| o_project := r.(am_project); o_operation := r.(am_operation); o_hash := hash;
                      o_request := request_value r; o_receipt := receipt; o_created := now |} db.

Definition noop_receipt (r : amendment) (rv : review) (revision : Z) : pydict :=
  [("status", PStr "noop"); ("operation_id", PStr r.(am_operation)); ("revision", PInt revision);
   ("affected", affected_value rv); ("invalidations", PList [])].

Definition apply_noop (db : store) (r : amendment) (hash scope : string) (rv : review) (now : Z) :
    result (pydict * store) :=
  let receipt := noop_receipt r rv (revision_of db r.(am_project)) in
  let db := Build_store (set_scope r.(am_project) scope db.(projects)) db.(declarations) db.(operations)
              db.(previews) db.(invalidations) in
  db ← record_operation r hash receipt now db;
  Ok (receipt ++ [("receipt", PDict receipt)], db).

Definition applied_receipt (r : amendment) (kind : option string) (id : string) (rv : review) (next : Z) :
    pydict :=
  [("status", PStr "applied"); ("operation_id", PStr r.(am_operation)); ("revision", PInt next);
   ("affected", affected_value rv); ("changes", PList [change_json r kind id]);
   ("invalidations", PList (map pair_json rv.(r_pairs)))].

Definition apply_changes (db : store) (r : amendment) (hash scope : string) (id : string) (rv : review)
    (now : Z) : result (pydict * store) :=
  let latest := _latest db r.(am_project) in
  let kind := kind_of r.(am_action) r.(am_payload) in
  let next := revision_of db r.(am_project) + 1 in
  let db := Build_store (upsert_project (Build_project_row r.(am_project) scope next) db.(projects))
              db.(declarations) db.(operations) db.(previews) db.(invalidations) in
  db ← foldM (fun db t => insert_declaration (new_declaration r latest now next t.1 t.2) db) db
         (targets r kind id rv.(r_rows));
  let db := foldl (fun db p => insert_invalidation db
              {| i_project := r.(am_project); i_revision := next; i_kind := p.1; i_entity := p.2;
                 i_action := action_name r.(am_action); i_created := now |}) db rv.(r_pairs) in
  let receipt := applied_receipt r kind id rv next in
  db ← record_operation r hash receipt now db;
  Ok (receipt ++ [("receipt", PDict receipt)], db).

Definition preview (db : store) (r : amendment) (hash : string) (id : string) (rv : review) (now : Z) :
    result (pydict * store) :=
  let prior := prior_preview db r.(am_project) r.(am_operation) in
  _ ← raise_if (match prior with
                | Some v => negb (py_eqb (PDict v.(v_review)) (PDict rv.(r_value)))
                | None => false
                end) (ValueError "project_metadata_review_stale");
  db' ← match prior with
        | Some _ => Ok db
        | None =>
            _ ← _encode (PDict rv.(r_value));
            insert_preview {| v_project := r.(am_project); v_operation := r.(am_operation);
                              v_hash := hash; v_expected := revision_of db r.(am_project);
                              v_review := rv.(r_value); v_created := now |} db
        end;
  Ok ([("status", PStr "preview"); ("operation_id", PStr r.(am_operation));
       ("expected_revision", PInt (revision_of db r.(am_project)))] ++ rv.(r_value)
      ++ [("changes", PList (if rv.(r_noop) then []
                             else [change_json r (kind_of r.(am_action) r.(am_payload)) id]))], db').

(** The answer to an operation already recorded. *)
Definition replay (o : operation_row) (r : amendment) (hash : string) : result pydict :=
  _ ← raise_if (negb (String.eqb o.(o_hash) hash)) (ValueError "operation_id_conflict");
  _ ← raise_if (negb (eq_int (dict_get_default "expected_revision" PNone o.(o_request)) r.(am_expected)))
        (ValueError "project_metadata_revision_stale");
  let status := dict_get_default "status" PNone o.(o_receipt) in
  Ok (dict_set "receipt" (PDict o.(o_receipt))
       (dict_set "status" (if py_eqb status (PStr "applied") then PStr "replayed" else status)
          o.(o_receipt))).

(** A stored preview binds the request and the revision it was made at. *)
Definition check_preview (v : option preview_row) (r : amendment) (hash : string) : result unit :=
  match v with
  | None => Ok tt
  | Some v =>
      _ ← raise_if (negb (String.eqb v.(v_hash) hash)) (ValueError "operation_id_conflict");
      raise_if (negb (v.(v_expected) =? r.(am_expected))) (ValueError "project_metadata_revision_stale")
  end.

Definition mode_is_preview (r : amendment) : bool := bool_decide (r.(am_mode) = Some "preview").

(** The body of [amend] after "BEGIN IMMEDIATE". *)
Definition transact (db : store) (r : amendment) (hash trust scope : string)
    (validate_sources : pydict -> result (list pydict)) (identities : list string) (now : Z) :
    result (pydict * store) :=
  match prior_operation db r.(am_project) r.(am_operation) with
  | Some o => answer ← replay o r hash; Ok (answer, db)
  | None =>
      let prior := prior_preview db r.(am_project) r.(am_operation) in
      _ ← check_preview prior r hash;
      _ ← raise_if (negb (revision_of db r.(am_project) =? r.(am_expected)))
            (ValueError "project_metadata_revision_stale");
      rv ← review_of db r identities validate_sources trust;
      id ← payload_id r.(am_payload);
      if mode_is_preview r then preview db r hash id rv now
      else
        _ ← raise_if (match prior with
                      | Some v => negb (py_eqb (PDict v.(v_review)) (PDict rv.(r_value)))
                      | None => false
                      end) (ValueError "project_metadata_review_stale");
        if rv.(r_noop) then apply_noop db r hash scope rv now
        else apply_changes db r hash scope id rv now
  end.

(** [amend]: the hashes are computed first; an exception rolls the transaction back. *)
Definition amend (db : store) (r : amendment) (scope : string)
    (validate_sources : pydict -> result (list pydict)) (provider_allowlist : pydict)
    (identities : list string) (now : Z) : result pydict * store :=
  match (_ ← _encode (PDict r.(am_payload));
         hash ← _digest (PDict (hashed_fields r));
         trust ← _digest (PDict (if bool_decide (r.(am_action) = configure_provider)
                                 then provider_allowlist else []));
         transact db r hash trust scope validate_sources identities now) with
  | Ok (answer, db') => (Ok answer, db')
  | Err e => (Err e, db)
  end.

End WithHost.

End Metadata.
