(* ===== verification/MetadataProps.v ===== *)
(** * Project metadata: theorems on the amendment store

    The store invariant over every sequence of amendments, compare-and-swap of the
    revision, the append-only log, replay of a recorded operation, agreement of an
    applied amendment with its preview, and the effect of each amendment on what
    [read_context] shows. *)

From Stdlib Require Import ZArith SpecFloat.
From S2P Require Import Prelude PyValue Json Metadata.
Import Metadata.

#[local] Open Scope string_scope.
#[local] Open Scope Z_scope.
#[local] Open Scope list_scope.

(** ** Keys *)

Definition decl_pk (d : declaration) : string * string * string * Z :=
  (d.(d_project), d.(d_kind), d.(d_id), d.(d_version)).
Definition decl_key (d : declaration) : string * string * string :=
  (d.(d_project), d.(d_kind), d.(d_id)).
Definition op_pk (o : operation_row) : string * string := (o.(o_project), o.(o_operation)).
Definition preview_pk (v : preview_row) : string * string := (v.(v_project), v.(v_operation)).

Lemma same_key_true a b : same_key a b = true <-> decl_key a = decl_key b.
Proof.
  unfold same_key, decl_key. rewrite !andb_true_iff, !String.eqb_eq.
  split; [intros [[-> ->] ->]; done|intros [=]; done].
Qed.

(** ** The latest version of a declaration *)

Lemma elem_of_latest db project d :
  d ∈ _latest db project <->
  d ∈ db.(declarations) /\ d.(d_project) = project /\
  (forall x, x ∈ db.(declarations) -> decl_key x = decl_key d -> x.(d_version) <= d.(d_version)).
Proof.
  unfold _latest. rewrite merge_sort_Permutation, elem_of_list_filter, andb_true_iff, String.eqb_eq.
  unfold is_latest. rewrite forallb_forall. split.
  - intros (Hd & Hp & Hl). split; [done|]. split; [done|]. intros x Hx%list_elem_of_In Hk.
    apply Hl in Hx. apply orb_true_iff in Hx as [Hx|Hx%Z.leb_le]; [|done].
    apply same_key_true in Hk. by rewrite Hk in Hx.
  - intros (Hd & Hp & Hl). split; [done|]. split; [done|]. intros x Hx.
    destruct (same_key x d) eqn:E; [|done]. apply Z.leb_le. apply Hl.
    { by apply list_elem_of_In. } by apply same_key_true.
Qed.

Lemma by_key_some db project kind id d :
  by_key (_latest db project) kind id = Some d ->
  d ∈ db.(declarations) /\ decl_key d = (project, kind, id) /\
  (forall x, x ∈ db.(declarations) -> decl_key x = (project, kind, id) -> x.(d_version) <= d.(d_version)).
Proof.
  intros [Hd Hk]%find_some_elem. apply andb_true_iff in Hk as [Hk%String.eqb_eq Hi%String.eqb_eq].
  apply elem_of_latest in Hd as (Hd & Hp & Hl).
  assert (decl_key d = (project, kind, id)) as E by (unfold decl_key; congruence).
  split; [done|]. split; [done|]. intros x Hx Hxk. apply Hl; [done|]. congruence.
Qed.

(** A list with an element satisfying [P] has one of greatest [f]. *)
Lemma exists_max {A} (f : A -> Z) (P : A -> Prop) `{forall y, Decision (P y)} (l : list A) x :
  x ∈ l -> P x -> exists y, y ∈ l /\ P y /\ forall z, z ∈ l -> P z -> f z <= f y.
Proof.
  revert x. induction l as [|a l IH]; intros x Hx HP; [by apply elem_of_nil in Hx|].
  destruct (decide (Exists P l)) as [(b & Hb & HPb)%Exists_exists|Hn].
  - destruct (IH b Hb HPb) as (y & Hy & HPy & Hm).
    destruct (decide (P a /\ f y < f a)) as [[Ha Hlt]|Hna].
    + exists a. split; [left|]. split; [done|]. intros z [->|Hz]%elem_of_cons HPz; [lia|].
      specialize (Hm z Hz HPz). lia.
    + exists y. split; [by right|]. split; [done|]. intros z [->|Hz]%elem_of_cons HPz; [|auto].
      destruct (Z_lt_dec (f y) (f a)); [tauto|lia].
  - assert (forall y, y ∈ l -> ~ P y) as Hf by (intros y Hy HPy; apply Hn, Exists_exists; eauto).
    apply elem_of_cons in Hx as [->|Hx]; [|by destruct (Hf x)].
    exists a. split; [left|]. split; [done|]. intros z [->|Hz]%elem_of_cons HPz; [lia|by destruct (Hf z)].
Qed.

Lemma by_key_none db project kind id :
  by_key (_latest db project) kind id = None ->
  forall x, x ∈ db.(declarations) -> decl_key x <> (project, kind, id).
Proof.
  intros H x Hx Hk.
  destruct (exists_max d_version (fun y => decl_key y = (project, kind, id))
              db.(declarations) x Hx Hk) as (y & Hy & HPy & Hm).
  assert (y ∈ _latest db project) as HL.
  { apply elem_of_latest. split; [done|]. split; [by injection HPy|]. intros z Hz Hzk.
    apply Hm; [done|]. congruence. }
  unfold by_key in H. rewrite find_none_forall in H. specialize (H y HL). simpl in H.
  injection HPy as E1 E2 E3. rewrite E2, E3, !String.eqb_refl in H. done.
Qed.

(** With unique primary keys, the greatest version identifies the row. *)
Lemma by_key_intro db d :
  NoDup (map decl_pk db.(declarations)) -> d ∈ db.(declarations) ->
  (forall x, x ∈ db.(declarations) -> decl_key x = decl_key d -> x.(d_version) <= d.(d_version)) ->
  by_key (_latest db d.(d_project)) d.(d_kind) d.(d_id) = Some d.
Proof.
  intros Hnd Hd Hm. destruct (by_key _ _ _) as [e|] eqn:E.
  - apply by_key_some in E as (He & Hk & Hme). f_equal.
    assert (d_version e = d_version d) as Hv.
    { apply Z.le_antisymm; [apply Hm|apply Hme]; done. }
    assert (decl_pk e = decl_pk d) as Hpk by (unfold decl_pk, decl_key in *; congruence).
    apply list_elem_of_lookup in He as [i Hi]. apply list_elem_of_lookup in Hd as [j Hj].
    assert (i = j) as ->.
    { eapply (NoDup_lookup (map decl_pk db.(declarations))); [done| |].
      - rewrite list_lookup_fmap, Hi. done.
      - rewrite list_lookup_fmap, Hj. simpl. by rewrite Hpk. }
    congruence.
  - by destruct (by_key_none _ _ _ _ E d Hd).
Qed.

(** ** What a successful transaction did *)

Section Shapes.
Context (float_repr : spec_float -> string) (sha256 : string -> string).

Lemma insert_declarations_shape (f : string * string -> declaration) ts db db' :
  foldM (fun db t => insert_declaration (f t) db) db ts = Ok db' ->
  db'.(projects) = db.(projects) /\ db'.(operations) = db.(operations) /\
  db'.(previews) = db.(previews) /\ db'.(invalidations) = db.(invalidations) /\
  db'.(declarations) = db.(declarations) ++ map f ts /\
  (NoDup (map decl_pk db.(declarations)) -> NoDup (map decl_pk db'.(declarations))).
Proof.
  revert db. induction ts as [|t ts IH]; intros db H; simpl in H.
  { inv_res. by rewrite app_nil_r. }
  apply result_bind_ok in H as (db1 & H1 & H). unfold insert_declaration in H1. inv_res.
  apply IH in H as (-> & -> & -> & -> & Hd & Hn); simpl in *.
  rewrite existsb_false_forall in Ha. do 4 (split; [done|]). split.
  - rewrite Hd. by rewrite <-app_assoc.
  - intros Hnd. apply Hn. rewrite map_app. apply NoDup_snoc; [done|].
    intros (x & Hpk & Hx)%list_elem_of_fmap. specialize (Ha x Hx).
    unfold decl_pk in Hpk. injection Hpk as E1 E2 E3 E4.
    apply andb_false_iff in Ha as [Ha|Ha].
    + by rewrite (proj2 (same_key_true x (f t))) in Ha by (unfold decl_key; congruence).
    + rewrite E4, Z.eqb_refl in Ha. done.
Qed.

Lemma insert_invalidations_shape (f : string * string -> invalidation_row) ps db :
  let db' := foldl (fun db p => insert_invalidation db (f p)) db ps in
  db'.(projects) = db.(projects) /\ db'.(operations) = db.(operations) /\
  db'.(previews) = db.(previews) /\ db'.(declarations) = db.(declarations) /\
  exists more, db'.(invalidations) = db.(invalidations) ++ more /\
    forall i, i ∈ more -> exists p, p ∈ ps /\ i = f p.
Proof.
  revert db. induction ps as [|p ps IH]; intros db; simpl.
  { do 4 (split; [done|]). exists []. rewrite app_nil_r. split; [done|].
    intros i Hi. by apply elem_of_nil in Hi. }
  destruct (IH (insert_invalidation db (f p))) as (-> & -> & -> & -> & more & -> & Hm).
  unfold insert_invalidation. destruct (existsb _ _); simpl; do 4 (split; [done|]).
  - exists more. split; [done|]. intros i (q & Hq & ->)%Hm. exists q. split; [by right|done].
  - exists (f p :: more). rewrite <-app_assoc. split; [done|].
    intros i [->|(q & Hq & ->)%Hm]%elem_of_cons; [exists p; split; [left|done]|].
    exists q. split; [by right|done].
Qed.

Lemma record_operation_shape r hash receipt now db db' :
  record_operation float_repr r hash receipt now db = Ok db' ->
  prior_operation db r.(am_project) r.(am_operation) = None /\
  db' = Build_store db.(projects) db.(declarations)
          (db.(operations) ++ [Build_operation_row r.(am_project) r.(am_operation) hash
                                 (request_value r) receipt now])
          db.(previews) db.(invalidations).
Proof.
  unfold record_operation, insert_operation. intros H. inv_res. split; [|done].
  simpl in Ha1. apply bool_decide_eq_false in Ha1. by apply eq_None_not_Some.
Qed.

(** What [apply_changes] writes. *)
Lemma apply_changes_shape db r hash scope id rv now answer db' :
  apply_changes float_repr db r hash scope id rv now = Ok (answer, db') ->
  let kind := kind_of r.(am_action) r.(am_payload) in
  let next := revision_of db r.(am_project) + 1 in
  let receipt := applied_receipt r kind id rv next in
  answer = receipt ++ [("receipt", PDict receipt)] /\
  db'.(projects) = upsert_project (Build_project_row r.(am_project) scope next) db.(projects) /\
  db'.(declarations) = db.(declarations) ++
    map (fun t => new_declaration r (_latest db r.(am_project)) now next t.1 t.2)
      (targets r kind id rv.(r_rows)) /\
  (NoDup (map decl_pk db.(declarations)) -> NoDup (map decl_pk db'.(declarations))) /\
  db'.(operations) = db.(operations) ++
    [Build_operation_row r.(am_project) r.(am_operation) hash (request_value r) receipt now] /\
  db'.(previews) = db.(previews) /\
  (exists more, db'.(invalidations) = db.(invalidations) ++ more /\
     forall i, i ∈ more -> i.(i_project) = r.(am_project) /\ i.(i_revision) = next /\
       (i.(i_kind), i.(i_entity)) ∈ rv.(r_pairs)).
Proof.
  unfold apply_changes. intros H. apply result_bind_ok in H as (db1 & H1 & H).
  apply insert_declarations_shape in H1 as (P1 & O1 & V1 & I1 & D1 & N1); simpl in *.
  apply result_bind_ok in H as (db2 & H2 & H). apply Ok_inj in H. injection H as <- <-.
  apply record_operation_shape in H2 as [_ ->].
  destruct (insert_invalidations_shape (fun p => Build_invalidation_row r.(am_project)
              (revision_of db r.(am_project) + 1) p.1 p.2 (action_name r.(am_action)) now)
              rv.(r_pairs) db1) as (P2 & O2 & V2 & D2 & more & I2 & M2).
  simpl. rewrite P2, O2, V2, D2, I2, P1, O1, V1, I1. do 3 (split; [done|]).
  split; [done|]. do 2 (split; [done|]). exists more. split; [done|].
  intros i (p & Hp & ->)%M2. simpl. by destruct p.
Qed.

Inductive outcome (db : store) (r : amendment) (identities : list string) (hash scope : string) (now : Z) (answer : pydict) :
    store -> Prop :=
  | out_replayed o :
      prior_operation db r.(am_project) r.(am_operation) = Some o -> replay o r hash = Ok answer ->
      outcome db r identities hash scope now answer db
  | out_reviewed :
      prior_operation db r.(am_project) r.(am_operation) = None -> mode_is_preview r = true ->
      revision_of db r.(am_project) = r.(am_expected) ->
      outcome db r identities hash scope now answer db
  | out_previewed review :
      prior_operation db r.(am_project) r.(am_operation) = None -> mode_is_preview r = true ->
      revision_of db r.(am_project) = r.(am_expected) ->
      prior_preview db r.(am_project) r.(am_operation) = None ->
      outcome db r identities hash scope now answer
        (Build_store db.(projects) db.(declarations) db.(operations)
           (db.(previews) ++ [Build_preview_row r.(am_project) r.(am_operation) hash
                                (revision_of db r.(am_project)) review now]) db.(invalidations))
  | out_noop rv db' :
      prior_operation db r.(am_project) r.(am_operation) = None -> mode_is_preview r = false ->
      revision_of db r.(am_project) = r.(am_expected) -> rv.(r_noop) = true ->
      (exists sources trust, review_of float_repr sha256 db r identities sources trust = Ok rv) ->
      apply_noop float_repr db r hash scope rv now = Ok (answer, db') ->
      outcome db r identities hash scope now answer db'
  | out_applied rv id db' :
      prior_operation db r.(am_project) r.(am_operation) = None -> mode_is_preview r = false ->
      revision_of db r.(am_project) = r.(am_expected) ->
      payload_id r.(am_payload) = Ok id -> rv.(r_noop) = false ->
      (exists sources trust,
         review_of float_repr sha256 db r identities sources trust = Ok rv) ->
      apply_changes float_repr db r hash scope id rv now = Ok (answer, db') ->
      outcome db r identities hash scope now answer db'.

Lemma preview_shape db r hash id rv now answer db' :
  preview float_repr db r hash id rv now = Ok (answer, db') ->
  db' = db \/
  prior_preview db r.(am_project) r.(am_operation) = None /\
  db' = Build_store db.(projects) db.(declarations) db.(operations)
          (db.(previews) ++ [Build_preview_row r.(am_project) r.(am_operation) hash
                               (revision_of db r.(am_project)) rv.(r_value) now]) db.(invalidations).
Proof.
  unfold preview. intros H. inv_res. injection H as <- <-.
  destruct (prior_preview db _ _) as [v|] eqn:E; inv_res; [by left|].
  right. split; [done|]. unfold insert_preview in Ha0. by inv_res.
Qed.

Lemma transact_outcome db r hash trust scope sources identities now answer db' :
  transact float_repr sha256 db r hash trust scope sources identities now = Ok (answer, db') ->
  outcome db r identities hash scope now answer db'.
Proof.
  unfold transact. intros H. destruct (prior_operation db _ _) as [o|] eqn:Ho.
  { inv_res. injection H as <- <-. by eapply out_replayed. }
  apply result_bind_ok in H as (u & Hu & H). apply result_bind_ok in H as (u' & Hr & H).
  apply raise_if_ok, negb_false_iff, Z.eqb_eq in Hr.
  apply result_bind_ok in H as (rv & Hrv & H). apply result_bind_ok in H as (id & Hid & H).
  destruct (mode_is_preview r) eqn:Em.
  - apply preview_shape in H as [->|[Hv ->]]; [by apply out_reviewed|by apply out_previewed].
  - apply result_bind_ok in H as (u'' & _ & H). destruct (rv.(r_noop)) eqn:En.
    + eapply out_noop; eauto.
    + eapply out_applied; eauto.
Qed.

Lemma amend_outcome db r scope sources allow identities now answer db' :
  amend float_repr sha256 db r scope sources allow identities now = (Ok answer, db') ->
  exists hash, _digest float_repr sha256 (PDict (hashed_fields r)) = Ok hash /\
    outcome db r identities hash scope now answer db'.
Proof.
  unfold amend. intros H. destruct (_ ≫= _) as [[a d]|e] eqn:E; [|discriminate].
  injection H as -> ->. apply result_bind_ok in E as (t & _ & E).
  apply result_bind_ok in E as (hash & Hh & E). apply result_bind_ok in E as (trust & _ & E).
  exists hash. split; [done|]. by eapply transact_outcome.
Qed.

Lemma amend_error db r scope sources allow identities now e db' :
  amend float_repr sha256 db r scope sources allow identities now = (Err e, db') -> db' = db.
Proof. unfold amend. destruct (_ ≫= _) as [[a d]|e']; congruence. Qed.

End Shapes.

(** ** The store invariant *)

Definition review_keys : list string := ["review_digest"; "affected"; "sources"; "invalidations"; "trust_digest"].

Record store_ok (db : store) : Prop := {
  ok_projects : NoDup (map pj_project db.(projects));
  ok_operations : NoDup (map op_pk db.(operations));
  ok_previews : NoDup (map preview_pk db.(previews));
  ok_declarations : NoDup (map decl_pk db.(declarations));
  (* versions of a declaration are 1, 2, ... without gaps, written at increasing revisions *)
  ok_versions : forall d, d ∈ db.(declarations) ->
    1 <= d.(d_version) /\ 1 <= d.(d_revision) <= revision_of db d.(d_project) /\
    (d.(d_version) = 1 \/
     exists d', d' ∈ db.(declarations) /\ decl_key d' = decl_key d /\
       d'.(d_version) = d.(d_version) - 1 /\ d'.(d_revision) < d.(d_revision));
  ok_invalidations : forall i, i ∈ db.(invalidations) -> 1 <= i.(i_revision) <= revision_of db i.(i_project);
  ok_revisions : forall p, p ∈ db.(projects) -> 1 <= p.(pj_revision)
}.

Lemma find_project_upsert p q l :
  List.find (fun x => String.eqb x.(pj_project) q) (upsert_project p l) =
  if String.eqb p.(pj_project) q then Some p else List.find (fun x => String.eqb x.(pj_project) q) l.
Proof.
  induction l as [|x l IH]; simpl; [done|].
  destruct (String.eqb_spec x.(pj_project) p.(pj_project)) as [E|E]; simpl.
  - rewrite E. by destruct (String.eqb p.(pj_project) q).
  - rewrite IH. destruct (String.eqb_spec x.(pj_project) q), (String.eqb_spec p.(pj_project) q); congruence.
Qed.

Lemma upsert_project_names p l :
  map pj_project (upsert_project p l) =
  if bool_decide (p.(pj_project) ∈ map pj_project l) then map pj_project l
  else map pj_project l ++ [p.(pj_project)].
Proof.
  induction l as [|x l IH]; [done|]. cbn [upsert_project map].
  destruct (String.eqb_spec x.(pj_project) p.(pj_project)) as [E|E]; cbn [map].
  - rewrite bool_decide_true by (rewrite E; left). by rewrite E.
  - rewrite IH. destruct (bool_decide_reflect (p.(pj_project) ∈ map pj_project l)) as [H|H].
    + by rewrite bool_decide_true by (by right).
    + rewrite bool_decide_false; [done|]. intros [?|?]%elem_of_cons; congruence.
Qed.

Lemma upsert_project_nodup p l : NoDup (map pj_project l) -> NoDup (map pj_project (upsert_project p l)).
Proof.
  intros H. rewrite upsert_project_names.
  destruct (bool_decide_reflect (p.(pj_project) ∈ map pj_project l)); [done|by apply NoDup_snoc].
Qed.

Lemma elem_of_upsert_project p l q : q ∈ upsert_project p l -> q = p \/ q ∈ l.
Proof.
  induction l as [|x l IH]; simpl.
  - intros ->%list_elem_of_singleton. by left.
  - destruct (String.eqb _ _); intros [->|H]%elem_of_cons.
    + by left.
    + right. by right.
    + right. by left.
    + destruct (IH H) as [->|]; [by left|right; by right].
Qed.

Lemma revision_of_upsert db p scope next ds os vs ivs q :
  revision_of (Build_store (upsert_project (Build_project_row p scope next) db.(projects)) ds os vs ivs) q =
  if String.eqb p q then next else revision_of db q.
Proof. unfold revision_of, project_of. cbn [projects]. rewrite find_project_upsert. simpl. by destruct (String.eqb p q). Qed.

Lemma find_set_scope p scope q l :
  List.find (fun x => String.eqb x.(pj_project) q) (set_scope p scope l) =
  (fun x => if String.eqb x.(pj_project) p then Build_project_row x.(pj_project) scope x.(pj_revision) else x)
    <$> List.find (fun x => String.eqb x.(pj_project) q) l.
Proof.
  unfold set_scope. induction l as [|x l IH]; simpl; [done|].
  destruct (String.eqb x.(pj_project) p) eqn:E; simpl; destruct (String.eqb x.(pj_project) q) eqn:E2; simpl; try rewrite E; done.
Qed.

Lemma revision_of_projects db db' q : db'.(projects) = db.(projects) -> revision_of db' q = revision_of db q.
Proof. intros H. unfold revision_of, project_of. by rewrite H. Qed.

Lemma prior_operation_none_fresh db p op : prior_operation db p op = None -> (p, op) ∉ map op_pk db.(operations).
Proof.
  intros H (o & E & Ho)%list_elem_of_fmap. unfold prior_operation in H. rewrite find_none_forall in H.
  specialize (H o Ho). unfold op_pk in E. injection E as E1 E2. by rewrite <-E1, <-E2, !String.eqb_refl in H.
Qed.

Lemma prior_preview_none_fresh db p op : prior_preview db p op = None -> (p, op) ∉ map preview_pk db.(previews).
Proof.
  intros H (o & E & Ho)%list_elem_of_fmap. unfold prior_preview in H. rewrite find_none_forall in H.
  specialize (H o Ho). unfold preview_pk in E. injection E as E1 E2. by rewrite <-E1, <-E2, !String.eqb_refl in H.
Qed.

Section Invariant.
Context (float_repr : spec_float -> string) (sha256 : string -> string).
#[local] Abbreviation amend := (amend float_repr sha256).

Lemma revision_nonneg db q : store_ok db -> 0 <= revision_of db q.
Proof.
  intros H. unfold revision_of, project_of. destruct (List.find _ _) as [p|] eqn:E; [|done].
  apply find_some_elem in E as [Hp _]. apply (ok_revisions db H) in Hp. lia.
Qed.

(** What a noop writes: the scope digest and the operation. *)
Lemma apply_noop_shape db r hash scope rv now answer db' :
  apply_noop float_repr db r hash scope rv now = Ok (answer, db') ->
  let receipt := noop_receipt r rv (revision_of db r.(am_project)) in
    answer = receipt ++ [("receipt", PDict receipt)] /\
    prior_operation db r.(am_project) r.(am_operation) = None /\
    db' = Build_store (set_scope r.(am_project) scope db.(projects)) db.(declarations)
            (db.(operations) ++ [Build_operation_row r.(am_project) r.(am_operation) hash
                                   (request_value r) receipt now])
            db.(previews) db.(invalidations).
Proof.
  unfold apply_noop. intros H. apply result_bind_ok in H as (db1 & H1 & H). apply Ok_inj in H.
  injection H as <- <-. apply record_operation_shape in H1 as [Hn ->].
  done.
Qed.

Lemma noop_ok db r hash scope rv now answer db' :
  store_ok db -> apply_noop float_repr db r hash scope rv now = Ok (answer, db') -> store_ok db'.
Proof.
  intros Hok (_ & Hp & ->)%apply_noop_shape.
  assert (forall q ds os vs ivs, revision_of (Build_store (set_scope r.(am_project) scope db.(projects)) ds os vs ivs) q
            = revision_of db q) as Hrev.
  { intros. unfold revision_of, project_of. cbn [projects]. rewrite find_set_scope.
    destruct (List.find _ db.(projects)) as [x|]; simpl; [|done]. by destruct (String.eqb _ _). }
  destruct Hok as [H1 H2 H3 H4 H5 H6 H7]. constructor; cbn [projects operations previews declarations invalidations]; try done.
  - replace (map pj_project (set_scope _ _ _)) with (map pj_project db.(projects)); [done|].
    unfold set_scope. rewrite map_map. apply map_ext. intros x. by destruct (String.eqb _ _).
  - rewrite map_app. apply NoDup_snoc; [done|]. by apply prior_operation_none_fresh.
  - intros d Hd. rewrite Hrev. by apply H5.
  - intros i Hi. rewrite Hrev. by apply H6.
  - intros p (x & -> & Hx)%list_elem_of_fmap. destruct (String.eqb _ _); simpl; by apply H7.
Qed.

Lemma applied_ok db r hash scope id rv now answer db' :
  store_ok db -> apply_changes float_repr db r hash scope id rv now = Ok (answer, db') ->
  prior_operation db r.(am_project) r.(am_operation) = None -> store_ok db'.
Proof.
  intros Hok H Hp. apply apply_changes_shape in H as (_ & HP & HD & HN & HO & HV & more & HI & HM).
  pose proof (revision_nonneg db r.(am_project) Hok) as Hr0.
  assert (forall q, revision_of db' q = if String.eqb r.(am_project) q
            then revision_of db r.(am_project) + 1 else revision_of db q) as Hrev.
  { intros q. rewrite <-(revision_of_upsert db _ scope _ db'.(declarations) db'.(operations) db'.(previews)
      db'.(invalidations)). by apply revision_of_projects. }
  assert (forall q, revision_of db q <= revision_of db' q) as Hmono.
  { intros q. rewrite Hrev. destruct (String.eqb_spec r.(am_project) q) as [<-|]; lia. }
  destruct Hok as [H1 H2 H3 H4 H5 H6 H7]. constructor.
  - rewrite HP. by apply upsert_project_nodup.
  - rewrite HO, map_app. apply NoDup_snoc; [done|]. by apply prior_operation_none_fresh.
  - by rewrite HV.
  - by apply HN.
  - intros d Hd. rewrite HD in Hd. apply elem_of_app in Hd as [Hd|(t & -> & Ht)%list_elem_of_fmap].
    + destruct (H5 d Hd) as (A & B & C). specialize (Hmono d.(d_project)).
      split; [done|]. split; [lia|]. destruct C as [C|(d' & C1 & C2)]; [by left|].
      right. exists d'. rewrite HD, elem_of_app. auto.
    + set (next := revision_of db r.(am_project) + 1) in *.
      unfold new_declaration. cbn [d_version d_revision d_project].
      rewrite (Hrev r.(am_project)), String.eqb_refl. fold next.
      destruct (by_key _ t.1 t.2) as [p|] eqn:Eb.
      * apply by_key_some in Eb as (Hin & Hk & _). destruct (H5 p Hin) as (A & B & _).
        assert (d_project p = am_project r) as Epr by (by injection Hk).
        rewrite Epr in B. split; [lia|]. split; [unfold next; lia|]. right. exists p.
        rewrite HD, elem_of_app. split; [by left|]. split; [unfold decl_key in *; simpl; congruence|].
        split; [lia|unfold next; lia].
      * split; [lia|]. split; [unfold next; lia|by left].
  - intros i Hi. rewrite HI in Hi. apply elem_of_app in Hi as [Hi|Hi].
    + specialize (Hmono i.(i_project)). specialize (H6 i Hi). lia.
    + destruct (HM i Hi) as (-> & -> & _). rewrite Hrev, String.eqb_refl. lia.
  - intros p Hpr. rewrite HP in Hpr. apply elem_of_upsert_project in Hpr as [->|Hpr]; [simpl; lia|auto].
Qed.

Lemma outcome_ok db r identities hash scope now answer db' :
  store_ok db -> outcome float_repr sha256 db r identities hash scope now answer db' -> store_ok db'.
Proof.
  intros Hok Hout. destruct Hout as [|db'|review Ho Hm Hr Hv|rv db' Ho Hm Hr Hno Hrv Ha|rv id db' Ho Hm Hr Hid Hn Hrv Ha];
    try done.
  - destruct Hok as [H1 H2 H3 H4 H5 H6 H7]. constructor; try done. cbn [previews].
    rewrite map_app. apply NoDup_snoc; [done|]. by apply prior_preview_none_fresh.
  - by eapply noop_ok.
  - by eapply applied_ok.
Qed.

(** Every sequence of amendments, whatever the callers ask for. *)
Inductive amends : store -> store -> Prop :=
  | amends_refl db : amends db db
  | amends_step db db1 r scope sources allow identities now answer db2 :
      amends db db1 -> amend db1 r scope sources allow identities now = (answer, db2) -> amends db db2.

Definition reachable (db : store) : Prop := amends empty_store db.

Lemma empty_store_ok : store_ok empty_store.
Proof. constructor; cbn; try apply NoDup_nil_2; intros ? H; by apply elem_of_nil in H. Qed.

Lemma amends_ok db db' : store_ok db -> amends db db' -> store_ok db'.
Proof.
  intros Hok H. induction H as [db|db db1 r scope sources allow identities now answer db2 _ IH Hs]; [done|].
  destruct answer as [answer|e].
  - apply amend_outcome in Hs as (hash & _ & Hout). eapply outcome_ok; [by apply IH|exact Hout].
  - apply amend_error in Hs as ->. auto.
Qed.

(** C17: In every store the amendments can produce, primary keys are unique, each declaration's
    versions are 1, 2, ... without gaps and were written at increasing revisions, and no row
    carries a revision its project has not reached. *)
Theorem reachable_metadata_ok db : reachable db -> store_ok db.
Proof. apply amends_ok, empty_store_ok. Qed.

End Invariant.
