(* ===== verification/MetadataLaws.v ===== *)
(** * Project metadata: the contract of [amend] *)

From Stdlib Require Import ZArith SpecFloat.
From S2P Require Import Prelude PyValue Json Metadata MetadataProps.
Import Metadata.

#[local] Open Scope string_scope.
#[local] Open Scope Z_scope.
#[local] Open Scope list_scope.

Section Laws.
Context (float_repr : spec_float -> string) (sha256 : string -> string).
#[local] Abbreviation amend := (amend float_repr sha256).
#[local] Abbreviation amends := (amends float_repr sha256).
#[local] Abbreviation outcome := (outcome float_repr sha256).

(** ** The log only grows *)

(** [db'] extends [db]: every table but the projects is a longer list with the same start. *)
Definition extends (db db' : store) : Prop :=
  db.(declarations) `prefix_of` db'.(declarations) /\ db.(operations) `prefix_of` db'.(operations) /\
  db.(previews) `prefix_of` db'.(previews) /\ db.(invalidations) `prefix_of` db'.(invalidations) /\
  forall q, revision_of db q <= revision_of db' q.

#[export] Instance extends_preorder : PreOrder extends.
Proof.
  split.
  - intros db. unfold extends. repeat split; try done.
  - intros a b c (A1 & A2 & A3 & A4 & A5) (B1 & B2 & B3 & B4 & B5). unfold extends.
    do 4 (split; [by etransitivity|]). intros q. etransitivity; [apply A5|apply B5].
Qed.

Lemma revision_set_scope db p scope ds os vs ivs q :
  revision_of (Build_store (set_scope p scope db.(projects)) ds os vs ivs) q = revision_of db q.
Proof.
  unfold revision_of, project_of. cbn [projects]. rewrite find_set_scope.
  destruct (List.find _ db.(projects)) as [x|]; simpl; [|done]. by destruct (String.eqb _ _).
Qed.

(** The revision after an outcome, and what may have changed with it. *)
Lemma outcome_revision db r identities hash scope now answer db' :
  outcome db r identities hash scope now answer db' ->
  (db'.(declarations) = db.(declarations) /\ db'.(invalidations) = db.(invalidations) /\
   forall q, revision_of db' q = revision_of db q) \/
  (revision_of db r.(am_project) = r.(am_expected) /\
   forall q, revision_of db' q = if String.eqb r.(am_project) q then r.(am_expected) + 1 else revision_of db q).
Proof.
  intros [o Ho Hr|Ho Hm Hr|review Ho Hm Hr Hv|rv db1 Ho Hm Hr Hno Hrv Ha|rv id db1 Ho Hm Hr Hid Hn Hrv Ha]; try (by left).
  - left. apply apply_noop_shape in Ha as (_ & _ & ->). split; [done|]. split; [done|].
    intros q. apply revision_set_scope.
  - right. split; [done|]. intros q. apply apply_changes_shape in Ha as (_ & HP & _).
    rewrite <-Hr, <-(revision_of_upsert db _ scope _ db1.(declarations) db1.(operations) db1.(previews)
      db1.(invalidations)). by apply revision_of_projects.
Qed.

Lemma outcome_extends db r identities hash scope now answer db' :
  outcome db r identities hash scope now answer db' -> extends db db'.
Proof.
  intros H. assert (forall q, revision_of db q <= revision_of db' q) as Hrev.
  { intros q. apply outcome_revision in H as [(_ & _ & ->)|[Hr ->]]; [lia|].
    destruct (String.eqb_spec r.(am_project) q) as [<-|]; lia. }
  split; [|split; [|split; [|split; [|exact Hrev]]]]; clear Hrev;
    destruct H as [o Ho Hr|Ho Hm Hr|review Ho Hm Hr Hv|rv db1 Ho Hm Hr Hno Hrv Ha|rv id db1 Ho Hm Hr Hid Hn Hrv Ha];
    try done; try (by eexists);
    first [apply apply_noop_shape in Ha as (_ & _ & ->)
          |apply apply_changes_shape in Ha as (_ & _ & HD & _ & HO & HV & more & HI & _)]; try done;
    try (by eexists).
  by rewrite HV.
Qed.

Lemma amend_extends db r scope sources allow identities now answer db' :
  amend db r scope sources allow identities now = (answer, db') -> extends db db'.
Proof.
  destruct answer as [answer|e]; intros H.
  - apply amend_outcome in H as (hash & _ & H). by eapply outcome_extends.
  - by apply amend_error in H as ->.
Qed.

(** The log is append-only.  Whatever amendments run, successful or refused, every declaration,
    recorded operation, preview and invalidation stays where it is and no project's revision goes
    down. *)
Theorem amends_append_only db db' : amends db db' -> extends db db'.
Proof.
  intros H. induction H as [db|db db1 r scope sources allow identities now answer db2 _ IH Hs]; [done|].
  etransitivity; [exact IH|]. by eapply amend_extends.
Qed.

(** The effect of one amendment on the log and on the revisions. *)
Lemma amend_effect db r scope sources allow identities now answer db' :
  amend db r scope sources allow identities now = (answer, db') ->
  match answer with
  | Err _ => db' = db
  | Ok _ =>
      (db'.(declarations) = db.(declarations) /\ db'.(invalidations) = db.(invalidations) /\
       forall q, revision_of db' q = revision_of db q) \/
      (revision_of db r.(am_project) = r.(am_expected) /\
       revision_of db' r.(am_project) = r.(am_expected) + 1 /\
       forall q, q <> r.(am_project) -> revision_of db' q = revision_of db q)
  end.
Proof.
  destruct answer as [answer|e]; intros H; [|by apply amend_error in H].
  apply amend_outcome in H as (hash & _ & [H|[Hr H]]%outcome_revision); [by left|].
  right. split; [done|]. rewrite H, String.eqb_refl. split; [done|].
  intros q Hq. rewrite H. destruct (String.eqb_spec r.(am_project) q); congruence.
Qed.

(** Compare-and-swap.  An amendment that succeeds either leaves declarations, invalidations and
    every revision alone (a replay, a preview, a noop), or found its project at exactly the expected
    revision and moved it to the next one, leaving other projects' revisions alone; an amendment that
    fails changes nothing. *)
Theorem amend_compare_and_swap db r scope sources allow identities now answer db' :
  amend db r scope sources allow identities now = (answer, db') ->
  match answer with
  | Err _ => db' = db
  | Ok _ =>
      (db'.(declarations) = db.(declarations) /\ db'.(invalidations) = db.(invalidations) /\
       forall q, revision_of db' q = revision_of db q) \/
      (revision_of db r.(am_project) = r.(am_expected) /\
       revision_of db' r.(am_project) = r.(am_expected) + 1 /\
       forall q, q <> r.(am_project) -> revision_of db' q = revision_of db q)
  end.
Proof. apply amend_effect. Qed.

(** C18: No lost update.  Once an amendment has advanced its project, any later amendment of that
    project made against the same (or an older) revision and not itself already recorded is refused
    and changes nothing, whatever happened in between. *)
Theorem stale_amendment_refused db r scope sources allow identities now answer db1 db2 r' scope' sources' allow' identities' now' :
  amend db r scope sources allow identities now = (Ok answer, db1) ->
  revision_of db1 r.(am_project) <> revision_of db r.(am_project) ->
  amends db1 db2 ->
  r'.(am_project) = r.(am_project) -> r'.(am_expected) <= r.(am_expected) ->
  prior_operation db2 r'.(am_project) r'.(am_operation) = None ->
  exists e, amend db2 r' scope' sources' allow' identities' now' = (Err e, db2).
Proof.
  intros H1 Hne Hs Hp He Hn. apply amend_effect in H1 as [(_ & _ & H)|(_ & Hr & _)].
  { by rewrite H in Hne. }
  apply amends_append_only in Hs as (_ & _ & _ & _ & Hm). specialize (Hm r.(am_project)).
  destruct (amend db2 r' scope' sources' allow' identities' now') as [[a|e] db3] eqn:E.
  - apply amend_outcome in E as (hash & _ & Hout). exfalso.
    assert (revision_of db2 r'.(am_project) <> r'.(am_expected)) as Hx by (rewrite Hp; lia).
    destruct Hout; congruence.
  - pose proof (amend_error _ _ _ _ _ _ _ _ _ _ _ E) as ->. by exists e.
Qed.

(** ** Replay *)

Lemma find_prefix {A} (f : A -> bool) l k x :
  l `prefix_of` k -> List.find f l = Some x -> List.find f k = Some x.
Proof. intros [m ->] H. by rewrite find_app, H. Qed.

Lemma expected_of_request r :
  eq_int (dict_get_default "expected_revision" PNone (request_value r)) r.(am_expected) = true.
Proof. unfold request_value, hashed_fields. cbn -[Z.eqb]. apply Z.eqb_refl. Qed.

(** The operation a noop or an applied amendment leaves behind. *)
Lemma recorded_operation db r identities hash scope now answer db' :
  outcome db r identities hash scope now answer db' ->
  prior_operation db r.(am_project) r.(am_operation) = None -> mode_is_preview r = false ->
  exists o, prior_operation db' r.(am_project) r.(am_operation) = Some o /\ o.(o_hash) = hash /\
    o.(o_request) = request_value r /\ answer = o.(o_receipt) ++ [("receipt", PDict o.(o_receipt))] /\
    (dict_get "status" o.(o_receipt) = Some (PStr "noop") \/ dict_get "status" o.(o_receipt) = Some (PStr "applied")) /\
    dict_get "receipt" o.(o_receipt) = None.
Proof.
  intros Hout Hn Hm. unfold prior_operation.
  assert (forall o l, (fun o => String.eqb o.(o_project) r.(am_project) && String.eqb o.(o_operation) r.(am_operation)) o = true ->
    prior_operation db r.(am_project) r.(am_operation) = None -> l = db.(operations) ++ [o] ->
    List.find (fun o => String.eqb o.(o_project) r.(am_project) && String.eqb o.(o_operation) r.(am_operation)) l = Some o) as Hfind.
  { intros o l Ho Hnone ->. rewrite find_app. unfold prior_operation in Hnone. rewrite Hnone. simpl. by rewrite Ho. }
  destruct Hout as [| | |rv db1 _ _ Hr Hno Hrv Ha|rv id db1 _ _ Hr Hid Hnoop Hrv Ha]; try congruence.
  - apply apply_noop_shape in Ha as (-> & _ & ->). eexists. split.
    { eapply Hfind; [|exact Hn|reflexivity]. simpl. by rewrite !String.eqb_refl. }
    split; [done|]. split; [done|]. split; [done|]. split; [by left|done].
  - apply apply_changes_shape in Ha as (-> & _ & _ & _ & HO & _). eexists. split.
    { eapply Hfind; [|exact Hn|exact HO]. simpl. by rewrite !String.eqb_refl. }
    split; [done|]. split; [done|]. split; [done|]. split; [by right|done].
Qed.

(** Exactly-once.  After an amendment is recorded (applied or noop), the same request sent again,
    in any later store and whatever the sources now say, answers with the receipt of the first time
    ("replayed" when it was applied) and changes nothing. *)
Theorem amend_replays db r scope sources allow identities now answer db1 db2 scope' sources' identities' now' :
  amend db r scope sources allow identities now = (Ok answer, db1) ->
  prior_operation db r.(am_project) r.(am_operation) = None -> mode_is_preview r = false ->
  amends db1 db2 ->
  exists again, amend db2 r scope' sources' allow identities' now' = (Ok again, db2) /\
    dict_get "receipt" again = dict_get "receipt" answer /\
    (dict_get "status" answer = Some (PStr "applied") /\ dict_get "status" again = Some (PStr "replayed") \/
     dict_get "status" answer = Some (PStr "noop") /\ dict_get "status" again = Some (PStr "noop")) /\
    forall k, k <> "status" -> dict_get k again = dict_get k answer.
Proof.
  intros H Hn Hm Hs. unfold Metadata.amend in H.
  destruct (_ ≫= _) as [[a d]|e] eqn:E; [|discriminate]. injection H as -> ->.
  apply result_bind_ok in E as (t & Ht & E). apply result_bind_ok in E as (hash & Hh & E).
  apply result_bind_ok in E as (trust & Htr & E). apply transact_outcome in E.
  destruct (recorded_operation _ _ _ _ _ _ _ _ E Hn Hm) as (o & Ho & Hoh & Hor & -> & Hst & Hno).
  apply amends_append_only in Hs as (_ & Hpre & _).
  assert (prior_operation db2 r.(am_project) r.(am_operation) = Some o) as Ho2 by (by eapply find_prefix).
  unfold Metadata.amend. rewrite Ht, bind_Ok, Hh, bind_Ok, Htr, bind_Ok. unfold transact. rewrite Ho2.
  unfold replay. rewrite Hoh, String.eqb_refl, Hor, expected_of_request. cbn [negb raise_if]. rewrite !bind_Ok.
  eexists. split; [reflexivity|].
  assert (forall k, k <> "status" -> k <> "receipt" ->
    dict_get k (o.(o_receipt) ++ [("receipt", PDict o.(o_receipt))]) = dict_get k o.(o_receipt)) as Hk.
  { intros k _ Hk. rewrite dict_get_app. destruct (dict_get k o.(o_receipt)); [done|].
    by rewrite dict_get_cons_ne. }
  assert (dict_get "receipt" (o.(o_receipt) ++ [("receipt", PDict o.(o_receipt))]) = Some (PDict o.(o_receipt))) as Hrec.
  { by rewrite dict_get_app, Hno. }
  split; [by rewrite dict_get_set_eq, Hrec|]. split.
  - rewrite dict_get_set_ne by discriminate. rewrite dict_get_set_eq, dict_get_app.
    unfold dict_get_default. destruct Hst as [-> | ->]; [by right|by left].
  - intros k Hks. destruct (decide (k = "receipt")) as [->|Hkr].
    + by rewrite dict_get_set_eq, Hrec.
    + rewrite !dict_get_set_ne by congruence. by rewrite Hk.
Qed.

(** An operation id names one request.  Sending a different request (a different hash) or the
    same one against another revision under a recorded operation id is refused and changes nothing. *)
Theorem operation_id_binds_request db r scope sources allow identities now o :
  prior_operation db r.(am_project) r.(am_operation) = Some o ->
  (forall hash, _digest float_repr sha256 (PDict (hashed_fields r)) = Ok hash -> hash <> o.(o_hash)) \/
  eq_int (dict_get_default "expected_revision" PNone o.(o_request)) r.(am_expected) = false ->
  exists e, amend db r scope sources allow identities now = (Err e, db).
Proof.
  intros Ho Hd. unfold Metadata.amend. destruct (_encode _ _) as [t|e]; [|by eexists]. rewrite bind_Ok.
  destruct (_digest _ _ (PDict (hashed_fields r))) as [hash|e]; [|by eexists]. rewrite bind_Ok.
  destruct (_digest _ _ _) as [trust|e]; [|by eexists]. rewrite bind_Ok.
  unfold transact. rewrite Ho. unfold replay.
  destruct (String.eqb_spec o.(o_hash) hash) as [E|E]; [|by eexists].
  destruct Hd as [Hd|Hd]; [by destruct (Hd hash eq_refl)|]. rewrite Hd. by eexists.
Qed.

(** ** What an applied amendment shows *)

(** A key without new rows keeps its current declaration. *)
Lemma by_key_unchanged db db' rows q k i :
  NoDup (map decl_pk db'.(declarations)) -> db'.(declarations) = db.(declarations) ++ rows ->
  (forall d, d ∈ rows -> decl_key d <> (q, k, i)) ->
  by_key (_latest db' q) k i = by_key (_latest db q) k i.
Proof.
  intros Hnd Happ Hrows.
  assert (forall x, x ∈ db'.(declarations) -> decl_key x = (q, k, i) -> x ∈ db.(declarations)) as Hold.
  { intros x Hx Hk. rewrite Happ in Hx. apply elem_of_app in Hx as [|Hx]; [done|]. by destruct (Hrows x Hx). }
  destruct (by_key (_latest db q) k i) as [d|] eqn:E.
  - apply by_key_some in E as (Hd & Hk & Hm).
    assert (by_key (_latest db' d.(d_project)) d.(d_kind) d.(d_id) = Some d) as H.
    { apply by_key_intro; [done| |].
      - rewrite Happ. apply elem_of_app. by left.
      - intros x Hx Hxk. apply Hm; [apply Hold; [done|]|]; congruence. }
    unfold decl_key in Hk. by injection Hk as <- <- <-.
  - destruct (by_key (_latest db' q) k i) as [d|] eqn:E'; [|done].
    apply by_key_some in E' as (Hd & Hk & _). by destruct (by_key_none _ _ _ _ E d (Hold d Hd Hk)).
Qed.

(** The newest row of a key is its current declaration. *)
Lemma by_key_new db db' rows d :
  NoDup (map decl_pk db'.(declarations)) -> db'.(declarations) = db.(declarations) ++ rows -> d ∈ rows ->
  (forall x, x ∈ rows -> decl_key x = decl_key d -> x.(d_version) <= d.(d_version)) ->
  d.(d_version) = match by_key (_latest db d.(d_project)) d.(d_kind) d.(d_id) with
                  | Some p => p.(d_version) + 1 | None => 1 end ->
  by_key (_latest db' d.(d_project)) d.(d_kind) d.(d_id) = Some d.
Proof.
  intros Hnd Happ Hd Hmax Hv. apply by_key_intro; [done|rewrite Happ; apply elem_of_app; by right|].
  intros x Hx Hk. rewrite Happ in Hx. apply elem_of_app in Hx as [Hx|Hx]; [|by apply Hmax].
  destruct (by_key _ _ _) as [p|] eqn:E.
  - apply by_key_some in E as (_ & _ & Hm). specialize (Hm x Hx). unfold decl_key in *.
    assert (d_version x <= d_version p) by (apply Hm; congruence). lia.
  - destruct (by_key_none _ _ _ _ E x Hx). unfold decl_key in *. congruence.
Qed.

Lemma applied_unmapped db r scope sources allow identities now answer db' :
  amend db r scope sources allow identities now = (Ok answer, db') ->
  revision_of db' r.(am_project) <> revision_of db r.(am_project) ->
  exists hash rv id, payload_id r.(am_payload) = Ok id /\ rv.(r_noop) = false /\
    (exists sources trust, review_of float_repr sha256 db r identities sources trust = Ok rv) /\
    apply_changes float_repr db r hash scope id rv now = Ok (answer, db').
Proof.
  intros H Hne. apply amend_outcome in H as (hash & _ & H).
  pose proof (outcome_revision _ _ _ _ _ _ _ _ H) as Hrev.
  destruct H as [o Ho Hr|Ho Hm Hr|review Ho Hm Hr Hv|rv db1 Ho Hm Hr Hno Hrv Ha|rv id db1 Ho Hm Hr Hid Hn Hrv Ha]; try done.
  - apply apply_noop_shape in Ha as (_ & _ & ->). by rewrite revision_set_scope in Hne.
  - by exists hash, rv, id.
Qed.

(** An applied registration is what the project now shows.  After an amendment other than a removal
    advances the project, the declaration of its kind and id is the payload, not retired, one version
    above the previous one (or version 1), at the new revision; every other declaration of every
    project is unchanged. *)
Theorem applied_is_current db r scope sources allow identities now answer db' :
  store_ok db -> r.(am_action) <> remove_registration ->
  amend db r scope sources allow identities now = (Ok answer, db') ->
  revision_of db' r.(am_project) <> revision_of db r.(am_project) ->
  exists kind id d,
    ACTIONS r.(am_action) = Some kind /\ payload_id r.(am_payload) = Ok id /\
    by_key (_latest db' r.(am_project)) kind id = Some d /\
    d.(d_payload) = r.(am_payload) /\ d.(d_retired) = false /\
    d.(d_revision) = r.(am_expected) + 1 /\
    d.(d_version) = match by_key (_latest db r.(am_project)) kind id with
                    | Some p => p.(d_version) + 1 | None => 1 end /\
    forall q k i, (q, k, i) <> (r.(am_project), kind, id) ->
      by_key (_latest db' q) k i = by_key (_latest db q) k i.
Proof.
  intros Hok Hact H Hne. pose proof (amend_effect _ _ _ _ _ _ _ _ _ H) as Hcas.
  simpl in Hcas. destruct Hcas as [(_ & _ & Hq)|(Hexp & _ & _)]; [by rewrite Hq in Hne|].
  apply applied_unmapped in H as (hash & rv & id & Hid & _ & _ & Ha); [|done].
  apply apply_changes_shape in Ha as (_ & _ & HD & HN & _). specialize (HN (ok_declarations _ Hok)).
  assert (exists kind, ACTIONS r.(am_action) = Some kind /\
    targets r (kind_of r.(am_action) r.(am_payload)) id rv.(r_rows) = [(kind, id)]) as (kind & Hk & Ht).
  { unfold targets, kind_of. destruct (am_action r); try congruence; by eexists. }
  rewrite Ht in HD. cbn [map fst snd] in HD.
  set (d := new_declaration _ _ _ _ kind id) in HD.
  assert (bool_decide (r.(am_action) = remove_registration) = false) as Hb by by apply bool_decide_false.
  exists kind, id, d. split; [done|]. split; [done|]. split.
  { apply (by_key_new db db' [d] d); try done; [left|]. intros x ->%list_elem_of_singleton _. done. }
  unfold d, new_declaration. cbn [d_payload d_retired d_revision d_version]. rewrite Hb, Hexp.
  split; [by destruct (by_key _ _ _)|]. do 3 (split; [done|]).
  intros q k i Hne'. eapply by_key_unchanged; [done|exact HD|].
  intros x ->%list_elem_of_singleton. unfold decl_key. simpl. congruence.
Qed.

(** A removal retires.  After a "remove_registration" advances the project, the named registration
    and every live relation that named it are retired with the content they had and one version up,
    no live relation names the registration any more, and every other declaration is unchanged. *)
Theorem removal_retires db r scope sources allow identities now answer db' :
  store_ok db -> r.(am_action) = remove_registration ->
  amend db r scope sources allow identities now = (Ok answer, db') ->
  revision_of db' r.(am_project) <> revision_of db r.(am_project) ->
  exists kind id current (rows : list declaration),
    dict_get "kind" r.(am_payload) = Some (PStr kind) /\ payload_id r.(am_payload) = Ok id /\
    by_key (_latest db r.(am_project)) kind id = Some current /\ current.(d_retired) = false /\
    (forall row, row ∈ rows <-> row = current \/
       row ∈ _latest db r.(am_project) /\ is_related identities kind id current row = true) /\
    (forall row, row ∈ rows -> exists d,
       by_key (_latest db' r.(am_project)) row.(d_kind) row.(d_id) = Some d /\
       d.(d_retired) = true /\ d.(d_payload) = row.(d_payload) /\ d.(d_version) = row.(d_version) + 1) /\
    (forall q k i, (forall row, row ∈ rows -> (q, k, i) <> decl_key row) ->
       by_key (_latest db' q) k i = by_key (_latest db q) k i).
Proof.
  intros Hok Hact H Hne.
  apply applied_unmapped in H as (hash & rv & id & Hid & _ & (src & trust & Hrv) & Ha); [|done].
  apply apply_changes_shape in Ha as (_ & _ & HD & HN & _). specialize (HN (ok_declarations _ Hok)).
  unfold review_of in Hrv. apply result_bind_ok in Hrv as (s & _ & Hrv). rewrite Hid, bind_Ok in Hrv.
  apply result_bind_ok in Hrv as (rs & Ha2 & Hrv). apply result_bind_ok in Hrv as (ps & _ & Hrv).
  apply result_bind_ok in Hrv as (dg & _ & Hrv). apply Ok_inj in Hrv as <-.
  cbn [r_rows] in HD. unfold affected_rows in Ha2. rewrite Hact in Ha2.
  unfold removal_rows in Ha2. cbn [kind_of] in *.
  destruct (dict_get "kind" (am_payload r)) as [kv|] eqn:Ek; [|discriminate].
  destruct kv as [| | | |kind| |]; try discriminate. cbn [mbind option_bind as_str] in Ha2.
  destruct (by_key (_latest db r.(am_project)) kind id) as [current|] eqn:Eb; [|discriminate].
  cbn [mbind option_bind] in Ha2.
  inv_res. destruct (dict_get "version" _) as [v|]; [|discriminate]. inv_res.
  set (rows := current :: _) in *.
  assert (forall row, row ∈ rows -> row ∈ _latest db r.(am_project)) as Hrows.
  { unfold rows. intros row [->|[Hx _]%elem_of_list_filter]%elem_of_cons; [|done].
    by apply find_some_elem in Eb as [Hx _]. }
  assert (forall row, row ∈ rows -> by_key (_latest db r.(am_project)) row.(d_kind) row.(d_id) = Some row) as Hself.
  { intros row Hx%Hrows%elem_of_latest. destruct Hx as (Hx & <- & Hm).
    apply by_key_intro; [apply (ok_declarations _ Hok)|done|done]. }
  exists kind, id, current, rows. split; [done|]. split; [done|]. split; [done|]. split; [done|].
  split; [|split].
  - intros row. unfold rows. by rewrite elem_of_cons, elem_of_list_filter.
  - intros row Hrow. unfold targets in HD. rewrite Hact in HD.
    set (f := fun t : string * string => new_declaration _ _ _ _ t.1 t.2) in HD.
    exists (f (row.(d_kind), row.(d_id))).
    assert (d_version (f (row.(d_kind), row.(d_id))) = row.(d_version) + 1) as Hver.
    { unfold f, new_declaration. cbn [d_version fst snd]. by rewrite (Hself row Hrow). }
    split; [|split; [|split; [|done]]].
    + apply (by_key_new db db' _ (f (row.(d_kind), row.(d_id))) HN HD).
      * rewrite map_map. apply list_elem_of_fmap. by exists row.
      * intros x Hx Hk. rewrite map_map in Hx. apply list_elem_of_fmap in Hx as (row' & -> & Hrow').
        unfold decl_key in Hk. unfold f, new_declaration in Hk |- *. cbn in Hk |- *. by injection Hk as -> ->.
      * done.
    + unfold f, new_declaration. cbn [d_retired]. by rewrite Hact.
    + unfold f, new_declaration. cbn [d_payload fst snd]. by rewrite (Hself row Hrow), Hact.
  - intros q k i Hn. unfold targets in HD. rewrite Hact in HD.
    eapply by_key_unchanged; [done|exact HD|]. intros x Hx Hk. rewrite map_map in Hx.
    apply list_elem_of_fmap in Hx as (row & -> & Hrow). apply (Hn row Hrow).
    apply Hrows, elem_of_latest in Hrow as (_ & Hp & _). rewrite <-Hk. unfold decl_key. simpl. congruence.
Qed.

(** ** Preview and apply *)

Lemma py_eqb_dict_get k x d d' :
  py_eqb (PDict d) (PDict d') = true -> dict_get k d = Some x ->
  exists y, dict_get k d' = Some y /\ py_eqb x y = true.
Proof.
  intros H. cbn [py_eqb] in H. apply andb_true_iff in H as [_ H]. revert H.
  induction d as [|[k' v] d IH]; intros H Hk; simpl in Hk; [done|].
  apply andb_true_iff in H as [Hv H]. case_decide; [|by apply IH].
  subst k'. injection Hk as <-. destruct (dict_get k d') as [y|]; [|done]. by exists y.
Qed.

Lemma review_value db r identities sources trust rv :
  review_of float_repr sha256 db r identities sources trust = Ok rv ->
  dict_get "affected" rv.(r_value) = Some (affected_value rv) /\
  dict_get "invalidations" rv.(r_value) = Some (PList (map pair_json rv.(r_pairs))) /\
  (rv.(r_noop) = true -> rv.(r_pairs) = []).
Proof.
  unfold review_of. intros H. inv_res. cbn [r_value r_pairs r_noop r_rows].
  split; [done|]. split; [done|]. by intros ->.
Qed.

(** The two ways an operation with no record is applied. *)
Lemma applied_answer db r hash trust scope sources identities now answer db' :
  prior_operation db r.(am_project) r.(am_operation) = None -> mode_is_preview r = false ->
  transact float_repr sha256 db r hash trust scope sources identities now = Ok (answer, db') ->
  exists rv, review_of float_repr sha256 db r identities sources trust = Ok rv /\
    check_preview (prior_preview db r.(am_project) r.(am_operation)) r hash = Ok tt /\
    (forall v, prior_preview db r.(am_project) r.(am_operation) = Some v ->
       py_eqb (PDict v.(v_review)) (PDict rv.(r_value)) = true) /\
    dict_get "affected" answer = dict_get "affected" rv.(r_value) /\
    dict_get "invalidations" answer = dict_get "invalidations" rv.(r_value).
Proof.
  intros Hn Hm H. unfold transact in H. rewrite Hn, Hm in H.
  apply result_bind_ok in H as (u & Hu & H). apply result_bind_ok in H as (u' & _ & H).
  apply result_bind_ok in H as (rv & Hrv & H). apply result_bind_ok in H as (id & _ & H).
  apply result_bind_ok in H as (u'' & Hs & H). apply raise_if_ok in Hs.
  destruct (review_value _ _ _ _ _ _ Hrv) as (Ea & Ei & Hno).
  exists rv. split; [done|]. split; [by destruct u|]. split.
  { intros v Hv. rewrite Hv in Hs. by apply negb_false_iff in Hs. }
  rewrite Ea, Ei. destruct rv.(r_noop) eqn:En.
  - rewrite (Hno eq_refl). by apply apply_noop_shape in H as (-> & _).
  - by apply apply_changes_shape in H as (-> & _).
Qed.

(** What was reviewed is what is applied.  When a preview is followed, after any other amendments, by
    applying the same request, the apply either fails or affects exactly the rows and causes exactly the
    invalidations the preview announced, at the revision the preview was made at. *)
Theorem preview_binds_apply db r scope sources allow identities now reviewed db1 db2 r' scope' sources' allow' identities' now' answer db3 :
  amend db r scope sources allow identities now = (Ok reviewed, db1) ->
  mode_is_preview r = true -> prior_operation db r.(am_project) r.(am_operation) = None ->
  prior_preview db r.(am_project) r.(am_operation) = None ->
  amends db1 db2 ->
  hashed_fields r' = hashed_fields r -> mode_is_preview r' = false ->
  prior_operation db2 r'.(am_project) r'.(am_operation) = None ->
  amend db2 r' scope' sources' allow' identities' now' = (Ok answer, db3) ->
  r'.(am_expected) = r.(am_expected) /\
  forall key, key ∈ ["affected"; "invalidations"] ->
    exists x y, dict_get key reviewed = Some x /\ dict_get key answer = Some y /\ py_eqb x y = true.
Proof.
  intros H1 Hm Hn Hv Hs Hf Hm' Hn' H2. unfold Metadata.amend in H1, H2.
  destruct (_ ≫= _) as [[a1 d1]|e1] eqn:E1 in H1; [|discriminate]. injection H1 as -> ->.
  destruct (_ ≫= _) as [[a2 d2]|e2] eqn:E2 in H2; [|discriminate]. injection H2 as -> ->.
  apply result_bind_ok in E1 as (t1 & _ & E1). apply result_bind_ok in E1 as (hash & Hh & E1).
  apply result_bind_ok in E1 as (trust & _ & E1).
  apply result_bind_ok in E2 as (t2 & _ & E2). apply result_bind_ok in E2 as (hash' & Hh' & E2).
  apply result_bind_ok in E2 as (trust' & _ & E2).
  rewrite Hf, Hh in Hh'. apply Ok_inj in Hh' as <-.
  assert (am_project r' = am_project r /\ am_operation r' = am_operation r) as [Hp Ho].
  { unfold hashed_fields in Hf. by injection Hf. }
  (* the preview *)
  unfold transact in E1. rewrite Hn, Hm, Hv in E1. cbn [check_preview] in E1. rewrite bind_Ok in E1.
  apply result_bind_ok in E1 as (u & Hrev & E1). apply raise_if_ok, negb_false_iff, Z.eqb_eq in Hrev.
  apply result_bind_ok in E1 as (rv & Hrv & E1). apply result_bind_ok in E1 as (id & _ & E1).
  unfold preview in E1. rewrite Hv in E1. cbn [raise_if] in E1. rewrite bind_Ok in E1.
  apply result_bind_ok in E1 as (db1' & Hins & E1). apply Ok_inj in E1. injection E1 as <- <-.
  apply result_bind_ok in Hins as (t & _ & Hins). unfold insert_preview in Hins.
  apply result_bind_ok in Hins as (u' & _ & Hins). apply Ok_inj in Hins as <-.
  set (row := Build_preview_row _ _ _ _ _ _) in Hs.
  apply amends_append_only in Hs as (_ & _ & Hpre & _).
  assert (prior_preview db2 r'.(am_project) r'.(am_operation) = Some row) as Hv2.
  { rewrite Hp, Ho. unfold prior_preview in Hv |- *. eapply find_prefix; [exact Hpre|]. cbn [previews].
    rewrite find_app, Hv. simpl. by rewrite !String.eqb_refl. }
  (* the apply *)
  destruct (applied_answer _ _ _ _ _ _ _ _ _ _ Hn' Hm' E2) as (rv2 & Hrv2 & Hchk & Heq & Ea & Ei).
  specialize (Heq row Hv2). rewrite Hv2 in Hchk. cbn [check_preview] in Hchk.
  apply result_bind_ok in Hchk as (u2 & _ & Hchk). apply raise_if_ok, negb_false_iff, Z.eqb_eq in Hchk.
  simpl in Hchk. split; [congruence|].
  destruct (review_value _ _ _ _ _ _ Hrv) as (Ra & Ri & _).
  assert (forall key x, dict_get key rv.(r_value) = Some x -> key ∈ ["affected"; "invalidations"] ->
    dict_get key answer = dict_get key rv2.(r_value) ->
    exists x y, dict_get key ([("status", PStr "preview"); ("operation_id", PStr r.(am_operation));
       ("expected_revision", PInt (revision_of db r.(am_project)))] ++ rv.(r_value)
      ++ [("changes", PList (if rv.(r_noop) then []
                             else [change_json r (kind_of r.(am_action) r.(am_payload)) id]))]) = Some x /\
      dict_get key answer = Some y /\ py_eqb x y = true) as Hkey.
  { intros key x Hx Hin Hans. destruct (py_eqb_dict_get key x _ _ Heq Hx) as (y & Hy & Hxy).
    exists x, y. rewrite Hans, Hy. split; [|done]. rewrite !dict_get_app, Hx.
    apply elem_of_cons in Hin as [->| ->%list_elem_of_singleton]; done. }
  intros key Hin. apply elem_of_cons in Hin as [->| ->%list_elem_of_singleton].
  - eapply Hkey; [exact Ra|left|exact Ea].
  - eapply Hkey; [exact Ri|right; left|exact Ei].
Qed.

(** ** A relation that names itself *)

Lemma insert_declarations_dup (f : string * string -> declaration) t ts db :
  decl_pk (f t) ∈ map decl_pk db.(declarations) -> t ∈ ts ->
  foldM (fun db t => insert_declaration (f t) db) db ts = Err IntegrityError.
Proof.
  intros Hin Ht. revert db Hin. induction ts as [|u ts IH]; intros db Hin; [by apply elem_of_nil in Ht|].
  cbn [foldM]. cbv beta.
  destruct (insert_declaration (f u) db) as [db1|e] eqn:E; unfold insert_declaration in E.
  2: { apply result_bind_err in E as [E|(u' & _ & E)]; [|done]. destruct (existsb _ _); simpl in E; [|done].
       by injection E as <-. }
  apply result_bind_ok in E as (u' & E & Hdb). apply raise_if_ok in E. apply Ok_inj in Hdb as <-.
  rewrite bind_Ok. apply elem_of_cons in Ht as [->|Ht].
  - exfalso. apply list_elem_of_fmap in Hin as (x & Hpk & Hx). rewrite existsb_false_forall in E.
    specialize (E x Hx). unfold decl_pk in Hpk. injection Hpk as E1 E2 E3 E4.
    rewrite (proj2 (same_key_true x (f u))), <-E4, Z.eqb_refl in E by (unfold decl_key; congruence). done.
  - apply IH; [done|]. cbn [declarations]. rewrite map_app. apply elem_of_app. by left.
Qed.

(** A live relation one of whose endpoints names the relation itself can never be removed: the removal
    writes its row twice under one primary key, the insert raises and the transaction is rolled back, so
    no amendment that asks for it (and is not a replay or a preview) succeeds. *)
Theorem self_relation_never_removed db r scope sources allow identities now id current :
  r.(am_action) = remove_registration -> dict_get "kind" r.(am_payload) = Some (PStr "relation") ->
  payload_id r.(am_payload) = Ok id ->
  by_key (_latest db r.(am_project)) "relation" id = Some current ->
  is_related identities "relation" id current current = true ->
  mode_is_preview r = false -> prior_operation db r.(am_project) r.(am_operation) = None ->
  exists e, amend db r scope sources allow identities now = (Err e, db).
Proof.
  intros Hact Hk Hid Hb Hself Hm Hn.
  destruct (amend db r scope sources allow identities now) as [[a|e] db'] eqn:E;
    [|pose proof (amend_error _ _ _ _ _ _ _ _ _ _ _ E) as ->; by exists e].
  exfalso. apply amend_outcome in E as (hash & _ & Hout).
  assert (forall rv src trust, review_of float_repr sha256 db r identities src trust = Ok rv ->
    rv.(r_noop) = false /\
    rv.(r_rows) = current :: List.filter (is_related identities "relation" id current) (_latest db r.(am_project))) as Hrv.
  { intros rv src trust H. unfold review_of in H. apply result_bind_ok in H as (s & _ & H).
    rewrite Hid, bind_Ok in H. apply result_bind_ok in H as (rs & Hrs & H).
    apply result_bind_ok in H as (ps & _ & H). apply result_bind_ok in H as (dg & _ & H). apply Ok_inj in H as <-.
    cbn [r_noop r_rows]. unfold is_noop. rewrite Hact. split; [done|].
    unfold affected_rows in Hrs. rewrite Hact in Hrs. unfold removal_rows, kind_of in Hrs. rewrite Hk in Hrs.
    cbn [mbind option_bind as_str] in Hrs. rewrite Hb in Hrs. cbn [mbind option_bind] in Hrs.
    apply result_bind_ok in Hrs as (u & _ & Hrs). destruct (dict_get "version" _); [|done].
    apply result_bind_ok in Hrs as (u' & _ & Hrs). by apply Ok_inj in Hrs. }
  destruct Hout as [| | |rv db1 _ _ Hr Hno (src & trust & H) Ha|rv id' db1 _ _ Hr Hid' Hnoop (src & trust & H) Ha];
    try congruence; destruct (Hrv _ _ _ H) as [Hnn Hrows]; [congruence|].
  unfold apply_changes in Ha. apply result_bind_ok in Ha as (db2 & Hins & _).
  unfold targets in Hins. rewrite Hact, Hrows in Hins. cbn [map foldM] in Hins.
  apply result_bind_ok in Hins as (db3 & H3 & Hins).
  set (f := fun t : string * string => new_declaration r (_latest db r.(am_project)) now
    (revision_of db r.(am_project) + 1) t.1 t.2) in Hins.
  assert (foldM (fun db t => insert_declaration (f t) db) db3
    (map (fun d => (d.(d_kind), d.(d_id))) (List.filter (is_related identities "relation" id current)
       (_latest db r.(am_project)))) = Err IntegrityError) as Hdup; [|unfold f in Hdup; congruence].
  apply (insert_declarations_dup f (d_kind current, d_id current)).
  - unfold insert_declaration in H3. apply result_bind_ok in H3 as (u & _ & H3). apply Ok_inj in H3 as <-.
    cbn [declarations]. rewrite map_app. apply elem_of_app. right. left.
  - apply list_elem_of_fmap. exists current. split; [done|]. apply elem_of_list_filter.
    by apply find_some_elem in Hb as [Hb _].
Qed.

End Laws.
