(* ===== verification/MetadataSpec.v ===== *)
(** * What the metadata store promises: a versioned registry

    [registry] is the contract of project_metadata.py: per project a revision, per
    declaration its current version, content and whether it is retired, and the operations
    on record.  [serves] is its one atomic operation.  [view] forgets everything else of the
    tables (old versions, previews, invalidations, receipts), and every amendment of the
    store, successful or refused, is one operation of the registry. *)

From Stdlib Require Import ZArith SpecFloat.
From stdpp Require Import gmap strings relations.
From S2P Require Import Prelude PyValue Json Metadata MetadataProps MetadataLaws.
Import Metadata.

#[local] Open Scope string_scope.
#[local] Open Scope Z_scope.
#[local] Open Scope list_scope.

(** ** The registry *)

Definition key : Type := string * string * string.

Record entry := { en_version : Z; en_payload : pydict; en_retired : bool }.

Record registry := {
  rg_revisions : gmap string Z;
  rg_entries : gmap key entry;
  rg_operations : gmap (string * string) string
}.

Definition revision_at (g : registry) (project : string) : Z := default 0 (g.(rg_revisions) !! project).

Definition note (project op hash : string) (g : registry) : registry :=
  {| rg_revisions := g.(rg_revisions); rg_entries := g.(rg_entries);
     rg_operations := <[(project, op) := hash]> g.(rg_operations) |}.

(** The next revision of a project, with some entries changed. *)
Definition advance (project : string) (entries : gmap key entry) (g : registry) : registry :=
  {| rg_revisions := <[project := revision_at g project + 1]> g.(rg_revisions); rg_entries := entries;
     rg_operations := g.(rg_operations) |}.

Definition declare (payload : pydict) (old : option entry) : entry :=
  {| en_version := match old with Some e => e.(en_version) + 1 | None => 1 end; en_payload := payload; en_retired := false |}.

Definition retire (e : entry) : entry :=
  {| en_version := e.(en_version) + 1; en_payload := e.(en_payload); en_retired := true |}.

(** A live relation of the project one of whose ends is the declaration [(kind, id)]. *)
Definition relates (identities : list string) (project kind id : string) (target : entry) (k : key) (e : entry) : bool :=
  String.eqb k.1.1 project && String.eqb k.1.2 "relation" && negb e.(en_retired)
  && existsb (endpoint_matches identities kind id target.(en_payload) e.(en_payload)) ["source"; "target"].

(** Retires a declaration and the live relations that name it. *)
Definition retire_all (identities : list string) (project kind id : string) (target : entry) (m : gmap key entry) : gmap key entry :=
  map_imap (fun k e => Some (if bool_decide (k = (project, kind, id)) || relates identities project kind id target k e
                             then retire e else e)) m.

(** One request, answered ([true]) or refused. *)
Inductive serves (identities : list string) (r : amendment) (g : registry) : bool -> registry -> Prop :=
  | serve_refused : serves identities r g false g
  | serve_recorded hash :
      g.(rg_operations) !! (r.(am_project), r.(am_operation)) = Some hash -> serves identities r g true g
  | serve_previewed :
      mode_is_preview r = true -> revision_at g r.(am_project) = r.(am_expected) -> serves identities r g true g
  | serve_noop kind id e hash :
      g.(rg_operations) !! (r.(am_project), r.(am_operation)) = None ->
      revision_at g r.(am_project) = r.(am_expected) ->
      ACTIONS r.(am_action) = Some kind -> payload_id r.(am_payload) = Ok id ->
      g.(rg_entries) !! (r.(am_project), kind, id) = Some e -> e.(en_retired) = false ->
      py_eqb (PDict e.(en_payload)) (PDict r.(am_payload)) = true ->
      serves identities r g true (note r.(am_project) r.(am_operation) hash g)
  | serve_declared kind id hash :
      g.(rg_operations) !! (r.(am_project), r.(am_operation)) = None ->
      revision_at g r.(am_project) = r.(am_expected) ->
      ACTIONS r.(am_action) = Some kind -> payload_id r.(am_payload) = Ok id ->
      serves identities r g true
        (note r.(am_project) r.(am_operation) hash
          (advance r.(am_project)
             (<[(r.(am_project), kind, id) := declare r.(am_payload) (g.(rg_entries) !! (r.(am_project), kind, id))]> g.(rg_entries)) g))
  | serve_retired kind id e hash :
      g.(rg_operations) !! (r.(am_project), r.(am_operation)) = None ->
      revision_at g r.(am_project) = r.(am_expected) ->
      r.(am_action) = remove_registration -> dict_get "kind" r.(am_payload) = Some (PStr kind) ->
      payload_id r.(am_payload) = Ok id ->
      g.(rg_entries) !! (r.(am_project), kind, id) = Some e -> e.(en_retired) = false ->
      serves identities r g true
        (note r.(am_project) r.(am_operation) hash
          (advance r.(am_project) (retire_all identities r.(am_project) kind id e g.(rg_entries)) g)).

(** ** The store as a registry *)

Definition entry_of (d : declaration) : entry :=
  {| en_version := d.(d_version); en_payload := d.(d_payload); en_retired := d.(d_retired) |}.

Definition view (db : store) : registry := {|
  rg_revisions := list_to_map (map (fun p => (p.(pj_project), p.(pj_revision))) db.(projects));
  rg_entries := list_to_map (map (fun d => (decl_key d, entry_of d)) (List.filter (is_latest db) db.(declarations)));
  rg_operations := list_to_map (map (fun o => (op_pk o, o.(o_hash))) db.(operations))
|}.

Lemma view_revision db p : revision_at (view db) p = revision_of db p.
Proof.
  unfold revision_at, view, revision_of, project_of. cbn [rg_revisions].
  induction (projects db) as [|q l IH]; [done|]. cbn [map list_to_map foldr List.find fst snd].
  destruct (String.eqb_spec (pj_project q) p) as [<-|Hne]; [by rewrite lookup_insert_eq|].
  by rewrite lookup_insert_ne.
Qed.

Lemma view_operation db p op :
  (view db).(rg_operations) !! (p, op) = o_hash <$> prior_operation db p op.
Proof.
  unfold view, prior_operation. cbn [rg_operations].
  induction (operations db) as [|o l IH]; [done|]. cbn [map list_to_map foldr List.find fst snd]. unfold op_pk at 1.
  destruct (String.eqb_spec (o_project o) p) as [<-|Hne]; cbn [andb].
  - destruct (String.eqb_spec (o_operation o) op) as [<-|Hne]; [by rewrite lookup_insert_eq|].
    by rewrite lookup_insert_ne by congruence.
  - by rewrite lookup_insert_ne by congruence.
Qed.

Lemma view_revisions db p : (view db).(rg_revisions) !! p = pj_revision <$> project_of db p.
Proof.
  unfold view, project_of. cbn [rg_revisions]. induction (projects db) as [|q l IH]; [done|].
  cbn [map list_to_map foldr List.find fst snd]. destruct (String.eqb_spec (pj_project q) p) as [<-|Hne]; [by rewrite lookup_insert_eq|].
  by rewrite lookup_insert_ne.
Qed.

Lemma latest_keys db : NoDup (map decl_pk db.(declarations)) -> NoDup (map decl_key (List.filter (is_latest db) db.(declarations))).
Proof.
  intros Hnd. apply NoDup_fmap_2_strong.
  2: { apply NoDup_fmap_1 in Hnd. clear -Hnd. generalize (is_latest db) as p. intros p. induction Hnd as [|x l Hx _ IH]; [constructor|].
       cbn [List.filter]. destruct (p x); [|done]. constructor; [|done]. by intros [? _]%elem_of_list_filter. }
  intros x y [Hx Lx]%elem_of_list_filter [Hy Ly]%elem_of_list_filter Hk.
  unfold is_latest in Lx, Ly. rewrite forallb_forall in Lx, Ly.
  apply list_elem_of_In in Hx as Ix. apply list_elem_of_In in Hy as Iy. specialize (Lx y Iy). specialize (Ly x Ix). cbn beta in Lx, Ly.
  rewrite (proj2 (same_key_true y x) (eq_sym Hk)) in Lx. rewrite (proj2 (same_key_true x y) Hk) in Ly.
  apply Z.leb_le in Lx, Ly. apply (NoDup_map_eq decl_pk db.(declarations)); try done.
  unfold decl_pk, decl_key in *. injection Hk as -> -> ->. f_equal. lia.
Qed.

Lemma view_entry db p k i :
  store_ok db -> (view db).(rg_entries) !! (p, k, i) = entry_of <$> by_key (_latest db p) k i.
Proof.
  intros Hok. pose proof (latest_keys db (ok_declarations _ Hok)) as Hnd. unfold view. cbn [rg_entries].
  set (l := map (fun d => (decl_key d, entry_of d)) _).
  assert (NoDup l.*1) as Hl by (unfold l; rewrite <-list_fmap_compose; exact Hnd).
  destruct (by_key (_latest db p) k i) as [d|] eqn:E; cbn [fmap option_fmap option_map].
  - apply by_key_some in E as (Hd & Hk & Hm). apply elem_of_list_to_map_1; [done|]. unfold l. apply list_elem_of_fmap. exists d.
    split; [by rewrite Hk|]. apply elem_of_list_filter. split; [done|]. unfold is_latest. apply forallb_forall. intros x Hx%list_elem_of_In.
    destruct (same_key x d) eqn:Es; [|done]. apply same_key_true in Es. cbn [negb orb]. apply Z.leb_le, Hm; [done|congruence].
  - apply not_elem_of_list_to_map_1. unfold l. rewrite <-list_fmap_compose. intros (d & Ek & Hd)%list_elem_of_fmap.
    apply elem_of_list_filter in Hd as [Hd _]. apply (by_key_none _ _ _ _ E d Hd). by rewrite Ek.
Qed.

Lemma registry_eq g g' :
  g.(rg_revisions) = g'.(rg_revisions) -> g.(rg_entries) = g'.(rg_entries) -> g.(rg_operations) = g'.(rg_operations) -> g = g'.
Proof. destruct g, g'. by intros [= ->] [= ->] [= ->]. Qed.

(** ** Each amendment is one operation *)

Section Refines.
Context (float_repr : spec_float -> string) (sha256 : string -> string).
#[local] Abbreviation amend := (amend float_repr sha256).
#[local] Abbreviation outcome := (MetadataProps.outcome float_repr sha256).

Lemma view_operations db db' p op hash :
  (exists o, db'.(operations) = db.(operations) ++ [o] /\ op_pk o = (p, op) /\ o.(o_hash) = hash) ->
  prior_operation db p op = None ->
  (view db').(rg_operations) = <[(p, op) := hash]> (view db).(rg_operations).
Proof.
  intros (o & HO & Hpk & Hh) Hn. apply map_eq. intros [q k]. rewrite view_operation. unfold prior_operation in *. rewrite HO, find_app.
  unfold op_pk in Hpk. injection Hpk as H1 H2. destruct (decide ((q, k) = (p, op))) as [[= -> ->]|Hne].
  - rewrite Hn, lookup_insert_eq. cbn [List.find]. by rewrite H1, H2, !String.eqb_refl, <-Hh.
  - rewrite lookup_insert_ne by congruence. rewrite view_operation. unfold prior_operation.
    match goal with |- _ = o_hash <$> ?f => destruct f; [done|] end. cbn [List.find].
    destruct (String.eqb_spec (o_project o) q), (String.eqb_spec (o_operation o) k); cbn [andb]; [congruence|done..].
Qed.

Lemma view_revisions_next db db' project scope next :
  db'.(projects) = upsert_project (Build_project_row project scope next) db.(projects) ->
  (view db').(rg_revisions) = <[project := next]> (view db).(rg_revisions).
Proof.
  intros HP. apply map_eq. intros q. rewrite view_revisions. unfold project_of. rewrite HP, find_project_upsert. cbn [pj_project].
  destruct (String.eqb_spec project q) as [->|Hne]; [by rewrite lookup_insert_eq|].
  by rewrite lookup_insert_ne, view_revisions.
Qed.

Lemma view_noop db r hash scope rv now answer db' :
  store_ok db -> apply_noop float_repr db r hash scope rv now = Ok (answer, db') ->
  view db' = note r.(am_project) r.(am_operation) hash (view db).
Proof.
  intros Hok (_ & Hn & ->)%apply_noop_shape. apply registry_eq.
  - apply map_eq. intros p. cbn [note rg_revisions]. rewrite !view_revisions. unfold project_of. cbn [projects]. rewrite find_set_scope.
    destruct (List.find _ _); cbn; [|done]. by destruct (String.eqb _ _).
  - done.
  - apply view_operations; [|done]. eexists. by split.
Qed.

Lemma view_applied db r hash scope id rv now answer db' :
  apply_changes float_repr db r hash scope id rv now = Ok (answer, db') ->
  prior_operation db r.(am_project) r.(am_operation) = None ->
  view db' = note r.(am_project) r.(am_operation) hash (advance r.(am_project) (view db').(rg_entries) (view db)).
Proof.
  intros (_ & HP & _ & _ & HO & _)%apply_changes_shape Hn. apply registry_eq; cbn [note advance rg_revisions rg_entries rg_operations].
  - rewrite view_revision. by eapply view_revisions_next.
  - done.
  - apply view_operations; [|done]. eexists. by split.
Qed.

(** An amendment that adds or replaces a declaration. *)
Lemma view_declared db r hash scope id rv now answer db' kind :
  store_ok db -> store_ok db' -> ACTIONS r.(am_action) = Some kind ->
  apply_changes float_repr db r hash scope id rv now = Ok (answer, db') ->
  (view db').(rg_entries) =
    <[(r.(am_project), kind, id) := declare r.(am_payload) ((view db).(rg_entries) !! (r.(am_project), kind, id))]> (view db).(rg_entries).
Proof.
  intros Hok Hok' Hkind (_ & _ & HD & _)%apply_changes_shape.
  assert (r.(am_action) <> remove_registration) as Hact by (intros E; by rewrite E in Hkind).
  assert (targets r (kind_of r.(am_action) r.(am_payload)) id rv.(r_rows) = [(kind, id)]) as Ht.
  { unfold targets, kind_of. destruct (am_action r); try done; by injection Hkind as <-. }
  rewrite Ht in HD. cbn [map fst snd] in HD. set (d := new_declaration _ _ _ _ kind id) in HD.
  assert (bool_decide (r.(am_action) = remove_registration) = false) as Hb by by apply bool_decide_false.
  apply map_eq. intros [[q k] i]. rewrite view_entry by done. destruct (decide ((q, k, i) = (am_project r, kind, id))) as [[= -> -> ->]|Hne].
  - rewrite lookup_insert_eq. change kind with d.(d_kind) at 1. change id with d.(d_id) at 1. change (am_project r) with d.(d_project) at 1.
    rewrite (by_key_new db db' [d] d); [|apply (ok_declarations _ Hok')|done|left|by intros x ->%list_elem_of_singleton|done].
    rewrite view_entry by done. cbn [fmap option_fmap option_map]. unfold entry_of, declare, d, new_declaration.
    cbn [d_version d_payload d_retired]. rewrite Hb. f_equal. by destruct (by_key _ _ _).
  - rewrite lookup_insert_ne by congruence. rewrite view_entry by done. f_equal.
    eapply by_key_unchanged; [apply (ok_declarations _ Hok')|exact HD|]. intros x ->%list_elem_of_singleton.
    unfold decl_key. cbn. congruence.
Qed.

(** An amendment that retires a declaration. *)
Lemma view_retired db r scope sources allow identities now answer db' :
  store_ok db -> store_ok db' -> r.(am_action) = remove_registration ->
  amend db r scope sources allow identities now = (Ok answer, db') ->
  revision_of db' r.(am_project) <> revision_of db r.(am_project) ->
  exists kind id e, dict_get "kind" r.(am_payload) = Some (PStr kind) /\ payload_id r.(am_payload) = Ok id /\
    (view db).(rg_entries) !! (r.(am_project), kind, id) = Some e /\ e.(en_retired) = false /\
    (view db').(rg_entries) = retire_all identities r.(am_project) kind id e (view db).(rg_entries).
Proof.
  intros Hok Hok' Hact H Hne.
  destruct (removal_retires _ _ _ _ _ _ _ _ _ _ _ Hok Hact H Hne) as (kind & id & current & rows & Hk & Hid & Hc & Hr & Hrows & Hnew & Hold).
  exists kind, id, (entry_of current). do 2 (split; [done|]). split; [by rewrite view_entry, Hc|]. split; [done|].
  assert (forall row, row ∈ rows -> by_key (_latest db r.(am_project)) row.(d_kind) row.(d_id) = Some row /\ row.(d_project) = r.(am_project)) as Hself.
  { intros row Hrow. assert (row ∈ _latest db r.(am_project)) as Hl.
    { apply Hrows in Hrow as [->|[Hl _]]; [|done]. by apply find_some_elem in Hc as [Hl _]. }
    apply elem_of_latest in Hl as (Hd & Hp & Hm). split; [|done]. rewrite <-Hp.
    apply by_key_intro; [apply (ok_declarations _ Hok)|done|done]. }
  apply map_eq. intros [[q k] i]. unfold retire_all. rewrite map_lookup_imap, !view_entry by done.
  destruct (decide (Exists (fun row => decl_key row = (q, k, i)) rows)) as [Hin|Hout].
  - apply Exists_exists in Hin as (row & Hrow & Ek). destruct (Hself row Hrow) as [Hs Hp]. destruct (Hnew row Hrow) as (d & Hd & Hdr & Hdp & Hdv).
    unfold decl_key in Ek. injection Ek as E1 E2 E3. rewrite <-E2, <-E3, <-E1, Hp, Hd, Hs. cbn [fmap option_fmap option_map mbind option_bind].
    rewrite (proj2 (orb_true_iff _ _)).
    { unfold retire, entry_of. cbn. by rewrite Hdr, Hdp, Hdv. }
    apply Hrows in Hrow as [->|[_ Hrel]]; [left|right].
    + apply bool_decide_eq_true. apply by_key_some in Hc as (_ & Ek & _). unfold decl_key in Ek. by injection Ek as _ -> ->.
    + unfold is_related in Hrel. apply andb_true_iff in Hrel as [[H1 H2]%andb_true_iff H3]. unfold relates. cbn [fst snd entry_of en_retired en_payload].
      by rewrite String.eqb_refl, H1, H2.
  - rewrite (Hold q k i).
    2: { intros row Hrow E. apply Hout, Exists_exists. by exists row. }
    destruct (by_key (_latest db q) k i) as [d|] eqn:E; [|done]. cbn [fmap option_fmap option_map mbind option_bind].
    rewrite (proj2 (orb_false_iff _ _)); [done|]. assert (d ∉ rows) as Hd.
    { intros Hd. apply Hout, Exists_exists. exists d. split; [done|]. by apply by_key_some in E as (_ & ? & _). }
    split.
    + apply bool_decide_eq_false. intros [= -> -> ->]. rewrite Hc in E. injection E as ->. apply Hd, Hrows. by left.
    + apply not_true_iff_false. intros Hrel. unfold relates in Hrel. cbn [fst snd entry_of en_retired en_payload] in Hrel.
      apply andb_true_iff in Hrel as [[[H1%String.eqb_eq H2%String.eqb_eq]%andb_true_iff H3]%andb_true_iff H4]. subst q k.
      apply Hd, Hrows. right. apply find_some_elem in E as [Hl Ek]. apply andb_true_iff in Ek as [Ek _]. split; [done|].
      unfold is_related. by rewrite H3, H4, Ek.
Qed.

(** C16: The store is a versioned registry.  In a store in order, whatever is asked and whatever the sources
    say, one amendment does to revisions, current declarations and recorded operations exactly what one
    operation of the registry does: it is refused or answered from the record without effect, or, at exactly
    the expected revision and for an unrecorded operation, it notes the operation alone because the
    declaration already says this, declares the payload one version up, or retires the declaration with the
    live relations naming it; the last two at the next revision. *)
Theorem amend_refines db r scope sources allow identities now answer db' :
  store_ok db -> amend db r scope sources allow identities now = (answer, db') ->
  serves identities r (view db) (is_ok answer) (view db').
Proof.
  intros Hok H. destruct answer as [answer|x]; [|apply amend_error in H as ->; apply serve_refused].
  pose proof H as Ham. apply amend_outcome in H as (hash & _ & H). assert (store_ok db') as Hok' by (by eapply outcome_ok).
  pose proof (outcome_revision _ _ _ _ _ _ _ _ _ _ H) as Hrev.
  destruct H as [o Ho Hr|Ho Hm Hr|review Ho Hm Hr Hv|rv db1 Ho Hm Hr Hno (src & trust & Hrv) Ha|rv id db1 Ho Hm Hr Hid Hn _ Ha].
  - apply (serve_recorded _ _ _ o.(o_hash)). by rewrite view_operation, Ho.
  - apply serve_previewed; [done|by rewrite view_revision].
  - change (view _) with (view db). apply serve_previewed; [done|by rewrite view_revision].
  - rewrite (view_noop _ _ _ _ _ _ _ _ Hok Ha). unfold review_of in Hrv. apply result_bind_ok in Hrv as (s & _ & Hrv).
    apply result_bind_ok in Hrv as (id & Hid & Hrv). apply result_bind_ok in Hrv as (rows & _ & Hrv).
    apply result_bind_ok in Hrv as (ps & _ & Hrv). apply result_bind_ok in Hrv as (dg & _ & Hrv). apply Ok_inj in Hrv as <-.
    cbn [r_noop] in Hno. unfold is_noop in Hno. apply andb_true_iff in Hno as [Hact%negb_true_iff%bool_decide_eq_false Hno].
    assert (exists kind, ACTIONS r.(am_action) = Some kind /\ kind_of r.(am_action) r.(am_payload) = Some kind) as (kind & Hk & Hk').
    { unfold kind_of. destruct (am_action r); try done; by eexists. }
    rewrite Hk' in Hno. cbn [current_of mbind option_bind] in Hno.
    destruct (by_key _ kind id) as [c|] eqn:Ec; [|done]. apply andb_true_iff in Hno as [[H1%negb_true_iff _]%andb_true_iff H2].
    apply (serve_noop _ _ _ kind id (entry_of c)); try done; [by rewrite view_operation, Ho|by rewrite view_revision|by rewrite view_entry, Ec].
  - rewrite (view_applied _ _ _ _ _ _ _ _ _ Ha Ho).
    destruct (decide (r.(am_action) = remove_registration)) as [Hact|Hact].
    + destruct Hrev as [(HD & _ & Hrev)|[_ Hrev]].
      { exfalso. apply apply_changes_shape in Ha as (_ & HP & _). specialize (Hrev (am_project r)). unfold revision_of in Hrev at 1. unfold project_of in Hrev.
        rewrite HP, find_project_upsert in Hrev. cbn [pj_project] in Hrev. rewrite String.eqb_refl in Hrev. cbn in Hrev. lia. }
      destruct (view_retired _ _ _ _ _ _ _ _ _ Hok Hok' Hact Ham) as (kind & id' & e & H1 & H2 & H3 & H4 & ->).
      { rewrite Hrev, String.eqb_refl. lia. }
      apply serve_retired; try done; [by rewrite view_operation, Ho|by rewrite view_revision].
    + assert (exists kind, ACTIONS r.(am_action) = Some kind) as (kind & Hk) by (destruct (am_action r); try done; by eexists).
      rewrite (view_declared _ _ _ _ _ _ _ _ _ kind Hok Hok' Hk Ha).
      apply serve_declared; try done; [by rewrite view_operation, Ho|by rewrite view_revision].
Qed.

End Refines.

(** * The amendment store at work

    Registrations of one project: an identity, a relation that names it, a removal, a
    reviewed change; the laws of [amend] applied to them. *)

From Stdlib Require Import ZArith SpecFloat.
From S2P Require Import Prelude PyValue Json Metadata MetadataProps MetadataLaws.
Import Metadata.

#[local] Open Scope string_scope.
#[local] Open Scope Z_scope.
#[local] Open Scope list_scope.

(** ** Requests and stores *)

Definition half (_ : spec_float) : string := "0.5".
Definition same_text (s : string) : string := s.
Definition no_sources (_ : pydict) : result (list pydict) := Ok [].

Definition request_to (a : action) (op : string) (expected : Z) (payload : pydict) (mode : option string) : amendment :=
  {| am_project := "p"; am_action := a; am_intent := "because"; am_expected := expected;
     am_operation := op; am_payload := payload; am_mode := mode |}.

Definition send (db : store) (r : amendment) : result pydict * store :=
  amend half same_text db r "scope" no_sources [] ["u1"] 7.
Definition after (db : store) (r : amendment) : store := (send db r).2.

Lemma send_ok db r : is_ok (send db r).1 = true -> exists answer, amend half same_text db r "scope" no_sources [] ["u1"] 7 = (Ok answer, after db r).
Proof. unfold after, send. destruct (amend _ _ _ _ _ _ _ _ _) as [[a|x] db'] eqn:H; [|discriminate]. intros _. by exists a. Qed.

Definition endpoint (id : string) : pyval :=
  PDict [("kind", PStr "identity"); ("id", PStr id); ("project_uuid", PStr "u1")].

Definition add_a : amendment := request_to register_identity "op1" 0 [("id", PStr "a"); ("title", PStr "A")] None.
Definition add_rel : amendment :=
  request_to register_relation "op2" 1 [("id", PStr "r"); ("source", endpoint "a"); ("target", endpoint "b")] None.
Definition drop_a : amendment :=
  request_to remove_registration "op3" 2 [("kind", PStr "identity"); ("id", PStr "a"); ("version", PInt 1)] None.
Definition review_b : amendment := request_to register_identity "op4" 2 [("id", PStr "b")] (Some "preview").
Definition apply_b : amendment := request_to register_identity "op4" 2 [("id", PStr "b")] None.
Definition late_c : amendment := request_to register_identity "op9" 0 [("id", PStr "c")] None.

Definition db1 : store := after empty_store add_a.
Definition db2 : store := after db1 add_rel.

Lemma amends_after db r : amends half same_text db (after db r).
Proof.
  apply (amends_step half same_text db db r "scope" no_sources [] ["u1"] 7 (send db r).1); [constructor|].
  unfold after, send. by destruct (amend _ _ _ _ _ _ _ _ _).
Qed.

Lemma ok_after db r : store_ok db -> store_ok (after db r).
Proof. intros H. exact (amends_ok half same_text db (after db r) H (amends_after db r)). Qed.

Lemma db2_ok : store_ok db2.
Proof. apply ok_after, ok_after, empty_store_ok. Qed.

(** ** The laws, applied *)

Lemma reachable_metadata_ok_witness : reachable half same_text db1 /\ store_ok db1.
Proof.
  assert (reachable half same_text db1) as H by apply amends_after.
  split; [exact H|]. exact (reachable_metadata_ok half same_text db1 H).
Defined.

Lemma amend_compare_and_swap_witness :
  (db1.(declarations) = [] /\ db1.(invalidations) = [] /\ forall q, revision_of db1 q = 0) \/
  (0 = 0 /\ revision_of db1 "p" = 0 + 1 /\ forall q, q <> "p" -> revision_of db1 q = 0).
Proof.
  assert (is_ok (send empty_store add_a).1 = true) as Hok by (vm_compute; reflexivity).
  destruct (send_ok _ _ Hok) as [answer H].
  exact (amend_compare_and_swap half same_text _ _ _ _ _ _ _ _ _ H).
Defined.

(** A second writer that read revision 0 is refused. *)
Lemma stale_amendment_refused_witness :
  exists e, amend half same_text db2 late_c "scope" no_sources [] ["u1"] 8 = (Err e, db2).
Proof.
  assert (is_ok (send empty_store add_a).1 = true) as Hok by (vm_compute; reflexivity).
  destruct (send_ok _ _ Hok) as [answer H].
  apply (stale_amendment_refused half same_text _ _ _ _ _ _ _ _ _ db2 late_c _ _ _ _ _ H).
  - vm_compute. discriminate.
  - apply amends_after.
  - reflexivity.
  - vm_compute. discriminate.
  - vm_compute. reflexivity.
Defined.

Lemma amend_replays_witness :
  exists again, amend half same_text db2 add_a "other" no_sources [] [] 99 = (Ok again, db2) /\
    dict_get "status" again = Some (PStr "replayed").
Proof.
  assert (is_ok (send empty_store add_a).1 = true) as Hok by (vm_compute; reflexivity).
  destruct (send_ok _ _ Hok) as [answer H].
  destruct (amend_replays half same_text _ _ _ _ _ _ _ _ _ db2 "other" no_sources [] 99 H) as (again & Ha & _ & Hs & _).
  - vm_compute. reflexivity.
  - vm_compute. reflexivity.
  - apply amends_after.
  - exists again. split; [exact Ha|].
    destruct Hs as [[_ Hs]|[Hs _]]; [exact Hs|].
    assert (dict_get "status" (match (send empty_store add_a).1 with Ok a => a | Err _ => [] end) = Some (PStr "applied"))
      as Happ by (vm_compute; reflexivity).
    unfold send in Happ. rewrite H in Happ. simpl in Happ. rewrite Happ in Hs. discriminate.
Defined.

Lemma applied_is_current_witness :
  exists kind id d, by_key (_latest db2 "p") kind id = Some d /\ d.(d_payload) = add_rel.(am_payload) /\
    d.(d_retired) = false /\ d.(d_revision) = 2.
Proof.
  assert (is_ok (send db1 add_rel).1 = true) as Hok by (vm_compute; reflexivity).
  destruct (send_ok _ _ Hok) as [answer H].
  destruct (applied_is_current half same_text db1 add_rel _ _ _ _ _ _ _ (ok_after _ _ empty_store_ok)
              ltac:(discriminate) H) as (kind & id & d & _ & _ & Hd & Hp & Hr & Hv & _).
  - vm_compute. discriminate.
  - exists kind, id, d. split; [exact Hd|]. split; [exact Hp|]. split; [exact Hr|]. exact Hv.
Defined.

(** Removing "a" retires the relation that names it. *)
Lemma removal_retires_witness :
  exists (rows : list declaration) current, current ∈ rows /\
    by_key (_latest db2 "p") "identity" "a" = Some current /\
    forall row, row ∈ rows -> exists d,
      by_key (_latest (after db2 drop_a) "p") row.(d_kind) row.(d_id) = Some d /\ d.(d_retired) = true.
Proof.
  assert (is_ok (send db2 drop_a).1 = true) as Hok by (vm_compute; reflexivity).
  destruct (send_ok _ _ Hok) as [answer H].
  destruct (removal_retires half same_text db2 drop_a _ _ _ _ _ _ _ db2_ok ltac:(reflexivity) H)
    as (kind & id & current & rows & Hk & Hid & Hc & _ & Hrows & Hret & _).
  - vm_compute. discriminate.
  - injection Hk as <-. injection Hid as <-. exists rows, current.
    split; [by apply Hrows; left|]. split; [exact Hc|].
    intros row Hrow. destruct (Hret row Hrow) as (d & Hd & Hr & _). exists d. split; [exact Hd|exact Hr].
Defined.

(** The same removal as one operation of the registry: two entries retired, at revision 3. *)
Lemma amend_refines_witness :
  serves ["u1"] drop_a (view db2) true (view (after db2 drop_a)) /\
  revision_at (view (after db2 drop_a)) "p" = 3.
Proof.
  assert (is_ok (send db2 drop_a).1 = true) as Hok by (vm_compute; reflexivity).
  destruct (send_ok _ _ Hok) as [answer H]. split; [exact (amend_refines half same_text _ _ _ _ _ _ _ _ _ db2_ok H)|].
  vm_compute. reflexivity.
Defined.

Lemma preview_binds_apply_witness :
  apply_b.(am_expected) = review_b.(am_expected) /\
  exists x y, dict_get "affected" (match (send db2 review_b).1 with Ok a => a | Err _ => [] end) = Some x /\
    dict_get "affected" (match (send (after db2 review_b) apply_b).1 with Ok a => a | Err _ => [] end) = Some y /\
    py_eqb x y = true.
Proof.
  assert (is_ok (send db2 review_b).1 = true) as Hok by (vm_compute; reflexivity).
  assert (is_ok (send (after db2 review_b) apply_b).1 = true) as Hok' by (vm_compute; reflexivity).
  destruct (send_ok _ _ Hok) as [reviewed H]. destruct (send_ok _ _ Hok') as [answer H'].
  destruct (preview_binds_apply half same_text db2 review_b _ _ _ _ _ _ _
    (after db2 review_b) apply_b "scope" no_sources [] ["u1"] 7 answer (after (after db2 review_b) apply_b) H
    ltac:(vm_compute; reflexivity) ltac:(vm_compute; reflexivity) ltac:(vm_compute; reflexivity) ltac:(constructor)
    ltac:(vm_compute; reflexivity) ltac:(vm_compute; reflexivity) ltac:(vm_compute; reflexivity) H') as [He Hkeys].
  split; [exact He|]. unfold send. rewrite H, H'. apply (Hkeys "affected"). left.
Defined.
