(* ===== verification/ChildIdentity.v ===== *)
(** * One-use child identities (native_child_identity.py)

    [NativeChildCredentialIssuer] mints an opaque credential for one exact host
    request and consumes it at the first authentication.  Its two dicts are
    association lists in insertion order; each method is one step under the lock.
    Times are integers (microseconds).  The hash function and the random bytes are
    parameters; ChildCredentialUnavailable, a RuntimeError, is [RuntimeError] here. *)

From Stdlib Require Import ZArith SpecFloat.
From S2P Require Import Prelude PyValue Text Json.

#[local] Open Scope string_scope.
#[local] Open Scope Z_scope.
#[local] Open Scope list_scope.

Module Child.

Definition seconds (n : Z) : Z := n * 1000000.
Definition _PENDING_TTL_SECONDS : Z := seconds 60.
Definition _MAX_PENDING_CREDENTIALS : nat := Z.to_nat 1024.
Definition _MAX_BOUND_IDENTITIES : nat := Z.to_nat 8192.
Definition SUBJECT_TTL : Z := seconds (24 * 60 * 60).

(** A _OpaqueChildCredential. *)
Record credential := {
  c_token : string;
  c_project_id : string;
  c_binding_digest : string
}.

(** A _PendingIdentity. *)
Record pending_identity := {
  p_project_id : string;
  p_subject_id : string;
  p_binding_digest : string;
  p_expires_at : Z
}.

Record issuer := {
  pending : list (string * pending_identity);
  subjects : list (string * (string * Z))
}.

Definition initial : issuer := Build_issuer [] [].

(** ** Input checks *)

(** [_required_text]: a string is its UTF-8 bytes. *)
Definition _required_text (value : pyval) (field_name : string) (limit : nat) : result string :=
  match value with
  | PStr s =>
      _ ← raise_if (String.eqb (strip s) "" || negb (String.eqb s (strip s)))
            (RuntimeError (field_name +:+ " is invalid"));
      _ ← raise_if (limit <? String.length s)%nat (RuntimeError (field_name +:+ " is too long"));
      Ok s
  | _ => Err (RuntimeError (field_name +:+ " is invalid"))
  end.

(** [_scope_rows]: in this component [PList] is a tuple. *)
Definition scope_row (label : string) (item : pyval) : result (string * string) :=
  match item with
  | PList [a; b] =>
      x ← _required_text a label 512; y ← _required_text b label 32; Ok (x, y)
  | _ => Err (RuntimeError ("child " +:+ label +:+ " are invalid"))
  end.

Definition _scope_rows (value : pyval) (label : string) : result (list (string * string)) :=
  match value with
  | PList rows =>
      _ ← raise_if (4096 <? Z.of_nat (length rows)) (RuntimeError ("child " +:+ label +:+ " are invalid"));
      mapM_result (scope_row label) rows
  | _ => Err (RuntimeError ("child " +:+ label +:+ " are invalid"))
  end.

(** The arguments of [issue]; a scope without the attribute gives None. *)
Record request := {
  q_project_id : pyval;
  q_principal : pyval;
  q_profile : pyval;
  q_parent_attempt_id : pyval;
  q_execution_id : pyval;
  q_logical_id : pyval;
  q_scope_paths : pyval;
  q_scope_locks : pyval;
  q_actions : pyval;
  q_idempotency_key : pyval
}.

Definition check_actions (actions : pyval) : result (list string) :=
  match actions with
  | PList items =>
      _ ← raise_if (match items with [] => true | _ => false end || (128 <? Z.of_nat (length items)))
            (RuntimeError "child action set is invalid");
      ids ← mapM_result (fun a => _required_text a "action" 512) items;
      _ ← raise_if (negb (bool_decide (NoDup ids))) (RuntimeError "child action set is not unique");
      Ok ids
  | _ => Err (RuntimeError "child action set is invalid")
  end.

Definition rows_json (rows : list (string * string)) : pyval :=
  PList (map (fun r => PList [PStr r.1; PStr r.2]) rows).

(** The binding of a request, from the checks to the dict that is hashed. *)
Definition binding (q : request) : result (string * pyval) :=
  project_id ← _required_text q.(q_project_id) "project_id" 512;
  principal ← _required_text q.(q_principal) "principal" 512;
  profile ← _required_text q.(q_profile) "profile" 512;
  parent_attempt_id ← _required_text q.(q_parent_attempt_id) "parent_attempt_id" 512;
  execution_id ← _required_text q.(q_execution_id) "execution_id" 512;
  logical_id ← _required_text q.(q_logical_id) "logical_id" 512;
  idempotency_key ← _required_text q.(q_idempotency_key) "idempotency_key" 512;
  paths ← _scope_rows q.(q_scope_paths) "paths";
  locks ← _scope_rows q.(q_scope_locks) "locks";
  action_ids ← check_actions q.(q_actions);
  Ok (project_id,
      PDict [("project_id", PStr project_id); ("principal", PStr principal); ("profile", PStr profile);
             ("parent_attempt_id", PStr parent_attempt_id); ("execution_id", PStr execution_id);
             ("logical_id", PStr logical_id);
             ("scope", PDict [("paths", rows_json paths); ("locks", rows_json locks)]);
             ("actions", PList (map PStr action_ids)); ("idempotency_key", PStr idempotency_key)]).

(** ** Bounded maps *)

(** "d.pop(k, None)". *)
Definition dict_pop {A} (k : string) (d : list (string * A)) : list (string * A) :=
  List.filter (fun kv => negb (String.eqb kv.1 k)) d.

Definition _prune (st : issuer) (now : Z) : issuer :=
  {| pending := List.filter (fun kv => now <? kv.2.(p_expires_at)) st.(pending);
     subjects := List.filter (fun kv => now <? kv.2.2) st.(subjects) |}.

(** "min(self._subjects, key=...)": the first key of least expiry. *)
Fixpoint oldest (d : list (string * (string * Z))) : option (string * Z) :=
  match d with
  | [] => None
  | (k, (_, t)) :: d =>
      match oldest d with
      | Some (k', t') => if t' <? t then Some (k', t') else Some (k, t)
      | None => Some (k, t)
      end
  end.

Definition evict (d : list (string * (string * Z))) : list (string * (string * Z)) :=
  if (_MAX_BOUND_IDENTITIES <=? length d)%nat
  then match oldest d with Some (k, _) => dict_pop k d | None => d end
  else d.

(** The subject of a binding: the retained one, or a new one. *)
Definition bind_subject (st : issuer) (digest fresh : string) (now : Z) :
    string * list (string * (string * Z)) :=
  match dict_get digest st.(subjects) with
  | Some (subject, expires) =>
      if expires <=? now
      then let subject := "pc-child-" +:+ fresh in
           (subject, dict_set digest (subject, now + SUBJECT_TTL) (evict st.(subjects)))
      else (subject, st.(subjects))
  | None =>
      let subject := "pc-child-" +:+ fresh in
      (subject, dict_set digest (subject, now + SUBJECT_TTL) (evict st.(subjects)))
  end.

Section WithHash.
Context (sha256 : string -> string).

Definition binding_digest (value : pyval) : result string :=
  t ← json_dumps (fun _ => "") value; Ok (sha256 t).

(** [issue]: [token] and [fresh] are the random draws.  The pruning stays when the
    method raises. *)
Definition issue (st : issuer) (q : request) (now : Z) (token fresh : string) :
    result credential * issuer :=
  match (b ← binding q; digest ← binding_digest b.2; Ok (b.1, digest)) with
  | Err e => (Err e, st)
  | Ok (project_id, digest) =>
      let st := _prune st now in
      if (_MAX_PENDING_CREDENTIALS <=? length st.(pending))%nat
      then (Err (RuntimeError "too many pending child credentials"), st)
      else
        let '(subject, subjects) := bind_subject st digest fresh now in
        let entry := {| p_project_id := project_id; p_subject_id := subject;
                        p_binding_digest := digest; p_expires_at := now + _PENDING_TTL_SECONDS |} in
        (Ok {| c_token := token; c_project_id := project_id; c_binding_digest := digest |},
         {| pending := dict_set (sha256 token) entry st.(pending); subjects := subjects |})
  end.

(** [_authenticate]: the subject of the AuthenticatedPrincipal, or None.  [None] as
    the credential is any object of another type. *)
Definition _authenticate (st : issuer) (c : option credential) (expected_project_id : string) (now : Z) :
    option string * issuer :=
  match c with
  | None => (None, st)
  | Some c =>
      let st' := {| pending := dict_pop (sha256 c.(c_token)) st.(pending); subjects := st.(subjects) |} in
      match dict_get (sha256 c.(c_token)) st.(pending) with
      | None => (None, st')
      | Some p =>
          if (p.(p_expires_at) <=? now)
             || negb (String.eqb p.(p_project_id) expected_project_id)
             || negb (String.eqb c.(c_project_id) expected_project_id)
             || negb (String.eqb p.(p_binding_digest) c.(c_binding_digest))
          then (None, st') else (Some p.(p_subject_id), st')
      end
  end.

(** [for_project(p).authenticate]. *)
Definition for_project (project_id : pyval) : result string := _required_text project_id "project_id" 512.

(** ** Runs *)

(** The issues of a run that succeeded, newest first. *)
Record issued := {
  i_time : Z;
  i_token : string;
  i_credential : credential;
  i_subject : string
}.

Definition subject_of (st : issuer) (digest : string) : option string := fst <$> dict_get digest st.(subjects).

Inductive run : list issued -> issuer -> Prop :=
  | run_initial : run [] initial
  | run_issue tr st q now token fresh c st' subject :
      run tr st -> issue st q now token fresh = (Ok c, st') ->
      subject_of st' c.(c_binding_digest) = Some subject ->
      run (Build_issued now token c subject :: tr) st'
  | run_refused tr st q now token fresh e st' :
      run tr st -> issue st q now token fresh = (Err e, st') -> run tr st'
  | run_authenticate tr st c project now answer st' :
      run tr st -> _authenticate st c project now = (answer, st') -> run tr st'.

End WithHash.

End Child.
