(* ===== verification/ChildProps.v ===== *)
(** * One-use child identities: theorems *)

From Stdlib Require Import ZArith.
From S2P Require Import Prelude PyValue Text Json ChildIdentity.
Import Child.

#[local] Open Scope string_scope.
#[local] Open Scope Z_scope.
#[local] Open Scope list_scope.

(** ** The association lists *)

Lemma filter_keys_sub {A} (f : string * A -> bool) (d : list (string * A)) :
  NoDup d.*1 -> NoDup (List.filter f d).*1.
Proof.
  induction d as [|[k v] d IH]; csimpl; intros Hd; [constructor|].
  apply NoDup_cons in Hd as [Hk Hd]. destruct (f (k, v)); csimpl; [|auto].
  apply NoDup_cons. split; [|auto]. intros Hin. apply Hk.
  apply list_elem_of_fmap in Hin as (x & -> & Hx). apply list_elem_of_In, List.filter_In in Hx as [Hx _].
  apply list_elem_of_fmap. exists x. split; [done|by apply list_elem_of_In].
Qed.

Lemma dict_get_filter {A} (f : string * A -> bool) (d : list (string * A)) k v :
  dict_get k (List.filter f d) = Some v -> NoDup d.*1 -> dict_get k d = Some v /\ f (k, v) = true.
Proof.
  intros H Hd. apply dict_get_elem in H. apply list_elem_of_In, List.filter_In in H as [H Hf].
  apply list_elem_of_In in H. split; [by apply dict_get_NoDup|done].
Qed.

Lemma dict_get_pop_eq {A} k (d : list (string * A)) : dict_get k (dict_pop k d) = None.
Proof.
  apply dict_get_None. intros (x & -> & Hx)%list_elem_of_fmap. unfold dict_pop in Hx.
  apply list_elem_of_In, List.filter_In in Hx as [_ Hx]. by rewrite String.eqb_refl in Hx.
Qed.

Lemma dict_get_pop_ne {A} k k' (d : list (string * A)) : k <> k' -> dict_get k' (dict_pop k d) = dict_get k' d.
Proof.
  intros Hne. unfold dict_pop. induction d as [|[k2 v2] d IH]; simpl; [done|].
  destruct (String.eqb_spec k2 k) as [->|E]; simpl; [by rewrite decide_False|]. by rewrite IH.
Qed.

Lemma length_filter_le {A} (f : A -> bool) (l : list A) : (length (List.filter f l) <= length l)%nat.
Proof. apply List.filter_length_le. Qed.

Lemma length_dict_set {A} k (v : A) (d : list (string * A)) : (length (dict_set k v d) <= S (length d))%nat.
Proof. induction d as [|[k' v'] d IH]; simpl; [lia|]. case_decide; simpl; lia. Qed.

Lemma length_dict_pop {A} k (d : list (string * A)) : k ∈ d.*1 -> (S (length (dict_pop k d)) <= length d)%nat.
Proof.
  unfold dict_pop. induction d as [|[k' v] d IH]; csimpl; [by intros ?%elem_of_nil|].
  destruct (String.eqb_spec k' k) as [->|E]; simpl.
  - intros _. pose proof (length_filter_le (fun kv : string * A => negb (String.eqb kv.1 k)) d). lia.
  - intros [->|H]%elem_of_cons; [done|]. specialize (IH H). lia.
Qed.

Lemma oldest_mem d k t : oldest d = Some (k, t) -> k ∈ d.*1.
Proof.
  revert k t. induction d as [|[k' [s t']] d IH]; intros k t; csimpl; [done|].
  destruct (oldest d) as [[k2 t2]|] eqn:E.
  - destruct (t2 <? t').
    + intros [= <- <-]. right. by eapply IH.
    + intros [= <- <-]. left.
  - intros [= <- <-]. left.
Qed.

Lemma oldest_some d : d <> [] -> is_Some (oldest d).
Proof.
  destruct d as [|[k [s t]] d]; [done|]. intros _. simpl.
  destruct (oldest d) as [[k2 t2]|]; [destruct (t2 <? t)|]; by eexists.
Qed.

Lemma evict_length d : (length d <= _MAX_BOUND_IDENTITIES -> length (evict d) < _MAX_BOUND_IDENTITIES)%nat.
Proof.
  intros H. unfold evict. destruct (Nat.leb_spec _MAX_BOUND_IDENTITIES (length d)) as [Hl|Hl]; [|done].
  assert (0 < _MAX_BOUND_IDENTITIES)%nat by (unfold _MAX_BOUND_IDENTITIES; lia).
  destruct (oldest_some d) as [[k t] Ho]; [by intros ->; simpl in *; lia|].
  rewrite Ho. apply oldest_mem in Ho. apply length_dict_pop in Ho. lia.
Qed.

(** ** The invariant of a run *)

Section Runs.
Context (sha256 : string -> string).
#[local] Abbreviation issue := (issue sha256).
#[local] Abbreviation _authenticate := (_authenticate sha256).
#[local] Abbreviation run := (run sha256).

(** A pending entry records a successful issue, unexpired or not. *)
Definition recorded (tr : list issued) (k : string) (p : pending_identity) : Prop :=
  exists i, i ∈ tr /\ k = sha256 i.(i_token) /\ i.(i_credential).(c_token) = i.(i_token) /\
    i.(i_credential).(c_project_id) = p.(p_project_id) /\
    i.(i_credential).(c_binding_digest) = p.(p_binding_digest) /\
    i.(i_subject) = p.(p_subject_id) /\ p.(p_expires_at) = i.(i_time) + _PENDING_TTL_SECONDS.

Record run_ok (tr : list issued) (st : issuer) : Prop := {
  ok_pending_keys : NoDup st.(pending).*1;
  ok_subject_keys : NoDup st.(subjects).*1;
  ok_pending_bound : (length st.(pending) <= _MAX_PENDING_CREDENTIALS)%nat;
  ok_subject_bound : (length st.(subjects) <= _MAX_BOUND_IDENTITIES)%nat;
  ok_recorded : forall k p, dict_get k st.(pending) = Some p -> recorded tr k p
}.

Lemma recorded_weaken i tr k p : recorded tr k p -> recorded (i :: tr) k p.
Proof. intros (j & Hj & H). exists j. split; [by right|done]. Qed.

Lemma evict_sub d : NoDup d.*1 -> NoDup (evict d).*1.
Proof.
  intros H. unfold evict. destruct (_ <=? _)%nat; [|done]. destruct (oldest d) as [[k t]|]; [|done].
  by apply filter_keys_sub.
Qed.

Lemma bind_subject_spec st digest fresh now subject ss :
  bind_subject st digest fresh now = (subject, ss) ->
  NoDup st.(subjects).*1 -> (length st.(subjects) <= _MAX_BOUND_IDENTITIES)%nat ->
  NoDup ss.*1 /\ (length ss <= _MAX_BOUND_IDENTITIES)%nat /\ fst <$> dict_get digest ss = Some subject.
Proof.
  intros H Hn Hl.
  assert (forall s, NoDup (dict_set digest s (evict st.(subjects))).*1 /\
    (length (dict_set digest s (evict st.(subjects))) <= _MAX_BOUND_IDENTITIES)%nat) as Hset.
  { intros s. split; [by apply dict_set_NoDup, evict_sub|].
    pose proof (evict_length _ Hl). pose proof (length_dict_set digest s (evict st.(subjects))). lia. }
  unfold bind_subject in H. destruct (dict_get digest st.(subjects)) as [[s t]|] eqn:E.
  - destruct (t <=? now); injection H as <- <-.
    + destruct (Hset ("pc-child-" +:+ fresh, now + SUBJECT_TTL)). by rewrite dict_get_set_eq.
    + by rewrite E.
  - injection H as <- <-. destruct (Hset ("pc-child-" +:+ fresh, now + SUBJECT_TTL)). by rewrite dict_get_set_eq.
Qed.

Lemma prune_ok tr st now : run_ok tr st -> run_ok tr (_prune st now).
Proof.
  intros [H1 H2 H3 H4 H5]. constructor; simpl.
  - by apply filter_keys_sub.
  - by apply filter_keys_sub.
  - etransitivity; [apply length_filter_le|done].
  - etransitivity; [apply length_filter_le|done].
  - intros k p Hk. apply dict_get_filter in Hk as [Hk _]; auto.
Qed.

(** The state after a call to [issue], by cases. *)
Lemma issue_cases st q now token fresh answer st' :
  issue st q now token fresh = (answer, st') ->
  (exists e, answer = Err e /\ (st' = st \/ st' = _prune st now)) \/
  exists project digest subject ss,
    answer = Ok (Build_credential token project digest) /\
    (length (_prune st now).(pending) < _MAX_PENDING_CREDENTIALS)%nat /\
    bind_subject (_prune st now) digest fresh now = (subject, ss) /\
    st' = Build_issuer (dict_set (sha256 token)
            (Build_pending_identity project subject digest (now + _PENDING_TTL_SECONDS))
            (_prune st now).(pending)) ss.
Proof.
  unfold Child.issue. destruct (_ ≫= _) as [[project digest]|e].
  2: { intros [= <- <-]. left. eauto. }
  destruct (Nat.leb_spec _MAX_PENDING_CREDENTIALS (length (_prune st now).(pending))) as [Hl|Hl].
  { intros [= <- <-]. left. eauto. }
  destruct (bind_subject _ _ _ _) as [subject ss] eqn:E. intros [= <- <-]. right.
  exists project, digest, subject, ss. auto.
Qed.

Lemma authenticate_state st c project now answer st' :
  _authenticate st c project now = (answer, st') ->
  st' = st \/ exists c', c = Some c' /\ st' = Build_issuer (dict_pop (sha256 c'.(c_token)) st.(pending)) st.(subjects).
Proof.
  unfold Child._authenticate. destruct c as [c|]; [|intros [= _ <-]; by left].
  intros H. right. exists c. split; [done|].
  destruct (dict_get _ _); [destruct (_ || _)|]; by injection H.
Qed.

Lemma run_run_ok tr st : run tr st -> run_ok tr st.
Proof.
  intros H. induction H as [|tr st q now token fresh c st' subject _ IH Hi Hs|tr st q now token fresh e st' _ IH Hi|tr st c project now answer st' _ IH Ha].
  - constructor; simpl; try constructor; try (unfold _MAX_PENDING_CREDENTIALS, _MAX_BOUND_IDENTITIES; lia). done.
  - apply issue_cases in Hi as [(e & He & _)|(project & digest & sub & ss & Hc & Hl & Hb & ->)]; [done|].
    injection Hc as ->. pose proof (prune_ok _ _ now IH) as [H1 H2 H3 H4 H5].
    destruct (bind_subject_spec _ _ _ _ _ _ Hb H2 H4) as (S1 & S2 & S3).
    unfold subject_of in Hs. cbn [subjects c_binding_digest] in Hs. rewrite S3 in Hs. injection Hs as <-.
    constructor; simpl; try done.
    + by apply dict_set_NoDup.
    + pose proof (length_dict_set (sha256 token) (Build_pending_identity project sub digest (now + _PENDING_TTL_SECONDS)) (_prune st now).(pending)).
      cbn [pending _prune] in *. lia.
    + intros k p Hk. destruct (decide (k = sha256 token)) as [->|Hne].
      * rewrite dict_get_set_eq in Hk. injection Hk as <-. eexists. split; [left|]. simpl. done.
      * rewrite dict_get_set_ne in Hk by done. by apply recorded_weaken, H5.
  - apply issue_cases in Hi as [(e' & _ & [->| ->])|(? & ? & ? & ? & ? & _)]; [done|by apply prune_ok|done].
  - apply authenticate_state in Ha as [->|(c' & _ & ->)]; [done|]. destruct IH as [H1 H2 H3 H4 H5].
    constructor; simpl; try done.
    + by apply filter_keys_sub.
    + etransitivity; [apply length_filter_le|done].
    + intros k p Hk. apply dict_get_filter in Hk as [Hk _]; auto.
Qed.

(** In every run the issuer holds at most 1024 pending credentials and 8192 bound identities, each
    under its own key, and every pending credential was issued. *)
Theorem issuer_bounded tr st :
  run tr st ->
  Z.of_nat (length st.(pending)) <= 1024 /\ Z.of_nat (length st.(subjects)) <= 8192 /\
  NoDup st.(pending).*1 /\ NoDup st.(subjects).*1 /\
  forall k p, dict_get k st.(pending) = Some p -> recorded tr k p.
Proof.
  intros [H1 H2 H3 H4 H5]%run_run_ok. unfold _MAX_PENDING_CREDENTIALS, _MAX_BOUND_IDENTITIES in *.
  repeat split; try done; lia.
Qed.

(** C29: An authenticated child was issued.  If a credential authenticates, some earlier issue of the run
    produced it: for the same project, with the same binding and the same token (up to the hash), at most
    60 seconds before, and the answer is the subject that issue bound. *)
Theorem authenticate_sound tr st c project now subject st' :
  run tr st -> _authenticate st (Some c) project now = (Some subject, st') ->
  exists i, i ∈ tr /\ sha256 i.(i_token) = sha256 c.(c_token) /\
    i.(i_credential).(c_project_id) = project /\ c.(c_project_id) = project /\
    i.(i_credential).(c_binding_digest) = c.(c_binding_digest) /\
    i.(i_subject) = subject /\ now < i.(i_time) + _PENDING_TTL_SECONDS.
Proof.
  intros Hrun%run_run_ok H. unfold Child._authenticate in H.
  destruct (dict_get _ _) as [p|] eqn:E; [|discriminate]. destruct (_ || _) eqn:Eb; [discriminate|].
  injection H as <- _. apply orb_false_iff in Eb as [Eb E4]. apply orb_false_iff in Eb as [Eb E3].
  apply orb_false_iff in Eb as [E1 E2]. apply Z.leb_gt in E1.
  apply negb_false_iff, String.eqb_eq in E2, E3, E4.
  apply (ok_recorded _ _ Hrun) in E as (i & Hi & Hk & _ & A & B & C & D).
  exists i. repeat split; try done; try congruence; lia.
Qed.

(** One use.  After a credential was presented once, whatever the answer, it never authenticates
    again, in any continuation of the run in which no later issue draws a token with the same hash. *)
Theorem authenticate_once st c project now answer st1 st2 project' now' :
  _authenticate st (Some c) project now = (answer, st1) ->
  rtc (fun a b => (exists q t token fresh r, sha256 token <> sha256 c.(c_token) /\ issue a q t token fresh = (r, b)) \/
                  (exists c' p t r, _authenticate a c' p t = (r, b))) st1 st2 ->
  fst (_authenticate st2 (Some c) project' now') = None.
Proof.
  intros H Hs.
  assert (dict_get (sha256 c.(c_token)) st1.(pending) = None) as Hn.
  { unfold Child._authenticate in H.
    assert (st1.(pending) = dict_pop (sha256 c.(c_token)) st.(pending)) as ->.
    { destruct (dict_get _ _); [destruct (_ || _)|]; injection H as _ <-; done. }
    apply dict_get_pop_eq. }
  clear H. induction Hs as [st1|a b st2 Hstep _ IH].
  { unfold Child._authenticate. by rewrite Hn. }
  assert (forall f : string * pending_identity -> bool, dict_get (sha256 c.(c_token)) (List.filter f a.(pending)) = None) as Hf.
  { intros f. apply dict_get_None. apply dict_get_None in Hn. intros Hin. apply Hn.
    apply list_elem_of_fmap in Hin as (x & -> & Hx). apply list_elem_of_In, List.filter_In in Hx as [Hx _].
    apply list_elem_of_fmap. exists x. split; [done|by apply list_elem_of_In]. }
  apply IH. destruct Hstep as [(q & t & token & fresh & r & Hne & Hi)|(c' & p & t & r & Ha)].
  - apply issue_cases in Hi as [(e & _ & [->| ->])|(pr & dg & sub & ss & _ & _ & _ & ->)]; [done|apply Hf|].
    simpl. rewrite dict_get_set_ne by done. apply Hf.
  - apply authenticate_state in Ha as [->|(c2 & _ & ->)]; [done|]. apply Hf.
Qed.

(** A fresh credential works.  Presented to its own project within its minute, before any other use of
    its token, an issued credential authenticates as the subject bound to the request's binding. *)
Theorem issue_then_authenticate tr st q now token fresh c st1 now' :
  run tr st ->
  issue st q now token fresh = (Ok c, st1) -> now' < now + _PENDING_TTL_SECONDS ->
  exists subject, subject_of st1 c.(c_binding_digest) = Some subject /\
    fst (_authenticate st1 (Some c) c.(c_project_id) now') = Some subject.
Proof.
  intros Hok%run_run_ok H Hnow. apply issue_cases in H as [(e & [=] & _)|(pr & dg & sub & ss & [= ->] & _ & Hb & ->)].
  destruct Hok as [_ H2 _ H4 _].
  destruct (bind_subject_spec _ _ _ _ _ _ Hb) as (_ & _ & S3).
  - by apply filter_keys_sub.
  - etransitivity; [apply length_filter_le|done].
  - exists sub. split; [done|]. unfold Child._authenticate. simpl. rewrite dict_get_set_eq.
    cbn [p_expires_at p_project_id p_binding_digest p_subject_id]. rewrite !String.eqb_refl.
    by rewrite (proj2 (Z.leb_gt _ _)) by lia.
Qed.

(** Same binding, same child.  While a binding's identity is retained (24 hours, unless evicted at
    8192 identities), issuing it again mints a new credential for the same subject. *)
Theorem issue_stable_subject st q now token fresh c st1 subject expires :
  issue st q now token fresh = (Ok c, st1) ->
  dict_get c.(c_binding_digest) st.(subjects) = Some (subject, expires) -> now < expires ->
  NoDup st.(subjects).*1 ->
  dict_get c.(c_binding_digest) st1.(subjects) = Some (subject, expires).
Proof.
  intros H Hs Hnow Hn. apply issue_cases in H as [(e & [=] & _)|(pr & dg & sub & ss & [= ->] & _ & Hb & ->)].
  cbn [c_binding_digest] in *. unfold bind_subject in Hb.
  assert (dict_get dg (_prune st now).(subjects) = Some (subject, expires)) as Hp.
  { simpl. apply dict_get_NoDup; [by apply filter_keys_sub|]. apply list_elem_of_In, List.filter_In.
    split; [apply list_elem_of_In; by apply dict_get_elem|]. by apply Z.ltb_lt. }
  rewrite Hp, (proj2 (Z.leb_gt _ _)) in Hb by lia. by injection Hb as _ <-.
Qed.

End Runs.

(** * Child identities at work: one credential issued, presented, presented again. *)

From Stdlib Require Import ZArith.
From stdpp Require Import relations.
From S2P Require Import Prelude PyValue Text Json ChildIdentity.
Import Child.

#[local] Open Scope string_scope.
#[local] Open Scope Z_scope.
#[local] Open Scope list_scope.

Definition text_hash (s : string) : string := s.

Definition ask : request :=
  {| q_project_id := PStr "p"; q_principal := PStr "alice"; q_profile := PStr "coder";
     q_parent_attempt_id := PStr "a1"; q_execution_id := PStr "e1"; q_logical_id := PStr "l1";
     q_scope_paths := PList [PList [PStr "src"; PStr "rw"]]; q_scope_locks := PList [];
     q_actions := PList [PStr "edit"]; q_idempotency_key := PStr "k1" |}.

Definition first_issue : result credential * issuer := issue text_hash initial ask (seconds 10) "tok" "s1".
Definition st1 : issuer := first_issue.2.

Lemma first_issue_ok :
  exists c subject, issue text_hash initial ask (seconds 10) "tok" "s1" = (Ok c, st1) /\
    c.(c_token) = "tok" /\ c.(c_project_id) = "p" /\ subject_of st1 c.(c_binding_digest) = Some subject /\
    run text_hash [Build_issued (seconds 10) "tok" c subject] st1.
Proof.
  unfold st1, first_issue.
  destruct (issue text_hash initial ask (seconds 10) "tok" "s1") as [[c|x] st] eqn:H; [|vm_compute in H; discriminate].
  exists c, "pc-child-s1". simpl.
  assert (c.(c_token) = "tok" /\ c.(c_project_id) = "p" /\ subject_of st c.(c_binding_digest) = Some "pc-child-s1")
    as (Ht & Hp & Hs) by (vm_compute in H; injection H as <- <-; by vm_compute).
  split; [done|]. do 3 (split; [done|]). eapply run_issue; [constructor|exact H|exact Hs].
Qed.

Definition present (st : issuer) (c : credential) (now : Z) : option string * issuer :=
  _authenticate text_hash st (Some c) "p" now.

Lemma issue_then_authenticate_witness :
  exists c subject, first_issue.1 = Ok c /\ fst (_authenticate text_hash st1 (Some c) c.(c_project_id) (seconds 20)) = Some subject.
Proof.
  destruct first_issue_ok as (c & subject & H & _). exists c.
  destruct (issue_then_authenticate text_hash [] initial ask (seconds 10) "tok" "s1" c st1 (seconds 20)
              ltac:(constructor) H ltac:(vm_compute; reflexivity)) as (s & _ & Hs).
  exists s. split; [|exact Hs]. unfold first_issue. by rewrite H.
Defined.

(** The credential the issuer minted, as a value. *)
Definition minted : credential :=
  match first_issue.1 with Ok c => c | Err _ => {| c_token := ""; c_project_id := ""; c_binding_digest := "" |} end.

Lemma authenticate_sound_witness :
  exists subject st2, _authenticate text_hash st1 (Some minted) "p" (seconds 20) = (Some subject, st2) /\
    exists tr i, run text_hash tr st1 /\ i ∈ tr /\ i.(i_subject) = subject.
Proof.
  destruct first_issue_ok as (c & subject & H & _ & _ & _ & Hrun).
  destruct (_authenticate text_hash st1 (Some minted) "p" (seconds 20)) as [[s|] st2] eqn:Ha;
    [|vm_compute in Ha; discriminate].
  exists s, st2. split; [done|].
  destruct (authenticate_sound text_hash _ _ _ _ _ _ _ Hrun Ha) as (i & Hi & _ & _ & _ & _ & Hs & _).
  eexists _, i. split; [exact Hrun|]. split; [exact Hi|exact Hs].
Defined.

Lemma authenticate_once_witness :
  fst (_authenticate text_hash (present st1 minted (seconds 20)).2 (Some minted) "p" (seconds 21)) = None.
Proof.
  apply (authenticate_once text_hash st1 minted "p" (seconds 20) (present st1 minted (seconds 20)).1
           (present st1 minted (seconds 20)).2); [|apply rtc_refl].
  unfold present. by destruct (_authenticate _ _ _ _ _).
Defined.
