(* ===== verification/Preledger.v ===== *)
(** * Pre-ledger compiler (preledger.py)

    [compile_preledger] reads a directory of files and lowers the task records of one
    repository to a native plan.  The file system is a [directory]: what is_dir, resolve,
    is_file and the reads of the code answer for a path under its root.  [open_package]
    finds the files, checks the manifest and computes the digest of the semantic files from
    their bytes; [compile_package] is the rest.  A file is read where the code first uses
    it, so a [package] holds the result of each read.

    A string is its UTF-8 bytes.  PreledgerError, a ValueError, is [ValueError] with the
    fixed part of its message; the repr of a value in a warning is the parameter [py_repr],
    hashlib's sha256().hexdigest() the parameter [sha256].  A file that is not UTF-8 is
    refused before any of it is looked at; a lone surrogate of a JSON file keeps its three
    bytes in the plan, which the code's encode refuses. *)

From Stdlib Require Import ZArith SpecFloat.
From stdpp Require Import pretty.
From S2P Require Import Prelude PyValue Text Json JsonParse.

#[local] Open Scope string_scope.
#[local] Open Scope Z_scope.
#[local] Open Scope list_scope.

Module Preledger.

Definition PRELEDGER_FORMAT : string := "project-control-preledger".
Definition PRELEDGER_SCHEMA_VERSION : Z := 1.
Definition NATIVE_TODO_PLAN_SCHEMA_VERSION : Z := 2.
Definition COMPILER_VERSION : Z := 2.

Definition _TASK_KINDS : list string :=
  ["epic"; "workstream"; "task"; "integration"; "integration_task"; "validation"; "validation_task"].

Definition _PROVENANCE_FIELDS : list string :=
  ["workstream"; "biological_motivation"; "compiler_architectural_reason"; "implementation_mechanism";
   "invariants"; "forbidden_shortcuts"; "validation"; "performance_evidence"; "completion_condition";
   "experimental"; "negative_result_acceptable"].

(** "^[A-Za-z0-9][A-Za-z0-9._:-]*$". *)
Definition is_alnum (c : Ascii.ascii) : bool := is_digit c || in_range 65 90 c || in_range 97 122 c.
Definition id_char (c : Ascii.ascii) : bool :=
  is_alnum c || bool_decide (code c ∈ [46; 95; 58; 45]%nat).
Definition _TASK_ID (s : string) : bool :=
  match s with String c s => is_alnum c && all_chars id_char s | EmptyString => false end.

(** ** Reading records *)

Fixpoint all_dicts (l : list pyval) : option (list pydict) :=
  match l with
  | [] => Some []
  | PDict d :: l => cons d <$> all_dicts l
  | _ => None
  end.

(** The first of [keys] that the dict has, with its value. *)
Definition first_key (keys : list string) (d : pydict) : option pyval :=
  head (omap (fun k => dict_get k d) keys).

Definition _records (value : pyval) (keys : list string) (label : string) : result (list pydict) :=
  let records := match value with
                 | PList l => Some l
                 | PDict d => match first_key keys d with Some (PList l) => Some l | _ => None end
                 | _ => None
                 end in
  match records with
  | None => Err (ValueError (label +:+ " must be an array"))
  | Some l =>
      match all_dicts l with
      | None => Err (ValueError (label +:+ " records must be JSON objects"))
      | Some ds => Ok ds
      end
  end.

Definition _nonempty_string (record : pydict) (field : string) : result string :=
  match dict_get field record with
  | Some (PStr s) => if String.eqb (strip s) "" then Err (ValueError ("task requires non-empty " +:+ field))
                     else Ok (strip s)
  | _ => Err (ValueError ("task requires non-empty " +:+ field))
  end.

Fixpoint _flatten_strings (value : pyval) : list string :=
  match value with
  | PStr s => [s]
  | PList l => concat (map _flatten_strings l)
  | _ => []
  end.

Definition field (key : string) (record : pydict) : pyval := dict_get_default key PNone record.

Definition _scope_paths (value : pyval) (keys : list string) : list string :=
  match value with
  | PDict d => concat (map (fun key => _flatten_strings (field key d)) keys)
  | _ => _flatten_strings value
  end.

Definition proposed : string := "[proposed] ".

(** The body of the loop of [_clean_paths]. *)
Definition clean_path (value : string) : option string :=
  let normalized := strip value in
  let normalized := if starts_with proposed normalized
                    then strip (drop_str (String.length proposed) normalized) else normalized in
  if String.eqb normalized "" then None else Some normalized.

Definition _clean_paths (values : list string) : list string := sorted_set (omap clean_path values).

Definition _explicit_source_paths (values : list string) : list string :=
  _clean_paths (List.filter (fun value => negb (String.eqb (strip value) "")
                                          && negb (any_char is_space (remove_first proposed value))) values).

(** [_dependency_ids]; the inner search is "for key in (...): if key in value". *)
Fixpoint _dependency_ids (value : pyval) : list string :=
  match value with
  | PStr s => if String.eqb (strip s) "" then [] else [strip s]
  | PList l => concat (map _dependency_ids l)
  | PDict d =>
      let at_key := fix at_key (key : string) (d : list (string * pyval)) : option (list string) :=
        match d with
        | [] => None
        | (k, v) :: d => if decide (key = k) then Some (_dependency_ids v) else at_key key d
        end in
      default [] (head (omap (fun key => at_key key d)
                         ["task_id"; "prerequisite_task_id"; "checkpoint_id"; "id"]))
  | _ => []
  end.

Definition _produced_checkpoints (task : pydict) : list string :=
  match field "produces_checkpoint" task with
  | PBool _ | PNone => []
  | value => _dependency_ids value
  end.

(** ** CSV indexes: the header and the rows of csv.DictReader *)

Record table := {
  t_fieldnames : option (list string);
  t_rows : list (list (string * option string))
}.

(** "dict(zip(fieldnames, row))"; then None for the fields the row does not reach. *)
Definition dict_row (fields row : list string) : list (string * option string) :=
  foldl (fun d e => dict_set e.1 e.2 d) []
    (zip fields (map Some row ++ repeat None (length fields - length row))).

(** The first record is the header; blank records after it are skipped. *)
Definition dict_reader (records : list (list string)) : table :=
  match records with
  | [] => {| t_fieldnames := None; t_rows := [] |}
  | fields :: rows =>
      {| t_fieldnames := Some fields;
         t_rows := map (dict_row fields) (List.filter (fun row => match row with [] => false | _ => true end) rows) |}
  end.

(** "next((name for name in names if name in fields), None)". *)
Definition pick (names fields : list string) : option string :=
  head (List.filter (fun name => bool_decide (name ∈ fields)) names).

Definition column_pairs : list (list string * list string) :=
  [(["task_id"; "dependent_task_id"; "consumer_task_id"; "consumer_task"],
    ["prerequisite_task_id"; "dependency_id"; "depends_on"; "producer_task"]);
   (["to_task_id"; "target_task_id"; "to_id"], ["from_task_id"; "source_task_id"; "from_id"])].

Definition columns (fields : list string) : option (string * string) :=
  head (omap (fun '(ls, rs) => l ← pick ls fields; r ← pick rs fields; Some (l, r)) column_pairs).

(** One row: both cells, stripped, not empty. *)
Definition csv_pair (dependent_column prerequisite_column message : string) (row : list (string * option string)) :
    result (string * string) :=
  let dependent := strip (default "" (mjoin (dict_get dependent_column row))) in
  let prerequisite := strip (default "" (mjoin (dict_get prerequisite_column row))) in
  _ ← raise_if (String.eqb dependent "" || String.eqb prerequisite "") (ValueError message);
  Ok (dependent, prerequisite).

Definition header (t : table) : list string := default [] t.(t_fieldnames).

Definition _csv_dependencies (t : table) : result (list (string * string) * bool) :=
  _ ← raise_if (match header t with [] => true | _ => false end)
        (ValueError "dependency index has no header");
  match columns (header t) with
  | None => Err (ValueError "unsupported dependency index columns")
  | Some (dependent_column, prerequisite_column) =>
      rows ← mapM_result (csv_pair dependent_column prerequisite_column "empty dependency") t.(t_rows);
      Ok (rows, String.eqb dependent_column "consumer_task" && String.eqb prerequisite_column "producer_task")
  end.

Definition _csv_external_dependencies (t : table) : result (list (string * string)) :=
  _ ← raise_if (negb (bool_decide ("checkpoint_interface_or_receipt" ∈ header t))
                || negb (bool_decide ("consumer_task" ∈ header t)))
        (ValueError "unsupported external dependency columns");
  mapM_result (csv_pair "consumer_task" "checkpoint_interface_or_receipt" "empty external dependency") t.(t_rows).

(** ** Interfaces *)

Record interface := {
  if_id : string;
  if_owner_task_id : string;
  if_state : string;
  if_version : string;
  if_contract_paths : list string;
  if_content_hash : string
}.

(** A string field that strips to something, unstripped. *)
Definition text_field (key : string) (record : pydict) : option string :=
  match dict_get key record with
  | Some (PStr s) => if String.eqb (strip s) "" then None else Some s
  | _ => None
  end.

(** "isinstance(version, (str, int)) and not isinstance(version, bool)"; then "str(version)". *)
Definition version_text (v : pyval) : option string :=
  match v with PStr s => Some s | PInt z => Some (pretty z) | _ => None end.

Definition path_texts (v : pyval) : option (list string) :=
  match v with
  | PList (x :: l) =>
      paths ← all_strs (x :: l);
      if existsb (fun p => String.eqb (strip p) "") paths then None else Some paths
  | _ => None
  end.

Definition _lower_interface (record : pydict) (selected_ids : list string) : option interface :=
  id ← text_field "id" record;
  owner ← text_field "owner_task_id" record;
  state ← text_field "state" record;
  content_hash ← text_field "content_hash" record;
  if negb (bool_decide (owner ∈ selected_ids)) then None
  else
    paths ← dict_get "contract_paths" record ≫= path_texts;
    version ← dict_get "version" record ≫= version_text;
    Some {| if_id := strip id; if_owner_task_id := strip owner; if_state := strip state;
            if_version := version; if_contract_paths := _clean_paths paths;
            if_content_hash := strip content_hash |}.

(** ** The task table *)

Record task_table := {
  by_id : list (string * pydict);
  repository_by_id : list (string * string);
  checkpoint_owner : list (string * string)
}.

(** "for checkpoint in _produced_checkpoints(task)". *)
Definition own_checkpoint (task_id : string) (owners : list (string * string)) (checkpoint : string) :
    result (list (string * string)) :=
  _ ← raise_if (match dict_get checkpoint owners with
                | Some owner => negb (String.eqb owner task_id)
                | None => false
                end) (ValueError "duplicate produced checkpoint id");
  Ok (dict_set checkpoint task_id owners).

Definition add_task (tt : task_table) (task : pydict) : result task_table :=
  task_id ← _nonempty_string task "id";
  _ ← raise_if (negb (_TASK_ID task_id)) (ValueError "task has malformed id");
  _ ← raise_if (dict_mem task_id tt.(by_id)) (ValueError "duplicate task id");
  _ ← _nonempty_string task "title";
  repository ← _nonempty_string task "repository";
  owners ← foldM (own_checkpoint task_id) tt.(checkpoint_owner) (_produced_checkpoints task);
  Ok {| by_id := dict_set task_id task tt.(by_id);
        repository_by_id := dict_set task_id repository tt.(repository_by_id);
        checkpoint_owner := owners |}.

Definition read_tasks (tasks : list pydict) : result task_table :=
  foldM add_task (Build_task_table [] [] []) tasks.

Definition selected (tt : task_table) (target : string) : list string :=
  map fst (List.filter (fun '(_, repository) => String.eqb repository target) tt.(repository_by_id)).

(** ** Dependencies *)

Abbreviation dep_pair := (string * string)%type.

(** dependency_pairs: the sources that state each (dependent, prerequisite). *)
Abbreviation pair_map := (list (dep_pair * list string)).

(** "dependency_pairs.setdefault(p, set()).add(source)". *)
Definition add_pair (source : string) (m : pair_map) (p : dep_pair) : pair_map :=
  dict_set p (default [] (dict_get p m) ++ [source]) m.

Definition dependency_fields : list string := ["builds_on"; "prerequisite_tasks_or_checkpoints"; "prerequisites"].

Definition task_pairs (tt : task_table) : pair_map :=
  foldl (fun m '(task_id, task) =>
    foldl (fun m fld => foldl (add_pair fld) m (map (pair task_id) (_dependency_ids (field fld task))))
      m dependency_fields) [] tt.(by_id).

(** The last loop of each index: a pair not seen yet is a warning. *)
Definition supplement (warning source : string) (st : pair_map * list string) (p : dep_pair) : pair_map * list string :=
  let '(m, warnings) := st in
  (add_pair source m p,
   if dict_mem p m then warnings else warnings ++ [warning +:+ p.1 +:+ " -> " +:+ p.2]).

(** Equality of two sets of pairs. *)
Definition same_set (a b : list dep_pair) : bool :=
  forallb (fun p => bool_decide (p ∈ b)) a && forallb (fun p => bool_decide (p ∈ a)) b.

Definition merge_index (tt : task_table) (m : pair_map) (index : option (result table)) :
    result (pair_map * list string) :=
  match index with
  | None => Ok (m, [])
  | Some file =>
      t ← file;
      '(indexed, complete) ← _csv_dependencies t;
      let task_local := List.filter (fun p => dict_mem p.1 tt.(by_id) && dict_mem p.2 tt.(by_id)) m.*1 in
      _ ← raise_if (complete && negb (same_set indexed task_local))
            (ValueError "dependency index disagrees with task-local prerequisites");
      Ok (foldl (supplement "dependency index supplemented task-local dependencies: " "dependency_edges.csv")
            (m, []) indexed)
  end.

Definition merge_external (m : pair_map) (index : option (result table)) : result (pair_map * list string) :=
  match index with
  | None => Ok (m, [])
  | Some file =>
      t ← file;
      indexed ← _csv_external_dependencies t;
      let receipts := List.filter (fun p => starts_with "receipt:" p.2) m.*1 in
      _ ← raise_if (negb (same_set indexed receipts))
            (ValueError "external dependency index disagrees with task-local receipts");
      Ok (foldl (supplement "external dependency index supplemented task-local dependencies: "
                   "external_dependency_receipts.csv") (m, []) indexed)
  end.

(** "sorted(dependency_pairs.items())": the keys are distinct, so they decide. *)
Definition pair_le (a b : dep_pair * list string) : Prop :=
  a.1.1 <> b.1.1 /\ String.le a.1.1 b.1.1 \/ a.1.1 = b.1.1 /\ String.le a.1.2 b.1.2.
#[export] Instance pair_le_dec : RelDecision pair_le.
Proof. intros a b. unfold pair_le. apply _. Defined.

Inductive dependency :=
  | task_dependency (task_id : string)
  | checkpoint_dependency (checkpoint_id : string).

#[export] Instance dependency_eq_dec : EqDecision dependency.
Proof. solve_decision. Defined.

Record external := {
  x_task_id : string;
  x_dependency_id : string;
  x_repository : option string;
  x_source : list string
}.

Record classified := {
  native : list (string * dependency);   (* native_dependencies, in the order of the appends *)
  externals : list external
}.

Definition classify_one (tt : task_table) (target : string) (acc : classified) (e : dep_pair * list string) :
    result classified :=
  let '((dependent, prerequisite), sources) := e in
  _ ← raise_if (negb (dict_mem dependent tt.(by_id))) (ValueError "dependency names unknown consumer task");
  if negb (bool_decide (dependent ∈ selected tt target)) then Ok acc
  else if bool_decide (prerequisite ∈ selected tt target)
  then Ok {| native := acc.(native) ++ [(dependent, task_dependency prerequisite)]; externals := acc.(externals) |}
  else
    match dict_get prerequisite tt.(checkpoint_owner) with
    | Some owner =>
        if bool_decide (owner ∈ selected tt target)
        then Ok {| native := acc.(native) ++ [(dependent, checkpoint_dependency prerequisite)];
                   externals := acc.(externals) |}
        else Ok {| native := acc.(native);
                   externals := acc.(externals) ++
                     [{| x_task_id := dependent; x_dependency_id := prerequisite;
                         x_repository := dict_get owner tt.(repository_by_id);
                         x_source := sorted_set sources |}] |}
    | None =>
        Ok {| native := acc.(native);
              externals := acc.(externals) ++
                [{| x_task_id := dependent; x_dependency_id := prerequisite;
                    x_repository := dict_get (removeprefix "receipt:" prerequisite) tt.(repository_by_id);
                    x_source := sorted_set sources |}] |}
    end.

Definition classify (tt : task_table) (target : string) (m : pair_map) : result classified :=
  foldM (classify_one tt target) (Build_classified [] []) (merge_sort pair_le m).

(** ** Lowering *)

(** "v not in (None, <the empty string>, [], {})". *)
Definition present (v : pyval) : bool :=
  negb (existsb (py_eqb v) [PNone; PStr ""; PList []; PDict []]).

(** "if source_field in source and source[source_field] not in (...)". *)
Definition copy_field (source : pydict) (provenance : pydict) (fields : string * string) : pydict :=
  match dict_get fields.1 source with
  | Some v => if present v then dict_set fields.2 v provenance else provenance
  | None => provenance
  end.

Definition aliases : list (string * string) :=
  [("mechanism", "implementation_mechanism"); ("cold_vs_hot_path", "hot_vs_cold_path");
   ("complexity_expectations", "complexity_expectation"); ("failure_cases_and_fallback", "failure_cases");
   ("expected_inputs", "inputs"); ("expected_outputs", "outputs")].

Definition context_fields : list string :=
  ["category"; "classification"; "subsystem"; "suggested_lane"; "parallelism"; "integration_point";
   "explicit_out_of_scope"; "permitted_read_scope"; "data_flow_and_ownership"; "hot_vs_cold_path";
   "complexity_expectation"].

Definition provenance_of (digest task_id : string) (source : pydict) : pydict :=
  foldl (copy_field source)
    [("preledger_package_digest", PStr digest); ("original_task_id", PStr task_id)]
    (map (fun f => (f, f)) _PROVENANCE_FIELDS ++ aliases ++ map (fun f => (f, f)) context_fields).

Definition dependency_json (d : dependency) : pyval :=
  match d with
  | task_dependency t => PDict [("type", PStr "task"); ("task_id", PStr t)]
  | checkpoint_dependency c => PDict [("type", PStr "checkpoint"); ("checkpoint_id", PStr c)]
  end.

(** A task of the native plan; the absent optional keys are empty lists. *)
Record native_task := {
  n_id : string;
  n_kind : string;
  n_title : string;
  n_objective : string;
  n_notes : string;
  n_exclusive_paths : list string;
  n_read_paths : list string;
  n_depends_on : list dependency;
  n_checkpoints : list string
}.

(** The plan as the code builds it: the optional keys are left out. *)
Definition native_value (n : native_task) : pyval :=
  let scope := match n.(n_exclusive_paths) with [] => [] | l => [("exclusive_paths", PList (map PStr l))] end
            ++ match n.(n_read_paths) with [] => [] | l => [("read_paths", PList (map PStr l))] end in
  PDict ([("id", PStr n.(n_id)); ("kind", PStr n.(n_kind)); ("title", PStr n.(n_title));
          ("objective", PStr n.(n_objective)); ("notes", PStr n.(n_notes))]
    ++ match scope with [] => [] | _ => [("scope", PDict scope)] end
    ++ match n.(n_depends_on) with [] => [] | l => [("depends_on", PList (map dependency_json l))] end
    ++ match n.(n_checkpoints) with
       | [] => []
       | l => [("checkpoints", PList (map (fun c => PDict [("id", PStr c); ("title", PStr c)]) l))]
       end).

Definition interface_value (i : interface) : pyval :=
  PDict [("id", PStr i.(if_id)); ("owner_task_id", PStr i.(if_owner_task_id)); ("state", PStr i.(if_state));
         ("version", PStr i.(if_version)); ("contract_paths", PList (map PStr i.(if_contract_paths)));
         ("content_hash", PStr i.(if_content_hash))].

Definition plan_value (name : string) (tasks : list native_task) (interfaces : list interface) : pyval :=
  PDict [("schema_version", PInt NATIVE_TODO_PLAN_SCHEMA_VERSION); ("project", PDict [("name", PStr name)]);
         ("tasks", PList (map native_value tasks)); ("interfaces", PList (map interface_value interfaces))].

(** ** The files *)

(** What the file system answers under the package's root, for a path relative to it. *)
Record directory := {
  d_is_dir : bool;                               (* root.is_dir() *)
  d_resolve : string -> result (option string);  (* (root / p).resolve().relative_to(root); None outside *)
  d_is_file : string -> bool;                    (* (root / p).is_file() *)
  d_read : string -> result string               (* the bytes of root / p, or the OSError *)
}.

(** "except OSError as exc: raise PreledgerError(...)". *)
Definition reading {A} (what : string) (r : result A) : result A :=
  match r with Err (OSError _) => Err (ValueError ("cannot read " +:+ what)) | r => r end.

(** "path.read_text(encoding=...)": UnicodeDecodeError is a ValueError. *)
Definition read_text (d : directory) (path : string) : result string :=
  text ← d.(d_read) path;
  _ ← raise_if (negb (JsonParse.utf8_ok text)) (ValueError "invalid UTF-8");
  Ok text.

Definition read_table (d : directory) (path what : string) : result table :=
  text ← reading what (read_text d path);
  dict_reader <$> csv_records (newline_lines "" text).

(** The parts of a relative path: PurePosixPath drops the empty ones and the dots. *)
Definition parts (path : string) : list string :=
  List.filter (fun part => negb (String.eqb part "") && negb (String.eqb part ".")) (split_on (Ascii.ascii_of_nat 47) path).

Fixpoint joined_parts (parts : list string) : string :=
  match parts with [] => "" | [p] => p | p :: parts => p +:+ "/" +:+ joined_parts parts end.

Definition as_posix (path : string) : string :=
  match parts path with [] => "." | ps => joined_parts ps end.

Definition _package_file (d : directory) (reference : pyval) (label : string) : result string :=
  match reference with
  | PStr s =>
      _ ← raise_if (String.eqb (strip s) "") (ValueError (label +:+ " must be a non-empty relative file name"));
      _ ← raise_if (starts_with "/" s || bool_decide (".." ∈ parts s))
            (ValueError (label +:+ " must stay within the package directory"));
      candidate ← d.(d_resolve) (as_posix s);
      match candidate with
      | None => Err (ValueError (label +:+ " must stay within the package directory"))
      | Some path =>
          _ ← raise_if (negb (d.(d_is_file) path)) (ValueError ("missing " +:+ label));
          Ok path
      end
  | _ => Err (ValueError (label +:+ " must be a non-empty relative file name"))
  end.

Definition is_hex (c : Ascii.ascii) : bool := is_digit c || in_range 65 70 c || in_range 97 102 c.

(** "([0-9a-fA-F]{64})\s+\*?(.+)" on a whole line that strip has been applied to. *)
Definition manifest_entry (line : string) : option (string * string) :=
  let hash := String.substring 0 64 line in
  let spaces := drop_str 64 line in
  let rest := lstrip_while is_space spaces in
  if negb ((String.length hash =? 64)%nat && all_chars is_hex hash) || String.eqb spaces rest then None
  else match rest with
       | EmptyString => None
       | String c EmptyString => Some (hash, rest)
       | String c name => Some (hash, if (code c =? 42)%nat then name else rest)
       end.

(** The semantic files a package has, by the keys of "optional". *)
Definition optional_keys : list string := ["interfaces"; "dependency_index"; "external_dependencies"; "summary"; "manifest"].
Definition default_names : list (string * string) :=
  [("interfaces", "interface_catalog.json"); ("dependency_index", "dependency_edges.csv");
   ("external_dependencies", "external_dependency_receipts.csv"); ("summary", "plan_summary.json");
   ("manifest", "MANIFEST.sha256")].

Record located := {
  described : bool;                          (* preledger.json is there *)
  tasks_path : string;
  optional : list (string * option string)
}.

Definition optional_path (l : located) (key : string) : option string := mjoin (dict_get key l.(optional)).

Definition descriptor_path : string := "preledger.json".

Definition source_paths (l : located) : list string :=
  (if l.(described) then [descriptor_path] else []) ++ l.(tasks_path) :: omap snd l.(optional).

Definition semantic_paths (l : located) : list string :=
  (if l.(described) then [descriptor_path] else []) ++ l.(tasks_path) ::
  omap (optional_path l) ["interfaces"; "dependency_index"; "external_dependencies"].

(** What has been read: a file the code reads later is the result of that read. *)
Record package := {
  pk_tasks : result pyval;
  pk_interfaces : option (result pyval);
  pk_dependency_index : option (result table);
  pk_external_dependencies : option (result table);
  pk_digest : string;
  pk_source_files : list string
}.

Section WithTexts.
Context (float_repr : spec_float -> string) (py_repr : pyval -> string).
Context (float_of : string -> spec_float) (sha256 : string -> string).

Definition canonical_json (v : pyval) : string := json_text float_repr v +:+ chr 10.

Definition dependency_le (a b : dependency) : Prop :=
  String.le (canonical_json (dependency_json a)) (canonical_json (dependency_json b)).
#[export] Instance dependency_le_dec : RelDecision dependency_le.
Proof. intros a b. unfold dependency_le. apply _. Defined.

(** The kind of a task and the warning when it is not one the plan knows; a list or
    a dict is not hashable. *)
Definition lower_kind (task_id : string) (kind : pyval) : result (string * list string) :=
  match kind with
  | PList _ | PDict _ => Err (TypeError "unhashable type")
  | PStr k =>
      if bool_decide (k ∈ _TASK_KINDS) then Ok (k, [])
      else Ok ("task", if String.eqb k "" then []
                       else ["task " +:+ task_id +:+ " unsupported task_kind " +:+ py_repr kind +:+ " lowered to 'task'"])
  | PNone => Ok ("task", [])
  | _ => Ok ("task", ["task " +:+ task_id +:+ " unsupported task_kind " +:+ py_repr kind +:+ " lowered to 'task'"])
  end.

Definition read_paths (source : pydict) : list string :=
  _explicit_source_paths
    (_flatten_strings (field "existing_source_paths" source) ++ _flatten_strings (field "source_paths" source)
     ++ _flatten_strings (field "permitted_read_scope" source)
     ++ _flatten_strings (field "existing_code_extended" source)).

Definition purpose_text (source : pydict) : result string :=
  match dict_get_default "purpose" (PStr "") source with
  | PNone => Ok ""
  | PStr s => Ok (strip s)
  | _ => Err (ValueError "task purpose must be a string")
  end.

Definition notes_of (digest task_id : string) (source : pydict) : string :=
  "preledger_provenance=" +:+ json_text float_repr (PDict (provenance_of digest task_id source)).

Definition lower_task (digest : string) (cl : classified) (task_id : string) (source : pydict) :
    result (native_task * list string) :=
  objective ← purpose_text source;
  '(kind, warnings) ← lower_kind task_id (dict_get_default "task_kind" (PStr "task") source);
  title ← _nonempty_string source "title";
  Ok ({| n_id := task_id; n_kind := kind; n_title := title; n_objective := objective;
         n_notes := notes_of digest task_id source;
         n_exclusive_paths := _clean_paths (_scope_paths (field "write_scope" source)
                                ["exclusive_paths"; "write_paths"; "paths"]);
         n_read_paths := read_paths source;
         n_depends_on := merge_sort dependency_le
           (map snd (List.filter (fun e => String.eqb e.1 task_id) cl.(native)));
         n_checkpoints := sorted_set (_produced_checkpoints source) |}, warnings).

(** "for task_id in sorted(selected_ids)". *)
Definition lower_tasks (digest : string) (tt : task_table) (target : string) (cl : classified) :
    result (list native_task * list string) :=
  lowered ← mapM_result (fun task_id =>
      match dict_get task_id tt.(by_id) with
      | Some source => lower_task digest cl task_id source
      | None => Err (KeyError task_id)
      end) (sorted_set (selected tt target));
  Ok (map fst lowered, concat (map snd lowered)).

(** "str(record.get("id", f"index {index}"))". *)
Definition interface_label (index : nat) (record : pydict) : string :=
  match dict_get "id" record with
  | Some (PStr s) => s
  | Some v => py_repr v
  | None => "index " +:+ pretty (Z.of_nat index)
  end.

Fixpoint lower_interfaces (index : nat) (records : list pydict) (selected_ids : list string) :
    list interface * list string :=
  match records with
  | [] => ([], [])
  | r :: records =>
      let '(interfaces, warnings) := lower_interfaces (S index) records selected_ids in
      match _lower_interface r selected_ids with
      | Some i => (i :: interfaces, warnings)
      | None => (interfaces, ("unsupported interface record: " +:+ interface_label index r) :: warnings)
      end
  end.

Definition interface_le (a b : interface) : Prop := String.le a.(if_id) b.(if_id).
#[export] Instance interface_le_dec : RelDecision interface_le.
Proof. intros a b. unfold interface_le. apply _. Defined.

Definition read_interfaces (catalog : option (result pyval)) (selected_ids : list string) :
    result (list interface * list string) :=
  match catalog with
  | None => Ok ([], [])
  | Some file =>
      value ← file;
      records ← _records value ["interfaces"; "interface_catalog"] "interface catalog";
      let '(interfaces, warnings) := lower_interfaces 0 records selected_ids in
      _ ← raise_if (negb (bool_decide (NoDup (map if_id interfaces)))) (ValueError "duplicate interface ids");
      Ok (interfaces, warnings)
  end.

(** ** Opening the package *)

Definition _load_json (d : directory) (path label : string) : result pyval :=
  text ← reading label (read_text d path);
  match JsonParse.json_loads float_of text with
  | Some v => Ok v
  | None => Err (ValueError ("invalid JSON in " +:+ label))
  end.

(** One line of the manifest; [seen] counts the entries. *)
Definition check_entry (d : directory) (seen : Z) (raw : string) : result Z :=
  let line := strip raw in
  if String.eqb line "" || starts_with "#" line then Ok seen
  else match manifest_entry line with
       | None => Err (ValueError "invalid manifest entry")
       | Some (expected, reference) =>
           candidate ← _package_file d (PStr (strip reference)) "manifest entry";
           content ← d.(d_read) candidate;
           _ ← raise_if (negb (String.eqb (lower (sha256 content)) (lower expected)))
                 (ValueError "manifest hash mismatch");
           Ok (seen + 1)
       end.

Definition _validate_manifest (d : directory) (path : string) : result unit :=
  text ← read_text d path;
  seen ← foldM (check_entry d) 0 (splitlines text);
  raise_if (seen =? 0) (ValueError "manifest contains no file hashes").

Definition semantic_entry (d : directory) (path : string) : result pyval :=
  content ← d.(d_read) path;
  Ok (PDict [("path", PStr path); ("sha256", PStr (sha256 content))]).

Definition _semantic_digest (d : directory) (files : list string) : result string :=
  entries ← mapM_result (semantic_entry d) (sorted_set files);
  Ok (sha256 (canonical_json
        (PDict [("compiler_version", PInt COMPILER_VERSION); ("semantic_files", PList entries)]))).

(** "_package_file(root, loaded[key], ...) if loaded.get(key) else None". *)
Definition described_path (d : directory) (loaded : pydict) (key : string) : result (string * option string) :=
  if truthy (field key loaded)
  then path ← _package_file d (field key loaded) (key +:+ " file"); Ok (key, Some path)
  else Ok (key, None).

Definition locate (d : directory) : result located :=
  if d.(d_is_file) descriptor_path then
    value ← _load_json d descriptor_path "pre-ledger descriptor";
    match value with
    | PDict loaded =>
        _ ← raise_if (negb (py_eqb (field "format" loaded) (PStr PRELEDGER_FORMAT)))
              (ValueError "unsupported pre-ledger format");
        _ ← raise_if (negb (py_eqb (field "schema_version" loaded) (PInt PRELEDGER_SCHEMA_VERSION)))
              (ValueError "unsupported pre-ledger schema_version");
        tasks ← _package_file d (field "tasks" loaded) "tasks file";
        paths ← mapM_result (described_path d loaded) optional_keys;
        Ok {| described := true; tasks_path := tasks; optional := paths |}
    | _ => Err (ValueError "preledger.json must be a JSON object")
    end
  else
    tasks ← _package_file d (PStr "proposed_todos.json") "tasks file";
    Ok {| described := false; tasks_path := tasks;
          optional := map (fun '(key, name) => (key, if d.(d_is_file) name then Some name else None)) default_names |}.

Definition open_package (d : directory) : result package :=
  _ ← raise_if (negb d.(d_is_dir)) (ValueError "pre-ledger package is not a directory");
  l ← locate d;
  _ ← match optional_path l "manifest" with Some path => _validate_manifest d path | None => Ok tt end;
  package_digest ← _semantic_digest d (semantic_paths l);
  Ok {| pk_tasks := _load_json d l.(tasks_path) "tasks file";
        pk_interfaces := (fun path => _load_json d path "interface catalog") <$> optional_path l "interfaces";
        pk_dependency_index := (fun path => read_table d path "dependency index") <$> optional_path l "dependency_index";
        pk_external_dependencies :=
          (fun path => read_table d path "external dependency index") <$> optional_path l "external_dependencies";
        pk_digest := package_digest;
        pk_source_files := sorted_set (source_paths l) |}.

(** ** The compiler *)

Record compiled := {
  project_name : string;                 (* native_todo_plan: its name, tasks and interfaces *)
  plan_tasks : list native_task;
  plan_interfaces : list interface;
  package_digest : string;
  plan_digest : string;
  selected_task_count : Z;
  excluded_task_count : Z;
  internal_dependency_count : Z;
  external_dependencies : list external;
  interfaces_imported : Z;
  warnings : list string;
  source_files : list string
}.

Definition native_todo_plan (c : compiled) : pyval := plan_value c.(project_name) c.(plan_tasks) c.(plan_interfaces).
Definition canonical_plan_json (c : compiled) : string := canonical_json (native_todo_plan c).

Definition task_records (pk : package) : result (list pydict) :=
  value ← pk.(pk_tasks); _records value ["tasks"; "proposed_todos"] "tasks file".

Definition compile_package (pk : package) (target : string) : result compiled :=
  tasks ← task_records pk;
  tt ← read_tasks tasks;
  '(pairs, w1) ← merge_index tt (task_pairs tt) pk.(pk_dependency_index);
  '(pairs, w2) ← merge_external pairs pk.(pk_external_dependencies);
  cl ← classify tt target pairs;
  '(native_tasks, w3) ← lower_tasks pk.(pk_digest) tt target cl;
  '(interfaces, w4) ← read_interfaces pk.(pk_interfaces) (selected tt target);
  Ok {| project_name := target;
        plan_tasks := native_tasks;
        plan_interfaces := merge_sort interface_le interfaces;
        package_digest := pk.(pk_digest);
        plan_digest := sha256 (canonical_json (plan_value target native_tasks (merge_sort interface_le interfaces)));
        selected_task_count := Z.of_nat (length (selected tt target));
        excluded_task_count := Z.of_nat (length tasks) - Z.of_nat (length (selected tt target));
        internal_dependency_count := Z.of_nat (length cl.(native));
        external_dependencies := cl.(externals);
        interfaces_imported := Z.of_nat (length interfaces);
        warnings := sorted_set (w1 ++ w2 ++ w3 ++ w4);
        source_files := pk.(pk_source_files) |}.

Definition compile_preledger (d : directory) (target_repository : string) : result compiled :=
  _ ← raise_if (String.eqb (strip target_repository) "")
        (ValueError "target_repository must be a non-empty string");
  pk ← open_package d;
  compile_package pk (strip target_repository).

End WithTexts.

End Preledger.
