(* ===== verification/PreledgerProps.v ===== *)
(** * Pre-ledger compiler: the task table and the plan

    What a successful compilation selects, that its dependencies are closed, that no
    dependency is dropped, and that no checkpoint has two producers. *)

From Stdlib Require Import ZArith SpecFloat.
From S2P Require Import Prelude PyValue Text Json Preledger.
Import Preledger.

#[local] Open Scope string_scope.
#[local] Open Scope Z_scope.
#[local] Open Scope list_scope.

(** ** Dictionaries built by appending *)

Lemma dict_set_fresh {K A} `{EqDecision K} (k : K) (v : A) d : k ∉ d.*1 -> dict_set k v d = d ++ [(k, v)].
Proof.
  induction d as [|[k' v'] d IH]; csimpl; intros H; [done|].
  rewrite decide_False by (intros ->; apply H; left). rewrite IH; [done|]. intros Hin. apply H. by right.
Qed.

Lemma dict_mem_true {K A} `{EqDecision K} (k : K) (d : list (K * A)) : dict_mem k d = true <-> k ∈ d.*1.
Proof. apply bool_decide_eq_true. Qed.

Lemma dict_get_is_Some {K A} `{EqDecision K} (k : K) (d : list (K * A)) : is_Some (dict_get k d) <-> k ∈ d.*1.
Proof.
  split.
  - intros [v H%dict_get_elem]. apply list_elem_of_fmap. by exists (k, v).
  - intros H. destruct (dict_get k d) as [v|] eqn:E; [by eexists|]. by apply dict_get_None in E.
Qed.

(** Two dicts with unique keys and the same items read the same. *)
Lemma dict_get_permutation {K A} `{EqDecision K} (d d' : list (K * A)) k :
  NoDup d.*1 -> Permutation d d' -> dict_get k d = dict_get k d'.
Proof.
  intros Hn Hp. assert (NoDup d'.*1) as Hn' by (by rewrite <-Hp).
  destruct (dict_get k d) as [v|] eqn:E.
  - symmetry. apply dict_get_NoDup; [done|]. rewrite <-Hp. by apply dict_get_elem.
  - symmetry. apply dict_get_None. rewrite <-Hp. by apply dict_get_None.
Qed.

Lemma foldM_app {A B} (f : B -> A -> result B) b l k :
  foldM f b (l ++ k) = (b' ← foldM f b l; foldM f b' k).
Proof.
  revert b. induction l as [|x l IH]; intros b; simpl; [done|].
  destruct (f b x) as [b1|e]; simpl; [apply IH|done].
Qed.

(** ** The task table *)

(** What [add_task] requires of a record on its own. *)
Definition task_id_of (task : pydict) : string :=
  match _nonempty_string task "id" with Ok s => s | Err _ => "" end.
Definition repository_of (task : pydict) : string :=
  match _nonempty_string task "repository" with Ok s => s | Err _ => "" end.

Definition task_valid (task : pydict) : bool :=
  is_ok (_nonempty_string task "id") && _TASK_ID (task_id_of task)
  && is_ok (_nonempty_string task "title") && is_ok (_nonempty_string task "repository").

(** No checkpoint is produced by records of different ids. *)
Definition checkpoints_agree (tasks : list pydict) : Prop :=
  forall t1 t2 c, t1 ∈ tasks -> t2 ∈ tasks -> c ∈ _produced_checkpoints t1 -> c ∈ _produced_checkpoints t2 ->
    task_id_of t1 = task_id_of t2.

Record table_of (tasks : list pydict) (tt : task_table) : Prop := {
  tab_valid : forall t, t ∈ tasks -> task_valid t = true;
  tab_ids : NoDup (map task_id_of tasks);
  tab_agree : checkpoints_agree tasks;
  tab_by_id : tt.(by_id) = map (fun t => (task_id_of t, t)) tasks;
  tab_repository : tt.(repository_by_id) = map (fun t => (task_id_of t, repository_of t)) tasks;
  tab_owner : forall c o, dict_get c tt.(checkpoint_owner) = Some o <->
    exists t, t ∈ tasks /\ c ∈ _produced_checkpoints t /\ o = task_id_of t
}.

(** The checkpoints of one record. *)
Lemma own_checkpoints task_id cs owners :
  (forall c o, c ∈ cs -> dict_get c owners = Some o -> o = task_id) ->
  exists owners', foldM (own_checkpoint task_id) owners cs = Ok owners' /\
    forall c, dict_get c owners' = if bool_decide (c ∈ cs) then Some task_id else dict_get c owners.
Proof.
  revert owners. induction cs as [|c cs IH]; intros owners H; cbn [foldM].
  { exists owners. split; [done|]. intros c. by rewrite bool_decide_false by apply not_elem_of_nil. }
  assert (own_checkpoint task_id owners c = Ok (dict_set c task_id owners)) as ->.
  { unfold own_checkpoint. destruct (dict_get c owners) as [o|] eqn:E; [|done].
    rewrite (H c o) by (done || left). by rewrite String.eqb_refl. }
  rewrite bind_Ok. destruct (IH (dict_set c task_id owners)) as (owners' & Hf & Hg).
  { intros c' o Hc' Ho. destruct (decide (c = c')) as [<-|Hne].
    - rewrite dict_get_set_eq in Ho. congruence.
    - rewrite dict_get_set_ne in Ho by done. eapply H; [by right|done]. }
  exists owners'. split; [done|]. intros c'. rewrite Hg.
  destruct (decide (c = c')) as [<-|Hne].
  - rewrite dict_get_set_eq, (bool_decide_true (c ∈ c :: cs)) by left. by destruct (bool_decide _).
  - rewrite dict_get_set_ne by done. by rewrite (bool_decide_ext (c' ∈ c :: cs) (c' ∈ cs)) by set_solver.
Qed.

Lemma own_checkpoints_conflict task_id cs owners owners' :
  foldM (own_checkpoint task_id) owners cs = Ok owners' ->
  forall c o, c ∈ cs -> dict_get c owners = Some o -> o = task_id.
Proof.
  revert owners. induction cs as [|c cs IH]; intros owners H; cbn [foldM] in H.
  { intros c o Hc. by apply not_elem_of_nil in Hc. }
  apply result_bind_ok in H as (o1 & H1 & H). unfold own_checkpoint in H1. inv_res.
  intros c' o Hc' Ho. destruct (decide (c = c')) as [<-|Hne].
  - rewrite Ho in Ha. apply negb_false_iff, String.eqb_eq in Ha. done.
  - apply elem_of_cons in Hc' as [->|Hc']; [done|]. apply (IH _ H c'); [done|]. by rewrite dict_get_set_ne.
Qed.

Lemma nonempty_ok task f : is_ok (_nonempty_string task f) = true -> exists s, _nonempty_string task f = Ok s.
Proof. destruct (_nonempty_string task f) as [s|e]; [by eexists|done]. Qed.

(** One more record, both ways. *)
Lemma add_task_spec tasks tt task :
  table_of tasks tt ->
  (task_valid task = true /\ (task_id_of task ∉ map task_id_of tasks) /\ checkpoints_agree (tasks ++ [task]) ->
   exists tt', add_task tt task = Ok tt') /\
  (forall tt', add_task tt task = Ok tt' -> table_of (tasks ++ [task]) tt').
Proof.
  intros [T1 T2 T3 T4 T5 T6].
  assert (tt.(by_id).*1 = map task_id_of tasks) as Hk1 by (rewrite T4, <-list_fmap_compose; done).
  assert (tt.(repository_by_id).*1 = map task_id_of tasks) as Hk2 by (rewrite T5, <-list_fmap_compose; done).
  split.
  - intros (Hv & Hid & Hag). unfold task_valid in Hv. rewrite !andb_true_iff in Hv.
    destruct Hv as [[[Hi Hre] Hti] Hrp].
    apply nonempty_ok in Hi as (id & Hi), Hti as (ti & Hti), Hrp as (rp & Hrp).
    assert (task_id_of task = id) as Eid by (unfold task_id_of; by rewrite Hi).
    rewrite Eid in Hid, Hre. unfold add_task. rewrite Hi, bind_Ok, Hre. cbn [negb raise_if]. rewrite bind_Ok.
    assert (dict_mem id tt.(by_id) = false) as ->.
    { apply bool_decide_false. by rewrite Hk1. }
    cbn [raise_if]. rewrite bind_Ok, Hti, bind_Ok, Hrp, bind_Ok.
    destruct (own_checkpoints id (_produced_checkpoints task) tt.(checkpoint_owner)) as (ow & -> & _).
    { intros c o Hc Ho. apply T6 in Ho as (t & Ht & Hct & ->). rewrite <-Eid. apply (Hag t task c); try done.
      - apply elem_of_app. by left.
      - apply elem_of_app. right. by left. }
    rewrite bind_Ok. by eexists.
  - intros tt' H. unfold add_task in H. apply result_bind_ok in H as (id & Hi & H).
    apply result_bind_ok in H as (u1 & Hre & H). apply raise_if_ok, negb_false_iff in Hre.
    apply result_bind_ok in H as (u2 & Hm & H). apply raise_if_ok in Hm.
    apply result_bind_ok in H as (ti & Hti & H). apply result_bind_ok in H as (rp & Hrp & H).
    apply result_bind_ok in H as (ow & How & H). apply Ok_inj in H as <-.
    assert (task_id_of task = id) as Eid by (unfold task_id_of; by rewrite Hi).
    assert (repository_of task = rp) as Erp by (unfold repository_of; by rewrite Hrp).
    assert (id ∉ map task_id_of tasks) as Hfresh by (apply bool_decide_eq_false in Hm; by rewrite <-Hk1).
    pose proof (own_checkpoints_conflict _ _ _ _ How) as Hconf.
    destruct (own_checkpoints _ _ _ Hconf) as (ow' & How' & Hget). rewrite How in How'. apply Ok_inj in How' as <-.
    assert (checkpoints_agree (tasks ++ [task])) as Hag.
    { assert (forall t c, t ∈ tasks -> c ∈ _produced_checkpoints t -> c ∈ _produced_checkpoints task ->
        task_id_of t = id) as Hx.
      { intros t c Ht Hc Hc'. apply (Hconf c); [done|]. apply T6. by exists t. }
      intros t1 t2 c [H1|H1%list_elem_of_singleton]%elem_of_app [H2|H2%list_elem_of_singleton]%elem_of_app Hc1 Hc2; subst.
      - by eapply T3.
      - by eapply Hx.
      - symmetry. by eapply Hx.
      - done. }
    constructor; cbn [by_id repository_by_id checkpoint_owner].
    + intros t [Ht|Ht%list_elem_of_singleton]%elem_of_app; [by apply T1|]. subst t.
      unfold task_valid. by rewrite Hi, Eid, Hre, Hti, Hrp.
    + rewrite map_app. apply NoDup_snoc; [done|]. by rewrite Eid.
    + done.
    + rewrite dict_set_fresh by (by rewrite Hk1). rewrite T4, map_app. cbn [map]. by rewrite Eid.
    + rewrite dict_set_fresh by (by rewrite Hk2). rewrite T5, map_app. cbn [map]. by rewrite Eid, Erp.
    + intros c o. rewrite Hget. setoid_rewrite elem_of_app. split.
      * destruct (bool_decide_reflect (c ∈ _produced_checkpoints task)) as [Hc|Hc].
        -- intros [= <-]. exists task. split; [right; by left|]. done.
        -- intros (t & Ht & Hct & ->)%T6. exists t. auto.
      * intros (t & [Ht|Ht%list_elem_of_singleton] & Hct & ->).
        -- case_bool_decide as Hc; [f_equal|].
           ++ rewrite <-Eid. apply (Hag task t c); [apply elem_of_app; right; by left|apply elem_of_app; by left|done|done].
           ++ apply T6. by exists t.
        -- subst t. by rewrite bool_decide_true, Eid.
Qed.

Lemma read_tasks_spec tasks tt : read_tasks tasks = Ok tt -> table_of tasks tt.
Proof.
  unfold read_tasks. revert tt. induction tasks as [|task tasks IH] using rev_ind; intros tt H.
  { cbn in H. apply Ok_inj in H as <-. constructor; cbn; try done; try apply NoDup_nil_2.
    - intros t Ht. by apply not_elem_of_nil in Ht.
    - intros t1 t2 c Ht. by apply not_elem_of_nil in Ht.
    - intros c o. split; [done|]. intros (t & Ht & _). by apply not_elem_of_nil in Ht. }
  rewrite foldM_app in H. apply result_bind_ok in H as (tt1 & H1 & H). cbn in H.
  apply result_bind_ok in H as (tt2 & H2 & H). apply Ok_inj in H as <-.
  by apply (proj2 (add_task_spec _ _ task (IH _ H1))).
Qed.

Lemma read_tasks_complete tasks :
  (forall t, t ∈ tasks -> task_valid t = true) -> NoDup (map task_id_of tasks) -> checkpoints_agree tasks ->
  exists tt, read_tasks tasks = Ok tt.
Proof.
  unfold read_tasks. induction tasks as [|task tasks IH] using rev_ind; intros Hv Hn Ha; [by eexists|].
  rewrite map_app in Hn. apply NoDup_app in Hn as (Hn & Hd & _).
  destruct IH as [tt Htt].
  - intros t Ht. apply Hv, elem_of_app. by left.
  - done.
  - intros t1 t2 c H1 H2. apply Ha; apply elem_of_app; by left.
  - rewrite foldM_app, Htt, bind_Ok. cbn. apply read_tasks_spec in Htt as Htab.
    destruct (proj1 (add_task_spec _ _ task Htab)) as [tt' ->]; [|by eexists].
    split; [|split; [|done]].
    + apply Hv, elem_of_app. right. by left.
    + intros Hin. apply (Hd _ Hin). by left.
Qed.

(** ** Dependency pairs *)

(** Every statement of a dependency, in the order the code meets it: who states it, and the pair. *)
Definition statements (tt : task_table) : list (string * dep_pair) :=
  concat (map (fun '(task_id, task) =>
    concat (map (fun fld => map (fun p => (fld, (task_id, p))) (_dependency_ids (field fld task)))
              dependency_fields)) tt.(by_id)).

Definition pairs_of (l : list (string * dep_pair)) : pair_map := foldl (fun m e => add_pair e.1 m e.2) [] l.

Definition indexed_statements (source : string) (l : list dep_pair) : list (string * dep_pair) :=
  map (fun p => (source, p)) l.

Lemma foldl_concat {A B} (f : B -> A -> B) (ls : list (list A)) b :
  foldl f b (concat ls) = foldl (fun b l => foldl f b l) b ls.
Proof. revert b. induction ls as [|l ls IH]; intros b; simpl; [done|]. by rewrite foldl_app. Qed.

Lemma foldl_ext_all {A B} (f g : B -> A -> B) b l : (forall b x, f b x = g b x) -> foldl f b l = foldl g b l.
Proof. intros H. revert b. induction l as [|x l IH]; intros b; simpl; [done|]. by rewrite H. Qed.

Lemma task_pairs_statements tt : task_pairs tt = pairs_of (statements tt).
Proof.
  unfold task_pairs, pairs_of, statements. rewrite foldl_concat, foldl_map.
  apply foldl_ext_all. intros m [id task]. rewrite foldl_concat, foldl_map.
  apply foldl_ext_all. intros m' fld. by rewrite !foldl_map.
Qed.

Lemma supplement_spec warning source l m ws :
  fst (foldl (supplement warning source) (m, ws) l) = foldl (add_pair source) m l.
Proof. revert m ws. induction l as [|p l IH]; intros m ws; simpl; [done|]. by rewrite IH. Qed.

Lemma pairs_of_app l k : pairs_of (l ++ k) = foldl (fun m e => add_pair e.1 m e.2) (pairs_of l) k.
Proof. unfold pairs_of. by rewrite foldl_app. Qed.

Lemma add_indexed source l idx :
  foldl (add_pair source) (pairs_of l) idx = pairs_of (l ++ indexed_statements source idx).
Proof. rewrite pairs_of_app. unfold indexed_statements. by rewrite foldl_map. Qed.

(** The sources recorded for a pair are the statements of that pair, in order. *)
Definition sources_for (p : dep_pair) (l : list (string * dep_pair)) : list string :=
  map fst (List.filter (fun e => bool_decide (e.2 = p)) l).

Lemma pairs_of_get l p :
  dict_get p (pairs_of l) = match sources_for p l with [] => None | ss => Some ss end.
Proof.
  induction l as [|e l IH] using rev_ind; [done|].
  rewrite pairs_of_app. cbn [foldl]. unfold sources_for in *. rewrite List.filter_app, map_app. cbn [List.filter].
  unfold add_pair. destruct (bool_decide_reflect (e.2 = p)) as [<-|Hne]; cbn [map].
  - rewrite dict_get_set_eq, IH. destruct (map fst _) as [|s ss]; done.
  - rewrite dict_get_set_ne by done. by rewrite IH, app_nil_r.
Qed.

Lemma pairs_of_nodup l : NoDup (pairs_of l).*1.
Proof.
  induction l as [|e l IH] using rev_ind; [apply NoDup_nil_2|].
  rewrite pairs_of_app. cbn. by apply dict_set_NoDup.
Qed.

Lemma elem_of_sources_for s p l : s ∈ sources_for p l <-> (s, p) ∈ l.
Proof.
  unfold sources_for. rewrite list_elem_of_fmap. split.
  - intros ([s' p'] & -> & H). apply list_elem_of_In, List.filter_In in H as [H Hp].
    apply bool_decide_eq_true in Hp. simpl in *. subst. by apply list_elem_of_In.
  - intros H. exists (s, p). split; [done|]. apply list_elem_of_In, List.filter_In.
    split; [by apply list_elem_of_In|by apply bool_decide_true].
Qed.

(** A pair has an entry exactly when something states it, with exactly the sources that do. *)
Lemma elem_of_pairs_of p ss l : (p, ss) ∈ pairs_of l <-> ss <> [] /\ ss = sources_for p l.
Proof.
  split.
  - intros H. assert (dict_get p (pairs_of l) = Some ss) as Hg by (by apply dict_get_NoDup; [apply pairs_of_nodup|]).
    rewrite pairs_of_get in Hg. by destruct (sources_for p l); [|simplify_eq].
  - intros [Hne ->]. apply dict_get_elem. rewrite pairs_of_get. by destruct (sources_for p l).
Qed.

(** ** Classification *)

Definition is_selected (tt : task_table) (target id : string) : Prop := id ∈ selected tt target.

(** Where a pair of a selected task goes. *)
Definition native_of (tt : task_table) (target prerequisite : string) : option dependency :=
  if bool_decide (prerequisite ∈ selected tt target) then Some (task_dependency prerequisite)
  else match dict_get prerequisite tt.(checkpoint_owner) with
       | Some owner => if bool_decide (owner ∈ selected tt target)
                       then Some (checkpoint_dependency prerequisite) else None
       | None => None
       end.

Definition external_of (tt : task_table) (e : dep_pair * list string) : external :=
  {| x_task_id := e.1.1; x_dependency_id := e.1.2;
     x_repository := match dict_get e.1.2 tt.(checkpoint_owner) with
                     | Some owner => dict_get owner tt.(repository_by_id)
                     | None => dict_get (removeprefix "receipt:" e.1.2) tt.(repository_by_id)
                     end;
     x_source := sorted_set e.2 |}.

Lemma classify_one_spec tt target acc e acc' :
  classify_one tt target acc e = Ok acc' ->
  e.1.1 ∈ tt.(by_id).*1 /\
  acc' = if bool_decide (e.1.1 ∈ selected tt target)
         then match native_of tt target e.1.2 with
              | Some d => Build_classified (acc.(native) ++ [(e.1.1, d)]) acc.(externals)
              | None => Build_classified acc.(native) (acc.(externals) ++ [external_of tt e])
              end
         else acc.
Proof.
  destruct e as [[dep pre] ss]. unfold classify_one. intros H.
  apply result_bind_ok in H as (u & Hm & H). apply raise_if_ok, negb_false_iff, dict_mem_true in Hm.
  split; [done|]. unfold native_of, external_of. cbn [fst snd].
  destruct (bool_decide (dep ∈ selected tt target)); cbn [negb] in H; [|by apply Ok_inj in H].
  destruct (bool_decide (pre ∈ selected tt target)); [by apply Ok_inj in H|].
  destruct (dict_get pre _) as [o|]; [destruct (bool_decide (o ∈ _))|]; by apply Ok_inj in H.
Qed.

Definition natives_from (tt : task_table) (target : string) (es : pair_map) : list (string * dependency) :=
  omap (fun e => if bool_decide (e.1.1 ∈ selected tt target)
                 then d ← native_of tt target e.1.2; Some (e.1.1, d) else None) es.
Definition externals_from (tt : task_table) (target : string) (es : pair_map) : list external :=
  omap (fun e => if bool_decide (e.1.1 ∈ selected tt target)
                 then match native_of tt target e.1.2 with Some _ => None | None => Some (external_of tt e) end
                 else None) es.

(** The loop collects, in order. *)
Lemma classify_fold tt target es acc cl :
  foldM (classify_one tt target) acc es = Ok cl ->
  (forall e, e ∈ es -> e.1.1 ∈ tt.(by_id).*1) /\
  cl.(native) = acc.(native) ++ natives_from tt target es /\
  cl.(externals) = acc.(externals) ++ externals_from tt target es.
Proof.
  revert acc. induction es as [|e es IH]; intros acc H; cbn [foldM] in H.
  { apply Ok_inj in H as <-. cbn. rewrite !app_nil_r. split; [|done]. intros e He. by apply not_elem_of_nil in He. }
  apply result_bind_ok in H as (acc1 & H1 & H). apply classify_one_spec in H1 as [Hm ->].
  apply IH in H as (Ha & Hn & Hx). split.
  { intros e' [->|He]%elem_of_cons; auto. }
  rewrite Hn, Hx. unfold natives_from, externals_from. cbn [omap list_omap].
  destruct (bool_decide (e.1.1 ∈ selected tt target)); [|done].
  destruct (native_of tt target e.1.2); cbn; by rewrite <-?app_assoc.
Qed.

Lemma elem_of_natives tt target es dep d :
  (dep, d) ∈ natives_from tt target es <->
  exists p ss, (dep, p, ss) ∈ es /\ dep ∈ selected tt target /\ native_of tt target p = Some d.
Proof.
  unfold natives_from. rewrite list_elem_of_omap. split.
  - intros ([[dep' p] ss] & He & H). cbn in H. case_bool_decide as Hs; [|done].
    destruct (native_of tt target p) as [d'|] eqn:E; [|done]. cbn in H. simplify_eq. by exists p, ss.
  - intros (p & ss & He & Hs & Hn). exists (dep, p, ss). split; [done|]. cbn.
    by rewrite bool_decide_true, Hn.
Qed.

Lemma elem_of_externals tt target es e :
  e ∈ es -> e.1.1 ∈ selected tt target -> native_of tt target e.1.2 = None ->
  external_of tt e ∈ externals_from tt target es.
Proof.
  intros He Hs Hn. unfold externals_from. apply list_elem_of_omap. exists e. split; [done|].
  by rewrite bool_decide_true, Hn.
Qed.
