(* ===== verification/PreledgerPlan.v ===== *)
(** * Pre-ledger compiler: the compiled plan *)

From Stdlib Require Import ZArith SpecFloat.
From S2P Require Import Prelude PyValue Text Json JsonParse Preledger PreledgerProps.
Import Preledger.

#[local] Open Scope string_scope.
#[local] Open Scope Z_scope.
#[local] Open Scope list_scope.

Lemma mapM_result_Forall2 {A B} (f : A -> result B) l ys :
  mapM_result f l = Ok ys -> Forall2 (fun x y => f x = Ok y) l ys.
Proof.
  revert ys. induction l as [|x l IH]; intros ys H; cbn in H; inv_res; constructor; auto.
Qed.

Lemma Forall2_mapM_result {A B} (f : A -> result B) l ys :
  Forall2 (fun x y => f x = Ok y) l ys -> mapM_result f l = Ok ys.
Proof. induction 1 as [|x y l ys Hx _ IH]; [done|]. cbn. by rewrite Hx, bind_Ok, IH. Qed.

(** The rows the two CSV indexes contribute. *)
Definition dependency_rows (index : option (result table)) : list dep_pair :=
  match index with
  | Some (Ok t) => match _csv_dependencies t with Ok (rows, _) => rows | Err _ => [] end
  | _ => []
  end.

Definition external_rows (index : option (result table)) : list dep_pair :=
  match index with
  | Some (Ok t) => match _csv_external_dependencies t with Ok rows => rows | Err _ => [] end
  | _ => []
  end.

Definition all_statements (pk : package) (tt : task_table) : list (string * dep_pair) :=
  (statements tt ++ indexed_statements "dependency_edges.csv" (dependency_rows pk.(pk_dependency_index)))
  ++ indexed_statements "external_dependency_receipts.csv" (external_rows pk.(pk_external_dependencies)).

Lemma merge_index_pairs tt l index m ws :
  merge_index tt (pairs_of l) index = Ok (m, ws) ->
  m = pairs_of (l ++ indexed_statements "dependency_edges.csv" (dependency_rows index)).
Proof.
  destruct index as [[t|e]|]; cbn [merge_index dependency_rows]; [|done|].
  - rewrite bind_Ok. intros H. apply result_bind_ok in H as ([rows b] & Hr & H). apply result_bind_ok in H as (u & _ & H).
    apply Ok_inj in H. rewrite Hr. apply (f_equal fst) in H. rewrite supplement_spec, add_indexed in H. done.
  - intros H. apply Ok_inj in H. injection H as <- _. by rewrite app_nil_r.
Qed.

Lemma merge_external_pairs l index m ws :
  merge_external (pairs_of l) index = Ok (m, ws) ->
  m = pairs_of (l ++ indexed_statements "external_dependency_receipts.csv" (external_rows index)).
Proof.
  destruct index as [[t|e]|]; cbn [merge_external external_rows]; [|done|].
  - rewrite bind_Ok. intros H. apply result_bind_ok in H as (rows & Hr & H). apply result_bind_ok in H as (u & _ & H).
    apply Ok_inj in H. rewrite Hr. apply (f_equal fst) in H. rewrite supplement_spec, add_indexed in H. done.
  - intros H. apply Ok_inj in H. injection H as <- _. by rewrite app_nil_r.
Qed.

(** ** Selection *)

Definition in_repository (target : string) (task : pydict) : bool :=
  String.eqb (repository_of task) target.

Lemma selected_of tasks tt target :
  table_of tasks tt -> selected tt target = map task_id_of (List.filter (in_repository target) tasks).
Proof.
  intros [_ _ _ _ HR _]. unfold selected. rewrite HR. clear. unfold in_repository.
  induction tasks as [|t tasks IH]; cbn; [done|].
  destruct (String.eqb (repository_of t) target); cbn; by rewrite IH.
Qed.

Lemma selected_nodup tasks tt target : table_of tasks tt -> NoDup (selected tt target).
Proof.
  intros H. rewrite (selected_of _ _ _ H). pose proof (tab_ids _ _ H) as Hn. clear H.
  induction tasks as [|t tasks IH]; cbn; [constructor|]. apply NoDup_cons in Hn as [Ht Hn].
  destruct (in_repository target t); cbn; [|auto]. apply NoDup_cons. split; [|auto].
  intros (t' & E & Ht')%list_elem_of_fmap. apply Ht. rewrite E. apply list_elem_of_fmap. exists t'. split; [done|].
  apply list_elem_of_In, List.filter_In in Ht' as [Ht' _]. by apply list_elem_of_In.
Qed.

Lemma elem_of_selected tasks tt target id :
  table_of tasks tt ->
  id ∈ selected tt target <-> exists t, t ∈ tasks /\ task_id_of t = id /\ repository_of t = target.
Proof.
  intros H. rewrite (selected_of _ _ _ H), list_elem_of_fmap. unfold in_repository. split.
  - intros (t & -> & Ht). apply list_elem_of_In, List.filter_In in Ht as [Ht Hr].
    exists t. split; [by apply list_elem_of_In|]. split; [done|]. by apply String.eqb_eq.
  - intros (t & Ht & <- & <-). exists t. split; [done|]. apply list_elem_of_In, List.filter_In.
    split; [by apply list_elem_of_In|]. apply String.eqb_refl.
Qed.

Section Plan.
Context (float_repr : spec_float -> string) (py_repr : pyval -> string).
Context (float_of : string -> spec_float) (sha256 : string -> string).
#[local] Abbreviation compile_preledger := (compile_preledger float_repr py_repr float_of sha256).
#[local] Abbreviation compile_package := (compile_package float_repr py_repr sha256).
#[local] Abbreviation open_package := (open_package float_repr float_of sha256).
#[local] Abbreviation lower_task := (lower_task float_repr py_repr).

(** What a successful compilation computed. *)
Record compilation (pk : package) (target : string) (tasks : list pydict) (tt : task_table)
    (cl : classified) (c : compiled) : Prop := {
  co_records : task_records pk = Ok tasks;
  co_table : table_of tasks tt;
  co_classified : classify tt target (pairs_of (all_statements pk tt)) = Ok cl;
  co_lowered : Forall2 (fun id n => exists source ws, dict_get id tt.(by_id) = Some source /\
      lower_task pk.(pk_digest) cl id source = Ok (n, ws))
    (sorted_set (selected tt target)) c.(plan_tasks);
  co_interfaces : exists ifs ws, read_interfaces py_repr pk.(pk_interfaces) (selected tt target) = Ok (ifs, ws) /\
    c.(plan_interfaces) = merge_sort interface_le ifs /\ c.(interfaces_imported) = Z.of_nat (length ifs);
  co_counts : c.(selected_task_count) = Z.of_nat (length (selected tt target)) /\
    c.(excluded_task_count) = Z.of_nat (length tasks) - Z.of_nat (length (selected tt target)) /\
    c.(internal_dependency_count) = Z.of_nat (length cl.(native));
  co_externals : c.(external_dependencies) = cl.(externals);
  co_project : c.(project_name) = target;
  co_digests : c.(package_digest) = pk.(pk_digest) /\
    c.(plan_digest) = sha256 (canonical_plan_json float_repr c) /\ c.(source_files) = pk.(pk_source_files)
}.

Lemma compile_opens root target c :
  compile_preledger root target = Ok c ->
  exists pk, open_package root = Ok pk /\ compile_package pk (strip target) = Ok c.
Proof.
  unfold Preledger.compile_preledger. intros H.
  apply result_bind_ok in H as (u & _ & H). by apply result_bind_ok in H.
Qed.

Lemma compile_package_inv pk target c :
  compile_package pk target = Ok c -> exists tasks tt cl, compilation pk target tasks tt cl c.
Proof.
  unfold Preledger.compile_package. intros H. apply result_bind_ok in H as (tasks & Ht & H).
  apply result_bind_ok in H as (tt & Hr & H). apply result_bind_ok in H as ([m1 w1] & H1 & H).
  apply result_bind_ok in H as ([m2 w2] & H2 & H). apply result_bind_ok in H as (cl & Hc & H).
  apply result_bind_ok in H as ([ns w3] & Hl & H). apply result_bind_ok in H as ([ifs w4] & Hi & H).
  apply Ok_inj in H as <-. exists tasks, tt, cl.
  rewrite task_pairs_statements in H1. apply merge_index_pairs in H1 as ->. apply merge_external_pairs in H2 as ->.
  unfold lower_tasks in Hl. apply result_bind_ok in Hl as (lowered & Hl & E). apply Ok_inj in E.
  injection E as <- _. constructor; cbn; try done.
  - by apply read_tasks_spec.
  - apply mapM_result_Forall2 in Hl. induction Hl as [|id [n ws] ids lowered Hx _ IH]; cbn; constructor; [|done].
    destruct (dict_get id (by_id tt)) as [source|]; [|discriminate]. by exists source, ws.
  - by exists ifs, w4.
Qed.

Lemma compile_inv root target c :
  compile_preledger root target = Ok c ->
  exists pk tasks tt cl, open_package root = Ok pk /\ compilation pk (strip target) tasks tt cl c.
Proof.
  intros (pk & Hpk & (tasks & tt & cl & H)%compile_package_inv)%compile_opens. by exists pk, tasks, tt, cl.
Qed.

(** A lowered task, and the record it comes from. *)
Lemma lower_task_spec digest cl id source n ws :
  lower_task digest cl id source = Ok (n, ws) ->
  n.(n_id) = id /\ n.(n_checkpoints) = sorted_set (_produced_checkpoints source) /\
  forall d, d ∈ n.(n_depends_on) <-> (id, d) ∈ cl.(native).
Proof.
  unfold Preledger.lower_task. intros H. apply result_bind_ok in H as (o & _ & H).
  apply result_bind_ok in H as ([k w] & _ & H). apply result_bind_ok in H as (ti & _ & H).
  apply Ok_inj in H. injection H as <- _. cbn. split; [done|]. split; [done|].
  intros d. rewrite merge_sort_Permutation, list_elem_of_fmap. split.
  - intros ([i d'] & -> & H). apply list_elem_of_In, List.filter_In in H as [H Hi].
    apply String.eqb_eq in Hi. cbn in *. subst. by apply list_elem_of_In.
  - intros H. exists (id, d). split; [done|]. apply list_elem_of_In, List.filter_In.
    split; [by apply list_elem_of_In|]. apply String.eqb_refl.
Qed.

Section Facts.
Context pk target tasks tt cl c (Hco : compilation pk target tasks tt cl c).

Lemma plan_ids : map n_id c.(plan_tasks) = sorted_set (selected tt target).
Proof.
  pose proof (co_lowered _ _ _ _ _ _ Hco) as H.
  induction H as [|id n ids ns (source & ws & _ & Hl) _ IH]; cbn; [done|].
  apply lower_task_spec in Hl as (-> & _). by rewrite IH.
Qed.

(** The plan task of a record of the target repository. *)
Lemma plan_task_of t :
  t ∈ tasks -> repository_of t = target ->
  exists n ws, n ∈ c.(plan_tasks) /\ n.(n_id) = task_id_of t /\
    lower_task pk.(pk_digest) cl (task_id_of t) t = Ok (n, ws).
Proof.
  intros Ht Hr. pose proof (co_table _ _ _ _ _ _ Hco) as Htab.
  assert (task_id_of t ∈ sorted_set (selected tt target)) as Hin.
  { apply elem_of_sorted_set, (elem_of_selected _ _ _ _ Htab). by exists t. }
  apply list_elem_of_lookup in Hin as [i Hi].
  destruct (Forall2_lookup_l _ _ _ _ _ (co_lowered _ _ _ _ _ _ Hco) Hi) as (n & Hn & source & ws & Hs & Hl).
  assert (source = t) as ->.
  { pose proof (tab_by_id _ _ Htab) as Hb. assert (dict_get (task_id_of t) tt.(by_id) = Some t); [|congruence].
    apply dict_get_NoDup.
    - rewrite Hb, <-list_fmap_compose. apply (tab_ids _ _ Htab).
    - rewrite Hb. apply list_elem_of_fmap. by exists t. }
  exists n, ws. split; [by eapply list_elem_of_lookup_2|]. split; [|done]. by apply lower_task_spec in Hl as (-> & _).
Qed.

(** The record of a plan task. *)
Lemma plan_task_source n :
  n ∈ c.(plan_tasks) -> exists t ws, t ∈ tasks /\ repository_of t = target /\ n.(n_id) = task_id_of t /\
    lower_task pk.(pk_digest) cl (task_id_of t) t = Ok (n, ws).
Proof.
  intros Hn. pose proof (co_table _ _ _ _ _ _ Hco) as Htab.
  apply list_elem_of_lookup in Hn as [i Hi].
  destruct (Forall2_lookup_r _ _ _ _ _ (co_lowered _ _ _ _ _ _ Hco) Hi) as (id & Hid & source & ws & Hs & Hl).
  apply list_elem_of_lookup_2 in Hid. rewrite elem_of_sorted_set in Hid.
  apply (elem_of_selected _ _ _ _ Htab) in Hid as (t & Ht & <- & Hr).
  assert (source = t) as ->.
  { pose proof (tab_by_id _ _ Htab) as Hb. assert (dict_get (task_id_of t) tt.(by_id) = Some t); [|congruence].
    apply dict_get_NoDup.
    - rewrite Hb, <-list_fmap_compose. apply (tab_ids _ _ Htab).
    - rewrite Hb. apply list_elem_of_fmap. by exists t. }
  exists t, ws. split; [done|]. split; [done|]. split; [|done]. by apply lower_task_spec in Hl as (-> & _).
Qed.

Lemma classified_lists :
  cl.(native) = natives_from tt target (merge_sort pair_le (pairs_of (all_statements pk tt))) /\
  cl.(externals) = externals_from tt target (merge_sort pair_le (pairs_of (all_statements pk tt))).
Proof. pose proof (co_classified _ _ _ _ _ _ Hco) as H. by apply classify_fold in H as (_ & -> & ->). Qed.

(** A stated pair is an item the classifier sees. *)
Lemma stated_pair s p :
  (s, p) ∈ all_statements pk tt -> exists ss, (p, ss) ∈ merge_sort pair_le (pairs_of (all_statements pk tt)) /\ s ∈ ss.
Proof.
  intros H. exists (sources_for p (all_statements pk tt)). rewrite merge_sort_Permutation.
  assert (s ∈ sources_for p (all_statements pk tt)) as Hs by by apply elem_of_sources_for.
  split; [|done]. apply elem_of_pairs_of. split; [|done]. intros E. rewrite E in Hs. by apply not_elem_of_nil in Hs.
Qed.

End Facts.

(** ** Properties of every successful compilation *)

(** The plan holds exactly the tasks of one repository.  Its tasks are the records whose repository is
    the target, once each and sorted by id; the records left out are counted. *)
Theorem compile_selects_repository root target c :
  compile_preledger root target = Ok c ->
  exists pk tasks, open_package root = Ok pk /\ task_records pk = Ok tasks /\
    NoDup (map task_id_of tasks) /\
    StronglySorted String.le (map n_id c.(plan_tasks)) /\ NoDup (map n_id c.(plan_tasks)) /\
    (forall id, id ∈ map n_id c.(plan_tasks) <->
       exists t, t ∈ tasks /\ _nonempty_string t "id" = Ok id /\ _nonempty_string t "repository" = Ok (strip target)) /\
    c.(selected_task_count) = Z.of_nat (length c.(plan_tasks)) /\
    c.(selected_task_count) + c.(excluded_task_count) = Z.of_nat (length tasks).
Proof.
  intros (pk & tasks & tt & cl & Hpk & Hco)%compile_inv. pose proof (co_table _ _ _ _ _ _ Hco) as Htab.
  exists pk, tasks. split; [done|]. rewrite (plan_ids _ _ _ _ _ _ Hco). destruct (co_counts _ _ _ _ _ _ Hco) as (E1 & E2 & _).
  split; [by apply (co_records _ _ _ _ _ _ Hco)|]. split; [by apply (tab_ids _ _ Htab)|].
  split; [apply StronglySorted_sorted_set|]. split; [apply NoDup_sorted_set|]. split; [|split; [|lia]].
  - intros id. rewrite elem_of_sorted_set, (elem_of_selected _ _ _ _ Htab).
    assert (forall t, t ∈ tasks -> exists i r, _nonempty_string t "id" = Ok i /\ _nonempty_string t "repository" = Ok r) as Hv.
    { intros t Ht. pose proof (tab_valid _ _ Htab t Ht) as Hv. unfold task_valid in Hv.
      rewrite !andb_true_iff in Hv. destruct Hv as [[[Hi _] _] Hr].
      apply nonempty_ok in Hi as [i Hi], Hr as [r Hr]. by exists i, r. }
    split; intros (t & Ht & A & B); exists t; destruct (Hv t Ht) as (i & r & Hi & Hr);
      unfold task_id_of, repository_of in *; rewrite Hi, Hr in *; simplify_eq; auto.
  - rewrite E1. f_equal. rewrite <-(length_map n_id), (plan_ids _ _ _ _ _ _ Hco).
    unfold sorted_set. rewrite merge_sort_Permutation.
    apply Permutation_length, NoDup_Permutation.
    + by eapply selected_nodup.
    + apply NoDup_remove_dups.
    + intros x. by rewrite elem_of_remove_dups.
Qed.

(** The plan's dependencies are closed.  A task dependency names a task of the plan, a checkpoint
    dependency names a checkpoint some task of the plan produces. *)
Theorem compile_dependencies_closed root target c n d :
  compile_preledger root target = Ok c -> n ∈ c.(plan_tasks) -> d ∈ n.(n_depends_on) ->
  match d with
  | task_dependency id => id ∈ map n_id c.(plan_tasks)
  | checkpoint_dependency cp => exists n', n' ∈ c.(plan_tasks) /\ cp ∈ n'.(n_checkpoints)
  end.
Proof.
  intros (pk & tasks & tt & cl & _ & Hco)%compile_inv Hn Hd. pose proof (co_table _ _ _ _ _ _ Hco) as Htab.
  destruct (plan_task_source _ _ _ _ _ _ Hco n Hn) as (t & ws & Ht & Hr & Hid & Hl).
  apply lower_task_spec in Hl as (_ & _ & Hdep). apply Hdep in Hd.
  rewrite (proj1 (classified_lists _ _ _ _ _ _ Hco)) in Hd.
  apply elem_of_natives in Hd as (p & ss & _ & _ & Hnat). unfold native_of in Hnat.
  destruct (bool_decide_reflect (p ∈ selected tt (strip target))) as [Hp|Hp].
  { injection Hnat as <-. by rewrite (plan_ids _ _ _ _ _ _ Hco), elem_of_sorted_set. }
  destruct (dict_get p _) as [o|] eqn:Eo; [|done]. case_bool_decide as Ho; [|done]. injection Hnat as <-.
  apply (tab_owner _ _ Htab) in Eo as (t' & Ht' & Hc' & ->).
  apply (elem_of_selected _ _ _ _ Htab) in Ho as (t2 & Ht2 & Hid2 & Hr2).
  destruct (plan_task_of _ _ _ _ _ _ Hco t2 Ht2 Hr2) as (n' & ws' & Hn' & _ & Hl').
  exists n'. split; [done|]. apply lower_task_spec in Hl' as (_ & -> & _). apply elem_of_sorted_set.
  assert (t2 = t') as ->; [|done].
  apply list_elem_of_lookup in Ht2 as [i Hi], Ht' as [j Hj].
  assert (i = j) as ->; [|congruence].
  eapply (NoDup_lookup (map task_id_of tasks)); [apply (tab_ids _ _ Htab)| |].
  - rewrite list_lookup_fmap, Hi. done.
  - rewrite list_lookup_fmap, Hj. cbn. by rewrite Hid2.
Qed.

(** C28: No dependency is dropped.  Every prerequisite a record of the target repository states (in any of
    its three fields, or through a row of either index) is a dependency of its plan task or is reported
    as an external dependency of it. *)
Theorem compile_keeps_dependencies root target c pk tasks t p :
  compile_preledger root target = Ok c ->
  open_package root = Ok pk -> task_records pk = Ok tasks ->
  t ∈ tasks -> repository_of t = strip target ->
  (exists fld, fld ∈ dependency_fields /\ p ∈ _dependency_ids (field fld t)) \/
  (task_id_of t, p) ∈ dependency_rows pk.(pk_dependency_index) ++ external_rows pk.(pk_external_dependencies) ->
  exists n, n ∈ c.(plan_tasks) /\ n.(n_id) = task_id_of t /\
    (task_dependency p ∈ n.(n_depends_on) \/ checkpoint_dependency p ∈ n.(n_depends_on) \/
     exists x, x ∈ c.(external_dependencies) /\ x.(x_task_id) = task_id_of t /\ x.(x_dependency_id) = p).
Proof.
  intros (pk' & tasks' & tt & cl & Hpk' & Hco)%compile_inv Hpk Hrec Ht Hr Hst.
  assert (pk' = pk) as -> by congruence. pose proof (co_table _ _ _ _ _ _ Hco) as Htab.
  assert (tasks' = tasks) as -> by (pose proof (co_records _ _ _ _ _ _ Hco); congruence).
  destruct (plan_task_of _ _ _ _ _ _ Hco t Ht Hr) as (n & ws & Hn & Hid & Hl).
  exists n. split; [done|]. split; [done|]. apply lower_task_spec in Hl as (_ & _ & Hdep).
  assert (exists s, (s, (task_id_of t, p)) ∈ all_statements pk tt) as [s Hs].
  { unfold all_statements, indexed_statements. destruct Hst as [(fld & Hf & Hp)|Hrow].
    - exists fld. rewrite !elem_of_app. do 2 left. unfold statements.
      apply list_elem_of_In, in_concat. eexists. split.
      + apply in_map_iff. exists (task_id_of t, t). split; [reflexivity|]. rewrite (tab_by_id _ _ Htab).
        apply in_map_iff. exists t. split; [done|]. by apply list_elem_of_In.
      + apply in_concat. eexists. split.
        * apply in_map_iff. exists fld. split; [reflexivity|by apply list_elem_of_In].
        * apply in_map_iff. exists p. split; [done|by apply list_elem_of_In].
    - apply elem_of_app in Hrow as [Hrow|Hrow]; eexists; rewrite !elem_of_app; [left; right|right];
        apply list_elem_of_fmap; eexists; (split; [reflexivity|done]). }
  destruct (stated_pair pk tt s _ Hs) as (ss & Hin & _).
  destruct (classified_lists _ _ _ _ _ _ Hco) as [Hnat Hext].
  assert (task_id_of t ∈ selected tt (strip target)) as Hsel.
  { apply (elem_of_selected _ _ _ _ Htab). by exists t. }
  destruct (native_of tt (strip target) p) as [d|] eqn:E.
  - assert (d ∈ n.(n_depends_on)) as Hd.
    { apply Hdep. rewrite Hnat. apply elem_of_natives. by exists p, ss. }
    unfold native_of in E. case_bool_decide; [simplify_eq; by left|].
    destruct (dict_get p _); [|done]. case_bool_decide; [|done]. simplify_eq. right. by left.
  - right. right. exists (external_of tt (task_id_of t, p, ss)). rewrite (co_externals _ _ _ _ _ _ Hco), Hext.
    split; [|done]. by apply elem_of_externals.
Qed.

(** A checkpoint has one producer.  Two tasks of the plan that list the same checkpoint are the same task. *)
Theorem compile_checkpoints_unique root target c n1 n2 cp :
  compile_preledger root target = Ok c -> n1 ∈ c.(plan_tasks) -> n2 ∈ c.(plan_tasks) ->
  cp ∈ n1.(n_checkpoints) -> cp ∈ n2.(n_checkpoints) -> n1.(n_id) = n2.(n_id).
Proof.
  intros (pk & tasks & tt & cl & _ & Hco)%compile_inv H1 H2 C1 C2. pose proof (co_table _ _ _ _ _ _ Hco) as Htab.
  destruct (plan_task_source _ _ _ _ _ _ Hco n1 H1) as (t1 & w1 & T1 & _ & -> & L1).
  destruct (plan_task_source _ _ _ _ _ _ Hco n2 H2) as (t2 & w2 & T2 & _ & -> & L2).
  apply lower_task_spec in L1 as (_ & E1 & _), L2 as (_ & E2 & _).
  rewrite E1, elem_of_sorted_set in C1. rewrite E2, elem_of_sorted_set in C2.
  by apply (tab_agree _ _ Htab t1 t2 cp).
Qed.

End Plan.
