(* ===== verification/PreledgerOrder.v ===== *)
(** * Pre-ledger compiler: the order of the task records

    It reaches the result only through the bytes of the tasks file: the package digest,
    which the notes of every task quote, and the plan digest. *)

From Stdlib Require Import ZArith SpecFloat.
From stdpp Require Import pretty.
From S2P Require Import Prelude PyValue Text Json JsonParse Preledger PreledgerProps PreledgerPlan.
Import Preledger.

#[local] Open Scope string_scope.
#[local] Open Scope Z_scope.
#[local] Open Scope list_scope.

Lemma mapM_result_ext {A B} (f g : A -> result B) l :
  (forall x, x ∈ l -> f x = g x) -> mapM_result f l = mapM_result g l.
Proof.
  induction l as [|x l IH]; intros H; cbn; [done|].
  rewrite (H x) by left. rewrite IH; [done|]. intros y Hy. apply H. by right.
Qed.

Lemma foldM_ext {A B} (f g : B -> A -> result B) b l :
  (forall b x, f b x = g b x) -> foldM f b l = foldM g b l.
Proof.
  intros H. revert b. induction l as [|x l IH]; intros b; cbn; [done|].
  rewrite H. destruct (g b x); cbn; auto.
Qed.

(** ** Pair maps that read the same *)

Record pm_equiv (m m' : pair_map) : Prop := {
  pm_nodup : NoDup m.*1;
  pm_nodup' : NoDup m'.*1;
  pm_get : forall p, dict_get p m = dict_get p m'
}.

Lemma pm_equiv_keys m m' p : pm_equiv m m' -> p ∈ m.*1 <-> p ∈ m'.*1.
Proof. intros [_ _ H]. by rewrite <-!dict_get_is_Some, H. Qed.

Lemma pm_equiv_mem m m' p : pm_equiv m m' -> dict_mem p m = dict_mem p m'.
Proof. intros H. apply bool_decide_ext. by apply pm_equiv_keys. Qed.

Lemma pm_equiv_add source m m' p : pm_equiv m m' -> pm_equiv (add_pair source m p) (add_pair source m' p).
Proof.
  intros [H1 H2 H3]. unfold add_pair. constructor; [by apply dict_set_NoDup..|].
  intros q. rewrite H3. destruct (decide (p = q)) as [<-|Hne]; [by rewrite !dict_get_set_eq|].
  by rewrite !dict_get_set_ne.
Qed.

Lemma pm_equiv_permutation m m' : pm_equiv m m' -> Permutation m m'.
Proof.
  intros [H1 H2 H3]. apply NoDup_Permutation.
  1,2: eapply NoDup_fmap_1; eassumption.
  intros [p ss]. split; intros H.
  - apply dict_get_elem. rewrite <-H3. by apply dict_get_NoDup.
  - apply dict_get_elem. rewrite H3. by apply dict_get_NoDup.
Qed.

(** Sorting by the pair: with distinct pairs there is one sorted list. *)
#[local] Instance pair_le_total : Total pair_le.
Proof.
  intros [[a b] x] [[c d] y]. unfold pair_le. cbn.
  destruct (decide (a = c)) as [->|Hne].
  - destruct (total String.le b d); [left|right]; right; auto.
  - destruct (total String.le a c); [left|right]; left; auto.
Qed.

#[local] Instance pair_le_trans : Transitive pair_le.
Proof.
  intros [[a b] x] [[c d] y] [[e f] z]. unfold pair_le. cbn.
  intros [[N1 L1]|[-> L1]] [[N2 L2]|[-> L2]].
  - left. split; [|by etransitivity]. intros ->. apply N1. by apply (anti_symm String.le).
  - left. done.
  - left. done.
  - right. split; [done|]. by etransitivity.
Qed.

Lemma pm_equiv_sorted m m' : pm_equiv m m' -> merge_sort pair_le m = merge_sort pair_le m'.
Proof.
  intros H. apply (StronglySorted_unique_strong pair_le).
  - intros [[a b] x] [[c d] y] H1 H2 L1 L2. rewrite merge_sort_Permutation in H1, H2.
    assert ((a, b) = (c, d)) as E.
    { unfold pair_le in L1, L2. cbn in L1, L2.
      destruct L1 as [[N1 L1]|[-> L1]], L2 as [[N2 L2]|[E2 L2]]; try congruence.
      - destruct N1. by apply (anti_symm String.le).
      - f_equal. by apply (anti_symm String.le). }
    f_equal; [done|]. injection E as -> ->.
    apply (dict_get_NoDup _ _ _ (pm_nodup _ _ H)) in H1. apply (dict_get_NoDup _ _ _ (pm_nodup' _ _ H)) in H2.
    rewrite (pm_get _ _ H) in H1. congruence.
  - apply StronglySorted_merge_sort; apply _.
  - apply StronglySorted_merge_sort; apply _.
  - rewrite !merge_sort_Permutation. by apply pm_equiv_permutation.
Qed.

Lemma supplement_equiv warning source l m m' ws :
  pm_equiv m m' ->
  exists m1 m1' ws1, foldl (supplement warning source) (m, ws) l = (m1, ws1) /\
    foldl (supplement warning source) (m', ws) l = (m1', ws1) /\ pm_equiv m1 m1'.
Proof.
  revert m m' ws. induction l as [|p l IH]; intros m m' ws H; cbn; [by exists m, m', ws|].
  rewrite (pm_equiv_mem _ _ p H). apply IH. by apply pm_equiv_add.
Qed.

Lemma same_set_ext a b b' : (forall p, p ∈ b <-> p ∈ b') -> same_set a b = same_set a b'.
Proof.
  intros H. unfold same_set. f_equal.
  - induction a as [|x a IH]; cbn; [done|]. rewrite (bool_decide_ext (x ∈ b) (x ∈ b')) by apply H. by rewrite IH.
  - apply eq_iff_eq_true. rewrite !forallb_forall. setoid_rewrite <-list_elem_of_In. by setoid_rewrite H.
Qed.

(** ** Tables of permuted records *)

Lemma filter_permutation {A} (f : A -> bool) l l' : Permutation l l' -> Permutation (List.filter f l) (List.filter f l').
Proof.
  induction 1 as [|x l l' _ IH|x y l|l1 l2 l3 _ IH1 _ IH2]; cbn.
  - done.
  - destruct (f x); [by apply perm_skip|done].
  - destruct (f x), (f y); first [reflexivity|apply perm_swap].
  - by etransitivity.
Qed.

Section Permuted.
Context (tasks tasks' : list pydict) (tt tt' : task_table).
Context (Htab : table_of tasks tt) (Htab' : table_of tasks' tt') (Hperm : Permutation tasks tasks').

Lemma perm_by_id id : dict_get id tt.(by_id) = dict_get id tt'.(by_id).
Proof.
  rewrite (tab_by_id _ _ Htab), (tab_by_id _ _ Htab'). apply dict_get_permutation.
  - rewrite <-list_fmap_compose. apply (tab_ids _ _ Htab).
  - by rewrite Hperm.
Qed.

Lemma perm_repository id : dict_get id tt.(repository_by_id) = dict_get id tt'.(repository_by_id).
Proof.
  rewrite (tab_repository _ _ Htab), (tab_repository _ _ Htab'). apply dict_get_permutation.
  - rewrite <-list_fmap_compose. apply (tab_ids _ _ Htab).
  - by rewrite Hperm.
Qed.

Lemma perm_owner c : dict_get c tt.(checkpoint_owner) = dict_get c tt'.(checkpoint_owner).
Proof.
  apply option_eq. intros o. rewrite (tab_owner _ _ Htab), (tab_owner _ _ Htab'). by setoid_rewrite Hperm.
Qed.

Lemma perm_selected target : Permutation (selected tt target) (selected tt' target).
Proof.
  rewrite (selected_of _ _ _ Htab), (selected_of _ _ _ Htab'). apply Permutation_map.
  by apply filter_permutation.
Qed.

Lemma perm_is_selected target id : bool_decide (id ∈ selected tt target) = bool_decide (id ∈ selected tt' target).
Proof. apply bool_decide_ext. by rewrite (perm_selected target). Qed.

Lemma perm_mem id : dict_mem id tt.(by_id) = dict_mem id tt'.(by_id).
Proof. apply bool_decide_ext. by rewrite <-!dict_get_is_Some, perm_by_id. Qed.

Lemma perm_classify_one target acc e : classify_one tt target acc e = classify_one tt' target acc e.
Proof.
  destruct e as [[dep pre] ss]. unfold classify_one. rewrite perm_mem, !perm_is_selected, perm_owner, !perm_repository.
  destruct (dict_get pre _) as [o|]; [|done]. by rewrite perm_is_selected, perm_repository.
Qed.

End Permuted.

(** The statements of one task are the statements of its pairs. *)
Definition task_statements (task_id : string) (task : pydict) : list (string * dep_pair) :=
  concat (map (fun fld => map (fun p => (fld, (task_id, p))) (_dependency_ids (field fld task))) dependency_fields).

Lemma statements_eq tt : statements tt = concat (map (fun e => task_statements e.1 e.2) tt.(by_id)).
Proof. unfold statements. f_equal. apply map_ext. by intros [id task]. Qed.

Lemma sources_for_app p l k : sources_for p (l ++ k) = sources_for p l ++ sources_for p k.
Proof. unfold sources_for. by rewrite List.filter_app, map_app. Qed.

Lemma sources_for_none p l : (forall e, e ∈ l -> e.2 <> p) -> sources_for p l = [].
Proof.
  unfold sources_for. induction l as [|e l IH]; intros H; cbn; [done|].
  rewrite bool_decide_false by (apply H; left). apply IH. intros e' He'. apply H. by right.
Qed.

Lemma task_statements_id task_id task e : e ∈ task_statements task_id task -> e.2.1 = task_id.
Proof.
  unfold task_statements. intros H. apply list_elem_of_In, in_concat in H as (l & Hl & He).
  apply in_map_iff in Hl as (fld & <- & _). by apply in_map_iff in He as (p & <- & _).
Qed.

Lemma sources_for_statements id p d :
  NoDup d.*1 ->
  sources_for (id, p) (concat (map (fun e => task_statements e.1 e.2) d)) =
  match dict_get id d with Some task => sources_for (id, p) (task_statements id task) | None => [] end.
Proof.
  induction d as [|[id' task] d IH]; intros Hn; [done|]. csimpl in Hn. apply NoDup_cons in Hn as [Hid Hn].
  cbn [map concat fst snd dict_get]. rewrite sources_for_app, (IH Hn).
  destruct (decide (id = id')) as [<-|Hne].
  - rewrite (proj2 (dict_get_None id d)) by done. by rewrite app_nil_r.
  - rewrite (sources_for_none _ (task_statements id' task)); [done|].
    intros e He%task_statements_id E. rewrite E in He. done.
Qed.

Lemma statements_equiv tasks tasks' tt tt' :
  table_of tasks tt -> table_of tasks' tt' -> Permutation tasks tasks' ->
  pm_equiv (pairs_of (statements tt)) (pairs_of (statements tt')).
Proof.
  intros H H' Hp. constructor; [apply pairs_of_nodup..|]. intros [id p].
  rewrite !pairs_of_get, !statements_eq, !sources_for_statements.
  - by rewrite (perm_by_id _ _ _ _ H H' Hp).
  - rewrite (tab_by_id _ _ H'), <-list_fmap_compose. apply (tab_ids _ _ H').
  - rewrite (tab_by_id _ _ H), <-list_fmap_compose. apply (tab_ids _ _ H).
Qed.

Lemma merge_index_equiv tasks tasks' tt tt' m m' index m1 ws :
  table_of tasks tt -> table_of tasks' tt' -> Permutation tasks tasks' -> pm_equiv m m' ->
  merge_index tt m index = Ok (m1, ws) ->
  exists m1', merge_index tt' m' index = Ok (m1', ws) /\ pm_equiv m1 m1'.
Proof.
  intros H H' Hp Hm. destruct index as [[t|e]|]; cbn [merge_index]; [|done|].
  - rewrite !bind_Ok. intros E. apply result_bind_ok in E as ([rows b] & -> & E). rewrite bind_Ok.
    apply result_bind_ok in E as (u & Hr & E). apply raise_if_ok in Hr.
    rewrite (same_set_ext _ _ (List.filter (fun p => dict_mem p.1 tt'.(by_id) && dict_mem p.2 tt'.(by_id)) m'.*1)) in Hr.
    + rewrite Hr. cbn [raise_if]. rewrite bind_Ok. apply Ok_inj in E.
      destruct (supplement_equiv "dependency index supplemented task-local dependencies: " "dependency_edges.csv"
        rows m m' [] Hm) as (a & a' & w & E1 & E2 & E3).
      rewrite E1 in E. injection E as -> ->. rewrite E2. by eexists.
    + intros p. rewrite !list_elem_of_In, !List.filter_In, <-!list_elem_of_In.
      by rewrite (pm_equiv_keys _ _ p Hm), !(perm_mem _ _ _ _ H H' Hp).
  - intros E. apply Ok_inj in E. injection E as <- <-. by exists m'.
Qed.

Lemma merge_external_equiv m m' index m1 ws :
  pm_equiv m m' -> merge_external m index = Ok (m1, ws) ->
  exists m1', merge_external m' index = Ok (m1', ws) /\ pm_equiv m1 m1'.
Proof.
  intros Hm. destruct index as [[t|e]|]; cbn [merge_external]; [|done|].
  - rewrite !bind_Ok. intros E. apply result_bind_ok in E as (rows & -> & E). rewrite bind_Ok.
    apply result_bind_ok in E as (u & Hr & E). apply raise_if_ok in Hr.
    rewrite (same_set_ext _ _ (List.filter (fun p => starts_with "receipt:" p.2) m'.*1)) in Hr.
    + rewrite Hr. cbn [raise_if]. rewrite bind_Ok. apply Ok_inj in E.
      destruct (supplement_equiv "external dependency index supplemented task-local dependencies: "
        "external_dependency_receipts.csv" rows m m' [] Hm) as (a & a' & w & E1 & E2 & E3).
      rewrite E1 in E. injection E as -> ->. rewrite E2. by eexists.
    + intros p. rewrite !list_elem_of_In, !List.filter_In, <-!list_elem_of_In.
      by rewrite (pm_equiv_keys _ _ p Hm).
  - intros E. apply Ok_inj in E. injection E as <- <-. by exists m'.
Qed.

(** ** Interfaces read the selection as a set *)

Lemma lower_interface_ext r ids ids' : (forall x, x ∈ ids <-> x ∈ ids') -> _lower_interface r ids = _lower_interface r ids'.
Proof.
  intros H. unfold _lower_interface. destruct (text_field "id" r); [|done].
  destruct (text_field "owner_task_id" r) as [o|]; [|done]. cbn.
  by rewrite (bool_decide_ext (o ∈ ids) (o ∈ ids')) by apply H.
Qed.

Lemma read_interfaces_ext py_repr catalog ids ids' :
  (forall x, x ∈ ids <-> x ∈ ids') -> read_interfaces py_repr catalog ids = read_interfaces py_repr catalog ids'.
Proof.
  intros H. unfold read_interfaces. destruct catalog as [[v|e]|]; [|done|done].
  rewrite !bind_Ok. destruct (_records _ _ _) as [rs|]; [|done]. rewrite !bind_Ok.
  assert (forall n, lower_interfaces py_repr n rs ids = lower_interfaces py_repr n rs ids') as ->; [|done].
  induction rs as [|r rs IH]; intros n; cbn; [done|]. by rewrite IH, (lower_interface_ext r ids ids' H).
Qed.

(** ** The digest of the package reaches the notes only *)

Definition with_notes (n : native_task) (notes : string) : native_task :=
  {| n_id := n.(n_id); n_kind := n.(n_kind); n_title := n.(n_title); n_objective := n.(n_objective);
     n_notes := notes; n_exclusive_paths := n.(n_exclusive_paths); n_read_paths := n.(n_read_paths);
     n_depends_on := n.(n_depends_on); n_checkpoints := n.(n_checkpoints) |}.

(** A compiled package with other tasks, package digest and file names; its plan digest is that of its plan. *)
Definition reissued (float_repr : spec_float -> string) (sha256 : string -> string) (c : compiled)
    (tasks : list native_task) (digest : string) (files : list string) : compiled :=
  {| project_name := c.(project_name); plan_tasks := tasks; plan_interfaces := c.(plan_interfaces);
     package_digest := digest;
     plan_digest := sha256 (canonical_json float_repr (plan_value c.(project_name) tasks c.(plan_interfaces)));
     selected_task_count := c.(selected_task_count); excluded_task_count := c.(excluded_task_count);
     internal_dependency_count := c.(internal_dependency_count);
     external_dependencies := c.(external_dependencies); interfaces_imported := c.(interfaces_imported);
     warnings := c.(warnings); source_files := files |}.

Section Order.
Context (float_repr : spec_float -> string) (py_repr : pyval -> string).
Context (float_of : string -> spec_float) (sha256 : string -> string).
#[local] Abbreviation compile_preledger := (compile_preledger float_repr py_repr float_of sha256).
#[local] Abbreviation compile_package := (compile_package float_repr py_repr sha256).
#[local] Abbreviation open_package := (open_package float_repr float_of sha256).
#[local] Abbreviation notes_of := (notes_of float_repr).

(** The same task, its notes quoting the one digest and the other. *)
Definition requoted (digest digest' : string) (n n' : native_task) : Prop :=
  exists source, n.(n_notes) = notes_of digest n.(n_id) source /\
    n' = with_notes n (notes_of digest' n.(n_id) source).

Lemma requoted_same digest n n' : requoted digest digest n n' -> n' = n.
Proof. intros (source & E & ->). rewrite <-E. by destruct n. Qed.

Lemma lower_task_digest digest digest' cl id source n ws :
  lower_task float_repr py_repr digest cl id source = Ok (n, ws) ->
  exists n', lower_task float_repr py_repr digest' cl id source = Ok (n', ws) /\ requoted digest digest' n n'.
Proof.
  unfold lower_task. intros H. apply result_bind_ok in H as (o & -> & H).
  apply result_bind_ok in H as ([k w] & -> & H). apply result_bind_ok in H as (ti & -> & H).
  apply Ok_inj in H. injection H as <- <-. eexists. split; [done|]. by exists source.
Qed.

Lemma lower_tasks_digest digest digest' tt tt' target cl ns ws :
  (forall id, dict_get id tt.(by_id) = dict_get id tt'.(by_id)) ->
  Permutation (selected tt target) (selected tt' target) ->
  lower_tasks float_repr py_repr digest tt target cl = Ok (ns, ws) ->
  exists ns', lower_tasks float_repr py_repr digest' tt' target cl = Ok (ns', ws) /\
    Forall2 (requoted digest digest') ns ns'.
Proof.
  intros Hget Hsel H. unfold lower_tasks in *.
  rewrite (sorted_set_ext (selected tt' target) (selected tt target)) by (intros x; by rewrite Hsel).
  apply result_bind_ok in H as (lowered & Hl & E). apply Ok_inj in E. injection E as <- <-.
  apply mapM_result_Forall2 in Hl.
  assert (exists lowered', mapM_result (fun id => match dict_get id (by_id tt') with
      | Some source => lower_task float_repr py_repr digest' cl id source
      | None => Err (KeyError id) end) (sorted_set (selected tt target)) = Ok lowered' /\
    Forall2 (requoted digest digest') lowered.*1 lowered'.*1 /\ lowered.*2 = lowered'.*2) as (lowered' & -> & HF & Hw).
  { induction Hl as [|id [n ws] ids lowered Hx _ (lowered' & IH & HF & Hw)]; [by exists []|]. rewrite Hget in Hx.
    cbn [mapM_result]. destruct (dict_get id (by_id tt')) as [source|]; [|discriminate].
    apply (lower_task_digest _ digest') in Hx as (n' & Hx & Hq). rewrite Hx, bind_Ok, IH, bind_Ok.
    exists ((n', ws) :: lowered'). split; [done|]. csimpl. split; [by constructor|by f_equal]. }
  rewrite bind_Ok. eexists. split; [|exact HF]. change (map snd lowered) with (lowered.*2). by rewrite Hw.
Qed.

Lemma compile_permuted pk pk' target c tasks tasks' :
  compile_package pk target = Ok c ->
  task_records pk = Ok tasks -> task_records pk' = Ok tasks' -> Permutation tasks tasks' ->
  pk'.(pk_interfaces) = pk.(pk_interfaces) -> pk'.(pk_dependency_index) = pk.(pk_dependency_index) ->
  pk'.(pk_external_dependencies) = pk.(pk_external_dependencies) ->
  exists ns, Forall2 (requoted pk.(pk_digest) pk'.(pk_digest)) c.(plan_tasks) ns /\
    compile_package pk' target = Ok (reissued float_repr sha256 c ns pk'.(pk_digest) pk'.(pk_source_files)).
Proof.
  intros H Hrec Hrec' Hp Ei Ed Ee. unfold Preledger.compile_package in *. rewrite Hrec, bind_Ok in H.
  rewrite Hrec', bind_Ok, Ei, Ed, Ee.
  apply result_bind_ok in H as (tt & Hr & H). apply read_tasks_spec in Hr as Htab.
  destruct (read_tasks_complete tasks') as (tt' & Hr').
  { intros t Ht. apply (tab_valid _ _ Htab). by rewrite Hp. }
  { rewrite <-Hp. apply (tab_ids _ _ Htab). }
  { intros t1 t2 cp H1 H2. apply (tab_agree _ _ Htab); by rewrite Hp. }
  apply read_tasks_spec in Hr' as Htab'. rewrite Hr', bind_Ok.
  apply result_bind_ok in H as ([m1 w1] & H1 & H). apply result_bind_ok in H as ([m2 w2] & H2 & H).
  rewrite task_pairs_statements in H1 |- *.
  destruct (merge_index_equiv _ _ _ _ _ _ _ _ _ Htab Htab' Hp (statements_equiv _ _ _ _ Htab Htab' Hp) H1) as (m1' & -> & E1).
  rewrite bind_Ok. destruct (merge_external_equiv _ _ _ _ _ E1 H2) as (m2' & -> & E2). rewrite bind_Ok.
  apply result_bind_ok in H as (cl & Hc & H).
  assert (classify tt' target m2' = Ok cl) as ->.
  { rewrite <-Hc. unfold classify. rewrite (pm_equiv_sorted _ _ E2). symmetry. apply foldM_ext.
    intros b e. by apply (perm_classify_one tasks tasks'). }
  pose proof (perm_selected _ _ _ _ Htab Htab' Hp target) as Hsel.
  rewrite bind_Ok. apply result_bind_ok in H as ([ns w3] & Hl & H).
  destruct (lower_tasks_digest _ pk'.(pk_digest) _ _ _ _ _ _ (perm_by_id _ _ _ _ Htab Htab' Hp) Hsel Hl) as (ns' & -> & HF).
  rewrite bind_Ok. apply result_bind_ok in H as ([ifs w4] & Hi & H).
  rewrite (read_interfaces_ext _ _ (selected tt' target) (selected tt target)) by (intros x; by rewrite Hsel).
  rewrite Hi, bind_Ok. apply Ok_inj in H as <-. exists ns'. split; [done|].
  by rewrite (Permutation_length Hp), (Permutation_length Hsel).
Qed.

(** C38: Order of the task records.  Let two directories read the same but for the order of the task records
    (their bytes, and so their digests, may differ).  If the one compiles, the other does, to the same plan,
    counts, external dependencies, interfaces and warnings: only the package digest, the names of the
    files, the digest quoted in each task's notes and the digest of the plan are its own; and if the digests and the names
    of the files agree, the results are equal. *)
Theorem compile_order_independent root root' target c pk pk' tasks tasks' :
  compile_preledger root target = Ok c ->
  open_package root = Ok pk -> open_package root' = Ok pk' ->
  task_records pk = Ok tasks -> task_records pk' = Ok tasks' -> Permutation tasks tasks' ->
  pk'.(pk_interfaces) = pk.(pk_interfaces) -> pk'.(pk_dependency_index) = pk.(pk_dependency_index) ->
  pk'.(pk_external_dependencies) = pk.(pk_external_dependencies) ->
  exists ns, Forall2 (requoted pk.(pk_digest) pk'.(pk_digest)) c.(plan_tasks) ns /\
    compile_preledger root' target = Ok (reissued float_repr sha256 c ns pk'.(pk_digest) pk'.(pk_source_files)) /\
    (pk'.(pk_digest) = pk.(pk_digest) -> pk'.(pk_source_files) = pk.(pk_source_files) ->
     compile_preledger root' target = Ok c).
Proof.
  intros H Hpk Hpk' Hrec Hrec' Hp Hi Hd He.
  assert (exists ns, Forall2 (requoted pk.(pk_digest) pk'.(pk_digest)) c.(plan_tasks) ns /\
    compile_preledger root' target = Ok (reissued float_repr sha256 c ns pk'.(pk_digest) pk'.(pk_source_files)))
    as (ns & HF & Hc).
  - unfold Preledger.compile_preledger in *. apply result_bind_ok in H as (u & -> & H).
    rewrite Hpk, bind_Ok in H. rewrite bind_Ok, Hpk', bind_Ok. by eapply compile_permuted.
  - exists ns. split; [done|]. split; [done|]. intros Ed Ef.
    rewrite Ed in HF. assert (ns = c.(plan_tasks)) as ->.
    { clear -HF. induction HF as [|n n' l l' Hn _ IH]; [done|]. apply requoted_same in Hn as ->. by rewrite IH. }
    rewrite Hc, Ed, Ef. f_equal. apply compile_inv in H as (pk0 & ts & tt & cl & Hpk0 & Hco).
    assert (pk0 = pk) as -> by congruence. destruct (co_digests _ _ _ _ _ _ _ _ _ Hco) as (E1 & E2 & E3).
    destruct c; cbn in *; unfold reissued; cbn. by rewrite <-E1, <-E3, E2.
Qed.

End Order.

(** * The preledger compiler at work: a package of two repositories compiled for one of them *)

Definition half_repr (_ : spec_float) : string := "0.5".
Definition plain_repr (_ : pyval) : string := "value".
Definition half_of (_ : string) : spec_float := S754_zero false.

(** A digest of 64 digits that depends on the order of the bytes. *)
Definition toy_hash (s : string) : string :=
  let n := foldl (fun h c => (h * 31 + Z.of_nat (code c)) mod 1000003) 7 (String.list_ascii_of_string s) in
  "00000000000000000000000000000000000000000000000000000000" +:+ pretty (10000000 + n).

(** A directory of plain files. *)
Definition disk (files : list (string * string)) : directory :=
  {| d_is_dir := true; d_resolve := fun p => Ok (Some p); d_is_file := fun p => dict_mem p files;
     d_read := fun p => match dict_get p files with Some s => Ok s | None => Err (OSError "no such file") end |}.

Definition record (id repository : string) (requires : list pyval) : pydict :=
  [("id", PStr id); ("prerequisites", PList requires); ("repository", PStr repository); ("title", PStr ("Do " +:+ id))].

Definition t_core : pydict := record "core" "alpha" [].
Definition t_api : pydict := record "api" "alpha" [PStr "core"; PStr "remote"].
Definition t_remote : pydict := record "remote" "beta" [].

(** The tasks, a dependency index that adds one row, and a manifest that vouches for the tasks. *)
Definition root_of (tasks : list pydict) : directory :=
  let text := json_text half_repr (PList (map PDict tasks)) in
  disk [("proposed_todos.json", text);
        ("dependency_edges.csv", "task_id,depends_on" +:+ chr 10 +:+ "api,core" +:+ chr 13 +:+ chr 10 +:+ "core,ghost" +:+ chr 10);
        ("MANIFEST.sha256", "# files" +:+ chr 10 +:+ toy_hash text +:+ " *proposed_todos.json" +:+ chr 10)].

Definition all_tasks : list pydict := [t_core; t_api; t_remote].
Definition moved_tasks : list pydict := [t_remote; t_core; t_api].
Definition compiled_of (tasks : list pydict) : result compiled :=
  compile_preledger half_repr plain_repr half_of toy_hash (root_of tasks) "alpha".
Definition opened (tasks : list pydict) : result package := open_package half_repr half_of toy_hash (root_of tasks).

Example opened_files : (pk_source_files <$> opened all_tasks) =
  Ok ["MANIFEST.sha256"; "dependency_edges.csv"; "proposed_todos.json"].
Proof. vm_compute. reflexivity. Qed.

(** A manifest that does not vouch for the bytes is refused. *)
Example stale_manifest :
  compile_preledger half_repr plain_repr half_of toy_hash
    (disk [("proposed_todos.json", "[]"); ("MANIFEST.sha256", toy_hash "[ ]" +:+ "  proposed_todos.json")]) "alpha" =
  Err (ValueError "manifest hash mismatch").
Proof. vm_compute. reflexivity. Qed.

Example compiled_deps : (fun c => (map (fun n => (n.(n_id), n.(n_depends_on))) c.(plan_tasks),
    map (fun x => (x.(x_dependency_id), x.(x_repository), x.(x_source))) c.(external_dependencies), c.(warnings)))
    <$> compiled_of all_tasks =
  Ok ([("api", [task_dependency "core"]); ("core", [])],
      [("remote", Some "beta", ["prerequisites"]); ("ghost", None, ["dependency_edges.csv"])],
      ["dependency index supplemented task-local dependencies: core -> ghost"]).
Proof. vm_compute. reflexivity. Qed.

Lemma compile_selects_repository_witness :
  exists c, compiled_of all_tasks = Ok c /\ c.(selected_task_count) = 2 /\
    c.(selected_task_count) = Z.of_nat (length c.(plan_tasks)) /\ NoDup (map n_id c.(plan_tasks)).
Proof.
  assert (match compiled_of all_tasks with Ok c => c.(selected_task_count) = 2 | Err _ => False end) as Hc
    by (vm_compute; reflexivity).
  destruct (compiled_of all_tasks) as [c|x] eqn:H; [|destruct Hc]. exists c. split; [reflexivity|]. split; [exact Hc|].
  destruct (compile_selects_repository half_repr plain_repr half_of toy_hash _ _ _ H)
    as (pk & tasks & _ & _ & _ & _ & Hnd & _ & Hlen & _).
  split; [exact Hlen|exact Hnd].
Defined.

(** "remote" is a task of the other repository: reported, not dropped. *)
Lemma compile_keeps_dependencies_witness :
  exists c n, compiled_of all_tasks = Ok c /\ n ∈ c.(plan_tasks) /\ n.(n_id) = "api" /\
    (task_dependency "remote" ∈ n.(n_depends_on) \/ checkpoint_dependency "remote" ∈ n.(n_depends_on) \/
     exists x, x ∈ c.(external_dependencies) /\ x.(x_task_id) = "api" /\ x.(x_dependency_id) = "remote").
Proof.
  assert (is_ok (compiled_of all_tasks) = true) as Hok by (vm_compute; reflexivity).
  assert ((pk ← opened all_tasks; task_records pk) = Ok all_tasks) as Hr by (vm_compute; reflexivity).
  destruct (compiled_of all_tasks) as [c|x] eqn:H; [|discriminate Hok].
  destruct (opened all_tasks) as [pk|x] eqn:E; [|discriminate Hr].
  destruct (compile_keeps_dependencies half_repr plain_repr half_of toy_hash _ _ _ pk all_tasks t_api "remote" H E Hr)
    as (n & Hn & Hid & Hd).
  - right; left.
  - vm_compute. reflexivity.
  - left. exists "prerequisites". split; [compute_decide|compute_decide].
  - exists c, n. split; [reflexivity|]. split; [exact Hn|]. split; [exact Hid|exact Hd].
Defined.

(** The records in another order: other bytes, another package digest, the same plan but for the notes. *)
Lemma compile_order_independent_witness :
  exists c c' pk pk', compiled_of all_tasks = Ok c /\ compiled_of moved_tasks = Ok c' /\
    opened all_tasks = Ok pk /\ opened moved_tasks = Ok pk' /\ pk.(pk_digest) <> pk'.(pk_digest) /\
    Forall2 (requoted half_repr pk.(pk_digest) pk'.(pk_digest)) c.(plan_tasks) c'.(plan_tasks).
Proof.
  assert (is_ok (compiled_of all_tasks) = true) as Hok by (vm_compute; reflexivity).
  assert ((pk ← opened all_tasks; task_records pk) = Ok all_tasks) as Hr by (vm_compute; reflexivity).
  assert ((pk ← opened moved_tasks; task_records pk) = Ok moved_tasks) as Hr' by (vm_compute; reflexivity).
  assert (pk_interfaces <$> opened moved_tasks = pk_interfaces <$> opened all_tasks) as Hi by (vm_compute; reflexivity).
  assert (pk_dependency_index <$> opened moved_tasks = pk_dependency_index <$> opened all_tasks) as Hd
    by (vm_compute; reflexivity).
  assert (pk_external_dependencies <$> opened moved_tasks = pk_external_dependencies <$> opened all_tasks) as He
    by (vm_compute; reflexivity).
  assert (match opened all_tasks, opened moved_tasks with
          | Ok pk, Ok pk' => String.eqb pk.(pk_digest) pk'.(pk_digest) | _, _ => true end = false) as Hne
    by (vm_compute; reflexivity).
  destruct (compiled_of all_tasks) as [c|x] eqn:H; [|discriminate Hok].
  destruct (opened all_tasks) as [pk|x] eqn:E; [|discriminate Hr].
  destruct (opened moved_tasks) as [pk'|x] eqn:E'; [|discriminate Hr'].
  injection Hi as Hi. injection Hd as Hd. injection He as He.
  destruct (compile_order_independent half_repr plain_repr half_of toy_hash _ _ _ c pk pk' all_tasks moved_tasks
              H E E' Hr Hr' (Permutation_sym (Permutation_cons_append [t_core; t_api] t_remote)) Hi Hd He)
    as (ns & HF & Hc & _).
  exists c, (reissued half_repr toy_hash c ns pk'.(pk_digest) pk'.(pk_source_files)), pk, pk'.
  split; [reflexivity|]. split; [exact Hc|]. split; [reflexivity|]. split; [reflexivity|].
  split; [|exact HF]. apply String.eqb_neq. exact Hne.
Defined.
