(* ===== verification/Journal.v ===== *)
(** * The private workflow journal (compact_workflow.py)

    [_PrivateWorkflowStore] keeps one JSON file per principal and profile: entries of
    some kind, under an opaque identity, in a project and repository.  Every method
    takes the file lock, reads and checks the file, and writes it back when something
    changed; the model is a function from the file to a result and the file it leaves.
    A file is what [open] and [json.load] find: whether it is a private regular file of
    the user, its size, and the value it holds when it is JSON.  The clock, the random
    token and SHA-256 are parameters; a CompactWorkflowError is [WorkflowError code]. *)

From Stdlib Require Import ZArith SpecFloat.
From S2P Require Import Prelude PyValue Text Json.

#[local] Open Scope string_scope.
#[local] Open Scope Z_scope.
#[local] Open Scope list_scope.

Module Journal.

Definition _STORE_FORMAT : string := "project-control.compact-workflow-store".
Definition _STORE_VERSION : Z := 1.
Definition _MAX_STORE_BYTES : Z := 32 * 1024 * 1024.
Definition _MAX_RECORDS : nat := Z.to_nat 4096.
Definition _MAX_PREVIEW_BYTES : Z := 1024 * 1024.
Definition _MAX_RESULT_BYTES : Z := 256 * 1024.

(** ** Entries and files *)

Record entry := {
  e_kind : string;
  e_identity : string;
  e_digest : string;
  e_project : string;
  e_repository : string;
  e_created : pyval;
  e_updated : pyval;
  e_data : pydict
}.

Record file := { f_safe : bool; f_size : Z; f_json : option pyval }.

Definition entry_keys : list string :=
  ["kind"; "identity"; "identity_digest"; "project"; "repository"; "created_at"; "updated_at"; "data"].

Definition entry_json (e : entry) : pyval :=
  PDict [("kind", PStr e.(e_kind)); ("identity", PStr e.(e_identity)); ("identity_digest", PStr e.(e_digest));
         ("project", PStr e.(e_project)); ("repository", PStr e.(e_repository));
         ("created_at", e.(e_created)); ("updated_at", e.(e_updated)); ("data", PDict e.(e_data))].

Definition store_json (es : list entry) : pyval :=
  PDict [("format", PStr _STORE_FORMAT); ("version", PInt _STORE_VERSION); ("entries", PList (map entry_json es))].

(** "set(d) == keys". *)
Definition key_set (d : pydict) (keys : list string) : bool :=
  forallb (fun kv => bool_decide (kv.1 ∈ keys)) d && forallb (fun k => dict_mem k d) keys.

(** "type(v) in {int, float}". *)
Definition is_number (v : pyval) : bool := match v with PInt _ | PFloat _ => true | _ => false end.

Definition str_at (k : string) (d : pydict) : option string := dict_get k d ≫= as_str.
Definition number_at (k : string) (d : pydict) : option pyval :=
  v ← dict_get k d; if is_number v then Some v else None.
Definition dict_at (k : string) (d : pydict) : option pydict :=
  v ← dict_get k d; match v with PDict x => Some x | _ => None end.

(** The loop of [_read] over one entry. *)
Definition read_entry (v : pyval) : option entry :=
  match v with
  | PDict d =>
      if key_set d entry_keys then
        kind ← str_at "kind" d; identity ← str_at "identity" d; digest ← str_at "identity_digest" d;
        project ← str_at "project" d; repository ← str_at "repository" d;
        created ← number_at "created_at" d; updated ← number_at "updated_at" d; data ← dict_at "data" d;
        Some {| e_kind := kind; e_identity := identity; e_digest := digest; e_project := project;
                e_repository := repository; e_created := created; e_updated := updated; e_data := data |}
      else None
  | _ => None
  end.

Fixpoint read_entries (l : list pyval) : option (list entry) :=
  match l with
  | [] => Some []
  | v :: l => e ← read_entry v; es ← read_entries l; Some (e :: es)
  end.

Definition store_entries (v : pyval) : option (list entry) :=
  match v with
  | PDict d =>
      if key_set d ["format"; "version"; "entries"]
         && py_eqb (dict_get_default "format" PNone d) (PStr _STORE_FORMAT)
         && eq_int (dict_get_default "version" PNone d) _STORE_VERSION
      then match dict_get "entries" d with
           | Some (PList l) => if (_MAX_RECORDS <? length l)%nat then None else read_entries l
           | _ => None
           end
      else None
  | _ => None
  end.

Definition _read (f : option file) : result (list entry) :=
  match f with
  | None => Ok []
  | Some f =>
      _ ← raise_if (negb f.(f_safe) || (_MAX_STORE_BYTES <? f.(f_size))) (WorkflowError "workflow_store_file_unsafe");
      match f.(f_json) ≫= store_entries with
      | Some es => Ok es
      | None => Err (WorkflowError "workflow_store_file_invalid")
      end
  end.

Section WithHost.
Context (float_repr : spec_float -> string) (sha256 : string -> string).

(** [_canonical], [_digest]. *)
Definition _canonical (v : pyval) : result string := json_dumps float_repr v.
Definition _digest (s : string) : string := sha256 s.

Definition nul : string := chr 0.

Definition _bounded_mapping (value : pydict) (field : string) (limit : Z) : result pydict :=
  match _canonical (PDict value) with
  | Err _ => Err (WorkflowError (field +:+ "_invalid"))
  | Ok text =>
      _ ← raise_if (limit <? Z.of_nat (String.length text)) (WorkflowError (field +:+ "_too_large"));
      Ok value
  end.

Definition _safe_component (value : pyval) (name : string) (maximum : nat) : result string :=
  match value with
  | PStr s =>
      _ ← raise_if (String.eqb (strip s) "" || (maximum <? String.length s)%nat
                    || any_char (fun c => (code c <? 32)%nat) s) (WorkflowError (name +:+ "_invalid"));
      Ok s
  | _ => Err (WorkflowError (name +:+ "_invalid"))
  end.

Definition _write (es : list entry) : result file :=
  match _canonical (store_json es) with
  | Err _ => Err (WorkflowError "workflow_store_record_invalid")
  | Ok text =>
      _ ← raise_if (_MAX_STORE_BYTES <? Z.of_nat (String.length text)) (WorkflowError "workflow_store_full");
      Ok {| f_safe := true; f_size := Z.of_nat (String.length text); f_json := Some (store_json es) |}
  end.

(** [_mutate]: the callback answers a value, the entries and whether to write them. *)
Definition _mutate {A} (fn : list entry -> result (A * list entry * bool)) (f : option file) :
    result A * option file :=
  match (es ← _read f; '(a, es, changed) ← fn es;
         if changed : bool then f' ← _write es; Ok (a, Some f') else Ok (a, f)) with
  | Ok (a, f') => (Ok a, f')
  | Err x => (Err x, f)
  end.

(** ** The store of one actor *)

Record actor := { a_principal : string; a_profile : string }.

Definition open_store (principal profile : pyval) : result actor :=
  p ← _safe_component principal "host_principal" 256;
  q ← _safe_component profile "host_profile" 128;
  Ok {| a_principal := p; a_profile := q |}.

Definition _actor_digest (a : actor) : string := _digest (a.(a_principal) +:+ nul +:+ a.(a_profile)).

Context (self : actor).

Definition _identity (kind identity : string) : string :=
  _digest (_actor_digest self +:+ nul +:+ kind +:+ nul +:+ identity).

Definition has_identity (kind digest : string) (e : entry) : bool :=
  String.eqb e.(e_kind) kind && String.eqb e.(e_digest) digest.

Definition in_scope (project repository : string) (e : entry) : bool :=
  String.eqb e.(e_project) project && String.eqb e.(e_repository) repository.

Definition _find (es : list entry) (kind identity project repository : string) : result (option entry) :=
  match List.filter (has_identity kind (_identity kind identity)) es with
  | [] => Ok None
  | [e] => _ ← raise_if (negb (in_scope project repository e)) (WorkflowError "workflow_handle_scope_mismatch");
           Ok (Some e)
  | _ => Err (WorkflowError "workflow_store_duplicate_identity")
  end.

Definition found (o : option entry) : result entry :=
  match o with Some e => Ok e | None => Err (WorkflowError "workflow_handle_unavailable") end.

(** Assignment to the entry [_find] returned, in the list that holds it. *)
Definition set_entry (kind identity : string) (f : entry -> entry) (es : list entry) : list entry :=
  map (fun e => if has_identity kind (_identity kind identity) e then f e else e) es.

Definition with_data (data : pydict) (updated : pyval) (e : entry) : entry :=
  {| e_kind := e.(e_kind); e_identity := e.(e_identity); e_digest := e.(e_digest); e_project := e.(e_project);
     e_repository := e.(e_repository); e_created := e.(e_created); e_updated := updated; e_data := data |}.

Definition new_entry (kind identity project repository : string) (now : pyval) (data : pydict) : entry :=
  {| e_kind := kind; e_identity := identity; e_digest := _identity kind identity; e_project := project;
     e_repository := repository; e_created := now; e_updated := now; e_data := data |}.

(** "d.update(changes)". *)
Definition dict_update (d changes : pydict) : pydict := foldl (fun d kv => dict_set kv.1 kv.2 d) d changes.

Definition create (kind project repository : string) (data : pydict) (identity : option string)
    (token : string) (now : pyval) (f : option file) : result string * option file :=
  match _bounded_mapping data "workflow_record" _MAX_PREVIEW_BYTES with
  | Err x => (Err x, f)
  | Ok data =>
      let opaque := match identity with Some s => if String.eqb s "" then token else s | None => token end in
      _mutate (fun es =>
        _ ← raise_if (_MAX_RECORDS <=? length es)%nat (WorkflowError "workflow_store_full");
        _ ← raise_if (existsb (fun e => String.eqb e.(e_digest) (_identity kind opaque)) es)
              (WorkflowError "workflow_store_identity_conflict");
        Ok (opaque, es ++ [new_entry kind opaque project repository now data], true)) f
  end.

Definition get (kind : string) (opaque : pyval) (project repository : string) (f : option file) : result pydict :=
  opaque ← _safe_component opaque "workflow_handle" 256;
  es ← _read f;
  o ← _find es kind opaque project repository;
  e ← found o;
  Ok e.(e_data).

Definition get_any_scope (kind : string) (opaque : pyval) (f : option file) : result (string * string * pydict) :=
  opaque ← _safe_component opaque "workflow_handle" 256;
  es ← _read f;
  match List.filter (has_identity kind (_identity kind opaque)) es with
  | [] => Err (WorkflowError "workflow_handle_unavailable")
  | [e] => Ok (e.(e_project), e.(e_repository), e.(e_data))
  | _ => Err (WorkflowError "workflow_store_duplicate_identity")
  end.

Definition update (kind opaque project repository : string) (changes : pydict) (now : pyval) (f : option file) :
    result pydict * option file :=
  match _bounded_mapping changes "workflow_record" _MAX_PREVIEW_BYTES with
  | Err x => (Err x, f)
  | Ok changes =>
      _mutate (fun es =>
        o ← _find es kind opaque project repository;
        e ← found o;
        let data := dict_update e.(e_data) changes in
        Ok (data, set_entry kind opaque (with_data data now) es, true)) f
  end.

Definition list_data (kind project repository : string) (f : option file) : result (list pydict) :=
  es ← _read f;
  Ok (map e_data (List.filter (fun e => String.eqb e.(e_kind) kind && in_scope project repository e) es)).

(** [atomic_update]: the callback may raise; its change is written when it says so. *)
Definition atomic_update (kind opaque project repository : string) (fn : pydict -> result (pydict * bool))
    (now : pyval) (f : option file) : result pydict * option file :=
  _mutate (fun es =>
    o ← _find es kind opaque project repository;
    e ← found o;
    '(data, changed) ← fn e.(e_data);
    Ok (data, set_entry kind opaque (with_data data now) es, changed)) f.

(** ** The current workflow of a scope *)

Definition active_phases : list string :=
  ["selecting"; "workspace_pending"; "dispatch_pending"; "context_pending"; "active"; "finishing";
   "handback_pending"; "report_pending"; "release_pending"].

Definition pointer_identity (project repository : string) : string :=
  "current-" +:+ String.substring 0 40 (_digest (project +:+ nul +:+ repository)).

Definition pointer_digest (project repository : string) : string :=
  _identity "workflow_current" (pointer_identity project repository).

Definition field (k : string) (d : pydict) : pyval := dict_get_default k PNone d.

(** "record.get(k) in {...}": a list or a dict is not hashable. *)
Definition phase_in (phases : list string) (record : pydict) : result bool :=
  match field "phase" record with
  | PStr p => Ok (bool_decide (p ∈ phases))
  | PList _ | PDict _ => Err (TypeError "unhashable type")
  | _ => Ok false
  end.

(** "request.get(k) is not None and request.get(k) != record.get(k)". *)
Definition other_target (k : string) (request record : pydict) : bool :=
  match field k request with
  | PNone => false
  | v => negb (py_eqb v (field k record))
  end.

(** An active workflow that is not the one asked for. *)
Definition already_active (request record : pydict) : bool :=
  if py_eqb (field "phase" record) (PStr "selecting")
  then negb (py_eqb (field "request" record) (PDict request))
  else other_target "task_id" request record || other_target "run_id" request record.

Definition find_current_workflow (project repository : string) (requested : pydict) (f : option file) :
    result (option (string * pydict)) :=
  request ← _bounded_mapping requested "workflow_request" 4096;
  es ← _read f;
  match List.filter (has_identity "workflow_current" (pointer_digest project repository)) es with
  | [] => Ok None
  | p :: more =>
      _ ← raise_if (negb (match more with [] => true | _ => false end) || negb (in_scope project repository p))
            (WorkflowError "workflow_store_current_invalid");
      match dict_get "workflow_handle" p.(e_data) with
      | Some (PStr handle) =>
          match List.filter (has_identity "workflow" (_identity "workflow" handle)) es with
          | [e] =>
              active ← phase_in active_phases e.(e_data);
              if negb active then Ok None
              else _ ← raise_if (already_active request e.(e_data)) (WorkflowError "workflow_task_already_active");
                   Ok (Some (handle, e.(e_data)))
          | _ => Err (WorkflowError "workflow_store_current_invalid")
          end
      | _ => Err (WorkflowError "workflow_store_current_invalid")
      end
  end.

(** The rows [reserve_workflow] follows from a pointer; a pointer without a string finds none. *)
Definition pointed_rows (es : list entry) (p : entry) : list entry :=
  match dict_get "workflow_handle" p.(e_data) with
  | Some (PStr handle) => List.filter (has_identity "workflow" (_identity "workflow" handle)) es
  | _ => []
  end.

Definition pointed_handle (p : entry) : string :=
  match dict_get "workflow_handle" p.(e_data) with Some (PStr h) => h | _ => "" end.

(** What to resume, if anything. *)
Definition resumable (es : list entry) (project repository : string) (request : pydict) (p : entry) :
    result (option (string * pydict)) :=
  _ ← raise_if (negb (in_scope project repository p)) (WorkflowError "workflow_handle_scope_mismatch");
  match pointed_rows es p with
  | [] => Ok None
  | [e] =>
      if in_scope project repository e then
        active ← phase_in active_phases e.(e_data);
        if active : bool then
          _ ← raise_if (already_active request e.(e_data)) (WorkflowError "workflow_task_already_active");
          Ok (Some (pointed_handle p, e.(e_data)))
        else Ok None
      else Ok None
  | _ => Err (WorkflowError "workflow_store_duplicate_identity")
  end.

Definition selecting_record (project repository : string) (request : pydict) (now : pyval) : pydict :=
  [("phase", PStr "selecting"); ("request", PDict request); ("project", PStr project);
   ("repository", PStr repository); ("created_at", now)].

Definition reserve_workflow (project repository : string) (requested : pydict) (token : string) (now : pyval)
    (f : option file) : result (string * pydict * bool) * option file :=
  match _bounded_mapping requested "workflow_request" 4096 with
  | Err x => (Err x, f)
  | Ok request =>
      _mutate (fun es =>
        let pointers := List.filter (has_identity "workflow_current" (pointer_digest project repository)) es in
        resumed ← match pointers with
                  | [] => Ok None
                  | [p] => resumable es project repository request p
                  | _ => Err (WorkflowError "workflow_store_duplicate_current")
                  end;
        match resumed with
        | Some (handle, record) => Ok ((handle, record, false), es, false)
        | None =>
            _ ← raise_if (_MAX_RECORDS <=? length es + match pointers with [] => 1 | _ => 0 end)%nat
                  (WorkflowError "workflow_store_full");
            let data := selecting_record project repository request now in
            let es1 := es ++ [new_entry "workflow" token project repository now data] in
            let pointer := [("workflow_handle", PStr token)] in
            let es2 := match pointers with
                       | [] => es1 ++ [new_entry "workflow_current" (pointer_identity project repository)
                                         project repository now pointer]
                       | _ => set_entry "workflow_current" (pointer_identity project repository)
                                (with_data pointer now) es1
                       end in
            Ok ((token, data, true), es2, true)
        end) f
  end.

Definition pending_review (project repository candidate_id : string) (e : entry) : result bool :=
  if String.eqb e.(e_kind) "workflow" && in_scope project repository e
     && py_eqb (field "mode" e.(e_data)) (PStr "review")
     && py_eqb (field "candidate_id" e.(e_data)) (PStr candidate_id)
  then phase_in ["review_pending"; "review_accepted"] e.(e_data)
  else Ok false.

Fixpoint pending_reviews (project repository candidate_id : string) (es : list entry) : result (list entry) :=
  match es with
  | [] => Ok []
  | e :: es =>
      b ← pending_review project repository candidate_id e;
      l ← pending_reviews project repository candidate_id es;
      Ok (if b : bool then e :: l else l)
  end.

Definition review_record (project repository : string) (data : pydict) (now : pyval) : pydict :=
  dict_update data [("mode", PStr "review"); ("phase", PStr "review_pending"); ("created_at", now);
                    ("project", PStr project); ("repository", PStr repository)].

Definition reserve_review (project repository : string) (candidate : pydict) (token : string) (now : pyval)
    (f : option file) : result (string * pydict * bool) * option file :=
  match (data ← _bounded_mapping candidate "review_workflow" 4096;
         match dict_get "candidate_id" data with
         | Some (PStr c) => _ ← raise_if (String.eqb c "") (WorkflowError "review_candidate_invalid"); Ok (data, c)
         | _ => Err (WorkflowError "review_candidate_invalid")
         end) with
  | Err x => (Err x, f)
  | Ok (data, candidate_id) =>
      _mutate (fun es =>
        existing ← pending_reviews project repository candidate_id es;
        match existing with
        | [e] => Ok ((e.(e_identity), e.(e_data), false), es, false)
        | _ :: _ :: _ => Err (WorkflowError "workflow_store_duplicate_review")
        | [] =>
            _ ← raise_if (_MAX_RECORDS <=? length es)%nat (WorkflowError "workflow_store_full");
            let data := review_record project repository data now in
            Ok ((token, data, true), es ++ [new_entry "workflow" token project repository now data], true)
        end) f
  end.

End WithHost.

End Journal.
