(* ===== verification/Phases.v ===== *)
(** * Durable phases of the compact workflow (compact_workflow.py)

    [CompactWorkflowHost] sends every mutation of the native authority through a phase:
    the exact request, its idempotency key and the revision it expects are journalled
    before the call, so that a lost answer is retried with the same key and body.  The
    native host is a parameter: a state and a function from a tool, a scope and
    arguments to an answer or an exception.  A world is the journal file with that
    state; an exception leaves both as they are.  The last part is the record of an
    administrator's preview, consumed once. *)

From Stdlib Require Import ZArith SpecFloat.
From stdpp Require Import pretty.
From S2P Require Import Prelude PyValue Text Json Journal.
Import Journal.

#[local] Open Scope string_scope.
#[local] Open Scope Z_scope.
#[local] Open Scope list_scope.

Module Phases.

Section Host.
Context (float_repr : spec_float -> string) (sha256 : string -> string) (py_str : pyval -> string).
Context {N : Type} (native : string -> string -> string -> pydict -> N -> result pyval * N).
Context (self : actor) (now : pyval).

Definition world : Type := option file * N.
Abbreviation M A := (world -> result A * world).

Definition ret {A} (a : A) : M A := fun w => (Ok a, w).
Definition raise {A} (x : exn) : M A := fun w => (Err x, w).
Definition bind {A B} (m : M A) (k : A -> M B) : M B := fun w =>
  match m w with (Ok a, w') => k a w' | (Err x, w') => (Err x, w') end.
Definition lift {A} (r : result A) : M A := fun w => (r, w).

(** A method of the store, which reads and writes the journal file only. *)
Definition stored {A} (m : option file -> result A * option file) : M A := fun w =>
  let '(r, f) := m w.1 in (r, (f, w.2)).
Definition reading {A} (m : option file -> result A) : M A := fun w => (m w.1, w).

#[local] Notation "x ;; y" := (bind x (fun _ => y)) (at level 100, right associativity).
#[local] Notation "'let!' x ':=' m 'in' k" := (bind m (fun x => k)) (at level 100, x pattern, right associativity).

(** ** Calling the native host *)

Definition is_status (s : string) (d : pydict) : bool := py_eqb (field "status" d) (PStr s).

Definition _invoke (tool : string) (record arguments : pydict) : M pydict :=
  match field "project" record, field "repository" record with
  | PStr project, PStr repository =>
      fun w =>
        let '(r, n) := native tool project repository arguments w.2 in
        (match r with
         | Err x => Err x
         | Ok (PDict result) =>
             if negb (is_status "ok" result) then Ok result
             else match dict_get "data" result with
                  | Some (PDict data) => Ok data
                  | _ => Err (WorkflowError "native_result_invalid")
                  end
         | Ok _ => Err (WorkflowError "native_result_invalid")
         end, (w.1, n))
  | _, _ => raise (WorkflowError "workflow_scope_invalid")
  end.

Definition show (v : pyval) : string := match v with PStr s => s | _ => py_str v end.

Definition checked_revision (v : pyval) : result Z :=
  match v with
  | PInt z => _ ← raise_if (z <? 0) (WorkflowError "authority_revision_unavailable"); Ok z
  | _ => Err (WorkflowError "authority_revision_unavailable")
  end.

(** The revision the authority reports now. *)
Definition observe_revision (project repository : string) : M pyval :=
  let! observed := _invoke "todo_read_authority" [("project", PStr project); ("repository", PStr repository)]
                     [("limit", PInt 1); ("page_token", PNone); ("expected_revision", PNone)] in
  if is_status "attention_required" observed
  then raise (WorkflowError (show (dict_get_default "reason" (PStr "authority_revision_unavailable") observed)))
  else ret (field "semantic_revision" observed).

(** ** Phase intents *)

Definition _operation_key (handle operation : string) (payload : pydict) : result string :=
  body ← _canonical float_repr (PDict payload);
  Ok ("pcw-" +:+ String.substring 0 44 (_digest sha256 (handle +:+ nul +:+ operation +:+ nul +:+ body))).

Definition payload_of (tool : string) (arguments : pydict) : pydict :=
  [("tool", PStr tool); ("arguments", PDict arguments)].

Definition payload_digest (payload : pydict) : result string :=
  t ← _canonical float_repr (PDict payload); Ok (_digest sha256 t).

Definition has_payload (digest : string) (intent : pydict) : bool :=
  py_eqb (field "payload_digest" intent) (PStr digest).

(** A journalled intent for this payload: its key and revision. *)
Definition read_intent (digest : string) (v : pyval) : result (string * Z) :=
  match v with
  | PDict d =>
      match field "expected_revision" d, field "idempotency_key" d with
      | PInt r, PStr k => if has_payload digest d then Ok (k, r) else Err (WorkflowError "workflow_phase_intent_conflict")
      | _, _ => Err (WorkflowError "workflow_phase_intent_conflict")
      end
  | _ => Err (WorkflowError "workflow_phase_intent_conflict")
  end.

Definition intents_of (record : pydict) : result pydict :=
  match dict_get_default "phase_intents" (PDict []) record with
  | PDict d => Ok d
  | _ => Err (WorkflowError "workflow_phase_intents_invalid")
  end.

Definition new_intent (digest key : string) (revision : Z) : pydict :=
  [("payload_digest", PStr digest); ("idempotency_key", PStr key); ("expected_revision", PInt revision)].

(** [persist]: the first intent of a name wins. *)
Definition persist (name digest key : string) (revision : Z) (current : pydict) : result (pydict * bool) :=
  intents ← intents_of current;
  match field name intents with
  | PNone => Ok (dict_set "phase_intents" (PDict (dict_set name (PDict (new_intent digest key revision)) intents)) current, true)
  | PDict d => _ ← raise_if (negb (has_payload digest d)) (WorkflowError "workflow_phase_intent_conflict");
               Ok (current, false)
  | _ => Err (WorkflowError "workflow_phase_intent_conflict")
  end.

(** "key = idempotency_key or self._operation_key(...)", checked. *)
Definition phase_key (handle name : string) (payload : pydict) (key : pyval) : result string :=
  k ← (if truthy key then Ok key else PStr <$> _operation_key handle ("native:" +:+ name) payload);
  _safe_component k "idempotency_key" 128.

Definition _phase_intent (handle project repository : string) (record : pydict) (name tool : string)
    (arguments : pydict) (expected_revision idempotency_key : pyval) : M (string * Z * pydict) :=
  let! payload := lift (_bounded_mapping float_repr (payload_of tool arguments) "native_phase_intent" (32 * 1024)) in
  let! digest := lift (payload_digest payload) in
  let! latest := reading (get sha256 self "workflow" (PStr handle) project repository) in
  let! intents := lift (intents_of latest) in
  match field name intents with
  | PNone =>
      let! expected := match expected_revision with
                       | PNone => observe_revision project repository
                       | v => ret v
                       end in
      let! revision := lift (checked_revision expected) in
      let! key := lift (phase_key handle name payload idempotency_key) in
      let! current := stored (atomic_update float_repr sha256 self "workflow" handle project repository
                                (persist name digest key revision) now) in
      let! intents := lift (intents_of current) in
      let! kr := lift (read_intent digest (field name intents)) in
      ret (kr, dict_update record current)
  | prior =>
      let! kr := lift (read_intent digest prior) in
      ret (kr, dict_update record latest)
  end.

(** [refresh]: a new revision and key for the same payload. *)
Definition refresh (handle name : string) (payload : pydict) (digest : string) (revision : Z) (current : pydict) :
    result (pydict * bool) :=
  match dict_get "phase_intents" current with
  | Some (PDict intents) =>
      match dict_get name intents with
      | Some (PDict intent) =>
          _ ← raise_if (negb (has_payload digest intent)) (WorkflowError "workflow_phase_intent_conflict");
          match dict_get_default "generation" (PInt 0) intent with
          | PInt generation =>
              _ ← raise_if (generation <? 0) (WorkflowError "workflow_phase_intent_invalid");
              if eq_int (field "expected_revision" intent) revision then Ok (current, false)
              else
                key ← _operation_key handle ("native:" +:+ name +:+ ":retry:" +:+ pretty (generation + 1)) payload;
                let intent := dict_update intent
                  [("expected_revision", PInt revision); ("idempotency_key", PStr key);
                   ("generation", PInt (generation + 1))] in
                Ok (dict_set "phase_intents" (PDict (dict_set name (PDict intent) intents)) current, true)
          | _ => Err (WorkflowError "workflow_phase_intent_invalid")
          end
      | _ => Err (WorkflowError "workflow_phase_intent_unavailable")
      end
  | _ => Err (WorkflowError "workflow_phase_intent_unavailable")
  end.

Definition _refresh_phase_intent (handle project repository : string) (record : pydict) (name tool : string)
    (arguments : pydict) : M pydict :=
  let! observed := observe_revision project repository in
  let! revision := lift (checked_revision observed) in
  let! digest := lift (payload_digest (payload_of tool arguments)) in
  let! current := stored (atomic_update float_repr sha256 self "workflow" handle project repository
                            (refresh handle name (payload_of tool arguments) digest revision) now) in
  ret (dict_update record current).

(** ** Sending a phase *)

Definition stale (result : pydict) : bool :=
  is_status "attention_required" result && py_eqb (field "reason" result) (PStr "stale_authority_revision").

Definition with_intent (arguments : pydict) (kr : string * Z) : pydict :=
  arguments ++ [("idempotency_key", PStr kr.1); ("expected_revision", PInt kr.2)].

(** One turn of the loop: the journalled intent, then the native call. *)
Definition send_phase (handle project repository : string) (record : pydict) (name tool : string)
    (arguments : pydict) (expected_revision idempotency_key : pyval) : M (pydict * pydict) :=
  let! (kr, record) := _phase_intent handle project repository record name tool arguments
                          expected_revision idempotency_key in
  let! result := _invoke tool record (with_intent arguments kr) in
  ret (result, record).

(** [_invoke_phase]: the loop runs twice; the second turn returns whatever it got. *)
Definition _invoke_phase (handle project repository : string) (record : pydict) (name tool : string)
    (arguments : pydict) (expected_revision idempotency_key : pyval) : M (pydict * pydict) :=
  let! (result, record) := send_phase handle project repository record name tool arguments
                              expected_revision idempotency_key in
  if stale result then
    let! record := _refresh_phase_intent handle project repository record name tool arguments in
    send_phase handle project repository record name tool arguments PNone PNone
  else ret (result, record).

End Host.

(** ** Administrator previews *)

Section Admin.
Context (float_repr : spec_float -> string) (sha256 : string -> string) (self : actor).

Definition hex64 (s : string) : bool :=
  (String.length s =? 64)%nat && all_chars (fun c => is_digit c || in_range 97 102 c) s.

Definition record_admin_preview (project repository action package_digest : pyval) (authority_revision : pyval)
    (preview : pydict) (token : string) (now : pyval) (f : option file) : result string * option file :=
  match (project ← _safe_component project "project" 128;
         repository ← _safe_component repository "repository" 128;
         action ← _safe_component action "admin_action" 64;
         match package_digest, authority_revision with
         | PStr digest, PInt revision =>
             _ ← raise_if (negb (hex64 digest) || (revision <? 0)) (WorkflowError "admin_preview_identity_invalid");
             body ← _bounded_mapping float_repr preview "admin_preview" _MAX_PREVIEW_BYTES;
             Ok (project, repository, action, digest, revision, body)
         | _, _ => Err (WorkflowError "admin_preview_identity_invalid")
         end) with
  | Err x => (Err x, f)
  | Ok (project, repository, action, digest, revision, body) =>
      create float_repr sha256 self "admin_preview" project repository
        [("action", PStr action); ("package_digest", PStr digest); ("authority_revision", PInt revision);
         ("preview", PDict body);
         ("idempotency_key", PStr ("pc-" +:+ String.substring 0 48 (_digest sha256 token))); ("result", PNone)]
        (Some token) "" now f
  end.

Definition get_admin_preview (project repository proposal_ref action package_digest authority_revision : pyval)
    (f : option file) : result (option pydict) :=
  project ← _safe_component project "project" 128;
  repository ← _safe_component repository "repository" 128;
  match get sha256 self "admin_preview" proposal_ref project repository f with
  | Err (WorkflowError "workflow_handle_unavailable") => Ok None
  | Err x => Err x
  | Ok record =>
      Ok (if py_eqb (field "action" record) action && py_eqb (field "package_digest" record) package_digest
             && match authority_revision with
                | PNone => true
                | v => py_eqb (field "authority_revision" record) v
                end
          then Some record else None)
  end.

(** [complete]: the first result stays. *)
Definition complete (key : string) (receipt : pydict) (record : pydict) : result (pydict * bool) :=
  _ ← raise_if (negb (py_eqb (field "idempotency_key" record) (PStr key)))
        (WorkflowError "admin_preview_idempotency_mismatch");
  match field "result" record with
  | PNone => Ok (dict_set "result" (PDict receipt) record, true)
  | v =>
      stored ← _canonical float_repr v;
      offered ← _canonical float_repr (PDict receipt);
      _ ← raise_if (negb (String.eqb stored offered)) (WorkflowError "admin_preview_result_conflict");
      Ok (record, false)
  end.

Definition complete_admin_preview (project repository : pyval) (proposal_ref : string) (idempotency_key : pyval)
    (result : pydict) (now : pyval) (f : option file) : Prelude.result pydict * option file :=
  match (project ← _safe_component project "project" 128;
         repository ← _safe_component repository "repository" 128;
         key ← _safe_component idempotency_key "idempotency_key" 128;
         receipt ← _bounded_mapping float_repr result "admin_result" _MAX_RESULT_BYTES;
         Ok (project, repository, key, receipt)) with
  | Err x => (Err x, f)
  | Ok (project, repository, key, receipt) =>
      atomic_update float_repr sha256 self "admin_preview" proposal_ref project repository
        (complete key receipt) now f
  end.

End Admin.

End Phases.
