(* ===== verification/Workflow.v ===== *)
(** * Running and finishing an attempt (compact_workflow.py)

    The part of [CompactWorkflowHost] that keeps an attempt alive and ends it: lease renewal,
    resumption, gates, handing back, reporting and releasing.  The world is that of Phases,
    the journal file and the native host, with the handles whose lease is being renewed.
    Each entry point turns an exception into an "attention_required" answer. *)

From Stdlib Require Import ZArith SpecFloat.
From stdpp Require Import pretty.
From S2P Require Import Prelude PyValue Text Json Journal Phases.
Import Journal Phases.

#[local] Open Scope string_scope.
#[local] Open Scope Z_scope.
#[local] Open Scope list_scope.

Module Workflow.

Definition _MAX_RESPONSE_BYTES : Z := 8 * 1024.
Definition _MAX_CONTEXT_BYTES : Z := 8192.
Definition _MAX_CONTEXT_CAPSULE_BYTES : Z := 64 * 1024.

(** ** Answers and receipts *)

Definition strs (l : list string) : pyval := PList (map PStr l).

Definition _attention (reason : string) (handle : option string) (allowed : list string) (next : pyval) : pydict :=
  [("status", PStr "attention_required"); ("reason", PStr reason); ("allowed_actions", strs allowed);
   ("recommended_next_call", next)]
  ++ match handle with Some h => [("workflow_handle", PStr h)] | None => [] end.

Definition _native_attention (data : pydict) (handle : option string) : pydict :=
  let reason := match field "reason" data with
                | PStr s => if String.eqb s "" then "native_operation_rejected" else s
                | _ => "native_operation_rejected"
                end in
  _attention reason handle match handle with Some _ => ["inspect_task"] | None => [] end PNone.

Definition needs_attention (d : pydict) : bool := is_status "attention_required" d.

Definition _optional_text (value : pydict) (key : string) : result (option string) :=
  let bad := Err (WorkflowError (key +:+ "_invalid")) in
  let text v := match v with
                | PStr s => if String.eqb s "" then bad else Ok (Some s)
                | _ => bad
                end in
  match field key value with
  | PNone => Ok None
  | PDict d => match dict_get "entity_id" d with Some (PStr s) => text (PStr s) | _ => bad end
  | v => text v
  end.

Fixpoint first_of (value : pydict) (first : string) (keys : list string) : result string :=
  match keys with
  | [] => Err (WorkflowError (first +:+ "_missing"))
  | key :: keys => o ← _optional_text value key;
                   match o with Some s => Ok s | None => first_of value first keys end
  end.

Definition _first_text (value : pydict) (key : string) (keys : list string) : result string :=
  first_of value key (key :: keys).

Fixpoint nested (v : pyval) (keys : list string) : pyval :=
  match keys with
  | [] => v
  | key :: keys => match v with PDict d => nested (field key d) keys | _ => PNone end
  end.

Definition text_of (v : pyval) : option string :=
  match v with PStr s => if String.eqb s "" then None else Some s | _ => None end.

Definition _nested_text (value : pydict) (keys : list string) : option string := text_of (nested (PDict value) keys).

Definition opt (v : option string) : pyval := match v with Some s => PStr s | None => PNone end.

Definition phase_is (phase : string) (record : pydict) : bool := py_eqb (field "phase" record) (PStr phase).

(** A counter of the record: an int, not a bool, and not negative. *)
Definition counter (key : string) (record : pydict) : option Z :=
  match dict_get_default key (PInt 0) record with
  | PInt z => if z <? 0 then None else Some z
  | _ => None
  end.

(** ** The handoff proof *)

Definition _validate_handoff_proof (float_repr : spec_float -> string) (proof record : pydict) : result pydict :=
  let text key := match text_of (field key proof) with
                  | Some s => Ok s
                  | None => Err (WorkflowError "authoring_handoff_proof_incomplete")
                  end in
  _ ← text "attempt_id";
  _ ← text "source_commit";
  digest ← text "source_digest";
  _ ← raise_if (negb (py_eqb (field "attempt_id" proof) (field "attempt_id" record)))
        (WorkflowError "authoring_handoff_proof_scope_mismatch");
  _ ← raise_if (negb (hex64 digest)) (WorkflowError "authoring_handoff_source_digest_invalid");
  _bounded_mapping float_repr proof "authoring_handoff_proof" _MAX_RESULT_BYTES.

(** ** Gates *)

Definition verdict_keys : list string := ["status"; "verdict"; "passed"; "exit_code"; "returncode"; "reason"].

Definition is_scalar (v : pyval) : bool :=
  match v with PStr _ | PInt _ | PBool _ | PFloat _ | PNone => true | _ => false end.

(** The first scalar of each key, from the observation and then the receipt. *)
Definition add_verdict (source : pydict) (verdict : pydict) (key : string) : pydict :=
  match dict_get key source with
  | Some v => if is_scalar v && negb (dict_mem key verdict) then dict_set key v verdict else verdict
  | None => verdict
  end.

Definition verdict_of (result : pydict) : pydict :=
  foldl (fun verdict source => match field source result with
                               | PDict d => foldl (add_verdict d) verdict verdict_keys
                               | _ => verdict
                               end) [] ["observation"; "provider_receipt"].

Definition reference_id (v : pyval) : pyval :=
  match v with PDict d => match dict_get "entity_id" d with Some (PStr s) => PStr s | _ => PNone end | _ => PNone end.

Definition _verification_summary (requirement_id : string) (result : pydict) (intent : pyval) : pydict :=
  [("requirement_id", PStr requirement_id); ("state", dict_get_default "state" (PStr "unknown") result);
   ("operation_id", reference_id (field "operation" result)); ("attempt_id", reference_id (field "attempt" result));
   ("target_id", reference_id (field "target" result)); ("requirement_ref_id", reference_id (field "requirement" result))]
  ++ map (fun k => (k, field k result))
       ["plan_revision_id"; "verifier"; "contract_digest"; "source_digest"; "request_digest"; "evidence_id";
        "stale_reason"; "created_at"; "updated_at"]
  ++ match verdict_of result with [] => [] | verdict => [("verdict", PDict verdict)] end
  ++ match intent with
     | PDict d => [("native_request", PDict (("tool", PStr "todo_verify_attempt") ::
                     omap (fun k => v ← dict_get k d; Some (k, v))
                       ["idempotency_key"; "expected_revision"; "payload_digest"; "generation"]))]
     | _ => []
     end.

(** "set(record.get("requirement_ids", []))". *)
Definition declared_requirements (record : pydict) : result (list pyval) :=
  l ← py_iter (dict_get_default "requirement_ids" (PList []) record);
  _ ← raise_if (negb (forallb hashable l)) (TypeError "unhashable type");
  Ok l.

Definition requested_requirements (payload record : pydict) : result (list string) :=
  let bad := Err (WorkflowError "requirement_ids_invalid") in
  match dict_get "requirement_ids" payload with
  | Some (PList l) => match all_strs l with Some ids => Ok ids | None => bad end
  | Some _ => bad
  | None => match dict_get_default "requirement_ids" (PList []) record with
            | PList l => match all_strs l with Some ids => Ok ids | None => bad end
            | _ => bad
            end
  end.

Definition declared_in (declared : list pyval) (id : string) : bool := existsb (py_eqb (PStr id)) declared.

(** ** Packets *)

Definition review_pending_value (handle : string) (record : pydict) : pydict :=
  [("status", PStr "review_pending"); ("task_id", field "task_id" record); ("workflow_handle", PStr handle);
   ("candidate_handle", field "candidate_handle" record); ("reported_disposition", field "outcome_disposition" record);
   ("requested_action", field "finish_action" record); ("allowed_actions", strs ["inspect_task"; "next_task"]);
   ("recommended_next_call", PStr "next_task")].

(** "value for value in (note, reason) if value", joined by a newline. *)
Definition join_notes (values : list pyval) : result string :=
  match all_strs (List.filter truthy values) with
  | Some ss => Ok (String.concat (chr 10) ss)
  | None => Err (TypeError "sequence item: expected str instance")
  end.

(** ** The host *)

Section Host.
Context (float_repr : spec_float -> string) (sha256 : string -> string) (py_str : pyval -> string).
Context {N0 : Type} (host : string -> string -> string -> pydict -> N0 -> result pyval * N0).
Context (self : actor) (now : pyval).

(** The native host with the handles that have a live renewal worker. *)
Definition session : Type := N0 * list string.

Definition native (tool project repository : string) (arguments : pydict) (s : session) : result pyval * session :=
  let '(r, n) := host tool project repository arguments s.1 in (r, (n, s.2)).

Abbreviation M A := (option file * session -> result A * (option file * session)).
Abbreviation invoke := (_invoke native).
Abbreviation invoke_phase := (_invoke_phase float_repr sha256 py_str native self now).
#[local] Notation "x ;; y" := (bind x (fun _ => y)) (at level 100, right associativity).
#[local] Notation "'let!' x ':=' m 'in' k" := (bind m (fun x => k)) (at level 100, x pattern, right associativity).

Definition check (b : bool) (x : exn) : M unit := lift (raise_if b x).

(** The outer "except" clauses of an entry point. *)
Definition guarded (handle : option string) (allowed : list string) (fallback : string) (m : M pydict) : M pydict := fun w =>
  match m w with
  | (Err (WorkflowError code), w) => (Ok (_attention code handle allowed PNone), w)
  | (Err _, w) => (Ok (_attention fallback handle [] PNone), w)
  | r => r
  end.

Definition _bounded_response (value : pydict) (limit : Z) : result pydict :=
  _bounded_mapping float_repr value "workflow_response" limit.

Definition respond (value : pydict) : M pydict := lift (_bounded_response value _MAX_RESPONSE_BYTES).

Definition _handle (handle : string) : M (string * string * pydict) :=
  reading (get_any_scope sha256 self "workflow" (PStr handle)).

Definition stored_record (handle project repository : string) : M pydict :=
  reading (get sha256 self "workflow" (PStr handle) project repository).

Definition _update (handle project repository : string) (changes : pydict) : M pydict :=
  stored (update float_repr sha256 self "workflow" handle project repository changes now).

(** "record.update(project=project, repository=repository)". *)
Definition with_scope (project repository : string) (record : pydict) : pydict :=
  dict_update record [("project", PStr project); ("repository", PStr repository)].

Definition update_record (handle project repository : string) (changes : pydict) : M unit :=
  _update handle project repository changes ;; ret tt.

(** ** Lease renewal *)

Definition _heartbeat_active (handle project repository : string) (record : pydict) : M pydict :=
  match field "attempt_id" record, field "lease_id" record, field "plan_revision_id" record,
        counter "heartbeat_generation" record with
  | PStr attempt, PStr lease, PStr plan, Some generation =>
      let! (renewed, _) := invoke_phase handle project repository record ("heartbeat:" +:+ pretty generation)
          "todo_heartbeat_attempt"
          [("attempt_id", PStr attempt); ("lease_id", PStr lease); ("plan_revision_id", PStr plan)] PNone PNone in
      if needs_attention renewed then ret (_native_attention renewed (Some handle))
      else match _nested_text renewed ["result"; "lease_id"] with
           | None => ret (_attention "lease_renewal_receipt_incomplete" (Some handle) [] PNone)
           | Some next =>
               update_record handle project repository
                 [("lease_id", PStr next); ("heartbeat_generation", PInt (generation + 1));
                  ("last_heartbeat_receipt", PDict renewed); ("renewal_attention", PNone)] ;;
               ret [("status", PStr "ok")]
           end
  | _, _, _, _ => ret (_attention "workflow_attempt_binding_incomplete" (Some handle) [] PNone)
  end.

Definition workers_start (handle : string) (l : list string) : list string :=
  if bool_decide (handle ∈ l) then l else l ++ [handle].
Definition workers_stop (handle : string) (l : list string) : list string :=
  List.filter (fun h => negb (String.eqb h handle)) l.

(** The worker of a handle is started once. *)
Definition _ensure_lease_renewal (handle : string) : M unit := fun w =>
  (Ok tt, (w.1, (w.2.1, workers_start handle w.2.2))).

(** The worker is stopped and joined: it runs no further turn. *)
Definition _stop_lease_renewal (handle : string) : M unit := fun w =>
  (Ok tt, (w.1, (w.2.1, workers_stop handle w.2.2))).

(** One turn of the loop: whether the worker goes on. *)
Definition renewal_turn (handle project repository : string) : M bool :=
  let! record := stored_record handle project repository in
  let! live := lift (phase_in ["active"; "context_pending"] record) in
  if negb live then ret false
  else
    let! renewed := _heartbeat_active handle project repository record in
    if needs_attention renewed then
      update_record handle project repository
        [("renewal_attention", dict_get_default "reason" (PStr "lease_renewal_failed") renewed)] ;;
      ret false
    else ret true.

(** The turn with its "except" and "finally" clauses, when the worker is alive. *)
Definition _lease_renewal_loop (handle project repository : string) : M unit := fun w =>
  if bool_decide (handle ∈ w.2.2) then
    match renewal_turn handle project repository w with
    | (Ok true, w) => (Ok tt, w)
    | (Ok false, w) => _stop_lease_renewal handle w
    | (Err _, w) =>
        _stop_lease_renewal handle
          (update_record handle project repository [("renewal_attention", PStr "lease_renewal_failed")] w).2
    end
  else (Ok tt, w).

(** Only the exact persisted attempt is observed and renewed. *)
Definition _resume_active_locked (handle project repository : string) (record : pydict) : M pydict :=
  match map (fun k => text_of (field k record))
          ["attempt_id"; "lease_id"; "task_id"; "run_id"; "assignment_id"; "plan_revision_id"] with
  | [Some attempt; Some lease; Some task; Some run; Some assignment; Some plan] =>
      let! inspected := invoke "todo_inspect_attempt" (with_scope project repository record)
                          [("attempt_id", PStr attempt)] in
      if needs_attention inspected then ret (_native_attention inspected (Some handle))
      else match counter "resume_generation" record with
           | None => ret (_attention "workflow_resume_generation_invalid" (Some handle) [] PNone)
           | Some generation =>
               let! (resumed, _) := invoke_phase handle project repository record ("resume:" +:+ pretty generation)
                   "todo_resume_attempt"
                   [("attempt_id", PStr attempt); ("lease_id", PStr lease); ("plan_revision_id", PStr plan);
                    ("work_item_id", PStr task); ("run_id", PStr run); ("assignment_id", PStr assignment)] PNone PNone in
               if needs_attention resumed then ret (_native_attention resumed (Some handle))
               else match _nested_text resumed ["result"; "lease_id"] with
                    | None => ret (_attention "attempt_resume_receipt_incomplete" (Some handle) [] PNone)
                    | Some next =>
                        update_record handle project repository
                          [("lease_id", PStr next); ("resume_generation", PInt (generation + 1));
                           ("last_resume_receipt", PDict resumed); ("last_attempt_inspection", PDict inspected);
                           ("renewal_attention", PNone)] ;;
                        ret [("status", PStr "ok")]
                    end
           end
  | _ => ret (_attention "workflow_attempt_binding_incomplete" (Some handle) [] PNone)
  end.

Definition _resume_active := _resume_active_locked.

(** ** Gates *)

(** The summaries so far, or the first answer that needs attention. *)
Fixpoint run_each (handle project repository : string) (record intents : pydict) (done : list pyval) (ids : list string) :
    M pydict :=
  match ids with
  | [] => respond [("status", PStr "ok"); ("verified", PList done); ("workflow_handle", PStr handle)]
  | id :: ids =>
      let! (result, _) := invoke_phase handle project repository record ("verify:" +:+ id) "todo_verify_attempt"
          [("attempt_id", field "attempt_id" record); ("requirement_id", PStr id)] PNone PNone in
      if needs_attention result then ret (_native_attention result (Some handle))
      else run_each handle project repository record intents
             (done ++ [PDict (_verification_summary id result (field ("verify:" +:+ id) intents))]) ids
  end.

Definition _run_gates_locked (handle project repository : string) (record payload : pydict) : M pydict :=
  let! requested := lift (requested_requirements payload record) in
  let! declared := lift (declared_requirements record) in
  check (negb (forallb (declared_in declared) requested)) (WorkflowError "requirement_not_declared_in_plan") ;;
  let! intents := lift (intents_of record) in
  run_each handle project repository record intents [] requested.

Definition _run_gates := _run_gates_locked.

(** ** Finishing *)

Definition _review_pending_packet (handle : string) (record : pydict) : M pydict := respond (review_pending_value handle record).

Definition outcome_disposition (action : string) : option string :=
  if String.eqb action "complete" then Some "completed"
  else if String.eqb action "handoff" then Some "no_change"
  else if String.eqb action "block" then Some "failed" else None.

(** What is journalled before the first native call of a finish. *)
Definition finish_record (handle action : string) (disposition note reason : pyval) (token : string) : result pydict :=
  report ← _operation_key float_repr sha256 handle "finish:report"
             [("action", PStr action); ("disposition", disposition); ("note", note); ("reason", reason)];
  handback ← _operation_key float_repr sha256 handle "finish:handback" [];
  release ← _operation_key float_repr sha256 handle "finish:release" [];
  Ok [("phase", PStr "handback_pending"); ("finish_action", PStr action);
      ("outcome_disposition", opt (outcome_disposition action)); ("finish_note", note); ("finish_reason", reason);
      ("candidate_handle", match outcome_disposition action with Some _ => PStr token | None => PNone end);
      ("report_key", PStr report); ("handback_key", PStr handback); ("release_key", PStr release)].

(** From "active": the gates for a completion, then the finish is journalled.  An early
    answer on the left, the record on the right. *)
Definition begin_finish (handle project repository action : string) (disposition note reason : pyval) (token : string)
    (record : pydict) : M (pydict + pydict) :=
  check (String.eqb action "complete" && negb match disposition with PNone => true | v => py_eqb v (PStr "completed") end)
    (WorkflowError "completion_disposition_conflicts") ;;
  let! gates := (if String.eqb action "complete" then _run_gates handle project repository record []
                 else ret [("status", PStr "ok")]) in
  if negb (is_status "ok" gates) then ret (inl gates)
  else
    _stop_lease_renewal handle ;;
    let! record := stored_record handle project repository in
    let! finish := lift (finish_record handle action (opt (outcome_disposition action)) note reason token) in
    update_record handle project repository finish ;;
    ret (inr (dict_update (with_scope project repository record) finish)).

(** A repeated finish must ask the same thing. *)
Definition continue_finish (action : string) (note reason : pyval) (record : pydict) : result pydict :=
  _ ← raise_if (negb (py_eqb (field "finish_action" record) (PStr action)))
        (WorkflowError "finish_action_conflicts_with_pending_operation");
  _ ← raise_if (match note with PNone => false | v => negb (py_eqb v (field "finish_note" record)) end)
        (WorkflowError "finish_note_conflicts_with_pending_operation");
  _ ← raise_if (match reason with PNone => false | v => negb (py_eqb v (field "finish_reason" record)) end)
        (WorkflowError "finish_reason_conflicts_with_pending_operation");
  Ok record.

Definition handback_step (handle project repository : string) (record : pydict) : M (pydict + pydict) :=
  if negb (phase_is "handback_pending" record) then ret (inr record)
  else
    let! (handback, record) := invoke_phase handle project repository record "finish:handback" "todo_handback_attempt"
        [("attempt_id", field "attempt_id" record); ("lease_id", field "lease_id" record)] PNone (field "handback_key" record) in
    if needs_attention handback then ret (inl (_native_attention handback (Some handle)))
    else
      let! proof := lift (_validate_handoff_proof float_repr handback record) in
      let changes := [("handback_proof", PDict proof);
                      ("phase", PStr (if truthy (field "outcome_disposition" record) then "report_pending" else "release_pending"))] in
      update_record handle project repository changes ;;
      ret (inr (dict_update record changes)).

Definition report_step (handle project repository : string) (record : pydict) (note reason : pyval) : M pydict :=
  let! combined := lift (join_notes [note; reason]) in
  let! (report, record) := invoke_phase handle project repository record "finish:report" "todo_report_outcome"
      [("attempt_id", field "attempt_id" record); ("disposition", field "outcome_disposition" record);
       ("note", if String.eqb combined "" then PNone else PStr combined)] PNone (field "report_key" record) in
  if needs_attention report then ret (_native_attention report (Some handle))
  else match _nested_text report ["candidate_ref"; "entity_id"] with
       | None => ret (_attention "outcome_report_receipt_incomplete" (Some handle) [] PNone)
       | Some candidate =>
           let changes := [("candidate_id", PStr candidate); ("report_receipt", PDict report); ("phase", PStr "review_pending")] in
           update_record handle project repository changes ;;
           _review_pending_packet handle (dict_update record changes)
       end.

Definition release_step (handle project repository : string) (record : pydict) : M pydict :=
  let! (released, record) := invoke_phase handle project repository record "finish:release" "todo_release_attempt"
      [("attempt_id", field "attempt_id" record); ("lease_id", field "lease_id" record)] PNone (field "release_key" record) in
  if needs_attention released then ret (_native_attention released (Some handle))
  else
    update_record handle project repository [("phase", PStr "released"); ("release_receipt", PDict released)] ;;
    respond [("status", PStr "released"); ("workflow_handle", PStr handle); ("task_id", field "task_id" record);
             ("candidate_handle", field "candidate_handle" record); ("allowed_actions", strs ["inspect_task"; "next_task"]);
             ("recommended_next_call", PStr "next_task")].

(** The pending steps of a finish, in order. *)
Definition finish_steps (handle project repository : string) (record : pydict) (note reason : pyval) : M pydict :=
  let! next := handback_step handle project repository record in
  match next with
  | inl answer => ret answer
  | inr record =>
      if phase_is "report_pending" record then report_step handle project repository record note reason
      else if phase_is "release_pending" record then release_step handle project repository record
      else ret (_attention "workflow_recovery_required" (Some handle) [] PNone)
  end.

Definition pending_phases : list string := ["handback_pending"; "report_pending"; "release_pending"].
Definition ended_phases : list string := ["released"; "review_accepted"; "review_rejected"; "integrated"].

(** [finish_task] on an authoring handle, for the actions that end an attempt. *)
Definition finish_authoring (handle project repository action : string) (disposition note reason : pyval) (token : string)
    (record : pydict) : M pydict :=
  check (py_eqb (field "mode" record) (PStr "review")) (WorkflowError "authoring_handle_required") ;;
  if phase_is "review_pending" record then _review_pending_packet handle record
  else
    let! ended := lift (phase_in ended_phases record) in
    if ended : bool then
      respond [("status", field "phase" record); ("workflow_handle", PStr handle);
               ("allowed_actions", strs ["inspect_task"; "next_task"]); ("recommended_next_call", PStr "next_task")]
    else if phase_is "active" record then
      let! begun := begin_finish handle project repository action disposition note reason token record in
      match begun with
      | inl answer => ret answer
      | inr record => finish_steps handle project repository record note reason
      end
    else
      let! pending := lift (phase_in pending_phases record) in
      check (negb pending) (WorkflowError "workflow_attempt_not_active") ;;
      let! record := lift (continue_finish action note reason record) in
      finish_steps handle project repository record (field "finish_note" record) (field "finish_reason" record).

Definition authoring_actions : list string := ["complete"; "handoff"; "block"; "release"].
Definition review_actions : list string := ["accept"; "reject"; "integrate"].

Definition optional_component (v : pyval) (name : string) (maximum : nat) : result pyval :=
  match v with PNone => Ok PNone | v => PStr <$> _safe_component v name maximum end.

(** [finish_task]; [review] is what it does on a reviewer's decision. *)
Definition finish_with (review : string -> string -> pydict -> pyval -> M pydict) (handle : string) (action : string)
    (disposition note reason : pyval) (token : string) : M pydict :=
  guarded (Some handle) [] "compact_workflow_finish_failed" (
    check (negb (bool_decide (action ∈ authoring_actions ++ review_actions))) (WorkflowError "finish_action_unsupported") ;;
    let! note := lift (optional_component note "note" (Z.to_nat 4000)) in
    let! reason := lift (optional_component reason "reason" (Z.to_nat 2000)) in
    let! (project, repository, record) := _handle handle in
    let record := with_scope project repository record in
    if bool_decide (action ∈ review_actions) then review handle action record reason
    else finish_authoring handle project repository action disposition note reason token record).

End Host.

End Workflow.
