(* ===== verification/Coordinate.v ===== *)
(** * Coordinating an attempt (compact_workflow.py)

    [coordinate_task]: one typed action of an attempt or of a reviewer.  The action becomes a
    tool of the native host and its arguments; it is sent as a journalled phase and its
    receipt is kept with the handle.  Two receipts end a handle only when they prove what
    they claim: an integration that was applied, a recovery that released this attempt. *)

From Stdlib Require Import ZArith SpecFloat.
From stdpp Require Import pretty.
From S2P Require Import Prelude PyValue Text Json Journal Phases Workflow.
Import Journal Phases Workflow.

#[local] Open Scope string_scope.
#[local] Open Scope Z_scope.
#[local] Open Scope list_scope.

Module Coordinate.

(** ** Integration receipts *)

Record integration := {
  in_applied : bool;
  in_operation : option string;
  in_state : string;
  in_disposition : option string;
  in_reason : string
}.

Definition no_integration : integration :=
  {| in_applied := false; in_operation := None; in_state := "unknown"; in_disposition := None;
     in_reason := "integration_receipt_invalid" |}.

Definition str_of (v : pyval) : option string := match v with PStr s => Some s | _ => None end.

Definition mapping_of (v : pyval) : option pydict := match v with PDict d => Some d | _ => None end.

(** The payload of a versioned document of one kind. *)
Definition document_payload (kind : string) (d : pydict) : option pydict :=
  if py_eqb (field "format" d) (PStr "todo-orchestrator.api-document") && eq_int (field "version" d) 1
     && py_eqb (field "kind" d) (PStr kind)
  then mapping_of (field "payload" d) else None.

Definition failed_states : list string := ["dirty"; "conflict"; "unknown"; "not_applied"; "rejected"].

(** The request and the observation are of this integration. *)
Definition integration_matches (payload : pydict) : bool :=
  match field "operation_id" payload, mapping_of (field "request" payload), mapping_of (field "observation" payload) with
  | PStr operation, Some request, Some observation =>
      negb (String.eqb operation "") && py_eqb (field "operation" request) (PStr "integrate")
      && py_eqb (field "operation_id" observation) (PStr operation)
  | _, _, _ => false
  end.

Definition source_valid (v : pyval) : bool := match v with PStr s => hex64 s | _ => false end.

Definition _git_integration_result (result : pyval) : Prelude.result integration :=
  match mapping_of result ≫= document_payload "git_effect" with
  | None => Ok no_integration
  | Some payload =>
      let state := field "state" payload in
      let observation := default [] (mapping_of (field "observation" payload)) in
      let disposition := str_of (field "disposition" observation) in
      _ ← raise_if (negb (hashable state)) (TypeError "unhashable type");
      let failed := match state with PStr s => bool_decide (s ∈ failed_states) | _ => false end in
      let applied := integration_matches payload && py_eqb state (PStr "finalized")
                     && bool_decide (disposition = Some "applied") && source_valid (field "resulting_source" observation) in
      Ok {| in_applied := applied; in_operation := str_of (field "operation_id" payload);
            in_state := default "unknown" (str_of state); in_disposition := disposition;
            in_reason := if applied then "integration_applied"
                         else if failed then "integration_" +:+ default "" (str_of state)
                         else "integration_not_confirmed_applied" |}
  end.

Definition integration_value (handle : string) (i : integration) : pydict :=
  let has := match i.(in_operation) with Some s => negb (String.eqb s "") | None => false end in
  [("status", PStr "attention_required"); ("reason", PStr i.(in_reason)); ("workflow_handle", PStr handle);
   ("integration_state", PStr i.(in_state)); ("disposition", opt i.(in_disposition)); ("operation_id", opt i.(in_operation));
   ("allowed_actions", strs ["inspect_task"]);
   ("recommended_next_call", PStr (if has then "inspect_task(kind=effect, target=<operation_id>)"
                                   else "inspect_task(kind=integration)"))]
  ++ if has then [("recovery_route", PStr
       "Inspect this exact external operation and use only its current native recovery intent.")] else [].

(** ** Recovery receipts *)

Definition _recovery_payload (result : pydict) : pydict :=
  if py_eqb (field "format" result) (PStr "todo-orchestrator.api-document")
  then default [] (document_payload "recovery" result)
  else result.

Definition releasing : list string := ["release_expired_attempt"; "handoff_dirty_workspace"].

(** "result.get("disposition") in {...}". *)
Definition disposition_releases (payload : pydict) : result bool :=
  match field "disposition" payload with
  | PStr s => Ok (bool_decide (s ∈ releasing))
  | PList _ | PDict _ => Err (TypeError "unhashable type")
  | _ => Ok false
  end.

Definition _recovery_confirms_attempt_release (result record : pydict) : Prelude.result bool :=
  let payload := _recovery_payload result in
  releases ← disposition_releases payload;
  if negb releases then Ok false
  else
    match field "attempt_id" record, field "lease_id" record, field "intent" payload with
    | PStr attempt, PStr lease, PDict intent =>
        let receipt := nested (PDict payload) ["result"; "receipt"] in
        let outcome := nested receipt ["result"] in
        Ok (py_eqb (field "kind" intent) (field "disposition" payload)
            && match field "attempt" intent with PDict a => py_eqb (field "entity_id" a) (PStr attempt) | _ => false end
            && py_eqb (field "expected_lease_id" intent) (PStr lease)
            && match receipt with PDict r => py_eqb (field "command_kind" r) (PStr "todo.attempt.reconcile_expired") | _ => false end
            && match outcome with
               | PDict o => py_eqb (field "attempt_id" o) (PStr attempt) && py_eqb (field "state" o) (PStr "released")
               | _ => false
               end)
    | _, _, _ => Ok false
    end.

(** ** Arguments of the native tools *)

Definition required (fields : pydict) (names : list string) : result pydict :=
  mapM_result (fun name => match dict_get name fields with
                           | Some v => Ok (name, v)
                           | None => Err (WorkflowError (name +:+ "_missing"))
                           end) names.

(** The given names that are there. *)
Definition given (fields : pydict) (names : list string) : pydict :=
  omap (fun name => v ← dict_get name fields; Some (name, v)) names.

Definition context_of (record : pydict) : pydict :=
  [("run_id", field "run_id" record); ("assignment_id", field "assignment_id" record); ("attempt_id", field "attempt_id" record)].

(** The tool of a declaration action and the fields it needs. *)
Definition declaration_tool (action : string) : option (string * list string) :=
  if bool_decide (action ∈ ["arrive"; "arrive_rendezvous"]) then Some ("todo_arrive_rendezvous", ["participant"])
  else if String.eqb action "publish_interface" then Some ("todo_publish_interface", ["version"; "rationale"])
  else if String.eqb action "resolve_decision" then Some ("todo_resolve_decision", ["option_id"; "rationale"])
  else if String.eqb action "accept_checkpoint" then Some ("todo_accept_checkpoint", ["evidence_ids"; "rationale"])
  else if String.eqb action "release_barrier" then Some ("todo_release_barrier", ["rationale"])
  else if String.eqb action "open_blocker" then Some ("todo_open_blocker", ["reason"])
  else if String.eqb action "clear_blocker" then Some ("todo_clear_blocker", ["reason"])
  else None.

Definition resource_tool (action : string) : option string :=
  if String.eqb action "reconcile_resource" then Some "todo_reconcile_resource"
  else if String.eqb action "retry_resource" then Some "todo_retry_resource"
  else if String.eqb action "release_resource" then Some "todo_release_resource" else None.

Section Host.
Context (float_repr : spec_float -> string) (sha256 : string -> string) (py_str : pyval -> string).
Context {N0 : Type} (host : string -> string -> string -> pydict -> N0 -> result pyval * N0).
Context (self : actor) (now : pyval).

Definition _generated_id (prefix handle : string) : string :=
  "pcw-" +:+ prefix +:+ "-" +:+ String.substring 0 32 (_digest sha256 handle).

Definition generated (fields : pydict) (name prefix handle : string) : string * pyval :=
  (name, dict_get_default name (PStr (_generated_id prefix handle)) fields).

(** The fields of the request for each action, without the ids of the attempt. *)
Definition _coordinate_arguments (handle action : string) (fields record : pydict) : result (string * pydict) :=
  let attempt := field "attempt_id" record in
  let context := context_of record in
  let act := String.eqb action in
  _ ← _operation_key float_repr sha256 handle ("coordinate:" +:+ action) fields;
  if act "sync" then
    Ok ("todo_sync_inbox", dict_update context
          [("scope", dict_get_default "scope" (PDict [("kind", PStr "attempt"); ("entity_id", attempt)]) fields);
           ("limit", dict_get_default "limit" (PInt 50) fields)])
  else if act "message" then
    native ← required fields ["scope"; "recipients"; "subject"];
    Ok ("todo_send_message", dict_update context (native ++ given fields ["message_type"; "body"; "content_ref"]))
  else if act "answer" then
    native ← required fields ["question_id"];
    Ok ("todo_answer_question", dict_update context (native ++ given fields ["body"; "content_ref"]))
  else match declaration_tool action with
  | Some (tool, names) =>
      _ ← raise_if (negb (truthy (field "plan_revision_id" record))) (WorkflowError "plan_revision_unavailable");
      declaration ← required fields ["declaration_id"];
      values ← required fields names;
      Ok (tool, dict_update context
                  (dict_update (declaration ++ [("plan_revision_id", field "plan_revision_id" record)]) values))
  | None =>
  if act "publish_context" || act "publish_finding" then
    native ← required fields ["work_item_id"; "source_manifest"];
    more ← required fields ["source_fragment_refs"; "summary"];
    Ok ("todo_publish_finding", dict_update context (native ++ more ++ given fields ["finding_id"; "expected_finding_version"]))
  else if act "invalidate_finding" then
    native ← required fields ["work_item_id"; "source_manifest"];
    more ← required fields ["finding_id"; "finding_version"; "reason"];
    Ok ("todo_invalidate_finding", dict_update context (native ++ more))
  else if act "fork" || act "start_child" then
    native ← required fields ["scope"; "actions"];
    Ok ("todo_start_child", ("parent_attempt_id", attempt) :: native
          ++ [generated fields "logical_id" "logical" handle; generated fields "execution_id" "child" handle]
          ++ given fields ["retry_of"])
  else if bool_decide (action ∈ ["accept_child"; "reject_child"; "review_child_candidate"]) then
    native ← required fields ["execution_id"; "candidate_id"];
    let decision := if act "accept_child" then PStr "accepted" else if act "reject_child" then PStr "rejected"
                    else field "decision" fields in
    Ok ("todo_review_child_candidate", ("parent_attempt_id", attempt) :: native
          ++ [("decision", decision); generated fields "review_id" "review" handle] ++ given fields ["reason"])
  else if act "submit_child_candidate" then
    native ← required fields ["execution_id"; "candidate_id"; "summary"];
    Ok ("todo_submit_child_candidate", ("parent_attempt_id", attempt) :: native
          ++ [("artifacts", dict_get_default "artifacts" (PList []) fields)])
  else if act "cancel_child" then
    native ← required fields ["execution_id"];
    Ok ("todo_cancel_child", ("parent_attempt_id", attempt) :: native
          ++ [generated fields "cancellation_id" "cancel" handle] ++ given fields ["reason"])
  else if act "reconcile_child" then
    native ← required fields ["execution_id"];
    Ok ("todo_reconcile_child", ("parent_attempt_id", attempt) :: native)
  else if act "recover" then intent ← required fields ["intent"]; Ok ("todo_apply_recovery", intent)
  else if act "integrate" then
    _ ← raise_if (negb (truthy attempt)) (WorkflowError "attempt_unavailable");
    Ok ("todo_integrate_attempt", [("attempt_id", attempt)])
  else if act "accept_outcome" || act "reject_outcome" then
    match truthy attempt, field "candidate_id" record with
    | true, PStr candidate =>
        Ok (if act "accept_outcome" then "todo_accept_outcome" else "todo_reject_outcome",
            [("attempt_id", attempt); ("candidate_id", PStr candidate)])
    | _, _ => Err (WorkflowError "candidate_unavailable")
    end
  else if act "reserve_resource" then
    _ ← raise_if (negb (truthy attempt)) (WorkflowError "attempt_unavailable");
    native ← required fields ["resource_class"; "units"];
    Ok ("todo_reserve_resource", ("attempt_id", attempt) :: native)
  else match resource_tool action with
  | Some tool => native ← required fields ["operation_id"]; Ok (tool, native)
  | None => Err (WorkflowError "workflow_action_unsupported")
  end
  end.

(** ** Actions *)

Abbreviation session := (N0 * list string)%type.
Abbreviation M A := (option file * session -> result A * (option file * session)).
Abbreviation invoke_phase := (_invoke_phase float_repr sha256 py_str (native host) self now).
Abbreviation update_record := (update_record float_repr sha256 self now).
Abbreviation respond := (respond float_repr).
#[local] Notation "x ;; y" := (bind x (fun _ => y)) (at level 100, right associativity).
#[local] Notation "'let!' x ':=' m 'in' k" := (bind m (fun x => k)) (at level 100, x pattern, right associativity).

Definition _integration_attention (handle : string) (i : integration) : M pydict := respond (integration_value handle i).

Definition action_done (handle action : string) (value : pyval) : M pydict :=
  respond [("status", PStr "ok"); ("action", PStr action); ("result", value); ("workflow_handle", PStr handle)].

Definition operations_of (record : pydict) : pydict :=
  match dict_get_default "operations" (PDict []) record with PDict d => d | _ => [] end.

(** The receipt of an action already complete. *)
Definition completed (action_id : string) (record : pydict) : option pyval :=
  match dict_get action_id (operations_of record) with
  | Some (PDict prior) => if py_eqb (field "state" prior) (PStr "complete") then Some (field "result" prior) else None
  | _ => None
  end.

Definition integrated_changes (receipt : pyval) (i : integration) : pydict :=
  [("phase", PStr "integrated"); ("integration_receipt", receipt); ("integration_operation_id", opt i.(in_operation))].

Definition released_changes (receipt : pyval) : pydict := [("phase", PStr "released"); ("release_receipt", receipt)].

(** A completed action answers from its receipt, and repeats what the receipt proves. *)
Definition replay_action (handle project repository action : string) (value : pyval) (record : pydict) : M pydict :=
  let! confirmed := lift (match String.eqb action "recover", value with
                          | true, PDict d => _recovery_confirms_attempt_release d record
                          | _, _ => Ok false
                          end) in
  (if confirmed : bool then update_record handle project repository (released_changes value) else ret tt) ;;
  if String.eqb action "integrate" then
    let! i := lift (_git_integration_result value) in
    if i.(in_applied) then
      update_record handle project repository (integrated_changes value i) ;; action_done handle action value
    else _integration_attention handle i
  else action_done handle action value.

Definition operation_entry (action key : string) (rest : pydict) : pyval :=
  PDict ([("action", PStr action); ("key", PStr key)] ++ rest).

(** The key under which the action was journalled. *)
Definition journalled_key (name : string) (current : pydict) : result string :=
  match dict_get_default "phase_intents" (PDict []) current with
  | PDict intents => match field name intents with
                     | PDict intent => match field "idempotency_key" intent with
                                       | PStr key => Ok key
                                       | _ => Err (WorkflowError "workflow_phase_intent_unavailable")
                                       end
                     | _ => Err (WorkflowError "workflow_phase_intent_unavailable")
                     end
  | _ => Err (WorkflowError "workflow_phase_intent_unavailable")
  end.

(** What a recovery asked for, and whether its receipt proves it. *)
Definition recovery_outcome (action : string) (value record : pydict) : result (bool * bool) :=
  if String.eqb action "recover" then
    requested ← disposition_releases (_recovery_payload value);
    confirmed ← (if requested : bool then _recovery_confirms_attempt_release value record else Ok false);
    Ok (requested, confirmed)
  else Ok (false, false).

(** The changes of the record, besides the operation itself. *)
Definition receipt_changes (action : string) (value : pydict) (confirmed : bool) (i : integration) : pydict :=
  (if confirmed then released_changes (PDict value) else [])
  ++ (if String.eqb action "publish_finding" || String.eqb action "publish_context"
      then match _nested_text value ["finding_ref"; "entity_id"] with Some id => [("finding_id", PStr id)] | None => [] end
      else [])
  ++ (if String.eqb action "integrate" then
        [("integration_receipt", PDict value)]
        ++ match i.(in_operation) with Some id => [("integration_operation_id", PStr id)] | None => [] end
        ++ (if i.(in_applied) then [("phase", PStr "integrated")] else [])
      else if String.eqb action "accept_outcome" then [("phase", PStr "review_accepted")]
      else if String.eqb action "reject_outcome" then [("phase", PStr "review_rejected")]
      else []).

Definition action_id_of (action : string) (fields : pydict) : result string :=
  t ← _canonical float_repr (PDict fields); Ok (_digest sha256 (action +:+ nul +:+ t)).

Definition send_action (handle project repository action action_id tool : string) (arguments record : pydict) : M pydict :=
  let name := "coordinate:" +:+ action_id in
  let! (result, _) := invoke_phase handle project repository record name tool arguments PNone PNone in
  if needs_attention result then ret (_native_attention result (Some handle))
  else
    let! current := stored_record sha256 self handle project repository in
    let! key := lift (journalled_key name current) in
    let with_entry rest := dict_set action_id (operation_entry action key rest) (operations_of record) in
    update_record handle project repository [("operations", PDict (with_entry [("state", PStr "pending")]))] ;;
    let! value := lift (_bounded_mapping float_repr result "workflow_action_result" _MAX_RESULT_BYTES) in
    let! (requested, confirmed) := lift (recovery_outcome action value record) in
    let! i := lift (if String.eqb action "integrate" then _git_integration_result (PDict value) else Ok no_integration) in
    update_record handle project repository
      (dict_update [("operations", PDict (with_entry [("state", PStr "complete"); ("result", PDict value)]))]
         (receipt_changes action value confirmed i)) ;;
    if String.eqb action "integrate" && negb i.(in_applied) then _integration_attention handle i
    else if requested && negb confirmed then
      ret (_attention "recovery_result_does_not_confirm_attempt_release" (Some handle) ["inspect_task"]
             (PStr "inspect_task(recovery)"))
    else action_done handle action (PDict value).

Definition _execute_coordinate_action (handle project repository action : string) (fields record : pydict) : M pydict :=
  let! (tool, arguments) := lift (_coordinate_arguments handle action fields record) in
  let! action_id := lift (action_id_of action fields) in
  match completed action_id record with
  | Some value => replay_action handle project repository action value record
  | None => send_action handle project repository action action_id tool arguments record
  end.

(** ** [coordinate_task] *)

Definition allowed : list string :=
  ["sync"; "fork"; "message"; "answer"; "arrive"; "arrive_rendezvous"; "publish_interface"; "publish_context";
   "run_gates"; "bind_required_gates"; "request_integration"; "integrate"; "accept_child"; "reject_child";
   "resolve_decision"; "accept_checkpoint"; "release_barrier"; "open_blocker"; "clear_blocker"; "publish_finding";
   "invalidate_finding"; "start_child"; "submit_child_candidate"; "review_child_candidate"; "cancel_child";
   "reconcile_child"; "recover"; "verify"; "heartbeat"; "resume"; "release_attempt"; "report_outcome";
   "accept_outcome"; "reject_outcome"; "reserve_resource"; "reconcile_resource"; "retry_resource"; "release_resource"].

Definition same_set (l k : list string) : bool :=
  forallb (fun x => bool_decide (x ∈ k)) l && forallb (fun x => bool_decide (x ∈ l)) k.

(** The declared requirements as a set of strings; None when the set holds something else. *)
Definition native_requirements (record : pydict) : result (option (list string)) :=
  l ← declared_requirements record;
  match all_strs l with
  | Some ids => Ok (Some ids)
  | None => if forallb is_number l || (length l <=? 1)%nat then Ok None else Err (TypeError "'<' not supported")
  end.

Definition bind_required_gates (handle : string) (fields record : pydict) : M pydict :=
  let bad := Err (WorkflowError "required_gates_invalid") in
  let! requested := lift match dict_get_default "required_gates" (dict_get_default "gate_ids" (PList []) fields) fields with
                         | PList l => match all_strs l with Some ids => Ok ids | None => bad end
                         | _ => bad
                         end in
  let! native := lift (native_requirements record) in
  let declared := dict_get_default "requirement_ids" (PList []) record in
  if match native with Some ids => same_set requested ids | None => false end
  then respond [("status", PStr "ok"); ("binding", PStr "native_plan_requirements"); ("required_gates", declared);
                ("workflow_handle", PStr handle)]
  else respond [("status", PStr "needs_plan_change"); ("reason", PStr "plan_requirements_are_immutable");
                ("declared_requirements", declared); ("allowed_actions", strs ["plan"]);
                ("recommended_next_call", PStr "plan(validate/diff)"); ("workflow_handle", PStr handle)].

(** The phases in which a reviewer may take an action. *)
Definition review_phases (action : string) : option (list string) :=
  if String.eqb action "accept_outcome" then Some ["review_pending"; "review_accepted"]
  else if String.eqb action "reject_outcome" then Some ["review_pending"; "review_rejected"]
  else if String.eqb action "integrate" then Some ["review_accepted"; "integrated"]
  else None.

Definition is_str (v : pyval) : bool := match v with PStr _ => true | _ => false end.

(** Whether the handle permits the action. *)
Definition permitted (action : string) (record : pydict) : result unit :=
  if py_eqb (field "mode" record) (PStr "review") then
    ok ← match review_phases action with Some ps => phase_in ps record | None => Ok false end;
    _ ← raise_if (negb ok) (WorkflowError "review_action_not_permitted");
    raise_if (negb (is_str (field "attempt_id" record) && is_str (field "candidate_id" record)))
      (WorkflowError "candidate_unavailable")
  else if phase_is "active" record then
    raise_if (bool_decide (action ∈ ["integrate"; "accept_outcome"; "reject_outcome"])) (WorkflowError "review_handle_required")
  else
    pending ← (if String.eqb action "recover" then phase_in pending_phases record else Ok false);
    raise_if (negb pending) (WorkflowError "workflow_attempt_not_active").

Definition disposition_action (v : pyval) : result string :=
  match v with
  | PStr s => if String.eqb s "completed" then Ok "complete" else if String.eqb s "no_change" then Ok "handoff"
              else if String.eqb s "failed" then Ok "block" else Err (WorkflowError "outcome_disposition_unsupported")
  | PList _ | PDict _ => Err (TypeError "unhashable type")
  | _ => Err (WorkflowError "outcome_disposition_unsupported")
  end.

(** [finish_task] as the authoring actions call it. *)
Definition finish_from (handle action : string) (note reason : pyval) (token : string) : M pydict :=
  finish_with float_repr sha256 py_str host self now (fun _ _ _ _ => raise (WorkflowError "finish_action_unsupported"))
    handle action PNone note reason token.

Definition coordinate_task (handle action : string) (payload : option pydict) (token : string) : M pydict :=
  guarded (Some handle) [] "compact_workflow_action_failed" (
    check (negb (bool_decide (action ∈ allowed))) (WorkflowError "workflow_action_unsupported") ;;
    let! fields := lift (_bounded_mapping float_repr (default [] payload) "workflow_payload" (32 * 1024)) in
    let! (project, repository, record) := _handle sha256 self handle in
    let record := with_scope project repository record in
    if String.eqb action "bind_required_gates" then bind_required_gates handle fields record
    else if String.eqb action "request_integration" then
      ret (_attention "complete_and_hand_back_before_integration" (Some handle) ["finish_task"; "inspect_task"] (PStr "finish_task"))
    else if String.eqb action "run_gates" then
      _run_gates float_repr sha256 py_str host self now handle project repository record fields
    else if String.eqb action "verify" then
      let! id := lift (_first_text fields "requirement_id" []) in
      _run_gates float_repr sha256 py_str host self now handle project repository record [("requirement_ids", strs [id])]
    else if String.eqb action "heartbeat" || String.eqb action "resume" then
      check (negb (phase_is "active" record)) (WorkflowError "workflow_attempt_not_active") ;;
      let! refreshed := _resume_active float_repr sha256 py_str host self now handle project repository record in
      if needs_attention refreshed then ret refreshed
      else respond [("status", PStr "ok"); ("action", PStr action); ("workflow_handle", PStr handle)]
    else if String.eqb action "release_attempt" then finish_from handle "release" (field "note" fields) (field "reason" fields) token
    else if String.eqb action "report_outcome" then
      let! finish := lift (disposition_action (field "disposition" fields)) in
      finish_from handle finish (field "note" fields) (field "reason" fields) token
    else
      lift (permitted action record) ;;
      _execute_coordinate_action handle project repository action fields record).

(** ** [finish_task] on a reviewer's decision *)

Definition decision_action (action : string) : string :=
  if String.eqb action "accept" then "accept_outcome" else if String.eqb action "reject" then "reject_outcome" else "integrate".

Definition decision_status (action : string) : string :=
  if String.eqb action "accept" then "review_accepted" else if String.eqb action "reject" then "review_rejected" else "integrated".

Definition finish_review (token : string) (handle action : string) (record : pydict) (reason : pyval) : M pydict :=
  check (negb (py_eqb (field "mode" record) (PStr "review"))) (WorkflowError "review_handle_required") ;;
  let! result := coordinate_task handle (decision_action action)
                   (if truthy reason then Some [("reason", reason)] else None) token in
  if negb (is_status "ok" result) then ret result
  else
    let accept := String.eqb action "accept" in
    respond [("status", PStr (decision_status action)); ("workflow_handle", PStr handle); ("task_id", field "task_id" record);
             ("result", field "result" result);
             ("allowed_actions", strs (if accept then ["inspect_task"; "finish_task"] else ["inspect_task"; "next_task"]));
             ("recommended_next_call", PStr (if accept then "finish_task" else "next_task"))].

Definition finish_task (handle action : string) (disposition note reason : pyval) (token : string) : M pydict :=
  finish_with float_repr sha256 py_str host self now (finish_review token) handle action disposition note reason token.

End Host.

End Coordinate.
