(* ===== verification/TaskContext.v ===== *)
(** * The context of a task (compact_workflow.py)

    A context capsule lists its fragments in a manifest and carries some of them.  The
    work-item fragment, which holds the checks of the task, is always there: when the
    capsule omits it, it is fetched whole or in authenticated chunks.  The packet an agent
    gets holds as many fragments as fit. *)

From Stdlib Require Import ZArith SpecFloat.
From stdpp Require Import pretty.
From S2P Require Import Prelude PyValue Text Json JsonParse Base64 Journal Phases Workflow.
Import Journal Phases Workflow.

#[local] Open Scope string_scope.
#[local] Open Scope Z_scope.
#[local] Open Scope list_scope.

Module TaskContext.

Definition mapping (v : pyval) : option pydict := match v with PDict d => Some d | _ => None end.
Definition elements (v : pyval) : option (list pyval) := match v with PList l => Some l | _ => None end.

(** "item["reference"]" of a mapping, when it is a mapping. *)
Definition reference_of (item : pyval) : option pydict := d ← mapping item; mapping (field "reference" d).

Definition has_kind (kind : string) (d : pydict) : bool := py_eqb (field "kind" d) (PStr kind).

(** The first reference of the manifest to a work item. *)
Definition work_reference (context : pydict) : option pydict :=
  manifest ← mapping (field "manifest" context);
  references ← elements (field "fragments" manifest);
  List.find (has_kind "work_item") (omap mapping references).

Definition is_work_fragment (item : pyval) : bool :=
  match reference_of item with Some r => has_kind "work_item" r | None => false end.

Definition _context_refs (context : pydict) : list pydict :=
  match mapping (field "manifest" context) ≫= (fun m => elements (dict_get_default "fragments" (PList []) m)) with
  | Some l => List.filter (fun row => match field "fragment_id" row with PStr _ => true | _ => false end) (omap mapping l)
  | None => []
  end.

Definition priority_of (kind : string) : Z :=
  match index_of kind ["work_item"; "assignment"; "plan"; "declarations"; "source_references"; "findings"; "scoped_deltas"] with
  | Some n => Z.of_nat n
  | None => 7
  end.

Definition _context_fragment_priority (fragment : pyval) : result Z :=
  match fragment with
  | PDict d =>
      match mapping (field "reference" d) with
      | Some r => match field "kind" r with
                  | PStr kind => Ok (priority_of kind)
                  | PList _ | PDict _ => Err (TypeError "unhashable type")
                  | _ => Ok 7
                  end
      | None => Ok 7
      end
  | _ => Err (AttributeError "get")
  end.

(** "<fragment_id>#offset=<offset>". *)
Definition _context_fragment_target (target : pyval) : result (string * option Z) :=
  value ← _safe_component target "fragment_id" 256;
  match rsplit_once "#offset=" value with
  | None => id ← _safe_component (PStr value) "fragment_id" 128; Ok (id, None)
  | Some (id, raw) =>
      id ← _safe_component (PStr id) "fragment_id" 128;
      _ ← raise_if (negb (isdigit raw) || (64 * 1024 <? digits_value 0 raw)) (WorkflowError "context_fragment_offset_invalid");
      Ok (id, Some (digits_value 0 raw))
  end.

Section Host.
Context (float_repr : spec_float -> string) (sha256 : string -> string) (py_str : pyval -> string).
Context (float_of : string -> spec_float).
Context {N0 : Type} (host : string -> string -> string -> pydict -> N0 -> result pyval * N0).

Abbreviation M A := (option file * (N0 * list string) -> result A * (option file * (N0 * list string))).
#[local] Notation "x ;; y" := (bind x (fun _ => y)) (at level 100, right associativity).
#[local] Notation "'let!' x ':=' m 'in' k" := (bind m (fun x => k)) (at level 100, x pattern, right associativity).

(** ** Fragments *)

Definition _context_document_payload (value : pydict) (kind : string) : result pydict :=
  match has_kind kind value, field "payload" value with
  | true, PDict payload => _bounded_mapping float_repr payload "task_context_payload" _MAX_CONTEXT_CAPSULE_BYTES
  | _, _ => Ok value
  end.

Definition _fragment_payload (fragment : pydict) : result (option pydict) :=
  match field "payload" fragment, field "payload_json" fragment with
  | PDict payload, _ => Ok (Some payload)
  | _, PStr text => match JsonParse.json_loads float_of text with
                    | Some (PDict d) => Ok (Some d)
                    | _ => Err (WorkflowError "task_context_fragment_invalid")
                    end
  | _, _ => Ok None
  end.

Definition dict_pop (k : string) (d : pydict) : pydict := List.filter (fun kv => negb (String.eqb kv.1 k)) d.

Definition with_payload (fragment payload : pydict) : pydict := dict_set "payload" (PDict payload) (dict_pop "payload_json" fragment).

Definition normalize_fragment (fragment : pyval) : result pyval :=
  match fragment with
  | PDict d =>
      match field "payload_json" d with
      | PStr _ => o ← _fragment_payload d;
                  match o with
                  | Some payload => Ok (PDict (with_payload d payload))
                  | None => Err (WorkflowError "task_context_fragment_invalid")
                  end
      | _ => Ok fragment
      end
  | _ => Ok fragment
  end.

Definition _normalize_context_fragments (context : pydict) : result pydict :=
  match elements (field "fragments" context) with
  | None => Ok context
  | Some l => l ← mapM_result normalize_fragment l; Ok (dict_set "fragments" (PList l) context)
  end.

Definition requirement_id (row : pyval) : option string :=
  d ← mapping row;
  if match field "kind" d with
     | PNone => true
     | PStr s => bool_decide (s ∈ ["check"; "RequirementKind.CHECK"])
     | _ => false
     end
  then match dict_get_default "id" (field "requirement_id" d) d with PStr s => Some s | _ => None end
  else None.

(** A kind that is a list or a dict is not hashable. *)
Definition kind_hashable (row : pyval) : bool := match mapping row with Some d => hashable (field "kind" d) | None => true end.

Definition fragment_requirements (fragment : pyval) : result (list string) :=
  match mapping fragment with
  | None => Ok []
  | Some d =>
      payload ← _fragment_payload d;
      match payload ≫= (fun p => elements (field "requirements" p)) with
      | None => Ok []
      | Some rows => _ ← raise_if (negb (forallb kind_hashable rows)) (TypeError "unhashable type");
                     Ok (omap requirement_id rows)
      end
  end.

Definition _requirement_ids (context : pydict) : result (list string) :=
  match elements (field "fragments" context) with
  | None => Ok []
  | Some l => ids ← mapM_result fragment_requirements l; Ok (sorted_set (concat ids))
  end.

(** ** Fetching a fragment *)

Definition optional_int (v : option Z) : pyval := match v with Some z => PInt z | None => PNone end.

Definition _expand_context_fragment (record reference : pydict) (max_bytes : Z) (offset : option Z) : M pydict :=
  match field "fragment_id" reference, field "digest" reference with
  | PStr id, PStr digest =>
      let! expanded := _invoke (native host) "todo_expand_context" record
          [("work_item_id", field "task_id" record); ("run_id", field "run_id" record);
           ("assignment_id", field "assignment_id" record); ("attempt_id", field "attempt_id" record);
           ("fragment_id", PStr id); ("expected_digest", PStr digest); ("max_bytes", PInt max_bytes);
           ("offset", optional_int offset)] in
      if needs_attention expanded then ret expanded
      else lift (_context_document_payload expanded "context_expansion")
  | _, _ => raise (WorkflowError "task_context_fragment_invalid")
  end.

Record chunk := { ck_data : string; ck_offset : Z; ck_total : Z; ck_next : option Z; ck_digest : string }.

Definition raw_chunk (expansion : pydict) : pyval * pyval * pyval * pyval * pyval :=
  match field "chunk" expansion with
  | PDict c => (field "data" c, field "offset" c, field "total_bytes" c, field "next_offset" c, field "content_digest" c)
  | _ => (field "chunk_base64" expansion, field "offset" expansion, field "total_bytes" expansion,
          field "next_offset" expansion, field "content_digest" expansion)
  end.

Definition _expansion_chunk (expansion : pydict) : result (option chunk) :=
  match raw_chunk expansion with
  | (PStr encoded, PInt offset, PInt total, (PNone | PInt _) as next, PStr digest) =>
      if (offset <? 0) || (total <? 1) then Ok None
      else match Base64.b64decode encoded with
           | Some data => Ok (Some {| ck_data := data; ck_offset := offset; ck_total := total;
                                      ck_next := match next with PInt z => Some z | _ => None end; ck_digest := digest |})
           | None => Err (WorkflowError "task_work_item_fragment_invalid")
           end
  | _ => Ok None
  end.

Definition len (s : string) : Z := Z.of_nat (String.length s).

Definition chunk_reference (expansion : pydict) : option pydict :=
  match field "chunk" expansion with
  | PDict c => mapping (field "reference" c)
  | _ => mapping (field "reference" expansion)
  end.

Definition same_reference (work_ref : pydict) (r : option pydict) : bool :=
  match r with Some r => py_eqb (PDict r) (PDict work_ref) | None => false end.

(** The checks of one chunk against what was received so far; the data with it appended. *)
Definition accept_chunk (work_ref : pydict) (expansion : pydict) (received : string) (digest : option string) :
    result (string * chunk) :=
  o ← _expansion_chunk expansion;
  match o with
  | None => Err (WorkflowError "task_work_item_fragment_unavailable")
  | Some c =>
      _ ← raise_if ((_MAX_CONTEXT_CAPSULE_BYTES <? c.(ck_total)) || negb (c.(ck_offset) =? len received))
            (WorkflowError "task_work_item_fragment_invalid");
      _ ← raise_if match digest with Some d => negb (String.eqb d c.(ck_digest)) | None => false end
            (WorkflowError "task_work_item_fragment_changed");
      _ ← raise_if (negb (same_reference work_ref (chunk_reference expansion))) (WorkflowError "task_work_item_fragment_mismatch");
      let received := received +:+ c.(ck_data) in
      _ ← raise_if ((c.(ck_total) <? len received) || (_MAX_CONTEXT_CAPSULE_BYTES <? len received))
            (WorkflowError "task_work_item_fragment_invalid");
      Ok (received, c)
  end.

(** The whole fragment, once the last chunk is in. *)
Definition assemble (received : string) (c : chunk) : result pydict :=
  _ ← raise_if (negb (len received =? c.(ck_total))) (WorkflowError "task_work_item_fragment_truncated");
  _ ← raise_if (negb (String.eqb (sha256 received) c.(ck_digest))) (WorkflowError "task_work_item_fragment_digest_mismatch");
  match (if JsonParse.utf8_ok received then JsonParse.json_loads float_of received else None) with
  | Some (PDict d) => Ok d
  | _ => Err (WorkflowError "task_work_item_fragment_invalid")
  end.

Definition expansion_reason (expansion : pydict) : string :=
  match field "reason" expansion with PStr s => s | _ => "task_work_item_fragment_unavailable" end.

(** "for _ in range(33)". *)
Fixpoint fetch_chunks (turns : nat) (record work_ref expansion : pydict) (received : string) (digest : option string) : M pydict :=
  match turns with
  | O => raise (WorkflowError "task_work_item_fragment_too_large")
  | S turns =>
      let! (received, c) := lift (accept_chunk work_ref expansion received digest) in
      match c.(ck_next) with
      | None => lift (assemble received c)
      | Some next =>
          lift (raise_if (negb (next =? len received)) (WorkflowError "task_work_item_fragment_invalid")) ;;
          let! expansion := _expand_context_fragment record work_ref _MAX_CONTEXT_CAPSULE_BYTES (Some next) in
          if needs_attention expansion then raise (WorkflowError (expansion_reason expansion))
          else fetch_chunks turns record work_ref expansion received (Some c.(ck_digest))
      end
  end.

Definition with_fragment (context : pydict) (fragments : list pyval) (fragment : pydict) : pydict :=
  dict_set "fragments" (PList (fragments ++ [PDict fragment])) context.

(** A fragment that came whole: the one asked for, with its payload. *)
Definition accept_fragment (id : string) (fragment : pydict) : result pydict :=
  _ ← raise_if match mapping (field "reference" fragment) with
               | Some r => negb (py_eqb (field "fragment_id" r) (PStr id))
               | None => true
               end (WorkflowError "task_work_item_fragment_mismatch");
  o ← _fragment_payload fragment;
  match o with
  | Some payload => Ok (with_payload fragment payload)
  | None => Err (WorkflowError "task_work_item_fragment_invalid")
  end.

Definition _ensure_work_item_fragment (context record : pydict) : M pydict :=
  match elements (field "fragments" context) with
  | None => raise (WorkflowError "task_context_fragments_unavailable")
  | Some fragments =>
      match work_reference context with
      | None => raise (WorkflowError "task_work_item_fragment_unavailable")
      | Some work_ref =>
          match field "fragment_id" work_ref, field "digest" work_ref with
          | PStr id, PStr _ =>
              match List.find is_work_fragment fragments with
              | Some (PDict existing) =>
                  lift (_ ← raise_if (negb (same_reference work_ref (mapping (field "reference" existing))))
                              (WorkflowError "task_work_item_fragment_mismatch");
                        o ← _fragment_payload existing;
                        match o with
                        | Some _ => Ok context
                        | None => Err (WorkflowError "task_work_item_fragment_invalid")
                        end)
              | _ =>
                  let! expanded := _expand_context_fragment record work_ref _MAX_CONTEXT_CAPSULE_BYTES None in
                  if needs_attention expanded then raise (WorkflowError (expansion_reason expanded))
                  else match field "fragment" expanded with
                       | PDict fragment =>
                           let! fragment := lift (accept_fragment id fragment) in
                           ret (with_fragment context fragments fragment)
                       | _ =>
                           let! payload := fetch_chunks 33 record work_ref expanded "" None in
                           ret (with_fragment context fragments [("reference", PDict work_ref); ("payload", PDict payload)])
                       end
              end
          | _, _ => raise (WorkflowError "task_work_item_fragment_invalid")
          end
      end
  end.

End Host.

End TaskContext.
