(* ===== verification/TaskPacket.v ===== *)
(** * The packet of a task (compact_workflow.py)

    What an agent gets with its handle: the whole context when it fits in a response,
    otherwise the manifest and as many fragments as fit, by priority; the others are listed
    as omitted and fetched by [inspect_task].  The compact context states its own size. *)

From Stdlib Require Import ZArith SpecFloat.
From S2P Require Import Prelude PyValue Text Json Journal Phases Workflow TaskContext.
Import Journal Phases Workflow TaskContext.

#[local] Open Scope string_scope.
#[local] Open Scope Z_scope.
#[local] Open Scope list_scope.

Module TaskPacket.

Section Host.
Context (float_repr : spec_float -> string) (float_of : string -> spec_float).

(** ** What the task says *)

(** The first of these keys that is a string, cut to 256 characters. *)
Fixpoint definition_summary (keys : list (string * string)) (definition summary : pydict) : pydict :=
  match keys with
  | [] => summary
  | (source, target) :: keys => match field source definition with
                                | PStr s => dict_set target (PStr (take_points (Z.to_nat 256) s)) summary
                                | _ => definition_summary keys definition summary
                                end
  end.

(** An authored text cut to a number of bytes, and a mark when something is cut. *)
Definition authored_text (authored summary : pydict) (sl : string * Z) : pydict :=
  match field sl.1 authored with
  | PStr s =>
      let summary := dict_set sl.1 (PStr (take_bytes (Z.to_nat sl.2) "" "" s)) summary in
      if sl.2 <? len s then dict_set (sl.1 +:+ "_truncated") (PBool true) summary else summary
  | _ => summary
  end.

Definition payload_summary (payload summary : pydict) : pydict :=
  let summary := match field "definition" payload with
                 | PDict d => definition_summary [("title", "title"); ("name", "title"); ("summary", "summary")] d summary
                 | _ => summary
                 end in
  match field "authored" payload with
  | PDict a => foldl (authored_text a) summary [("objective", 1200); ("scope", 500); ("acceptance", 500)]
  | _ => summary
  end.

Definition _task_summary (record context : pydict) : result pydict :=
  let summary := match field "task_id" record with PStr s => [("task_id", PStr s)] | _ => [] end in
  match dict_get_default "fragments" (PList []) context with
  | PList fragments =>
      payload ← match List.find is_work_fragment fragments with
                | Some (PDict d) => _fragment_payload float_of d
                | _ => Ok None
                end;
      Ok match payload with Some p => payload_summary p summary | None => summary end
  | _ => Ok summary
  end.

(** ** The compact context *)

(** "reference.get("fragment_id")" of the rows with a reference. *)
Definition included_ids (included : list pydict) : list pyval :=
  omap (fun row => r ← mapping (field "reference" row); Some (field "fragment_id" r)) included.

Definition omitted_refs (context : pydict) (included : list pydict) : list pydict :=
  List.filter (fun row => negb (existsb (py_eqb (field "fragment_id" row)) (included_ids included))) (_context_refs context).

Definition compact_base (context : pydict) (included : list pydict) : pydict :=
  let omitted := omitted_refs context included in
  [("format", dict_get_default "format" (PStr "todo-orchestrator.context-capsule") context);
   ("version", dict_get_default "version" (PInt 1) context);
   ("manifest", match field "manifest" context with PDict d => PDict d | _ => PDict [] end);
   ("semantic_revision", field "semantic_revision" context);
   ("fragments", PList (map PDict included));
   ("omitted", PList (map PDict omitted));
   ("status", if match omitted with [] => false | _ => true end || is_status "partial" context then PStr "partial"
              else dict_get_default "status" (PStr "ready") context);
   ("changes_truncated", PBool true)].

Definition with_size (d : pydict) (size : Z) : pydict := dict_set "encoded_bytes" (PInt size) d.

Definition text_size (d : pydict) : result Z := t ← _canonical float_repr (PDict d); Ok (len t).

(** The loop: write the size, measure again, until it is right; None is out of fuel. *)
Fixpoint settle (turns : nat) (d : pydict) (size : Z) : option (result pydict) :=
  match turns with
  | O => None
  | S turns => match text_size (with_size d size) with
               | Err x => Some (Err x)
               | Ok updated => if updated =? size then Some (Ok (with_size d size)) else settle turns d updated
               end
  end.

Definition settling_turns : nat := 5.

Definition _compact_public_context (context : pydict) (included : list pydict) : result pydict :=
  _ ← raise_if (negb (forallb hashable (included_ids included))) (TypeError "unhashable type");
  let base := compact_base context included in
  size ← text_size base;
  match settle settling_turns base size with
  | Some r => r
  | None => Err (RuntimeError "the size does not settle")
  end.

(** ** The packet *)

Definition packet_workspace (record : pydict) : pyval :=
  match field "workspace" record with
  | PDict d => match field "workspace" d with PDict inner => PDict inner | _ => PDict d end
  | v => v
  end.

Definition packet_base (handle : string) (record : pydict) (resumed : bool) : pydict :=
  [("status", PStr (if resumed then "resumed" else "claimed")); ("task_id", field "task_id" record);
   ("workspace", packet_workspace record); ("workflow_handle", PStr handle);
   ("allowed_actions", strs ["inspect_task"; "coordinate_task"; "finish_task"]);
   ("recommended_next_call", PStr "finish_task")].

Definition task_context (record : pydict) : pydict :=
  match dict_get_default "context" (PDict []) record with PDict d => d | _ => [] end.

Definition summary_part (summary : pydict) : pydict :=
  match summary with [] => [] | _ => [("task_summary", PDict summary)] end.

(** The string ids of the rows a compact context omits. *)
Definition omitted_ids (compact : pydict) : list pyval :=
  match dict_get_default "omitted" (PList []) compact with
  | PList rows => omap (fun row => d ← mapping row; match field "fragment_id" d with PStr s => Some (PStr s) | _ => None end) rows
  | _ => []
  end.

Definition partial_packet (base summary compact : pydict) : pydict :=
  base ++ [("context", PDict compact); ("context_status", PStr "partial");
           ("context_continuation", PDict
              [("kind", PStr "context_fragment"); ("target_format", PStr "<fragment_id>#offset=<next_offset>");
               ("omitted_fragment_ids", PList (omitted_ids compact))])]
       ++ summary_part summary.

(** "sorted(fragments, key=priority)", a stable sort on priorities 0 to 7. *)
Definition by_priority (fragments : list pyval) : result (list pyval) :=
  keyed ← mapM_result (fun f => p ← _context_fragment_priority f; Ok (p, f)) fragments;
  Ok (concat (map (fun p => (List.filter (fun kf => kf.1 =? p) keyed).*2) [0; 1; 2; 3; 4; 5; 6; 7])).

Definition fragment_id_of (fragment : pydict) : option string :=
  r ← mapping (field "reference" fragment);
  match field "fragment_id" r with PStr s => Some s | _ => None end.

Definition already_included (id : string) (included : list pydict) : bool :=
  existsb (fun row => match mapping (field "reference" row) with
                      | Some r => py_eqb (field "fragment_id" r) (PStr id)
                      | None => false
                      end) included.

(** The compact context with each fragment that still fits in the response. *)
Fixpoint add_fragments (context base summary : pydict) (included : list pydict) (compact : pydict) (fragments : list pyval) :
    result pydict :=
  match fragments with
  | [] => Ok compact
  | PDict fragment :: fragments =>
      match fragment_id_of fragment with
      | None => add_fragments context base summary included compact fragments
      | Some id =>
          if already_included id included then add_fragments context base summary included compact fragments
          else
            candidate ← _compact_public_context context (included ++ [fragment]);
            size ← text_size (partial_packet base summary candidate);
            if _MAX_RESPONSE_BYTES <? size then add_fragments context base summary included compact fragments
            else add_fragments context base summary (included ++ [fragment]) candidate fragments
      end
  | _ :: fragments => add_fragments context base summary included compact fragments
  end.

Definition partial_task_packet (context base summary : pydict) : result pydict :=
  compact ← _compact_public_context context [];
  compact ← match dict_get_default "fragments" (PList []) context with
            | PList fragments => ordered ← by_priority fragments;
                                 add_fragments context base summary [] compact ordered
            | _ => Ok compact
            end;
  _bounded_response float_repr (partial_packet base summary compact) _MAX_RESPONSE_BYTES.

Definition _task_packet (handle : string) (record : pydict) (resumed : bool) : result pydict :=
  let context := task_context record in
  let base := packet_base handle record resumed in
  summary ← _task_summary record context;
  match _bounded_response float_repr (base ++ [("context", PDict context)] ++ summary_part summary) _MAX_RESPONSE_BYTES with
  | Err (WorkflowError code) as r =>
      if negb (String.eqb code "workflow_response_too_large") then r else partial_task_packet context base summary
  | r => r
  end.

End Host.

End TaskPacket.
