(* ===== verification/Selection.v ===== *)
(** * Selecting the next task (compact_workflow.py)

    [next_task]: a pending review when the caller may decide one, otherwise the handle of
    the scope goes through its phases, one native call each, until it is active: a work
    item is selected, its workspace is created, an attempt is dispatched, its context is
    built.  Each phase is journalled before the next starts, so that a call resumes where
    another stopped.  [resolver] is the workspace resolver of the native host. *)

From Stdlib Require Import ZArith SpecFloat.
From S2P Require Import Prelude PyValue Text Json Journal Phases Workflow Coordinate TaskContext TaskPacket.
Import Journal Phases Workflow TaskContext TaskPacket.

#[local] Open Scope string_scope.
#[local] Open Scope Z_scope.
#[local] Open Scope list_scope.

Module Selection.

(** ** The scope *)

(** The resolver raises, perhaps with a code, or selects a repository. *)
Definition _scope (resolver : option (string -> option string -> option string + pyval)) (project repository : pyval) :
    result (string * string) :=
  project ← _safe_component project "project" 128;
  repository ← match repository with
               | PNone => Ok None
               | v => s ← _safe_component v "repository" 128; Ok (Some s)
               end;
  match resolver with
  | None => Err (WorkflowError "registered_workspace_resolver_unavailable")
  | Some resolver =>
      match resolver project repository with
      | inl code => Err (WorkflowError (default "project_or_authority_unavailable" code))
      | inr selected => s ← _safe_component selected "repository" 128; Ok (project, s)
      end
  end.

Definition requested_of (task_id run_id : pyval) : result pydict :=
  let add name v := match v with
                    | PNone => Ok []
                    | v => s ← _safe_component v name 128; Ok [(name, PStr s)]
                    end in
  t ← add "task_id" task_id;
  r ← add "run_id" run_id;
  Ok (t ++ r).

(** ** The review queue *)

Definition rows_of (name : string) (sections : pydict) : list pydict :=
  match dict_get_default name (PList []) sections with PList l => omap mapping l | _ => [] end.

Record queue := { q_candidates : list pydict; q_attempts : list (string * pydict) }.

Definition add_attempt (attempts : list (string * pydict)) (row : pydict) : list (string * pydict) :=
  match field "attempt_id" row with PStr s => dict_set s row attempts | _ => attempts end.

Definition add_page (q : queue) (page : pydict) : queue :=
  match field "sections" page with
  | PDict sections => {| q_candidates := q.(q_candidates) ++ rows_of "outcome_candidates" sections;
                         q_attempts := foldl add_attempt q.(q_attempts) (rows_of "attempts" sections) |}
  | _ => q
  end.

Definition next_page (page : pydict) : pyval :=
  match field "page" page with PDict d => field "next_page_token" d | _ => PNone end.

Definition attempt_of (q : queue) (candidate : pydict) : option pydict :=
  match field "attempt_id" candidate with PStr s => dict_get s q.(q_attempts) | _ => None end.

(** A pending candidate with its ids, of the task and run asked for. *)
Definition candidate_matches (requested : pydict) (q : queue) (candidate : pydict) : bool :=
  let same key v := match field key requested with PNone => true | r => py_eqb v r end in
  py_eqb (field "state" candidate) (PStr "pending")
  && same "task_id" (field "work_item_id" candidate)
  && match field "run_id" requested with
     | PNone => true
     | r => match attempt_of q candidate with Some a => py_eqb (field "run_id" a) r | None => false end
     end
  && forallb (fun k => bool_decide (is_Some (text_of (field k candidate)))) ["candidate_id"; "attempt_id"; "work_item_id"].

Definition candidate_of (project repository : string) (candidate attempt : pydict) : pydict :=
  [("mode", PStr "review"); ("project", PStr project); ("repository", PStr repository);
   ("candidate_id", field "candidate_id" candidate); ("attempt_id", field "attempt_id" candidate);
   ("task_id", field "work_item_id" candidate); ("run_id", field "run_id" attempt);
   ("assignment_id", dict_get_default "assignment_id" (field "assignment_id" attempt) candidate);
   ("candidate_disposition", field "disposition" candidate); ("candidate_state", field "state" candidate);
   ("reported_by_actor_id", field "reported_by_actor_id" candidate);
   ("candidate_source_digest", field "source_digest" candidate)].

Section Host.
Context (float_repr : spec_float -> string) (sha256 : string -> string) (py_str : pyval -> string).
Context (float_of : string -> spec_float).
Context {N0 : Type} (host : string -> string -> string -> pydict -> N0 -> result pyval * N0).
Context (resolver : option (string -> option string -> option string + pyval)).
Context (self : actor) (now : pyval).

Abbreviation M A := (option file * (N0 * list string) -> result A * (option file * (N0 * list string))).
Abbreviation invoke := (_invoke (native host)).
Abbreviation invoke_phase := (_invoke_phase float_repr sha256 py_str (native host) self now).
Abbreviation respond := (respond float_repr).
Abbreviation atomic handle project repository fn :=
  (stored (atomic_update float_repr sha256 self "workflow" handle project repository fn now)).
#[local] Notation "x ;; y" := (bind x (fun _ => y)) (at level 100, right associativity).
#[local] Notation "'let!' x ':=' m 'in' k" := (bind m (fun x => k)) (at level 100, x pattern, right associativity).

(** "for _ in range(32)". *)
Fixpoint read_queue (turns : nat) (scope : pydict) (selector : pyval) (token revision : pyval) (q : queue) : M queue :=
  match turns with
  | O => raise (WorkflowError "review_queue_too_large")
  | S turns =>
      let! page := invoke "todo_read_authority" scope
          [("limit", PInt 200); ("page_token", token); ("expected_revision", revision); ("review_selector", selector)] in
      if needs_attention page
      then raise (WorkflowError (show py_str (dict_get_default "reason" (PStr "review_queue_unavailable") page)))
      else
        let revision := match revision, field "semantic_revision" page with PNone, PInt z => PInt z | _, _ => revision end in
        match next_page page with
        | PNone => ret (add_page q page)
        | PStr s => check (String.eqb s "") (WorkflowError "review_queue_cursor_invalid") ;;
                    read_queue turns scope selector (PStr s) revision (add_page q page)
        | _ => raise (WorkflowError "review_queue_cursor_invalid")
        end
  end.

(** "(str(reported_at), candidate_id)", and the first candidate in that order. *)
Definition report_key (candidate : pydict) : string * string :=
  (show py_str (dict_get_default "reported_at" (PStr "") candidate), default "" (text_of (field "candidate_id" candidate))).

Definition reported_before (a b : pydict) : bool :=
  let x := report_key a in let y := report_key b in
  String.ltb x.1 y.1 || (String.eqb x.1 y.1 && String.ltb x.2 y.2).

Definition first_reported (candidates : list pydict) : option pydict :=
  match candidates with
  | [] => None
  | c :: l => Some (foldl (fun best c => if reported_before c best then c else best) c l)
  end.

Definition _next_pending_review (project repository : string) (requested : pydict) : M (option pydict) :=
  let! q := read_queue 32 [("project", PStr project); ("repository", PStr repository)]
              (PDict [("task_id", field "task_id" requested); ("run_id", field "run_id" requested)]) PNone PNone
              {| q_candidates := []; q_attempts := [] |} in
  ret (candidate ← first_reported (List.filter (candidate_matches requested q) q.(q_candidates));
       Some (candidate_of project repository candidate (default [] (attempt_of q candidate)))).

Definition _review_packet (handle : string) (record : pydict) : M pydict :=
  respond [("status", PStr "review_required"); ("task_id", field "task_id" record); ("workflow_handle", PStr handle);
           ("candidate_handle", PStr handle); ("disposition", field "candidate_disposition" record);
           ("allowed_actions", strs ["inspect_task"; "coordinate_task"; "finish_task"]);
           ("recommended_next_call", PStr "inspect_task(candidate)")].

(** ** The phases of a selection *)

Definition no_work : M pydict :=
  respond [("status", PStr "no_work"); ("workflow_handle", PNone); ("allowed_actions", strs ["next_task"]);
           ("recommended_next_call", PStr "next_task")].

(** [set_no_work] and [save_selection] change a record that is still selecting. *)
Definition while_selecting (changes current : pydict) : result (pydict * bool) :=
  Ok (if phase_is "selecting" current then (dict_update current changes, true) else (current, false)).

Record selected := {
  sel_task : string; sel_run : option string; sel_assignment : option string; sel_plan : string; sel_revision : Z
}.

(** The fields of the work the authority selected. *)
Definition read_selection (requested candidate : pydict) : result selected :=
  task ← _first_text candidate "work_item_id" ["target_id"; "task_id"];
  run ← _optional_text candidate "run_id";
  assignment ← _optional_text candidate "assignment_id";
  plan ← _first_text candidate "plan_revision_id" ["plan_revision"];
  revision ← match dict_get_default "authority_revision" (field "observed_revision" candidate) candidate with
             | PInt z => if z <? 0 then Err (WorkflowError "work_selection_revision_invalid") else Ok z
             | _ => Err (WorkflowError "work_selection_revision_invalid")
             end;
  let same key v := match field key requested with PNone => true | r => py_eqb r v end in
  _ ← raise_if (negb (same "task_id" (PStr task))) (WorkflowError "work_selection_target_mismatch");
  _ ← raise_if (negb (same "run_id" (opt run))) (WorkflowError "work_selection_run_mismatch");
  Ok {| sel_task := task; sel_run := run; sel_assignment := assignment; sel_plan := plan; sel_revision := revision |}.

Definition prepared (handle project repository : string) (requested record candidate : pydict) (s : selected) :
    result pydict :=
  create ← _operation_key float_repr sha256 handle "create_workspace" candidate;
  dispatch ← _operation_key float_repr sha256 handle "dispatch_attempt" candidate;
  Ok [("phase", PStr "workspace_pending"); ("selection", PDict candidate); ("project", PStr project);
      ("repository", PStr repository); ("request", PDict requested);
      ("created_at", dict_get_default "created_at" now record); ("task_id", PStr s.(sel_task)); ("run_id", opt s.(sel_run));
      ("assignment_id", opt s.(sel_assignment)); ("plan_revision_id", PStr s.(sel_plan));
      ("authority_revision", PInt s.(sel_revision)); ("workspace_id", PStr (Coordinate._generated_id sha256 "ws" handle));
      ("create_workspace_key", PStr create); ("dispatch_key", PStr dispatch)].

(** "choice.get("selection")" when it is there. *)
Definition choice_of (choice : pydict) : pyval := dict_get_default "selection" (PDict choice) choice.

Definition save_choice (handle project repository : string) (requested record : pydict) (choice : pyval) : M (pydict + pydict) :=
  match choice with
  | PDict d =>
      let! candidate := lift (_bounded_mapping float_repr d "work_selection" _MAX_PREVIEW_BYTES) in
      let! s := lift (read_selection requested candidate) in
      let! changes := lift (prepared handle project repository requested record candidate s) in
      let! record := atomic handle project repository (while_selecting changes) in
      if phase_is "selecting" record then ret (inl (_attention "workflow_selection_conflict" (Some handle) [] PNone))
      else ret (inr record)
  | _ => raise (WorkflowError "work_selection_invalid")
  end.

(** An early answer on the left, the record on the right. *)
Definition select_step (handle project repository : string) (requested record : pydict) : M (pydict + pydict) :=
  if negb (phase_is "selecting" record) then ret (inr record)
  else
    let! choice := invoke "todo_select_next_work" record
        [("run_id", field "run_id" requested); ("work_item_id", field "task_id" requested)] in
    if needs_attention choice then ret (inl (_native_attention choice None))
    else match choice_of choice with
         | PNone =>
             let! record := atomic handle project repository (while_selecting [("phase", PStr "no_work")]) in
             if phase_is "no_work" record then let! answer := no_work in ret (inl answer)
             else save_choice handle project repository requested record PNone
         | v => save_choice handle project repository requested record v
         end.

(** Arguments taken from the record: "record[key]" when required, "record.get(key)" otherwise. *)
Definition argument (record : pydict) (nk : string * string * bool) : result (string * pyval) :=
  let '(name, key, needed) := nk in
  match dict_get key record with
  | Some v => Ok (name, v)
  | None => if needed : bool then Err (KeyError key) else Ok (name, PNone)
  end.

Definition arguments_of (record : pydict) (names : list (string * string * bool)) : result pydict :=
  mapM_result (argument record) names.

Definition workspace_names : list (string * string * bool) :=
  [("work_item_id", "task_id", true); ("run_id", "run_id", false); ("assignment_id", "assignment_id", true);
   ("plan_revision_id", "plan_revision_id", true); ("workspace_id", "workspace_id", true)].

Definition workspace_step (handle project repository : string) (record : pydict) : M (pydict + pydict) :=
  if negb (phase_is "workspace_pending" record) then ret (inr record)
  else
    let! arguments := lift (arguments_of record workspace_names) in
    let! (workspace, record) := invoke_phase handle project repository record "create_workspace" "todo_create_workspace"
        arguments (field "authority_revision" record) (field "create_workspace_key" record) in
    if needs_attention workspace then ret (inl (_native_attention workspace None))
    else
      let record := dict_update record [("phase", PStr "dispatch_pending"); ("workspace", PDict workspace)] in
      update_record float_repr sha256 self now handle project repository record ;;
      ret (inr record).

Definition dispatch_names : list (string * string * bool) :=
  [("workspace_id", "workspace_id", true); ("work_item_id", "task_id", true); ("run_id", "run_id", false);
   ("assignment_id", "assignment_id", true); ("plan_revision_id", "plan_revision_id", true)].

(** The attempt and the lease of a dispatch receipt. *)
Definition dispatched_ids (receipt : pydict) : result (string * string) :=
  attempt ← match _nested_text receipt ["attempt_ref"; "entity_id"] with
            | Some s => Ok (Some s)
            | None => _optional_text receipt "attempt_id"
            end;
  lease ← _optional_text receipt "lease_id";
  match attempt, lease with
  | Some attempt, Some lease => Ok (attempt, lease)
  | _, _ => Err (WorkflowError "dispatch_receipt_incomplete")
  end.

Definition dispatched_changes (attempt lease : string) (receipt : pydict) : pydict :=
  [("phase", PStr "context_pending"); ("attempt_id", PStr attempt); ("lease_id", PStr lease);
   ("dispatch_receipt", PDict receipt)].

Definition dispatch_step (handle project repository : string) (record : pydict) : M (pydict + pydict) :=
  if negb (phase_is "dispatch_pending" record) then ret (inr record)
  else
    let! arguments := lift (arguments_of record dispatch_names) in
    let! (dispatched, record) := invoke_phase handle project repository record "dispatch_attempt" "todo_dispatch_attempt"
        arguments PNone (field "dispatch_key" record) in
    if needs_attention dispatched then ret (inl (_native_attention dispatched (Some handle)))
    else
      let! (attempt, lease) := lift (dispatched_ids dispatched) in
      let record := dict_update record (dispatched_changes attempt lease dispatched) in
      update_record float_repr sha256 self now handle project repository record ;;
      _ensure_lease_renewal handle ;;
      ret (inr record).

Definition context_names : list (string * string * bool) :=
  [("work_item_id", "task_id", true); ("run_id", "run_id", false); ("assignment_id", "assignment_id", true);
   ("attempt_id", "attempt_id", true)].

(** The capsule of an answer, with its fragments as mappings. *)
Definition capsule_of (answer : pydict) : result pydict :=
  bounded ← _bounded_mapping float_repr answer "task_context" _MAX_CONTEXT_CAPSULE_BYTES;
  payload ← _context_document_payload float_repr bounded "context_capsule";
  _normalize_context_fragments float_of payload.

Definition active_changes (context : pydict) (ids : list string) : pydict :=
  [("phase", PStr "active"); ("context", PDict context); ("requirement_ids", strs ids)].

(** Only the context fields are written: the lease may have been renewed meanwhile. *)
Definition context_step (handle project repository : string) (record : pydict) : M (pydict + pydict) :=
  if negb (phase_is "context_pending" record) then ret (inr record)
  else
    let! arguments := lift (arguments_of record context_names) in
    let! answer := invoke "todo_build_context" record (arguments ++ [("max_bytes", PInt 4096)]) in
    if needs_attention answer then ret (inl (_native_attention answer (Some handle)))
    else
      let! context := lift (capsule_of answer) in
      let! context := _ensure_work_item_fragment float_repr sha256 float_of host context record in
      let! ids := lift (_requirement_ids float_of context) in
      let! record := _update float_repr sha256 self now handle project repository (active_changes context ids) in
      ret (inr record).

(** The answer for the record as the phases left it. *)
Definition next_packet (handle project repository : string) (is_new : bool) (record : pydict) : M pydict :=
  if phase_is "review_pending" record then
    respond [("status", PStr "review_pending"); ("workflow_handle", PStr handle); ("task_id", field "task_id" record);
             ("allowed_actions", strs ["inspect_task"; "next_task"]); ("recommended_next_call", PStr "next_task")]
  else if negb (phase_is "active" record) then
    ret (_attention "workflow_recovery_required" (Some handle) ["inspect_task"; "finish_task"] PNone)
  else
    let! resumed := (if is_new then ret [("status", PStr "ok")]
                     else _resume_active float_repr sha256 py_str host self now handle project repository record) in
    if negb is_new && needs_attention resumed then ret resumed
    else
      let! record := (if is_new then ret record
                      else let! d := stored_record sha256 self handle project repository in
                           ret (with_scope project repository d)) in
      _ensure_lease_renewal handle ;;
      lift (_task_packet float_repr float_of handle record (negb is_new)).

(** An early answer ends the call. *)
Definition and_then {A} (m : M (pydict + A)) (k : A -> M pydict) : M pydict :=
  bind m (fun x => match x with inl answer => ret answer | inr a => k a end).

(** The phases in order; each does nothing unless the record is in its phase. *)
Definition advance (handle project repository : string) (requested : pydict) (is_new : bool) (record : pydict) : M pydict :=
  and_then (select_step handle project repository requested record) (fun record =>
  and_then (workspace_step handle project repository record) (fun record =>
  and_then (dispatch_step handle project repository record) (fun record =>
  and_then (context_step handle project repository record) (fun record =>
  next_packet handle project repository is_new record)))).

Definition has_context (record : pydict) : bool := match field "context" record with PDict _ => true | _ => false end.

(** The record [reserve_workflow] gave, with its handle. *)
Definition next_reserved (handle project repository : string) (requested : pydict) (is_new : bool) (record : pydict) : M pydict :=
  if phase_is "active" record && has_context record then
    let! resumed := _resume_active float_repr sha256 py_str host self now handle project repository record in
    if needs_attention resumed then ret resumed
    else
      let! record := stored_record sha256 self handle project repository in
      _ensure_lease_renewal handle ;;
      lift (_task_packet float_repr float_of handle (with_scope project repository record) true)
  else if phase_is "no_work" record then no_work
  else advance handle project repository requested is_new record.

(** The review to decide first: only a mutator without a current workflow takes one. *)
Definition pending_review_of (project repository : string) (requested : pydict) : M (option pydict) :=
  if negb (String.eqb self.(a_profile) "mutator") then ret None
  else
    let! current := reading (find_current_workflow float_repr sha256 self project repository requested) in
    match current with
    | Some _ => ret None
    | None => _next_pending_review project repository requested
    end.

Definition next_task (project repository task_id run_id : pyval) (token : string) : M pydict :=
  guarded None [] "compact_workflow_next_task_failed" (
    let! (project, repository) := lift (_scope resolver project repository) in
    let! requested := lift (requested_of task_id run_id) in
    let! review := pending_review_of project repository requested in
    match review with
    | Some review =>
        let! (handle, record, _) := stored (reserve_review float_repr sha256 self project repository review token now) in
        _review_packet handle record
    | None =>
        let! (handle, record, is_new) := stored (reserve_workflow float_repr sha256 self project repository requested token now) in
        next_reserved handle project repository requested is_new (with_scope project repository record)
    end).

End Host.

End Selection.
