(* ===== verification/Inspect.v ===== *)
(** * Inspecting a task (compact_workflow.py)

    [inspect_task]: one read under a handle, cut to the caller's budget.  A task or a
    recovery that is too large is summarised; any other detail that is too large is an
    error.  Nothing is written. *)

From Stdlib Require Import ZArith SpecFloat.
From stdpp Require Import pretty.
From S2P Require Import Prelude PyValue Text Json Journal Phases Workflow TaskContext.
Import Journal Phases Workflow TaskContext.

#[local] Open Scope string_scope.
#[local] Open Scope Z_scope.
#[local] Open Scope list_scope.

Module Inspect.

Definition mapping_or_empty (v : pyval) : pydict := default [] (mapping v).

(** The items of [d] under these keys that the test accepts. *)
Definition kept (test : pyval -> bool) (keys : list string) (d : pydict) : pydict :=
  omap (fun k => v ← dict_get k d; if test v then Some (k, v) else None) keys.

Definition is_text (v : pyval) : bool := match v with PStr _ => true | _ => false end.
Definition is_short (v : pyval) : bool := match v with PNone | PStr _ | PInt _ | PBool _ => true | _ => false end.

(** ** Summaries *)

Definition raw_refs (context manifest : pydict) : list pyval :=
  match field "fragments" manifest, field "fragments" context with
  | PList l, _ => l
  | _, PList l => map PDict (omap reference_of l)
  | _, _ => []
  end.

Definition fragment_refs (context manifest : pydict) : list pydict :=
  List.filter (fun r => negb (bool_decide (length r = 0%nat)))
    (map (kept is_text ["fragment_id"; "kind"; "digest"]) (omap mapping (raw_refs context manifest))).

Definition recovery_keys : list string :=
  ["status"; "attempt_id"; "run_id"; "assignment_id"; "lease_id"; "state"; "recovery_state"; "phase"; "reason";
   "semantic_revision"; "source_commit"; "source_digest"; "updated_at"].

Definition operation_keys : list string := ["operation_id"; "operation"; "effect_id"; "kind"; "state"; "status"; "reason"].

Definition operation_ref (row : pydict) : pydict :=
  let ref := kept is_short operation_keys row in
  match field "operation" row with
  | PDict o => match field "entity_id" o with
               | PStr s => dict_pop "operation" (dict_set "operation_id" (PStr s) ref)
               | _ => ref
               end
  | _ => ref
  end.

Definition operation_refs (value : pydict) : list pydict :=
  List.filter (fun r => negb (bool_decide (length r = 0%nat)))
    (concat (map (fun k => match field k value with PList rows => map operation_ref (omap mapping rows) | _ => [] end)
               ["operations"; "effects"; "pending_operations"])).

Section Host.
Context (float_repr : spec_float -> string) (sha256 : string -> string) (py_str : pyval -> string).
Context {N0 : Type} (host : string -> string -> string -> pydict -> N0 -> result pyval * N0).
Context (self : actor).

Definition fits (d : pydict) (limit : Z) : result bool :=
  t ← _canonical float_repr (PDict d); Ok (len t <=? limit).

(** The last references are dropped, and the cut marked, until the summary fits. *)
Fixpoint trim (n : nat) (list_key mark : string) (limit : Z) (refs : list pydict) (summary : pydict) : result pydict :=
  let summary := dict_set list_key (PList (map PDict (take n refs))) summary in
  ok ← fits summary limit;
  match ok, n with
  | false, S n => trim n list_key mark limit refs (dict_set mark (PBool true) summary)
  | _, _ => Ok summary
  end.

(** A summary of [shown] references, or the [short] one when even without them it is too large. *)
Definition bounded_summary (list_key mark : string) (shown : nat) (refs : list pydict) (summary short : pydict) (limit : Z) :
    result pydict :=
  let summary := dict_set list_key (PList (map PDict (take shown refs))) summary in
  let summary := if (shown <? length refs)%nat then dict_set mark (PBool true) summary else summary in
  summary ← trim (length (take shown refs)) list_key mark limit refs summary;
  ok ← fits summary limit;
  _bounded_mapping float_repr (if ok : bool then summary else short) "inspection_result" limit.

Definition _bounded_task_context_summary (value : pydict) (limit : Z) : result pydict :=
  let context := match field "payload" value with PDict d => d | _ => value end in
  let manifest := mapping_or_empty (field "manifest" context) in
  let refs := fragment_refs context manifest in
  let count := PInt (Z.of_nat (length refs)) in
  bounded_summary "fragment_refs" "fragment_refs_truncated" 16 refs
    [("status", PStr "partial"); ("reason", PStr "task_context_exceeds_budget");
     ("manifest_digest", field "digest" manifest); ("source_digest", field "source_digest" manifest);
     ("semantic_revision", field "semantic_revision" context); ("fragment_count", count); ("fragment_refs", PList []);
     ("continuation", PStr "inspect_task(kind=context_fragment, target=<fragment_id>)")]
    [("status", PStr "partial"); ("reason", PStr "task_context_exceeds_budget"); ("fragment_count", count);
     ("continuation", PStr "inspect_task(kind=source)")] limit.

Definition _bounded_recovery_summary (value : pydict) (limit : Z) : result pydict :=
  bounded_summary "operation_refs" "operation_refs_truncated" 24 (operation_refs value)
    (dict_update (kept is_short recovery_keys value)
       [("status", PStr "partial"); ("reason", PStr "recovery_inspection_exceeds_budget"); ("operation_refs", PList []);
        ("continuation", PStr "inspect_task(kind=effect, target=<operation_id>)")])
    [("status", PStr "partial"); ("reason", PStr "recovery_inspection_exceeds_budget");
     ("continuation", PStr "inspect_task(kind=effect, target=<operation_id>)")] limit.

(** ** The kinds of detail *)

Abbreviation M A := (option file * (N0 * list string) -> result A * (option file * (N0 * list string))).
Abbreviation invoke := (_invoke (native host)).
#[local] Notation "x ;; y" := (bind x (fun _ => y)) (at level 100, right associativity).
#[local] Notation "'let!' x ':=' m 'in' k" := (bind m (fun x => k)) (at level 100, x pattern, right associativity).

Definition kinds : list string :=
  ["task"; "source"; "evidence"; "run"; "lane"; "decision"; "messages"; "rendezvous"; "context_fragment"; "workspace";
   "integration"; "candidate"; "effect"; "resource"; "child"; "recovery"].

(** An early answer on the left, the detail on the right. *)
Definition ask (handle tool : string) (record arguments : pydict) : M (pydict + pydict) :=
  let! result := invoke tool record arguments in
  ret (if needs_attention result then inl (_native_attention result (Some handle)) else inr result).

Definition value_of (m : M (pydict + pydict)) : M (pydict + pyval) :=
  let! x := m in ret (match x with inl answer => inl answer | inr d => inr (PDict d) end).

(** The reference of the manifest with this fragment id. *)
Definition manifest_reference (id : string) (context : pydict) : option pydict :=
  manifest ← mapping (field "manifest" context);
  references ← elements (field "fragments" manifest);
  List.find (fun r => py_eqb (field "fragment_id" r) (PStr id)) (omap mapping references).

Definition continuation (id : string) (reference : option pydict) (next : Z) : pyval :=
  PStr (show py_str (match reference with Some r => field "fragment_id" r | None => PStr id end)
        +:+ "#offset=" +:+ pretty next).

(** An expansion with the target of its next chunk, when there is one. *)
Definition with_continuation (id : string) (expansion : pydict) : result pydict :=
  o ← _expansion_chunk expansion;
  match o with
  | Some c =>
      Ok match c.(ck_next) with
         | Some next => if 0 <? next
                        then dict_set "continuation_target" (continuation id (chunk_reference expansion) next) expansion
                        else expansion
         | None => expansion
         end
  | None =>
      Ok match field "next_offset" expansion, field "total_bytes" expansion with
         | PInt next, PInt total =>
             if next <? total
             then dict_set "continuation_target" (continuation id (mapping (field "reference" expansion)) next) expansion
             else expansion
         | _, _ => expansion
         end
  end.

Definition inspect_fragment (handle : string) (target : pyval) (budget : Z) (record : pydict) : M (pydict + pyval) :=
  let! (id, offset) := lift (_context_fragment_target target) in
  match field "context" record with
  | PDict context =>
      match manifest_reference id context with
      | None => raise (WorkflowError "context_fragment_unavailable")
      | Some reference =>
          let! expanded := _expand_context_fragment float_repr host record reference
                             (Z.min (Z.max budget 4096) (64 * 1024)) offset in
          if needs_attention expanded then ret (inl (_native_attention expanded (Some handle)))
          else let! d := lift (with_continuation id expanded) in ret (inr (PDict d))
      end
  | _ => raise (WorkflowError "task_context_unavailable")
  end.

Definition inspect_source (record : pydict) : result pyval :=
  let manifest := match dict_get_default "context" (PDict []) record with PDict c => field "manifest" c | _ => PNone end in
  fragments ← match manifest with
              | PDict m => l ← py_iter (dict_get_default "fragments" (PList []) m); Ok (map PDict (omap mapping l))
              | _ => Ok []
              end;
  Ok (PDict [("manifest", manifest); ("source_fragments", PList fragments)]).

Definition inspect_run (handle kind : string) (target : pyval) (record : pydict) : M (pydict + pyval) :=
  match text_of (if truthy target then target else field "run_id" record) with
  | None => raise (WorkflowError "run_id_unavailable")
  | Some run =>
      let! x := ask handle "todo_read_run" record [("run_id", PStr run)] in
      match x with
      | inl answer => ret (inl answer)
      | inr result =>
          if negb (String.eqb kind "lane") then ret (inr (PDict result))
          else match dict_get_default "schedule" (PDict []) result with
               | PDict schedule => ret (inr (PDict [("run_id", PStr run); ("lanes", dict_get_default "lanes" (PList []) schedule)]))
               | _ => raise (AttributeError "get")
               end
      end
  end.

Definition inspect_messages (handle : string) (record : pydict) : M (pydict + pyval) :=
  check (negb (truthy (field "attempt_id" record))) (WorkflowError "attempt_unavailable") ;;
  value_of (ask handle "todo_inbox_status" record
    [("scope", PDict [("kind", PStr "attempt"); ("entity_id", field "attempt_id" record)]);
     ("run_id", field "run_id" record); ("assignment_id", field "assignment_id" record);
     ("attempt_id", field "attempt_id" record)]).

Definition inspect_candidate (handle : string) (target : pyval) (record : pydict) : M (pydict + pyval) :=
  let expected := if py_eqb (field "mode" record) (PStr "review") then PStr handle else field "candidate_handle" record in
  check (match target with PNone => false | t => negb (py_eqb t expected) end) (WorkflowError "candidate_handle_mismatch") ;;
  check (negb (is_text (field "candidate_id" record))) (WorkflowError "candidate_unavailable") ;;
  value_of (ask handle "todo_read_candidate" record [("candidate_id", field "candidate_id" record)]).

Definition inspect_attempt (handle kind : string) (record : pydict) : M (pydict + pyval) :=
  match String.eqb kind "integration", field "integration_receipt" record with
  | true, PNone | false, _ => value_of (ask handle "todo_inspect_attempt" record [("attempt_id", field "attempt_id" record)])
  | true, receipt => ret (inr receipt)
  end.

Definition aliases (kind : string) : list string :=
  if String.eqb kind "evidence" then ["evidence"; "artifacts"; "outcomes"]
  else if String.eqb kind "decision" then ["decisions"]
  else if String.eqb kind "rendezvous" then ["rendezvous"; "declarations"] else ["workspaces"].

Definition inspect_sections (handle kind : string) (record : pydict) : M (pydict + pyval) :=
  let! x := ask handle "todo_read_authority" record [("limit", PInt 50)] in
  ret match x with
      | inl answer => inl answer
      | inr result =>
          inr match dict_get_default "sections" (PDict []) result with
              | PDict sections => PDict [("sections", PDict (kept (fun _ => true) (aliases kind) sections)); ("page", field "page" result)]
              | _ => PDict result
              end
      end.

Definition inspect_task_detail (handle : string) (record : pydict) : M (pydict + pyval) :=
  if py_eqb (field "mode" record) (PStr "review")
  then value_of (ask handle "todo_read_candidate" record [("candidate_id", field "candidate_id" record)])
  else ret (inr (dict_get_default "context" (PDict []) record)).

Definition detail (handle kind : string) (target : pyval) (budget : Z) (record : pydict) : M (pydict + pyval) :=
  let one k := String.eqb kind k in
  if one "task" then inspect_task_detail handle record
  else if one "context_fragment" then inspect_fragment handle target budget record
  else if one "source" then let! v := lift (inspect_source record) in ret (inr v)
  else if one "run" || one "lane" then inspect_run handle kind target record
  else if one "messages" then inspect_messages handle record
  else if one "candidate" then inspect_candidate handle target record
  else if one "recovery" || one "integration" then inspect_attempt handle kind record
  else if one "effect" then
    let! id := lift (_safe_component target "operation_id" 128) in
    value_of (ask handle "todo_inspect_effect" record [("operation_id", PStr id)])
  else if one "resource" then
    let! id := lift (_safe_component target "operation_id" 128) in
    value_of (ask handle "todo_inspect_resource" record [("attempt_id", field "attempt_id" record); ("operation_id", PStr id)])
  else if one "child" then
    let! id := lift (_safe_component target "execution_id" 128) in
    value_of (ask handle "todo_read_child_execution" record
      [("parent_attempt_id", field "attempt_id" record); ("execution_id", PStr id)])
  else inspect_sections handle kind record.

(** ** The answer *)

Definition response_limit (budget : Z) : Z := Z.min (budget + 1024) (Z.max _MAX_RESPONSE_BYTES budget).
Definition result_limit (budget : Z) : Z := Z.min budget (Z.max 512 (response_limit budget - 1024)).

(** The detail in its limit, or its summary. *)
Definition bound_detail (kind : string) (limit : Z) (v : pyval) : result pydict :=
  match v with
  | PDict d =>
      match _bounded_mapping float_repr d "inspection_result" limit with
      | Err (WorkflowError code) as r =>
          if negb (String.eqb code "inspection_result_too_large") then r
          else if String.eqb kind "task" then _bounded_task_context_summary d limit
          else if String.eqb kind "recovery" then _bounded_recovery_summary d limit
          else r
      | r => r
      end
  | _ => Err (WorkflowError "inspection_result_invalid")
  end.

Definition inspect_task (handle kind : string) (target budget_bytes : pyval) : M pydict :=
  guarded (Some handle) ["inspect_task"; "coordinate_task"; "finish_task"] "compact_workflow_inspection_failed" (
    match budget_bytes with
    | PInt budget =>
        check (negb ((512 <=? budget) && (budget <=? 64 * 1024))) (WorkflowError "budget_bytes_invalid") ;;
        check (negb (bool_decide (kind ∈ kinds))) (WorkflowError "inspection_kind_unsupported") ;;
        let! (project, repository, record) := _handle sha256 self handle in
        let! x := detail handle kind target budget (with_scope project repository record) in
        match x with
        | inl answer => ret answer
        | inr v =>
            let! bounded := lift (bound_detail kind (result_limit budget) v) in
            lift (_bounded_response float_repr
              [("status", PStr "ok"); ("kind", PStr kind); ("result", PDict bounded); ("workflow_handle", PStr handle)]
              (response_limit budget))
        end
    | _ => raise (WorkflowError "budget_bytes_invalid")
    end).

End Host.

End Inspect.
