(* ===== verification/JournalProps.v ===== *)
(** * The workflow journal: what every sequence of calls keeps

    The invariant of the file, the permanence of handles and their scope, and the
    reservation of one authoring workflow per scope. *)

From Stdlib Require Import ZArith SpecFloat.
From stdpp Require Import relations.
From S2P Require Import Prelude PyValue Text Json Journal.
Import Journal.

#[local] Open Scope string_scope.
#[local] Open Scope Z_scope.
#[local] Open Scope list_scope.

(** ** The file holds what was written *)

(** The columns that no method changes. *)
Definition header (e : entry) : string * string * string * string * string :=
  (e.(e_kind), e.(e_identity), e.(e_digest), e.(e_project), e.(e_repository)).
Definition key_of (e : entry) : string * string := (e.(e_kind), e.(e_digest)).

Definition timed (e : entry) : Prop := is_number e.(e_created) = true /\ is_number e.(e_updated) = true.

Lemma read_entry_json e : timed e -> read_entry (entry_json e) = Some e.
Proof.
  intros [Hc Hu]. destruct e as [k i d p r c u data]. cbn in Hc, Hu.
  unfold read_entry, entry_json. cbn [e_kind e_identity e_digest e_project e_repository e_created e_updated e_data].
  match goal with |- context [key_set ?d ?k] => change (key_set d k) with true end. cbv iota.
  unfold str_at, number_at, dict_at.
  repeat match goal with |- context [dict_get ?k ?d] =>
    let v := eval vm_compute in (dict_get k d) in change (dict_get k d) with v end.
  cbn. by rewrite Hc, Hu.
Qed.

Lemma read_entries_json es : Forall timed es -> read_entries (map entry_json es) = Some es.
Proof. induction 1 as [|e es He _ IH]; [done|]. cbn [map read_entries]. by rewrite read_entry_json, IH. Qed.

Lemma store_entries_json es :
  (length es <= _MAX_RECORDS)%nat -> Forall timed es -> store_entries (store_json es) = Some es.
Proof.
  intros Hl Ht. unfold store_entries, store_json.
  match goal with |- context [key_set ?d ?k] => change (key_set d k) with true end.
  change (dict_get "entries" _) with (Some (PList (map entry_json es))).
  change (py_eqb _ _) with (String.eqb _STORE_FORMAT _STORE_FORMAT). rewrite String.eqb_refl.
  change (eq_int _ _) with true. cbn [andb]. rewrite length_map.
  rewrite (proj2 (Nat.ltb_ge _ _) Hl). by apply read_entries_json.
Qed.

Lemma read_written float_repr es f :
  (length es <= _MAX_RECORDS)%nat -> Forall timed es -> _write float_repr es = Ok f -> _read (Some f) = Ok es.
Proof.
  intros Hl Ht H. unfold _write in H. destruct (_canonical _ _) as [t|x]; [|discriminate]. inv_res.
  unfold _read. cbn [f_safe f_size f_json negb orb]. rewrite Ha.
  change (Some (store_json es) ≫= store_entries) with (store_entries (store_json es)). by rewrite store_entries_json.
Qed.

Lemma read_entries_timed l es : read_entries l = Some es -> Forall timed es.
Proof.
  revert es. induction l as [|v l IH]; intros es H; cbn in H; [by simplify_eq|].
  destruct (read_entry v) as [e|] eqn:He; [|done]. cbn in H.
  destruct (read_entries l) as [es'|]; [|done]. cbn in H. simplify_eq. constructor; [|by apply IH].
  destruct v; try done. cbn in He. destruct (key_set _ _); [|done].
  repeat (apply bind_Some in He as (? & ? & He)). simplify_eq. split; cbn.
  all: unfold number_at in *;
    repeat match goal with H : (_ ≫= _) = Some _ |- _ => apply bind_Some in H as (? & ? & H); case_match; simplify_eq end.
  all: done.
Qed.

Lemma read_bounds f es : _read f = Ok es -> (length es <= _MAX_RECORDS)%nat /\ Forall timed es.
Proof.
  destruct f as [f|]; cbn; intros H; [|simplify_eq; split; [apply Nat.le_0_l|done]].
  inv_res. destruct (f_json f) as [v|]; [|done]. cbn in H.
  destruct (store_entries v) as [es'|] eqn:He; [|done]. apply Ok_inj in H as ->.
  destruct v; try done. unfold store_entries in He. destruct (_ && _); [|done].
  destruct (dict_get "entries" d) as [[]|]; try done.
  destruct (_ <? _)%nat eqn:Hl; [done|]. apply Nat.ltb_ge in Hl.
  split; [|by eapply read_entries_timed].
  assert (length es = length l) as ->; [|done]. clear Hl. revert es He.
  induction l as [|v l IH]; intros es He; cbn in He; [by simplify_eq|].
  destruct (read_entry v); [|done]. cbn in He. destruct (read_entries l); [|done]. cbn in He. simplify_eq.
  cbn. f_equal. by apply IH.
Qed.

(** A method of the store: it fails and leaves the file, reads it, or writes entries. *)
Lemma mutate_cases {A} float_repr (fn : list entry -> result (A * list entry * bool)) f r f' :
  _mutate float_repr fn f = (r, f') ->
  f' = f /\ (forall a, r = Ok a -> exists es es', _read f = Ok es /\ fn es = Ok (a, es', false)) \/
  exists es a es' file, _read f = Ok es /\ fn es = Ok (a, es', true) /\ _write float_repr es' = Ok file /\
    r = Ok a /\ f' = Some file.
Proof.
  unfold _mutate. intros H. destruct (_read f) as [es|x] eqn:Hr; cbn in H.
  2: { simplify_eq. left. done. }
  destruct (fn es) as [[[a es'] [|]]|x] eqn:Hf; cbn in H.
  - destruct (_write float_repr es') as [file|x] eqn:Hw; cbn in H; simplify_eq.
    + right. by exists es, a, es', file.
    + left. done.
  - simplify_eq. left. split; [done|]. intros a' [= <-]. by exists es, es'.
  - simplify_eq. left. done.
Qed.

(** ** Entries under the invariant *)

Section Actor.
Context (float_repr : spec_float -> string) (sha256 : string -> string) (self : actor).
#[local] Abbreviation _identity := (_identity sha256 self).
#[local] Abbreviation _find := (_find sha256 self).
#[local] Abbreviation set_entry := (set_entry sha256 self).
#[local] Abbreviation new_entry := (new_entry sha256 self).

Record entries_ok (es : list entry) : Prop := {
  eo_keys : NoDup (map key_of es);
  eo_digest : forall e, e ∈ es -> e.(e_digest) = _identity e.(e_kind) e.(e_identity)
}.

Definition journal_ok (f : option file) : Prop := exists es, _read f = Ok es /\ entries_ok es.

Lemma has_identity_spec kind digest e : has_identity kind digest e = true <-> key_of e = (kind, digest).
Proof.
  unfold has_identity, key_of. rewrite andb_true_iff, !String.eqb_eq. split; [by intros [-> ->]|by intros [= -> ->]].
Qed.

Lemma filter_identity es e :
  entries_ok es -> e ∈ es -> List.filter (has_identity e.(e_kind) e.(e_digest)) es = [e].
Proof.
  intros [Hnd _]. induction es as [|x es IH]; intros He; [by apply not_elem_of_nil in He|].
  cbn in Hnd. apply NoDup_cons in Hnd as [Hx Hnd]. cbn [List.filter].
  apply elem_of_cons in He as [->|He].
  - rewrite (proj2 (has_identity_spec _ _ x)) by done. f_equal.
    destruct (List.filter _ es) as [|y l] eqn:Hf; [done|]. exfalso. apply Hx.
    assert (y ∈ y :: l) as Hy by left. rewrite <-Hf in Hy.
    apply list_elem_of_In, List.filter_In in Hy as [Hy Hk%has_identity_spec].
    apply list_elem_of_fmap. exists y. split; [done|]. by apply list_elem_of_In.
  - destruct (has_identity e.(e_kind) e.(e_digest) x) eqn:Hh; [|by apply IH].
    apply has_identity_spec in Hh. exfalso. apply Hx, list_elem_of_fmap. exists e. split; [by rewrite Hh|done].
Qed.

Lemma filter_identity_cases es kind digest :
  entries_ok es ->
  List.filter (has_identity kind digest) es = [] /\ (forall e, e ∈ es -> key_of e <> (kind, digest)) \/
  exists e, e ∈ es /\ key_of e = (kind, digest) /\ List.filter (has_identity kind digest) es = [e].
Proof.
  intros Hok. destruct (List.filter (has_identity kind digest) es) as [|e l] eqn:Hf.
  - left. split; [done|]. intros e He Hk. apply has_identity_spec in Hk.
    assert (e ∈ List.filter (has_identity kind digest) es) as Hin.
    { apply list_elem_of_In, List.filter_In. split; [by apply list_elem_of_In|done]. }
    rewrite Hf in Hin. by apply not_elem_of_nil in Hin.
  - right. assert (e ∈ e :: l) as He by left. rewrite <-Hf in He.
    apply list_elem_of_In, List.filter_In in He as [He Hk%has_identity_spec]. apply list_elem_of_In in He.
    exists e. split; [done|]. split; [done|]. rewrite <-Hf. injection Hk as <- <-. by apply filter_identity.
Qed.

Lemma find_spec es kind identity project repository o :
  entries_ok es -> _find es kind identity project repository = Ok o ->
  match o with
  | None => forall e, e ∈ es -> key_of e <> (kind, _identity kind identity)
  | Some e => e ∈ es /\ key_of e = (kind, _identity kind identity) /\ in_scope project repository e = true
  end.
Proof.
  intros Hok H. unfold Journal._find in H.
  destruct (filter_identity_cases es kind (_identity kind identity) Hok) as [[Hf Hn]|(e & He & Hk & Hf)];
    rewrite Hf in H.
  - by apply Ok_inj in H as <-.
  - inv_res. apply negb_false_iff in Ha. done.
Qed.

Lemma find_entry es kind identity project repository e :
  entries_ok es -> e ∈ es -> key_of e = (kind, _identity kind identity) -> in_scope project repository e = true ->
  _find es kind identity project repository = Ok (Some e).
Proof.
  intros Hok He Hk Hs. unfold Journal._find. injection Hk as <- Hd. rewrite <-Hd, filter_identity by done.
  by rewrite Hs.
Qed.

(** ** How the entries evolve *)

Definition evolves (es es' : list entry) : Prop := map header es `prefix_of` map header es'.

#[export] Instance evolves_preorder : PreOrder evolves.
Proof.
  split.
  - intros es. unfold evolves. reflexivity.
  - intros a b c. unfold evolves. apply transitivity.
Qed.

Lemma map_header f es : (forall e, header (f e) = header e) -> map header (map f es) = map header es.
Proof. intros H. rewrite map_map. by apply map_ext. Qed.

Lemma set_entry_header kind identity f es :
  (forall e, header (f e) = header e) -> map header (set_entry kind identity f es) = map header es.
Proof. intros H. apply map_header. intros e. by destruct (has_identity _ _ e). Qed.

Lemma keys_header es es' : map header es = map header es' -> map key_of es = map key_of es'.
Proof.
  intros H. apply (f_equal (map (fun h : string * string * string * string * string => (h.1.1.1.1, h.1.1.2)))) in H.
  rewrite !map_map in H. exact H.
Qed.

Lemma digest_header es :
  (forall e, e ∈ es -> e.(e_digest) = _identity e.(e_kind) e.(e_identity)) <->
  (forall h, h ∈ map header es -> h.1.1.2 = _identity h.1.1.1.1 h.1.1.1.2).
Proof.
  split.
  - intros H h (e & -> & He)%list_elem_of_fmap. by apply H.
  - intros H e He. apply (H (header e)). apply list_elem_of_fmap. by exists e.
Qed.

Lemma same_headers_ok es es' : map header es' = map header es -> entries_ok es -> entries_ok es'.
Proof.
  intros H [Hk Hd]. split; [by rewrite (keys_header es' es)|]. apply digest_header. rewrite H. by apply digest_header.
Qed.

Lemma append_ok es kind identity project repository now data :
  (forall e, e ∈ es -> key_of e <> (kind, _identity kind identity)) -> entries_ok es ->
  entries_ok (es ++ [new_entry kind identity project repository now data]).
Proof.
  intros Hn [Hk Hd]. split.
  - rewrite map_app. apply NoDup_snoc; [done|]. intros (e & Heq & He)%list_elem_of_fmap. by apply (Hn e).
  - intros e [He| ->%list_elem_of_singleton]%elem_of_app; [by apply Hd|done].
Qed.

Lemma evolves_headers es es' : map header es' = map header es -> evolves es es'.
Proof. intros H. unfold evolves. by rewrite H. Qed.

Lemma evolves_app es es' l : evolves es es' -> evolves es (es' ++ l).
Proof. unfold evolves. intros H. rewrite map_app. by apply prefix_app_r. Qed.

(** [es'] is what a write may leave after [es]. *)
Record next_entries (es es' : list entry) : Prop := {
  ne_ok : entries_ok es';
  ne_evolves : evolves es es';
  ne_length : (length es' <= _MAX_RECORDS)%nat;
  ne_timed : Forall timed es'
}.

(** A method of the store that keeps the invariant. *)
Definition safe_method {A} (fn : list entry -> result (A * list entry * bool)) : Prop :=
  forall es a es', entries_ok es -> (length es <= _MAX_RECORDS)%nat -> Forall timed es ->
    fn es = Ok (a, es', true) -> next_entries es es'.

Lemma mutate_next {A} (fn : list entry -> result (A * list entry * bool)) f r f' es :
  safe_method fn -> _read f = Ok es -> entries_ok es -> _mutate float_repr fn f = (r, f') ->
  exists es', _read f' = Ok es' /\ entries_ok es' /\ evolves es es' /\
    (f' = f \/ exists a, r = Ok a /\ fn es = Ok (a, es', true)).
Proof.
  intros Hfn Hr Hok H. destruct (read_bounds _ _ Hr) as [Hl Ht].
  destruct (mutate_cases _ _ _ _ _ H) as [[-> _]|(es0 & a & es' & file & Hr0 & Hf & Hw & -> & ->)].
  - exists es. split; [done|]. split; [done|]. split; [reflexivity|by left].
  - rewrite Hr in Hr0. apply Ok_inj in Hr0 as <-. destruct (Hfn es a es' Hok Hl Ht Hf) as [H1 H2 H3 H4].
    exists es'. split; [by eapply read_written|]. split; [done|]. split; [done|]. right. by exists a.
Qed.

Lemma set_entry_timed kind identity f es :
  (forall e, timed e -> timed (f e)) -> Forall timed es -> Forall timed (set_entry kind identity f es).
Proof.
  intros Hf H. apply List.Forall_map. eapply Forall_impl; [exact H|]. intros e He.
  destruct (has_identity _ _ e); [by apply Hf|done].
Qed.

Lemma with_data_timed data now e : is_number now = true -> timed e -> timed (with_data data now e).
Proof. intros Hn [Hc _]. by split. Qed.

Lemma new_entry_timed kind identity project repository now data :
  is_number now = true -> timed (new_entry kind identity project repository now data).
Proof. by split. Qed.

(** Rewriting the data of one entry. *)
Lemma set_entry_next es kind identity data now :
  is_number now = true -> entries_ok es -> (length es <= _MAX_RECORDS)%nat -> Forall timed es ->
  next_entries es (set_entry kind identity (with_data data now) es).
Proof.
  intros Hn Hok Hl Ht.
  assert (map header (set_entry kind identity (with_data data now) es) = map header es) as Hh
    by by apply set_entry_header.
  split.
  - by eapply same_headers_ok.
  - by apply evolves_headers.
  - unfold Journal.set_entry. by rewrite length_map.
  - apply set_entry_timed; [|done]. intros e. by apply with_data_timed.
Qed.

Lemma append_next es kind identity project repository now data :
  is_number now = true -> (forall e, e ∈ es -> key_of e <> (kind, _identity kind identity)) ->
  entries_ok es -> (S (length es) <= _MAX_RECORDS)%nat -> Forall timed es ->
  next_entries es (es ++ [new_entry kind identity project repository now data]).
Proof.
  intros Hn Hf Hok Hl Ht. split.
  - by apply append_ok.
  - apply evolves_app. reflexivity.
  - rewrite length_app. cbn. lia.
  - apply Forall_app. split; [done|]. constructor; [by apply new_entry_timed|constructor].
Qed.

Lemma next_entries_trans a b c : next_entries a b -> next_entries b c -> next_entries a c.
Proof. intros [_ H1 _ _] [H2 H3 H4 H5]. split; [done|by etransitivity|done|done]. Qed.

(** ** Calls *)

Inductive call :=
  | CCreate (kind project repository : string) (data : pydict) (identity : option string) (token : string)
  | CUpdate (kind opaque project repository : string) (changes : pydict)
  | CAtomic (kind opaque project repository : string) (fn : pydict -> result (pydict * bool))
  | CWorkflow (project repository : string) (requested : pydict) (token : string)
  | CReview (project repository : string) (candidate : pydict) (token : string).

Definition run_call (now : pyval) (c : call) (f : option file) : option file :=
  match c with
  | CCreate k p r data i token => (create float_repr sha256 self k p r data i token now f).2
  | CUpdate k i p r changes => (update float_repr sha256 self k i p r changes now f).2
  | CAtomic k i p r fn => (atomic_update float_repr sha256 self k i p r fn now f).2
  | CWorkflow p r requested token => (reserve_workflow float_repr sha256 self p r requested token now f).2
  | CReview p r candidate token => (reserve_review float_repr sha256 self p r candidate token now f).2
  end.

(** A drawn token names no workflow yet: 256 random bits. *)
Definition unused (token : string) (es : list entry) : Prop :=
  forall e, e ∈ es -> key_of e <> ("workflow", _identity "workflow" token).

Definition fresh_call (c : call) (es : list entry) : Prop :=
  match c with CWorkflow _ _ _ token | CReview _ _ _ token => unused token es | _ => True end.

Definition step (f f' : option file) : Prop :=
  exists now c, is_number now = true /\ (forall es, _read f = Ok es -> fresh_call c es) /\ f' = run_call now c f.

Inductive reachable : option file -> Prop :=
  | reachable_absent : reachable None
  | reachable_step f f' : reachable f -> step f f' -> reachable f'.

(** Each method under the invariant. *)

Lemma create_safe kind opaque project repository now data :
  is_number now = true ->
  safe_method (fun es =>
    _ ← raise_if (_MAX_RECORDS <=? length es)%nat (WorkflowError "workflow_store_full");
    _ ← raise_if (existsb (fun e => String.eqb e.(e_digest) (_identity kind opaque)) es)
          (WorkflowError "workflow_store_identity_conflict");
    Ok (opaque, es ++ [new_entry kind opaque project repository now data], true)).
Proof.
  intros Hn es a es' Hok Hl Ht H. inv_res. apply Nat.leb_gt in Ha. rewrite existsb_false_forall in Ha0.
  simplify_eq. apply append_next; try done. intros e He Hk. injection Hk as _ Hd.
  specialize (Ha0 e He). cbn in Ha0. by rewrite Hd, String.eqb_refl in Ha0.
Qed.

Lemma update_safe kind opaque project repository changes now :
  is_number now = true ->
  safe_method (fun es =>
    o ← _find es kind opaque project repository;
    e ← found o;
    let data := dict_update e.(e_data) changes in
    Ok (data, set_entry kind opaque (with_data data now) es, true)).
Proof. intros Hn es a es' Hok Hl Ht H. inv_res. cbv zeta in H. simplify_eq. by apply set_entry_next. Qed.

Lemma atomic_safe kind opaque project repository fn now :
  is_number now = true ->
  safe_method (fun es =>
    o ← _find es kind opaque project repository;
    e ← found o;
    '(data, changed) ← fn e.(e_data);
    Ok (data, set_entry kind opaque (with_data data now) es, changed)).
Proof.
  intros Hn es a es' Hok Hl Ht H. inv_res. destruct a2 as [data changed]. cbv beta iota in H. simplify_eq. by apply set_entry_next.
Qed.

(** The callback of [reserve_workflow], for a bounded request. *)
Definition reserve_fn (project repository : string) (request : pydict) (token : string) (now : pyval)
    (es : list entry) : result (string * pydict * bool * list entry * bool) :=
  let pointers := List.filter (has_identity "workflow_current" (pointer_digest sha256 self project repository)) es in
  resumed ← match pointers with
            | [] => Ok None
            | [p] => resumable sha256 self es project repository request p
            | _ => Err (WorkflowError "workflow_store_duplicate_current")
            end;
  match resumed with
  | Some (handle, record) => Ok ((handle, record, false), es, false)
  | None =>
      _ ← raise_if (_MAX_RECORDS <=? length es + match pointers with [] => 1 | _ => 0 end)%nat
            (WorkflowError "workflow_store_full");
      let data := selecting_record project repository request now in
      let es1 := es ++ [new_entry "workflow" token project repository now data] in
      let pointer := [("workflow_handle", PStr token)] in
      let es2 := match pointers with
                 | [] => es1 ++ [new_entry "workflow_current" (pointer_identity sha256 project repository)
                                   project repository now pointer]
                 | _ => set_entry "workflow_current" (pointer_identity sha256 project repository)
                          (with_data pointer now) es1
                 end in
      Ok ((token, data, true), es2, true)
  end.

Lemma reserve_workflow_eq project repository requested token now f :
  reserve_workflow float_repr sha256 self project repository requested token now f =
  match _bounded_mapping float_repr requested "workflow_request" 4096 with
  | Err x => (Err x, f)
  | Ok request => _mutate float_repr (reserve_fn project repository request token now) f
  end.
Proof. done. Qed.

(** A reservation that writes: the new workflow, and the pointer added or moved to it. *)
Lemma reserve_fn_new project repository request token now es a es' :
  reserve_fn project repository request token now es = Ok (a, es', true) ->
  a = (token, selecting_record project repository request now, true) /\
  let es1 := es ++ [new_entry "workflow" token project repository now (selecting_record project repository request now)] in
  let pointer := [("workflow_handle", PStr token)] in
  (List.filter (has_identity "workflow_current" (pointer_digest sha256 self project repository)) es = [] /\
   (length es + 1 < _MAX_RECORDS)%nat /\
   es' = es1 ++ [new_entry "workflow_current" (pointer_identity sha256 project repository) project repository now pointer]) \/
  (exists p, List.filter (has_identity "workflow_current" (pointer_digest sha256 self project repository)) es = [p] /\
   in_scope project repository p = true /\ (length es < _MAX_RECORDS)%nat /\
   es' = set_entry "workflow_current" (pointer_identity sha256 project repository) (with_data pointer now) es1).
Proof.
  unfold reserve_fn. intros H. apply result_bind_ok in H as (resumed & Hr & H).
  destruct resumed as [[handle record]|]; [simplify_eq|]. inv_res. apply Nat.leb_gt in Ha.
  destruct (List.filter _ es) as [|p [|q l]] eqn:Hf; [| |discriminate Hr]; simplify_eq; (split; [done|]).
  - left. done.
  - right. exists p. split; [done|]. unfold resumable in Hr. apply result_bind_ok in Hr as (? & Hs & _).
    apply raise_if_ok, negb_false_iff in Hs. split; [done|]. split; [lia|done].
Qed.

Lemma reserve_safe project repository request token now :
  is_number now = true ->
  forall es a es', unused token es -> entries_ok es -> (length es <= _MAX_RECORDS)%nat -> Forall timed es ->
    reserve_fn project repository request token now es = Ok (a, es', true) -> next_entries es es'.
Proof.
  intros Hn es a es' Hu Hok Hl Ht H.
  apply reserve_fn_new in H as [-> [(Hf & Hlen & ->)|(p & _ & _ & Hlen & ->)]].
  - eapply next_entries_trans; [apply (append_next es "workflow" token); try done; lia|].
    destruct (append_next es "workflow" token project repository now (selecting_record project repository request now))
      as [H1 _ H3 H4]; [done|done|done|lia|done|].
    apply append_next; [done| |done| |done].
    + intros e [He| ->%list_elem_of_singleton]%elem_of_app Hk; [|discriminate Hk].
      destruct (filter_identity_cases es "workflow_current" (pointer_digest sha256 self project repository) Hok)
        as [[_ Hno]|(e' & _ & _ & Hf')]; [by apply (Hno e)|]. by rewrite Hf in Hf'.
    + rewrite length_app. cbn. lia.
  - eapply next_entries_trans; [apply (append_next es "workflow" token); try done; lia|].
    destruct (append_next es "workflow" token project repository now (selecting_record project repository request now))
      as [H1 _ H3 H4]; [done|done|done|lia|done|]. by apply set_entry_next.
Qed.

Lemma review_safe project repository candidate_id data token now :
  is_number now = true ->
  forall es a es', unused token es -> entries_ok es -> (length es <= _MAX_RECORDS)%nat -> Forall timed es ->
    (existing ← pending_reviews project repository candidate_id es;
     match existing with
     | [e] => Ok ((e.(e_identity), e.(e_data), false), es, false)
     | _ :: _ :: _ => Err (WorkflowError "workflow_store_duplicate_review")
     | [] =>
         _ ← raise_if (_MAX_RECORDS <=? length es)%nat (WorkflowError "workflow_store_full");
         let data := review_record project repository data now in
         Ok ((token, data, true), es ++ [new_entry "workflow" token project repository now data], true)
     end) = Ok (a, es', true) -> next_entries es es'.
Proof.
  intros Hn es a es' Hu Hok Hl Ht H. inv_res. destruct a0 as [|e [|]]; [|by simplify_eq|discriminate].
  apply result_bind_ok in H as (u & Hlen & H). apply raise_if_ok, Nat.leb_gt in Hlen.
  cbv zeta in H. simplify_eq. by apply append_next.
Qed.

(** One call of any kind. *)
Lemma call_next f f' es :
  step f f' -> _read f = Ok es -> entries_ok es ->
  exists es', _read f' = Ok es' /\ entries_ok es' /\ evolves es es'.
Proof.
  intros (now & c & Hn & Hfresh & ->) Hr Hok. specialize (Hfresh es Hr).
  assert (forall A (fn : list entry -> result (A * list entry * bool)),
    (forall es a es', fresh_call c es -> entries_ok es -> (length es <= _MAX_RECORDS)%nat -> Forall timed es ->
       fn es = Ok (a, es', true) -> next_entries es es') ->
    exists es', _read (_mutate float_repr fn f).2 = Ok es' /\ entries_ok es' /\ evolves es es') as Hm.
  { intros A fn Hfn. destruct (read_bounds _ _ Hr) as [Hl Ht].
    destruct (_mutate float_repr fn f) as [r f'] eqn:H. cbn.
    destruct (mutate_cases _ _ _ _ _ H) as [[-> _]|(es0 & a & es' & file & Hr0 & Hf & Hw & -> & ->)].
    - by exists es.
    - rewrite Hr in Hr0. apply Ok_inj in Hr0 as <-. destruct (Hfn es a es' Hfresh Hok Hl Ht Hf) as [H1 H2 H3 H4].
      exists es'. split; [by eapply read_written|done]. }
  assert (exists es', _read f = Ok es' /\ entries_ok es' /\ evolves es es') as Hsame by by exists es.
  destruct c; cbn [run_call].
  - unfold create. destruct (_bounded_mapping _ _ _ _); [|done]. apply Hm. intros ? ? ? _. by apply create_safe.
  - unfold update. destruct (_bounded_mapping _ _ _ _); [|done]. apply Hm. intros ? ? ? _. by apply update_safe.
  - unfold atomic_update. apply Hm. intros ? ? ? _. by apply atomic_safe.
  - rewrite reserve_workflow_eq. destruct (_bounded_mapping _ _ _ _); [|done]. apply Hm. by apply reserve_safe.
  - unfold reserve_review. destruct (_ ≫= _) as [[data id]|]; [|done]. apply Hm. by apply review_safe.
Qed.

Lemma absent_ok : journal_ok None.
Proof. exists []. split; [done|]. split; [constructor|]. intros e He. by apply not_elem_of_nil in He. Qed.

(** C32: A reachable journal can always be read back: whatever calls wrote it, its file passes the
    checks of [_read], holds at most 4096 entries, each under its own kind and digest, and each digest
    is that of its identity for this actor. *)
Theorem reachable_journal_ok f :
  reachable f -> exists es, _read f = Ok es /\ entries_ok es /\ (length es <= _MAX_RECORDS)%nat.
Proof.
  intros H. assert (journal_ok f) as (es & Hr & Hok).
  { induction H as [|f f' _ (es & Hr & Hok) Hs]; [apply absent_ok|].
    destruct (call_next f f' es Hs Hr Hok) as (es' & Hr' & Hok' & _). by exists es'. }
  exists es. split; [done|]. split; [done|]. by apply read_bounds in Hr as [? _].
Qed.

(** ** Handles *)

(** A handle resolves to the scope of its entry. *)
Lemma get_any_scope_spec kind opaque f es p r d :
  _read f = Ok es -> entries_ok es ->
  get_any_scope sha256 self kind (PStr opaque) f = Ok (p, r, d) <->
  is_ok (_safe_component (PStr opaque) "workflow_handle" 256) = true /\
  exists e, e ∈ es /\ key_of e = (kind, _identity kind opaque) /\ (e.(e_project), e.(e_repository), e.(e_data)) = (p, r, d).
Proof.
  intros Hr Hok. unfold get_any_scope, _safe_component. destruct (raise_if _ _) as [u|x]; [|split; [done|by intros [? _]]].
  rewrite bind_Ok, bind_Ok, Hr, bind_Ok.
  destruct (filter_identity_cases es kind (_identity kind opaque) Hok) as [[Hf Hno]|(e & He & Hk & Hf)]; rewrite Hf.
  - split; [done|]. intros [_ (e & He & Hk & _)]. by destruct (Hno e).
  - split.
    + intros [= <- <- <-]. split; [done|]. by exists e.
    + intros [_ (e' & He' & Hk' & H)].
      assert (e' = e) as ->.
      { assert (e' ∈ List.filter (has_identity kind (_identity kind opaque)) es) as Hin.
        { apply list_elem_of_In, List.filter_In. split; [by apply list_elem_of_In|by apply has_identity_spec]. }
        rewrite Hf in Hin. by apply list_elem_of_singleton in Hin. }
      by simplify_eq.
Qed.

(** A handle keeps its scope.  Once an opaque handle resolves to a project and repository, it resolves
    to the same ones after any further calls, whatever they do to its data. *)
Theorem handle_scope_permanent f f' kind opaque p r d :
  journal_ok f -> rtc step f f' ->
  get_any_scope sha256 self kind (PStr opaque) f = Ok (p, r, d) ->
  exists d', get_any_scope sha256 self kind (PStr opaque) f' = Ok (p, r, d').
Proof.
  intros (es & Hr & Hok) Hs H.
  assert (exists es', _read f' = Ok es' /\ entries_ok es' /\ evolves es es') as (es' & Hr' & Hok' & Hev).
  { clear H. revert es Hr Hok. induction Hs as [f|f f1 f2 H1 _ IH]; intros es Hr Hok; [by exists es|].
    destruct (call_next f f1 es H1 Hr Hok) as (es1 & Hr1 & Hok1 & Hev1).
    destruct (IH es1 Hr1 Hok1) as (es2 & Hr2 & Hok2 & Hev2). exists es2. split; [done|]. split; [done|].
    by etransitivity. }
  apply (get_any_scope_spec kind opaque f es p r d Hr Hok) in H as (Hsafe & e & He & Hk & [= <- <- <-]).
  assert (header e ∈ map header es') as (e' & Heq & He')%list_elem_of_fmap.
  { destruct Hev as [l ->]. apply elem_of_app. left. apply list_elem_of_fmap. by exists e. }
  injection Heq as H1 H2 H3 H4 H5. exists e'.(e_data).
  apply (get_any_scope_spec kind opaque f' es' _ _ _ Hr' Hok'). split; [done|]. exists e'. split; [done|].
  unfold key_of in *. rewrite <-H1, <-H3, H4, H5. done.
Qed.

End Actor.
