(* ===== verification/PhaseProps.v ===== *)
(** * The compact workflow: reservation, phases and previews

    One authoring workflow per scope, what a phase intent is journalled as and how it is
    read again (Session says what later operations do to it), and previews completed once. *)

From Stdlib Require Import ZArith SpecFloat.
From stdpp Require Import relations.
From S2P Require Import Prelude PyValue Text Json Journal JournalProps Phases.
Import Journal Phases.

#[local] Open Scope string_scope.
#[local] Open Scope Z_scope.
#[local] Open Scope list_scope.

Section Actor.
Context (float_repr : spec_float -> string) (sha256 : string -> string) (self : actor).
#[local] Abbreviation _identity := (_identity sha256 self).
#[local] Abbreviation entries_ok := (entries_ok sha256 self).
#[local] Abbreviation journal_ok := (journal_ok sha256 self).
#[local] Abbreviation new_entry := (new_entry sha256 self).
#[local] Abbreviation set_entry := (set_entry sha256 self).
#[local] Abbreviation reserve_workflow := (reserve_workflow float_repr sha256 self).
#[local] Abbreviation reserve_fn := (reserve_fn sha256 self).

(** ** Reservation *)

Lemma resumable_other es project repository request request' p handle record :
  resumable sha256 self es project repository request p = Ok (Some (handle, record)) ->
  resumable sha256 self es project repository request' p =
    if already_active request' record then Err (WorkflowError "workflow_task_already_active")
    else Ok (Some (handle, record)).
Proof.
  unfold resumable. intros H. apply result_bind_ok in H as (u & -> & H). rewrite bind_Ok.
  destruct (pointed_rows sha256 self es p) as [|e [|]]; [discriminate| |discriminate].
  destruct (in_scope project repository e); [|discriminate]. apply result_bind_ok in H as (active & -> & H).
  rewrite bind_Ok. destruct active; [|discriminate]. inv_res. simplify_eq. by case_match.
Qed.

Lemma set_entry_other kind identity f es e :
  e ∈ es -> key_of e <> (kind, _identity kind identity) -> e ∈ set_entry kind identity f es.
Proof.
  intros He Hk. apply list_elem_of_fmap. exists e. split; [|done].
  destruct (has_identity _ _ e) eqn:H; [|done]. by apply has_identity_spec in H.
Qed.

Lemma set_entry_hit kind identity f es e :
  e ∈ es -> key_of e = (kind, _identity kind identity) -> f e ∈ set_entry kind identity f es.
Proof.
  intros He Hk. apply list_elem_of_fmap. exists e. split; [|done].
  by rewrite (proj2 (has_identity_spec _ _ e) Hk).
Qed.

(** The entries after a reservation point at the reserved workflow. *)
Lemma reserved_resumable project repository request request' token now es es' :
  entries_ok es' ->
  reserve_fn project repository request token now es =
    Ok ((token, selecting_record project repository request now, true), es', true) ->
  exists p, List.filter (has_identity "workflow_current" (pointer_digest sha256 self project repository)) es' = [p] /\
    resumable sha256 self es' project repository request' p =
      if already_active request' (selecting_record project repository request now)
      then Err (WorkflowError "workflow_task_already_active")
      else Ok (Some (token, selecting_record project repository request now)).
Proof.
  intros Hok H. apply reserve_fn_new in H as [_ H].
  set (e := new_entry "workflow" token project repository now (selecting_record project repository request now)) in *.
  assert (e ∈ es' /\ exists p, p ∈ es' /\ key_of p = ("workflow_current", pointer_digest sha256 self project repository) /\
            in_scope project repository p = true /\ p.(e_data) = [("workflow_handle", PStr token)])
    as (He & p & Hp & Hk & Hs & Hd).
  { destruct H as [(_ & _ & ->)|(p & Hf & Hs & _ & ->)].
    - split; [apply elem_of_app; left; apply elem_of_app; right; left|].
      eexists. split; [apply elem_of_app; right; left|]. split; [done|]. unfold in_scope. cbn. by rewrite !String.eqb_refl.
    - split; [apply set_entry_other; [apply elem_of_app; right; left|done]|].
      assert (p ∈ [p]) as Hin by left. rewrite <-Hf in Hin.
      apply list_elem_of_In, List.filter_In in Hin as [Hin Hk%has_identity_spec]. apply list_elem_of_In in Hin.
      exists (with_data [("workflow_handle", PStr token)] now p). split; [|done].
      apply set_entry_hit; [apply elem_of_app; by left|done]. }
  exists p. pose proof Hk as Hk'. injection Hk' as Hk1 Hk2. pose proof (filter_identity sha256 self es' p Hok Hp) as Hf.
  rewrite Hk1, Hk2 in Hf. split; [exact Hf|]. unfold resumable. rewrite Hs. cbn [negb raise_if]. rewrite bind_Ok.
  unfold pointed_rows, pointed_handle. rewrite Hd. change (dict_get "workflow_handle" _) with (Some (PStr token)). cbv iota.
  pose proof (filter_identity sha256 self es' e Hok He) as Hfe. change (e_kind e) with "workflow" in Hfe.
  change (e_digest e) with (_identity "workflow" token) in Hfe. rewrite Hfe.
  assert (in_scope project repository e = true) as -> by (unfold in_scope; cbn; by rewrite !String.eqb_refl).
  change (phase_in active_phases (e_data e)) with (@Ok bool (bool_decide ("selecting" ∈ active_phases))).
  rewrite bind_Ok, bool_decide_eq_true_2 by compute_decide.
  change (e_data e) with (selecting_record project repository request now). by destruct (already_active _ _).
Qed.

(** One authoring workflow per scope.  After a caller reserved or resumed a workflow, the next caller in
    that scope gets the very same handle and record, or is refused because another task is active when it asks
    for something else; in no case is a second workflow created, and the journal is not written. *)
Theorem reserve_workflow_exclusive project repository requested requested' token token' now now' f f1 h record b :
  journal_ok f -> is_number now = true -> (forall es, _read f = Ok es -> unused sha256 self token es) ->
  reserve_workflow project repository requested token now f = (Ok (h, record, b), f1) ->
  _bounded_mapping float_repr requested' "workflow_request" 4096 = Ok requested' ->
  reserve_workflow project repository requested' token' now' f1 =
    (if already_active requested' record then Err (WorkflowError "workflow_task_already_active")
     else Ok (h, record, false), f1).
Proof.
  intros (es & Hr & Hok) Hn Hu H Hb. rewrite reserve_workflow_eq in *. rewrite Hb.
  destruct (_bounded_mapping _ requested _ _) as [request|]; [|discriminate]. destruct (read_bounds _ _ Hr) as [Hl Ht].
  assert (exists es1 p, _read f1 = Ok es1 /\
    List.filter (has_identity "workflow_current" (pointer_digest sha256 self project repository)) es1 = [p] /\
    resumable sha256 self es1 project repository requested' p =
      if already_active requested' record then Err (WorkflowError "workflow_task_already_active")
      else Ok (Some (h, record))) as (es1 & p & Hr1 & Hp & Hres).
  { destruct (mutate_cases _ _ _ _ _ H) as [[-> Hread]|(es0 & a & es1 & file & Hr0 & Hf & Hw & [= <-] & ->)].
    - destruct (Hread _ eq_refl) as (es0 & es1 & Hr0 & Hf). rewrite Hr in Hr0. apply Ok_inj in Hr0 as <-.
      unfold JournalProps.reserve_fn in Hf. apply result_bind_ok in Hf as (resumed & Hres & Hf).
      destruct resumed as [[h' record']|]; [|inv_res; discriminate]. simplify_eq. exists es1.
      destruct (List.filter _ es1) as [|p [|]]; [discriminate| |discriminate]. exists p. split; [done|]. split; [done|].
      by eapply resumable_other.
    - rewrite Hr in Hr0. apply Ok_inj in Hr0 as <-.
      destruct (reserve_safe sha256 self _ _ _ _ _ Hn _ _ _ (Hu _ Hr) Hok Hl Ht Hf) as [Hok1 _ Hl1 Ht1].
      pose proof (proj1 (reserve_fn_new _ _ _ _ _ _ _ _ _ _ Hf)) as Heq. rewrite Heq in Hf. simplify_eq.
      destruct (reserved_resumable project repository request requested' token now es es1 Hok1 Hf) as (p & Hp & Hres).
      exists es1, p. split; [by eapply read_written|done]. }
  unfold _mutate. rewrite Hr1, bind_Ok. unfold JournalProps.reserve_fn. rewrite Hp, Hres.
  by destruct (already_active _ _).
Qed.

(** ** What the journal holds under a handle *)

Definition holds (f : option file) (kind handle project repository : string) (d : pydict) : Prop :=
  exists es e, _read f = Ok es /\ entries_ok es /\ e ∈ es /\ key_of e = (kind, _identity kind handle) /\
    in_scope project repository e = true /\ e.(e_data) = d.

Lemma holds_ok f kind handle project repository d : holds f kind handle project repository d -> journal_ok f.
Proof. intros (es & e & Hr & Hok & _). by exists es. Qed.

Lemma get_holds f kind handle project repository d :
  journal_ok f -> get sha256 self kind (PStr handle) project repository f = Ok d ->
  holds f kind handle project repository d /\ is_ok (_safe_component (PStr handle) "workflow_handle" 256) = true.
Proof.
  intros (es & Hr & Hok) H. unfold get in H. destruct (_safe_component _ _ _) as [h|] eqn:Hs; [|discriminate].
  assert (h = handle) as -> by (unfold _safe_component in Hs; by inv_res).
  rewrite bind_Ok, Hr, bind_Ok in H. apply result_bind_ok in H as (o & Hf & H).
  pose proof (find_spec sha256 self es kind handle project repository o Hok Hf) as Hspec.
  destruct o as [e|]; [|discriminate]. cbn [found] in H. rewrite bind_Ok in H. apply Ok_inj in H as <-. destruct Hspec as (He & Hk & Hsc).
  split; [|done]. by exists es, e.
Qed.

Lemma holds_get f kind handle project repository d :
  holds f kind handle project repository d -> is_ok (_safe_component (PStr handle) "workflow_handle" 256) = true ->
  get sha256 self kind (PStr handle) project repository f = Ok d.
Proof.
  intros (es & e & Hr & Hok & He & Hk & Hsc & <-) Hs. unfold get.
  destruct (_safe_component _ _ _) as [h|] eqn:Heq; [|discriminate].
  assert (h = handle) as -> by (unfold _safe_component in Heq; by inv_res).
  rewrite bind_Ok, Hr, bind_Ok, (find_entry sha256 self es kind handle project repository e) by done. done.
Qed.

Lemma set_entry_holds es kind handle project repository now d data e :
  entries_ok es -> e ∈ es -> key_of e = (kind, _identity kind handle) -> in_scope project repository e = true ->
  d = data -> exists e', e' ∈ set_entry kind handle (with_data data now) es /\
    key_of e' = (kind, _identity kind handle) /\ in_scope project repository e' = true /\ e'.(e_data) = d.
Proof.
  intros Hok He Hk Hs ->. exists (with_data data now e). split; [by apply set_entry_hit|]. done.
Qed.

(** An atomic update that answers: the callback ran on what the journal holds. *)
Lemma atomic_update_ok kind handle project repository fn now f data f' :
  is_number now = true -> journal_ok f ->
  atomic_update float_repr sha256 self kind handle project repository fn now f = (Ok data, f') ->
  exists d changed, holds f kind handle project repository d /\ fn d = Ok (data, changed) /\
    if changed : bool then holds f' kind handle project repository data else f' = f.
Proof.
  intros Hn (es & Hr & Hok) H. unfold atomic_update in H.
  destruct (mutate_next float_repr sha256 self _ _ _ _ _ (atomic_safe sha256 self _ _ _ _ _ _ Hn) Hr Hok H)
    as (es' & Hr' & Hok' & _ & _).
  assert (exists es1 changed, (o ← _find sha256 self es kind handle project repository; e ← found o;
     '(data, changed) ← fn e.(e_data);
     Ok (data, set_entry kind handle (with_data data now) es, changed)) = Ok (data, es1, changed) /\
     if changed : bool then es' = es1 else f' = f) as (es1 & changed & Hf & Hc).
  { destruct (mutate_cases _ _ _ _ _ H) as [[-> Hread]|(es0 & a & es1 & file & Hr0 & Hf & Hw & [= <-] & ->)].
    - destruct (Hread _ eq_refl) as (es0 & es1 & Hr0 & Hf). rewrite Hr in Hr0. apply Ok_inj in Hr0 as <-.
      by exists es1, false.
    - rewrite Hr in Hr0. apply Ok_inj in Hr0 as <-. exists es1, true. split; [done|].
      destruct (read_bounds _ _ Hr) as [Hl Ht]. destruct (atomic_safe sha256 self _ _ _ _ _ _ Hn _ _ _ Hok Hl Ht Hf).
      pose proof (read_written float_repr es1 file ne_length ne_timed Hw) as Hr1. rewrite Hr' in Hr1. by apply Ok_inj. }
  clear H. apply result_bind_ok in Hf as (o & Hfind & Hf).
  pose proof (find_spec sha256 self es kind handle project repository o Hok Hfind) as Hspec.
  destruct o as [e|]; [|discriminate]. cbn [found] in Hf. rewrite bind_Ok in Hf. apply result_bind_ok in Hf as ([data' c] & Hfn & Hf).
  cbv beta iota in Hf. simplify_eq. destruct Hspec as (He & Hk & Hsc).
  exists (e_data e), changed. split; [by exists es, e|]. split; [done|]. destruct changed; [|done]. subst es'.
  destruct (set_entry_holds es kind handle project repository now data data e) as (e' & ? & ? & ? & ?); try done.
  by exists (set_entry kind handle (with_data data now) es), e'.
Qed.

(** ** What later calls may do to it *)

(** The calls that relate the data of an entry before and after by [R]. *)
Definition call_rel (R : pydict -> pydict -> Prop) (kind handle : string) (c : call) : Prop :=
  match c with
  | CUpdate k h _ _ changes => (k, _identity k h) = (kind, _identity kind handle) -> forall d, R d (dict_update d changes)
  | CAtomic k h _ _ fn => (k, _identity k h) = (kind, _identity kind handle) ->
      forall d d', fn d = Ok (d', true) -> R d d'
  | _ => True
  end.

Definition step_rel (R : pydict -> pydict -> Prop) (kind handle : string) (f f' : option file) : Prop :=
  exists now c, is_number now = true /\ (forall es, _read f = Ok es -> fresh_call sha256 self c es) /\
    call_rel R kind handle c /\ f' = run_call float_repr sha256 self now c f.

Section Relation.
Context (R : pydict -> pydict -> Prop) `{!PreOrder R} (kind handle : string).

(** The entry under [kind] and [handle] survives, with data related by [R]. *)
Definition keeps_entry (es es' : list entry) : Prop :=
  forall e, e ∈ es -> key_of e = (kind, _identity kind handle) ->
    exists e', e' ∈ es' /\ header e' = header e /\ R e.(e_data) e'.(e_data).

Lemma keeps_same es : keeps_entry es es.
Proof using PreOrder0. intros e He _. exists e. split; [done|]. split; [done|reflexivity]. Qed.

Lemma keeps_app es es' l : keeps_entry es es' -> keeps_entry es (es' ++ l).
Proof. intros H e He Hk. destruct (H e He Hk) as (e' & ? & ?). exists e'. split; [apply elem_of_app; by left|done]. Qed.

Lemma keeps_set_entry k h data now es es' :
  ((k, _identity k h) = (kind, _identity kind handle) ->
     forall e, e ∈ es' -> key_of e = (kind, _identity kind handle) -> R e.(e_data) data) ->
  keeps_entry es es' -> keeps_entry es (set_entry k h (with_data data now) es').
Proof using PreOrder0.
  intros Hd H e He Hk. destruct (H e He Hk) as (e' & He' & Hh & HR).
  assert (key_of e' = (kind, _identity kind handle)) as Hk' by (rewrite <-Hk; unfold key_of; by injection Hh as -> _ -> _ _).
  destruct (decide ((k, _identity k h) = (kind, _identity kind handle))) as [Heq|Hne].
  - exists (with_data data now e'). split; [by apply set_entry_hit; rewrite ?Heq|]. split; [done|].
    cbn. etransitivity; [exact HR|]. by apply (Hd Heq e').
  - exists e'. split; [|done]. apply set_entry_other; [done|]. by rewrite Hk'.
Qed.

Lemma find_unique es k h p r e e' :
  entries_ok es -> _find sha256 self es k h p r = Ok (Some e) ->
  e' ∈ es -> key_of e' = (k, _identity k h) -> e' = e.
Proof.
  intros Hok Hf He' Hk'. destruct (find_spec sha256 self es k h p r _ Hok Hf) as (He & Hk & _).
  pose proof (filter_identity sha256 self es e Hok He) as H1. pose proof (filter_identity sha256 self es e' Hok He') as H2.
  injection Hk as Hk1 Hk2. injection Hk' as Hk1' Hk2'. rewrite Hk1, Hk2 in H1. rewrite Hk1', Hk2' in H2. congruence.
Qed.

Lemma reserve_keeps project repository request token now es a es' :
  kind <> "workflow_current" -> reserve_fn project repository request token now es = Ok (a, es', true) -> keeps_entry es es'.
Proof using PreOrder0.
  intros Hk H. apply reserve_fn_new in H as [_ [(_ & _ & ->)|(p & _ & _ & _ & ->)]].
  - do 2 apply keeps_app. apply keeps_same.
  - apply keeps_set_entry; [intros [= <- _]; done|]. apply keeps_app, keeps_same.
Qed.

(** One call: the entry is still there, under the same handle and scope. *)
Lemma step_holds f f' project repository d :
  kind <> "workflow_current" -> step_rel R kind handle f f' -> holds f kind handle project repository d ->
  exists d', holds f' kind handle project repository d' /\ R d d'.
Proof using PreOrder0.
  intros Hnc (now & c & Hn & Hfresh & Hc & ->) (es & e & Hr & Hok & He & Hk & Hs & <-). specialize (Hfresh es Hr).
  destruct (call_next float_repr sha256 self f (run_call float_repr sha256 self now c f) es) as (es' & Hr' & Hok' & _);
    [|done|done|].
  { exists now, c. split; [done|]. split; [|done]. intros es0 Hr0. rewrite Hr in Hr0. by apply Ok_inj in Hr0 as <-. }
  assert (keeps_entry es es') as H.
  2: { destruct (H e He Hk) as (e' & He' & Hh & HR). exists (e_data e'). split; [|done].
       exists es', e'. injection Hh as H1 H2 H3 H4 H5. unfold key_of, in_scope in *.
       split; [done|]. split; [done|]. split; [done|]. split; [congruence|]. split; [by rewrite H4, H5|done]. }
  assert (forall A (fn : list entry -> result (A * list entry * bool)),
    safe_method sha256 self fn \/ (forall es a es', fresh_call sha256 self c es -> entries_ok es -> (length es <= _MAX_RECORDS)%nat ->
       Forall timed es -> fn es = Ok (a, es', true) -> next_entries sha256 self es es') ->
    (forall a es', fn es = Ok (a, es', true) -> keeps_entry es es') ->
    _read (_mutate float_repr fn f).2 = Ok es' -> keeps_entry es es') as Hm.
  { intros A fn Hsafe Hfn Hrd. destruct (_mutate float_repr fn f) as [res f'] eqn:H. cbn in Hrd.
    destruct (mutate_cases _ _ _ _ _ H) as [[-> _]|(es0 & a & es1 & file & Hr0 & Hf & Hw & -> & ->)].
    - rewrite Hr in Hrd. apply Ok_inj in Hrd as <-. apply keeps_same.
    - rewrite Hr in Hr0. apply Ok_inj in Hr0 as <-. destruct (read_bounds _ _ Hr) as [Hl Ht].
      assert (next_entries sha256 self es es1) as [] by (destruct Hsafe as [Hsafe|Hsafe]; [by eapply Hsafe|by eapply Hsafe]).
      pose proof (read_written float_repr es1 file ne_length ne_timed Hw) as Hr1. rewrite Hrd in Hr1.
      apply Ok_inj in Hr1 as ->. by eapply Hfn. }
  assert (_read f = Ok es' -> keeps_entry es es') as Hsame.
  { intros Hrd. rewrite Hr in Hrd. apply Ok_inj in Hrd as <-. apply keeps_same. }
  destruct c; cbn [run_call] in Hr'; cbn [call_rel] in Hc.
  - unfold create in Hr'. destruct (_bounded_mapping _ _ _ _) as [m|]; [|by apply Hsame]. eapply Hm, Hr'; [left; by apply create_safe|].
    intros a es1 H. cbv beta in H. inv_res. simplify_eq. apply keeps_app, keeps_same.
  - unfold update in Hr'. destruct (_bounded_mapping _ _ _ _) as [ch|] eqn:Hb; [|by apply Hsame].
    assert (ch = changes) as -> by (unfold _bounded_mapping in Hb; destruct (_canonical _ _); inv_res; done).
    eapply Hm, Hr'; [left; by apply update_safe|].
    intros a es1 H. cbv beta in H. inv_res. cbv zeta in H. destruct a0 as [e0|]; [|discriminate]. cbn [found] in Ha0. simplify_eq.
    apply keeps_set_entry; [|apply keeps_same]. intros Heq e1 He1 Hk1. rewrite <-Heq in Hk1.
    rewrite (find_unique _ _ _ _ _ _ _ Hok Ha He1 Hk1). by apply Hc.
  - unfold atomic_update in Hr'. eapply Hm, Hr'; [left; by apply atomic_safe|].
    intros a es1 H. cbv beta in H. inv_res. destruct a0 as [e0|]; [|discriminate]. cbn [found] in Ha0. destruct a2 as [data changed]. cbv beta iota in H. simplify_eq.
    apply keeps_set_entry; [|apply keeps_same]. intros Heq e1 He1 Hk1. rewrite <-Heq in Hk1.
    rewrite (find_unique _ _ _ _ _ _ _ Hok Ha He1 Hk1). by apply Hc.
  - rewrite reserve_workflow_eq in Hr'. destruct (_bounded_mapping _ _ _ _) as [m|]; [|by apply Hsame].
    eapply Hm, Hr'; [right; by apply reserve_safe|]. intros a es1. by apply reserve_keeps.
  - unfold reserve_review in Hr'. destruct (_ ≫= _) as [[data id]|]; [|by apply Hsame].
    eapply Hm, Hr'; [right; by apply review_safe|]. intros a es1 H. cbv beta in H. inv_res.
    destruct a0 as [|? [|]]; [|by simplify_eq|discriminate]. inv_res. cbv zeta in H. simplify_eq. apply keeps_app, keeps_same.
Qed.

Lemma steps_hold f f' project repository d :
  kind <> "workflow_current" -> rtc (step_rel R kind handle) f f' -> holds f kind handle project repository d ->
  exists d', holds f' kind handle project repository d' /\ R d d'.
Proof using PreOrder0.
  intros Hk Hs. revert d. induction Hs as [f|f f1 f2 H1 _ IH]; intros d Hd.
  - exists d. split; [done|reflexivity].
  - destruct (step_holds f f1 project repository d Hk H1 Hd) as (d1 & Hd1 & HR1).
    destruct (IH d1 Hd1) as (d2 & Hd2 & HR2). exists d2. split; [done|by etransitivity].
Qed.

End Relation.

(** ** Phase intents *)

Lemma field_set_eq k v d : field k (dict_set k v d) = v.
Proof. unfold field, dict_get_default. by rewrite dict_get_set_eq. Qed.

Lemma field_set_ne k k' v d : k <> k' -> field k (dict_set k' v d) = field k d.
Proof. intros H. unfold field, dict_get_default. by rewrite dict_get_set_ne. Qed.

Lemma none_dec v : v = PNone \/ v <> PNone.
Proof. destruct v; by (left + right). Qed.

Lemma persist_read name digest key revision d d' changed intents kr :
  persist name digest key revision d = Ok (d', changed) -> intents_of d' = Ok intents ->
  read_intent digest (field name intents) = Ok kr -> changed = false -> d' = d.
Proof.
  unfold persist. intros H _ _ ->. apply result_bind_ok in H as (i & Hi & H).
  destruct (field name i); try discriminate. by inv_res; simplify_eq.
Qed.

Section Native.
Context (py_str : pyval -> string) {N : Type}
  (native : string -> string -> string -> pydict -> N -> result pyval * N).

Lemma invoke_file tool record arguments (w w' : option file * N) r :
  _invoke native tool record arguments w = (r, w') -> w'.1 = w.1.
Proof.
  unfold _invoke. destruct (field "project" record), (field "repository" record);
    try (intros [= _ <-]; done). destruct (native _ _ _ _ _) as [x n]. by intros [= _ <-].
Qed.

Lemma observe_file project repository (w w' : option file * N) r :
  observe_revision py_str native project repository w = (r, w') -> w'.1 = w.1.
Proof.
  unfold observe_revision, bind. destruct (_invoke _ _ _ _ w) as [[o|x] w1] eqn:H; apply invoke_file in H.
  - destruct (is_status _ _); by intros [= _ <-].
  - by intros [= _ <-].
Qed.

Abbreviation phase_intent := (_phase_intent float_repr sha256 py_str native self).

(** What [_phase_intent] leaves: the intent it answers with is journalled. *)
Lemma phase_intent_ok now handle project repository record name tool arguments er ik f (n : N) kr record' w' :
  is_number now = true -> journal_ok f ->
  phase_intent now handle project repository record name tool arguments er ik (f, n) = (Ok (kr, record'), w') ->
  exists digest d intents,
    _bounded_mapping float_repr (payload_of tool arguments) "native_phase_intent" (32 * 1024) = Ok (payload_of tool arguments) /\
    payload_digest float_repr sha256 (payload_of tool arguments) = Ok digest /\
    is_ok (_safe_component (PStr handle) "workflow_handle" 256) = true /\
    holds w'.1 "workflow" handle project repository d /\ intents_of d = Ok intents /\
    read_intent digest (field name intents) = Ok kr.
Proof.
  intros Hn Hok H. unfold _phase_intent, bind, lift, reading, stored in H. cbn [fst snd] in H.
  destruct (_bounded_mapping _ _ _ _) as [payload|] eqn:Hb; [|discriminate].
  assert (payload = payload_of tool arguments) as -> by (unfold _bounded_mapping in Hb; destruct (_canonical _ _); inv_res; done).
  destruct (payload_digest _ _ _) as [digest|] eqn:Hd; [|discriminate].
  destruct (get _ _ _ _ _ _ _) as [latest|] eqn:Hg; [|discriminate].
  destruct (intents_of latest) as [intents|] eqn:Hi; [|discriminate].
  destruct (get_holds _ _ _ _ _ _ Hok Hg) as [Hh Hs]. exists digest.
  destruct (none_dec (field name intents)) as [Hf|Hf].
  2: { exists latest, intents. split; [done|]. split; [done|]. split; [done|].
       destruct (field name intents); try done;
         (destruct (read_intent _ _) as [kr'|]; [|discriminate]); by injection H as <- <- <-. }
  rewrite Hf in H.
  match type of H with (match ?m with _ => _ end) = _ => destruct m as [[ex|x] w1] eqn:He end; [|discriminate].
  assert (w1.1 = f) as Hw1.
  { destruct er; try by injection He as _ <-. by apply observe_file in He. }
  destruct (checked_revision ex) as [revision|]; [|discriminate].
  destruct (phase_key _ _ _ _ _ _) as [key|]; [|discriminate]. rewrite Hw1 in H.
  destruct (atomic_update _ _ _ _ _ _ _ _ _ _) as [[current|] f1] eqn:Ha; [|discriminate].
  destruct (intents_of current) as [intents1|] eqn:Hi1; [|discriminate].
  destruct (read_intent _ _) as [kr'|] eqn:Hrd; [|discriminate]. injection H as <- <- <-.
  destruct (atomic_update_ok _ _ _ _ _ _ _ _ _ Hn Hok Ha) as (d & changed & Hd0 & Hp & Hc).
  exists current, intents1. split; [done|]. split; [done|]. split; [done|]. split; [|done]. cbn [fst].
  destruct changed; [done|]. rewrite Hc. by rewrite (persist_read _ _ _ _ _ _ _ _ _ Hp Hi1 Hrd).
Qed.

(** [_phase_intent] when the intent is journalled already. *)
Lemma phase_intent_hit now handle project repository record name tool arguments er ik f (n : N) digest d intents :
  _bounded_mapping float_repr (payload_of tool arguments) "native_phase_intent" (32 * 1024) = Ok (payload_of tool arguments) ->
  payload_digest float_repr sha256 (payload_of tool arguments) = Ok digest ->
  is_ok (_safe_component (PStr handle) "workflow_handle" 256) = true ->
  holds f "workflow" handle project repository d -> intents_of d = Ok intents -> field name intents <> PNone ->
  phase_intent now handle project repository record name tool arguments er ik (f, n) =
    (kr ← read_intent digest (field name intents); Ok (kr, dict_update record d), (f, n)).
Proof.
  intros Hb Hd Hs Hh Hi Hf. unfold _phase_intent, bind, lift, reading. cbn [fst snd].
  rewrite Hb, Hd, (holds_get _ _ _ _ _ _ Hh Hs), Hi. by destruct (field name intents), (read_intent _ _).
Qed.

Lemma read_intent_some digest v kr : read_intent digest v = Ok kr -> v <> PNone.
Proof. by intros H ->. Qed.

(** What another payload finds under the name. *)
Lemma read_intent_other digest digest' v kr :
  read_intent digest v = Ok kr -> digest' <> digest -> read_intent digest' v = Err (WorkflowError "workflow_phase_intent_conflict").
Proof.
  intros Hrd Hdd. destruct v; try discriminate. cbn in *.
  destruct (field "expected_revision" d), (field "idempotency_key" d); try discriminate.
  destruct (has_payload digest d) eqn:Hp; [|discriminate].
  replace (has_payload digest' d) with false; [done|]. symmetry. unfold has_payload in *.
  destruct (field "payload_digest" d); try discriminate. cbn in *. apply String.eqb_eq in Hp as ->.
  apply String.eqb_neq. congruence.
Qed.

End Native.

(** ** Administrator previews *)

(** Calls that leave a preview's key and its recorded result alone: all but an update of
    the preview that is not [complete]. *)
Definition keeps_result (d d' : pydict) : Prop :=
  field "result" d <> PNone ->
  field "result" d' = field "result" d /\ field "idempotency_key" d' = field "idempotency_key" d.

#[export] Instance keeps_result_preorder : PreOrder keeps_result.
Proof.
  split; [by intros d _|]. intros d1 d2 d3 H1 H2 Hd. destruct (H1 Hd) as [E1 E2].
  assert (field "result" d2 <> PNone) as Hd2 by by rewrite E1. destruct (H2 Hd2) as [-> ->]. done.
Qed.

Lemma complete_keeps key receipt d d' : complete float_repr key receipt d = Ok (d', true) -> keeps_result d d'.
Proof.
  unfold complete. intros H Hd. inv_res. destruct (field "result" d); [done| | | | | |]; by inv_res.
Qed.

Lemma complete_key key receipt d o : complete float_repr key receipt d = Ok o -> field "idempotency_key" d = PStr key.
Proof.
  unfold complete. intros H. apply result_bind_ok in H as (u & Hkey & _). apply raise_if_ok, negb_false_iff in Hkey.
  destruct (field "idempotency_key" d); try discriminate. cbn in Hkey. by apply String.eqb_eq in Hkey as ->.
Qed.

(** Completing again: no write, and only for the recorded result. *)
Lemma complete_again key receipt d d' changed :
  field "result" d <> PNone -> complete float_repr key receipt d = Ok (d', changed) ->
  d' = d /\ changed = false /\ _canonical float_repr (field "result" d) = _canonical float_repr (PDict receipt).
Proof.
  intros Hn H. unfold complete in H. apply result_bind_ok in H as (u & _ & H).
  assert (exists t1 t2, _canonical float_repr (field "result" d) = Ok t1 /\ _canonical float_repr (PDict receipt) = Ok t2 /\
    String.eqb t1 t2 = true /\ d' = d /\ changed = false) as (x & y & -> & -> & Hxy & -> & ->).
  { destruct (field "result" d); [done| | | | | |];
      (apply result_bind_ok in H as (t1 & H1 & H); apply result_bind_ok in H as (t2 & H2 & H);
       apply result_bind_ok in H as (v & Hv & H); apply raise_if_ok, negb_false_iff in Hv; simplify_eq; by exists t1, t2). }
  by apply String.eqb_eq in Hxy as ->.
Qed.

(** A completed preview holds its key and a result with the canonical text of the receipt. *)
Lemma complete_spec key receipt d d' changed :
  complete float_repr key receipt d = Ok (d', changed) ->
  field "result" d' <> PNone /\ field "idempotency_key" d' = PStr key /\ (changed = false -> d' = d) /\
  _canonical float_repr (field "result" d') = _canonical float_repr (PDict receipt).
Proof.
  intros H. pose proof (complete_key _ _ _ _ H) as Hk. destruct (none_dec (field "result" d)) as [Hn|Hn].
  - unfold complete in H. apply result_bind_ok in H as (u & _ & H). rewrite Hn in H. simplify_eq.
    rewrite field_set_eq, field_set_ne by done. done.
  - destruct (complete_again _ _ _ _ _ Hn H) as (-> & -> & ->). done.
Qed.

Lemma holds_unique f kind handle project repository d project' repository' d' :
  holds f kind handle project repository d -> holds f kind handle project' repository' d' -> d' = d.
Proof.
  intros (es & e & Hr & Hok & He & Hk & _ & <-) (es' & e' & Hr' & _ & He' & Hk' & _ & <-).
  rewrite Hr in Hr'. apply Ok_inj in Hr' as <-. f_equal.
  pose proof (filter_identity sha256 self es e Hok He) as H1. pose proof (filter_identity sha256 self es e' Hok He') as H2.
  injection Hk as Hk1 Hk2. injection Hk' as Hk1' Hk2'. rewrite Hk1, Hk2 in H1. rewrite Hk1', Hk2' in H2. congruence.
Qed.

Lemma safe_component_str v name maximum s : _safe_component v name maximum = Ok s -> v = PStr s.
Proof. destruct v; cbn; try done. intros H. by inv_res. Qed.

Lemma bounded_mapping_id value name limit m :
  _bounded_mapping float_repr value name limit = Ok m -> m = value /\ is_ok (_canonical float_repr (PDict value)) = true.
Proof. unfold _bounded_mapping. destruct (_canonical _ _); [|done]. intros H. by inv_res. Qed.

Abbreviation complete_preview := (complete_admin_preview float_repr sha256 self).

Lemma complete_call project repository proposal key result now f r f' :
  complete_preview (PStr project) (PStr repository) proposal key result now f = (r, f') ->
  (exists x, r = Err x) /\ f' = f \/
  exists k, key = PStr k /\ is_ok (_canonical float_repr (PDict result)) = true /\
    atomic_update float_repr sha256 self "admin_preview" proposal project repository (complete float_repr k result) now f = (r, f').
Proof.
  unfold complete_admin_preview. intros H.
  match type of H with (match ?m with _ => _ end) = _ => destruct m as [[[[p q] k] receipt]|x] eqn:Hargs end.
  2: { injection H as <- <-. left. split; [by eexists|done]. }
  apply result_bind_ok in Hargs as (p' & Hp & Hargs). apply result_bind_ok in Hargs as (q' & Hq & Hargs).
  apply result_bind_ok in Hargs as (k' & Hk & Hargs). apply result_bind_ok in Hargs as (m & Hm & Hargs).
  apply Ok_inj in Hargs. injection Hargs as <- <- <- <-.
  apply safe_component_str in Hp, Hq, Hk. injection Hp as <-. injection Hq as <-.
  apply bounded_mapping_id in Hm as [-> Hm]. right. by exists k'.
Qed.

(** An administrator's preview is consumed once.  After it was completed with a result, whatever other
    calls follow, completing it again never changes the journal, and succeeds only with the same idempotency
    key and a result whose canonical text is that of the first: a lost receipt can be replayed, a different
    one cannot replace it. *)
Theorem admin_preview_once project repository proposal key key' result result' now now' f f1 f2 f3 d r :
  journal_ok f -> is_number now = true -> is_number now' = true ->
  complete_preview (PStr project) (PStr repository) proposal key result now f = (Ok d, f1) ->
  rtc (step_rel keeps_result "admin_preview" proposal) f1 f2 ->
  complete_preview (PStr project) (PStr repository) proposal key' result' now' f2 = (r, f3) ->
  f3 = f2 /\ forall d', r = Ok d' ->
    key' = key /\ _canonical float_repr (PDict result') = _canonical float_repr (PDict result) /\
    field "result" d' = field "result" d.
Proof.
  intros Hok Hn Hn' H Hs H'.
  apply complete_call in H as [[[x Hx] _]|(k & -> & Hc & H)]; [discriminate|].
  apply complete_call in H' as [[[x ->] ->]|(k' & -> & Hc' & H')]; [done|].
  destruct (atomic_update_ok _ _ _ _ _ _ _ _ _ Hn Hok H) as (d0 & changed & Hd0 & Hcomp & Hh).
  destruct (complete_spec _ _ _ _ _ Hcomp) as (Hnn & Hkey & Hsame & Hcan).
  assert (holds f1 "admin_preview" proposal project repository d) as Hd
    by (destruct changed; [done|]; rewrite Hh, Hsame; done).
  assert ("admin_preview" <> "workflow_current") as Hne by done.
  destruct (steps_hold keeps_result "admin_preview" proposal f1 f2 project repository d Hne Hs Hd)
    as (d2 & Hd2 & Hkeep). destruct (Hkeep Hnn) as [Er Ek]. rewrite <-Er in Hnn.
  destruct r as [d'|x].
  2: { split; [|done]. destruct (mutate_cases _ _ _ _ _ H') as [[-> _]|(? & ? & ? & ? & _ & _ & _ & ? & _)]; done. }
  destruct (atomic_update_ok _ _ _ _ _ _ _ _ _ Hn' (holds_ok _ _ _ _ _ _ Hd2) H') as (d3 & changed' & Hd3 & Hcomp' & Hh').
  rewrite (holds_unique _ _ _ _ _ _ _ _ _ Hd2 Hd3) in Hcomp'.
  destruct (complete_again _ _ _ _ _ Hnn Hcomp') as (-> & -> & Hcan').
  split; [done|]. intros d' [= <-]. rewrite <-Hcan', Er, Hcan. split; [|done].
  rewrite (complete_key _ _ _ _ Hcomp') in Ek. congruence.
Qed.

End Actor.
