(* ===== verification/Records.v ===== *)
(** * Records of the compact workflow: what each phase promises

    The type of a workflow record: the facts that hold in each phase (the ids of the attempt
    once it is dispatched, the validated handoff proof once it is handed back, a receipt that
    proves what an ended handle claims), the edges between phases and what never changes
    along them.  [record_ok] is executable.  The lemmas say how an update of a record meets
    this specification. *)

From Stdlib Require Import ZArith SpecFloat.
From stdpp Require Import relations.
From S2P Require Import Prelude PyValue Text Json Journal Phases Workflow Coordinate Selection.
Import Journal Phases Workflow Coordinate Selection.

#[local] Open Scope string_scope.
#[local] Open Scope Z_scope.
#[local] Open Scope list_scope.

Module Records.

(** ** Facts *)

Inductive fact :=
  | FTask (* the selected work *) | FAttempt (* the dispatched attempt and its lease *)
  | FContext (* the context and its requirements *) | FFinish (* the journalled finish *)
  | FReports | FReleases (* which way the finish goes on *) | FProof (* the validated handoff proof *)
  | FCandidate | FReleased (* why the attempt is released *)
  | FReview (* the candidate under review *) | FApplied (* an integration that was applied *).

#[export] Instance fact_eq_dec : EqDecision fact.
Proof. solve_decision. Defined.

(** The keys a fact depends on. *)
Definition fact_keys (x : fact) : list string :=
  match x with
  | FTask => ["task_id"; "plan_revision_id"; "workspace_id"]
  | FAttempt => ["attempt_id"; "lease_id"]
  | FContext => ["context"; "requirement_ids"]
  | FFinish => ["finish_action"; "outcome_disposition"]
  | FReports => ["outcome_disposition"]
  | FReleases => ["finish_action"]
  | FProof => ["handback_proof"; "attempt_id"]
  | FCandidate => ["candidate_id"]
  | FReleased => ["release_receipt"; "attempt_id"; "lease_id"; "finish_action"; "handback_proof"]
  | FReview => ["task_id"; "attempt_id"; "candidate_id"]
  | FApplied => ["operations"]
  end.

Definition text_at (d : pydict) (k : string) : bool := bool_decide (is_Some (text_of (field k d))).

Definition is_applied (v : pyval) : bool :=
  match _git_integration_result v with Ok i => i.(in_applied) | Err _ => false end.

(** A completed integration whose receipt proves that it was applied. *)
Definition applied_operation (v : pyval) : bool :=
  match v with
  | PDict o => py_eqb (field "state" o) (PStr "complete") && is_applied (field "result" o)
  | _ => false
  end.

Definition is_review (d : pydict) : bool := py_eqb (field "mode" d) (PStr "review").

Definition releases (d : pydict) : bool := py_eqb (field "finish_action" d) (PStr "release").

(** The receipt proves that a recovery released this very attempt. *)
Definition recovered (d : pydict) : bool :=
  match field "release_receipt" d with
  | PDict r => match _recovery_confirms_attempt_release r d with Ok b => b | Err _ => false end
  | _ => false
  end.

Definition finish_ok (d : pydict) : bool :=
  match field "finish_action" d with
  | PStr a => bool_decide (a ∈ authoring_actions) && py_eqb (field "outcome_disposition" d) (opt (outcome_disposition a))
  | _ => false
  end.

Definition authoring_facts : list (string * list fact) :=
  [("selecting", []); ("no_work", []); ("workspace_pending", [FTask]); ("dispatch_pending", [FTask]);
   ("context_pending", [FTask; FAttempt]); ("active", [FTask; FAttempt; FContext]);
   ("handback_pending", [FTask; FAttempt; FContext; FFinish]);
   ("report_pending", [FTask; FAttempt; FContext; FFinish; FReports; FProof]);
   ("release_pending", [FTask; FAttempt; FContext; FFinish; FReleases; FProof]);
   ("review_pending", [FTask; FAttempt; FContext; FFinish; FReports; FProof; FCandidate]);
   ("released", [FTask; FAttempt; FContext; FReleased])].

Definition review_facts : list (string * list fact) :=
  [("review_pending", [FReview]); ("review_accepted", [FReview]); ("review_rejected", [FReview]);
   ("integrated", [FReview; FApplied])].

Definition facts_of (review : bool) (phase : string) : option (list fact) :=
  dict_get phase (if review then review_facts else authoring_facts).

(** ** Edges *)

Definition authoring_edges : list (string * string) :=
  [("selecting", "no_work"); ("selecting", "workspace_pending"); ("workspace_pending", "dispatch_pending");
   ("dispatch_pending", "context_pending"); ("context_pending", "active"); ("active", "handback_pending");
   ("handback_pending", "report_pending"); ("handback_pending", "release_pending"); ("report_pending", "review_pending");
   ("release_pending", "released"); ("active", "released"); ("handback_pending", "released"); ("report_pending", "released")].

Definition review_edges : list (string * string) :=
  [("review_pending", "review_accepted"); ("review_pending", "review_rejected"); ("review_accepted", "integrated")].

Definition edge (review : bool) (p q : string) : Prop := (p, q) ∈ if review then review_edges else authoring_edges.

#[export] Instance edge_dec review p q : Decision (edge review p q).
Proof. unfold edge. apply _. Defined.

(** What never changes again once a record is in a phase. *)
Definition fixed (review : bool) (phase : string) : list string :=
  if review then ["task_id"; "run_id"; "attempt_id"; "candidate_id"]
  else if bool_decide (phase ∈ ["selecting"; "no_work"]) then []
  else ["task_id"; "run_id"; "assignment_id"; "plan_revision_id"; "workspace_id"]
       ++ if bool_decide (phase ∈ ["workspace_pending"; "dispatch_pending"]) then [] else ["attempt_id"].

(** A record moves along the edges, and keeps what is fixed. *)
Record moves (d d' : pydict) : Prop := {
  mv_mode : is_review d' = is_review d;
  mv_phase : forall p, field "phase" d = PStr p -> exists p', field "phase" d' = PStr p' /\ rtc (edge (is_review d)) p p';
  mv_fixed : forall p k, field "phase" d = PStr p -> k ∈ fixed (is_review d) p -> field k d' = field k d
}.

(** The journalled intent of a phase. *)
Definition intent_of (name : string) (d : pydict) : option pydict :=
  match dict_get "phase_intents" d with
  | Some (PDict intents) => match dict_get name intents with Some (PDict i) => Some i | _ => None end
  | _ => None
  end.

Definition generation (i : pydict) : Z := match dict_get_default "generation" (PInt 0) i with PInt g => g | _ => 0 end.

(** A later generation of the intent, with a key and a revision of its own. *)
Definition refreshed (i i' : pydict) : Prop :=
  generation i < generation i' /\ exists k r, field "idempotency_key" i' = PStr k /\ field "expected_revision" i' = PInt r.

(** Every intent stays, for the same payload; what changes it refreshes it. *)
Definition intents_kept (d d' : pydict) : Prop :=
  forall name i, intent_of name d = Some i ->
    exists i', intent_of name d' = Some i' /\ field "payload_digest" i' = field "payload_digest" i /\ (i' = i \/ refreshed i i').

(** The keys that [dict_update] by a stored record, or by the scope, may change. *)
Definition ignored : list string := ["project"; "repository"; "phase_intents"].

(** The same record but for its scope and its journalled intents. *)
Definition agree (d d' : pydict) : Prop := forall k, k ∉ ignored -> field k d' = field k d.

Section Facts.
Context (float_repr : spec_float -> string).

Definition proof_ok (d : pydict) : bool :=
  match field "handback_proof" d with PDict p => is_ok (_validate_handoff_proof float_repr p d) | _ => false end.

Definition fact_holds (d : pydict) (x : fact) : bool :=
  match x with
  | FTask => forallb (text_at d) ["task_id"; "plan_revision_id"; "workspace_id"]
  | FAttempt => forallb (text_at d) ["attempt_id"; "lease_id"]
  | FContext => has_context d && match field "requirement_ids" d with PList l => bool_decide (is_Some (all_strs l)) | _ => false end
  | FFinish => finish_ok d
  | FReports => truthy (field "outcome_disposition" d)
  | FReleases => releases d
  | FProof => proof_ok d
  | FCandidate => text_at d "candidate_id"
  | FReleased => recovered d || (releases d && proof_ok d)
  | FReview => forallb (text_at d) ["task_id"; "attempt_id"; "candidate_id"]
  | FApplied => existsb applied_operation (operations_of d).*2
  end.

Definition record_ok (d : pydict) : bool :=
  bool_decide (NoDup d.*1) &&
  match field "phase" d with
  | PStr p => match facts_of (is_review d) p with Some facts => forallb (fact_holds d) facts | None => false end
  | _ => false
  end.

(** A change of a record that keeps it well formed and on the edges. *)
Definition good_change (d changes : pydict) : Prop :=
  NoDup changes.*1 /\ ("phase_intents" ∉ changes.*1) /\ record_ok (dict_update d changes) = true /\ moves d (dict_update d changes).

End Facts.

End Records.
Import Records.

(** ** Updating a dictionary *)

Lemma dict_update_NoDup d c : NoDup d.*1 -> NoDup (dict_update d c).*1.
Proof. unfold dict_update. revert d. induction c as [|[k v] c IH]; intros d Hd; [done|]. cbn. apply IH. by apply dict_set_NoDup. Qed.

Lemma dict_get_update k d c :
  NoDup c.*1 -> dict_get k (dict_update d c) = match dict_get k c with Some v => Some v | None => dict_get k d end.
Proof.
  unfold dict_update. revert d. induction c as [|[k' v] c IH]; intros d Hc; [done|]. csimpl in Hc.
  apply NoDup_cons in Hc as [Hk Hc]. cbn [foldl fst snd]. rewrite IH by done. cbn [dict_get].
  destruct (decide (k = k')) as [->|Hne].
  - apply dict_get_None in Hk as ->. by rewrite dict_get_set_eq.
  - destruct (dict_get k c); [done|]. by rewrite dict_get_set_ne.
Qed.

Lemma field_update k d c :
  NoDup c.*1 -> field k (dict_update d c) = match dict_get k c with Some v => v | None => field k d end.
Proof. intros Hc. unfold field, dict_get_default. rewrite dict_get_update by done. by destruct (dict_get k c). Qed.

Lemma field_update_ne k d c : NoDup c.*1 -> k ∉ c.*1 -> field k (dict_update d c) = field k d.
Proof. intros Hc Hk. rewrite field_update by done. by apply dict_get_None in Hk as ->. Qed.

Lemma dict_set_new k v (d : pydict) : k ∉ d.*1 -> dict_set k v d = d ++ [(k, v)].
Proof.
  induction d as [|[k' v'] d IH]; csimpl; [done|]. intros Hk. rewrite decide_False by set_solver. by rewrite IH by set_solver.
Qed.

Lemma dict_update_app d c : NoDup (d ++ c).*1 -> dict_update d c = d ++ c.
Proof.
  unfold dict_update. revert d. induction c as [|[k v] c IH]; intros d Hd; [by rewrite app_nil_r|].
  cbn [foldl fst snd]. rewrite dict_set_new.
  - rewrite IH; [by rewrite <-app_assoc|]. by rewrite <-app_assoc.
  - intros Hk. rewrite fmap_app in Hd. apply NoDup_app in Hd as (_ & Hd & _). apply (Hd k Hk). left.
Qed.

(** ** Intents *)

#[export] Instance intents_kept_preorder : PreOrder intents_kept.
Proof.
  split; [intros d name i Hi; exists i; auto|]. intros a b c H1 H2 name i Hi.
  destruct (H1 name i Hi) as (i1 & Hi1 & E1 & C1). destruct (H2 name i1 Hi1) as (i2 & Hi2 & E2 & C2).
  exists i2. split; [done|]. split; [congruence|].
  destruct C1 as [->|[G1 T1]]; [done|]. right. destruct C2 as [->|[G2 T2]]; [by split|]. split; [lia|done].
Qed.

Lemma intents_same d d' : dict_get "phase_intents" d' = dict_get "phase_intents" d -> intents_kept d d'.
Proof. intros E name i Hi. exists i. unfold intent_of in *. rewrite E. auto. Qed.

(** A change of another key. *)
Lemma intents_update d c : NoDup c.*1 -> "phase_intents" ∉ c.*1 -> intents_kept d (dict_update d c).
Proof. intros Hc Hn. apply intents_same. rewrite dict_get_update by done. by apply dict_get_None in Hn as ->. Qed.

(** One intent of the table is set. *)
Lemma intents_set name v intents d :
  (forall l, dict_get "phase_intents" d = Some (PDict l) -> l = intents) ->
  (forall i, intent_of name d = Some i ->
     exists i', v = PDict i' /\ field "payload_digest" i' = field "payload_digest" i /\ (i' = i \/ refreshed i i')) ->
  intents_kept d (dict_set "phase_intents" (PDict (dict_set name v intents)) d).
Proof.
  intros Hl Hv name' i Hi. unfold intent_of in *. rewrite dict_get_set_eq.
  destruct (decide (name' = name)) as [->|Hne].
  - destruct (Hv i Hi) as (i' & -> & ?). exists i'. by rewrite dict_get_set_eq.
  - rewrite dict_get_set_ne by done. destruct (dict_get "phase_intents" d) as [[]|]; try done.
    rewrite (Hl _ eq_refl) in Hi. exists i. auto.
Qed.

(** ** Agreement *)

#[export] Instance agree_equivalence : Equivalence agree.
Proof.
  split; [by intros d k|by intros d d' H k Hk; rewrite (H k Hk)|].
  intros a b c H1 H2 k Hk. by rewrite (H2 k Hk), (H1 k Hk).
Qed.

Lemma agree_update d d' c : NoDup c.*1 -> agree d d' -> agree (dict_update d c) (dict_update d' c).
Proof. intros Hc H k Hk. rewrite !field_update by done. destruct (dict_get k c); [done|]. by apply H. Qed.

Lemma field_none k d : dict_get k d = None -> field k d = PNone.
Proof. unfold field, dict_get_default. by intros ->. Qed.

Lemma field_some k v d : dict_get k d = Some v -> field k d = v.
Proof. unfold field, dict_get_default. by intros ->. Qed.

(** Updating by a record that agrees is the same as agreeing with it. *)
Lemma agree_absorb d r c :
  NoDup r.*1 -> NoDup c.*1 -> agree d r -> agree (dict_update r c) (dict_update d (dict_update r c)).
Proof.
  intros Hr Hc H k Hk. rewrite (field_update k d) by by apply dict_update_NoDup.
  destruct (dict_get k (dict_update r c)) as [v|] eqn:Hg; [by rewrite (field_some _ _ _ Hg)|].
  rewrite (field_none _ _ Hg). rewrite dict_get_update in Hg by done. destruct (dict_get k c); [done|].
  rewrite <-(H k Hk). by apply field_none.
Qed.

Lemma agree_scope project repository d : agree d (with_scope project repository d).
Proof.
  intros k Hk. unfold with_scope. apply field_update_ne; [compute_decide|]. intros Hin. apply Hk.
  set_unfold. naive_solver.
Qed.

Lemma agree_intents v d : agree d (dict_set "phase_intents" v d).
Proof. intros k Hk. unfold field, dict_get_default. rewrite dict_get_set_ne; [done|]. intros <-. apply Hk. set_solver. Qed.

(** What the specification reads of a record is not ignored. *)
Lemma keys_not_ignored x : forallb (fun k => negb (bool_decide (k ∈ ignored))) (fact_keys x) = true.
Proof. by destruct x. Qed.

Lemma fixed_not_ignored review phase : forallb (fun k => negb (bool_decide (k ∈ ignored))) (fixed review phase) = true.
Proof. unfold fixed. by destruct review; [|repeat case_bool_decide]. Qed.

Lemma agree_key d d' k l :
  forallb (fun k => negb (bool_decide (k ∈ ignored))) l = true -> k ∈ l -> agree d d' -> field k d' = field k d.
Proof.
  intros Hl Hk H. apply H. rewrite forallb_forall in Hl. apply list_elem_of_In in Hk. specialize (Hl k Hk).
  by apply negb_true_iff, bool_decide_eq_false in Hl.
Qed.

(** A fact depends on its keys only. *)
Lemma operations_field d d' : field "operations" d' = field "operations" d -> operations_of d' = operations_of d.
Proof.
  unfold operations_of, field, dict_get_default. destruct (dict_get "operations" d), (dict_get "operations" d');
    cbn; intros H; simplify_eq; done.
Qed.

Section Facts.
Context (float_repr : spec_float -> string).
#[local] Abbreviation fact_holds := (fact_holds float_repr).
#[local] Abbreviation record_ok := (record_ok float_repr).
#[local] Abbreviation good_change := (good_change float_repr).

Lemma proof_ext p d d' : field "attempt_id" d' = field "attempt_id" d ->
  _validate_handoff_proof float_repr p d' = _validate_handoff_proof float_repr p d.
Proof. unfold _validate_handoff_proof. by intros ->. Qed.

Lemma recovery_ext r d d' : field "attempt_id" d' = field "attempt_id" d -> field "lease_id" d' = field "lease_id" d ->
  _recovery_confirms_attempt_release r d' = _recovery_confirms_attempt_release r d.
Proof. unfold _recovery_confirms_attempt_release. by intros -> ->. Qed.

Lemma fact_ext x d d' : (forall k, k ∈ fact_keys x -> field k d' = field k d) -> fact_holds d' x = fact_holds d x.
Proof.
  intros H. destruct x; cbn [Records.fact_holds fact_keys forallb] in *;
    unfold text_at, has_context, finish_ok, releases, recovered, proof_ok;
    repeat match goal with |- context [field ?k d'] => rewrite (H k) by (unfold fact_keys; set_solver) end; try done.
  - destruct (field "handback_proof" d); try done. rewrite (proof_ext d0 d d'); [done|apply H; set_solver].
  - f_equal.
    + destruct (field "release_receipt" d); try done. rewrite (recovery_ext d0 d d'); [done|apply H; set_solver..].
    + f_equal. destruct (field "handback_proof" d); try done. rewrite (proof_ext d0 d d'); [done|apply H; set_solver].
  - by rewrite (operations_field d d') by (apply H; set_solver).
Qed.

Lemma agree_fact x d d' : agree d d' -> fact_holds d' x = fact_holds d x.
Proof. intros H. apply fact_ext. intros k Hk. eapply agree_key; [apply keys_not_ignored|exact Hk|exact H]. Qed.

Lemma agree_phase d d' : agree d d' -> field "phase" d' = field "phase" d.
Proof. intros H. apply H. compute_decide. Qed.

Lemma agree_review d d' : agree d d' -> is_review d' = is_review d.
Proof. intros H. unfold is_review. by rewrite (H "mode") by compute_decide. Qed.

Lemma agree_ok d d' : agree d d' -> NoDup d'.*1 -> record_ok d = true -> record_ok d' = true.
Proof.
  intros H Hd Hok. apply andb_true_iff in Hok as [_ Hok]. apply andb_true_iff. split; [by apply bool_decide_eq_true|].
  rewrite (agree_phase _ _ H), (agree_review _ _ H). destruct (field "phase" d); try done.
  destruct (facts_of _ _); [|done]. rewrite forallb_forall in *. intros x Hx. rewrite (agree_fact x _ _ H). by apply Hok.
Qed.

Lemma agree_moves d d' e e' : agree d d' -> agree e e' -> moves d e -> moves d' e'.
Proof.
  intros Hd He [H1 H2 H3]. pose proof (agree_review _ _ Hd) as Hrd. split.
  - by rewrite (agree_review _ _ He), Hrd.
  - intros p Hp. rewrite (agree_phase _ _ Hd) in Hp. rewrite (agree_phase _ _ He), Hrd. by apply H2.
  - intros p k Hp Hk. rewrite Hrd in Hk. rewrite (agree_phase _ _ Hd) in Hp.
    rewrite (agree_key d d' k (fixed (is_review d) p)), (agree_key e e' k (fixed (is_review d) p)); try done;
      try apply fixed_not_ignored. by apply (H3 p).
Qed.

End Facts.

(** ** Moving *)

(** Reachability along the edges is decided on the table. *)
Definition fixed_grows (review : bool) (pq : string * string) : bool :=
  forallb (fun k => bool_decide (k ∈ fixed review pq.2)) (fixed review pq.1).

Lemma fixed_mono review p q k : rtc (edge review) p q -> k ∈ fixed review p -> k ∈ fixed review q.
Proof.
  assert (forall p q k, edge review p q -> k ∈ fixed review p -> k ∈ fixed review q) as H1.
  { intros p' q' k' He Hk.
    assert (forallb (fixed_grows review) (if review then review_edges else authoring_edges) = true) as Hall
      by (destruct review; vm_compute; reflexivity).
    rewrite forallb_forall in Hall. unfold edge in He. apply list_elem_of_In in He. specialize (Hall _ He).
    unfold fixed_grows in Hall. cbn [fst snd] in Hall. rewrite forallb_forall in Hall. apply list_elem_of_In in Hk.
    specialize (Hall _ Hk). by apply bool_decide_eq_true in Hall. }
  induction 1 as [|p1 p2 p3 He _ IH]; [done|]. intros Hk. apply IH. by eapply H1.
Qed.

#[export] Instance moves_preorder : PreOrder moves.
Proof.
  split.
  - intros d. split; [done| |done]. intros p Hp. by exists p.
  - intros a b c [A1 A2 A3] [B1 B2 B3]. split; [by rewrite B1| |].
    + intros p Hp. destruct (A2 p Hp) as (q & Hq & Hpq). destruct (B2 q Hq) as (r & Hr & Hqr).
      exists r. split; [done|]. rewrite A1 in Hqr. by etransitivity.
    + intros p k Hp Hk. destruct (A2 p Hp) as (q & Hq & Hpq). rewrite (B3 q k Hq); [by apply (A3 p)|].
      rewrite A1. by eapply fixed_mono.
Qed.

(** ** Good changes *)

Section Changes.
Context (float_repr : spec_float -> string).
#[local] Abbreviation fact_holds := (fact_holds float_repr).
#[local] Abbreviation record_ok := (record_ok float_repr).
#[local] Abbreviation good_change := (good_change float_repr).

Definition untouched (changed keys : list string) : bool := forallb (fun k => negb (bool_decide (k ∈ changed))) keys.

Lemma untouched_spec changed keys k : untouched changed keys = true -> k ∈ keys -> k ∉ changed.
Proof.
  unfold untouched. rewrite forallb_forall. intros H Hk. apply list_elem_of_In in Hk. specialize (H k Hk).
  by apply negb_true_iff, bool_decide_eq_false in H.
Qed.

Lemma record_ok_facts d p : record_ok d = true -> field "phase" d = PStr p ->
  exists facts, facts_of (is_review d) p = Some facts /\ forall x, x ∈ facts -> fact_holds d x = true.
Proof.
  intros H Hp. apply andb_true_iff in H as [_ H]. rewrite Hp in H. destruct (facts_of _ _) as [facts|]; [|done].
  exists facts. split; [done|]. rewrite forallb_forall in H. intros x Hx. apply H. by apply list_elem_of_In.
Qed.

(** A phase that no review has. *)
Lemma record_ok_authoring d p :
  record_ok d = true -> field "phase" d = PStr p -> facts_of true p = None -> is_review d = false.
Proof.
  intros H Hp Hf. destruct (is_review d) eqn:Hr; [|done]. destruct (record_ok_facts d p H Hp) as (facts & Hfs & _).
  by rewrite Hr, Hf in Hfs.
Qed.

Lemma record_ok_NoDup d : record_ok d = true -> NoDup d.*1.
Proof. intros H. apply andb_true_iff in H as [H _]. by apply bool_decide_eq_true in H. Qed.

(** A change that moves the phase along an edge (or leaves it), touches nothing fixed, and
    establishes the facts of the new phase that it touches or that are new. *)
Lemma change_ok d c p p' facts facts' :
  record_ok d = true -> field "phase" d = PStr p -> facts_of (is_review d) p = Some facts ->
  NoDup c.*1 -> "mode" ∉ c.*1 -> "phase_intents" ∉ c.*1 -> untouched c.*1 (fixed (is_review d) p) = true ->
  field "phase" (dict_update d c) = PStr p' -> rtc (edge (is_review d)) p p' ->
  facts_of (is_review d) p' = Some facts' ->
  (forall x, x ∈ facts' -> (x ∈ facts /\ untouched c.*1 (fact_keys x) = true) \/ fact_holds (dict_update d c) x = true) ->
  good_change d c.
Proof.
  intros Hok Hp Hf Hc Hm Hi Hfix Hp' He Hf' Hx.
  assert (is_review (dict_update d c) = is_review d) as Hr by (unfold is_review; by rewrite field_update_ne).
  split; [done|]. split; [done|]. split.
  - apply andb_true_iff. split; [apply bool_decide_eq_true, dict_update_NoDup; by eapply record_ok_NoDup|].
    rewrite Hp', Hr, Hf'. apply forallb_forall. intros x Hin%list_elem_of_In. destruct (Hx x Hin) as [[Hxf Hu]|]; [|done].
    destruct (record_ok_facts d p Hok Hp) as (fs & Hfs & Hall). rewrite Hf in Hfs. injection Hfs as <-.
    rewrite <-(Hall x Hxf). apply fact_ext. intros k Hk. apply field_update_ne; [done|]. by eapply untouched_spec.
  - split; [done| |].
    + intros q Hq. rewrite Hp in Hq. injection Hq as <-. by exists p'.
    + intros q k Hq Hk. rewrite Hp in Hq. injection Hq as <-. apply field_update_ne; [done|]. by eapply untouched_spec.
Qed.

(** A change that leaves the phase. *)
Lemma change_same d c p facts :
  record_ok d = true -> field "phase" d = PStr p -> facts_of (is_review d) p = Some facts ->
  NoDup c.*1 -> untouched c.*1 (["phase"; "mode"; "phase_intents"] ++ fixed (is_review d) p) = true ->
  (forall x, x ∈ facts -> untouched c.*1 (fact_keys x) = true \/ fact_holds (dict_update d c) x = true) ->
  good_change d c.
Proof.
  intros Hok Hp Hf Hc Hu Hx. eapply (change_ok d c p p facts facts); try done.
  - eapply untouched_spec; [exact Hu|]. set_solver.
  - eapply untouched_spec; [exact Hu|]. set_solver.
  - apply forallb_forall. intros k Hk. apply negb_true_iff, bool_decide_eq_false. eapply untouched_spec; [exact Hu|].
    apply elem_of_app. right. by apply list_elem_of_In.
  - rewrite field_update_ne; [done|done|]. eapply untouched_spec; [exact Hu|]. set_solver.
  - intros x Hin. destruct (Hx x Hin); [by left|by right].
Qed.

(** Keys that no fact depends on and that are never fixed. *)
Definition spoken_for : list string :=
  ["phase"; "mode"; "task_id"; "run_id"; "assignment_id"; "plan_revision_id"; "workspace_id"; "attempt_id"; "candidate_id";
   "lease_id"; "context"; "requirement_ids"; "finish_action"; "outcome_disposition"; "handback_proof"; "release_receipt";
   "operations"; "phase_intents"].

Lemma untouched_subset c l k : untouched c l = true -> k ⊆ l -> untouched c k = true.
Proof.
  intros H Hs. apply forallb_forall. intros x Hx%list_elem_of_In. apply negb_true_iff, bool_decide_eq_false.
  eapply untouched_spec; [exact H|]. by apply Hs.
Qed.

Lemma fixed_spoken review p : fixed review p ⊆ spoken_for.
Proof.
  assert (forallb (fun k => bool_decide (k ∈ spoken_for)) (fixed review p) = true) as H
    by (unfold fixed; by destruct review; [|repeat case_bool_decide]).
  rewrite forallb_forall in H. intros k Hk%list_elem_of_In. by apply H, bool_decide_eq_true in Hk.
Qed.

Lemma keys_spoken x : fact_keys x ⊆ spoken_for.
Proof.
  assert (forallb (fun k => bool_decide (k ∈ spoken_for)) (fact_keys x) = true) as H by by destruct x.
  rewrite forallb_forall in H. intros k Hk%list_elem_of_In. by apply H, bool_decide_eq_true in Hk.
Qed.

Lemma change_plain d c :
  record_ok d = true -> NoDup c.*1 -> untouched c.*1 spoken_for = true -> good_change d c.
Proof.
  intros Hok Hc Hu. pose proof Hok as Hok'. apply andb_true_iff in Hok' as [_ Hok'].
  destruct (field "phase" d) eqn:Hp; try discriminate. destruct (facts_of _ _) as [facts|] eqn:Hf; [|discriminate].
  apply (change_same d c s facts); try done.
  - eapply untouched_subset; [exact Hu|]. intros k [Hk|Hk]%elem_of_app; [|by eapply fixed_spoken].
    unfold spoken_for. set_solver.
  - intros x _. left. eapply untouched_subset; [exact Hu|apply keys_spoken].
Qed.

(** The check of a change by its keys: None when it is not on an edge or touches what is
    fixed; otherwise the facts of the new phase that remain to be shown. *)
Definition owed_facts (review : bool) (p p' : string) (keys : list string) : option (list fact) :=
  if bool_decide (NoDup keys) && negb (bool_decide ("mode" ∈ keys)) && negb (bool_decide ("phase_intents" ∈ keys)) && untouched keys (fixed review p)
     && (String.eqb p p' || bool_decide (edge review p p'))
  then match facts_of review p, facts_of review p' with
       | Some facts, Some facts' =>
           Some (List.filter (fun x => negb (bool_decide (x ∈ facts) && untouched keys (fact_keys x))) facts')
       | _, _ => None
       end
  else None.

Lemma change_owed d c p p' review owed :
  record_ok d = true -> field "phase" d = PStr p -> is_review d = review ->
  owed_facts review p p' c.*1 = Some owed -> default (PStr p) (dict_get "phase" c) = PStr p' ->
  Forall (fun x => fact_holds (dict_update d c) x = true) owed -> good_change d c.
Proof.
  intros Hok Hp Hr Ho Hp' Hall. unfold owed_facts in Ho. destruct (_ && _) eqn:Hb; [|discriminate].
  rewrite !andb_true_iff in Hb. destruct Hb as [[[[Hnd Hm] Hi] Hu] He]. apply bool_decide_eq_true in Hnd.
  apply negb_true_iff, bool_decide_eq_false in Hm. apply negb_true_iff, bool_decide_eq_false in Hi.
  destruct (facts_of review p) as [facts|] eqn:Hf; [|discriminate]. destruct (facts_of review p') as [facts'|] eqn:Hf'; [|discriminate].
  apply (change_ok d c p p' facts facts'); rewrite ?Hr; try done.
  - rewrite field_update by done. destruct (dict_get "phase" c); cbn in Hp'; [done|]. by rewrite Hp.
  - apply orb_true_iff in He as [He|He]; [apply String.eqb_eq in He as ->; reflexivity|]. apply rtc_once. by apply bool_decide_eq_true in He.
  - intros x Hx. destruct (bool_decide (x ∈ facts) && untouched c.*1 (fact_keys x)) eqn:Hxb.
    + apply andb_true_iff in Hxb as [Hin Hxu]. apply bool_decide_eq_true in Hin. by left.
    + right. rewrite List.Forall_forall in Hall. apply Hall. injection Ho as <-.
      apply List.filter_In. split; [by apply list_elem_of_In|]. by rewrite Hxb.
Qed.

End Changes.

(** ** Reading texts *)

Lemma text_of_spec v s : text_of v = Some s <-> v = PStr s /\ s <> "".
Proof.
  destruct v; cbn; try (split; [done|by intros [? _]]). destruct (String.eqb_spec s0 "") as [->|Hne].
  - split; [done|]. intros [[= ->] ?]. done.
  - split; [by intros [= ->]|by intros [[= ->] _]].
Qed.

Lemma text_at_some d k s : field k d = PStr s -> s <> "" -> text_at d k = true.
Proof. intros Hf Hs. apply bool_decide_eq_true. exists s. by apply text_of_spec. Qed.

Lemma phase_is_spec p d : phase_is p d = true <-> field "phase" d = PStr p.
Proof.
  unfold phase_is. destruct (field "phase" d); cbn; try (split; [done|by intros [=]]).
  rewrite String.eqb_eq. split; [by intros ->|by intros [= ->]].
Qed.

Lemma phase_in_spec ps d : phase_in ps d = Ok true <-> exists p, field "phase" d = PStr p /\ p ∈ ps.
Proof.
  unfold phase_in. destruct (field "phase" d) eqn:H; try (split; [done|by intros (p & [=] & _)]). split.
  - intros [= Hb%bool_decide_eq_true]. by exists s.
  - intros (p & [= ->] & Hp). by rewrite bool_decide_eq_true_2.
Qed.
