(* ===== verification/WorkflowLogic.v ===== *)
(** * A program logic for the compact workflow

    Triples over the workflow monad.  [keeps P m Q]: from a journal whose records are well
    formed, [m] leaves one whose records are well formed and have moved along the edges,
    whether it answers or raises; with [P] before, an answer satisfies [Q].  One rule per
    construct of the monad and per method of the store; the components apply them. *)

From Stdlib Require Import ZArith SpecFloat.
From stdpp Require Import relations.
From S2P Require Import Prelude PyValue Text Json Journal JournalProps Phases PhaseProps Workflow Records.
Import Journal Phases Workflow Records.

#[local] Open Scope string_scope.
#[local] Open Scope Z_scope.
#[local] Open Scope list_scope.

Section Logic.
Context (float_repr : spec_float -> string) (sha256 : string -> string) (py_str : pyval -> string).
Context {N0 : Type} (host : string -> string -> string -> pydict -> N0 -> result pyval * N0).
Context (self : actor) (now : pyval) (Hnow : is_number now = true).
#[local] Abbreviation record_ok := (record_ok float_repr).
#[local] Abbreviation good_change := (good_change float_repr).
#[local] Abbreviation entries_ok := (entries_ok sha256 self).
#[local] Abbreviation identity := (_identity sha256 self).
#[local] Abbreviation holds := (holds sha256 self).
#[local] Abbreviation set_entry := (set_entry sha256 self).
#[local] Abbreviation new_entry := (new_entry sha256 self).
#[local] Abbreviation world := (option file * (N0 * list string))%type.
#[local] Abbreviation M A := (world -> result A * world).

(** ** Files whose workflow records are well formed *)

Definition records_ok (es : list entry) : Prop := forall e, e ∈ es -> e.(e_kind) = "workflow" -> record_ok e.(e_data) = true.

Definition good (f : option file) : Prop := exists es, _read f = Ok es /\ entries_ok es /\ records_ok es.

(** Every workflow is still there, under its handle and scope, further along the edges. *)
Definition follows (es es' : list entry) : Prop :=
  forall e, e ∈ es -> e.(e_kind) = "workflow" ->
    exists e', e' ∈ es' /\ header e' = header e /\ moves e.(e_data) e'.(e_data) /\ intents_kept e.(e_data) e'.(e_data).

Record proceeds (f f' : option file) : Prop := {
  pr_good : good f';
  pr_follows : forall es es', _read f = Ok es -> _read f' = Ok es' -> follows es es'
}.

Lemma good_ok f : good f -> journal_ok sha256 self f.
Proof. intros (es & Hr & Hok & _). by exists es. Qed.

Lemma follows_refl es : follows es es.
Proof. intros e He _. exists e. split; [done|]. split; [done|]. split; reflexivity. Qed.

Lemma follows_trans a b c : follows a b -> follows b c -> follows a c.
Proof.
  intros H1 H2 e He Hk. destruct (H1 e He Hk) as (e1 & He1 & Hh1 & Hm1 & Hi1).
  destruct (H2 e1 He1) as (e2 & He2 & Hh2 & Hm2 & Hi2); [by injection Hh1 as -> _ _ _ _|].
  exists e2. split; [done|]. split; [congruence|]. split; by etransitivity.
Qed.

Lemma proceeds_refl f : good f -> proceeds f f.
Proof.
  intros H. split; [done|]. intros es es' Hr Hr'. rewrite Hr in Hr'. apply Ok_inj in Hr' as <-. apply follows_refl.
Qed.

Lemma proceeds_trans a b c : proceeds a b -> proceeds b c -> proceeds a c.
Proof.
  intros [(es & Hr & _ & _) H1] [Hg H2]. split; [done|]. intros ea ec Ha Hc. eapply follows_trans; [by apply H1|by apply H2].
Qed.

Lemma proceeds_holds f f' h p q d :
  proceeds f f' -> holds f "workflow" h p q d -> exists d', holds f' "workflow" h p q d' /\ moves d d' /\ intents_kept d d'.
Proof.
  intros [(es' & Hr' & Hok' & _) Hf] (es & e & Hr & Hok & He & Hk & Hs & <-).
  assert (e.(e_kind) = "workflow") as Hkind by by injection Hk.
  destruct (Hf es es' Hr Hr' e He Hkind) as (e' & He' & Hh & Hm & Hi). exists (e_data e'). split; [|done].
  exists es', e'. injection Hh as H1 H2 H3 H4 H5. unfold key_of, in_scope in *.
  split; [done|]. split; [done|]. split; [done|]. split; [congruence|]. split; [by rewrite H4, H5|done].
Qed.

Lemma holds_record_ok f h p q d : good f -> holds f "workflow" h p q d -> record_ok d = true.
Proof.
  intros (es & Hr & _ & Hg) (es' & e & Hr' & _ & He & Hk & _ & <-). rewrite Hr in Hr'. apply Ok_inj in Hr' as <-.
  apply Hg; [done|by injection Hk].
Qed.

(** ** Triples *)

Definition keeps {A} (P : option file -> Prop) (m : M A) (Q : A -> option file -> Prop) : Prop :=
  forall w r w', good w.1 -> P w.1 -> m w = (r, w') -> proceeds w.1 w'.1 /\ forall a, r = Ok a -> Q a w'.1.

Definition always (f : option file) : Prop := True.
Definition anything {A} (a : A) (f : option file) : Prop := True.

Lemma keeps_ret {A} (a : A) P : keeps P (ret a) (fun b f => b = a /\ P f).
Proof. intros w r w' Hg HP [= <- <-]. split; [by apply proceeds_refl|]. by intros b [= <-]. Qed.

Lemma keeps_raise {A} x P (Q : A -> option file -> Prop) : keeps P (raise x) Q.
Proof. intros w r w' Hg HP [= <- <-]. split; [by apply proceeds_refl|done]. Qed.

Lemma keeps_bind {A B} P (m : M A) (k : A -> M B) Q S :
  keeps P m Q -> (forall a, keeps (Q a) (k a) S) -> keeps P (bind m k) S.
Proof.
  intros Hm Hk w r w' Hg HP H. unfold bind in H. destruct (m w) as [[a|x] w1] eqn:Hmw.
  - destruct (Hm _ _ _ Hg HP Hmw) as [H1 HQ]. destruct (Hk a w1 r w' (pr_good _ _ H1) (HQ a eq_refl) H) as [H2 HS].
    split; [by eapply proceeds_trans|done].
  - injection H as <- <-. destruct (Hm _ _ _ Hg HP Hmw) as [H1 _]. by split.
Qed.

Lemma keeps_weaken {A} (P P' : option file -> Prop) (m : M A) (Q Q' : A -> option file -> Prop) :
  keeps P m Q -> (forall f, good f -> P' f -> P f) -> (forall a f, good f -> Q a f -> Q' a f) -> keeps P' m Q'.
Proof.
  intros Hm HP HQ w r w' Hg H Hmw. destruct (Hm w r w' Hg (HP _ Hg H) Hmw) as [H1 H2]. split; [done|].
  intros a Ha. apply HQ; [by destruct H1|by apply H2].
Qed.

Lemma keeps_pre {A} (P P' : option file -> Prop) (m : M A) Q :
  (forall f, good f -> P' f -> P f) -> keeps P m Q -> keeps P' m Q.
Proof. intros HP Hm. by eapply keeps_weaken. Qed.

Lemma keeps_post {A} P (m : M A) (Q Q' : A -> option file -> Prop) :
  (forall a f, good f -> Q a f -> Q' a f) -> keeps P m Q -> keeps P m Q'.
Proof. intros HQ Hm. by eapply keeps_weaken. Qed.

Lemma keeps_exists {A X} (P : X -> option file -> Prop) (m : M A) Q :
  (forall x, keeps (P x) m Q) -> keeps (fun f => exists x, P x f) m Q.
Proof. intros H w r w' Hg [x HP] Hm. by eapply H. Qed.

Lemma keeps_pure {A} (phi : Prop) P (m : M A) Q : (phi -> keeps P m Q) -> keeps (fun f => phi /\ P f) m Q.
Proof. intros H w r w' Hg [Hphi HP] Hm. by eapply H. Qed.

Lemma keeps_any {A} P (m : M A) Q : keeps P m Q -> keeps P m anything.
Proof. by apply keeps_post. Qed.

Lemma keeps_lift {A} P (r : result A) : keeps P (lift r) (fun a f => r = Ok a /\ P f).
Proof. intros w r' w' Hg HP [= <- <-]. split; [by apply proceeds_refl|]. intros a ->. done. Qed.

Lemma keeps_check P b x : keeps P (check b x) (fun _ f => b = false /\ P f).
Proof.
  unfold check. eapply keeps_post; [|apply keeps_lift]. intros a f _ [H HP]. by apply raise_if_ok in H.
Qed.

Lemma keeps_guarded P handle allowed fallback m Q : keeps P m Q -> keeps P (guarded handle allowed fallback m) anything.
Proof.
  intros Hm w r w' Hg HP H. unfold guarded in H. destruct (m w) as [r1 w1] eqn:Hmw.
  destruct (Hm w r1 w1 Hg HP Hmw) as [H1 _]. split; [|done].
  destruct r1 as [a|[]]; by injection H as _ <-.
Qed.

(** ** Reading *)

Lemma keeps_handle h : keeps always (_handle sha256 self h) (fun r f => holds f "workflow" h r.1.1 r.1.2 r.2).
Proof.
  intros w r w' Hg _ H. unfold _handle, reading in H. injection H as <- <-. split; [by apply proceeds_refl|].
  intros [[p q] d] Ha. cbn [fst snd]. destruct Hg as (es & Hr & Hok & _).
  apply (get_any_scope_spec sha256 self "workflow" h _ es p q d Hr Hok) in Ha as (_ & e & He & Hk & [= <- <- <-]).
  exists es, e. split; [done|]. split; [done|]. split; [done|]. split; [done|]. split; [|done].
  unfold in_scope. by rewrite !String.eqb_refl.
Qed.

(** ** Local records

    [local h p q r]: [r] is what the journal holds under the handle, but for the scope and
    the intents. *)

Definition local (h p q : string) (r : pydict) (f : option file) : Prop :=
  exists d, holds f "workflow" h p q d /\ agree d r /\ NoDup r.*1 /\ record_ok d = true.

Lemma local_holds f h p q d : good f -> holds f "workflow" h p q d -> local h p q d f.
Proof.
  intros Hg H. pose proof (holds_record_ok _ _ _ _ _ Hg H) as Hok. exists d. split; [done|]. split; [reflexivity|].
  split; [by eapply record_ok_NoDup|done].
Qed.

Lemma local_ok h p q r f : local h p q r f -> record_ok r = true.
Proof. intros (d & _ & Ha & Hn & Hok). by eapply agree_ok. Qed.

Lemma local_agree h p q r r' f : NoDup r'.*1 -> agree r r' -> local h p q r f -> local h p q r' f.
Proof. intros Hn Ha (d & H & Hd & _ & Hok). exists d. split; [done|]. split; [by etransitivity|done]. Qed.

Lemma local_scope h p q r f project repository : local h p q r f -> local h p q (with_scope project repository r) f.
Proof.
  intros H. eapply local_agree; [|apply agree_scope|exact H]. apply dict_update_NoDup. by destruct H as (? & _ & _ & ? & _).
Qed.

Lemma keeps_stored_record h p q r :
  keeps (local h p q r) (stored_record sha256 self h p q) (fun d f => local h p q r f /\ holds f "workflow" h p q d /\ agree d r).
Proof.
  intros w x w' Hg Hl H. pose proof Hl as (d & Hh & Ha & _). unfold stored_record, reading in H. injection H as <- <-.
  split; [by apply proceeds_refl|]. intros d' Hd'.
  apply (get_holds sha256 self) in Hd' as [Hh' _]; [|by apply good_ok].
  by rewrite (holds_unique sha256 self _ _ _ _ _ _ _ _ _ Hh Hh').
Qed.

Lemma keeps_stored_any h p q :
  keeps always (stored_record sha256 self h p q) (fun d f => holds f "workflow" h p q d).
Proof.
  intros w x w' Hg _ H. unfold stored_record, reading in H. injection H as <- <-. split; [by apply proceeds_refl|].
  intros d Hd. apply (get_holds sha256 self) in Hd as [Hh _]; [done|by apply good_ok].
Qed.

(** ** Writing *)

Lemma set_entry_follows es h data :
  entries_ok es -> records_ok es -> record_ok data = true ->
  (forall e, e ∈ es -> key_of e = ("workflow", identity "workflow" h) -> moves e.(e_data) data /\ intents_kept e.(e_data) data) ->
  let es' := set_entry "workflow" h (with_data data now) es in records_ok es' /\ follows es es'.
Proof.
  intros Hok Hg Hd Hm es'. split.
  - intros e' He' Hk. apply list_elem_of_fmap in He' as (e & -> & He).
    destruct (has_identity _ _ e); [done|by apply Hg].
  - intros e He Hk. exists (if has_identity "workflow" (identity "workflow" h) e then with_data data now e else e).
    split; [apply list_elem_of_fmap; by exists e|]. destruct (has_identity _ _ e) eqn:Hi; [|by split_and!].
    split; [done|]. cbn. apply Hm; [done|]. by apply has_identity_spec.
Qed.

Lemma append_follows es l :
  (forall e, e ∈ l -> e.(e_kind) = "workflow" -> record_ok e.(e_data) = true) -> records_ok es ->
  records_ok (es ++ l) /\ follows es (es ++ l).
Proof.
  intros Hl Hg. split.
  - intros e [He|He]%elem_of_app Hk; [by apply Hg|by apply Hl].
  - intros e He _. exists e. split; [apply elem_of_app; by left|]. split; [done|]. split; reflexivity.
Qed.

Lemma keeps_mutate {A} (P : option file -> Prop) (fn : list entry -> result (A * list entry * bool)) Q :
  (forall f es a es' changed, P f -> _read f = Ok es -> entries_ok es -> records_ok es -> fn es = Ok (a, es', changed) ->
     if changed : bool
     then ((length es <= _MAX_RECORDS)%nat -> Forall timed es -> next_entries sha256 self es es') /\ records_ok es' /\ follows es es' /\
          (entries_ok es' -> forall f', _read f' = Ok es' -> Q a f')
     else Q a f) ->
  keeps P (stored (_mutate float_repr fn)) Q.
Proof.
  intros Hfn [f n] r w' Hg HP H. unfold stored in H. cbn [fst snd] in *.
  destruct (_mutate float_repr fn f) as [r1 f'] eqn:Hm. injection H as <- <-. cbn [fst].
  destruct Hg as (es & Hr & Hok & Hrs).
  destruct (mutate_cases _ _ _ _ _ Hm) as [[-> Hread]|(es0 & a & es' & file & Hr0 & Hf & Hw & -> & ->)].
  - split; [apply proceeds_refl; by exists es|]. intros a Ha. destruct (Hread a Ha) as (es0 & es' & Hr0 & Hf).
    rewrite Hr in Hr0. apply Ok_inj in Hr0 as <-. exact (Hfn f es a es' false HP Hr Hok Hrs Hf).
  - rewrite Hr in Hr0. apply Ok_inj in Hr0 as <-. destruct (read_bounds _ _ Hr) as [Hl Ht].
    destruct (Hfn f es a es' true HP Hr Hok Hrs Hf) as (Hnext & Hrs' & Hfol & HQ). destruct (Hnext Hl Ht) as [Hok' _ Hl' Ht'].
    pose proof (read_written float_repr es' file Hl' Ht' Hw) as Hr'. split.
    + split; [by exists es'|]. intros a1 a2 H1 H2. rewrite Hr in H1. rewrite Hr' in H2. by apply Ok_inj in H1 as <-, H2 as <-.
    + intros b [= <-]. by apply HQ.
Qed.

Lemma next_set_entry es h data :
  entries_ok es -> (length es <= _MAX_RECORDS)%nat -> Forall timed es ->
  next_entries sha256 self es (set_entry "workflow" h (with_data data now) es).
Proof. by apply set_entry_next. Qed.

(** Replacing the data of the record under a handle. *)
Lemma replaced f es h p q d e data :
  _read f = Ok es -> entries_ok es -> records_ok es -> holds f "workflow" h p q d ->
  _find sha256 self es "workflow" h p q = Ok (Some e) -> record_ok data = true -> moves d data -> intents_kept d data ->
  let es' := set_entry "workflow" h (with_data data now) es in
  e.(e_data) = d /\
  ((length es <= _MAX_RECORDS)%nat -> Forall timed es -> next_entries sha256 self es es') /\ records_ok es' /\ follows es es' /\
  (entries_ok es' -> forall f', _read f' = Ok es' -> holds f' "workflow" h p q data).
Proof.
  intros Hr Hok Hrs (es0 & e0 & Hr0 & _ & He0 & Hk0 & Hs0 & <-) Hf Hd Hm Hi es'. rewrite Hr in Hr0. apply Ok_inj in Hr0 as <-.
  pose proof (find_unique sha256 self es "workflow" h p q e e0 Hok Hf He0 Hk0) as ->.
  split; [done|]. split; [intros; by apply set_entry_next|].
  destruct (set_entry_follows es h data Hok Hrs Hd) as [H1 H2].
  { intros e' He' Hk'. by rewrite (find_unique sha256 self es "workflow" h p q e e' Hok Hf He' Hk'). }
  split; [done|]. split; [done|]. intros Hok' f' Hr'.
  destruct (set_entry_holds sha256 self es "workflow" h p q now data data e) as (e' & He' & Hk' & Hs' & Hd'); try done.
  by exists es', e'.
Qed.

(** [atomic_update]: the callback leaves the record alone or changes it well. *)
Lemma keeps_atomic h p q r fn :
  (forall d d' changed, agree d r -> record_ok d = true -> fn d = Ok (d', changed) ->
     if changed : bool then record_ok d' = true /\ moves d d' /\ intents_kept d d' else d' = d) ->
  keeps (local h p q r) (stored (atomic_update float_repr sha256 self "workflow" h p q fn now))
    (fun d' f => holds f "workflow" h p q d' /\ exists d changed, agree d r /\ record_ok d = true /\ fn d = Ok (d', changed)).
Proof.
  intros Hfn. apply keeps_mutate. intros f es a es' changed (d & Hh & Ha & Hn & Hok) Hr Heok Hrs H.
  apply result_bind_ok in H as (o & Hf & H). apply result_bind_ok in H as (e & Ho & H).
  destruct o as [e0|]; [|discriminate]. apply Ok_inj in Ho as ->. apply result_bind_ok in H as ([data c] & Hdata & H).
  cbv beta iota in H. simplify_eq.
  assert (e.(e_data) = d) as Hed.
  { destruct Hh as (es0 & e0 & Hr0 & _ & He0 & Hk0 & _ & <-). rewrite Hr in Hr0. apply Ok_inj in Hr0 as <-.
    by rewrite (find_unique sha256 self es "workflow" h p q e e0 Heok Hf He0 Hk0). }
  rewrite Hed in Hdata. specialize (Hfn d a changed Ha Hok Hdata). destruct changed.
  - destruct Hfn as (H1 & H2 & H3). destruct (replaced f es h p q d e a Hr Heok Hrs Hh Hf H1 H2 H3) as (_ & Hx & Hy & Hz & Hw).
    split; [done|]. split; [done|]. split; [done|]. intros Hok' f' Hr'. split; [by apply Hw|]. by exists d, true.
  - rewrite Hfn. split; [done|]. exists d, false. split; [done|]. split; [done|]. by rewrite Hdata, Hfn.
Qed.

(** The local record has the journalled intents. *)
Definition synced (h p q : string) (r : pydict) (f : option file) : Prop :=
  exists d, holds f "workflow" h p q d /\ dict_get "phase_intents" r = dict_get "phase_intents" d.

(** [_update]: a good change of the record, or any that agrees with it. *)
Lemma keeps_update_gen (P : option file -> Prop) h p q r changes r' :
  NoDup r'.*1 -> (forall d, agree d r -> record_ok d = true -> agree r' (dict_update d changes)) ->
  (record_ok r = true -> record_ok r' = true /\ moves r r') ->
  (forall f d, P f -> holds f "workflow" h p q d -> NoDup d.*1 -> intents_kept d (dict_update d changes)) ->
  keeps (fun f => P f /\ local h p q r f) (_update float_repr sha256 self now h p q changes)
    (fun d f => holds f "workflow" h p q d /\ agree r' d /\ local h p q r' f).
Proof.
  intros Hnd Hag Hgood Hint. unfold _update, update.
  destruct (_bounded_mapping _ _ _ _) as [c|] eqn:Hb.
  2: { intros w x w' Hg HP H. unfold stored in H. cbv beta iota in H. injection H as <- <-. split; [by apply proceeds_refl|done]. }
  apply bounded_mapping_id in Hb as [-> _]. apply keeps_mutate.
  intros f es a es' changed [HP Hl] Hr Heok Hrs H. pose proof (local_ok _ _ _ _ _ Hl) as Hrok. destruct Hl as (d & Hh & Ha & Hn & Hok).
  apply result_bind_ok in H as (o & Hf & H). apply result_bind_ok in H as (e & Ho & H).
  destruct o as [e0|]; [|discriminate]. apply Ok_inj in Ho as ->. cbv zeta in H. simplify_eq.
  assert (e.(e_data) = d) as Hed.
  { destruct Hh as (es0 & e0 & Hr0 & _ & He0 & Hk0 & _ & <-). rewrite Hr in Hr0. apply Ok_inj in Hr0 as <-.
    by rewrite (find_unique sha256 self es "workflow" h p q e e0 Heok Hf He0 Hk0). }
  rewrite Hed in *. destruct (Hgood Hrok) as [Hok' Hm]. specialize (Hag d Ha Hok).
  assert (NoDup (dict_update d changes).*1) as Hnd' by (apply dict_update_NoDup; by eapply record_ok_NoDup).
  assert (record_ok (dict_update d changes) = true) as Hok1 by by eapply agree_ok.
  destruct (replaced f es h p q d e (dict_update d changes) Hr Heok Hrs Hh Hf Hok1) as (_ & Hx & Hy & Hz & Hw).
  { eapply agree_moves; [symmetry; exact Ha|exact Hag|exact Hm]. }
  { eapply Hint; [exact HP|exact Hh|by eapply record_ok_NoDup]. }
  split; [done|]. split; [done|]. split; [done|]. intros Hok2 f' Hr'. specialize (Hw Hok2 f' Hr').
  split; [done|]. split; [done|]. exists (dict_update d changes). split; [done|]. split; [by symmetry|done].
Qed.

(** The local record is well formed, for the proof of a triple. *)
Lemma keeps_local {A} h p q r (m : M A) Q :
  (record_ok r = true -> keeps (local h p q r) m Q) -> keeps (local h p q r) m Q.
Proof. intros H w x w' Hg HP. apply (H (local_ok _ _ _ _ _ HP) w x w' Hg HP). Qed.

Lemma keeps_update h p q r c :
  (record_ok r = true -> good_change r c) ->
  keeps (local h p q r) (_update float_repr sha256 self now h p q c)
    (fun d f => holds f "workflow" h p q d /\ agree (dict_update r c) d /\ local h p q (dict_update r c) f).
Proof.
  intros Hc. apply keeps_local. intros Hok. destruct (Hc Hok) as (Hn & Hi & H1 & H2).
  eapply (keeps_pre (fun f => always f /\ local h p q r f)); [by intros f _ Hl|].
  apply keeps_update_gen; [|intros d Ha _; by apply agree_update|done|intros f d _ _ _; by apply intents_update].
  apply dict_update_NoDup. by eapply record_ok_NoDup.
Qed.

Lemma keeps_update_record h p q r c :
  (record_ok r = true -> good_change r c) ->
  keeps (local h p q r) (update_record float_repr sha256 self now h p q c) (fun _ f => local h p q (dict_update r c) f).
Proof.
  intros Hc. unfold update_record. eapply keeps_bind; [by apply keeps_update|]. intros d. cbv beta.
  eapply keeps_weaken; [apply keeps_ret|cbn; intros f _ Hl; exact Hl|]. by intros u f _ (_ & _ & _ & ?).
Qed.

(** An update of a handle of which nothing is known: it is there, or the update is refused. *)
Lemma keeps_update_found h p q c :
  (forall r, record_ok r = true -> good_change r c) ->
  keeps always (update_record float_repr sha256 self now h p q c) anything.
Proof.
  intros Hc [f n] r w' Hg _ H. cbn [fst] in *.
  assert (forall es d f', _read f = Ok es -> entries_ok es -> records_ok es ->
    update float_repr sha256 self "workflow" h p q c now f = (Ok d, f') -> exists r0, local h p q r0 f) as Hfound.
  { intros es d f' Hr Hok Hrs Hu. unfold update in Hu. destruct (_bounded_mapping _ _ _ _) as [c'|]; [|discriminate].
    assert (exists a, (o ← _find sha256 self es "workflow" h p q; e ← found o;
       let data := dict_update e.(e_data) c' in Ok (data, set_entry "workflow" h (with_data data now) es, true)) = Ok a) as [a Ha].
    { destruct (mutate_cases _ _ _ _ _ Hu) as [[_ Hread]|(es0 & a & es1 & file & Hr0 & Hf & _)].
      - destruct (Hread d eq_refl) as (es0 & es1 & Hr0 & Hf). rewrite Hr in Hr0. apply Ok_inj in Hr0 as <-. by eexists.
      - rewrite Hr in Hr0. apply Ok_inj in Hr0 as <-. by eexists. }
    apply result_bind_ok in Ha as ([e|] & He & Ha); [|discriminate].
    pose proof (find_spec sha256 self es "workflow" h p q _ Hok He) as (Hin & Hk & Hs).
    exists (e_data e). apply local_holds; [by exists es|]. by exists es, e. }
  destruct (update float_repr sha256 self "workflow" h p q c now f) as [[d|x] f'] eqn:Hu.
  - destruct Hg as (es & Hr & Hok & Hrs). destruct (Hfound es d f' Hr Hok Hrs eq_refl) as [r0 Hl].
    assert (keeps (local h p q r0) (update_record float_repr sha256 self now h p q c) anything) as Hk
      by (eapply keeps_any, keeps_update_record; intros Hrok; by apply Hc).
    apply (Hk (f, n) r w'); [by exists es|exact Hl|exact H].
  - assert (w' = (f', n)) as ->.
    { unfold update_record, bind, _update, stored in H. cbn [fst snd] in H. rewrite Hu in H. by injection H as _ <-. }
    assert (f' = f) as ->; [|by split; [apply proceeds_refl|]].
    unfold update in Hu. destruct (_bounded_mapping _ _ _ _); [|by injection Hu as _ <-].
    by destruct (mutate_cases _ _ _ _ _ Hu) as [[-> _]|(? & ? & ? & ? & _ & _ & _ & [=] & _)].
Qed.

(** The whole local record, changed, is written back, with the intents it has. *)
Lemma keeps_update_whole h p q r c :
  (record_ok r = true -> good_change r c) ->
  keeps (fun f => synced h p q r f /\ local h p q r f) (update_record float_repr sha256 self now h p q (dict_update r c))
    (fun _ f => local h p q (dict_update r c) f).
Proof.
  intros Hc w x w' Hg HP. pose proof (local_ok _ _ _ _ _ (proj2 HP)) as Hok. revert w x w' Hg HP.
  change (keeps (fun f => synced h p q r f /\ local h p q r f) (update_record float_repr sha256 self now h p q (dict_update r c))
    (fun _ f => local h p q (dict_update r c) f)). destruct (Hc Hok) as (Hn & Hi & H1 & H2).
  pose proof (record_ok_NoDup _ _ Hok) as Hr. unfold update_record. eapply keeps_bind.
  - apply (keeps_update_gen (synced h p q r) h p q r (dict_update r c) (dict_update r c)); [by apply dict_update_NoDup| |done|].
    + intros d Ha _. by apply agree_absorb.
    + intros f d (d0 & Hd0 & E) Hd _. rewrite (holds_unique sha256 self _ _ _ _ _ _ _ _ _ Hd Hd0) in E. apply intents_same.
      rewrite dict_get_update by by apply dict_update_NoDup. rewrite dict_get_update by done.
      apply dict_get_None in Hi as ->. rewrite E. by destruct (dict_get "phase_intents" d).
  - intros d. eapply keeps_weaken; [apply keeps_ret|cbn; intros f _ Hl; exact Hl|]. by intros u f _ (_ & _ & _ & ?).
Qed.

(** ** Native calls *)

Lemma keeps_invoke P tool record arguments :
  keeps P (_invoke (native host) tool record arguments) (fun _ f => P f).
Proof.
  intros w r w' Hg HP H. pose proof (invoke_file _ _ _ _ _ _ _ H) as Hf. rewrite Hf.
  split; [by apply proceeds_refl|done].
Qed.

Lemma keeps_observe P project repository :
  keeps P (observe_revision py_str (native host) project repository) (fun _ f => P f).
Proof.
  intros w r w' Hg HP H. pose proof (observe_file _ _ _ _ _ _ _ H) as Hf. rewrite Hf.
  split; [by apply proceeds_refl|done].
Qed.

Lemma intents_change d v :
  record_ok d = true -> record_ok (dict_set "phase_intents" v d) = true /\ moves d (dict_set "phase_intents" v d).
Proof.
  intros H. pose proof (agree_intents v d) as Ha. split.
  - eapply agree_ok; [exact Ha| |done]. apply dict_set_NoDup. by eapply record_ok_NoDup.
  - eapply agree_moves; [reflexivity|exact Ha|reflexivity].
Qed.

(** A callback that only journals intents. *)
Definition journals (fn : pydict -> result (pydict * bool)) : Prop :=
  forall d d' changed, fn d = Ok (d', changed) ->
    if changed : bool then (exists v, d' = dict_set "phase_intents" v d) /\ intents_kept d d' else d' = d.

Lemma persist_changes name digest key revision : journals (persist name digest key revision).
Proof.
  unfold persist. intros d d' changed H. apply result_bind_ok in H as (intents & Hi & H).
  destruct (field name intents) eqn:Hf; try discriminate.
  - simplify_eq. split; [by eexists|]. apply intents_set.
    + intros l Hl. unfold intents_of, dict_get_default in Hi. rewrite Hl in Hi. by apply Ok_inj in Hi.
    + intros i Hn. exfalso. unfold intent_of in Hn. unfold intents_of, dict_get_default in Hi.
      destruct (dict_get "phase_intents" d) as [[]|]; try discriminate. apply Ok_inj in Hi as ->.
      unfold field, dict_get_default in Hf. destruct (dict_get name intents) as [[]|]; discriminate.
  - apply result_bind_ok in H as (u & _ & H). by simplify_eq.
Qed.

Lemma refresh_changes handle name payload digest revision :
  journals (refresh float_repr sha256 handle name payload digest revision).
Proof.
  unfold refresh. intros d d' changed H. destruct (dict_get "phase_intents" d) as [[]|] eqn:Hi; try discriminate.
  destruct (dict_get name d0) as [[]|] eqn:Hn; try discriminate. apply result_bind_ok in H as (u & _ & H).
  destruct (dict_get_default "generation" _ _) eqn:Hgen; try discriminate. apply result_bind_ok in H as (u' & _ & H).
  destruct (eq_int _ _); [by simplify_eq|]. apply result_bind_ok in H as (key & _ & H). cbv zeta in H. simplify_eq.
  split; [by eexists|]. apply intents_set; [congruence|]. intros i Hi'. unfold intent_of in Hi'. rewrite Hi, Hn in Hi'. injection Hi' as <-.
  eexists. split; [reflexivity|]. split; [by rewrite !field_set_ne|]. right. split.
  - unfold generation, dict_get_default. rewrite dict_get_set_eq. unfold dict_get_default in Hgen. rewrite Hgen. apply Z.lt_succ_diag_r.
  - exists key, revision. split; [by rewrite field_set_ne, field_set_eq by done|by do 2 rewrite field_set_ne by done; rewrite field_set_eq].
Qed.

(** Merging what the journal holds into the local record. *)
Lemma agree_merge d r : NoDup d.*1 -> agree d r -> agree r (dict_update r d).
Proof.
  intros Hd Ha k Hk. rewrite field_update by done. destruct (dict_get k d) as [v|] eqn:Hg; [|done].
  rewrite (Ha k Hk). by rewrite (field_some _ _ _ Hg).
Qed.

Lemma local_merge h p q r d f :
  good f -> local h p q r f -> holds f "workflow" h p q d -> agree d r -> local h p q (dict_update r d) f /\ agree r (dict_update r d).
Proof.
  intros Hg Hl Hh Ha. pose proof (record_ok_NoDup _ _ (holds_record_ok _ _ _ _ _ Hg Hh)) as Hd.
  pose proof (agree_merge d r Hd Ha) as Hm. split; [|done].
  eapply local_agree; [|exact Hm|exact Hl]. apply dict_update_NoDup. by destruct Hl as (? & _ & _ & ? & _).
Qed.

Lemma keeps_intents h p q r fn :
  journals fn ->
  keeps (local h p q r) (stored (atomic_update float_repr sha256 self "workflow" h p q fn now))
    (fun d f => local h p q r f /\ (local h p q (dict_update r d) f /\ agree r (dict_update r d)) /\ holds f "workflow" h p q d).
Proof.
  intros Hfn. apply keeps_local. intros Hrok. eapply keeps_post; [|apply keeps_atomic].
  - intros d' f Hg (Hh & d & changed & Ha & Hok & Hd). specialize (Hfn _ _ _ Hd).
    assert (agree d d') as Hdd by (destruct changed; [destruct Hfn as [[v ->] _]; apply agree_intents|rewrite Hfn; reflexivity]).
    assert (agree d' r) as Hr by (etransitivity; [symmetry; exact Hdd|exact Ha]).
    assert (local h p q r f) as Hl.
    { eapply local_agree; [by eapply record_ok_NoDup|exact Hr|by eapply local_holds]. }
    split; [done|]. split; [by apply local_merge|done].
  - intros d d' changed Ha Hok Hd. specialize (Hfn _ _ _ Hd). destruct changed; [|done].
    destruct Hfn as [[v ->] Hk]. split; [by apply intents_change|]. split; [by apply intents_change|done].
Qed.

(** The same, of a record of which nothing is known. *)
Lemma keeps_journals h p q fn :
  journals fn -> keeps always (stored (atomic_update float_repr sha256 self "workflow" h p q fn now)) anything.
Proof.
  intros Hfn. unfold atomic_update. apply keeps_mutate. intros f es a es' changed _ Hr Heok Hrs H. destruct changed; [|done].
  apply result_bind_ok in H as (o & Hf & H). apply result_bind_ok in H as (e & Ho & H).
  destruct o as [e0|]; [|discriminate]. apply Ok_inj in Ho as ->. apply result_bind_ok in H as ([data c] & Hdata & H).
  cbv beta iota in H. simplify_eq. destruct (Hfn _ _ _ Hdata) as [[v Hv] Hk].
  destruct (find_spec sha256 self es "workflow" h p q _ Heok Hf) as (He & Hke & Hs).
  assert (record_ok e.(e_data) = true) as Hok by (apply Hrs; [done|by injection Hke]).
  destruct (intents_change e.(e_data) v Hok) as [H1 H2]. rewrite <-Hv in H1, H2.
  destruct (replaced f es h p q e.(e_data) e a) as (_ & Hx & Hy & Hz & _); try done. by exists es, e.
Qed.

(** A phase that is answered has its intent journalled, and the merged record has it too. *)
Lemma synced_merge f h p q r digest d intents name kr :
  good f -> holds f "workflow" h p q d -> intents_of d = Ok intents -> read_intent digest (field name intents) = Ok kr ->
  synced h p q (dict_update r d) f.
Proof.
  intros Hg Hd Hi Hr. exists d. split; [done|]. rewrite dict_get_update by by eapply record_ok_NoDup, holds_record_ok.
  unfold intents_of, dict_get_default in Hi. destruct (dict_get "phase_intents" d); [done|]. apply Ok_inj in Hi as <-. discriminate.
Qed.

(** What a phase leaves of the record the caller goes on with. *)
Definition phase_post (h p q : string) (r r' : pydict) (f : option file) : Prop :=
  (local h p q r' f /\ agree r r') /\ synced h p q r' f.

Lemma keeps_phase_intent h p q r name tool arguments er ik :
  keeps (local h p q r) (_phase_intent float_repr sha256 py_str (native host) self now h p q r name tool arguments er ik)
    (fun x f => phase_post h p q r x.2 f).
Proof.
  unfold _phase_intent. eapply keeps_bind; [apply keeps_lift|intros payload; apply keeps_pure; intros _].
  eapply keeps_bind; [apply keeps_lift|intros digest; apply keeps_pure; intros _].
  eapply keeps_bind; [apply keeps_stored_record|intros latest]. cbv beta.
  eapply keeps_bind; [apply keeps_lift|intros intents; apply keeps_pure; intros Hi].
  assert (keeps (fun f => local h p q r f /\ holds f "workflow" h p q latest /\ agree latest r)
    (bind (lift (read_intent digest (field name intents))) (fun kr => ret (kr, dict_update r latest)))
    (fun x f => phase_post h p q r x.2 f)) as Hhit.
  { eapply keeps_bind; [apply keeps_lift|intros kr; apply keeps_pure; intros Hkr].
    eapply keeps_post; [|apply keeps_ret]. intros x f Hg (-> & Hl & Hh & Ha).
    split; [by apply local_merge|by eapply synced_merge]. }
  destruct (field name intents); try exact Hhit. clear Hhit.
  eapply (keeps_pre (local h p q r)); [by intros f _ [? _]|].
  eapply (keeps_bind _ _ _ (fun _ => local h p q r)).
  { destruct er; [apply keeps_observe|..]; (eapply keeps_post; [|apply keeps_ret]; by intros ? ? _ [_ ?]). }
  intros expected.
  eapply keeps_bind; [apply keeps_lift|intros revision; apply keeps_pure; intros _].
  eapply keeps_bind; [apply keeps_lift|intros key; apply keeps_pure; intros _].
  eapply keeps_bind; [apply keeps_intents, persist_changes|intros current].
  eapply keeps_bind; [apply keeps_lift|intros ints; apply keeps_pure; intros Hints].
  eapply keeps_bind; [apply keeps_lift|intros kr; apply keeps_pure; intros Hkr].
  eapply keeps_post; [|apply keeps_ret]. intros x f Hg (-> & _ & Hl & Hh). split; [exact Hl|by eapply synced_merge].
Qed.

(** Whatever record the caller has. *)
Lemma keeps_phase_intent_any h p q r name tool arguments er ik :
  keeps always (_phase_intent float_repr sha256 py_str (native host) self now h p q r name tool arguments er ik) anything.
Proof.
  unfold _phase_intent. eapply keeps_bind; [apply keeps_lift|intros payload; apply keeps_pure; intros _].
  eapply keeps_bind; [apply keeps_lift|intros digest; apply keeps_pure; intros _].
  eapply keeps_bind; [apply keeps_stored_any|intros latest]. eapply (keeps_pre always); [done|].
  eapply keeps_bind; [apply keeps_lift|intros intents; apply keeps_pure; intros _].
  assert (keeps always (bind (lift (read_intent digest (field name intents))) (fun kr => ret (kr, dict_update r latest))) anything) as Hhit.
  { eapply keeps_bind; [apply keeps_lift|intros kr; eapply keeps_any, keeps_ret]. }
  destruct (field name intents); try exact Hhit. clear Hhit.
  eapply (keeps_bind _ _ _ (fun _ => always)).
  { destruct er; [eapply keeps_post; [|apply keeps_observe]; done|..]; (eapply keeps_post; [|apply keeps_ret]; done). }
  intros expected.
  eapply keeps_bind; [apply keeps_lift|intros revision; apply keeps_pure; intros _].
  eapply keeps_bind; [apply keeps_lift|intros key; apply keeps_pure; intros _].
  eapply keeps_bind; [apply keeps_journals, persist_changes|intros current].
  eapply keeps_bind; [apply keeps_lift|intros ints; apply keeps_pure; intros _].
  eapply keeps_bind; [apply keeps_lift|intros kr; eapply keeps_any, keeps_ret].
Qed.

Lemma keeps_send_phase h p q r name tool arguments er ik :
  keeps (local h p q r) (send_phase float_repr sha256 py_str (native host) self now h p q r name tool arguments er ik)
    (fun x f => phase_post h p q r x.2 f).
Proof.
  unfold send_phase. eapply keeps_bind; [apply keeps_phase_intent|intros [kr r']]. cbn [snd].
  eapply keeps_bind; [apply keeps_invoke|intros result].
  eapply keeps_post; [|apply keeps_ret]. by intros x f _ (-> & H).
Qed.

Lemma keeps_refresh h p q r name tool arguments :
  keeps (local h p q r) (_refresh_phase_intent float_repr sha256 py_str (native host) self now h p q r name tool arguments)
    (fun r' f => local h p q r' f /\ agree r r').
Proof.
  unfold _refresh_phase_intent. eapply keeps_bind; [apply keeps_observe|intros observed].
  eapply keeps_bind; [apply keeps_lift|intros revision; apply keeps_pure; intros _].
  eapply keeps_bind; [apply keeps_lift|intros digest; apply keeps_pure; intros _].
  eapply keeps_bind; [apply keeps_intents, refresh_changes|intros current].
  eapply keeps_post; [|apply keeps_ret]. by intros x f _ (-> & _ & Hl & _).
Qed.

(** A phase changes nothing of the record but its intents, which the caller then has. *)
Lemma keeps_invoke_phase_synced h p q r name tool arguments er ik :
  keeps (local h p q r) (_invoke_phase float_repr sha256 py_str (native host) self now h p q r name tool arguments er ik)
    (fun x f => phase_post h p q r x.2 f).
Proof.
  unfold _invoke_phase. eapply keeps_bind; [apply keeps_send_phase|intros [result r1]]. cbn [snd].
  destruct (stale result).
  - eapply (keeps_pre (fun f => agree r r1 /\ local h p q r1 f)); [by intros f _ [[] _]|apply keeps_pure; intros Ha].
    eapply keeps_bind; [apply keeps_refresh|intros r2].
    eapply (keeps_pre (fun f => agree r1 r2 /\ local h p q r2 f)); [by intros f _ []|apply keeps_pure; intros Ha2].
    eapply keeps_post; [|apply keeps_send_phase]. intros [x r3] f _ [[Hl Ha3] Hs]. cbn in *. split; [|done]. split; [done|].
    etransitivity; [exact Ha|]. etransitivity; [exact Ha2|exact Ha3].
  - eapply keeps_post; [|apply keeps_ret]. by intros x f _ (-> & H).
Qed.

Lemma keeps_invoke_phase h p q r name tool arguments er ik :
  keeps (local h p q r) (_invoke_phase float_repr sha256 py_str (native host) self now h p q r name tool arguments er ik)
    (fun x f => local h p q x.2 f /\ agree r x.2).
Proof. eapply keeps_post; [|apply keeps_invoke_phase_synced]. by intros x f _ [H _]. Qed.

(** The same, for a caller that goes on with the record it had. *)
Lemma keeps_invoke_phase_same h p q r name tool arguments er ik :
  keeps (local h p q r) (_invoke_phase float_repr sha256 py_str (native host) self now h p q r name tool arguments er ik)
    (fun _ f => local h p q r f).
Proof.
  apply keeps_local. intros Hok. eapply keeps_post; [|apply keeps_invoke_phase].
  intros x f _ [Hl Ha]. eapply local_agree; [by eapply record_ok_NoDup|symmetry; exact Ha|done].
Qed.

End Logic.

#[global] Arguments keeps_pre {_ _ _ _ _} P P' m Q _ _.
#[global] Arguments keeps_post {_ _ _ _ _} P m Q Q' _ _.
#[global] Arguments keeps_weaken {_ _ _ _ _} P P' m Q Q' _ _ _.
#[global] Arguments keeps_bind {_ _ _ _ _ _} P m k Q S _ _.

(** One construct of the monad at a time. *)
Tactic Notation "wp_lift" ident(x) ident(H) := eapply keeps_bind; [apply keeps_lift|intros x; apply keeps_pure; intros H].
Tactic Notation "wp_check" ident(H) := eapply keeps_bind; [apply keeps_check|intros ?; apply keeps_pure; intros H].
Tactic Notation "wp" constr(L) ident(x) := eapply keeps_bind; [apply L|intros x; cbv beta].
Ltac wp_done := eapply keeps_any; (apply keeps_ret || apply keeps_lift || apply keeps_raise).
