(* ===== verification/WorkflowProps.v ===== *)
(** * Running and finishing an attempt: what each operation keeps

    Triples for lease renewal, resumption, gates and finishing. *)

From Stdlib Require Import ZArith SpecFloat.
From stdpp Require Import relations.
From S2P Require Import Prelude PyValue Text Json Journal JournalProps Phases PhaseProps Workflow Records WorkflowLogic.
Import Journal Phases Workflow Records.

#[local] Open Scope string_scope.
#[local] Open Scope Z_scope.
#[local] Open Scope list_scope.

Section Props.
Context (float_repr : spec_float -> string) (sha256 : string -> string) (py_str : pyval -> string).
Context {N0 : Type} (host : string -> string -> string -> pydict -> N0 -> result pyval * N0).
Context (self : actor) (now : pyval) (Hnow : is_number now = true).
#[local] Abbreviation record_ok := (record_ok float_repr).
#[local] Abbreviation good_change := (good_change float_repr).
#[local] Abbreviation holds := (holds sha256 self).
#[local] Abbreviation keeps := (keeps float_repr sha256 self (N0:=N0)).
#[local] Abbreviation local := (local float_repr sha256 self).
#[local] Abbreviation update_record := (update_record float_repr sha256 self now).
#[local] Abbreviation invoke_phase := (_invoke_phase float_repr sha256 py_str (native host) self now).

Definition known (h p q : string) (f : option file) : Prop := exists r, local h p q r f.

Lemma local_known h p q r f : local h p q r f -> known h p q f.
Proof. intros H. by exists r. Qed.

Lemma keeps_respond P value : keeps P (respond float_repr value) anything.
Proof. wp_done. Qed.

Lemma keeps_workers P handle : keeps P (_ensure_lease_renewal handle) (fun _ f => P f).
Proof. intros w r w' Hg HP [= <- <-]. split; [by apply proceeds_refl|done]. Qed.

Lemma keeps_stop P handle : keeps P (_stop_lease_renewal handle) (fun _ f => P f).
Proof. intros w r w' Hg HP [= <- <-]. split; [by apply proceeds_refl|done]. Qed.

(** ** Leases *)

(** A new lease, while the attempt runs. *)
Lemma lease_change r p c lease :
  record_ok r = true -> field "phase" r = PStr p -> p ∈ ["active"; "context_pending"] -> is_review r = false ->
  NoDup c.*1 -> dict_get "lease_id" c = Some (PStr lease) -> lease <> "" ->
  untouched c.*1 (List.filter (fun k => negb (String.eqb k "lease_id")) spoken_for) = true ->
  good_change r c.
Proof.
  intros Hok Hp Hin Hr Hc Hl Hne Hu. pose proof (record_ok_facts float_repr r p Hok Hp) as (facts & Hf & Hall).
  apply (change_same float_repr r c p facts); try done.
  - eapply untouched_subset; [exact Hu|]. rewrite Hr. set_unfold in Hin. destruct Hin as [->|[->|[]]]; compute_decide.
  - intros x Hx. destruct (decide (x = FAttempt)) as [->|Hxne].
    + right. cbn [Records.fact_holds forallb]. rewrite (text_at_some _ "lease_id" lease); [|by rewrite field_update, Hl|done].
      specialize (Hall FAttempt Hx). cbn [Records.fact_holds forallb] in Hall. apply andb_true_iff in Hall as [Ha _].
      unfold text_at in *. rewrite field_update_ne; [by rewrite Ha|done|].
      eapply untouched_spec; [exact Hu|]. compute_decide.
    + left. eapply untouched_subset; [exact Hu|]. rewrite Hr in Hf.
      assert (x = FTask \/ x = FContext) as [-> | ->]; [|compute_decide..].
      set_unfold in Hin. destruct Hin as [->|[->|[]]]; cbv in Hf; injection Hf as <-; set_unfold in Hx; naive_solver.
Qed.

Lemma keeps_update_plain h p q r c :
  NoDup c.*1 -> untouched c.*1 spoken_for = true ->
  keeps (local h p q r) (update_record h p q c) (fun _ f => local h p q (dict_update r c) f).
Proof. intros Hc Hu. apply keeps_update_record; [done|]. intros Hok. by apply change_plain. Qed.

Lemma nested_text_spec d keys s : _nested_text d keys = Some s -> s <> "".
Proof. intros H. apply text_of_spec in H. by destruct H. Qed.

Lemma keeps_heartbeat h p q r phase :
  field "phase" r = PStr phase -> phase ∈ ["active"; "context_pending"] -> is_review r = false ->
  keeps (local h p q r) (_heartbeat_active float_repr sha256 py_str host self now h p q r) (fun _ => known h p q).
Proof.
  intros Hp Hin Hr. unfold _heartbeat_active.
  assert (forall d : pydict, keeps (local h p q r) (ret d) (fun _ => known h p q)) as Hret.
  { intros d. eapply keeps_post; [|apply keeps_ret]. intros x f _ [_ Hl]. by exists r. }
  destruct (field "attempt_id" r); try apply Hret. destruct (field "lease_id" r); try apply Hret.
  destruct (field "plan_revision_id" r); try apply Hret. destruct (counter _ _) as [g|]; [|apply Hret].
  wp keeps_invoke_phase_same x; [done|]. destruct x as [renewed r']. destruct (needs_attention renewed); [apply Hret|].
  destruct (_nested_text _ _) as [next|] eqn:Hn; [|apply Hret]. apply nested_text_spec in Hn.
  eapply keeps_bind.
  - apply keeps_update_record; [done|]. intros Hok. apply (lease_change r phase _ next); try done; compute_decide.
  - intros u. eapply keeps_post; [|apply keeps_ret]. intros x f _ [_ Hl]. by eexists.
Qed.

Lemma keeps_resume h p q r :
  field "phase" r = PStr "active" -> is_review r = false ->
  keeps (local h p q r) (_resume_active float_repr sha256 py_str host self now h p q r) (fun _ => known h p q).
Proof.
  intros Hp Hr. unfold _resume_active, _resume_active_locked.
  assert (forall d : pydict, keeps (local h p q r) (ret d) (fun _ => known h p q)) as Hret.
  { intros d. eapply keeps_post; [|apply keeps_ret]. intros x f _ [_ Hl]. by exists r. }
  destruct (map _ _) as [|[attempt|] [|[lease|] [|[task|] [|[run|] [|[assignment|] [|[plan|] [|]]]]]]]; try apply Hret.
  wp keeps_invoke inspected. destruct (needs_attention inspected); [apply Hret|].
  destruct (counter _ _) as [g|]; [|apply Hret].
  wp keeps_invoke_phase_same x; [done|]. destruct x as [resumed r']. destruct (needs_attention resumed); [apply Hret|].
  destruct (_nested_text _ _) as [next|] eqn:Hn; [|apply Hret]. apply nested_text_spec in Hn.
  eapply keeps_bind.
  - apply keeps_update_record; [done|]. intros Hok. apply (lease_change r "active" _ next); try done; compute_decide.
  - intros u. eapply keeps_post; [|apply keeps_ret]. intros x f _ [_ Hl]. by eexists.
Qed.

(** One turn of a renewal worker, its error path included. *)
Lemma keeps_renewal h p q :
  keeps always (_lease_renewal_loop float_repr sha256 py_str host self now h p q) anything.
Proof.
  assert (forall v, forall r, record_ok r = true -> good_change r [("renewal_attention", v)]) as Hplain.
  { intros v r Hok. apply change_plain; [done|compute_decide|reflexivity]. }
  assert (keeps always (renewal_turn float_repr sha256 py_str host self now h p q) anything) as Hturn.
  { unfold renewal_turn. wp keeps_stored_any d.
    eapply keeps_bind; [apply keeps_lift|intros live]. apply keeps_pure. intros Hlive. destruct live; cbn [negb]; [|wp_done].
    apply phase_in_spec in Hlive as (phase & Hp & Hin).
    eapply (keeps_pre (local h p q d)); [intros f Hg Hh; by apply local_holds|]. apply keeps_local. intros Hok.
    assert (is_review d = false) as Hr.
    { eapply record_ok_authoring; [exact Hok|exact Hp|]. set_unfold in Hin. by destruct Hin as [->|[->|[]]]. }
    wp (keeps_heartbeat h p q d phase Hp Hin Hr) renewed. destruct (needs_attention renewed); [|wp_done].
    eapply (keeps_pre always); [done|]. wp keeps_update_found u; [done|apply Hplain|wp_done]. }
  intros [f n] r w' Hg _ H. unfold _lease_renewal_loop in H. case_bool_decide; [|injection H as <- <-; by split; [apply proceeds_refl|]].
  destruct (renewal_turn _ _ _ _ _ _ _ _ _ (f, n)) as [r1 w1] eqn:Ht. destruct (Hturn _ _ _ Hg I Ht) as [H1 _].
  destruct r1 as [[|]|x]; [by injection H as <- <-|by injection H as <- <-|].
  unfold _stop_lease_renewal in H. injection H as <- <-. cbn [fst]. split; [|done].
  eapply proceeds_trans; [exact H1|].
  destruct (update_record h p q [("renewal_attention", PStr "lease_renewal_failed")] w1) as [r2 w2] eqn:Hu.
  eapply (keeps_update_found _ _ _ _ Hnow h p q _ (Hplain _)); [by destruct H1|done|exact Hu].
Qed.

(** ** Gates *)

Lemma keeps_gates h p q r payload :
  keeps (local h p q r) (_run_gates float_repr sha256 py_str host self now h p q r payload) (fun _ f => local h p q r f).
Proof.
  unfold _run_gates, _run_gates_locked. wp_lift requested H1. wp_lift declared H2. wp_check H3. wp_lift intents H4. clear H1 H2 H3.
  assert (forall done, keeps (local h p q r) (run_each float_repr sha256 py_str host self now h p q r intents done requested)
    (fun _ f => local h p q r f)) as Hrun; [|apply Hrun].
  induction requested as [|id ids IH]; intros done; cbn [run_each].
  - eapply keeps_post; [|apply keeps_lift]. by intros ? ? _ [_ ?].
  - wp keeps_invoke_phase_same x; [done|]. destruct x as [result r']. destruct (needs_attention result); [|apply IH].
    eapply keeps_post; [|apply keeps_ret]. by intros ? ? _ [_ ?].
Qed.

(** ** Finishing *)

(** An early answer, or the record of an author to go on with. *)
Definition goes_on (h p q : string) (x : pydict + pydict) (f : option file) : Prop :=
  match x with inl _ => True | inr r => is_review r = false /\ local h p q r f end.

Lemma keeps_stop_here P h p q (d : pydict) : keeps P (ret (inl d)) (goes_on h p q).
Proof. eapply keeps_post; [|apply keeps_ret]. by intros ? ? _ [-> _]. Qed.

Lemma keeps_go_on h p q r : is_review r = false -> keeps (local h p q r) (ret (inr r)) (goes_on h p q).
Proof. intros Hr. eapply keeps_post; [|apply keeps_ret]. by intros ? ? _ [-> ?]. Qed.

Lemma finish_record_shape h action note reason token finish disposition :
  finish_record float_repr sha256 h action disposition note reason token = Ok finish ->
  exists report handback release,
  finish = [("phase", PStr "handback_pending"); ("finish_action", PStr action);
      ("outcome_disposition", opt (outcome_disposition action)); ("finish_note", note); ("finish_reason", reason);
      ("candidate_handle", match outcome_disposition action with Some _ => PStr token | None => PNone end);
      ("report_key", PStr report); ("handback_key", PStr handback); ("release_key", PStr release)].
Proof.
  unfold finish_record. intros H. apply result_bind_ok in H as (report & _ & H). apply result_bind_ok in H as (handback & _ & H).
  apply result_bind_ok in H as (release & _ & H). apply Ok_inj in H as <-. by exists report, handback, release.
Qed.

Lemma opt_refl o : py_eqb (opt o) (opt o) = true.
Proof. destruct o; [apply String.eqb_refl|done]. Qed.

Lemma finish_change r h action disposition note reason token finish :
  record_ok r = true -> field "phase" r = PStr "active" -> is_review r = false -> action ∈ authoring_actions ->
  finish_record float_repr sha256 h action disposition note reason token = Ok finish -> good_change r finish.
Proof.
  intros Hok Hp Hr Ha Hf. apply finish_record_shape in Hf as (report & handback & release & ->).
  apply (change_owed float_repr r _ "active" "handback_pending" false [FFinish] Hok Hp Hr); [reflexivity..|].
  constructor; [|constructor]. cbn [Records.fact_holds]. unfold finish_ok.
  rewrite !field_update by compute_decide. change (dict_get "finish_action" _) with (Some (PStr action)).
  change (dict_get "outcome_disposition" _) with (Some (opt (outcome_disposition action))). cbv iota beta.
  rewrite bool_decide_eq_true_2 by done. apply opt_refl.
Qed.

Lemma keeps_begin_finish h p q r action disposition note reason token :
  field "phase" r = PStr "active" -> is_review r = false -> action ∈ authoring_actions ->
  keeps (local h p q r)
    (begin_finish float_repr sha256 py_str host self now h p q action disposition note reason token r) (goes_on h p q).
Proof.
  intros Hp Hr Ha. unfold begin_finish. wp_check Hc.
  eapply (keeps_bind _ _ _ (fun _ f => local h p q r f)).
  { destruct (String.eqb action "complete"); [by apply keeps_gates|]. eapply keeps_post; [|apply keeps_ret]. by intros ? ? _ [_ ?]. }
  intros gates. destruct (is_status "ok" gates); cbn [negb]; [|apply keeps_stop_here].
  wp keeps_stop u. wp keeps_stored_record d.
  eapply (keeps_pre (fun f => agree d r /\ local h p q d f)).
  { intros f Hg (Hl & Hh & Had). split; [done|by apply local_holds]. }
  apply keeps_pure. intros Hagree. apply keeps_local. intros Hokd. wp_lift finish Hf.
  assert (field "phase" d = PStr "active") as Hpd by by rewrite <-(agree_phase _ _ Hagree).
  assert (is_review d = false) as Hrd by by rewrite <-(agree_review _ _ Hagree).
  assert (NoDup finish.*1) as Hnd by (apply finish_record_shape in Hf as (? & ? & ? & ->); compute_decide).
  eapply keeps_bind; [apply keeps_update_record; [done|]; intros Hok; by eapply finish_change|]. intros u'. cbv beta.
  eapply keeps_pre; [|apply keeps_go_on].
  2: { etransitivity; [|exact Hrd]. unfold is_review. rewrite field_update_ne; [|done|].
       - by rewrite (agree_scope p q d "mode") by compute_decide.
       - apply finish_record_shape in Hf as (? & ? & ? & ->). compute_decide. }
  intros f Hg Hl. eapply local_agree; [| |exact Hl].
  - by apply dict_update_NoDup, dict_update_NoDup, (record_ok_NoDup float_repr).
  - by apply agree_update, agree_scope.
Qed.

Lemma validated_id proof record p : _validate_handoff_proof float_repr proof record = Ok p -> p = proof.
Proof.
  unfold _validate_handoff_proof. intros H. repeat (apply result_bind_ok in H as (? & _ & H)).
  by apply bounded_mapping_id in H as [-> _].
Qed.

(** Without a disposition the finish is a release. *)
Lemma finish_release d : finish_ok d = true -> truthy (field "outcome_disposition" d) = false -> releases d = true.
Proof.
  unfold finish_ok, releases. destruct (field "finish_action" d); try done. intros [Ha Ho]%andb_true_iff Ht.
  apply bool_decide_eq_true in Ha. unfold authoring_actions in Ha. set_unfold in Ha.
  destruct Ha as [->|[->|[->|[->|[]]]]]; cbn in *; try done;
    destruct (field "outcome_disposition" d); try discriminate; cbn in *; apply String.eqb_eq in Ho; by subst.
Qed.

Lemma handback_change r proof :
  record_ok r = true -> field "phase" r = PStr "handback_pending" -> is_review r = false ->
  is_ok (_validate_handoff_proof float_repr proof r) = true ->
  good_change r [("handback_proof", PDict proof);
     ("phase", PStr (if truthy (field "outcome_disposition" r) then "report_pending" else "release_pending"))].
Proof.
  intros Hok Hp Hr Hv. set (c := [_; _]).
  assert (fact_holds float_repr (dict_update r c) FProof = true) as Hproof.
  { cbn [Records.fact_holds]. unfold proof_ok. rewrite field_update by (unfold c; compute_decide).
    change (dict_get "handback_proof" c) with (Some (PDict proof)). cbv iota.
    rewrite (proof_ext float_repr proof r); [done|]. apply field_update_ne; unfold c; compute_decide. }
  destruct (record_ok_facts float_repr r _ Hok Hp) as (facts & Hf & Hall). rewrite Hr in Hf. cbv in Hf. injection Hf as <-.
  assert (finish_ok r = true) as Hfin by (apply (Hall FFinish); set_solver).
  destruct (truthy (field "outcome_disposition" r)) eqn:Ht.
  - apply (change_owed float_repr r c "handback_pending" "report_pending" false [FReports; FProof] Hok Hp Hr); [reflexivity..|].
    constructor; [|constructor; [done|constructor]]. cbn [Records.fact_holds]. rewrite field_update_ne; [done|unfold c; compute_decide..].
  - apply (change_owed float_repr r c "handback_pending" "release_pending" false [FReleases; FProof] Hok Hp Hr); [reflexivity..|].
    constructor; [|constructor; [done|constructor]]. cbn [Records.fact_holds]. unfold releases.
    rewrite field_update_ne; [by apply finish_release|unfold c; compute_decide..].
Qed.

Lemma keeps_handback h p q r :
  is_review r = false ->
  keeps (local h p q r) (handback_step float_repr sha256 py_str host self now h p q r)
    (goes_on h p q).
Proof.
  intros Hr. unfold handback_step. destruct (phase_is "handback_pending" r) eqn:Hp; cbn [negb].
  2: by apply keeps_go_on.
  apply phase_is_spec in Hp.
  wp keeps_invoke_phase x; [done|]. destruct x as [handback r1]. cbn [snd].
  eapply (keeps_pre (fun f => agree r r1 /\ local h p q r1 f)); [by intros f _ []|apply keeps_pure; intros Ha].
  destruct (needs_attention handback); [apply keeps_stop_here|].
  wp_lift proof Hv. assert (is_review r1 = false) as Hr1 by by rewrite (agree_review _ _ Ha).
  pose proof (validated_id _ _ _ Hv) as ->.
  eapply keeps_bind.
  - apply keeps_update_record; [done|]. intros Hok. apply handback_change; [done|by rewrite (agree_phase _ _ Ha)|done|by rewrite Hv].
  - intros u. cbv beta. apply keeps_go_on. unfold is_review. rewrite field_update_ne; [done|compute_decide..].
Qed.

Lemma report_change r candidate report :
  record_ok r = true -> field "phase" r = PStr "report_pending" -> is_review r = false -> candidate <> "" ->
  good_change r [("candidate_id", PStr candidate); ("report_receipt", report); ("phase", PStr "review_pending")].
Proof.
  intros Hok Hp Hr Hc. apply (change_owed float_repr r _ "report_pending" "review_pending" false [FCandidate] Hok Hp Hr); [reflexivity..|].
  constructor; [|constructor]. apply (text_at_some _ _ candidate); [|done]. by rewrite field_update by compute_decide.
Qed.

Lemma keeps_report h p q r note reason :
  field "phase" r = PStr "report_pending" -> is_review r = false ->
  keeps (local h p q r) (report_step float_repr sha256 py_str host self now h p q r note reason) anything.
Proof.
  intros Hp Hr. unfold report_step. wp_lift combined Hc. wp keeps_invoke_phase x; [done|]. destruct x as [report r1]. cbn [snd].
  eapply (keeps_pre (fun f => agree r r1 /\ local h p q r1 f)); [by intros f _ []|apply keeps_pure; intros Ha].
  destruct (needs_attention report); [wp_done|]. destruct (_nested_text _ _) as [candidate|] eqn:Hn; [|wp_done].
  eapply keeps_bind; [|intros u; apply keeps_respond]. apply keeps_update_record; [done|]. intros Hok.
  apply report_change; [done|by rewrite (agree_phase _ _ Ha)|by rewrite (agree_review _ _ Ha)|by eapply nested_text_spec].
Qed.

Lemma release_change r receipt :
  record_ok r = true -> field "phase" r = PStr "release_pending" -> is_review r = false ->
  good_change r [("phase", PStr "released"); ("release_receipt", receipt)].
Proof.
  intros Hok Hp Hr. destruct (record_ok_facts float_repr r _ Hok Hp) as (facts & Hf & Hall). rewrite Hr in Hf.
  cbv in Hf. injection Hf as <-.
  apply (change_owed float_repr r _ "release_pending" "released" false [FReleased] Hok Hp Hr); [reflexivity..|].
  constructor; [|constructor]. cbn [Records.fact_holds]. apply orb_true_iff. right. apply andb_true_iff. set (c := [_; _]).
  split; [rewrite <-(Hall FReleases) by set_solver; apply (fact_ext float_repr FReleases)
         |rewrite <-(Hall FProof) by set_solver; apply (fact_ext float_repr FProof)];
    intros k Hk; (apply field_update_ne; [unfold c; compute_decide|]).
  - by apply (untouched_spec c.*1 (fact_keys FReleases)).
  - by apply (untouched_spec c.*1 (fact_keys FProof)).
Qed.

Lemma keeps_release h p q r :
  field "phase" r = PStr "release_pending" -> is_review r = false ->
  keeps (local h p q r) (release_step float_repr sha256 py_str host self now h p q r) anything.
Proof.
  intros Hp Hr. unfold release_step. wp keeps_invoke_phase x; [done|]. destruct x as [released r1]. cbn [snd].
  eapply (keeps_pre (fun f => agree r r1 /\ local h p q r1 f)); [by intros f _ []|apply keeps_pure; intros Ha].
  destruct (needs_attention released); [wp_done|].
  eapply keeps_bind; [|intros u; apply keeps_respond]. apply keeps_update_record; [done|]. intros Hok.
  apply release_change; [done|by rewrite (agree_phase _ _ Ha)|by rewrite (agree_review _ _ Ha)].
Qed.

Lemma keeps_finish_steps h p q r note reason :
  is_review r = false ->
  keeps (local h p q r) (finish_steps float_repr sha256 py_str host self now h p q r note reason) anything.
Proof.
  intros Hr. unfold finish_steps. wp (keeps_handback h p q r Hr) next. destruct next as [answer|r1]; [wp_done|].
  apply keeps_pure. intros Hr1.
  destruct (phase_is "report_pending" r1) eqn:Hp; [apply phase_is_spec in Hp; by apply keeps_report|].
  destruct (phase_is "release_pending" r1) eqn:Hp'; [apply phase_is_spec in Hp'; by apply keeps_release|wp_done].
Qed.

(** A record that is not a review. *)
Lemma mode_authoring r : py_eqb (field "mode" r) (PStr "review") = false -> is_review r = false.
Proof. done. Qed.

Lemma keeps_finish_authoring h p q r action disposition note reason token :
  action ∈ authoring_actions ->
  keeps (local h p q r)
    (finish_authoring float_repr sha256 py_str host self now h p q action disposition note reason token r) anything.
Proof.
  intros Ha. unfold finish_authoring. wp_check Hr. apply mode_authoring in Hr.
  destruct (phase_is "review_pending" r); [apply keeps_respond|].
  wp_lift ended He. destruct ended; [apply keeps_respond|].
  destruct (phase_is "active" r) eqn:Hp.
  - apply phase_is_spec in Hp.
    wp (keeps_begin_finish h p q r action disposition note reason token Hp Hr Ha) begun. destruct begun as [answer|r1]; [wp_done|].
    apply keeps_pure. intros Hr1. by apply keeps_finish_steps.
  - wp_lift pending Hpend. wp_check Hb. wp_lift r1 Hc.
    assert (r1 = r) as ->.
    { unfold continue_finish in Hc. repeat (apply result_bind_ok in Hc as (? & _ & Hc)). by apply Ok_inj in Hc. }
    by apply keeps_finish_steps.
Qed.

(** [finish_task], for any handling of a reviewer's decision that keeps the journal. *)
Lemma keeps_finish_with review h action disposition note reason token :
  (forall h' action' r' reason', keeps always (review h' action' r' reason') anything) ->
  keeps always (finish_with float_repr sha256 py_str host self now review h action disposition note reason token) anything.
Proof.
  intros Hreview. unfold finish_with. eapply keeps_guarded. wp_check Ha. apply negb_false_iff, bool_decide_eq_true in Ha.
  wp_lift note' Hn. wp_lift reason' Hrs. wp keeps_handle x. destruct x as [[p q] r]. cbn [fst snd].
  case_bool_decide as Hrev; [eapply keeps_pre; [|apply Hreview]; done|].
  eapply (keeps_pre (local h p q (with_scope p q r))).
  { intros f Hg Hh. apply local_scope. by apply local_holds. }
  apply keeps_finish_authoring. apply elem_of_app in Ha as [?|?]; [done|]. by destruct Hrev.
Qed.

End Props.
