(* ===== verification/CoordinateProps.v ===== *)
(** * Coordinating an attempt: what each action keeps

    A receipt ends a handle only when it proves what it claims; every other action leaves
    the phase.  [coordinate_task] and [finish_task] keep the journal well formed. *)

From Stdlib Require Import ZArith SpecFloat.
From stdpp Require Import relations.
From S2P Require Import Prelude PyValue Text Json Journal JournalProps Phases PhaseProps Workflow Coordinate Records WorkflowLogic WorkflowProps.
Import Journal Phases Workflow Coordinate Records.

#[local] Open Scope string_scope.
#[local] Open Scope Z_scope.
#[local] Open Scope list_scope.

(** An entry that satisfies a test stays when another that does not is replaced. *)
Lemma existsb_set (test : pyval -> bool) k v (d : pydict) :
  existsb test d.*2 = true -> (forall v', dict_get k d = Some v' -> test v' = false) -> existsb test (dict_set k v d).*2 = true.
Proof.
  induction d as [|[k' v'] d IH]; [done|]. csimpl. intros H Hk. destruct (decide (k = k')) as [->|Hne]; csimpl.
  - rewrite (Hk v') in H by done. cbn in H. by rewrite H, orb_true_r.
  - apply orb_true_iff in H as [->|H]; [done|]. rewrite IH; [apply orb_true_r|done|]. by intros v'' H''; apply Hk.
Qed.

Lemma existsb_set_new (test : pyval -> bool) k v (d : pydict) : test v = true -> existsb test (dict_set k v d).*2 = true.
Proof.
  intros Hv. induction d as [|[k' v'] d IH]; csimpl; [by rewrite Hv|]. destruct (decide (k = k')); csimpl; [by rewrite Hv|].
  by rewrite IH, orb_true_r.
Qed.

(** A complete action is not replaced. *)
Lemma not_completed action_id r v :
  completed action_id r = None -> dict_get action_id (operations_of r) = Some v -> applied_operation v = false.
Proof.
  unfold completed. intros H Hv. rewrite Hv in H. destruct v; try done. cbn. by destruct (py_eqb _ _).
Qed.

Section Props.
Context (float_repr : spec_float -> string) (sha256 : string -> string) (py_str : pyval -> string).
Context {N0 : Type} (host : string -> string -> string -> pydict -> N0 -> result pyval * N0).
Context (self : actor) (now : pyval) (Hnow : is_number now = true).
#[local] Abbreviation record_ok := (record_ok float_repr).
#[local] Abbreviation good_change := (good_change float_repr).
#[local] Abbreviation keeps := (keeps float_repr sha256 self (N0:=N0)).
#[local] Abbreviation local := (local float_repr sha256 self).
#[local] Abbreviation update_record := (update_record float_repr sha256 self now).

(** ** What the handle permits *)

Lemma permitted_cases action r :
  permitted action r = Ok tt ->
  (is_review r = true /\ exists ps p, review_phases action = Some ps /\ field "phase" r = PStr p /\ p ∈ ps) \/
  (is_review r = false /\ exists p, field "phase" r = PStr p /\
     (p = "active" /\ action ∉ ["integrate"; "accept_outcome"; "reject_outcome"] \/ action = "recover" /\ p ∈ pending_phases)).
Proof.
  unfold permitted. intros H. destruct (py_eqb (field "mode" r) (PStr "review")) eqn:Hr.
  - left. split; [done|]. apply result_bind_ok in H as (ok & Hok & H). apply result_bind_ok in H as (u & Hu & _).
    apply raise_if_ok, negb_false_iff in Hu as ->. destruct (review_phases action) as [ps|]; [|discriminate].
    apply phase_in_spec in Hok as (p & Hp & Hin). by exists ps, p.
  - right. split; [done|]. destruct (phase_is "active" r) eqn:Ha.
    + apply phase_is_spec in Ha. exists "active". split; [done|]. left. split; [done|].
      by apply raise_if_ok, bool_decide_eq_false in H.
    + apply result_bind_ok in H as (pending & Hpend & H). apply raise_if_ok, negb_false_iff in H as ->.
      destruct (String.eqb_spec action "recover") as [->|]; [|discriminate]. apply phase_in_spec in Hpend as (p & Hp & Hin).
      exists p. split; [done|]. by right.
Qed.

(** ** Changes *)

(** Operations are added, none that is complete is replaced, and nothing else is touched. *)
Lemma operations_change r ops rest :
  record_ok r = true -> (existsb applied_operation (operations_of r).*2 = true -> existsb applied_operation ops.*2 = true) ->
  NoDup ("operations" :: rest.*1) -> untouched rest.*1 spoken_for = true ->
  good_change r (("operations", PDict ops) :: rest).
Proof.
  intros Hok Hops Hnd Hu. set (c := _ :: rest). pose proof Hok as Hok'. apply andb_true_iff in Hok' as [_ Hok'].
  destruct (field "phase" r) eqn:Hp; try discriminate. clear Hok'.
  destruct (record_ok_facts float_repr r s Hok Hp) as (facts & Hf & Hall).
  assert (forall l, l ⊆ spoken_for -> "operations" ∉ l -> untouched c.*1 l = true) as Hun.
  { intros l Hl Ho. apply forallb_forall. intros k Hk%list_elem_of_In. apply negb_true_iff, bool_decide_eq_false.
    unfold c. csimpl. intros [->|Hin]%elem_of_cons; [done|]. eapply untouched_spec; [exact Hu|by apply Hl|done]. }
  apply (change_same float_repr r c s facts); try done.
  - apply Hun.
    + intros k [Hk|Hk]%elem_of_app; [unfold spoken_for; set_solver|by eapply fixed_spoken].
    + intros [Hk|Hk]%elem_of_app; [set_solver|]. unfold fixed in Hk. set_unfold in Hk. repeat case_match; set_solver.
  - intros x Hx. destruct (decide (x = FApplied)) as [->|Hne].
    + right. cbn [Records.fact_holds].
      assert (operations_of (dict_update r c) = ops) as ->.
      { unfold operations_of, dict_get_default. rewrite dict_get_update by done. done. }
      apply Hops. exact (Hall FApplied Hx).
    + left. apply Hun; [apply keys_spoken|]. destruct x; try done; cbn; compute_decide.
Qed.

(** A recovery that proves the release of this attempt. *)
Lemma released_change r c p receipt :
  record_ok r = true -> field "phase" r = PStr p -> is_review r = false -> p ∈ "active" :: pending_phases ->
  _recovery_confirms_attempt_release receipt r = Ok true ->
  c.*1 = ["phase"; "release_receipt"] \/ c.*1 = ["operations"; "phase"; "release_receipt"] ->
  dict_get "phase" c = Some (PStr "released") -> dict_get "release_receipt" c = Some (PDict receipt) ->
  good_change r c.
Proof.
  intros Hok Hp Hr Hin Hrec Hk Hph Hrc.
  assert (owed_facts false p "released" c.*1 = Some [FReleased]) as Ho.
  { unfold pending_phases in Hin. set_unfold in Hin.
    destruct Hk as [-> | ->], Hin as [->|[->|[->|[->|[]]]]]; reflexivity. }
  assert (NoDup c.*1) as Hnd by (destruct Hk as [-> | ->]; compute_decide).
  apply (change_owed float_repr r c p "released" false [FReleased] Hok Hp Hr Ho); [by rewrite Hph|].
  constructor; [|constructor]. cbn [Records.fact_holds]. apply orb_true_iff. left. unfold recovered.
  rewrite field_update, Hrc by done. rewrite (recovery_ext receipt r); [by rewrite Hrec|..];
    (apply field_update_ne; [done|destruct Hk as [-> | ->]; compute_decide]).
Qed.

(** An applied integration, from an accepted or already integrated review. *)
Lemma integrated_change r c p :
  record_ok r = true -> field "phase" r = PStr p -> is_review r = true -> p ∈ ["review_accepted"; "integrated"] ->
  dict_get "phase" c = Some (PStr "integrated") -> existsb applied_operation (operations_of (dict_update r c)).*2 = true ->
  (exists owed, owed_facts true p "integrated" c.*1 = Some owed /\ forall x, x ∈ owed -> x = FApplied) ->
  good_change r c.
Proof.
  intros Hok Hp Hr Hin Hph Happ (owed & Ho & Hall).
  apply (change_owed float_repr r c p "integrated" true owed Hok Hp Hr Ho); [by rewrite Hph|].
  apply List.Forall_forall. intros x Hx%list_elem_of_In. by rewrite (Hall x Hx).
Qed.

Lemma review_permitted action r ps :
  permitted action r = Ok tt -> review_phases action = Some ps -> action ∈ ["integrate"; "accept_outcome"; "reject_outcome"] ->
  is_review r = true /\ exists p, field "phase" r = PStr p /\ p ∈ ps.
Proof.
  intros H Hps Hin. apply permitted_cases in H as [[Hr (ps' & p & Hps' & Hp & Hpin)]|[Hr (p & _ & [[_ Hn]|[-> _]])]].
  - split; [done|]. rewrite Hps in Hps'. injection Hps' as <-. by exists p.
  - by destruct Hn.
  - set_unfold in Hin. naive_solver.
Qed.

Lemma recover_permitted r :
  permitted "recover" r = Ok tt -> is_review r = false /\ exists p, field "phase" r = PStr p /\ p ∈ "active" :: pending_phases.
Proof.
  intros H. apply permitted_cases in H as [[_ (ps & p & Hps & _)]|[Hr (p & Hp & Hcase)]]; [discriminate|].
  split; [done|]. exists p. split; [done|]. destruct Hcase as [[-> _]|[_ Hin]]; [by left|by right].
Qed.

Lemma operations_update r c : NoDup c.*1 -> "operations" ∉ c.*1 -> operations_of (dict_update r c) = operations_of r.
Proof. intros Hc Ho. apply operations_field. by apply field_update_ne. Qed.

Lemma completed_applied action_id r value :
  completed action_id r = Some value -> is_applied value = true -> existsb applied_operation (operations_of r).*2 = true.
Proof.
  unfold completed. intros H Ha. destruct (dict_get _ _) as [[| | | | | |prior]|] eqn:Hg; try discriminate.
  destruct (py_eqb _ _) eqn:Hs; [|discriminate]. injection H as <-. apply dict_get_elem in Hg.
  apply existsb_exists. exists (PDict prior). split; [apply list_elem_of_In, list_elem_of_fmap; by exists (action_id, PDict prior)|].
  cbn. by rewrite Hs, Ha.
Qed.

Lemma keeps_replay h p q action action_id value r :
  permitted action r = Ok tt -> completed action_id r = Some value ->
  keeps (local h p q r) (replay_action float_repr sha256 self now h p q action value r) anything.
Proof.
  intros Hperm Hc. unfold replay_action. wp_lift confirmed Hcf. destruct (String.eqb_spec action "integrate") as [->|Hne].
  - assert (confirmed = false) as -> by (cbn in Hcf; destruct value; by injection Hcf).
    eapply (keeps_bind _ _ _ (fun _ f => local h p q r f)); [eapply keeps_post; [|apply keeps_ret]; by intros ? ? _ [_ ?]|intros u].
    wp_lift i Hi. destruct (in_applied i) eqn:Ha; [|apply keeps_respond].
    eapply keeps_bind; [|intros u'; apply keeps_respond]. apply keeps_update_record; [done|]. intros Hok.
    destruct (review_permitted "integrate" r _ Hperm eq_refl) as [Hr (ph & Hp & Hin)]; [set_solver|].
    apply (integrated_change r _ ph); try done.
    + rewrite operations_update by compute_decide. apply (completed_applied action_id r value Hc).
      unfold is_applied. by rewrite Hi.
    + set_unfold in Hin. destruct Hin as [->|[->|[]]]; eexists; (split; [reflexivity|]); intros x Hx; set_unfold in Hx; naive_solver.
  - eapply (keeps_bind _ _ _ anything); [|intros u; apply keeps_respond].
    destruct confirmed; [|wp_done]. destruct (String.eqb_spec action "recover") as [->|]; [|discriminate].
    destruct value; try discriminate. eapply keeps_any. apply keeps_update_record; [done|]. intros Hok.
    destruct (recover_permitted r Hperm) as [Hr (ph & Hp & Hin)].
    apply (released_change r _ ph d); try done. by left.
Qed.

(** The changes a receipt brings, besides the operation. *)
Inductive receipt_case (action : string) (value : pydict) (confirmed : bool) (i : integration) : pydict -> Prop :=
  | rc_recovered : action = "recover" -> confirmed = true -> receipt_case action value confirmed i (released_changes (PDict value))
  | rc_applied rest : action = "integrate" -> i.(in_applied) = true ->
      rest = [] \/ (exists id, rest = [("integration_operation_id", id)]) ->
      receipt_case action value confirmed i ([("integration_receipt", PDict value)] ++ rest ++ [("phase", PStr "integrated")])
  | rc_accepted : action = "accept_outcome" -> receipt_case action value confirmed i [("phase", PStr "review_accepted")]
  | rc_rejected : action = "reject_outcome" -> receipt_case action value confirmed i [("phase", PStr "review_rejected")]
  | rc_plain rest : NoDup ("operations" :: rest.*1) -> untouched rest.*1 spoken_for = true ->
      receipt_case action value confirmed i rest.

Lemma receipt_changes_cases action value confirmed i :
  (confirmed = true -> action = "recover") -> receipt_case action value confirmed i (receipt_changes action value confirmed i).
Proof.
  intros Hc. unfold receipt_changes. destruct confirmed; [rewrite (Hc eq_refl); by constructor|]. clear Hc.
  destruct (String.eqb_spec action "integrate") as [->|]; cbn [app].
  { cbn [String.eqb Ascii.eqb Bool.eqb orb app]. destruct (in_operation i) as [id|], (in_applied i) eqn:Ha; cbn [app].
    - apply (rc_applied _ _ _ _ [_]); [done..|]. right. by eexists.
    - apply rc_plain; [compute_decide|reflexivity].
    - apply (rc_applied _ _ _ _ []); [done..|]. by left.
    - apply rc_plain; [compute_decide|reflexivity]. }
  destruct (String.eqb_spec action "accept_outcome") as [->|]; [by constructor|].
  destruct (String.eqb_spec action "reject_outcome") as [->|]; [by apply rc_rejected|].
  destruct (_ || _); [destruct (_nested_text _ _)|]; (apply rc_plain; [compute_decide|reflexivity]).
Qed.

Lemma pending_applied action_id action key r :
  completed action_id r = None ->
  existsb applied_operation (dict_set action_id (operation_entry action key [("state", PStr "pending")]) (operations_of r)).*2 = true ->
  existsb applied_operation (operations_of r).*2 = true.
Proof.
  intros _. set (v := operation_entry _ _ _). assert (applied_operation v = false) as Hv by done. clearbody v.
  generalize (operations_of r) as d. induction d as [|[k' v'] d IH]; csimpl; [by rewrite Hv|].
  destruct (decide (action_id = k')); csimpl.
  - rewrite Hv. cbn. intros ->. apply orb_true_r.
  - intros [->|H]%orb_true_iff; [done|]. rewrite IH by done. apply orb_true_r.
Qed.

(** The second write of an action: its receipt, and what the receipt proves. *)
Lemma receipt_good action action_id key value confirmed i r ops1 :
  record_ok r = true -> permitted action r = Ok tt -> completed action_id r = None ->
  (confirmed = true -> action = "recover" /\ _recovery_confirms_attempt_release value r = Ok true) ->
  (action = "integrate" -> _git_integration_result (PDict value) = Ok i) ->
  ops1 = dict_set action_id (operation_entry action key [("state", PStr "pending")]) (operations_of r) ->
  record_ok (dict_update r [("operations", PDict ops1)]) = true ->
  good_change (dict_update r [("operations", PDict ops1)])
    (dict_update [("operations", PDict (dict_set action_id
        (operation_entry action key [("state", PStr "complete"); ("result", PDict value)]) (operations_of r)))]
      (receipt_changes action value confirmed i)).
Proof.
  intros Hok Hperm Hc Hcf Hi Hops1 Hok1. set (ops := dict_set action_id (operation_entry _ _ [_; ("result", _)]) _).
  set (r1 := dict_update r _).
  assert (forall k, k <> "operations" -> field k r1 = field k r) as Hf1.
  { intros k Hk. unfold r1. apply field_update_ne; [compute_decide|]. csimpl. by intros ->%list_elem_of_singleton. }
  assert (is_review r1 = is_review r) as Hr1 by (unfold is_review; by rewrite Hf1).
  assert (operations_of r1 = ops1) as Ho1 by (unfold operations_of, dict_get_default, r1; by rewrite dict_get_update by compute_decide).
  assert (existsb applied_operation (operations_of r1).*2 = true -> existsb applied_operation ops.*2 = true) as Hkeep.
  { rewrite Ho1, Hops1. intros H%pending_applied; [|done]. apply existsb_set; [done|]. intros v Hv. by eapply not_completed. }
  destruct (receipt_changes_cases action value confirmed i) as [Ha Hconf|rest Ha Happ Hrest|Ha|Ha|rest Hnd Hu].
  - intros H. by apply Hcf.
  - destruct (Hcf Hconf) as [_ Hrec]. rewrite Ha in Hperm. destruct (recover_permitted r Hperm) as [Hr (ph & Hp & Hin)].
    apply (released_change r1 _ ph value); [done|by rewrite Hf1|by rewrite Hr1|done| |by right|done|done].
    rewrite (recovery_ext value r r1); [done|by apply Hf1..].
  - rewrite Ha in *. destruct (review_permitted "integrate" r _ Hperm eq_refl) as [Hr (ph & Hp & Hin)]; [set_solver|].
    assert (applied_operation (operation_entry "integrate" key [("state", PStr "complete"); ("result", PDict value)]) = true) as Hap.
    { change (is_applied (PDict value) = true). unfold is_applied. by rewrite (Hi eq_refl). }
    assert (existsb applied_operation ops.*2 = true) as Hex by by apply existsb_set_new.
    apply (integrated_change r1 _ ph); [done|by rewrite Hf1|by rewrite Hr1|done| | |];
      destruct Hrest as [->|[id ->]]; cbn [app]; try done.
    1,2: unfold operations_of, dict_get_default; rewrite dict_get_update by compute_decide; exact Hex.
    all: set_unfold in Hin; destruct Hin as [->|[->|[]]]; eexists; (split; [reflexivity|]); intros x Hx; set_unfold in Hx; naive_solver.
  - rewrite Ha in *. destruct (review_permitted "accept_outcome" r _ Hperm eq_refl) as [Hr (ph & Hp & Hin)]; [set_solver|].
    apply (change_owed float_repr r1 _ ph "review_accepted" true []); [done|by rewrite Hf1|by rewrite Hr1| |done|constructor].
    set_unfold in Hin. destruct Hin as [->|[->|[]]]; reflexivity.
  - rewrite Ha in *. destruct (review_permitted "reject_outcome" r _ Hperm eq_refl) as [Hr (ph & Hp & Hin)]; [set_solver|].
    apply (change_owed float_repr r1 _ ph "review_rejected" true []); [done|by rewrite Hf1|by rewrite Hr1| |done|constructor].
    set_unfold in Hin. destruct Hin as [->|[->|[]]]; reflexivity.
  - assert (dict_update [("operations", PDict ops)] rest = ("operations", PDict ops) :: rest) as ->; [|by apply operations_change].
    by apply dict_update_app.
Qed.

Lemma keeps_send h p q action action_id tool arguments r :
  permitted action r = Ok tt -> completed action_id r = None ->
  keeps (local h p q r) (send_action float_repr sha256 py_str host self now h p q action action_id tool arguments r) anything.
Proof.
  intros Hperm Hc. unfold send_action. wp keeps_invoke_phase_same x; [done|]. destruct x as [result r'].
  destruct (needs_attention result); [wp_done|]. wp keeps_stored_record current.
  eapply (keeps_pre (local h p q r)); [by intros f _ [? _]|]. wp_lift key Hkey. apply keeps_local. intros Hok.
  assert (good_change r [("operations", PDict (dict_set action_id (operation_entry action key [("state", PStr "pending")]) (operations_of r)))])
    as Hgood.
  { apply operations_change; [done| |compute_decide|reflexivity].
    intros Happ. apply existsb_set; [done|]. intros v Hv. by eapply not_completed. }
  eapply keeps_bind; [by apply keeps_update_record|intros u; cbv beta].
  wp_lift val Hv. wp_lift oc Hoc. destruct oc as [requested confirmed]. wp_lift i Hi.
  eapply keeps_bind; [|intros u'].
  - apply keeps_update_record; [done|]. intros Hok1. eapply receipt_good; try done.
    + intros ->. unfold recovery_outcome in Hoc. destruct (String.eqb_spec action "recover") as [->|]; [|discriminate].
      split; [done|]. apply result_bind_ok in Hoc as (rq & Hrq & Hoc). apply result_bind_ok in Hoc as (cf & Hcf & Hoc).
      injection Hoc as -> ->. destruct requested; [done|discriminate].
    + intros ->. done.
  - destruct (_ && _); [apply keeps_respond|]. destruct (_ && _); [wp_done|apply keeps_respond].
Qed.

Lemma keeps_execute h p q action fields r :
  permitted action r = Ok tt ->
  keeps (local h p q r) (_execute_coordinate_action float_repr sha256 py_str host self now h p q action fields r) anything.
Proof.
  intros Hperm. unfold _execute_coordinate_action. wp_lift x Hx. destruct x as [tool arguments]. wp_lift id Hid.
  destruct (completed id r) eqn:Hc; [by eapply keeps_replay|by apply keeps_send].
Qed.

Lemma keeps_finish_from h action note reason token :
  keeps always (finish_from float_repr sha256 py_str host self now h action note reason token) anything.
Proof. unfold finish_from. apply keeps_finish_with; [done|]. intros. apply keeps_raise. Qed.

Lemma keeps_bind_gates P h fields r : keeps P (bind_required_gates float_repr h fields r) anything.
Proof.
  unfold bind_required_gates. eapply keeps_bind; [apply keeps_lift|intros requested].
  eapply keeps_bind; [apply keeps_lift|intros native]. destruct (match native with Some ids => _ | None => _ end); apply keeps_respond.
Qed.

Lemma keeps_coordinate h action payload token :
  keeps always (coordinate_task float_repr sha256 py_str host self now h action payload token) anything.
Proof.
  unfold coordinate_task. eapply keeps_guarded. wp_check Hallowed. wp_lift fields Hfields.
  wp keeps_handle x. destruct x as [[p q] r0]. cbn [fst snd]. set (r := with_scope p q r0).
  eapply (keeps_pre (local h p q r)); [intros f Hg Hh; apply local_scope; by apply local_holds|]. clearbody r. clear r0.
  apply keeps_local. intros Hok.
  destruct (String.eqb action "bind_required_gates"); [apply keeps_bind_gates|].
  destruct (String.eqb action "request_integration"); [wp_done|].
  destruct (String.eqb action "run_gates"); [by eapply keeps_any, keeps_gates|].
  destruct (String.eqb action "verify"); [wp_lift id Hid; by eapply keeps_any, keeps_gates|].
  destruct (String.eqb action "heartbeat" || String.eqb action "resume").
  { wp_check Hp. apply negb_false_iff, phase_is_spec in Hp. eapply keeps_bind; [apply keeps_resume; [done|done|]|].
    - by eapply record_ok_authoring.
    - intros refreshed. destruct (needs_attention refreshed); [wp_done|apply keeps_respond]. }
  destruct (String.eqb action "release_attempt"); [eapply keeps_pre; [|apply keeps_finish_from]; done|].
  destruct (String.eqb action "report_outcome").
  { wp_lift finish Hf. eapply keeps_pre; [|apply keeps_finish_from]; done. }
  eapply keeps_bind; [apply keeps_lift|intros []]. apply keeps_pure. intros Hperm. by apply keeps_execute.
Qed.

Lemma keeps_finish h action disposition note reason token :
  keeps always (finish_task float_repr sha256 py_str host self now h action disposition note reason token) anything.
Proof.
  unfold finish_task. apply keeps_finish_with; [done|]. intros h' action' r' reason'. unfold finish_review.
  eapply keeps_bind; [apply keeps_check|intros ?]. eapply (keeps_pre always); [done|].
  wp keeps_coordinate result. destruct (negb _); [wp_done|apply keeps_respond].
Qed.

End Props.

(** The receipt of an integration replaces the one the record had, proven or not. *)
Lemma integrated_receipt_overwritten d value confirmed i :
  i.(in_applied) = false -> confirmed = false ->
  field "integration_receipt" (dict_update d (receipt_changes "integrate" value confirmed i)) = PDict value /\
  field "phase" (dict_update d (receipt_changes "integrate" value confirmed i)) = field "phase" d.
Proof.
  intros Hi ->. assert (NoDup (receipt_changes "integrate" value false i).*1) as Hn.
  { unfold receipt_changes. rewrite Hi. destruct (in_operation i); cbn; compute_decide. }
  unfold field, dict_get_default. rewrite !dict_get_update by done. unfold receipt_changes. rewrite Hi. by destruct (in_operation i).
Qed.
