(* ===== verification/SelectionProps.v ===== *)
(** * Selecting the next task: what each phase keeps

    The reservations, the phases of a selection and [next_task]. *)

From Stdlib Require Import ZArith SpecFloat.
From stdpp Require Import relations.
From S2P Require Import Prelude PyValue Text Json Journal JournalProps Phases PhaseProps Workflow Coordinate TaskContext TaskPacket Selection Records WorkflowLogic WorkflowProps CoordinateProps.
Import Journal Phases Workflow Coordinate TaskContext TaskPacket Selection Records.

#[local] Open Scope string_scope.
#[local] Open Scope Z_scope.
#[local] Open Scope list_scope.

Section Props.
Context (float_repr : spec_float -> string) (sha256 : string -> string) (py_str : pyval -> string).
Context (float_of : string -> spec_float).
Context {N0 : Type} (host : string -> string -> string -> pydict -> N0 -> result pyval * N0).
Context (resolver : option (string -> option string -> option string + pyval)).
Context (self : actor) (now : pyval) (Hnow : is_number now = true).
#[local] Abbreviation record_ok := (record_ok float_repr).
#[local] Abbreviation good_change := (good_change float_repr).
#[local] Abbreviation holds := (holds sha256 self).
#[local] Abbreviation keeps := (keeps float_repr sha256 self (N0:=N0)).
#[local] Abbreviation local := (local float_repr sha256 self).
#[local] Abbreviation goes_on := (goes_on float_repr sha256 self).
#[local] Abbreviation update_record := (update_record float_repr sha256 self now).

(** ** Reservations *)

Definition unused_in (token : string) (f : option file) : Prop := forall es, _read f = Ok es -> unused sha256 self token es.

Lemma selecting_ok project repository request : record_ok (selecting_record project repository request now) = true.
Proof.
  unfold Records.record_ok. rewrite bool_decide_eq_true_2 by compute_decide. reflexivity.
Qed.

Lemma set_other_kind kind identity data es :
  kind <> "workflow" -> records_ok float_repr es ->
  let es' := set_entry sha256 self kind identity (with_data data now) es in records_ok float_repr es' /\ follows es es'.
Proof.
  intros Hk Hrs es'. split.
  - intros e' He' Hke. apply list_elem_of_fmap in He' as (e & -> & He). destruct (has_identity _ _ e) eqn:Hi; [|by apply Hrs].
    apply has_identity_spec in Hi. injection Hi as Hi _. cbn in Hke. congruence.
  - intros e He Hke. exists e. split; [|split; [done|split; reflexivity]]. apply list_elem_of_fmap. exists e. split; [|done].
    destruct (has_identity _ _ e) eqn:Hi; [|done]. apply has_identity_spec in Hi. injection Hi as Hi _. congruence.
Qed.

Lemma new_workflow_holds f es token project repository data :
  _read f = Ok es -> entries_ok sha256 self es -> new_entry sha256 self "workflow" token project repository now data ∈ es ->
  holds f "workflow" token project repository data.
Proof.
  intros Hr Hok Hin. exists es, (new_entry sha256 self "workflow" token project repository now data).
  split; [done|]. split; [done|]. split; [done|]. split; [done|]. split; [|done]. unfold in_scope. cbn. by rewrite !String.eqb_refl.
Qed.

Lemma keeps_reserve_workflow project repository requested token :
  keeps (unused_in token)
    (stored (reserve_workflow float_repr sha256 self project repository requested token now))
    (fun x f => is_review x.1.2 = false /\ holds f "workflow" x.1.1 project repository x.1.2).
Proof.
  unfold reserve_workflow. destruct (_bounded_mapping _ _ _ _) as [request|].
  2: { intros w r w' Hg HP H. unfold stored in H. cbv beta iota in H. injection H as <- <-. split; [by apply proceeds_refl|done]. }
  apply keeps_mutate. intros f es a es' changed Hu Hr Hok Hrs H.
  change (reserve_fn sha256 self project repository request token now es = Ok (a, es', changed)) in H.
  specialize (Hu es Hr). destruct changed.
  - split; [intros Hl Ht; by eapply (reserve_safe sha256 self)|]. apply reserve_fn_new in H as [-> H]. cbv zeta in H. cbn [fst snd].
    set (e := new_entry _ _ _ _ _ _ _ _) in H.
    destruct (append_follows float_repr es [e]) as [Hrs1 Hf1]; [|done|].
    { intros e' ->%list_elem_of_singleton _. apply selecting_ok. }
    destruct H as [(_ & _ & ->)|(p & _ & _ & _ & ->)].
    + destruct (append_follows float_repr (es ++ [e]) [new_entry sha256 self "workflow_current" (pointer_identity sha256 project repository)
          project repository now [("workflow_handle", PStr token)]]) as [Hrs2 Hf2]; [|done|].
      { intros e' ->%list_elem_of_singleton Hk. discriminate. }
      split; [done|]. split; [by eapply follows_trans|]. intros Hok' f' Hr'. split; [done|]. eapply new_workflow_holds; [exact Hr'|done|].
      apply elem_of_app. left. apply elem_of_app. right. left.
    + destruct (set_other_kind "workflow_current" (pointer_identity sha256 project repository) [("workflow_handle", PStr token)] (es ++ [e]))
        as [Hrs2 Hf2]; [done|done|].
      split; [done|]. split; [by eapply follows_trans|]. intros Hok' f' Hr'. split; [done|]. eapply new_workflow_holds; [exact Hr'|done|].
      apply set_entry_other; [apply elem_of_app; right; left|done].
  - unfold reserve_fn in H. apply result_bind_ok in H as (resumed & Hres & H).
    destruct resumed as [[handle record]|]; [|apply result_bind_ok in H as (? & _ & H); discriminate].
    simplify_eq. cbn [fst snd].
    destruct (List.filter _ _) as [|p [|]]; [discriminate| |discriminate]. unfold resumable in Hres.
    apply result_bind_ok in Hres as (u & Hs & Hres). apply raise_if_ok, negb_false_iff in Hs.
    unfold pointed_rows, pointed_handle in Hres. destruct (dict_get "workflow_handle" _) as [[]|] eqn:Hd; try discriminate.
    destruct (List.filter _ es') as [|e [|]] eqn:Hf; [discriminate| |discriminate].
    destruct (in_scope project repository e) eqn:Hse; [|discriminate]. apply result_bind_ok in Hres as (active & Hact & Hres).
    destruct active; [|discriminate]. apply result_bind_ok in Hres as (u' & _ & Hres). simplify_eq.
    assert (e ∈ [e]) as Hin by left. rewrite <-Hf in Hin. apply list_elem_of_In, List.filter_In in Hin as [Hin Hk%has_identity_spec].
    apply list_elem_of_In in Hin. split; [|by exists es', e]. apply phase_in_spec in Hact as (ph & Hp & Hact).
    eapply record_ok_authoring; [|exact Hp|].
    + apply Hrs; [done|]. by injection Hk.
    + unfold active_phases in Hact. set_unfold in Hact. by repeat (destruct Hact as [->|Hact]).
Qed.

(** A candidate of the queue names its task, its attempt and itself. *)
Definition candidate_ok (review : pydict) : Prop :=
  NoDup review.*1 /\ forallb (text_at review) ["task_id"; "attempt_id"; "candidate_id"] = true.

Lemma review_ok project repository review :
  candidate_ok review -> record_ok (review_record project repository review now) = true.
Proof.
  intros [Hn Ht]. unfold review_record. set (c := [_; _; _; _; _]).
  assert (NoDup c.*1) as Hc by (unfold c; compute_decide).
  unfold Records.record_ok. rewrite bool_decide_eq_true_2 by by apply dict_update_NoDup.
  rewrite (field_update "phase") by done. change (dict_get "phase" c) with (Some (PStr "review_pending")). cbv iota.
  unfold is_review. rewrite (field_update "mode") by done. change (dict_get "mode" c) with (Some (PStr "review")). cbv iota.
  change (facts_of _ _) with (Some [FReview]). cbn [andb forallb]. rewrite andb_true_r.
  rewrite <-Ht. cbn [Records.fact_holds]. unfold text_at.
  cbn [forallb]. rewrite !field_update_ne; try done; unfold c; compute_decide.
Qed.

Lemma keeps_reserve_review project repository review token :
  candidate_ok review ->
  keeps (unused_in token)
    (stored (reserve_review float_repr sha256 self project repository review token now)) anything.
Proof.
  intros Hc. unfold reserve_review. destruct (_ ≫= _) as [[data id]|] eqn:Hd.
  2: { intros w r w' Hg HP H. unfold stored in H. cbv beta iota in H. injection H as <- <-. split; [by apply proceeds_refl|done]. }
  apply result_bind_ok in Hd as (d & Hb & Hd). apply bounded_mapping_id in Hb as [-> _].
  assert (data = review) as ->.
  { destruct (dict_get "candidate_id" review) as [[]|]; try discriminate. apply result_bind_ok in Hd as (u & _ & Hd). by simplify_eq. }
  apply keeps_mutate. intros f es a es' changed Hu Hr Hok Hrs H. specialize (Hu es Hr). destruct changed; [|done].
  split; [intros Hl Ht; by eapply (review_safe sha256 self)|].
  apply result_bind_ok in H as (existing & _ & H). destruct existing as [|e0 [|]]; [|discriminate|discriminate].
  apply result_bind_ok in H as (u & _ & H). cbv zeta in H. simplify_eq.
  destruct (append_follows float_repr es [new_entry sha256 self "workflow" token project repository now
     (review_record project repository review now)]) as [H1 H2]; [|done|done].
  intros e ->%list_elem_of_singleton _. by apply review_ok.
Qed.

(** ** The review queue *)

Lemma keeps_read_queue P turns scope selector token revision q :
  keeps P (read_queue py_str host turns scope selector token revision q) (fun _ f => P f).
Proof.
  revert token revision q. induction turns as [|turns IH]; intros token revision q; cbn [read_queue]; [apply keeps_raise|].
  wp keeps_invoke page. destruct (needs_attention page); [apply keeps_raise|]. cbv zeta.
  destruct (next_page page); try apply keeps_raise.
  - eapply keeps_post; [|apply keeps_ret]. by intros ? ? _ [_ ?].
  - wp_check Hs. apply IH.
Qed.

Lemma first_reported_elem l c : first_reported py_str l = Some c -> c ∈ l.
Proof.
  destruct l as [|a l]; [done|]. cbn [first_reported]. intros [= <-].
  assert (forall l b, foldl (fun best c => if reported_before py_str c best then c else best) b l ∈ b :: l) as H; [|apply H].
  clear. induction l as [|x l IH]; intros b; cbn [foldl]; [left|].
  destruct (reported_before py_str x b); specialize (IH (if reported_before py_str x b then x else b)) as H0.
  - specialize (IH x). apply elem_of_cons in IH as [->|IH]; [right; left|right; by right].
  - specialize (IH b). apply elem_of_cons in IH as [->|IH]; [left|right; by right].
Qed.

Lemma candidate_of_ok project repository requested q candidate attempt :
  candidate_matches requested q candidate = true -> candidate_ok (candidate_of project repository candidate attempt).
Proof.
  intros H. unfold candidate_matches in H. rewrite !andb_true_iff in H. destruct H as [_ H].
  split; [compute_decide|]. cbn [forallb] in *. rewrite !andb_true_iff in H. destruct H as (Hc & Ha & Hw & _).
  unfold text_at. rewrite !andb_true_iff. done.
Qed.

Lemma keeps_next_pending P project repository requested :
  keeps P (_next_pending_review py_str host project repository requested)
    (fun o f => (forall review, o = Some review -> candidate_ok review) /\ P f).
Proof.
  unfold _next_pending_review. wp keeps_read_queue q. eapply keeps_post; [|apply keeps_ret].
  intros o f _ [-> HP]. split; [|done]. intros review Hr. apply bind_Some in Hr as (candidate & Hc & [= <-]).
  apply first_reported_elem, elem_of_list_filter in Hc as [_ Hc]. by eapply candidate_of_ok.
Qed.

(** ** The phases *)

Lemma optional_text_spec d k s : _optional_text d k = Ok (Some s) -> s <> "".
Proof.
  unfold _optional_text. destruct (field k d); cbn; try done; intros H.
  - destruct (String.eqb_spec s0 ""); by simplify_eq.
  - destruct (dict_get "entity_id" d0) as [[]|]; try done. destruct (String.eqb_spec s0 ""); by simplify_eq.
Qed.

Lemma first_text_spec d k keys s : _first_text d k keys = Ok s -> s <> "".
Proof.
  unfold _first_text. generalize (k :: keys) as l. induction l as [|x l IH]; cbn [first_of]; [done|]. intros H.
  apply result_bind_ok in H as (o & Ho & H). destruct o; [|by apply IH]. simplify_eq. by eapply optional_text_spec.
Qed.

Lemma keeps_while_selecting h p q r changes :
  is_review r = false -> NoDup changes.*1 -> "mode" ∉ changes.*1 ->
  (forall d, record_ok d = true -> field "phase" d = PStr "selecting" -> is_review d = false -> good_change d changes) ->
  keeps (local h p q r) (stored (atomic_update float_repr sha256 self "workflow" h p q (while_selecting changes) now))
    (fun d f => is_review d = false /\ local h p q d f).
Proof.
  intros Hr Hn Hm Hgood. eapply keeps_post; [|apply keeps_atomic; [done|]].
  - intros d' f Hg (Hh & d & changed & Ha & Hok & Hd). split; [|by apply local_holds].
    assert (is_review d = false) as Hrd by by rewrite <-(agree_review _ _ Ha).
    unfold while_selecting in Hd. destruct (phase_is "selecting" d); simplify_eq; [|done].
    unfold is_review. by rewrite field_update_ne.
  - intros d d' changed Ha Hok Hd. unfold while_selecting in Hd. destruct (phase_is "selecting" d) eqn:Hp; simplify_eq; [|done].
    apply phase_is_spec in Hp. destruct (Hgood d Hok Hp) as (Hc & Hi & H1 & H2); [by rewrite <-(agree_review _ _ Ha)|].
    split; [done|]. split; [done|]. by apply intents_update.
Qed.

(** Whatever was selected is saved only on a record still selecting. *)
Lemma prepared_change h project repository requested record candidate s changes :
  prepared float_repr sha256 now h project repository requested record candidate s = Ok changes ->
  s.(sel_task) <> "" -> s.(sel_plan) <> "" ->
  NoDup changes.*1 /\ ("mode" ∉ changes.*1) /\
  forall d, record_ok d = true -> field "phase" d = PStr "selecting" -> is_review d = false -> good_change d changes.
Proof.
  intros H Ht Hpl. unfold prepared in H. apply result_bind_ok in H as (create & _ & H).
  apply result_bind_ok in H as (dispatch & _ & H). apply Ok_inj in H as <-.
  split; [compute_decide|]. split; [compute_decide|]. intros d Hok Hp Hr.
  apply (change_owed float_repr d _ "selecting" "workspace_pending" false [FTask] Hok Hp Hr); [reflexivity..|].
  constructor; [|constructor]. cbn [Records.fact_holds forallb].
  rewrite (text_at_some _ "task_id" (sel_task s)), (text_at_some _ "plan_revision_id" (sel_plan s)),
    (text_at_some _ "workspace_id" (_generated_id sha256 "ws" h)); try done; by rewrite field_update by compute_decide.
Qed.

Lemma selection_texts requested candidate s :
  read_selection requested candidate = Ok s -> s.(sel_task) <> "" /\ s.(sel_plan) <> "".
Proof.
  unfold read_selection. intros H. apply result_bind_ok in H as (task & Ht & H). apply result_bind_ok in H as (run & _ & H).
  apply result_bind_ok in H as (assignment & _ & H). apply result_bind_ok in H as (plan & Hp & H).
  apply result_bind_ok in H as (revision & _ & H). cbv zeta in H.
  apply result_bind_ok in H as (u & _ & H). apply result_bind_ok in H as (u' & _ & H). simplify_eq. cbn.
  split; by eapply first_text_spec.
Qed.

Lemma keeps_save_choice h p q requested record r choice :
  is_review r = false ->
  keeps (local h p q r) (save_choice float_repr sha256 self now h p q requested record choice) (goes_on h p q).
Proof.
  intros Hr. unfold save_choice. destruct choice; try apply keeps_raise. wp_lift candidate Hc. wp_lift s Hs. wp_lift changes Hch.
  destruct (selection_texts _ _ _ Hs) as [Ht Hpl]. destruct (prepared_change _ _ _ _ _ _ _ _ Hch Ht Hpl) as (Hn & Hm & Hgood).
  eapply keeps_bind; [by apply keeps_while_selecting|]. intros d'. cbv beta. apply keeps_pure. intros Hrd.
  destruct (phase_is "selecting" d'); [apply keeps_stop_here|by apply keeps_go_on].
Qed.

Lemma keeps_select h p q requested r :
  is_review r = false ->
  keeps (local h p q r) (select_step float_repr sha256 host self now h p q requested r) (goes_on h p q).
Proof.
  intros Hr. unfold select_step. destruct (phase_is "selecting" r) eqn:Hp; cbn [negb]; [|by apply keeps_go_on].
  wp keeps_invoke choice. destruct (needs_attention choice); [apply keeps_stop_here|].
  destruct (choice_of choice); try by apply keeps_save_choice.
  eapply keeps_bind; [apply (keeps_while_selecting h p q r); [done|compute_decide|compute_decide|]|].
  { intros d Hok Hpd Hrd. by apply (change_owed float_repr d _ "selecting" "no_work" false [] Hok Hpd Hrd). }
  intros d'. cbv beta. apply keeps_pure. intros Hrd. destruct (phase_is "no_work" d'); [|by apply keeps_save_choice].
  eapply keeps_bind; [apply keeps_respond|]. intros answer. apply keeps_stop_here.
Qed.

Lemma keeps_workspace h p q r :
  is_review r = false ->
  keeps (local h p q r) (workspace_step float_repr sha256 py_str host self now h p q r) (goes_on h p q).
Proof.
  intros Hr. unfold workspace_step. destruct (phase_is "workspace_pending" r) eqn:Hp; cbn [negb]; [|by apply keeps_go_on].
  apply phase_is_spec in Hp. wp_lift arguments Harg. wp keeps_invoke_phase_synced x; [done|]. destruct x as [workspace r1]. cbn [snd].
  eapply (keeps_pre (fun f => agree r r1 /\ synced sha256 self h p q r1 f /\ local h p q r1 f)); [by intros f _ [[] ?]|apply keeps_pure; intros Ha].
  destruct (needs_attention workspace); [apply keeps_stop_here|]. assert (is_review r1 = false) as Hr1 by by rewrite (agree_review _ _ Ha).
  eapply keeps_bind; [apply keeps_update_whole; [done|]|].
  - intros Hok. apply (change_owed float_repr r1 _ "workspace_pending" "dispatch_pending" false []); try done.
    by rewrite (agree_phase _ _ Ha).
  - intros u. cbv beta. apply keeps_go_on. unfold is_review. rewrite field_update_ne; [done|compute_decide..].
Qed.

Lemma dispatched_texts receipt attempt lease :
  dispatched_ids receipt = Ok (attempt, lease) -> attempt <> "" /\ lease <> "".
Proof.
  unfold dispatched_ids. intros H. apply result_bind_ok in H as (a & Ha & H). apply result_bind_ok in H as (l & Hl & H).
  destruct a as [a|], l as [l|]; try discriminate. simplify_eq. split; [|by eapply optional_text_spec].
  destruct (_nested_text _ _) as [s|] eqn:Hn; [|by eapply optional_text_spec]. simplify_eq. by eapply nested_text_spec.
Qed.

Lemma keeps_dispatch h p q r :
  is_review r = false ->
  keeps (local h p q r) (dispatch_step float_repr sha256 py_str host self now h p q r) (goes_on h p q).
Proof.
  intros Hr. unfold dispatch_step. destruct (phase_is "dispatch_pending" r) eqn:Hp; cbn [negb]; [|by apply keeps_go_on].
  apply phase_is_spec in Hp. wp_lift arguments Harg. wp keeps_invoke_phase_synced x; [done|]. destruct x as [dispatched r1]. cbn [snd].
  eapply (keeps_pre (fun f => agree r r1 /\ synced sha256 self h p q r1 f /\ local h p q r1 f)); [by intros f _ [[] ?]|apply keeps_pure; intros Ha].
  destruct (needs_attention dispatched); [apply keeps_stop_here|]. assert (is_review r1 = false) as Hr1 by by rewrite (agree_review _ _ Ha).
  wp_lift ids Hids. destruct ids as [attempt lease]. destruct (dispatched_texts _ _ _ Hids) as [Hat Hle].
  eapply keeps_bind; [apply keeps_update_whole; [done|]|].
  - intros Hok. apply (change_owed float_repr r1 _ "dispatch_pending" "context_pending" false [FAttempt]); try done.
    + by rewrite (agree_phase _ _ Ha).
    + constructor; [|constructor]. cbn [Records.fact_holds forallb].
      rewrite (text_at_some _ "attempt_id" attempt), (text_at_some _ "lease_id" lease); try done;
        by rewrite field_update by compute_decide.
  - intros u. cbv beta. wp keeps_workers u'. apply keeps_go_on. unfold is_review. rewrite field_update_ne; [done|compute_decide..].
Qed.

(** Fetching the work-item fragment writes nothing. *)
Lemma keeps_expand P record reference max_bytes offset :
  keeps P (_expand_context_fragment float_repr host record reference max_bytes offset) (fun _ f => P f).
Proof.
  unfold _expand_context_fragment. destruct (field "fragment_id" reference); try apply keeps_raise.
  destruct (field "digest" reference); try apply keeps_raise. wp keeps_invoke expanded.
  destruct (needs_attention expanded); (eapply keeps_post; [|apply keeps_ret || apply keeps_lift]; by intros ? ? _ [_ ?]).
Qed.

Lemma keeps_fetch P turns record work_ref expansion received digest :
  keeps P (fetch_chunks float_repr sha256 float_of host turns record work_ref expansion received digest) (fun _ f => P f).
Proof.
  revert expansion received digest. induction turns as [|turns IH]; intros expansion received digest; cbn [fetch_chunks]; [apply keeps_raise|].
  wp_lift x Hx. destruct x as [received' c]. destruct (ck_next c) as [next|].
  - wp_lift u Hu. wp keeps_expand e. destruct (needs_attention e); [apply keeps_raise|apply IH].
  - eapply keeps_post; [|apply keeps_lift]. by intros ? ? _ [_ ?].
Qed.

Lemma keeps_ensure P context record :
  keeps P (_ensure_work_item_fragment float_repr sha256 float_of host context record) (fun _ f => P f).
Proof.
  unfold _ensure_work_item_fragment. destruct (elements _) as [fragments|]; [|apply keeps_raise].
  destruct (work_reference context) as [work_ref|]; [|apply keeps_raise].
  destruct (field "fragment_id" work_ref); try apply keeps_raise. destruct (field "digest" work_ref); try apply keeps_raise.
  assert (keeps P (bind (_expand_context_fragment float_repr host record work_ref _MAX_CONTEXT_CAPSULE_BYTES None)
    (fun expanded => if needs_attention expanded then raise (WorkflowError (expansion_reason expanded))
       else match field "fragment" expanded with
            | PDict fragment => bind (lift (accept_fragment float_of s fragment)) (fun fragment => ret (with_fragment context fragments fragment))
            | _ => bind (fetch_chunks float_repr sha256 float_of host 33 record work_ref expanded "" None)
                     (fun payload => ret (with_fragment context fragments [("reference", PDict work_ref); ("payload", PDict payload)]))
            end)) (fun _ f => P f)) as Hexp.
  { wp keeps_expand e. destruct (needs_attention e); [apply keeps_raise|].
    assert (forall d : pydict, keeps P (ret d) (fun _ f => P f)) as Hret by (intros d; eapply keeps_post; [|apply keeps_ret]; by intros ? ? _ [_ ?]).
    destruct (field "fragment" e); try (wp keeps_fetch payload; apply Hret). wp_lift fr Hfr. apply Hret. }
  destruct (List.find _ _) as [[]|]; try apply Hexp. eapply keeps_post; [|apply keeps_lift]. by intros ? ? _ [_ ?].
Qed.

Lemma all_strs_strs l : all_strs (map PStr l) = Some l.
Proof. by apply all_strs_map. Qed.

Lemma keeps_context h p q r :
  is_review r = false ->
  keeps (local h p q r) (context_step float_repr sha256 float_of host self now h p q r) (goes_on h p q).
Proof.
  intros Hr. unfold context_step. destruct (phase_is "context_pending" r) eqn:Hp; cbn [negb]; [|by apply keeps_go_on].
  apply phase_is_spec in Hp. wp_lift arguments Harg. wp keeps_invoke answer. destruct (needs_attention answer); [apply keeps_stop_here|].
  wp_lift capsule Hcap. wp keeps_ensure context. wp_lift ids Hids.
  eapply keeps_bind; [apply keeps_update; [done|]|].
  - intros Hok. apply (change_owed float_repr r _ "context_pending" "active" false [FContext] Hok Hp Hr); [reflexivity..|].
    constructor; [|constructor]. cbn [Records.fact_holds]. unfold has_context. rewrite !field_update by compute_decide.
    change (dict_get "context" _) with (Some (PDict context)). change (dict_get "requirement_ids" _) with (Some (PList (map PStr ids))).
    cbv iota. rewrite all_strs_strs. by rewrite bool_decide_eq_true_2.
  - intros d. cbv beta. eapply (keeps_pre (fun f => is_review d = false /\ local h p q d f)).
    { intros f Hg (Hh & Ha & _). split; [|by apply local_holds]. rewrite (agree_review _ _ Ha). unfold is_review.
      rewrite field_update_ne; [done|compute_decide..]. }
    apply keeps_pure. intros Hrd. by apply keeps_go_on.
Qed.

Lemma keeps_next_packet h p q is_new r :
  is_review r = false ->
  keeps (local h p q r) (next_packet float_repr sha256 py_str float_of host self now h p q is_new r) anything.
Proof.
  intros Hr. unfold next_packet. destruct (phase_is "review_pending" r); [apply keeps_respond|].
  destruct (phase_is "active" r) eqn:Hp; cbn [negb]; [|wp_done]. apply phase_is_spec in Hp.
  eapply (keeps_bind _ _ _ (fun _ => known float_repr sha256 self h p q)).
  { destruct is_new; [|by apply keeps_resume]. eapply keeps_post; [|apply keeps_ret]. intros ? ? _ [_ ?]. by eexists. }
  intros resumed. destruct (negb is_new && needs_attention resumed); [wp_done|]. eapply (keeps_pre always); [done|].
  eapply (keeps_bind _ _ _ (fun _ => always)).
  { destruct is_new; [by eapply keeps_post; [|apply keeps_ret]|]. wp keeps_stored_any d. by eapply keeps_post; [|apply keeps_ret]. }
  intros d. wp keeps_workers u. wp_done.
Qed.

Lemma keeps_and_then h p q r m k :
  keeps (local h p q r) m (goes_on h p q) -> (forall r', is_review r' = false -> keeps (local h p q r') (k r') anything) ->
  keeps (local h p q r) (and_then m k) anything.
Proof.
  intros Hm Hk. unfold and_then. eapply keeps_bind; [exact Hm|]. intros [answer|r']; [wp_done|]. cbn.
  apply keeps_pure. apply Hk.
Qed.

Lemma keeps_advance h p q requested is_new r :
  is_review r = false ->
  keeps (local h p q r) (advance float_repr sha256 py_str float_of host self now h p q requested is_new r) anything.
Proof.
  intros Hr. unfold advance. apply keeps_and_then; [by apply keeps_select|]. intros r1 Hr1.
  apply keeps_and_then; [by apply keeps_workspace|]. intros r2 Hr2.
  apply keeps_and_then; [by apply keeps_dispatch|]. intros r3 Hr3.
  apply keeps_and_then; [by apply keeps_context|]. intros r4 Hr4. by apply keeps_next_packet.
Qed.

Lemma keeps_next_reserved h p q requested is_new r :
  is_review r = false ->
  keeps (local h p q r) (next_reserved float_repr sha256 py_str float_of host self now h p q requested is_new r) anything.
Proof.
  intros Hr. unfold next_reserved. destruct (phase_is "active" r && has_context r) eqn:Hp.
  - apply andb_true_iff in Hp as [Hp _]. apply phase_is_spec in Hp. eapply keeps_bind; [by apply keeps_resume|intros resumed; cbv beta].
    destruct (needs_attention resumed); [wp_done|]. eapply (keeps_pre always); [done|]. wp keeps_stored_any d.
    wp keeps_workers u. wp_done.
  - destruct (phase_is "no_work" r); [apply keeps_respond|by apply keeps_advance].
Qed.

Lemma keeps_next_task project repository task_id run_id token :
  keeps (unused_in token)
    (next_task float_repr sha256 py_str float_of host resolver self now project repository task_id run_id token) anything.
Proof.
  unfold next_task. eapply keeps_guarded. wp_lift x Hx. destruct x as [p q]. wp_lift requested Hreq.
  eapply (keeps_bind _ _ _ (fun o f => (forall review, o = Some review -> candidate_ok review) /\ unused_in token f)).
  { unfold pending_review_of. destruct (negb _); [eapply keeps_post; [|apply keeps_ret]; by intros ? ? _ [-> ?]|].
    eapply (keeps_bind _ _ _ (fun _ f => unused_in token f)).
    - intros w r w' Hg HP [= <- <-]. split; [by apply proceeds_refl|done].
    - intros [c|]; [eapply keeps_post; [|apply keeps_ret]; by intros ? ? _ [-> ?]|apply keeps_next_pending]. }
  intros [review|]; apply keeps_pure; intros Hreview.
  - eapply keeps_bind; [apply keeps_reserve_review; by apply Hreview|]. intros [[h r] b]. eapply keeps_any, keeps_respond.
  - eapply keeps_bind; [apply keeps_reserve_workflow|]. intros [[h r] is_new]. cbn [fst snd]. apply keeps_pure. intros Hr.
    eapply (keeps_pre (local h p q (with_scope p q r))).
    { intros f Hg Hh. apply local_scope. by apply local_holds. }
    apply keeps_next_reserved. unfold is_review. by rewrite (agree_scope p q r "mode") by compute_decide.
Qed.

End Props.
