(* ===== verification/InspectProps.v ===== *)
(** * Inspecting a task: it reads, and stays within the budget *)

From Stdlib Require Import ZArith SpecFloat.
From S2P Require Import Prelude PyValue Text Json Journal Phases PhaseProps Workflow TaskContext Inspect.
Import Journal Phases Workflow TaskContext Inspect.

#[local] Open Scope string_scope.
#[local] Open Scope Z_scope.
#[local] Open Scope list_scope.

Section Reads.
Context {N : Type}.
#[local] Abbreviation M A := (option file * N -> result A * (option file * N)).

(** An operation that leaves the journal alone. *)
Definition reads {A} (m : M A) : Prop := forall w r w', m w = (r, w') -> w'.1 = w.1.

Lemma reads_ret {A} (a : A) : reads (ret a).
Proof. by intros w r w' [= _ <-]. Qed.

Lemma reads_raise {A} x : reads (raise x : M A).
Proof. by intros w r w' [= _ <-]. Qed.

Lemma reads_lift {A} (r : result A) : reads (lift r).
Proof. by intros w r' w' [= _ <-]. Qed.

Lemma reads_reading {A} (m : option file -> result A) : reads (reading m).
Proof. by intros w r w' [= _ <-]. Qed.

Lemma reads_bind {A B} (m : M A) (k : A -> M B) : reads m -> (forall a, reads (k a)) -> reads (bind m k).
Proof.
  intros Hm Hk w r w' H. unfold bind in H. destruct (m w) as [[a|x] w1] eqn:Hw; apply Hm in Hw.
  - apply Hk in H. congruence.
  - injection H as _ <-. congruence.
Qed.
End Reads.

Lemma reads_invoke {N0} (host : string -> string -> string -> pydict -> N0 -> result pyval * N0) tool record arguments :
  reads (_invoke (native host) tool record arguments).
Proof. intros w r w' H. by eapply invoke_file. Qed.

Create HintDb reads.
#[export] Hint Resolve reads_ret reads_raise reads_lift reads_reading reads_bind reads_invoke : reads.
#[export] Hint Extern 1 (reads (match ?x with _ => _ end)) => destruct x : reads.
#[export] Hint Extern 1 (reads (if ?b then _ else _)) => destruct b : reads.

Section Props.
Context (float_repr : spec_float -> string) (sha256 : string -> string) (py_str : pyval -> string).
Context {N0 : Type} (host : string -> string -> string -> pydict -> N0 -> result pyval * N0).
Context (self : actor).

Lemma reads_detail handle kind target budget record :
  reads (detail float_repr py_str host handle kind target budget record).
Proof.
  unfold detail, inspect_task_detail, inspect_fragment, inspect_run, inspect_messages, inspect_candidate, inspect_attempt,
    inspect_sections, value_of, ask, check, _expand_context_fragment. 
  auto 30 with reads.
Qed.

(** The outer handler answers every exception with an "attention_required". *)
Lemma guarded_cases {N} handle allowed fallback (m : option file * (N * list string) -> result pydict * (option file * (N * list string))) w r w' :
  guarded handle allowed fallback m w = (r, w') ->
  exists r1, m w = (r1, w') /\
    match r1 with
    | Ok answer => r = Ok answer
    | Err x => exists reason actions, r = Ok (_attention reason handle actions PNone)
    end.
Proof.
  unfold guarded. intros H. destruct (m w) as [r1 w1]. exists r1.
  destruct r1 as [a|[]]; injection H as <- <-; (split; [done|]); try done; by eexists _, _.
Qed.

Lemma attention_needed reason handle actions next : needs_attention (_attention reason handle actions next) = true.
Proof. done. Qed.

Lemma native_attention_needed d handle : needs_attention (_native_attention d handle) = true.
Proof. done. Qed.

Lemma bounded_size value name limit d :
  _bounded_mapping float_repr value name limit = Ok d ->
  d = value /\ exists t, _canonical float_repr (PDict value) = Ok t /\ len t <= limit.
Proof.
  unfold _bounded_mapping. destruct (_canonical _ _) as [t|]; [|discriminate]. intros H.
  apply result_bind_ok in H as (u & Hu & H). apply raise_if_ok, Z.ltb_ge in Hu. injection H as <-. split; [done|]. by exists t.
Qed.

Lemma bind_ok_inv {A B} (m : option file * (N0 * list string) -> result A * (option file * (N0 * list string))) (k : A -> _) w (b : B) w' :
  bind m k w = (Ok b, w') -> exists a w1, m w = (Ok a, w1) /\ k a w1 = (Ok b, w').
Proof. unfold bind. destruct (m w) as [[a|x] w1] eqn:Hm; [|discriminate]. intros H. by exists a, w1. Qed.

(** An early answer of a detail asks for attention. *)
Definition early_attention (x : result (pydict + pyval)) : Prop :=
  match x with Ok (inl answer) => needs_attention answer = true | _ => True end.

Definition early {A} (m : option file * (N0 * list string) -> result (pydict + A) * (option file * (N0 * list string))) : Prop :=
  forall w x w', m w = (Ok (inl x), w') -> needs_attention x = true.

Lemma early_ask handle tool record arguments : early (ask host handle tool record arguments).
Proof.
  intros w x w' H. unfold ask in H. apply bind_ok_inv in H as (d & w1 & _ & H). unfold ret in H.
  destruct (needs_attention d); [|by injection H]. injection H as <- _. apply native_attention_needed.
Qed.

Lemma early_value_of m : early m -> early (value_of m).
Proof.
  intros Hm w x w' H. unfold value_of in H. apply bind_ok_inv in H as (y & w1 & Hy & H). unfold ret in H.
  destruct y as [a|]; [|by injection H]. injection H as <- _. by eapply Hm.
Qed.

Lemma early_bind {A B} (m : option file * (N0 * list string) -> result A * (option file * (N0 * list string))) (k : A -> _) :
  (forall a, early (A:=B) (k a)) -> early (bind m k).
Proof. intros Hk w x w' H. apply bind_ok_inv in H as (a & w1 & _ & H). by eapply Hk. Qed.

Lemma early_inr {A} (v : A) : early (ret (inr v)).
Proof. by intros w x w' [=]. Qed.

Lemma early_raise {A} x : early (A:=A) (raise x).
Proof. by intros w y w' [=]. Qed.

Lemma early_detail handle kind target budget record :
  early (detail float_repr py_str host handle kind target budget record).
Proof.
  unfold detail, inspect_task_detail, inspect_messages, inspect_candidate, inspect_attempt.
  repeat match goal with
    | |- early (if ?b then _ else _) => destruct b
    | |- early (ret (inr _)) => apply early_inr
    | |- early (value_of _) => apply early_value_of, early_ask
    | |- early (bind (lift _) _) => apply early_bind; intros ?
    | |- early (bind (check _ _) _) => apply early_bind; intros ?
    end.
  - unfold inspect_fragment. apply early_bind. intros [id offset]. destruct (field "context" record); try apply early_raise.
    destruct (manifest_reference _ _); [|apply early_raise]. intros w x w' H. apply bind_ok_inv in H as (e & w1 & _ & H).
    destruct (needs_attention e); [injection H as <- _; apply native_attention_needed|].
    apply bind_ok_inv in H as (d' & w2 & _ & H). discriminate.
  - unfold inspect_run. destruct (text_of _) as [run|]; [|apply early_raise]. intros w x w' H.
    apply bind_ok_inv in H as (y & w1 & Hy & H). destruct y as [a|d']; [injection H as <- _; by eapply early_ask|].
    destruct (negb _); [discriminate|]. destruct (dict_get_default _ _ _); discriminate.
  - destruct (String.eqb kind "integration"), (field "integration_receipt" record);
      try apply early_inr; apply early_value_of, early_ask.
  - unfold inspect_sections. intros w x w' H. apply bind_ok_inv in H as (y & w1 & Hy & H). unfold ret in H.
    destruct y as [a|d']; [injection H as <- _; by eapply early_ask|discriminate].
Qed.

Lemma inspect_reads handle kind target budget_bytes w r w' :
  inspect_task float_repr sha256 py_str host self handle kind target budget_bytes w = (r, w') -> w'.1 = w.1.
Proof.
  intros H. apply guarded_cases in H as (r1 & H & _). revert H. enough (forall w r w', _ w = (r, w') -> w'.1 = w.1) as Hreads by apply Hreads.
  destruct budget_bytes; try apply reads_raise. unfold check, _handle.
  repeat (apply reads_bind; [apply reads_lift || apply reads_reading|intros ?]). destruct a1 as [[p q] d].
  apply reads_bind; [apply reads_detail|]. intros [answer|v]; [apply reads_ret|]. apply reads_bind; [apply reads_lift|intros ?; apply reads_lift].
Qed.

(** Inspection reads.  Whatever the handle, the kind and the target, and whatever the
    authority answers, [inspect_task] answers, leaves the journal as it is, and either asks for attention or
    answers within the limit of the caller's budget, which was between 512 bytes and 64 KiB. *)
Theorem inspect_task_bounded handle kind target budget_bytes w r w' :
  inspect_task float_repr sha256 py_str host self handle kind target budget_bytes w = (r, w') ->
  w'.1 = w.1 /\ exists answer, r = Ok answer /\
    (needs_attention answer = true \/
     exists budget text, budget_bytes = PInt budget /\ 512 <= budget <= 64 * 1024 /\ kind ∈ kinds /\
       _canonical float_repr (PDict answer) = Ok text /\ len text <= Z.min (budget + 1024) (Z.max _MAX_RESPONSE_BYTES budget)).
Proof.
  intros H. split; [by eapply inspect_reads|]. apply guarded_cases in H as (r1 & H & Hr).
  destruct r1 as [answer|x]; [|destruct Hr as (reason & actions & ->); eexists; split; [done|by left]].
  exists answer. split; [done|]. destruct budget_bytes as [| |budget| | | |]; try discriminate.
  apply bind_ok_inv in H as (u & w1 & Hc1 & H). apply bind_ok_inv in H as (u' & w2 & Hc2 & H).
  apply bind_ok_inv in H as ([[p q] d] & w3 & Hh & H). apply bind_ok_inv in H as (x & w4 & Hd & H).
  destruct x as [early|v]; [injection H as <- _; left; by eapply early_detail|]. right.
  apply bind_ok_inv in H as (bounded & w5 & Hb & H). unfold lift in H, Hc1, Hc2. unfold check, lift in Hc1, Hc2.
  injection Hc1 as Hc1 _. injection Hc2 as Hc2 _. injection H as H _.
  apply raise_if_ok, negb_false_iff, andb_true_iff in Hc1 as [H1 H2]. apply Z.leb_le in H1, H2.
  apply raise_if_ok, negb_false_iff, bool_decide_eq_true in Hc2.
  apply bounded_size in H as (-> & t & Ht & Hl). exists budget, t. done.
Qed.

End Props.
