(* ===== verification/Session.v ===== *)
(** * Sessions of the compact workflow

    Any sequence of the host's operations, in any order, against a native authority that
    answers anything and may change between two operations: the type of the records, the
    phase machine, what an ended handle proves and how a journalled phase is replayed. *)

From Stdlib Require Import ZArith SpecFloat.
From stdpp Require Import relations.
From S2P Require Import Prelude PyValue Text Json Journal JournalProps Phases PhaseProps Workflow Coordinate TaskContext Selection Inspect Records WorkflowLogic WorkflowProps CoordinateProps SelectionProps InspectProps.
Import Journal Phases Workflow Coordinate TaskContext Selection Inspect Records.

#[local] Open Scope string_scope.
#[local] Open Scope Z_scope.
#[local] Open Scope list_scope.

(** The operations of [CompactWorkflowHost], with the values they draw, and a turn of a
    renewal worker. *)
Inductive event :=
  | ENext (project repository task_id run_id : pyval) (token : string)
  | EInspect (handle kind : string) (target budget : pyval)
  | ECoordinate (handle action : string) (payload : option pydict) (token : string)
  | EFinish (handle action : string) (disposition note reason : pyval) (token : string)
  | ERenew (handle project repository : string)
  | EPreview (project repository action digest revision : pyval) (preview : pydict) (token : string)
  | EComplete (project repository : pyval) (proposal : string) (key : pyval) (receipt : pydict).

Section Session.
Context (float_repr : spec_float -> string) (sha256 : string -> string) (py_str : pyval -> string).
Context (float_of : string -> spec_float).
Context {N0 : Type} (host : string -> string -> string -> pydict -> N0 -> result pyval * N0).
Context (resolver : option (string -> option string -> option string + pyval)).
Context (self : actor).
#[local] Abbreviation world := (option file * (N0 * list string))%type.

Definition run_event (now : pyval) (e : event) (w : world) : world :=
  match e with
  | ENext p q t r token =>
      (next_task float_repr sha256 py_str float_of host resolver self now p q t r token w).2
  | EInspect h kind target budget =>
      (inspect_task float_repr sha256 py_str host self h kind target budget w).2
  | ECoordinate h action payload token =>
      (coordinate_task float_repr sha256 py_str host self now h action payload token w).2
  | EFinish h action disposition note reason token =>
      (finish_task float_repr sha256 py_str host self now h action disposition note reason token w).2
  | ERenew h p q => (_lease_renewal_loop float_repr sha256 py_str host self now h p q w).2
  | EPreview p q action digest revision preview token =>
      (stored (record_admin_preview float_repr sha256 self p q action digest revision preview token now) w).2
  | EComplete p q proposal key receipt =>
      (stored (complete_admin_preview float_repr sha256 self p q proposal key receipt now) w).2
  end.

(** A handle is drawn from 256 random bits: it names no workflow yet. *)
Definition fresh_event (e : event) (f : option file) : Prop :=
  match e with ENext _ _ _ _ token => unused_in sha256 self token f | _ => True end.

(** One operation, or a change of the authority by others. *)
Inductive session_step : world -> world -> Prop :=
  | step_event now e w : is_number now = true -> fresh_event e w.1 -> session_step w (run_event now e w)
  | step_authority f n n' workers : session_step (f, (n, workers)) (f, (n', workers)).

(** A session starts without a journal. *)
Definition session (w : world) : Prop := exists n, rtc session_step (None, (n, [])) w.


(** What the journal holds under a handle. *)
Definition record_at (f : option file) (handle project repository : string) (d : pydict) : Prop :=
  holds sha256 self f "workflow" handle project repository d.

(** ** Every operation keeps the journal *)

Lemma keeps_preview now p q action digest revision preview token :
  is_number now = true ->
  keeps float_repr sha256 self (N0:=N0) always
    (stored (record_admin_preview float_repr sha256 self p q action digest revision preview token now)) anything.
Proof.
  intros Hn. unfold record_admin_preview.
  assert (forall x, keeps float_repr sha256 self (N0:=N0) always (stored (fun f => (@Err string x, f))) anything) as Herr.
  { intros x w r w' Hg _ H. unfold stored in H. cbv beta iota in H. injection H as <- <-. by split; [apply proceeds_refl|]. }
  destruct (_ ≫= _) as [[[[[[p' q'] a] d] rev] body]|x]; [|apply Herr].
  unfold create. destruct (_bounded_mapping _ _ _ _) as [m|x]; [|apply Herr].
  apply keeps_mutate. intros f es b es' changed _ Hr Hok Hrs H.
  pose proof H as H'. apply result_bind_ok in H' as (u & _ & H'). apply result_bind_ok in H' as (u' & _ & H'). simplify_eq.
  split; [intros Hl Ht; by eapply create_safe|].
  match goal with |- context [es ++ ?l] => destruct (append_follows float_repr es l) as [H1 H2]; [|done|done] end.
  intros e ->%list_elem_of_singleton Hk. discriminate.
Qed.

Lemma keeps_complete_preview now p q proposal key receipt :
  is_number now = true ->
  keeps float_repr sha256 self (N0:=N0) always
    (stored (complete_admin_preview float_repr sha256 self p q proposal key receipt now)) anything.
Proof.
  intros Hn. unfold complete_admin_preview.
  destruct (_ ≫= _) as [[[[p' q'] k] r]|x].
  2: { intros w r w' Hg _ H. unfold stored in H. cbv beta iota in H. injection H as <- <-. by split; [apply proceeds_refl|]. }
  unfold atomic_update. apply keeps_mutate. intros f es a es' changed _ Hr Hok Hrs H. destruct changed; [|done].
  split; [intros Hl Ht; by eapply (atomic_safe sha256 self)|].
  apply result_bind_ok in H as (o & _ & H). apply result_bind_ok in H as (e & _ & H). apply result_bind_ok in H as ([d c] & _ & H).
  cbv beta iota in H. simplify_eq.
  destruct (set_other_kind float_repr sha256 self now "admin_preview" proposal a es) as [H1 H2]; done.
Qed.

Lemma event_proceeds now e w :
  is_number now = true -> fresh_event e w.1 -> good float_repr sha256 self w.1 ->
  proceeds float_repr sha256 self w.1 (run_event now e w).1.
Proof.
  intros Hn Hf Hg.
  assert (forall A (m : world -> result A * world) P Q, keeps float_repr sha256 self P m Q -> P w.1 ->
    proceeds float_repr sha256 self w.1 (m w).2.1) as Hkeep.
  { intros A m P Q Hm HP. destruct (m w) as [r w'] eqn:H. by apply (Hm w r w' Hg HP H). }
  destruct e; cbn [run_event fresh_event] in *.
  - by eapply Hkeep; [apply keeps_next_task|].
  - destruct (inspect_task _ _ _ _ _ _ _ _ _ w) as [r w'] eqn:H. apply inspect_reads in H. cbn [snd]. rewrite H. by apply proceeds_refl.
  - by eapply Hkeep; [apply keeps_coordinate|].
  - by eapply Hkeep; [apply keeps_finish|].
  - by eapply Hkeep; [apply keeps_renewal|].
  - by eapply Hkeep; [apply keeps_preview|].
  - by eapply Hkeep; [apply keeps_complete_preview|].
Qed.

Lemma steps_proceed w w' :
  rtc session_step w w' -> good float_repr sha256 self w.1 -> proceeds float_repr sha256 self w.1 w'.1.
Proof.
  induction 1 as [w|w w1 w2 H1 _ IH]; intros Hg; [by apply proceeds_refl|].
  assert (proceeds float_repr sha256 self w.1 w1.1) as Hp.
  { destruct H1; [by apply event_proceeds|by apply proceeds_refl]. }
  eapply proceeds_trans; [exact Hp|]. apply IH. by destruct Hp.
Qed.

Lemma session_good w : session w -> good float_repr sha256 self w.1.
Proof.
  intros [n Hs]. eapply steps_proceed in Hs; [by destruct Hs|]. exists []. split; [done|]. split.
  - split; [constructor|]. intros e He. by apply not_elem_of_nil in He.
  - intros e He. by apply not_elem_of_nil in He.
Qed.

(** C9: Workflow records are well typed.  Whatever operations ran, in whatever order, and whatever the
    authority answered, every record a handle names has the keys of a dictionary once, a known phase, and all the
    facts of that phase: the selected task, the attempt and its lease, the context and its requirements, the
    journalled finish, the validated handoff proof, the candidate, and for a handle that ended, the receipt. *)
Theorem session_records_typed w handle project repository d :
  session w -> record_at w.1 handle project repository d ->
  NoDup d.*1 /\ exists phase facts, field "phase" d = PStr phase /\ facts_of (is_review d) phase = Some facts /\
    forall x, x ∈ facts -> fact_holds float_repr d x = true.
Proof.
  intros Hs Hd. apply session_good in Hs. pose proof (holds_record_ok _ _ _ _ _ _ _ _ Hs Hd) as Hok.
  split; [by eapply record_ok_NoDup|]. pose proof Hok as Hok'. apply andb_true_iff in Hok' as [_ Hok'].
  destruct (field "phase" d) eqn:Hp; try discriminate. destruct (record_ok_facts float_repr d s Hok Hp) as (facts & Hf & Hall).
  by exists s, facts.
Qed.

(** C8: The phases are a state machine.  However a session goes on, the handle still names a record
    of the same scope and mode, whose phase was reached along the edges, and once a task is selected, an attempt
    dispatched or a candidate put under review, the record names that same one for ever. *)
Theorem session_phases_advance w w' handle project repository d :
  session w -> rtc session_step w w' -> record_at w.1 handle project repository d ->
  exists d', record_at w'.1 handle project repository d' /\ is_review d' = is_review d /\
    forall phase, field "phase" d = PStr phase ->
      (exists phase', field "phase" d' = PStr phase' /\ rtc (edge (is_review d)) phase phase') /\
      forall k, k ∈ fixed (is_review d) phase -> field k d' = field k d.
Proof.
  intros Hs Hsteps Hd. apply steps_proceed in Hsteps; [|by apply session_good].
  destruct (proceeds_holds _ _ _ _ _ _ _ _ _ Hsteps Hd) as (d' & Hd' & [H1 H2 H3] & _).
  exists d'. split; [done|]. split; [done|]. intros phase Hp. split; [by apply H2|]. intros k Hk. by apply (H3 phase).
Qed.

(** A phase without edges is kept for ever. *)
Definition terminal (review : bool) (phase : string) : bool :=
  forallb (fun pq => negb (String.eqb pq.1 phase)) (if review then review_edges else authoring_edges).

Lemma terminal_stays review p q : terminal review p = true -> rtc (edge review) p q -> q = p.
Proof.
  intros Ht Hr. destruct Hr as [|p p1 q He _]; [done|]. unfold terminal in Ht. rewrite forallb_forall in Ht.
  unfold edge in He. apply list_elem_of_In in He. specialize (Ht _ He). cbn in Ht. by rewrite String.eqb_refl in Ht.
Qed.

(** C7: A handle ends only on proof.  When a handle is integrated, one of its completed operations is a
    versioned Git receipt, of this integration, finalized and applied, with a valid resulting source; when it is
    released, either a recovery receipt proves that this very attempt was released under its lease, or its release was
    asked for and its handoff proof is valid.  No later operation leaves such a phase. *)
Theorem session_ends_on_proof w w' handle project repository d phase :
  session w -> rtc session_step w w' -> record_at w.1 handle project repository d ->
  field "phase" d = PStr phase -> phase ∈ ["integrated"; "released"] ->
  (if String.eqb phase "integrated"
   then exists action_id o i, (action_id, PDict o) ∈ operations_of d /\ field "state" o = PStr "complete" /\
          _git_integration_result (field "result" o) = Ok i /\ i.(in_applied) = true
   else recovered d = true \/ releases d = true /\ proof_ok float_repr d = true) /\
  exists d', record_at w'.1 handle project repository d' /\ field "phase" d' = PStr phase.
Proof.
  intros Hs Hsteps Hd Hp Hin. pose proof (session_good _ Hs) as Hg.
  pose proof (holds_record_ok _ _ _ _ _ _ _ _ Hg Hd) as Hok. split.
  - destruct (record_ok_facts float_repr d phase Hok Hp) as (facts & Hf & Hall).
    unfold facts_of in Hf. set_unfold in Hin. destruct Hin as [->|[->|[]]]; cbn [String.eqb Ascii.eqb Bool.eqb].
    + destruct (is_review d); [|discriminate]. change (Some [FReview; FApplied] = Some facts) in Hf. injection Hf as <-.
      assert (existsb applied_operation (operations_of d).*2 = true) as Happ by (apply (Hall FApplied); set_solver).
      apply existsb_exists in Happ as (v & Hv & Ha). apply list_elem_of_In, list_elem_of_fmap in Hv as ([id v'] & -> & Hv).
      cbn [snd] in *. destruct v'; try discriminate. apply andb_true_iff in Ha as [Hst Ha]. unfold is_applied in Ha.
      destruct (_git_integration_result _) as [i|] eqn:Hi; [|discriminate]. exists id, d0, i. split; [done|]. split; [|done].
      destruct (field "state" d0); try discriminate. cbn in Hst. by apply String.eqb_eq in Hst as ->.
    + destruct (is_review d); [discriminate|]. change (Some [FTask; FAttempt; FContext; FReleased] = Some facts) in Hf. injection Hf as <-.
      assert (recovered d || (releases d && proof_ok float_repr d) = true) as Hrel by (apply (Hall FReleased); set_solver).
      apply orb_true_iff in Hrel as [Hrel|Hrel]; [by left|right]. by apply andb_true_iff in Hrel.
  - apply steps_proceed in Hsteps; [|done]. destruct (proceeds_holds _ _ _ _ _ _ _ _ _ Hsteps Hd) as (d' & Hd' & [_ H2 _] & _).
    exists d'. split; [done|]. destruct (H2 phase Hp) as (q & -> & Hq). f_equal. eapply terminal_stays; [|exact Hq].
    set_unfold in Hin. destruct Hin as [->|[->|[]]].
    + destruct (is_review d) eqn:Hrv; [done|]. destruct (record_ok_facts float_repr d _ Hok Hp) as (facts & Hf & _). by rewrite Hrv in Hf.
    + destruct (is_review d) eqn:Hrv; [|done]. destruct (record_ok_facts float_repr d _ Hok Hp) as (facts & Hf & _). by rewrite Hrv in Hf.
Qed.

(** An answered intent, and what a later one of the same name is read as. *)
Lemma intent_read digest name d intents kr :
  intents_of d = Ok intents -> read_intent digest (field name intents) = Ok kr ->
  exists i, intent_of name d = Some i /\ field name intents = PDict i.
Proof.
  intros Hi Hr. unfold intents_of, dict_get_default in Hi. unfold intent_of, field, dict_get_default in *.
  destruct (dict_get "phase_intents" d) as [[]|]; try discriminate; apply Ok_inj in Hi as <-; [|discriminate].
  destruct (dict_get name d0) as [[]|]; try discriminate. by eexists.
Qed.

Lemma intent_found name d i :
  intent_of name d = Some i -> exists intents, intents_of d = Ok intents /\ field name intents = PDict i.
Proof.
  unfold intent_of, intents_of, field, dict_get_default. destruct (dict_get "phase_intents" d) as [[]|]; try discriminate.
  intros H. exists d0. split; [done|]. destruct (dict_get name d0) as [[]|]; try discriminate. by injection H as <-.
Qed.

Lemma kept_read digest i i' kr :
  read_intent digest (PDict i) = Ok kr -> field "payload_digest" i' = field "payload_digest" i -> i' = i \/ refreshed i i' ->
  exists kr', read_intent digest (PDict i') = Ok kr' /\ (kr' = kr \/ generation i < generation i').
Proof.
  intros Hr Hp [->|[Hg (k & r & Hk & Hv)]]; [by exists kr; auto|]. exists (k, r). split; [|by right].
  cbn in *. rewrite Hk, Hv. unfold has_payload in *. rewrite Hp.
  destruct (field "expected_revision" i), (field "idempotency_key" i); try discriminate.
  by destruct (py_eqb _ _).
Qed.

(** C35: A phase is sent under one idempotency key.  Once a phase intent of a workflow was answered, and
    whatever operations then run, of any handle and in any order, and whatever the authority answers, asking for the
    same phase again (after a lost answer, with any other key or revision offered) makes no native call and no write
    and gives the key and the revision the journal has: the same ones, unless an operation refreshed the intent
    after a stale revision, which raises its generation.  Another request under that phase name is refused. *)
Theorem phase_intent_replays w w1 w2 now handle project repository record name tool arguments er ik kr rec1 :
  session w -> is_number now = true ->
  _phase_intent float_repr sha256 py_str (native host) self now handle project repository record name tool arguments er ik w
    = (Ok (kr, rec1), w1) ->
  rtc session_step w1 w2 ->
  exists d1 i1 d2 i2 kr2,
    record_at w1.1 handle project repository d1 /\ intent_of name d1 = Some i1 /\
    record_at w2.1 handle project repository d2 /\ intent_of name d2 = Some i2 /\
    (kr2 = kr \/ generation i1 < generation i2) /\
    (forall now' record' er' ik' n,
       _phase_intent float_repr sha256 py_str (native host) self now' handle project repository record' name tool arguments er' ik' (w2.1, n)
       = (Ok (kr2, dict_update record' d2), (w2.1, n))) /\
    (forall now' record' er' ik' n tool' arguments' digest digest',
       payload_digest float_repr sha256 (payload_of tool arguments) = Ok digest ->
       payload_digest float_repr sha256 (payload_of tool' arguments') = Ok digest' -> digest' <> digest ->
       _bounded_mapping float_repr (payload_of tool' arguments') "native_phase_intent" (32 * 1024) = Ok (payload_of tool' arguments') ->
       _phase_intent float_repr sha256 py_str (native host) self now' handle project repository record' name tool' arguments' er' ik' (w2.1, n)
       = (Err (WorkflowError "workflow_phase_intent_conflict"), (w2.1, n))).
Proof.
  intros Hs Hn H Hsteps. pose proof (session_good _ Hs) as Hg.
  destruct (keeps_phase_intent_any float_repr sha256 py_str host self now Hn handle project repository record name tool arguments er ik
    w _ _ Hg I H) as [Hp1 _].
  destruct w as [f n0]. pose proof H as H'.
  apply (phase_intent_ok float_repr sha256 self py_str (native host)) in H' as (digest & d1 & intents1 & Hb & Hd & Hsafe & Hh1 & Hi1 & Hr1);
    [|done|by eapply good_ok].
  destruct (intent_read _ _ _ _ _ Hi1 Hr1) as (i1 & Hint1 & E1). rewrite E1 in Hr1.
  destruct (proceeds_holds _ _ _ _ _ _ _ _ _ (steps_proceed _ _ Hsteps (pr_good _ _ _ _ _ Hp1)) Hh1) as (d2 & Hh2 & _ & Hkept).
  destruct (Hkept name i1 Hint1) as (i2 & Hint2 & Epay & Hcase).
  destruct (kept_read digest i1 i2 kr Hr1 Epay Hcase) as (kr2 & Hr2 & Hkr).
  destruct (intent_found name d2 i2 Hint2) as (intents2 & Hi2 & E2).
  assert (field name intents2 <> PNone) as Hnn by by rewrite E2.
  exists d1, i1, d2, i2, kr2. do 5 (split; [done|]). split.
  - intros now' record' er' ik' n.
    rewrite (phase_intent_hit float_repr sha256 self py_str (native host) _ _ _ _ _ _ _ _ _ _ _ _ _ _ _ Hb Hd Hsafe Hh2 Hi2 Hnn).
    by rewrite E2, Hr2.
  - intros now' record' er' ik' n tool' arguments' dg digest' Hdg Hd' Hdd Hb'. rewrite Hd in Hdg. apply Ok_inj in Hdg as <-.
    rewrite (phase_intent_hit float_repr sha256 self py_str (native host) _ _ _ _ _ _ _ _ _ _ _ _ _ _ _ Hb' Hd' Hsafe Hh2 Hi2 Hnn).
    by rewrite E2, (read_intent_other _ _ _ _ Hr2 Hdd).
Qed.

End Session.
