(* ===== verification/GatesProps.v ===== *)
(** * Completion comes after verification

    The native host with a log of its calls.  A completion hands an attempt back only after
    every declared requirement was verified without attention. *)

From Stdlib Require Import ZArith SpecFloat.
From stdpp Require Import pretty.
From S2P Require Import Prelude PyValue Text Json Journal Phases Workflow Coordinate Records InspectProps.
Import Journal Phases Workflow Coordinate Records.

#[local] Open Scope string_scope.
#[local] Open Scope Z_scope.
#[local] Open Scope list_scope.

Record native_call := { nc_tool : string; nc_arguments : pydict; nc_answer : result pyval }.

Section Log.
Context (float_repr : spec_float -> string) (sha256 : string -> string) (py_str : pyval -> string).
Context {N0 : Type} (host : string -> string -> string -> pydict -> N0 -> result pyval * N0).
Context (self : actor) (now : pyval).

(** The host, with every call and its answer appended to a log. *)
Definition logged (tool project repository : string) (arguments : pydict) (s : N0 * list native_call) :
    result pyval * (N0 * list native_call) :=
  let '(r, n) := host tool project repository arguments s.1 in
  (r, (n, s.2 ++ [{| nc_tool := tool; nc_arguments := arguments; nc_answer := r |}])).

#[local] Abbreviation world := (option file * ((N0 * list native_call) * list string))%type.
#[local] Abbreviation M A := (world -> result A * world).

Definition log_of (w : world) : list native_call := w.2.1.2.

(** [m] appends calls to the log; [P] relates them to its result. *)
Definition logs {A} (m : M A) (P : result A -> list native_call -> Prop) : Prop :=
  forall w r w', m w = (r, w') -> exists new, log_of w' = log_of w ++ new /\ P r new.

Definition only (tools : list string) (new : list native_call) : Prop := forall c, c ∈ new -> c.(nc_tool) ∈ tools.

Lemma only_nil tools : only tools [].
Proof. intros c Hc. by apply not_elem_of_nil in Hc. Qed.

Lemma only_app tools a b : only tools a -> only tools b -> only tools (a ++ b).
Proof. intros Ha Hb c [Hc|Hc]%elem_of_app; [by apply Ha|by apply Hb]. Qed.

Lemma logs_quiet {A} (m : M A) : (forall w r w', m w = (r, w') -> log_of w' = log_of w) -> logs m (fun _ new => new = []).
Proof. intros H w r w' Hm. exists []. split; [by rewrite app_nil_r; eapply H|done]. Qed.

Lemma logs_ret {A} (a : A) : logs (ret a) (fun r new => r = Ok a /\ new = []).
Proof. intros w r w' [= <- <-]. exists []. by rewrite app_nil_r. Qed.

Lemma logs_lift {A} (x : result A) : logs (lift x) (fun r new => r = x /\ new = []).
Proof. intros w r w' [= <- <-]. exists []. by rewrite app_nil_r. Qed.

Lemma logs_raise {A} x : logs (raise x : M A) (fun r new => r = Err x /\ new = []).
Proof. intros w r w' [= <- <-]. exists []. by rewrite app_nil_r. Qed.

Lemma logs_stored {A} (m : option file -> result A * option file) : logs (stored m) (fun _ new => new = []).
Proof. apply logs_quiet. intros w r w' H. unfold stored in H. destruct (m w.1). by injection H as _ <-. Qed.

Lemma logs_reading {A} (m : option file -> result A) : logs (reading m) (fun _ new => new = []).
Proof. apply logs_quiet. by intros w r w' [= _ <-]. Qed.

Lemma logs_weaken {A} (m : M A) P Q : logs m P -> (forall r new, P r new -> Q r new) -> logs m Q.
Proof. intros Hm HPQ w r w' H. destruct (Hm w r w' H) as (new & Hl & HP). exists new. split; [done|by apply HPQ]. Qed.

Lemma logs_bind {A B} (m : M A) (k : A -> M B) P Q S :
  logs m P -> (forall a, logs (k a) (Q a)) ->
  (forall x new, P (Err x) new -> S (Err x) new) ->
  (forall a n1 r n2, P (Ok a) n1 -> Q a r n2 -> S r (n1 ++ n2)) -> logs (bind m k) S.
Proof.
  intros Hm Hk Herr Hok w r w' H. unfold bind in H. destruct (m w) as [[a|x] w1] eqn:Hw.
  - destruct (Hm _ _ _ Hw) as (n1 & H1 & HP). destruct (Hk a _ _ _ H) as (n2 & H2 & HQ).
    exists (n1 ++ n2). split; [by rewrite H2, H1, <-app_assoc|by eapply Hok].
  - injection H as <- <-. destruct (Hm _ _ _ Hw) as (n1 & H1 & HP). exists n1. split; [done|by apply Herr].
Qed.

(** A step that makes no call. *)
Lemma logs_then {A B} (m : M A) (k : A -> M B) (S : result B -> list native_call -> Prop) :
  logs m (fun _ new => new = []) -> (forall x, S (Err x) []) -> (forall a, logs (k a) S) -> logs (bind m k) S.
Proof.
  intros Hm Hx Hk. eapply logs_bind; [exact Hm|exact Hk|by intros x new ->|]. by intros a n1 r n2 -> H.
Qed.

Lemma logs_lift_then {A B} (x : result A) (k : A -> M B) (S : result B -> list native_call -> Prop) :
  (forall e, x = Err e -> S (Err e) []) -> (forall a, x = Ok a -> logs (k a) S) -> logs (bind (lift x) k) S.
Proof.
  intros Hx Hk. destruct x as [a|e].
  - intros w r w' H. by apply (Hk a eq_refl).
  - intros w r w' H. unfold bind, lift in H. injection H as <- <-. exists []. split; [by rewrite app_nil_r|by apply Hx].
Qed.

(** ** Phases *)

(** What [_invoke] makes of an answer. *)
Definition unwrap (r : result pyval) : result pydict :=
  match r with
  | Err x => Err x
  | Ok (PDict result) =>
      if negb (is_status "ok" result) then Ok result
      else match dict_get "data" result with
           | Some (PDict data) => Ok data
           | _ => Err (WorkflowError "native_result_invalid")
           end
  | Ok _ => Err (WorkflowError "native_result_invalid")
  end.

Lemma logs_invoke tool record arguments :
  logs (_invoke (native logged) tool record arguments)
    (fun r new => (exists x, r = Err x /\ new = []) \/
       exists c, new = [c] /\ c.(nc_tool) = tool /\ c.(nc_arguments) = arguments /\ r = unwrap c.(nc_answer)).
Proof.
  unfold _invoke. destruct (field "project" record), (field "repository" record);
    try (eapply logs_weaken; [apply logs_raise|]; intros r new [-> ->]; left; by eexists).
  intros w r w' H. unfold native, logged in H. destruct (host _ _ _ _ _) as [a n]. injection H as <- <-.
  exists [{| nc_tool := tool; nc_arguments := arguments; nc_answer := a |}]. split; [done|]. right. eexists. split; [done|].
  split; [done|]. split; [done|]. by destruct a as [[]|].
Qed.

Lemma logs_observe project repository :
  logs (observe_revision py_str (native logged) project repository) (fun _ new => only ["todo_read_authority"] new).
Proof.
  unfold observe_revision. eapply (logs_bind _ _ _ (fun _ _ new => new = [])).
  - apply logs_invoke.
  - intros d. destruct (is_status _ _); (eapply logs_weaken; [apply logs_raise || apply logs_ret|]); by intros r new [_ ->].
  - intros x new [(? & _ & ->)|(c & -> & Ht & _)]; [apply only_nil|]. intros c' ->%list_elem_of_singleton. rewrite Ht. left.
  - intros d n1 r n2 H1 ->. rewrite app_nil_r. destruct H1 as [(? & _ & ->)|(c & -> & Ht & _)]; [apply only_nil|].
    intros c' ->%list_elem_of_singleton. rewrite Ht. left.
Qed.

(** A call of the tool with these arguments, and the answer the caller got. *)
Definition called (tool : string) (arguments : pydict) (answer : pydict) (new : list native_call) : Prop :=
  exists c, c ∈ new /\ c.(nc_tool) = tool /\ (forall k v, dict_get k arguments = Some v -> dict_get k c.(nc_arguments) = Some v) /\
    unwrap c.(nc_answer) = Ok answer.

Lemma called_app_l tool arguments answer a b : called tool arguments answer a -> called tool arguments answer (a ++ b).
Proof. intros (c & Hc & H). exists c. split; [apply elem_of_app; by left|done]. Qed.

Lemma called_app_r tool arguments answer a b : called tool arguments answer b -> called tool arguments answer (a ++ b).
Proof. intros (c & Hc & H). exists c. split; [apply elem_of_app; by right|done]. Qed.

Definition phase_log (tool : string) (arguments : pydict) (r : result (pydict * pydict)) (new : list native_call) : Prop :=
  only [tool; "todo_read_authority"] new /\ forall d r', r = Ok (d, r') -> called tool arguments d new.

Lemma only_read tool new : only ["todo_read_authority"] new -> only [tool; "todo_read_authority"] new.
Proof. intros H c Hc. right. by apply H. Qed.

Lemma logs_phase_intent handle project repository record name tool arguments er ik :
  logs (_phase_intent float_repr sha256 py_str (native logged) self now handle project repository record name tool arguments er ik)
    (fun _ new => only ["todo_read_authority"] new).
Proof.
  assert (forall A (m : M A), logs m (fun _ new => new = []) -> logs m (fun _ new => only ["todo_read_authority"] new)) as Hq.
  { intros A m Hm. eapply logs_weaken; [exact Hm|]. intros r new ->. apply only_nil. }
  assert (forall x, logs (ret x : M (string * Z * pydict)) (fun _ new => only ["todo_read_authority"] new)) as Hret.
  { intros x. apply Hq. eapply logs_weaken; [apply logs_ret|]. by intros r new [_ ->]. }
  unfold _phase_intent. apply logs_lift_then; [intros; apply only_nil|intros payload _].
  apply logs_lift_then; [intros; apply only_nil|intros digest _].
  apply logs_then; [apply logs_reading|intros; apply only_nil|intros latest].
  apply logs_lift_then; [intros; apply only_nil|intros intents _].
  assert (forall prior, logs (bind (lift (read_intent digest prior)) (fun kr => ret (kr, dict_update record latest)) : M (string * Z * pydict))
    (fun _ new => only ["todo_read_authority"] new)) as Hhit.
  { intros prior. apply logs_lift_then; [intros; apply only_nil|intros; apply Hret]. }
  destruct (field name intents); try apply Hhit. clear Hhit.
  eapply (logs_bind _ _ (fun _ new => only ["todo_read_authority"] new) (fun _ _ new => only ["todo_read_authority"] new)).
  - destruct er; [apply logs_observe|..]; apply Hq; (eapply logs_weaken; [apply logs_ret|]); by intros r new [_ ->].
  - intros expected. apply logs_lift_then; [intros; apply only_nil|intros revision _].
    apply logs_lift_then; [intros; apply only_nil|intros key _].
    apply logs_then; [apply logs_stored|intros; apply only_nil|intros current].
    apply logs_lift_then; [intros; apply only_nil|intros ints _]. apply logs_lift_then; [intros; apply only_nil|intros; apply Hret].
  - by intros x new H.
  - intros a n1 r n2 H1 H2. by apply only_app.
Qed.

Lemma get_with_intent arguments kr k v : dict_get k arguments = Some v -> dict_get k (with_intent arguments kr) = Some v.
Proof. intros H. unfold with_intent. by rewrite dict_get_app, H. Qed.

Lemma logs_send_phase handle project repository record name tool arguments er ik :
  logs (send_phase float_repr sha256 py_str (native logged) self now handle project repository record name tool arguments er ik)
    (phase_log tool arguments).
Proof.
  unfold send_phase. eapply (logs_bind _ _ _ (fun _ => phase_log tool arguments)).
  - apply logs_phase_intent.
  - intros [kr r1]. eapply (logs_bind _ _ _ (fun d r new => r = Ok (d, r1) /\ new = [])); [apply logs_invoke|intros d; apply logs_ret| |].
    + intros x new [(? & _ & ->)|(c & -> & Ht & _)]; (split; [|by intros]); [apply only_nil|].
      intros c' ->%list_elem_of_singleton. rewrite Ht. left.
    + intros d n1 r n2 H1 [-> ->]. rewrite app_nil_r. destruct H1 as [(? & [=] & _)|(c & -> & Ht & Harg & Hu)].
      split; [intros c' ->%list_elem_of_singleton; rewrite Ht; left|]. intros d' r' [= <- <-].
      exists c. split; [left|]. split; [done|]. split; [|done]. intros k v Hk. rewrite Harg. by apply get_with_intent.
  - intros x new H. split; [by apply only_read|by intros].
  - intros [kr r1] n1 r n2 H1 [H2 H3]. split; [apply only_app; [by apply only_read|done]|].
    intros d r' ->. apply called_app_r. by eapply H3.
Qed.

Lemma logs_invoke_phase handle project repository record name tool arguments er ik :
  logs (_invoke_phase float_repr sha256 py_str (native logged) self now handle project repository record name tool arguments er ik)
    (phase_log tool arguments).
Proof.
  unfold _invoke_phase. eapply (logs_bind _ _ _ (fun x r new => if stale x.1 then phase_log tool arguments r new else r = Ok x /\ new = [])).
  - apply logs_send_phase.
  - intros [result r1]. cbn [fst]. destruct (stale result); [|apply logs_ret].
    eapply (logs_bind _ _ (fun _ new => only ["todo_read_authority"] new) (fun _ => phase_log tool arguments)).
    + unfold _refresh_phase_intent.
      eapply (logs_bind _ _ _ (fun _ _ new => new = [])); [apply logs_observe| |by intros|by intros a n1 r n2 H1 ->; rewrite app_nil_r].
      intros observed. apply logs_lift_then; [done|intros revision _]. apply logs_lift_then; [done|intros digest _].
      apply logs_then; [apply logs_stored|done|intros current]. eapply logs_weaken; [apply logs_ret|]. by intros r new [_ ->].
    + intros r2. apply logs_send_phase.
    + intros x new H. split; [by apply only_read|by intros].
    + intros r2 n1 r n2 H1 [H2 H3]. split; [apply only_app; [by apply only_read|done]|].
      intros d r' ->. apply called_app_r. by eapply H3.
  - intros x new [H1 H2]. split; [done|by intros].
  - intros [result r1] n1 r n2 [H1 H2] H3. cbn [fst] in H3. destruct (stale result).
    + destruct H3 as [H3 H4]. split; [by apply only_app|]. intros d r' ->. apply called_app_r. by eapply H4.
    + destruct H3 as [-> ->]. rewrite app_nil_r. split; [done|]. intros d r' [= <- <-]. by eapply H2.
Qed.

(** ** Gates *)

Definition verify_arguments (attempt : pyval) (id : string) : pydict := [("attempt_id", attempt); ("requirement_id", PStr id)].

(** The requirement was verified for the attempt, and the answer does not need attention. *)
Definition verified (attempt : pyval) (id : string) (new : list native_call) : Prop :=
  exists d, called "todo_verify_attempt" (verify_arguments attempt id) d new /\ needs_attention d = false.

Definition gates_log (attempt : pyval) (ids : list string) (r : result pydict) (new : list native_call) : Prop :=
  only ["todo_verify_attempt"; "todo_read_authority"] new /\
  forall d, r = Ok d -> is_status "ok" d = true -> forall id, id ∈ ids -> verified attempt id new.

Lemma attention_not_ok d handle : is_status "ok" (_native_attention d handle) = false.
Proof. done. Qed.

Lemma logs_run_each handle project repository record intents done ids :
  logs (run_each float_repr sha256 py_str logged self now handle project repository record intents done ids)
    (gates_log (field "attempt_id" record) ids).
Proof.
  revert done. induction ids as [|id ids IH]; intros acc; cbn [run_each].
  - eapply logs_weaken; [apply logs_lift|]. intros r new [_ ->]. split; [apply only_nil|]. intros d _ _ id Hid. by apply not_elem_of_nil in Hid.
  - eapply (logs_bind _ _ _ (fun x r new => if needs_attention x.1 then r = Ok (_native_attention x.1 (Some handle)) /\ new = []
        else gates_log (field "attempt_id" record) ids r new)).
    + apply logs_invoke_phase.
    + intros [d r1]. cbn [fst]. destruct (needs_attention d); [apply logs_ret|apply IH].
    + intros x new [H1 H2]. split; [done|by intros].
    + intros [d r1] n1 r n2 [H1 H2] H3. cbn [fst] in H3. destruct (needs_attention d) eqn:Ha.
      * destruct H3 as [-> ->]. rewrite app_nil_r. split; [done|]. intros d' [= <-] Hok. by rewrite attention_not_ok in Hok.
      * destruct H3 as [H3 H4]. split; [by apply only_app|]. intros d' -> Hok id' [->|Hid]%elem_of_cons.
        -- exists d. split; [|done]. apply called_app_l. by eapply H2.
        -- destruct (H4 d' eq_refl Hok id' Hid) as (d2 & Hc & Hd). exists d2. split; [by apply called_app_r|done].
Qed.

Lemma logs_gates handle project repository record payload ids :
  requested_requirements payload record = Ok ids ->
  logs (_run_gates float_repr sha256 py_str logged self now handle project repository record payload)
    (gates_log (field "attempt_id" record) ids).
Proof.
  intros Hids. unfold _run_gates, _run_gates_locked.
  assert (forall x, gates_log (field "attempt_id" record) ids (Err x) []) as Herr by (intros x; split; [apply only_nil|by intros]).
  apply logs_lift_then; [intros; apply Herr|intros requested Hreq]. rewrite Hids in Hreq. injection Hreq as <-.
  apply logs_lift_then; [intros; apply Herr|intros declared _].
  apply logs_lift_then; [intros; apply Herr|intros u _]. apply logs_lift_then; [intros; apply Herr|intros intents _].
  apply logs_run_each.
Qed.

(** ** Finishing *)

Definition extends {A} (m : M A) : Prop := logs m (fun _ _ => True).

Lemma extends_of {A} (m : M A) P : logs m P -> extends m.
Proof. intros H. by eapply logs_weaken. Qed.

Lemma extends_bind {A B} (m : M A) (k : A -> M B) : extends m -> (forall a, extends (k a)) -> extends (bind m k).
Proof. intros Hm Hk. eapply logs_bind; [exact Hm|exact Hk|done|done]. Qed.

Lemma extends_ret {A} (a : A) : extends (ret a).
Proof. eapply extends_of, logs_ret. Qed.
Lemma extends_lift {A} (x : result A) : extends (lift x).
Proof. eapply extends_of, logs_lift. Qed.
Lemma extends_stored {A} (m : option file -> result A * option file) : extends (stored m).
Proof. eapply extends_of, logs_stored. Qed.
Lemma extends_reading {A} (m : option file -> result A) : extends (reading m).
Proof. eapply extends_of, logs_reading. Qed.
Lemma extends_phase handle project repository record name tool arguments er ik :
  extends (_invoke_phase float_repr sha256 py_str (native logged) self now handle project repository record name tool arguments er ik).
Proof. eapply extends_of, logs_invoke_phase. Qed.

Ltac extend :=
  unfold update_record, _update, respond;
  repeat match goal with
  | |- extends (bind _ _) => apply extends_bind; [|intros ?]
  | |- extends (let '(_, _) := ?x in _) => destruct x
  | |- extends (match ?x with _ => _ end) => destruct x
  | |- extends (if ?b then _ else _) => destruct b
  end;
  try first [apply extends_ret | apply extends_lift | apply extends_stored | apply extends_reading | apply extends_phase].

Lemma extends_finish_steps handle project repository record note reason :
  extends (finish_steps float_repr sha256 py_str logged self now handle project repository record note reason).
Proof. unfold finish_steps, handback_step, report_step, release_step, _review_pending_packet. extend. Qed.

Lemma logs_stop handle : logs (_stop_lease_renewal handle : M unit) (fun _ new => new = []).
Proof. apply logs_quiet. by intros w r w' [= _ <-]. Qed.

Lemma logs_begin handle project repository disposition note reason token record ids :
  requested_requirements [] record = Ok ids ->
  logs (begin_finish float_repr sha256 py_str logged self now handle project repository "complete" disposition note reason token record)
    (fun r new => only ["todo_verify_attempt"; "todo_read_authority"] new /\
       forall r', r = Ok (inr r') -> forall id, id ∈ ids -> verified (field "attempt_id" record) id new).
Proof.
  intros Hids. unfold begin_finish. apply logs_lift_then; [intros; split; [apply only_nil|by intros]|intros u _].
  change (String.eqb "complete" "complete") with true. cbv iota.
  eapply (logs_bind _ _ _ (fun gates r new => new = [] /\ (is_status "ok" gates = false -> r = Ok (inl gates)))).
  - by apply logs_gates.
  - intros gates. destruct (is_status "ok" gates) eqn:Hg; cbn [negb].
    2: { eapply logs_weaken; [apply logs_ret|]. by intros r new [-> ->]. }
    enough (forall (m : M (pydict + pydict)), logs m (fun _ new => new = []) ->
      logs m (fun r new => new = [] /\ (true = false -> r = Ok (inl gates)))) as Hq.
    { apply Hq. apply logs_then; [apply logs_stop|done|intros u1]. apply logs_then; [apply logs_reading|done|intros d].
      apply logs_lift_then; [done|intros finish _]. unfold update_record, _update.
      eapply (logs_bind _ _ (fun _ new => new = []) (fun _ _ new => new = [])); [|intros u2; eapply logs_weaken; [apply logs_ret|by intros r new [_ ->]]|done|by intros a n1 r n2 -> ->].
      apply logs_then; [apply logs_stored|done|intros d2]. eapply logs_weaken; [apply logs_ret|by intros r new [_ ->]]. }
    intros m Hm. eapply logs_weaken; [exact Hm|]. by intros r new ->.
  - intros x new [H1 _]. split; [done|by intros].
  - intros gates n1 r n2 [H1 H2] [-> H3]. rewrite app_nil_r. split; [done|]. intros r' -> id Hid.
    destruct (is_status "ok" gates) eqn:Hg; [by eapply H2|]. by specialize (H3 eq_refl).
Qed.

(** The calls of a completion: the gates, and only after them the rest. *)
Definition gated (attempt : pyval) (ids : list string) (new : list native_call) : Prop :=
  exists gates rest, new = gates ++ rest /\ only ["todo_verify_attempt"; "todo_read_authority"] gates /\
    (rest = [] \/ forall id, id ∈ ids -> verified attempt id gates).

Lemma gated_nil attempt ids : gated attempt ids [].
Proof. exists [], []. split; [done|]. split; [apply only_nil|by left]. Qed.

Lemma logs_authoring handle project repository disposition note reason token record ids :
  field "phase" record = PStr "active" -> requested_requirements [] record = Ok ids ->
  logs (finish_authoring float_repr sha256 py_str logged self now handle project repository "complete" disposition note reason token record)
    (fun _ new => gated (field "attempt_id" record) ids new).
Proof.
  intros Hp Hids. unfold finish_authoring. apply logs_lift_then; [intros; apply gated_nil|intros u _].
  assert (forall phase, phase_is phase record = String.eqb "active" phase) as Hph by (intros ph; unfold phase_is; by rewrite Hp).
  assert (forall phases, phase_in phases record = Ok (bool_decide ("active" ∈ phases))) as Hin by (intros phs; unfold phase_in; by rewrite Hp).
  rewrite !Hph. change (String.eqb "active" "review_pending") with false. cbv iota.
  apply logs_lift_then; [intros; apply gated_nil|]. intros ended He. rewrite Hin in He. apply Ok_inj in He as <-.
  rewrite (bool_decide_eq_false_2 ("active" ∈ ended_phases)) by compute_decide. change (String.eqb "active" "active") with true. cbv iota.
  eapply (logs_bind _ _ _ (fun x _ new => match x with inl _ => new = [] | inr _ => True end)).
  - by apply logs_begin.
  - intros [answer|r]; [eapply logs_weaken; [apply logs_ret|by intros r new [_ ->]]|apply extends_finish_steps].
  - intros x new [H1 _]. exists new, []. split; [by rewrite app_nil_r|]. split; [done|by left].
  - intros x n1 r n2 [H1 H2] H3. exists n1, n2. split; [done|]. split; [done|]. destruct x as [answer|r']; [by left|right]. by eapply H2.
Qed.

(** In a gated log, any other call comes after the verifications. *)
Lemma gated_before attempt ids new before c after :
  gated attempt ids new -> new = before ++ c :: after -> c.(nc_tool) ∉ ["todo_verify_attempt"; "todo_read_authority"] ->
  forall id, id ∈ ids -> verified attempt id before.
Proof.
  intros (gates & rest & -> & Hg & Hrest) Heq Hc id Hid.
  apply app_eq_inv in Heq as [(k & -> & Hk)|(k & -> & Hk)].
  - destruct k as [|c' k].
    + cbn in Hk. rewrite app_nil_r in *. destruct Hrest as [->|Hv]; [discriminate|]. by apply Hv.
    + cbn in Hk. injection Hk as <- _. exfalso. apply Hc, Hg. apply elem_of_app. right. left.
  - destruct Hrest as [->|Hv]; [by destruct k|].
    destruct (Hv id Hid) as (d & Hd & Ha). exists d. split; [|done]. by apply called_app_l.
Qed.

Lemma requested_of_record record ids : field "requirement_ids" record = strs ids -> requested_requirements [] record = Ok ids.
Proof.
  intros H. assert (dict_get "requirement_ids" record = Some (strs ids)) as Hg.
  { unfold field, dict_get_default in H. destruct (dict_get _ _); [by f_equal|discriminate]. }
  unfold requested_requirements, dict_get_default. cbn [dict_get]. rewrite Hg.
  change (match all_strs (map PStr ids) with Some ids => Ok ids | None => Err (WorkflowError "requirement_ids_invalid") end = Ok ids).
  by rewrite (proj2 (all_strs_map _ ids) eq_refl).
Qed.

(** A step that makes no call and leaves the world. *)
Lemma lift_at {A B} (x : result A) (k : A -> M B) w r w' :
  bind (lift x) k w = (r, w') -> (exists e, x = Err e /\ r = Err e /\ w' = w) \/ exists a, x = Ok a /\ k a w = (r, w').
Proof.
  unfold bind, lift. destruct x as [a|e]; [by right; exists a|]. intros [= <- <-]. left. by exists e.
Qed.

(** C10: Completion comes after verification.  When [finish_task] completes an active attempt, every native call it
    makes other than a verification or a reading of the authority's revision (handing back, reporting, all
    of them) comes after a verification of each declared requirement of the task, for this attempt, that did
    not ask for attention. *)
Theorem complete_after_gates handle disposition note reason token f n log workers project repository d ids r w' :
  get_any_scope sha256 self "workflow" (PStr handle) f = Ok (project, repository, d) ->
  field "phase" d = PStr "active" -> field "requirement_ids" d = strs ids ->
  finish_task float_repr sha256 py_str logged self now handle "complete" disposition note reason token (f, ((n, log), workers)) = (r, w') ->
  exists new, log_of w' = log ++ new /\
    forall before c after, new = before ++ c :: after -> c.(nc_tool) ∉ ["todo_verify_attempt"; "todo_read_authority"] ->
      forall id, id ∈ ids -> verified (field "attempt_id" d) id before.
Proof.
  intros Hget Hp Hids H. apply guarded_cases in H as (r1 & H & _).
  assert (requested_requirements [] (with_scope project repository d) = Ok ids) as Hreq.
  { apply requested_of_record. by rewrite (agree_scope project repository d "requirement_ids") by compute_decide. }
  assert (field "phase" (with_scope project repository d) = PStr "active") as Hp'
    by by rewrite (agree_scope project repository d "phase") by compute_decide.
  assert (exists new, log_of w' = log ++ new /\ gated (field "attempt_id" d) ids new) as (new & Hl & Hg).
  2: { exists new. split; [done|]. intros before c after Heq Hc id Hid. by eapply gated_before. }
  assert (w' = (f, ((n, log), workers)) -> exists new, log_of w' = log ++ new /\ gated (field "attempt_id" d) ids new) as Hsame.
  { intros ->. exists []. split; [by rewrite app_nil_r|apply gated_nil]. }
  apply lift_at in H as [(e & _ & _ & Hw)|(u & _ & H)]; [by apply Hsame|].
  apply lift_at in H as [(e & _ & _ & Hw)|(note' & _ & H)]; [by apply Hsame|].
  apply lift_at in H as [(e & _ & _ & Hw)|(reason' & _ & H)]; [by apply Hsame|].
  unfold bind at 1, _handle, reading in H. cbn [fst] in H. rewrite Hget in H. cbv iota beta zeta in H.
  rewrite (bool_decide_eq_false_2 ("complete" ∈ review_actions)) in H by compute_decide.
  rewrite <-(agree_scope project repository d "attempt_id") by compute_decide.
  by destruct (logs_authoring _ _ _ _ _ _ _ _ _ Hp' Hreq _ _ _ H) as (new & Hl & Hg); exists new.
Qed.

End Log.
