(* ===== verification/ContextProps.v ===== *)
(** * The context and the packet of a task: sizes, completeness and reassembly

    The loop that makes a compact context state its own size ends, and the size is right;
    a packet names every fragment it leaves out; a fragment served in chunks is assembled
    whole and is the one whose digest was announced. *)

From Stdlib Require Import ZArith SpecFloat.
From stdpp Require Import pretty.
From S2P Require Import Prelude PyValue Text Json JsonProps Journal Phases Workflow TaskContext TaskPacket Records InspectProps.
Import Journal Phases Workflow TaskContext TaskPacket.

#[local] Open Scope string_scope.
#[local] Open Scope Z_scope.
#[local] Open Scope list_scope.

(** ** Lengths *)

Lemma len_app a b : len (a +:+ b) = len a + len b.
Proof. unfold len. rewrite append_length. lia. Qed.

Lemma len_nonneg s : 0 <= len s.
Proof. unfold len. lia. Qed.

(** The number of decimal digits. *)
Definition digits (z : Z) : Z := len (pretty z).

Lemma go_length (x : N) s :
  exists n : nat, String.length (pretty_N_go x s) = (String.length s + n)%nat /\
    Z.of_N x < 10 ^ Z.of_nat n /\ (n = O \/ 10 ^ (Z.of_nat n - 1) <= Z.of_N x).
Proof.
  revert s. induction (N.lt_wf_0 x) as [x _ IH]; intros s.
  assert (x = 0 \/ 0 < x)%N as [->|Hx] by lia.
  - exists O. rewrite pretty_N_go_0. split; [lia|]. split; [lia|by left].
  - rewrite pretty_N_go_step by done.
    destruct (IH (x `div` 10)%N) with (s := String (pretty_N_char (x `mod` 10)) s) as (n & Hn & Hlt & Hge); [by apply N.div_lt|].
    exists (S n). split; [rewrite Hn; cbn; lia|]. rewrite N2Z.inj_div in Hlt, Hge. change (Z.of_N 10) with 10 in *.
    assert (0 < Z.of_N x) as Hx' by lia. pose proof (Z.div_mod (Z.of_N x) 10 ltac:(lia)) as Hdm.
    pose proof (Z.mod_pos_bound (Z.of_N x) 10 ltac:(lia)) as Hm. set (q := Z.of_N x / 10) in *.
    replace (Z.of_nat (S n)) with (Z.of_nat n + 1) by lia. rewrite Z.pow_add_r by lia. split; [lia|]. right.
    replace (Z.of_nat n + 1 - 1) with (Z.of_nat n) by lia. destruct Hge as [->|Hge]; [cbn; lia|].
    destruct n as [|n]; [cbn; lia|]. replace (Z.of_nat (S n)) with (Z.of_nat (S n) - 1 + 1) by lia.
    rewrite Z.pow_add_r by lia. lia.
Qed.

Lemma digits_spec z :
  0 <= z -> 1 <= digits z /\ z < 10 ^ digits z /\ (digits z = 1 \/ 10 ^ (digits z - 1) <= z).
Proof.
  intros Hz. unfold digits, len. destruct z as [|p|p]; [cbn; lia| |lia].
  change (pretty (Z.pos p)) with (pretty_N_go (N.pos p) "").
  destruct (go_length (N.pos p) "") as (n & -> & Hlt & Hge). cbn [String.length Nat.add]. change (Z.of_N (N.pos p)) with (Z.pos p) in *.
  destruct Hge as [->|Hge]; [cbn in Hlt; lia|]. destruct n as [|n]; [cbn in Hlt; lia|]. split; [lia|]. split; [done|by right].
Qed.

Lemma digits_mono a b : 0 <= a -> a <= b -> digits a <= digits b.
Proof.
  intros Ha Hab. destruct (digits_spec a Ha) as (Ha1 & _ & Ha3). destruct (digits_spec b ltac:(lia)) as (Hb1 & Hb2 & _).
  destruct (Z_le_gt_dec (digits a) (digits b)) as [|Hgt]; [done|exfalso]. destruct Ha3 as [Ha3|Ha3]; [lia|].
  pose proof (Z.pow_le_mono_r 10 (digits b) (digits a - 1) ltac:(lia) ltac:(lia)). lia.
Qed.

(** One more digit is the most that adding the size of the size can bring. *)
Lemma digits_near b x : 17 <= b -> b <= x -> x <= b + digits b + 1 -> digits b <= digits x <= digits b + 1.
Proof.
  intros Hb H1 H2. split; [by apply digits_mono; lia|]. destruct (digits_spec b ltac:(lia)) as (Hb1 & Hb2 & _).
  destruct (digits_spec x ltac:(lia)) as (Hx1 & _ & Hx3). destruct Hx3 as [Hx3|Hx3]; [lia|].
  destruct (Z_le_gt_dec (digits x) (digits b + 1)) as [|Hgt]; [done|exfalso].
  pose proof (Z.pow_le_mono_r 10 (digits b + 1) (digits x - 1) ltac:(lia) ltac:(lia)) as Hp.
  rewrite Z.pow_add_r in Hp by lia. change (10 ^ 1) with 10 in Hp.
  assert (digits b < 10 ^ digits b) by (apply Z.pow_gt_lin_r; lia). lia.
Qed.

(** The sizes the loop goes through. *)
Lemma sizes_settle (f : Z -> Z) b size :
  (forall e, 0 <= e -> f e = b + digits e) -> 0 <= size -> size <= b -> 17 <= b ->
  let e1 := f size in let e2 := f e1 in let e3 := f e2 in
  e1 = size \/ e2 = e1 \/ e3 = e2 \/ f e3 = e3.
Proof.
  intros Hf H0 Hs Hb e1 e2 e3.
  assert (e1 = b + digits size) as E1 by by apply Hf. pose proof (digits_mono size b H0 Hs) as D0.
  destruct (digits_spec size H0) as (D1 & _ & _). assert (e2 = b + digits e1) as E2 by (apply Hf; lia).
  destruct (digits_near b e1 Hb ltac:(lia) ltac:(lia)) as [N1 N1'].
  assert (e3 = b + digits e2) as E3 by (apply Hf; lia). destruct (digits_near b e2 Hb ltac:(lia) ltac:(lia)) as [N2 N2'].
  assert (f e3 = b + digits e3) as E4 by (apply Hf; lia). destruct (digits_near b e3 Hb ltac:(lia) ltac:(lia)) as [N3 N3'].
  pose proof (digits_mono size e1 H0 ltac:(lia)) as M0. pose proof (digits_mono e1 e2 ltac:(lia) ltac:(lia)) as M1.
  pose proof (digits_mono e2 e3 ltac:(lia) ltac:(lia)) as M2. lia.
Qed.

(** ** The size of a JSON object *)

Lemma mapM_result_app {A B} (f : A -> result B) l k :
  mapM_result f (l ++ k) = (a ← mapM_result f l; b ← mapM_result f k; Ok (a ++ b)).
Proof.
  induction l as [|x l IH]; cbn; [by destruct (mapM_result f k)|]. destruct (f x) as [y|]; [|done]. cbn. rewrite IH.
  destruct (mapM_result f l); [|done]. cbn. by destruct (mapM_result f k).
Qed.

Fixpoint total (l : list string) : Z := match l with [] => 0 | s :: l => len s + total l end.

Lemma total_app l k : total (l ++ k) = total l + total k.
Proof. induction l as [|s l IH]; cbn; [done|]. rewrite IH. lia. Qed.

Lemma total_perm l k : l ≡ₚ k -> total l = total k.
Proof. induction 1; cbn; lia. Qed.

Lemma comma_sep_length s l : len (comma_sep (s :: l)) = total (s :: l) + Z.of_nat (length l).
Proof.
  revert s. induction l as [|s' l IH]; intros s; [cbn; lia|].
  change (comma_sep (s :: s' :: l)) with (s +:+ "," +:+ comma_sep (s' :: l)). rewrite !len_app, IH.
  cbn [total length]. change (len ",") with 1. lia.
Qed.

(** The braces, the entries and the commas between them. *)
Lemma object_length (texts : list (string * string)) :
  texts <> [] -> len ("{" +:+ comma_sep (merge_sort entry_le texts).*2 +:+ "}") = total texts.*2 + Z.of_nat (length texts) + 1.
Proof.
  intros Hne. pose proof (merge_sort_Permutation entry_le texts) as Hp. rewrite !len_app. change (len "{") with 1. change (len "}") with 1.
  rewrite <-(total_perm _ _ (fmap_Permutation snd _ _ Hp)), <-(Permutation_length Hp).
  destruct (merge_sort entry_le texts) as [|t l] eqn:Hm; [by apply Permutation_nil in Hp|].
  cbn [fmap list_fmap]. rewrite comma_sep_length. cbn [length]. unfold fmap. rewrite length_map. lia.
Qed.

Lemma text_size_snoc float_repr d k v size t :
  d <> [] -> text_size float_repr d = Ok size -> json_dumps float_repr v = Ok t ->
  text_size float_repr (d ++ [(k, v)]) = Ok (size + len (quote k) + 2 + len t).
Proof.
  unfold text_size, _canonical. intros Hne Hs Ht. rewrite dumps_dict in *. rewrite mapM_result_app.
  apply result_bind_ok in Hs as (a & Ha & Hs). apply result_bind_ok in Ha as (texts & Hx & Ha). rewrite Hx.
  injection Ha as <-. injection Hs as <-. cbn [mapM_result]. unfold entry_dump at 1. cbn [fst snd]. rewrite Ht. cbn [mbind result_bind].
  f_equal. rewrite !object_length.
  - rewrite fmap_app, total_app, length_app. cbn. rewrite !len_app. change (len ":") with 1. lia.
  - destruct d; [done|]. cbn in Hx. apply result_bind_ok in Hx as (y & _ & Hx). apply result_bind_ok in Hx as (ys & _ & Hx). by injection Hx as <-.
  - by destruct texts.
Qed.

(** ** A compact context states its own size *)

Lemma text_size_with float_repr d size e :
  d <> [] -> "encoded_bytes" ∉ d.*1 -> text_size float_repr d = Ok size ->
  text_size float_repr (with_size d e) = Ok (size + 17 + digits e).
Proof.
  intros Hne Hk Hs. unfold with_size. rewrite dict_set_new by done. rewrite (text_size_snoc float_repr d _ _ size (pretty e)) by done.
  change (len (quote "encoded_bytes")) with 15. unfold digits. f_equal. lia.
Qed.

Lemma text_size_nonneg float_repr d size : text_size float_repr d = Ok size -> 0 <= size.
Proof. unfold text_size. intros H. apply result_bind_ok in H as (t & _ & H). injection H as <-. apply len_nonneg. Qed.

Lemma settle_done float_repr d size :
  d <> [] -> "encoded_bytes" ∉ d.*1 -> text_size float_repr d = Ok size ->
  exists n, settle float_repr settling_turns d size = Some (Ok (with_size d n)) /\ text_size float_repr (with_size d n) = Ok n.
Proof.
  intros Hne Hk Hs. pose proof (text_size_nonneg _ _ _ Hs) as H0.
  pose proof (fun e => text_size_with float_repr d size e Hne Hk Hs) as Hw.
  set (f e := size + 17 + digits e) in Hw. pose proof (sizes_settle f (size + 17) size ltac:(done) H0 ltac:(lia) ltac:(lia)) as Hf.
  assert (forall e, text_size float_repr (with_size d e) = Ok (f e)) as Hw' by done. clear Hw. clearbody f. cbv zeta in Hf.
  unfold settling_turns.
  do 4 (cbn [settle]; rewrite Hw'; case Z.eqb_spec; [intros He; eexists; split; [done|by rewrite Hw', He]|intros ?]).
  by destruct Hf as [|[|[|]]].
Qed.

(** The loop that makes a compact context state its own size ends, and the size is right.  When the
    included ids are hashable and the context can be written, the compact context is the base with one more key,
    encoded_bytes, whose value is the length of the canonical text of the whole, that key included. *)
Theorem compact_context_states_size float_repr context included size :
  forallb hashable (included_ids included) = true ->
  text_size float_repr (compact_base context included) = Ok size ->
  exists n, _compact_public_context float_repr context included = Ok (compact_base context included ++ [("encoded_bytes", PInt n)]) /\
    text_size float_repr (compact_base context included ++ [("encoded_bytes", PInt n)]) = Ok n.
Proof.
  intros Hh Hs. unfold _compact_public_context. rewrite Hh, Hs. cbn [negb raise_if mbind result_bind].
  assert ("encoded_bytes" ∉ (compact_base context included).*1) as Hk by (cbn; set_solver).
  destruct (settle_done float_repr (compact_base context included) size) as (n & Hn & Ht); [done|done|done|].
  rewrite Hn. exists n. unfold with_size in *. by rewrite dict_set_new in *.
Qed.

(** ** A packet names what it leaves out *)

Lemma py_eqb_str s v : py_eqb (PStr s) v = true -> v = PStr s.
Proof. destruct v; cbn; try discriminate. by intros <-%String.eqb_eq. Qed.

Lemma compact_inv float_repr context included d :
  _compact_public_context float_repr context included = Ok d -> exists n, d = compact_base context included ++ [("encoded_bytes", PInt n)].
Proof.
  intros H. pose proof H as H'. unfold _compact_public_context in H'. apply result_bind_ok in H' as (u & Hh & H').
  apply raise_if_ok, negb_false_iff in Hh. apply result_bind_ok in H' as (size & Hs & _).
  destruct (settle_done float_repr (compact_base context included) size) as (n & Hn & Ht); [done|cbn; set_solver|done|].
  exists n. unfold _compact_public_context in H. rewrite Hh, Hs in H. cbn [negb raise_if mbind result_bind] in H. rewrite Hn in H.
  injection H as <-. unfold with_size. apply dict_set_new. cbn. set_solver.
Qed.

Lemma by_priority_sub fragments ordered : by_priority fragments = Ok ordered -> ordered ⊆ fragments.
Proof.
  unfold by_priority. intros H. apply result_bind_ok in H as (keyed & Hk & H).
  generalize dependent [0; 1; 2; 3; 4; 5; 6; 7]. intros ps H. injection H as <-.
  assert (keyed.*2 = fragments) as <-.
  { revert keyed Hk. induction fragments as [|f l IH]; cbn; intros keyed Hk; [by injection Hk as <-|].
    apply result_bind_ok in Hk as (y & Hy & Hk). apply result_bind_ok in Hk as (ys & Hys & Hk). injection Hk as <-.
    apply result_bind_ok in Hy as (p & _ & Hy). injection Hy as <-. cbn. f_equal. by apply IH. }
  intros x Hx. apply list_elem_of_In, in_concat in Hx as (l & Hl & Hx). apply in_map_iff in Hl as (p & <- & _).
  apply list_elem_of_In, list_elem_of_fmap in Hx as (kf & -> & Hx). apply list_elem_of_fmap. exists kf. split; [done|].
  apply list_elem_of_In in Hx. apply List.filter_In in Hx as [Hx _]. by apply list_elem_of_In.
Qed.

Lemma add_fragments_spec float_repr context base summary fragments included compact result :
  add_fragments float_repr context base summary included compact fragments = Ok result ->
  _compact_public_context float_repr context included = Ok compact ->
  exists more, _compact_public_context float_repr context (included ++ more) = Ok result /\
    forall f, f ∈ more -> PDict f ∈ fragments.
Proof.
  revert included compact. induction fragments as [|f l IH]; intros included compact H Hc.
  { injection H as <-. exists []. rewrite app_nil_r. split; [done|]. intros f Hf. by apply not_elem_of_nil in Hf. }
  assert (add_fragments float_repr context base summary included compact l = Ok result ->
    exists more, _compact_public_context float_repr context (included ++ more) = Ok result /\
      forall f0, f0 ∈ more -> PDict f0 ∈ f :: l) as Hskip.
  { intros Hl. destruct (IH included compact Hl Hc) as (more & Hm & Hin). exists more. split; [done|]. intros g Hg. right. by apply Hin. }
  destruct f; try (by apply Hskip). cbn [add_fragments] in H. destruct (fragment_id_of d) as [id|]; [|by apply Hskip].
  destruct (already_included id included); [by apply Hskip|]. apply result_bind_ok in H as (candidate & Hcand & H).
  apply result_bind_ok in H as (size & _ & H). destruct (_ <? size); [by apply Hskip|].
  destruct (IH _ _ H Hcand) as (more & Hm & Hin). exists (d :: more). rewrite <-app_assoc in Hm. split; [done|].
  intros g [->|Hg]%elem_of_cons; [by left|right; by apply Hin].
Qed.

(** The ids a packet lists as left out. *)
Definition listed_omissions (packet : pydict) : list pyval :=
  default [] (c ← mapping (field "context_continuation" packet); elements (field "omitted_fragment_ids" c)).

Lemma listed_partial handle record resumed summary compact :
  listed_omissions (partial_packet (packet_base handle record resumed) summary compact) = omitted_ids compact.
Proof. reflexivity. Qed.

Lemma refs_named context row : row ∈ _context_refs context -> exists s, field "fragment_id" row = PStr s.
Proof.
  unfold _context_refs. destruct (_ ≫= _) as [l|]; [|by intros ?%not_elem_of_nil].
  intros Hr. apply list_elem_of_In, List.filter_In in Hr as [_ Hr]. destruct (field "fragment_id" row); try discriminate. by eexists.
Qed.

Lemma refs_accounted context included n row s :
  row ∈ _context_refs context -> field "fragment_id" row = PStr s ->
  (exists f, f ∈ included /\ fragment_id_of f = Some s) \/
  PStr s ∈ omitted_ids (compact_base context included ++ [("encoded_bytes", PInt n)]).
Proof.
  intros Hr Hs. destruct (existsb (py_eqb (field "fragment_id" row)) (included_ids included)) eqn:He.
  - left. apply existsb_exists in He as (v & Hv & He). rewrite Hs in He. apply py_eqb_str in He as ->.
    apply list_elem_of_In, list_elem_of_omap in Hv as (f & Hf & Hv). exists f. split; [done|]. unfold fragment_id_of.
    destruct (mapping (field "reference" f)) as [r|]; [|discriminate]. cbn in *. by injection Hv as ->.
  - right. change (omitted_ids _) with (omap (fun row => d ← mapping row; match field "fragment_id" d with PStr s => Some (PStr s) | _ => None end)
      (map PDict (omitted_refs context included))).
    apply list_elem_of_omap. exists (PDict row). split; [|cbn; by rewrite Hs].
    apply list_elem_of_In, in_map, list_elem_of_In. unfold omitted_refs. apply list_elem_of_In, List.filter_In.
    split; [by apply list_elem_of_In|by rewrite He].
Qed.

(** C33: A packet fits its 8 KiB and names what it leaves out.  It carries either the whole context of the
    task, or, marked partial, some of its fragments, and then every fragment of the manifest that has an id is
    either carried or listed among the omitted ids an agent can ask for. *)
Theorem task_packet_complete float_repr float_of handle record resumed packet :
  _task_packet float_repr float_of handle record resumed = Ok packet ->
  (exists n, text_size float_repr packet = Ok n /\ n <= 8192) /\
  exists context, field "context" packet = PDict context /\
    (context = task_context record \/
     field "context_status" packet = PStr "partial" /\
     exists included, field "fragments" context = PList (map PDict included) /\
       (forall f, f ∈ included -> exists l, field "fragments" (task_context record) = PList l /\ PDict f ∈ l) /\
       forall row, row ∈ _context_refs (task_context record) ->
         exists s, field "fragment_id" row = PStr s /\
           ((exists f, f ∈ included /\ fragment_id_of f = Some s) \/ PStr s ∈ listed_omissions packet)).
Proof.
  unfold _task_packet. intros H. apply result_bind_ok in H as (summary & _ & H).
  destruct (_bounded_response _ _ _) as [whole|x] eqn:Hw.
  { injection H as <-. apply bounded_size in Hw as (-> & t & Ht & Hlen). split.
    - exists (len t). unfold text_size. by rewrite Ht.
    - exists (task_context record). split; [reflexivity|by left]. }
  assert (partial_task_packet float_repr (task_context record) (packet_base handle record resumed) summary = Ok packet) as Hp
    by (destruct x; try discriminate; by destruct (negb _) in H).
  clear H Hw. unfold partial_task_packet in Hp. apply result_bind_ok in Hp as (compact0 & Hc0 & Hp).
  apply result_bind_ok in Hp as (compact & Hc & Hp). apply bounded_size in Hp as (-> & t & Ht & Hlen).
  assert (exists included, _compact_public_context float_repr (task_context record) included = Ok compact /\
    forall f, f ∈ included -> exists l, field "fragments" (task_context record) = PList l /\ PDict f ∈ l) as (included & Hin & Hsub).
  { unfold field, dict_get_default in *. destruct (dict_get "fragments" (task_context record)) as [v|] eqn:Hf; cbn [default from_option id] in *.
    - destruct v; try (by injection Hc as <-; exists []; split; [done|intros ? Hf'; by apply not_elem_of_nil in Hf']).
      apply result_bind_ok in Hc as (ordered & Ho & Hc). destruct (add_fragments_spec _ _ _ _ _ _ _ _ Hc Hc0) as (more & Hm & Hmore).
      exists more. split; [done|]. intros f Hf'. exists l. split; [done|]. eapply by_priority_sub; [done|by apply Hmore].
    - injection Hc as <-. exists []. split; [done|]. intros f Hf'. by apply not_elem_of_nil in Hf'. }
  split; [exists (len t); unfold text_size; by rewrite Ht|]. exists compact. split; [reflexivity|]. right. split; [reflexivity|].
  destruct (compact_inv _ _ _ _ Hin) as (n & ->). exists included. split; [reflexivity|]. split; [done|].
  intros row Hr. destruct (refs_named _ _ Hr) as (s & Hs). exists s. split; [done|]. rewrite listed_partial. by apply refs_accounted with row.
Qed.

(** * The work item reaches the agent

    A context that is accepted holds the work item of its manifest, fetched if the capsule
    left it out; an authority that serves a large one in chunks is heard to the end, and what
    is assembled is the fragment whose digest the chunks announce. *)

From Stdlib Require Import ZArith SpecFloat.
From S2P Require Import Prelude PyValue Text Json JsonParse JsonProps Base64 Journal Phases Workflow TaskContext Records InspectProps.
Import Journal Phases Workflow TaskContext.

#[local] Open Scope string_scope.
#[local] Open Scope Z_scope.
#[local] Open Scope list_scope.

Section Chunks.
Context (float_repr : spec_float -> string) (sha256 : string -> string).
Context (float_of : string -> spec_float) (b64encode : string -> string) (b64decode : string -> option string).
Context {N0 : Type} (host : string -> string -> string -> pydict -> N0 -> result pyval * N0).
#[local] Abbreviation world := (option file * (N0 * list string))%type.

(** ** An authority that serves [data] in chunks of [c] bytes *)

Context (work_ref : pydict) (data : string) (c : nat).

Definition next_at (o : nat) : pyval := if (o + c <? String.length data)%nat then PInt (Z.of_nat (o + c)) else PNone.

Definition chunk_at (o : nat) : pydict :=
  [("reference", PDict work_ref); ("offset", PInt (Z.of_nat o)); ("total_bytes", PInt (len data)); ("next_offset", next_at o);
   ("content_digest", PStr (sha256 data)); ("chunk_base64", PStr (Base64.b64encode (String.substring o c data)))].

Definition asked (arguments : pydict) : nat := match field "offset" arguments with PInt o => Z.to_nat o | _ => O end.

Definition serves (project repository : string) : Prop :=
  forall arguments n, exists n', host "todo_expand_context" project repository arguments n =
    (Ok (PDict [("status", PStr "ok"); ("data", PDict (chunk_at (asked arguments)))]), n').

Context (record payload : pydict) (project repository id digest : string).
Context (Hproject : field "project" record = PStr project) (Hrepository : field "repository" record = PStr repository).
Context (Hid : field "fragment_id" work_ref = PStr id) (Hdigest : field "digest" work_ref = PStr digest).
Context (Hserves : serves project repository).
Context (Heq : py_eqb (PDict work_ref) (PDict work_ref) = true).
Context (Hutf8 : JsonParse.utf8_ok data = true) (Hload : JsonParse.json_loads float_of data = Some (PDict payload)).
Context (Hc : (0 < c)%nat) (Hone : 1 <= len data) (Hmax : len data <= 65536).

Lemma expand_serves max_bytes offset (w : world) :
  exists w', _expand_context_fragment float_repr host record work_ref max_bytes offset w =
      (Ok (chunk_at (match offset with Some z => Z.to_nat z | None => O end)), w') /\ w'.1 = w.1.
Proof.
  unfold _expand_context_fragment. rewrite Hid, Hdigest. unfold bind, _invoke. rewrite Hproject, Hrepository. unfold native.
  destruct w as [f [n workers]]. cbn [fst snd].
  match goal with |- context [host _ _ _ ?a] => destruct (Hserves a n) as (n' & ->); set (args := a) end.
  assert (asked args = match offset with Some z => Z.to_nat z | None => O end) as -> by (unfold args; by destruct offset).
  cbn -[chunk_at]. eexists. split; [reflexivity|done].
Qed.

Lemma accept_serves o received announced :
  received = String.substring 0 o data -> (o <= String.length data)%nat ->
  announced = None \/ announced = Some (sha256 data) ->
  accept_chunk work_ref (chunk_at o) received announced =
    Ok (String.substring 0 (o + c) data,
        {| ck_data := String.substring o c data; ck_offset := Z.of_nat o; ck_total := len data;
           ck_next := match next_at o with PInt z => Some z | _ => None end; ck_digest := sha256 data |}).
Proof.
  intros -> Ho Hann. unfold accept_chunk.
  assert (_expansion_chunk (chunk_at o) = Ok (Some
    {| ck_data := String.substring o c data; ck_offset := Z.of_nat o; ck_total := len data;
       ck_next := match next_at o with PInt z => Some z | _ => None end; ck_digest := sha256 data |})) as ->.
  { unfold _expansion_chunk.
    change (raw_chunk (chunk_at o)) with (PStr (Base64.b64encode (String.substring o c data)), PInt (Z.of_nat o), PInt (len data), next_at o, PStr (sha256 data)).
    cbv beta iota. rewrite Base64.b64_round_trip. rewrite (proj2 (Z.ltb_ge (Z.of_nat o) 0)), (proj2 (Z.ltb_ge (len data) 1)) by lia.
    unfold next_at. by destruct (_ <? _)%nat. }
  cbn [mbind result_bind ck_total ck_offset ck_digest ck_data].
  rewrite (proj2 (Z.ltb_ge _MAX_CONTEXT_CAPSULE_BYTES (len data))) by (unfold _MAX_CONTEXT_CAPSULE_BYTES; lia).
  assert (len (String.substring 0 o data) = Z.of_nat o) as -> by (unfold len; by rewrite substring_length, Nat.min_l).
  rewrite Z.eqb_refl. cbn [orb negb raise_if mbind result_bind].
  replace (match announced with Some d => negb (String.eqb d (sha256 data)) | None => false end) with false
    by (destruct Hann as [->| ->]; [done|by rewrite String.eqb_refl]). cbn [raise_if mbind result_bind].
  change (chunk_reference (chunk_at o)) with (Some work_ref). unfold same_reference. rewrite Heq. cbn [negb raise_if mbind result_bind].
  rewrite substring_split.
  assert (len (String.substring 0 (o + c) data) <= len data) as Hl by (unfold len; rewrite substring_length; lia).
  rewrite (proj2 (Z.ltb_ge (len data) _)) by done.
  rewrite (proj2 (Z.ltb_ge _MAX_CONTEXT_CAPSULE_BYTES _)) by (unfold _MAX_CONTEXT_CAPSULE_BYTES; lia). done.
Qed.

Lemma fetch_serves turns o received announced (w : world) :
  received = String.substring 0 o data -> (o <= String.length data)%nat -> (String.length data <= o + turns * c)%nat -> (0 < turns)%nat ->
  announced = None \/ announced = Some (sha256 data) ->
  exists w', fetch_chunks float_repr sha256 float_of host turns record work_ref (chunk_at o) received announced w = (Ok payload, w') /\
    w'.1 = w.1.
Proof.
  revert o received announced w. induction turns as [|turns IH]; intros o received announced w Hr Ho Hlen Hpos Hann; [lia|].
  cbn [fetch_chunks]. rewrite accept_serves by done. unfold bind at 1, lift at 1. cbv beta iota. cbn [ck_next ck_digest].
  unfold next_at. destruct (Nat.ltb_spec (o + c) (String.length data)) as [Hlt|Hge]; cbv iota.
  - assert ((Z.of_nat (o + c) =? len (String.substring 0 (o + c) data)) = true) as ->.
    { apply Z.eqb_eq. unfold len. rewrite substring_length, Nat.min_l by lia. done. }
    unfold bind at 1, lift at 1. cbn [negb raise_if]. cbv beta iota. unfold bind at 1.
    destruct (expand_serves _MAX_CONTEXT_CAPSULE_BYTES (Some (Z.of_nat (o + c))) w) as (w1 & -> & Hw1).
    cbv iota beta. rewrite Nat2Z.id. change (needs_attention (chunk_at (o + c))) with false. cbv iota.
    destruct turns as [|turns]; [lia|].
    destruct (IH (o + c)%nat (String.substring 0 (o + c) data) (Some (sha256 data)) w1) as (w' & -> & Hw'); [done|lia|lia|lia|by right|].
    exists w'. split; [done|by rewrite Hw', Hw1].
  - rewrite substring_whole by done. exists w. split; [|done]. unfold lift, assemble. cbn [ck_total ck_digest].
    rewrite Z.eqb_refl, String.eqb_refl, Hutf8, Hload. done.
Qed.

(** C34: A large work item is assembled whole.  When the capsule of a context leaves its work item out and
    the authority serves it in chunks of any size, at most 33 of them and 64 KiB together, the context that comes
    back is the same with the item appended under the reference of the manifest, its payload parsed from exactly
    the bytes served. *)
Theorem work_item_reassembled context fragments (w : world) :
  field "fragments" context = PList fragments -> work_reference context = Some work_ref ->
  List.find is_work_fragment fragments = None -> (String.length data <= 33 * c)%nat ->
  exists w', _ensure_work_item_fragment float_repr sha256 float_of host context record w =
      (Ok (dict_set "fragments" (PList (fragments ++ [PDict [("reference", PDict work_ref); ("payload", PDict payload)]])) context), w') /\
    w'.1 = w.1.
Proof.
  intros Hf Hw Hn Hlen. unfold _ensure_work_item_fragment. rewrite Hf. cbn [elements]. rewrite Hw, Hid, Hdigest, Hn. unfold bind at 1.
  destruct (expand_serves _MAX_CONTEXT_CAPSULE_BYTES None w) as (w1 & -> & Hw1). cbv iota beta.
  change (needs_attention (chunk_at 0)) with false. change (field "fragment" (chunk_at 0)) with PNone. cbv iota. unfold bind.
  destruct (fetch_serves 33 0 "" None w1) as (w' & -> & Hw'); [by destruct data|lia|lia|lia|by left|].
  exists w'. split; [done|by rewrite Hw', Hw1].
Qed.

End Chunks.

(** ** What is assembled is authentic *)

Section Authentic.
Context (float_repr : spec_float -> string) (sha256 : string -> string).
Context (float_of : string -> spec_float).
Context {N0 : Type} (host : string -> string -> string -> pydict -> N0 -> result pyval * N0).

Lemma accept_chunk_inv work_ref expansion received announced received' c :
  accept_chunk work_ref expansion received announced = Ok (received', c) ->
  _expansion_chunk expansion = Ok (Some c) /\ received' = received +:+ c.(ck_data) /\
  ck_offset c = len received /\ len received' <= 65536 /\ (forall d, announced = Some d -> ck_digest c = d) /\
  exists r, chunk_reference expansion = Some r /\ py_eqb (PDict r) (PDict work_ref) = true.
Proof.
  unfold accept_chunk. intros H. apply result_bind_ok in H as ([c'|] & Hc & H); [|discriminate].
  apply result_bind_ok in H as (u1 & H1 & H). apply result_bind_ok in H as (u2 & H2 & H). apply result_bind_ok in H as (u3 & H3 & H).
  apply result_bind_ok in H as (u4 & H4 & H). injection H as <- <-.
  apply raise_if_ok, orb_false_iff in H1 as [_ H1]. apply negb_false_iff, Z.eqb_eq in H1. apply raise_if_ok in H2.
  apply raise_if_ok, negb_false_iff in H3. apply raise_if_ok, orb_false_iff in H4 as [_ H4]. apply Z.ltb_ge in H4.
  split; [done|]. split; [done|]. split; [done|]. split; [done|]. split.
  - intros d ->. by apply negb_false_iff, String.eqb_eq in H2.
  - unfold same_reference in H3. destruct (chunk_reference expansion) as [r|]; [by exists r|discriminate].
Qed.

(** A payload that comes back from chunks is parsed from bytes that extend what was received, are at most
    64 KiB, and have the digest that every chunk announced. *)
Lemma fetch_chunks_authentic turns record work_ref expansion received announced w payload w' :
  fetch_chunks float_repr sha256 float_of host turns record work_ref expansion received announced w = (Ok payload, w') ->
  exists c rest, _expansion_chunk expansion = Ok (Some c) /\ (forall d, announced = Some d -> ck_digest c = d) /\
    let data := received +:+ rest in
    sha256 data = ck_digest c /\ JsonParse.json_loads float_of data = Some (PDict payload) /\ len data <= 65536.
Proof.
  revert expansion received announced w. induction turns as [|turns IH]; intros expansion received announced w; cbn [fetch_chunks]; [discriminate|].
  intros H. apply bind_ok_inv in H as ([received' c] & w1 & H1 & H). unfold lift in H1. injection H1 as H1 <-.
  apply accept_chunk_inv in H1 as (Hx & -> & _ & Hlen & Hann & _). exists c.
  destruct (ck_next c) as [next|] eqn:Hnext.
  - apply bind_ok_inv in H as (u & w2 & _ & H). apply bind_ok_inv in H as (expansion' & w3 & _ & H).
    destruct (needs_attention expansion'); [discriminate|].
    destruct (IH _ _ _ _ H) as (c' & rest & _ & Hann' & Hd & Hj & Hl). exists (c.(ck_data) +:+ rest).
    split; [done|]. split; [done|]. cbv zeta. rewrite append_assoc. split; [by rewrite (Hann' _ eq_refl) in Hd|done].
  - exists (ck_data c). split; [done|]. split; [done|]. unfold lift in H. injection H as H _. unfold assemble in H.
    apply result_bind_ok in H as (u1 & H1 & H). apply result_bind_ok in H as (u2 & H2 & H).
    apply raise_if_ok, negb_false_iff, String.eqb_eq in H2. split; [done|].
    destruct (JsonParse.utf8_ok _); [|discriminate].
    destruct (JsonParse.json_loads _ _) as [[]|]; try discriminate. injection H as <-. by split.
Qed.

End Authentic.
