(* ===== verification/BearerStore.v ===== *)
(** * The private credential store (workflow_binding.py)

    One JSON file of the user keeps the bearers of sessions, attempts and child executions.
    Every method checks the directory, the lock and the file, reads the whole file, and
    writers replace it.  A place is what those checks see; the text of the file is parsed
    and written as the code does.  The metadata of the project, the session that a bearer
    opens, and "datetime.fromisoformat" (None where it raises, [Some None] for a naive time)
    are parameters.  [HostSessionUnavailable] is a RuntimeError. *)

From Stdlib Require Import ZArith SpecFloat.
From S2P Require Import Prelude PyValue Text Json JsonParse Journal.
Import Journal.

#[local] Open Scope string_scope.
#[local] Open Scope Z_scope.
#[local] Open Scope list_scope.

Module BearerStore.

Definition TOKEN_STORE_FORMAT : string := "project-control.todo-session-tokens".
Definition TOKEN_STORE_VERSION : Z := 1.
Definition _MAX_BYTES : Z := 1024 * 1024.

Definition unavailable {A} (message : string) : result A := Err (RuntimeError message).

(** ** Files *)

(** A file: a link, or what opening it finds.  [tf_private]: a regular file of the user that
    no one else may read. *)
Record token_file := { tf_symlink : bool; tf_opens : bool; tf_private : bool; tf_text : string }.

(** The directory of the store (whether it is under the home directory, whether a link is on
    its path, whether only the user may enter it, and what the user may do there), its lock
    file (one that does not exist is created private) and the file. *)
Record place := {
  pl_home : bool; pl_linked : bool; pl_exists : bool; pl_private : bool; pl_search : bool; pl_write : bool;
  pl_lock_linked : bool; pl_lock_private : bool;
  pl_file : option token_file
}.

Definition with_file (f : token_file) (p : place) : place :=
  {| pl_home := pl_home p; pl_linked := pl_linked p; pl_exists := pl_exists p; pl_private := pl_private p; pl_search := pl_search p;
     pl_write := pl_write p; pl_lock_linked := pl_lock_linked p; pl_lock_private := pl_lock_private p; pl_file := Some f |}.

(** "parent.mkdir(mode=0o700, parents=True, exist_ok=True)". *)
Definition made (p : place) : place :=
  if pl_exists p then p
  else {| pl_home := pl_home p; pl_linked := pl_linked p; pl_exists := true; pl_private := true; pl_search := true; pl_write := true;
          pl_lock_linked := false; pl_lock_private := true; pl_file := None |}.

Definition _store_path (readonly : bool) (p : place) : result place :=
  _ ← raise_if (pl_linked p) (RuntimeError (if pl_home p then "private Todo credential directory must not contain symlinks"
                                            else "private Todo credential directory is unsafe"));
  _ ← raise_if (readonly && negb (pl_exists p)) (RuntimeError "private Todo credential directory is unavailable");
  let p := if readonly then p else made p in
  _ ← raise_if (negb (pl_private p) || (readonly && negb (pl_search p)) || (negb readonly && negb (pl_write p)))
        (RuntimeError "private Todo credential directory must be owner-only");
  Ok p.

Definition _locked_store (p : place) : result unit :=
  _ ← raise_if (pl_lock_linked p) (RuntimeError "private Todo credential lock must not be a symlink");
  raise_if (negb (pl_lock_private p)) (RuntimeError "private Todo credential lock has unsafe ownership or permissions").

(** The value of a store: the version as it was read, and the three lists. *)
Record store := { st_version : pyval; st_sessions : list pyval; st_attempts : list pyval; st_children : list pyval }.

Definition empty_store : store := {| st_version := PInt TOKEN_STORE_VERSION; st_sessions := []; st_attempts := []; st_children := [] |}.

Definition store_value (s : store) : pyval :=
  PDict [("format", PStr TOKEN_STORE_FORMAT); ("version", st_version s); ("sessions", PList (st_sessions s));
         ("attempts", PList (st_attempts s)); ("children", PList (st_children s))].

Definition store_of (v : pyval) : option store :=
  match v with
  | PDict d =>
      if py_eqb (dict_get_default "format" PNone d) (PStr TOKEN_STORE_FORMAT)
         && py_eqb (dict_get_default "version" PNone d) (PInt TOKEN_STORE_VERSION)
         && key_set d ["format"; "version"; "sessions"; "attempts"; "children"]
      then match dict_get "sessions" d, dict_get "attempts" d, dict_get "children" d with
           | Some (PList s), Some (PList a), Some (PList c) => Some {| st_version := dict_get_default "version" PNone d; st_sessions := s; st_attempts := a; st_children := c |}
           | _, _, _ => None
           end
      else None
  | _ => None
  end.

(** "json.dump(..., allow_nan=False)" raises on these. *)
Fixpoint has_nan (v : pyval) : bool :=
  match v with
  | PFloat f => negb (float_finite f)
  | PList l => existsb has_nan l
  | PDict d => existsb (fun kv => has_nan kv.2) d
  | _ => false
  end.

Section Host.
Context (float_repr : spec_float -> string) (float_of : string -> spec_float).

Definition _read_store (f : option token_file) : result store :=
  match f with
  | None => Ok empty_store
  | Some f =>
      _ ← raise_if (tf_symlink f) (RuntimeError "private Todo credential store must not be a symlink");
      _ ← raise_if (negb (tf_opens f)) (RuntimeError "private Todo credential store could not be opened safely");
      _ ← raise_if (negb (tf_private f) || (_MAX_BYTES <? Z.of_nat (String.length (tf_text f))))
            (RuntimeError "private Todo credential store has unsafe ownership, permissions, or size");
      match (if JsonParse.utf8_ok (tf_text f) then JsonParse.json_loads float_of (tf_text f) else None) with
      | None => unavailable "private Todo credential store is unreadable"
      | Some v => match store_of v with
                  | Some s => Ok s
                  | None => unavailable "private Todo credential store format is invalid"
                  end
      end
  end.

(** A new file replaces the old one. *)
Definition _write_store (s : store) : result token_file :=
  _ ← raise_if (has_nan (store_value s)) (ValueError "Out of range float values are not JSON compliant");
  Ok {| tf_symlink := false; tf_opens := true; tf_private := true; tf_text := json_ascii float_repr "," ":" (store_value s) |}.

(** ** Entries *)

Record metadata := { md_project : string; md_authority : string }.

(** The items that are dicts with these values. *)
Definition has_key (key : pydict) (item : pyval) : bool :=
  match item with PDict d => forallb (fun kv => py_eqb (field kv.1 d) kv.2) key | _ => false end.

Definition matches (key : pydict) (items : list pyval) : list pyval := List.filter (has_key key) items.

(** Adding an entry under its key: the list to write, or None when it is already there. *)
Definition add_entry (key entry : pydict) (conflict : string) (items : list pyval) : result (option (list pyval)) :=
  match matches key items with
  | [] => Ok (Some (items ++ [PDict entry]))
  | [m] => if negb (py_eqb m (PDict entry)) then unavailable conflict else Ok None
  | _ => unavailable conflict
  end.

(** "[item for item in items if item not in matches]": "in" compares by identity, then by value. *)
Definition drop_entries (key : pydict) (duplicate : string) (items : list pyval) : result (list pyval) :=
  let found := matches key items in
  _ ← raise_if (1 <? length found)%nat (RuntimeError duplicate);
  Ok (List.filter (fun item => negb (has_key key item || existsb (py_eqb item) found)) items).

(** The one entry under a key. *)
Definition unique_entry (key : pydict) (none : string) (items : list pyval) : result pydict :=
  match matches key items with
  | [PDict d] => Ok d
  | _ => unavailable none
  end.

(** Reading needs the directory, not the lock. *)
Definition reading_store {A} (p : place) (k : store -> result A) : result A :=
  p ← _store_path true p; s ← _read_store (pl_file p); k s.

(** A transaction of a writer: the new store, or None to leave the file. *)
Definition writing_store (change : store -> result (option store)) (p : place) : result unit * place :=
  match _store_path false p with
  | Err x => (Err x, if pl_linked p then p else made p)
  | Ok p =>
      match (_ ← _locked_store p; s ← _read_store (pl_file p); o ← change s;
             match o with Some s => f ← _write_store s; Ok (with_file f p) | None => Ok p end) with
      | Ok p' => (Ok tt, p')
      | Err x => (Err x, p)
      end
  end.

(** ** Sessions *)

Definition session_key (project principal profile : string) : pydict :=
  [("project_id", PStr project); ("principal_id", PStr principal); ("profile", PStr profile)].

Definition session_fields : list string :=
  ["project_id"; "authority_id"; "principal_id"; "profile"; "capability_id"; "expires_at"; "bearer_token"].

Section Sessions.
Context (fromisoformat : string -> option (option Z)) (now : Z).

(** "s.replace("Z", "+00:00")". *)
Fixpoint with_offset (s : string) : string :=
  match s with
  | EmptyString => ""
  | String c s => if (code c =? 90)%nat then "+00:00" +:+ with_offset s else String c (with_offset s)
  end.

Definition _valid_entry (entry : pydict) (m : metadata) (principal profile : string) : option string :=
  if negb (key_set entry session_fields)
     || negb (py_eqb (field "project_id" entry) (PStr (md_project m)) && py_eqb (field "authority_id" entry) (PStr (md_authority m))
              && py_eqb (field "principal_id" entry) (PStr principal) && py_eqb (field "profile" entry) (PStr profile))
  then None
  else match field "bearer_token" entry, field "expires_at" entry with
       | PStr token, PStr stamp =>
           if String.eqb token "" then None
           else match fromisoformat (with_offset stamp) with
                | Some (Some expires) => if expires <=? now then None else Some token
                | _ => None
                end
       | _, _ => None
       end.

Definition resolve_session_token (m : metadata) (principal profile : string) (p : place) : result string :=
  reading_store p (fun s =>
    entry ← unique_entry (session_key (md_project m) principal profile)
              "no unique Todo session is available for this principal and profile" (st_sessions s);
    match _valid_entry entry m principal profile with
    | Some token => Ok token
    | None => unavailable "Todo session is expired or does not match project authority"
    end).

End Sessions.

(** A session opened with a bearer must be one of the same authority. *)
Definition opened {S : Type} (open_session : string -> result (S * metadata)) (m : metadata) (different token : string) : result S :=
  '(session, found) ← open_session token;
  _ ← raise_if (negb (String.eqb (md_project found) (md_project m) && String.eqb (md_authority found) (md_authority m)))
        (RuntimeError different);
  Ok session.

Definition open_session_for_host {S : Type} (fromisoformat : string -> option (option Z)) (now : Z)
    (open_session : string -> result (S * metadata)) (m : metadata) (principal profile : string) (p : place) : result S :=
  token ← resolve_session_token fromisoformat now m principal profile p;
  opened open_session m "Todo session opened a different project authority" token.

(** ** Attempts *)

Definition attempt_key (m : metadata) (principal profile attempt : string) : pydict :=
  [("project_id", PStr (md_project m)); ("principal_id", PStr principal); ("profile", PStr profile); ("attempt_id", PStr attempt)].

Definition attempt_entry (m : metadata) (principal profile attempt token : string) : pydict :=
  [("project_id", PStr (md_project m)); ("authority_id", PStr (md_authority m)); ("principal_id", PStr principal);
   ("profile", PStr profile); ("attempt_id", PStr attempt); ("bearer_token", PStr token)].

Definition blank (s : string) : bool := String.eqb (strip s) "".

Definition store_attempt_bearer (m : metadata) (principal attempt token profile : string) (p : place) : result unit * place :=
  if existsb blank [principal; attempt; token; profile]
  then (Err (ValueError "attempt session fields must be non-empty strings"), p)
  else writing_store (fun s =>
         o ← add_entry (attempt_key m principal profile attempt) (attempt_entry m principal profile attempt token)
               "attempt session already exists with a different identity" (st_attempts s);
         Ok (l ← o; Some {| st_version := st_version s; st_sessions := st_sessions s; st_attempts := l; st_children := st_children s |})) p.

(** The bearer of an attempt that the store holds for this authority. *)
Definition attempt_bearer (m : metadata) (principal attempt profile : string) (p : place) : result string :=
  reading_store p (fun s =>
    entry ← unique_entry (attempt_key m principal profile attempt) "no unique Todo attempt session is available" (st_attempts s);
    match key_set entry ["project_id"; "authority_id"; "principal_id"; "profile"; "attempt_id"; "bearer_token"]
          && py_eqb (field "authority_id" entry) (PStr (md_authority m)), field "bearer_token" entry with
    | true, PStr token => Ok token
    | _, _ => unavailable "Todo attempt session does not match project authority"
    end).

Definition open_attempt_session {S : Type} (open_session : string -> result (S * metadata)) (m : metadata)
    (principal attempt profile : string) (p : place) : result S :=
  token ← attempt_bearer m principal attempt profile p;
  opened open_session m "Todo attempt session opened a different project authority" token.

Definition forget_attempt_bearer (m : metadata) (principal attempt profile : string) (p : place) : result unit * place :=
  writing_store (fun s =>
    l ← drop_entries (attempt_key m principal profile attempt) "duplicate Todo attempt sessions prevent safe removal" (st_attempts s);
    Ok (Some {| st_version := st_version s; st_sessions := st_sessions s; st_attempts := l; st_children := st_children s |})) p.

(** ** Children *)

Definition child_key (m : metadata) (principal profile parent execution child : string) : pydict :=
  [("project_id", PStr (md_project m)); ("principal_id", PStr principal); ("profile", PStr profile);
   ("parent_attempt_id", PStr parent); ("execution_id", PStr execution); ("child_principal_id", PStr child)].

Definition child_entry (m : metadata) (principal profile parent execution child token : string) : pydict :=
  [("project_id", PStr (md_project m)); ("authority_id", PStr (md_authority m)); ("principal_id", PStr principal);
   ("profile", PStr profile); ("parent_attempt_id", PStr parent); ("execution_id", PStr execution);
   ("child_principal_id", PStr child); ("bearer_token", PStr token)].

Definition store_child_bearer (m : metadata) (principal parent execution child token profile : string) (p : place) :
    result unit * place :=
  if existsb blank [principal; parent; execution; child; token; profile]
  then (Err (ValueError "child session fields must be non-empty strings"), p)
  else writing_store (fun s =>
         o ← add_entry (child_key m principal profile parent execution child)
               (child_entry m principal profile parent execution child token)
               "child session already exists with a different identity" (st_children s);
         Ok (l ← o; Some {| st_version := st_version s; st_sessions := st_sessions s; st_attempts := st_attempts s; st_children := l |})) p.

Definition child_fields : list string :=
  ["project_id"; "authority_id"; "principal_id"; "profile"; "parent_attempt_id"; "execution_id"; "child_principal_id"; "bearer_token"].

Definition child_bearer (m : metadata) (principal parent execution child profile : string) (p : place) : result string :=
  reading_store p (fun s =>
    entry ← unique_entry (child_key m principal profile parent execution child) "no unique Todo child session is available" (st_children s);
    match key_set entry child_fields && py_eqb (field "authority_id" entry) (PStr (md_authority m)), field "bearer_token" entry with
    | true, PStr token => if String.eqb token "" then unavailable "Todo child session does not match project authority" else Ok token
    | _, _ => unavailable "Todo child session does not match project authority"
    end).

Definition open_child_session {S : Type} (open_session : string -> result (S * metadata)) (m : metadata)
    (principal parent execution child profile : string) (p : place) : result S :=
  token ← child_bearer m principal parent execution child profile p;
  opened open_session m "Todo child session opened a different project authority" token.

Definition forget_child_bearer (m : metadata) (principal parent execution child profile : string) (p : place) : result unit * place :=
  writing_store (fun s =>
    l ← drop_entries (child_key m principal profile parent execution child) "duplicate Todo child sessions prevent safe removal"
          (st_children s);
    Ok (Some {| st_version := st_version s; st_sessions := st_sessions s; st_attempts := st_attempts s; st_children := l |})) p.

End Host.

End BearerStore.
