(* ===== verification/BearerProps.v ===== *)
(** * What the credential store keeps

    A bearer stored for an attempt or a child is served, as it was stored, until it is
    forgotten, whatever else the store is used for; forgetting it is enough; a file that
    outgrew its limit is never read or written again. *)

From Stdlib Require Import ZArith SpecFloat.
From stdpp Require Import relations.
From S2P Require Import Prelude PyValue Text Json JsonParse JsonProps Journal BearerStore.
Import JsonParse Journal BearerStore.

#[local] Open Scope string_scope.
#[local] Open Scope Z_scope.
#[local] Open Scope list_scope.

(** ** Canonical values *)

Lemma canon_entry_keys d : (map canon_entry d).*1 = d.*1.
Proof. induction d as [|[k v] d IH]; [done|]. csimpl. by rewrite IH. Qed.

(** Reading a key of an object read back. *)
Lemma dict_get_canon k d :
  NoDup d.*1 -> dict_get k (map canon_entry (merge_sort entry_le d)) = canon <$> dict_get k d.
Proof.
  intros Hnd. pose proof (merge_sort_Permutation entry_le d) as Hp.
  assert (NoDup (map canon_entry (merge_sort entry_le d)).*1) as Hnd' by by rewrite canon_entry_keys, Hp.
  destruct (dict_get k d) as [v|] eqn:Hv; cbn.
  - apply dict_get_NoDup; [done|]. apply dict_get_elem in Hv. rewrite <-Hp in Hv. apply list_elem_of_fmap. by exists (k, v).
  - apply dict_get_None. apply dict_get_None in Hv. by rewrite canon_entry_keys, Hp.
Qed.

Lemma field_canon k d : NoDup d.*1 -> field k (map canon_entry (merge_sort entry_le d)) = canon (field k d).
Proof. intros Hnd. unfold field, dict_get_default. rewrite dict_get_canon by done. by destruct (dict_get k d). Qed.

Lemma py_eqb_text v s : py_eqb v (PStr s) = true <-> v = PStr s.
Proof.
  split; [|intros ->; apply String.eqb_refl]. destruct v; cbn; try discriminate. by intros ->%String.eqb_eq.
Qed.

Lemma py_eqb_text_l v s : py_eqb (PStr s) v = true <-> v = PStr s.
Proof. split; [|intros ->; apply String.eqb_refl]. destruct v; cbn; try discriminate. by intros <-%String.eqb_eq. Qed.

Lemma text_ok_dict d : text_ok (PDict d) = true -> NoDup d.*1.
Proof. cbn. intros [H _]%andb_true_iff. by apply bool_decide_eq_true in H. Qed.

Lemma canon_text_ok v : text_ok v = true -> text_ok (canon v) = true.
Proof.
  induction v as [|b|z|f|s|l IH|d IH] using pyval_rect_nested; try done; intros Hk.
  - cbn in *. rewrite forallb_forall in *. intros x Hx. apply in_map_iff in Hx as (y & <- & Hy).
    rewrite Forall_forall in IH. apply IH; [by apply list_elem_of_In|by apply Hk].
  - rewrite canon_dict. cbn in *. apply andb_true_iff in Hk as [Hnd Hk]. apply bool_decide_eq_true in Hnd. apply andb_true_iff. split.
    + apply bool_decide_eq_true. by rewrite canon_entry_keys, merge_sort_Permutation.
    + rewrite forallb_forall in *. intros x Hx. apply in_map_iff in Hx as (y & <- & Hy). apply list_elem_of_In in Hy.
      rewrite merge_sort_Permutation in Hy. pose proof Hy as Hin. apply list_elem_of_In, Hk, andb_true_iff in Hy as [H1 H2].
      rewrite Forall_forall in IH. unfold canon_entry. cbn [fst snd]. rewrite H1. by apply IH.
Qed.

Section Floats.
Context (float_repr : spec_float -> string) (float_of : string -> spec_float).
#[local] Abbreviation floats_ok := (floats_ok float_repr float_of).

Lemma floats_list l : floats_ok (PList l) <-> Forall floats_ok l.
Proof. induction l as [|v l IH]; [by split|]. rewrite Forall_cons, <-IH. done. Qed.

Lemma floats_dict d : floats_ok (PDict d) <-> Forall (fun kv => floats_ok kv.2) d.
Proof. induction d as [|[k v] d IH]; [by split|]. rewrite Forall_cons, <-IH. done. Qed.

Lemma canon_floats v : floats_ok v -> floats_ok (canon v).
Proof.
  induction v as [|b|z|f|s|l IH|d IH] using pyval_rect_nested; try done.
  - cbn [canon]. rewrite !floats_list, Forall_fmap. rewrite !Forall_forall in *. intros H x Hx. by apply IH, H.
  - rewrite canon_dict, !floats_dict, Forall_fmap, merge_sort_Permutation. rewrite !Forall_forall in *. intros H x Hx. by apply IH, H.
Qed.

End Floats.

(** ** Entries under a key *)

Lemma dict_get_perm {A} (d d' : list (string * A)) k : NoDup d.*1 -> d ≡ₚ d' -> dict_get k d = dict_get k d'.
Proof.
  intros Hnd Hp. destruct (dict_get k d') as [v|] eqn:Hv.
  - apply dict_get_NoDup; [done|]. apply dict_get_elem in Hv. by rewrite Hp.
  - apply dict_get_None. apply dict_get_None in Hv. by rewrite Hp.
Qed.

Lemma field_perm d d' k : NoDup d.*1 -> d ≡ₚ d' -> field k d = field k d'.
Proof. intros Hnd Hp. unfold field, dict_get_default. by rewrite (dict_get_perm d d'). Qed.

(** Entries and keys hold texts only. *)
Definition texts (d : pydict) : Prop := forall k v, (k, v) ∈ d -> exists s, v = PStr s.

Lemma has_key_spec key d : texts key -> has_key key (PDict d) = true <-> forall k v, (k, v) ∈ key -> field k d = v.
Proof.
  intros Ht. cbn. rewrite forallb_forall. split.
  - intros H k v Hin. destruct (Ht k v Hin) as [s ->]. apply list_elem_of_In in Hin. by apply H, py_eqb_text in Hin.
  - intros H [k v] Hin. apply list_elem_of_In in Hin. destruct (Ht k v Hin) as [s ->]. apply py_eqb_text. by apply H.
Qed.

Lemma has_key_canon key v : texts key -> text_ok v = true -> has_key key (canon v) = has_key key v.
Proof.
  intros Ht Hv. destruct v; try done. rewrite canon_dict. apply Bool.eq_iff_eq_true. rewrite !has_key_spec by done.
  apply text_ok_dict in Hv. split; intros H k v Hin; specialize (H k v Hin); destruct (Ht k v Hin) as [s ->].
  - rewrite field_canon in H by done. destruct (field k d); cbn in H; try discriminate. done.
  - rewrite field_canon, H by done. done.
Qed.

Lemma matches_canon key items :
  texts key -> Forall (fun v => text_ok v = true) items -> matches key (map canon items) = map canon (matches key items).
Proof.
  intros Ht. induction 1 as [|v l Hv _ IH]; [done|]. unfold matches in *. cbn [map List.filter]. rewrite has_key_canon by done.
  destruct (has_key key v); [cbn [map]; by rewrite IH|done].
Qed.

(** Two keys with the same names that one entry has are the same. *)
Lemma same_key key key' d :
  key.*1 = key'.*1 -> (forall k v, (k, v) ∈ key -> field k d = v) -> (forall k v, (k, v) ∈ key' -> field k d = v) -> key = key'.
Proof.
  revert key'. induction key as [|[k v] key IH]; intros [|[k' v'] key'] Hn H H'; try done. csimpl in Hn. injection Hn as <- Hn. f_equal.
  - f_equal. by rewrite <-(H k v), <-(H' k v') by left.
  - apply IH; [done| |]; intros k0 v0 Hin; [apply H|apply H']; by right.
Qed.

(** The list holds exactly one entry under the key, with these fields. *)
Definition held (key entry : pydict) (items : list pyval) : Prop := exists d, matches key items = [PDict d] /\ d ≡ₚ entry.

Section Entry.
Context (key entry : pydict) (Hkey : texts key) (Hentry : texts entry) (Hnd : NoDup entry.*1) (Hin : key ⊆ entry).

Lemma key_fields d : d ≡ₚ entry -> forall k v, (k, v) ∈ key -> field k d = v.
Proof.
  intros Hd k v Hkv. unfold field, dict_get_default. assert (NoDup d.*1) as Hnd' by by rewrite Hd.
  rewrite (dict_get_NoDup k v d); [done|done|]. rewrite Hd. by apply Hin.
Qed.

Lemma entry_has_key d : d ≡ₚ entry -> has_key key (PDict d) = true.
Proof. intros Hd. apply has_key_spec; [done|]. by apply key_fields. Qed.

Lemma canon_texts d : texts d -> canon (PDict d) = PDict (merge_sort entry_le d).
Proof.
  intros Ht. rewrite canon_dict. f_equal. rewrite <-(map_id (merge_sort entry_le d)) at 2. apply map_ext_in. intros [k v] Hkv.
  apply list_elem_of_In in Hkv. rewrite merge_sort_Permutation in Hkv. by destruct (Ht k v Hkv) as [s ->].
Qed.

Lemma held_canon items : Forall (fun v => text_ok v = true) items -> held key entry items -> held key entry (map canon items).
Proof.
  intros Hok (d & Hm & Hd). exists (merge_sort entry_le d). rewrite matches_canon by done. rewrite Hm. cbn [map]. split.
  - rewrite canon_texts; [done|]. intros k v Hkv. apply (Hentry k v). by rewrite <-Hd.
  - by rewrite merge_sort_Permutation.
Qed.

(** "matches[0] == entry" for an entry of texts: the same entries in some order. *)
Lemma equal_entry d : NoDup d.*1 -> py_eqb (PDict d) (PDict entry) = true -> d ≡ₚ entry.
Proof.
  intros Hd H. cbn [py_eqb] in H. apply andb_true_iff in H as [Hlen H]. apply Nat.eqb_eq in Hlen.
  assert (forall k v, (k, v) ∈ d -> (k, v) ∈ entry) as Hsub.
  { clear Hlen Hd. induction d as [|[k v] d IH]; intros k' v' Hkv; [by apply not_elem_of_nil in Hkv|].
    apply andb_true_iff in H as [H1 H2]. apply elem_of_cons in Hkv as [[= -> ->]|Hkv]; [|by apply IH].
    destruct (dict_get k entry) as [w|] eqn:Hw; [|discriminate]. apply dict_get_elem in Hw. destruct (Hentry k w Hw) as [s ->].
    by apply py_eqb_text in H1 as ->. }
  apply submseteq_length_Permutation; [|lia]. apply NoDup_submseteq; [by eapply NoDup_fmap_1|]. intros [k v]. apply Hsub.
Qed.

Lemma add_held conflict items o :
  Forall (fun v => text_ok v = true) items -> add_entry key entry conflict items = Ok o -> held key entry (default items o).
Proof.
  intros Hok H. unfold add_entry in H. destruct (matches key items) as [|m [|m2 l]] eqn:Hm; [| |discriminate].
  - injection H as <-. exists entry. split; [|done]. cbn. unfold matches in *. rewrite List.filter_app, Hm. cbn [List.filter].
    by rewrite entry_has_key.
  - destruct (negb _) eqn:He; [discriminate|]. injection H as <-. apply negb_false_iff in He. cbn.
    assert (m ∈ items) as Hmi.
    { assert (m ∈ matches key items) as Hx by (rewrite Hm; left). apply list_elem_of_In, List.filter_In in Hx as [Hx _]. by apply list_elem_of_In. }
    destruct m as [| | | | | |d]; try discriminate. exists d. split; [done|]. rewrite Forall_forall in Hok. apply Hok, text_ok_dict in Hmi.
    by apply equal_entry.
Qed.

(** Adding under any key of the same names leaves an entry that is there. *)
Lemma add_keeps key' entry' conflict items o :
  key'.*1 = key.*1 -> texts key' -> NoDup entry'.*1 -> key' ⊆ entry' ->
  held key entry items -> add_entry key' entry' conflict items = Ok o -> held key entry (default items o).
Proof.
  intros Hn Hk' Hnd' Hin' Hh H. unfold add_entry in H. destruct (matches key' items) as [|m [|m2 l]] eqn:Hm; [| |discriminate].
  2: { destruct (negb _); [discriminate|]. by injection H as <-. }
  injection H as <-. destruct Hh as (d & Hd & Hp). exists d. split; [|done]. cbn. unfold matches in *. rewrite List.filter_app, Hd. cbn [List.filter].
  destruct (has_key key (PDict entry')) eqn:Hhk; [|done]. exfalso.
  assert (key' = key) as ->; [|rewrite Hm in Hd; discriminate].
  apply (same_key key' key entry' Hn); [|by apply has_key_spec]. intros k v Hkv. unfold field, dict_get_default.
  by rewrite (dict_get_NoDup k v entry') by (done || by apply Hin').
Qed.

(** Forgetting another key leaves it. *)
Lemma drop_keeps key' duplicate items l :
  key'.*1 = key.*1 -> texts key' -> key' <> key ->
  held key entry items -> drop_entries key' duplicate items = Ok l -> held key entry l.
Proof.
  intros Hn Hk' Hne (d & Hd & Hp) H. unfold drop_entries in H. apply result_bind_ok in H as (u & _ & H). injection H as <-.
  exists d. split; [|done]. unfold matches in *.
  assert (has_key key' (PDict d) = false) as Hno.
  { destruct (has_key key' (PDict d)) eqn:E; [|done]. exfalso. apply Hne. apply (same_key key' key d Hn); [by apply has_key_spec|by apply key_fields]. }
  assert (existsb (py_eqb (PDict d)) (List.filter (has_key key') items) = false) as Hnm.
  { apply not_true_iff_false. intros (y & Hy & He)%existsb_exists. apply List.filter_In in Hy as [_ Hy]. destruct y as [| | | | | |e]; try discriminate.
    apply Hne. apply (same_key key' key e Hn); [by apply has_key_spec|]. intros k v Hkv. apply Hin in Hkv as Hkv'. rewrite <-Hp in Hkv'.
    destruct (Hkey k v Hkv) as [s ->]. cbn [py_eqb] in He. apply andb_true_iff in He as [_ He]. clear -He Hkv'.
    induction d as [|[k' v'] d IH]; [by apply not_elem_of_nil in Hkv'|]. apply andb_true_iff in He as [H1 H2].
    apply elem_of_cons in Hkv' as [[= <- <-]|Hkv']; [|by apply IH]. unfold field, dict_get_default.
    destruct (dict_get k e) as [w|]; [|discriminate]. by apply py_eqb_text_l in H1 as ->. }
  clear -Hd Hno Hnm. revert Hd Hnm. generalize (List.filter (has_key key') items) as found. intros found.
  induction items as [|x items IH]; cbn [List.filter]; [done|]. intros Hd Hnm.
  destruct (has_key key x) eqn:Hx.
  - injection Hd as -> Hd. rewrite Hno, Hnm. cbn [orb negb List.filter]. rewrite Hx. f_equal. clear -Hd.
    induction items as [|y items IH]; [done|]. cbn [List.filter] in *. destruct (has_key key y) eqn:Hy; [discriminate|].
    destruct (negb _); cbn [List.filter]; rewrite ?Hy; by apply IH.
  - destruct (negb _); cbn [List.filter]; rewrite ?Hx; by apply IH.
Qed.

(** What is dropped is gone. *)
Lemma drop_gone duplicate items l : drop_entries key duplicate items = Ok l -> matches key l = [].
Proof.
  intros H. unfold drop_entries in H. apply result_bind_ok in H as (u & _ & H). injection H as <-. generalize (matches key items) as found.
  intros found. unfold matches. induction items as [|x items IH]; [done|]. cbn [List.filter]. destruct (has_key key x) eqn:Hx; [done|].
  destruct (negb _); cbn [List.filter]; rewrite ?Hx; done.
Qed.

End Entry.

(** ** The store as a file *)

Section Store.
Context (float_repr : spec_float -> string) (float_of : string -> spec_float).
#[local] Abbreviation floats_ok := (floats_ok float_repr float_of).
#[local] Abbreviation read := (_read_store float_of).
#[local] Abbreviation write := (_write_store float_repr).

(** Values that are read back as they were written. *)
Definition good_value (v : pyval) : Prop := text_ok v = true /\ floats_ok v.
Definition good (s : store) : Prop :=
  good_value (st_version s) /\ Forall good_value (st_sessions s) /\ Forall good_value (st_attempts s) /\ Forall good_value (st_children s).

Definition canon_store (s : store) : store :=
  {| st_version := canon (st_version s); st_sessions := map canon (st_sessions s); st_attempts := map canon (st_attempts s);
     st_children := map canon (st_children s) |}.

Lemma good_canon v : good_value v -> good_value (canon v).
Proof. intros [Hk Hf]. split; [by apply canon_text_ok|by apply canon_floats]. Qed.

Lemma good_canon_store s : good s -> good (canon_store s).
Proof.
  intros (Hv & Hs & Ha & Hc). unfold good. cbn. split; [by apply good_canon|].
  split_and!; apply Forall_map; eapply Forall_impl; try done; apply good_canon.
Qed.

Lemma good_list l : Forall good_value l -> good_value (PList l).
Proof.
  intros H. split; [|apply floats_list; by eapply Forall_impl; [done|]; intros v []].
  cbn. apply forallb_forall. intros v Hv. rewrite Forall_forall in H. by apply H, list_elem_of_In.
Qed.

Lemma good_store_value s : good s -> good_value (store_value s).
Proof.
  intros ([Hv1 Hv2] & [Hs1 Hs2]%good_list & [Ha1 Ha2]%good_list & [Hc1 Hc2]%good_list). split.
  - unfold store_value. cbn [text_ok]. apply andb_true_iff. split; [reflexivity|].
    cbn [forallb fst snd]. cbn [text_ok] in Hs1, Ha1, Hc1 |- *. by rewrite Hv1, Hs1, Ha1, Hc1.
  - by repeat split.
Qed.

(** What the file holds, whatever its size. *)
Definition content (f : option token_file) : option store :=
  match f with
  | None => Some empty_store
  | Some f => if tf_symlink f || negb (tf_opens f) || negb (tf_private f) || negb (utf8_ok (tf_text f)) then None
              else json_loads float_of (tf_text f) ≫= store_of
  end.

(** It is small enough to be read. *)
Definition fits (f : option token_file) : Prop :=
  match f with None => True | Some f => Z.of_nat (String.length (tf_text f)) <= _MAX_BYTES end.

Lemma read_spec f s : read f = Ok s <-> content f = Some s /\ fits f.
Proof.
  destruct f as [f|]; cbn [_read_store content fits]; [|by split; [intros [= <-]|intros [[= <-] _]]].
  unfold unavailable. destruct (tf_symlink f), (tf_opens f), (tf_private f); cbn; try (split; [discriminate|by intros []]; fail).
  destruct (Z.ltb_spec _MAX_BYTES (Z.of_nat (String.length (tf_text f)))); cbn.
  { split; [discriminate|]. intros []. lia. }
  destruct (utf8_ok (tf_text f)); cbn; [|split; [discriminate|by intros []]].
  destruct (json_loads float_of (tf_text f)) as [v|]; cbn; [|split; [discriminate|by intros []]].
  destruct (store_of v) as [s'|]; cbn; [|split; [discriminate|by intros []]]. split.
  - intros [= <-]. done.
  - by intros [[= <-] _].
Qed.

Lemma version_canon v : py_eqb v (PInt TOKEN_STORE_VERSION) = true -> py_eqb (canon v) (PInt TOKEN_STORE_VERSION) = true.
Proof. by destruct v. Qed.

Lemma canon_store_value s : canon (store_value s) =
  PDict [("attempts", PList (map canon (st_attempts s))); ("children", PList (map canon (st_children s)));
         ("format", PStr TOKEN_STORE_FORMAT); ("sessions", PList (map canon (st_sessions s))); ("version", canon (st_version s))].
Proof. unfold store_value. rewrite canon_dict. reflexivity. Qed.

(** A store that was read is written so that it is read back, with its keys sorted. *)
Lemma write_content s f :
  good s -> py_eqb (st_version s) (PInt TOKEN_STORE_VERSION) = true -> write s = Ok f -> content (Some f) = Some (canon_store s).
Proof.
  intros Hg Hv H. unfold _write_store in H. apply result_bind_ok in H as (u & _ & H). apply Ok_inj in H as <-.
  destruct (good_store_value s Hg) as [Hk Hf].
  assert (utf8_ok (json_ascii float_repr "," ":" (store_value s)) = true) as Hu by (eapply ascii_utf8, json_ascii_only, Hf).
  assert (json_loads float_of (json_ascii float_repr "," ":" (store_value s)) = Some (canon (store_value s))) as Hl
    by by apply ascii_round_trip.
  revert Hu Hl. generalize (json_ascii float_repr "," ":" (store_value s)) as t. intros t Hu Hl.
  cbn [content tf_symlink tf_opens tf_private tf_text orb negb]. rewrite Hu, Hl. cbn [negb mbind option_bind].
  rewrite canon_store_value. apply version_canon in Hv. unfold store_of.
  change (dict_get_default "version" PNone _) with (canon (st_version s)). rewrite Hv. reflexivity.
Qed.

Lemma content_version f s : content f = Some s -> py_eqb (st_version s) (PInt TOKEN_STORE_VERSION) = true.
Proof.
  destruct f as [f|]; cbn [content]; [|by intros [= <-]]. destruct (_ || _); [discriminate|].
  destruct (json_loads float_of (tf_text f)) as [v|]; [|discriminate]. cbn. unfold store_of. destruct v as [| | | | | |d]; try discriminate.
  destruct (_ && _) eqn:Hg; [|discriminate]. rewrite !andb_true_iff in Hg. destruct Hg as [[_ Hv] _].
  destruct (dict_get "sessions" d) as [[]|], (dict_get "attempts" d) as [[]|], (dict_get "children" d) as [[]|]; try discriminate.
  by intros [= <-].
Qed.

(** ** Transactions *)

(** The user may enter the directory, and its file holds a store with a property. *)
Definition open_dir (p : place) : Prop := pl_exists p = true /\ pl_linked p = false /\ pl_private p = true /\ pl_search p = true.
Definition keeps (P : store -> Prop) (p : place) : Prop :=
  open_dir p /\ exists s, content (pl_file p) = Some s /\ good s /\ P s.

Lemma store_path_write p p' :
  _store_path false p = Ok p' -> p' = made p /\ pl_linked p' = false /\ pl_private p' = true /\ pl_exists p' = true.
Proof.
  unfold _store_path. intros H. apply result_bind_ok in H as (? & H1%raise_if_ok & H). apply result_bind_ok in H as (? & _ & H).
  apply result_bind_ok in H as (? & H2%raise_if_ok & H). apply Ok_inj in H as <-. split; [done|].
  cbn [andb] in H2. rewrite !orb_false_iff in H2. destruct H2 as [[H2%negb_false_iff _] _].
  unfold made in *. by destruct (pl_exists p) eqn:He.
Qed.

(** What one transaction does to a store. *)
Definition transacts (P Q : store -> Prop) (change : store -> result (option store)) : Prop :=
  forall s o, good s -> P s -> change s = Ok o -> let s' := default s o in good s' /\ st_version s' = st_version s /\ Q s'.

Definition canonical (P : store -> Prop) : Prop := forall s, good s -> P s -> P (canon_store s).

Lemma writing_ok P Q change p p' :
  canonical Q -> transacts P Q change -> (pl_exists p = true -> exists s, content (pl_file p) = Some s /\ good s /\ P s) -> P empty_store ->
  writing_store float_repr float_of change p = (Ok tt, p') -> pl_search p' = true -> keeps Q p'.
Proof.
  intros Hcanon Hchange Hp Hempty H Hsearch. unfold writing_store in H.
  destruct (_store_path false p) as [p0|x] eqn:Hpath; [|discriminate]. apply store_path_write in Hpath as (-> & Hl & Hpr & He).
  assert (exists s, content (pl_file (made p)) = Some s /\ good s /\ P s) as (s & Hs & Hg & HP).
  { unfold made in *. destruct (pl_exists p); [by apply Hp|]. exists empty_store. split; [done|]. split; [|done].
    unfold good. cbn. by repeat split. }
  destruct (_ ← _locked_store _; _) as [p0|x] eqn:Hb; [|discriminate]. injection H as ->.
  apply result_bind_ok in Hb as (? & _ & Hb). apply result_bind_ok in Hb as (s0 & Hr & Hb). apply read_spec in Hr as [Hc _].
  assert (s0 = s) as -> by congruence. apply result_bind_ok in Hb as (o & Hch & Hb). pose proof (Hchange s o Hg HP Hch) as (Hg' & Hv & HQ).
  destruct o as [s'|]; cbn in *.
  - apply result_bind_ok in Hb as (f & Hf & Hb). apply Ok_inj in Hb as <-. split; [done|].
    exists (canon_store s'). split; [|split; [by apply good_canon_store|by apply Hcanon]].
    apply write_content; [done| |done]. rewrite Hv. by eapply content_version.
  - apply Ok_inj in Hb as <-. split; [done|]. by exists s.
Qed.

Lemma writing_keeps P change p :
  canonical P -> transacts P P change -> keeps P p -> keeps P (writing_store float_repr float_of change p).2.
Proof.
  intros Hcanon Hchange (Hd & s & Hs & Hg & HP). pose proof Hd as (He & Hl & Hpr & Hse). unfold writing_store.
  assert (made p = p) as Hmade by (unfold made; by rewrite He).
  destruct (_store_path false p) as [p'|x] eqn:Hp; [|rewrite Hl, Hmade; by split; eauto].
  apply store_path_write in Hp as (-> & _). rewrite Hmade.
  destruct (_ ← _locked_store p; _) as [p'|x] eqn:H; [|by split; eauto]. cbn.
  apply result_bind_ok in H as (? & _ & H). apply result_bind_ok in H as (s0 & Hr & H). apply read_spec in Hr as [Hc _].
  assert (s0 = s) as -> by congruence. apply result_bind_ok in H as (o & Hch & H). pose proof (Hchange s o Hg HP Hch) as (Hg' & Hv & HP').
  destruct o as [s'|]; cbn in *; [|apply Ok_inj in H as <-; by split; eauto].
  apply result_bind_ok in H as (f & Hf & H). apply Ok_inj in H as <-. split; [done|].
  exists (canon_store s'). split; [|split; [by apply good_canon_store|by apply Hcanon]].
  apply write_content; [done| |done]. rewrite Hv. by eapply content_version.
Qed.

End Store.

(** ** Bearers *)

(** Whose bearer it is. *)
Inductive subject :=
  | Attempt (m : metadata) (principal profile attempt : string)
  | Child (m : metadata) (principal profile parent execution child : string).

Definition key_of (x : subject) : pydict :=
  match x with
  | Attempt m pr prof at' => attempt_key m pr prof at'
  | Child m pr prof par ex ch => child_key m pr prof par ex ch
  end.

Definition entry_of (x : subject) (token : string) : pydict :=
  match x with
  | Attempt m pr prof at' => attempt_entry m pr prof at' token
  | Child m pr prof par ex ch => child_entry m pr prof par ex ch token
  end.

Definition records (x : subject) (s : store) : list pyval :=
  match x with Attempt _ _ _ _ => st_attempts s | Child _ _ _ _ _ _ => st_children s end.

(** Uses of the store that write it. *)
Inductive use := Store (x : subject) (token : string) | Forget (x : subject).

Definition good_subject (x : subject) : bool :=
  match x with
  | Attempt m pr prof at' => forallb utf8_ok [md_project m; md_authority m; pr; prof; at']
  | Child m pr prof par ex ch => forallb utf8_ok [md_project m; md_authority m; pr; prof; par; ex; ch]
  end.

Definition good_use (u : use) : Prop :=
  match u with Store x token => good_subject x = true /\ utf8_ok token = true | Forget x => True end.

Definition forgets (u : use) (x : subject) : Prop := match u with Forget y => key_of y = key_of x | _ => False end.

#[local] Ltac entries :=
  cbn [key_of entry_of] in *; unfold attempt_key, child_key, attempt_entry, child_entry in *;
  repeat match goal with H : _ ∈ _ |- _ => apply list_elem_of_In in H; cbn [In] in H end.

Lemma key_texts x : texts (key_of x).
Proof. intros k v H. destruct x; entries; naive_solver. Qed.

Lemma entry_texts x t : texts (entry_of x t).
Proof. intros k v H. destruct x; entries; naive_solver. Qed.

Lemma entry_nodup x t : NoDup (entry_of x t).*1.
Proof. destruct x; apply (bool_decide_eq_true_1 (NoDup _)); reflexivity. Qed.

Lemma key_entry x t : key_of x ⊆ entry_of x t.
Proof. intros kv H. apply list_elem_of_In. destruct x; entries; cbn [In]; naive_solver. Qed.

Lemma key_names x y : key_of x = key_of y -> forall s, records x s = records y s.
Proof. by destruct x, y. Qed.

(** A subject's record kept under another subject's key. *)
Definition holds (x : subject) (token : string) (s : store) : Prop := held (key_of x) (entry_of x token) (records x s).

Section Uses.
Context (float_repr : spec_float -> string) (float_of : string -> spec_float).
#[local] Abbreviation good := (good float_repr float_of).
#[local] Abbreviation good_value := (good_value float_repr float_of).
#[local] Abbreviation keeps := (keeps float_repr float_of).
#[local] Abbreviation transacts := (transacts float_repr float_of).
#[local] Abbreviation canonical := (canonical float_repr float_of).

Definition perform (u : use) (p : place) : result unit * place :=
  match u with
  | Store (Attempt m pr prof at') token => store_attempt_bearer float_repr float_of m pr at' token prof p
  | Store (Child m pr prof par ex ch) token => store_child_bearer float_repr float_of m pr par ex ch token prof p
  | Forget (Attempt m pr prof at') => forget_attempt_bearer float_repr float_of m pr at' prof p
  | Forget (Child m pr prof par ex ch) => forget_child_bearer float_repr float_of m pr par ex ch prof p
  end.

(** Several uses; one that raises changes nothing. *)
Definition uses (us : list use) (p : place) : place := fold_left (fun p u => (perform u p).2) us p.

Definition serve (x : subject) (p : place) : result string :=
  match x with
  | Attempt m pr prof at' => attempt_bearer float_of m pr at' prof p
  | Child m pr prof par ex ch => child_bearer float_of m pr par ex ch prof p
  end.

Lemma good_entry x t : good_subject x = true -> utf8_ok t = true -> good_value (PDict (entry_of x t)).
Proof.
  intros Hx Ht. split.
  - cbn [text_ok]. apply andb_true_iff. split; [by apply bool_decide_eq_true, entry_nodup|]. apply forallb_forall.
    intros kv Hkv%list_elem_of_In. destruct x; cbn in Hx; rewrite !andb_true_iff in Hx; destruct_and!; entries;
      repeat destruct Hkv as [<-|Hkv]; cbn [fst snd text_ok]; try done; by apply andb_true_iff.
  - apply floats_dict, Forall_forall. intros [k v] Hkv. by destruct (entry_texts _ _ _ _ Hkv) as [s ->].
Qed.
(** The change that a use makes. *)
Definition put (x : subject) (l : list pyval) (s : store) : store :=
  match x with
  | Attempt _ _ _ _ => {| st_version := st_version s; st_sessions := st_sessions s; st_attempts := l; st_children := st_children s |}
  | Child _ _ _ _ _ _ => {| st_version := st_version s; st_sessions := st_sessions s; st_attempts := st_attempts s; st_children := l |}
  end.

Definition change_of (u : use) (s : store) : result (option store) :=
  match u with
  | Store x token =>
      o ← add_entry (key_of x) (entry_of x token)
            (match x with Attempt _ _ _ _ => "attempt session already exists with a different identity"
             | _ => "child session already exists with a different identity" end) (records x s);
      Ok (l ← o; Some (put x l s))
  | Forget x =>
      l ← drop_entries (key_of x)
            (match x with Attempt _ _ _ _ => "duplicate Todo attempt sessions prevent safe removal"
             | _ => "duplicate Todo child sessions prevent safe removal" end) (records x s);
      Ok (Some (put x l s))
  end.

Lemma perform_cases u p :
  (exists e, perform u p = (Err e, p)) \/ perform u p = writing_store float_repr float_of (change_of u) p.
Proof.
  destruct u as [[m pr prof at'|m pr prof par ex ch] token|[m pr prof at'|m pr prof par ex ch]].
  - cbn [perform]. unfold store_attempt_bearer. destruct (existsb _ _); [left; by eexists|by right].
  - cbn [perform]. unfold store_child_bearer. destruct (existsb _ _); [left; by eexists|by right].
  - by right.
  - by right.
Qed.

Lemma good_records x s : good s -> Forall good_value (records x s).
Proof. intros (_ & _ & Ha & Hc). by destruct x. Qed.

Lemma good_put x l s : good s -> Forall good_value l -> good (put x l s).
Proof. intros (Hv & Hs & Ha & Hc) Hl. by destruct x. Qed.

Lemma records_text x s : good s -> Forall (fun v => text_ok v = true) (records x s).
Proof. intros H. eapply Forall_impl; [by apply good_records|]. by intros v []. Qed.

Lemma holds_canonical x token : canonical (holds x token).
Proof.
  intros s Hg H. unfold holds in *. replace (records x (canon_store s)) with (map canon (records x s)) by (by destruct x).
  apply held_canon; [apply key_texts|apply entry_texts|by apply records_text|done].
Qed.

Lemma change_good u s o : good_use u -> good s -> change_of u s = Ok o -> good (default s o) /\ st_version (default s o) = st_version s.
Proof.
  intros Hu Hg H. pose proof (fun x => good_records x s Hg) as Hr. destruct u as [x token|x]; cbn [change_of] in H.
  - destruct Hu as [Hx Ht]. apply result_bind_ok in H as (ol & Ho & H). apply Ok_inj in H as <-. unfold add_entry in Ho.
    destruct (matches _ _) as [|v [|]]; [|destruct (negb _); [discriminate|]|discriminate]; apply Ok_inj in Ho as <-; [|done].
    cbn [mbind option_bind default]. split; [|by destruct x]. apply good_put; [done|]. apply Forall_app_2; [done|].
    constructor; [by apply good_entry|constructor].
  - apply result_bind_ok in H as (l & Hl & H). apply Ok_inj in H as <-. apply result_bind_ok in Hl as (? & _ & Hl). apply Ok_inj in Hl as <-.
    cbn [default]. split; [|by destruct x]. apply good_put; [done|]. rewrite Forall_forall. intros v Hv.
    apply list_elem_of_In, List.filter_In in Hv as [Hv _]. apply list_elem_of_In in Hv. specialize (Hr x). rewrite Forall_forall in Hr. by apply Hr.
Qed.
Lemma store_transacts x token :
  good_subject x = true -> utf8_ok token = true -> transacts (fun _ => True) (holds x token) (change_of (Store x token)).
Proof.
  intros Hx Ht s o Hg _ H. destruct (change_good (Store x token) s o) as [Hg' Hv]; [done..|]. split; [done|]. split; [done|]. cbn [change_of] in H.
  apply result_bind_ok in H as (ol & Ho & H). apply Ok_inj in H as <-.
  pose proof (add_held _ _ (key_texts x) (entry_texts x token) (entry_nodup x token) (key_entry x token) _ _ _ (records_text x s Hg) Ho) as Hh.
  unfold holds. destruct ol as [l|]; cbn in *; [|done]. by destruct x.
Qed.

(** The lists of the two kinds are apart; keys of one kind have the same names. *)
Lemma records_put x y l s : records x (put y l s) = l /\ records x s = records y s /\ (key_of x).*1 = (key_of y).*1 \/
  records x (put y l s) = records x s.
Proof. destruct x, y; first [by left|by right]. Qed.

Lemma use_transacts u x token : good_use u -> ~ forgets u x -> transacts (holds x token) (holds x token) (change_of u).
Proof.
  intros Hu Hf s o Hg Hh H. destruct (change_good u s o) as [Hg' Hv]; [done..|]. split; [done|]. split; [done|]. unfold holds in *.
  destruct u as [y t|y]; cbn [change_of] in H.
  - apply result_bind_ok in H as (ol & Ho & H). apply Ok_inj in H as <-. destruct ol as [l|]; cbn [mbind option_bind from_option id]; [|done].
    destruct (records_put x y l s) as [(-> & Hr & Hn)| ->]; [|done]. rewrite Hr in Hh.
    exact (add_keeps _ _ (key_texts x) _ _ _ _ _ (eq_sym Hn) (key_texts y) (entry_nodup y t) (key_entry y t) Hh Ho).
  - apply result_bind_ok in H as (l & Hl & H). apply Ok_inj in H as <-. cbn [from_option id].
    destruct (records_put x y l s) as [(-> & Hr & Hn)| ->]; [|done]. rewrite Hr in Hh.
    exact (drop_keeps _ _ (key_texts x) (entry_nodup x token) (key_entry x token) _ _ _ _ (eq_sym Hn) (key_texts y) Hf Hh Hl).
Qed.
(** A place that a writer of this module, or nobody, has used. *)
Definition sound (p : place) : Prop :=
  pl_exists p = true -> exists s, content float_of (pl_file p) = Some s /\ good s.

Lemma uses_keep us x token p :
  Forall good_use us -> Forall (fun u => ~ forgets u x) us -> keeps (holds x token) p -> keeps (holds x token) (uses us p).
Proof.
  intros Hu. revert p. induction Hu as [|u us Hu _ IH]; intros p Hf Hp; [done|]. apply Forall_cons in Hf as [Hf Hfs].
  apply IH; [done|]. destruct (perform_cases u p) as [[e ->]| ->]; [done|]. apply writing_keeps; [|by apply use_transacts|done].
  apply holds_canonical.
Qed.

Lemma readable p s A (k : store -> result A) :
  open_dir p -> content float_of (pl_file p) = Some s -> fits (pl_file p) -> reading_store float_of p k = k s.
Proof.
  intros (He & Hl & Hp & Hs) Hc Hf. unfold reading_store, _store_path. rewrite He, Hl, Hp, Hs. cbn.
  by rewrite (proj2 (read_spec float_of (pl_file p) s)).
Qed.

Lemma reading_needs p A (k : store -> result A) v :
  reading_store float_of p k = Ok v -> exists s, content float_of (pl_file p) = Some s /\ fits (pl_file p) /\ k s = Ok v.
Proof.
  intros H. apply result_bind_ok in H as (q & Hq & H). apply result_bind_ok in H as (s & Hs%read_spec & H).
  assert (q = p) as -> by (unfold _store_path in Hq; do 3 (apply result_bind_ok in Hq as (? & _ & Hq)); by apply Ok_inj in Hq).
  exists s. by destruct Hs.
Qed.

(** What is served is the one entry under the key. *)
Lemma serve_needs x p token :
  serve x p = Ok token -> exists s d none, content float_of (pl_file p) = Some s /\ fits (pl_file p) /\
    unique_entry (key_of x) none (records x s) = Ok d.
Proof.
  intros H. destruct x; cbn [serve] in H; unfold attempt_bearer, child_bearer in H; apply reading_needs in H as (s & Hs & Hf & H);
    apply result_bind_ok in H as (d & Hd & _); exists s, d; by eexists.
Qed.

Lemma held_key_unique key entry none items : held key entry items -> exists d, unique_entry key none items = Ok d /\ d ≡ₚ entry.
Proof. intros (d & Hm & Hp). exists d. unfold unique_entry. by rewrite Hm. Qed.

(** The set of keys does not depend on their order. *)
Lemma key_set_perm d d' keys : d ≡ₚ d' -> key_set d keys = true -> key_set d' keys = true.
Proof.
  intros Hp. unfold key_set, dict_mem. rewrite !andb_true_iff, !forallb_forall. intros [H1 H2]. split.
  - intros x Hx. apply H1, list_elem_of_In. rewrite Hp. by apply list_elem_of_In.
  - intros k Hk. apply H2 in Hk. rewrite !bool_decide_eq_true in *. by rewrite <-Hp.
Qed.

Lemma entry_fields x token d k v : d ≡ₚ entry_of x token -> dict_get k (entry_of x token) = Some v -> field k d = v.
Proof.
  intros Hp Hk. rewrite (field_perm d (entry_of x token)); [by unfold field, dict_get_default; rewrite Hk| |done].
  rewrite Hp. apply entry_nodup.
Qed.

Lemma serve_held x token p : keeps (holds x token) p -> fits (pl_file p) -> token <> "" -> serve x p = Ok token.
Proof.
  intros (Hd & s & Hs & Hg & Hh) Hfit Ht. destruct (held_key_unique _ _ (match x with Attempt _ _ _ _ => "no unique Todo attempt session is available"
    | _ => "no unique Todo child session is available" end) _ Hh) as (d & Hu & Hp).
  pose proof (fun keys => key_set_perm _ d keys (symmetry Hp)) as Hkeys.
  destruct x as [m pr prof at'|m pr prof par ex ch]; cbn [serve]; unfold attempt_bearer, child_bearer;
    rewrite (readable p s) by done; cbn [records key_of] in Hu; rewrite Hu; cbn [mbind result_bind];
    rewrite Hkeys by reflexivity;
    rewrite (entry_fields _ _ d "authority_id" (PStr (md_authority m)) Hp), (entry_fields _ _ d "bearer_token" (PStr token) Hp) by reflexivity;
    rewrite (proj2 (py_eqb_text _ _)) by done; [done|]. cbn. by rewrite (proj2 (String.eqb_neq token "")).
Qed.
Lemma store_ok_writes x token p p' :
  perform (Store x token) p = (Ok tt, p') -> writing_store float_repr float_of (change_of (Store x token)) p = (Ok tt, p') /\ token <> "".
Proof.
  intros H. split; [by destruct (perform_cases (Store x token) p) as [[e He]| <-]; [congruence|]|].
  intros ->. destruct x; cbn [perform] in H; unfold store_attempt_bearer, store_child_bearer in H; cbn [existsb] in H;
    rewrite !orb_true_r in H; discriminate.
Qed.

(** C22: A bearer stored for an attempt or a child is the one served for it after any later
    uses of the store that do not forget it, those that raised included, as long as the file
    can still be read: storing other bearers, storing it again with another token, forgetting
    others, and the rewriting and rereading of the file that each of them does. *)
Theorem bearer_persists x token us p p' :
  sound p -> good_subject x = true -> utf8_ok token = true -> Forall good_use us -> Forall (fun u => ~ forgets u x) us ->
  perform (Store x token) p = (Ok tt, p') -> pl_search p' = true ->
  fits (pl_file (uses us p')) -> serve x (uses us p') = Ok token.
Proof.
  intros Hp Hx Ht Hus Hf H Hsearch Hfit. apply store_ok_writes in H as [H Hne]. apply serve_held; [|done..]. apply uses_keep; [done..|].
  eapply (writing_ok _ _ (fun _ => True)); [apply holds_canonical|by apply store_transacts| |done|done|done].
  intros He. destruct (Hp He) as (s & Hs & Hg). by exists s.
Qed.

(** The file of a store that a forgotten subject has left. *)
Definition lacks (x : subject) (s : store) : Prop := matches (key_of x) (records x s) = [].

Lemma lacks_canonical x : canonical (lacks x).
Proof.
  intros s Hg H. unfold lacks in *. replace (records x (canon_store s)) with (map canon (records x s)) by (by destruct x).
  rewrite matches_canon; [by rewrite H|apply key_texts|by apply records_text].
Qed.

(** Once forgotten, a bearer is not served. *)
Lemma forgotten_is_gone x p p' :
  sound p -> perform (Forget x) p = (Ok tt, p') -> pl_search p' = true -> forall token, serve x p' <> Ok token.
Proof.
  intros Hp H Hsearch token. destruct (perform_cases (Forget x) p) as [[e He]|Hw]; [congruence|]. rewrite Hw in H.
  assert (keeps (lacks x) p') as (Hd & s & Hs & Hg & Hl).
  { eapply (writing_ok _ _ (fun _ => True)); [apply lacks_canonical| | |done|done|done].
    - intros s o Hg _ Hc. destruct (change_good (Forget x) s o I Hg Hc) as [Hg' Hv]. split; [done|]. split; [done|]. cbn [change_of] in Hc.
      apply result_bind_ok in Hc as (l & Hl & Hc). apply Ok_inj in Hc as <-. apply drop_gone in Hl. unfold lacks. by destruct x.
    - intros He. destruct (Hp He) as (s & Hs & Hg). by exists s. }
  intros (s' & d & none & Hs' & _ & Hu)%serve_needs. assert (s' = s) as -> by congruence. unfold unique_entry in Hu. by rewrite Hl in Hu.
Qed.

(** A file that is too large is not written again, and nothing in it is served: it cannot be
    made smaller by forgetting. *)
Lemma oversized_is_stuck p us x token :
  pl_exists p = true -> ~ fits (pl_file p) -> uses us p = p /\ serve x (uses us p) <> Ok token.
Proof.
  intros He Hfit. assert (forall s, _read_store float_of (pl_file p) <> Ok s) as Hr by (intros s [_ ?]%read_spec; done).
  assert (uses us p = p) as ->.
  { induction us as [|u us IH]; [done|]. cbn [uses fold_left]. replace (perform u p).2 with p; [done|].
    destruct (perform_cases u p) as [[e ->]| ->]; [done|]. unfold writing_store.
    destruct (_store_path false p) as [q|e] eqn:Hq; [|unfold made; rewrite He; by destruct (pl_linked p)].
    apply store_path_write in Hq as (-> & _). unfold made. rewrite He. destruct (_ ← _locked_store p; _) as [q|] eqn:Hb; [|done].
    apply result_bind_ok in Hb as (? & _ & Hb). by apply result_bind_ok in Hb as (s & Hs%Hr & _). }
  split; [done|]. by intros (s & d & none & _ & Hf & _)%serve_needs.
Qed.

End Uses.

(** * A store that is filled, pruned and read

    The bearers of two attempts and a child are stored, one is forgotten, and the first is
    still served from what the file then holds. *)

From Stdlib Require Import ZArith SpecFloat.
From S2P Require Import Prelude PyValue Json JsonParse BearerStore.
Import BearerStore.

#[local] Open Scope string_scope.
#[local] Open Scope list_scope.

Definition no_floats (f : spec_float) : string := "0.0".
Definition no_float (s : string) : spec_float := S754_zero false.

Definition a_place : place := {|
  pl_home := true; pl_linked := false; pl_exists := false; pl_private := true; pl_search := true; pl_write := true;
  pl_lock_linked := false; pl_lock_private := true; pl_file := None |}.
Definition a_project : metadata := {| md_project := "p"; md_authority := "auth" |}.
Definition the_subject : subject := Attempt a_project "agent" "default" "a1".
Definition other_subject : subject := Attempt a_project "agent" "default" "a2".
Definition a_child : subject := Child a_project "agent" "default" "a1" "e" "c1".
Definition later : list use := [Store other_subject "t2"; Store a_child "t3"; Forget other_subject; Store a_child "t4"].
Definition stored_place : place := (perform no_floats no_float (Store the_subject "t1") a_place).2.

Definition a_fits (f : option token_file) : bool :=
  match f with None => true | Some f => (Z.of_nat (String.length (tf_text f)) <=? _MAX_BYTES)%Z end.

Lemma fits_small f : a_fits f = true -> fits f.
Proof. destruct f as [f|]; [|done]. cbn. apply Z.leb_le. Qed.

Lemma bearer_persists_witness :
  match serve no_float other_subject (uses no_floats no_float later stored_place) with Ok _ => false | Err _ => true end = true
  /\ serve no_float the_subject (uses no_floats no_float later stored_place) = Ok "t1".
Proof.
  split; [vm_compute; reflexivity|].
  apply (bearer_persists no_floats no_float the_subject "t1" later a_place stored_place).
  - intros H. discriminate H.
  - reflexivity.
  - reflexivity.
  - repeat constructor.
  - repeat constructor; intros H; discriminate H || exact H.
  - vm_compute. reflexivity.
  - vm_compute. reflexivity.
  - apply fits_small. vm_compute. reflexivity.
Defined.
