(* ===== verification/Program.v ===== *)
(** * Programs that call their host, and several of them at once

    A program is a value or a call to its host followed by what it does with the answer.
    Threads run programs against a shared world one call at a time, in any order; any
    thread may end between two calls.  [safe] is a rely-guarantee reading of a program:
    each call it makes keeps the invariant of the world and what the other threads know,
    whatever they do in between.  [reachable_safe]: threads that are each safe are safe
    together. *)

From stdpp Require Import relations.
From S2P Require Import Prelude.

(** ** Programs *)

Record interface := { call : Type; answer : call -> Type }.

Inductive prog (I : interface) (A : Type) :=
  | Ret (a : A)
  | Call (c : call I) (k : answer I c -> prog I A).
Arguments Ret {I A} _.
Arguments Call {I A} _ _.

Fixpoint prog_bind {I A B} (p : prog I A) (f : A -> prog I B) : prog I B :=
  match p with Ret a => f a | Call c k => Call c (fun r => prog_bind (k r) f) end.

(** One call. *)
Definition request {I} (c : call I) : prog I (answer I c) := Call c Ret.

(** A program that returns or raises. *)
Definition act (I : interface) (A : Type) : Type := prog I (result A).

#[export] Instance act_ret {I} : MRet (act I) := fun A a => Ret (Ok a).
#[export] Instance act_bind {I} : MBind (act I) := fun A B f p =>
  prog_bind p (fun r => match r with Ok a => f a | Err e => Ret (Err e) end).

Definition pure {I A} (r : result A) : act I A := Ret r.
Definition raise {I A} (e : exn) : act I A := Ret (Err e).
Definition guard_act {I} (b : bool) (e : exn) : act I unit := pure (raise_if b e).

(** A call that never raises. *)
Definition ask {I} (c : call I) : act I (answer I c) := prog_bind (request c) (fun r => Ret (Ok r)).

(** "try: p except E: h", and a body that another runs after, however it ends. *)
Definition try_except {I A} (p : act I A) (h : exn -> act I A) : act I A :=
  prog_bind p (fun r => match r with Ok a => Ret (Ok a) | Err e => h e end).

Definition try_finally {I A B} (p : act I A) (q : prog I B) : act I A :=
  prog_bind p (fun r => prog_bind q (fun _ => Ret r)).

Fixpoint mapM_act {I A B} (f : A -> act I B) (l : list A) : act I (list B) :=
  match l with [] => mret [] | x :: l => y ← f x; ys ← mapM_act f l; mret (y :: ys) end.

(** ** Threads *)

(** What a call does for a thread, what happens in the world by itself, and what the end of
    a thread, wherever it is, leaves. *)
Record system (I : interface) := {
  world : Type;
  handle : nat -> forall c, world -> answer I c -> world -> Prop;
  environment : world -> world -> Prop;
  ended : nat -> world -> world
}.
Arguments world {I} _.
Arguments handle {I} _ _ _ _ _ _.
Arguments environment {I} _ _ _.
Arguments ended {I} _ _ _.

Section Threads.
Context {I : interface} (S : system I) {A : Type} (entry : prog I A -> Prop).

Definition config : Type := gmap nat (prog I A) * world S.

Inductive step : config -> config -> Prop :=
  | step_start tid p ts w : ts !! tid = None -> entry p -> step (ts, w) (<[tid := p]> ts, w)
  | step_call tid c k r ts w w' : ts !! tid = Some (Call c k) -> handle S tid c w r w' -> step (ts, w) (<[tid := k r]> ts, w')
  | step_end tid p ts w : ts !! tid = Some p -> step (ts, w) (delete tid ts, ended S tid w)
  | step_world ts w w' : environment S w w' -> step (ts, w) (ts, w').

Definition reachable (start : world S -> Prop) (c : config) : Prop := exists w, start w /\ rtc step (∅, w) c.
End Threads.

(** ** Rely and guarantee *)

Section Logic.
Context {I : interface} (S : system I).
Context (ok : world S -> Prop) (rely : nat -> world S -> world S -> Prop).

(** What one thread does is what the others can live with. *)
Definition others_rely (tid : nat) (w w' : world S) : Prop := forall t, t <> tid -> rely t w w'.

Definition interfered (tid : nat) (w w' : world S) : Prop := rely tid w w' /\ ok w'.

Fixpoint safe {A} (tid : nat) (p : prog I A) (Q : A -> world S -> Prop) (w : world S) : Prop :=
  match p with
  | Ret a => Q a w
  | Call c k => forall r w', handle S tid c w r w' ->
      ok w' /\ others_rely tid w w' /\ forall w2, rtc (interfered tid) w' w2 -> safe tid (k r) Q w2
  end.

(** What a thread knows: kept whatever happens that it can live with. *)
Definition stable (tid : nat) (P : world S -> Prop) : Prop := forall w w', P w -> rely tid w w' -> P w'.

Definition triple {A} (tid : nat) (P : world S -> Prop) (p : prog I A) (Q : A -> world S -> Prop) : Prop :=
  forall w, ok w -> P w -> safe tid p Q w.

Lemma interfered_ok tid w w' : rtc (interfered tid) w w' -> ok w -> ok w'.
Proof. induction 1 as [|w w1 w2 [_ H] _ IH]; [done|]. intros _. by apply IH. Qed.

Lemma interfered_stable tid P w w' : stable tid P -> rtc (interfered tid) w w' -> P w -> P w'.
Proof. intros HP. induction 1 as [|w w1 w2 [H _] _ IH]; [done|]. intros Hw. apply IH. by eapply HP. Qed.

Lemma safe_mono {A} tid (p : prog I A) (Q Q' : A -> world S -> Prop) w :
  (forall a w, Q a w -> Q' a w) -> safe tid p Q w -> safe tid p Q' w.
Proof.
  intros HQ. revert w. induction p as [a|c k IH]; intros w; [apply HQ|]. intros H r w' Hw.
  destruct (H r w' Hw) as (H1 & H2 & H3). split; [done|]. split; [done|]. intros w2 H2'. by apply IH, H3.
Qed.

Lemma safe_and {A} tid (p : prog I A) (Q Q' : A -> world S -> Prop) w :
  safe tid p Q w -> safe tid p Q' w -> safe tid p (fun a w => Q a w /\ Q' a w) w.
Proof.
  revert w. induction p as [a|c k IH]; intros w; [done|]. intros H H' r w' Hw.
  destruct (H r w' Hw) as (H1 & H2 & H3), (H' r w' Hw) as (_ & _ & H3'). split; [done|]. split; [done|].
  intros w2 Hr. apply IH; [by apply H3|by apply H3'].
Qed.

Lemma safe_bind {A B} tid (p : prog I A) (f : A -> prog I B) Q w :
  ok w -> safe tid p (fun a w => ok w -> safe tid (f a) Q w) w -> safe tid (prog_bind p f) Q w.
Proof.
  revert w. induction p as [a|c k IH]; intros w Hok H; [by apply H|]. intros r w' Hw.
  destruct (H r w' Hw) as (H1 & H2 & H3). split; [done|]. split; [done|]. intros w2 Hr. apply IH; [by eapply interfered_ok|by apply H3].
Qed.

Lemma triple_ret {A} tid (P : world S -> Prop) (a : A) (Q : A -> world S -> Prop) :
  (forall w, P w -> Q a w) -> triple tid P (Ret a) Q.
Proof. intros H w _ Hw. by apply H. Qed.

Lemma triple_bind {A B} tid P (p : prog I A) (f : A -> prog I B) R Q :
  triple tid P p R -> (forall a, triple tid (R a) (f a) Q) -> triple tid P (prog_bind p f) Q.
Proof. intros Hp Hf w Hok Hw. apply safe_bind; [done|]. eapply safe_mono; [|by apply Hp]. intros a w' Ha Hok'. by apply Hf. Qed.

Lemma triple_conseq {A} tid (P P' : world S -> Prop) (p : prog I A) (Q Q' : A -> world S -> Prop) :
  triple tid P' p Q' -> (forall w, P w -> P' w) -> (forall a w, Q' a w -> Q a w) -> triple tid P p Q.
Proof. intros H HP HQ w Hok Hw. eapply safe_mono; [done|]. by apply H, HP. Qed.

Lemma triple_and {A} tid P (p : prog I A) (Q Q' : A -> world S -> Prop) :
  triple tid P p Q -> triple tid P p Q' -> triple tid P p (fun a w => Q a w /\ Q' a w).
Proof. intros H H' w Hok Hw. apply safe_and; [by apply H|by apply H']. Qed.

Lemma triple_pre {A} tid (P P' : world S -> Prop) (p : prog I A) Q : triple tid P' p Q -> (forall w, P w -> P' w) -> triple tid P p Q.
Proof. intros H HP. by eapply triple_conseq. Qed.

(** One call: what it may do, and knowledge that its answer leaves. *)
Lemma triple_request tid (P : world S -> Prop) c (Q : answer I c -> world S -> Prop) :
  (forall r, stable tid (Q r)) ->
  (forall w r w', ok w -> P w -> handle S tid c w r w' -> ok w' /\ others_rely tid w w' /\ Q r w') ->
  triple tid P (request c) Q.
Proof.
  intros HQ H w Hok Hw r w' Hh. destruct (H w r w' Hok Hw Hh) as (H1 & H2 & H3). split; [done|]. split; [done|].
  intros w2 Hr. cbn. by eapply (interfered_stable tid (Q r)); [apply HQ| |].
Qed.

(** *** Programs that raise *)

Lemma act_bind_triple {A B} tid P (p : act I A) (f : A -> act I B) (R : A -> world S -> Prop) E Q :
  triple tid P p (fun r w => match r with Ok a => R a w | Err e => E e w end) ->
  (forall a, triple tid (R a) (f a) Q) -> (forall e w, E e w -> Q (Err e) w) -> triple tid P (p ≫= f) Q.
Proof.
  intros Hp Hf He. unfold mbind, act_bind. eapply triple_bind; [exact Hp|]. intros [a|e]; cbn; [by apply Hf|].
  apply triple_ret. by apply He.
Qed.

Lemma try_except_triple {A} tid P (p : act I A) h (R : A -> world S -> Prop) (E : exn -> world S -> Prop) Q :
  triple tid P p (fun r w => match r with Ok a => R a w | Err e => E e w end) ->
  (forall a w, R a w -> Q (Ok a) w) -> (forall e, triple tid (E e) (h e) Q) -> triple tid P (try_except p h) Q.
Proof.
  intros Hp Ha Hh. unfold try_except. eapply triple_bind; [exact Hp|]. intros [a|e]; cbn; [|by apply Hh].
  apply triple_ret. by apply Ha.
Qed.

Lemma pure_triple {A} tid (P : world S -> Prop) (r : result A) (Q : result A -> world S -> Prop) :
  (forall w, P w -> Q r w) -> triple tid P (pure r) Q.
Proof. apply triple_ret. Qed.

(** ** All threads together *)

Context {A : Type} (entry : prog I A -> Prop) (start : world S -> Prop) (Q : A -> world S -> Prop).
Context (Hstart : forall w, start w -> ok w).
Context (Hentry : forall tid p, entry p -> triple tid (fun _ => True) p Q).
Context (Hworld : forall w w', ok w -> environment S w w' -> ok w' /\ forall tid, rely tid w w').
Context (Hended : forall tid w, ok w -> ok (ended S tid w) /\ others_rely tid w (ended S tid w)).

Definition all_safe (c : config S) : Prop :=
  ok c.2 /\ forall tid (p : prog I A), c.1 !! tid = Some p ->
    forall w, rtc (interfered tid) c.2 w -> safe tid p Q w.

Lemma step_all_safe c c' : all_safe c -> step S entry c c' -> all_safe c'.
Proof.
  intros [Hok Hall] Hs. destruct Hs as [tid p ts w Hn Hp|tid c k r ts w w' Ht Hh|tid p ts w Ht|ts w w' He]; cbn in *.
  - split; [done|]. intros tid' p'. cbn. rewrite lookup_insert_Some. intros [[<- <-]|[_ Ht]]; [|by apply Hall].
    intros w1 Hw. apply Hentry; [done| |done]. by eapply interfered_ok.
  - pose proof (Hall tid _ Ht w (rtc_refl _ _)) as Hs. cbn in Hs. destruct (Hs r w' Hh) as (Hok' & Hr & Hk). split; [done|].
    intros tid' p'. cbn. rewrite lookup_insert_Some. intros [[<- <-]|[Hne Ht']]; [by apply Hk|].
    intros w1 Hw. apply (Hall tid' p' Ht'). eapply rtc_l; [|done]. split; [|done]. by apply Hr, not_eq_sym.
  - destruct (Hended tid w Hok) as [Hok' Hr]. split; [done|]. intros tid' p'. cbn. rewrite lookup_delete_Some.
    intros [Hne Ht'] w1 Hw. apply (Hall tid' p' Ht'). eapply rtc_l; [|done]. split; [|done]. by apply Hr, not_eq_sym.
  - destruct (Hworld w w' Hok He) as [Hok' Hr]. split; [done|]. intros tid' p' Ht' w1 Hw. apply (Hall tid' p' Ht').
    eapply rtc_l; [|done]. by split; [apply Hr|].
Qed.

Lemma reachable_safe c : reachable S entry start c -> all_safe c.
Proof.
  intros (w & Hw & Hr). assert (all_safe (∅, w)) as H.
  { split; [by apply Hstart|]. intros tid p. cbn. by rewrite lookup_empty. }
  remember (∅, w) as c0 eqn:E. clear E. induction Hr as [|c0 c1 c2 Hs _ IH]; [done|]. by apply IH, (step_all_safe c0).
Qed.

Lemma reachable_ok c : reachable S entry start c -> ok c.2.
Proof. intros [H _]%reachable_safe. done. Qed.

(** What a thread that has ended returned. *)
Lemma reachable_returned c tid a : reachable S entry start c -> c.1 !! tid = Some (Ret a) -> Q a c.2.
Proof. intros [_ H]%reachable_safe Ht. exact (H tid _ Ht _ (rtc_refl _ _)). Qed.

(** A relation that every thread can live with, and that the end of a thread keeps, holds of
    the world between any two states. *)
Lemma reachable_mono (R : world S -> world S -> Prop) c c' :
  (forall w, R w w) -> (forall w1 w2 w3, R w1 w2 -> R w2 w3 -> R w1 w3) ->
  (forall tid w w', rely tid w w' -> R w w') -> reachable S entry start c -> rtc (step S entry) c c' -> R c.2 c'.2.
Proof.
  intros Hrefl Htrans HR Hc Hs. apply reachable_safe in Hc as Ha. clear Hc. induction Hs as [|c c1 c2 H1 _ IH]; [apply Hrefl|].
  pose proof (step_all_safe _ _ Ha H1) as Ha1. eapply Htrans; [|by apply IH]. clear IH Ha1.
  destruct Ha as [Hok Hall], H1 as [tid p ts w Hn Hp|tid call k r ts w w' Ht Hh|tid p ts w Ht|ts w w' He]; cbn in *.
  - apply Hrefl.
  - destruct (Hall tid _ Ht w (rtc_refl _ _) r w' Hh) as (_ & Hr & _). apply (HR (1 + tid)%nat), Hr. lia.
  - destruct (Hended tid w Hok) as [_ Hr]. apply (HR (1 + tid)%nat), Hr. lia.
  - destruct (Hworld w w' Hok He) as [_ Hr]. by apply (HR 0%nat).
Qed.

End Logic.
