(* ===== verification/Commands.v ===== *)
(** * Authored commands, run once (native_providers.py)

    [JournaledCommandExecutor] with the private files and locks it shares with the hand-off
    of an attempt (Handoff).  A method is a program that calls its host ([host]): locks,
    files, processes and what else it asks.  Types of todo_orchestrator.contracts are
    records here; what their constructors refuse, and the digest of a request, are
    parameters ([contracts]).  A lock is held until it is given back or its holder ends. *)

From Stdlib Require Import ZArith SpecFloat.
From S2P Require Import Prelude PyValue Text Json JsonParse Journal BearerStore Program.
Import Journal BearerStore.

#[local] Open Scope string_scope.
#[local] Open Scope Z_scope.
#[local] Open Scope list_scope.

Module Commands.

Definition _COMMAND_FORMAT : string := "project-control.todo-command-execution".
Definition _COMMAND_VERSION : Z := 1.
Definition _MAX_JOURNAL_BYTES : Z := 1024 * 1024.
Definition _MAX_COMMAND_TIMEOUT_MS : Z := 24 * 60 * 60 * 1000.
Definition _COMMAND_SUPERVISOR_CLEANUP_MS : Z := 5000.
Definition _COMMAND_SUPERVISOR_PROTOCOL : string := "project-control.todo-command-supervisor".
Definition _COMMAND_SUPERVISOR_VERSION : Z := 1.

(** ** Requests and results *)

(** The components of an absolute path. *)
Abbreviation path := (list string).
Definition path_text (p : path) : string :=
  match p with [] => "/" | _ => foldr (fun c s => "/" +:+ c +:+ s) "" p end.

(** "root in path.parents". *)
Definition below (root p : path) : bool := bool_decide (root `prefix_of` p) && negb (bool_decide (p = root)).

Record command_request := {
  cr_operation : string; cr_attempt : string; cr_project : string; cr_argv : list string; cr_timeout_ms : Z;
  cr_cwd : option string; cr_workspace : option string; cr_source : string
}.

(** A datetime: its time in microseconds, and whether it has an offset. *)
Record moment := { mo_time : Z; mo_aware : bool }.
#[export] Instance moment_eq_dec : EqDecision moment.
Proof. solve_decision. Defined.

Record observation := {
  ob_operation : string; ob_exit_code : pyval; ob_timed_out : pyval; ob_started : moment; ob_completed : moment;
  ob_stdout : option string; ob_stderr : option string
}.

(** A provider: its name, version and contract version. *)
Record identity := { id_provider : string; id_version : pyval; id_contract : pyval }.

Record receipt := {
  rc_id : string; rc_provider : identity; rc_correlation : string; rc_request : string; rc_provenance : string; rc_observed : moment
}.

Inductive provider_result (A : Type) :=
  | Unavailable (operation reason : string)
  | Unknown (operation reason : string)
  | Observed (operation : string) (o : A) (r : receipt).
Arguments Unavailable {A} _ _.
Arguments Unknown {A} _ _.
Arguments Observed {A} _ _ _.

(** What the contracts' constructors refuse, digests, and the text of a time. *)
Record contracts := {
  StableId : pyval -> result string;
  Sha256Digest : pyval -> result string;
  ProviderIdentity : string -> pyval -> pyval -> result identity;
  CommandObservation : observation -> result observation;
  ProviderReceipt : receipt -> result receipt;
  provider_request_digest : command_request -> string;
  fromisoformat : pyval -> result moment;
  isoformat : moment -> string
}.

(** ** Private files and locks *)

(** The name of a file is the SHA-256 of what it is for. *)
Inductive file := CommandRecord (token : string) | Attestation (token : string) | HandoffRecord (token : string) | Credential (token : string).
Inductive lock := OperationLock (token : string) | AttemptLock (token : string) | RecordLock (f : file).

#[export] Instance file_eq_dec : EqDecision file.
Proof. solve_decision. Defined.
#[export] Instance lock_eq_dec : EqDecision lock.
Proof. solve_decision. Defined.

#[export] Instance file_countable : Countable file.
Proof.
  refine (inj_countable'
    (fun f => match f with CommandRecord t => (0%N, t) | Attestation t => (1%N, t) | HandoffRecord t => (2%N, t) | Credential t => (3%N, t) end)
    (fun x => if decide (x.1 = 0%N) then CommandRecord x.2 else if decide (x.1 = 1%N) then Attestation x.2
              else if decide (x.1 = 2%N) then HandoffRecord x.2 else Credential x.2) _).
  by intros [].
Defined.

#[export] Instance lock_countable : Countable lock.
Proof.
  refine (inj_countable'
    (fun l => match l with OperationLock t => inl (inl t) | AttemptLock t => inl (inr t) | RecordLock f => inr f end)
    (fun x => match x with inl (inl t) => OperationLock t | inl (inr t) => AttemptLock t | inr f => RecordLock f end) _).
  by intros [].
Defined.

(** What opening and parsing a file finds; its value is what json.load returns, if it does. *)
Record stored := { s_symlink : bool; s_opens : bool; s_private : bool; s_size : Z; s_value : option pyval }.

(** Opening a private JSON file, with the messages of the three readers. *)
Definition open_private (limit : Z) (symlink opened unsafe unreadable : string) (f : option stored) : result (option pyval) :=
  match f with
  | None => Ok None
  | Some f =>
      _ ← raise_if (s_symlink f) (NativeProviderUnavailable symlink);
      _ ← raise_if (negb (s_opens f)) (NativeProviderUnavailable opened);
      _ ← raise_if (negb (s_private f) || (limit <? s_size f)) (NativeProviderUnavailable unsafe);
      match s_value f with Some v => Ok (Some v) | None => Err (NativeProviderUnavailable unreadable) end
  end.

(** ** The host *)

Inductive proc_read := ProcGone | ProcUnreadable | ProcText (s : string).
Inductive kill_result := Killed | NoSuchProcess | KillFailed.

(** The calls of the programs.  A process is known by the Popen object [h] that started it;
    [Popen] says for which request, as the history needs it.  [ListJournal] answers the
    entries of the journal directory ([JournalSymlink]: one that is a link or temporary). *)
Inductive journal_entry := JournalRecord (token : string) | JournalOther | JournalUnsettled.

Inductive host_call :=
  | Acquire (l : lock) | Release (l : lock)
  | ReadFile (f : file) | WriteFile (f : file) (d : pydict) (size : Z)
  | ListJournal
  | EnsurePrivate (what : string) | JournalIsPrivate
  | Now | Environ (name : string) | HomePath | TempDir | RuntimePrefix | RepositoryRoot
  | WorkspacePath (workspace : string) | WorkspaceRoot | WorkspaceSource (workspace : string)
  | ResolveDirectory (workspace : path) (cwd : option string)
  | Pipe | Popen (rq : command_request) (cwd : path) (env : list (string * string))
  | ReadProc (pid : Z) | Poll (h : nat) | KillGroup (h : nat) | Kill (h : nat) | Wait (h : nat) (timeout_ms : Z)
  | CloseStdin (h : nat) | SendRequest (h : nat) (payload : pydict)
  | JoinReaders (h : nat) | ReadReport (h : nat)
  | WorkspaceHead (workspace : string) | WorkspaceState (workspace head : string) | TreeDigest (head : string)
  | GitText (arguments : list string) (check : bool) | UpdateRef (reference commit : string)
  | Owners (attempt : string) | Children (attempt : string) | RandomToken | InspectAttempt (attempt : string)
  | GitEffect (attempt : option string) (kind : string).

(** The registered owners of an attempt: no such query, an exception, or a value. *)
Inductive owners_answer := NoQuery | QueryRaised | Rows (v : pyval).
Inductive child_activity := ChildNone | ChildActive | ChildUnknown.

(** What an authenticated session says of an attempt and its host, and its rows. *)
Record entity_ref := { en_project : string; en_kind : string; en_id : string; en_definition : option string; en_incarnation : option string }.
#[export] Instance entity_ref_eq_dec : EqDecision entity_ref.
Proof. solve_decision. Defined.

Record host_observation := {
  ho_attempt : entity_ref; ho_lease : string; ho_lease_expires : moment; ho_source : string; ho_source_digest : option string;
  ho_process_unknown : bool; ho_children : child_activity; ho_workspace : string; ho_base_ref : string; ho_base_digest : pyval;
  ho_receipt_id : string; ho_receipt_correlation : string; ho_receipt_provenance : string; ho_receipt_request : string; ho_receipt_observed : moment
}.

Record attempt_inspection := {
  ai_attempt : option entity_ref; ai_lease : option string; ai_lease_expires : option moment; ai_workspace : option string;
  ai_host : option host_observation; ai_project : string; ai_rows : option (list pydict)
}.

(** A journal that cannot be listed is "is_symlink", missing, not a directory, or raises. *)
Inductive listing := NoJournal | BadJournal | Entries (l : list journal_entry).

Definition host_answer (c : host_call) : Type :=
  match c with
  | Acquire _ => result unit
  | Release _ => unit
  | ReadFile _ => option stored
  | WriteFile _ _ _ => result unit
  | ListJournal => listing
  | EnsurePrivate _ => result unit
  | JournalIsPrivate => result bool
  | Now => moment
  | Environ _ => option string
  | HomePath | TempDir => result path
  | RuntimePrefix => string
  | RepositoryRoot => result (option path)
  | WorkspacePath _ | WorkspaceRoot => result path
  | WorkspaceSource _ => result string
  | ResolveDirectory _ _ => result (path * bool)
  | Pipe => result unit
  | Popen _ _ _ => result (nat * Z)
  | ReadProc _ => proc_read
  | Poll _ => option Z
  | KillGroup _ => kill_result
  | Kill _ => unit
  | Wait _ _ => option Z
  | CloseStdin _ => unit
  | SendRequest _ _ => result unit
  | JoinReaders _ => bool
  | ReadReport _ => result string
  | WorkspaceHead _ | TreeDigest _ | GitText _ _ => result string
  | WorkspaceState _ _ => result (bool * string)
  | UpdateRef _ _ => result Z
  | Owners _ => owners_answer
  | Children _ => result child_activity
  | RandomToken => string
  | InspectAttempt _ => result attempt_inspection
  | GitEffect _ _ => result pyval
  end.

Definition host : interface := {| call := host_call; answer := host_answer |}.
Abbreviation run := (act host).

(** A call whose answer may be an exception. *)
Definition call_result {A} (c : host_call) (H : host_answer c = result A) : run A :=
  Call (I := host) c (fun r => Ret (eq_rect _ id r _ H)).
Abbreviation invoke c := (call_result c eq_refl).
Abbreviation query c := (ask (I := host) c).

(** "with lock: ...". *)
Definition locked {A} (l : lock) (body : run A) : run A :=
  _ ← invoke (Acquire l); try_finally body (request (I := host) (Release l)).

Section Host.
Context (float_repr : spec_float -> string) (float_of : string -> spec_float) (sha256 : string -> string) (k : contracts).

Definition _attempt_token (attempt : string) : string := sha256 attempt.

(** ** Reading and writing *)

Definition _read (f : file) : run (option pydict) :=
  s ← query (ReadFile f);
  v ← pure (open_private _MAX_JOURNAL_BYTES "command journal contains a symlink" "command journal could not be opened"
              "command journal has unsafe ownership, permissions, or size" "command journal record is unreadable" s);
  match v with
  | None => mret None
  | Some (PDict d) => mret (Some d)
  | Some _ => raise (NativeProviderUnavailable "command journal record is malformed")
  end.

(** "json.dumps(...)", the size limit, and the replacement of the file. *)
Definition write_private (limit : Z) (too_large : string) (f : file) (d : pydict) : run unit :=
  _ ← guard_act (has_nan (PDict d)) (ValueError "Out of range float values are not JSON compliant");
  let size := Z.of_nat (String.length (json_ascii float_repr "," ":" (PDict d))) in
  _ ← guard_act (limit <? size) (NativeProviderUnavailable too_large);
  invoke (WriteFile f d size).

Definition _write (f : file) (d : pydict) : run unit :=
  write_private _MAX_JOURNAL_BYTES "command journal record exceeds its size limit" f d.

Definition _EXTERNAL_ATTESTATION_FORMAT : string := "project-control.todo-external-producer-attestation".
Definition _EXTERNAL_ATTESTATION_VERSION : Z := 1.
Definition _EXTERNAL_ATTESTATION_FIELDS : list string :=
  ["format"; "version"; "project_id"; "project_root"; "attempt_id"; "actor"; "target"; "lease_id"; "lease_expires_at"; "workspace_id";
   "base_ref"; "base_digest"; "source_safety"; "source_digest"; "producer_id"; "lifecycle_source"; "lifecycle_state"; "attested_by";
   "host_receipt"; "observed_at"; "expires_at"; "attestation_id"].

Definition _read_attestation (attempt : string) : run (option pydict) :=
  s ← query (ReadFile (Attestation (_attempt_token attempt)));
  v ← pure (open_private _MAX_JOURNAL_BYTES "external producer attestation must not be a symlink"
              "external producer attestation could not be opened" "external producer attestation has unsafe ownership or permissions"
              "external producer attestation is unreadable" s);
  match v with
  | None => mret None
  | Some (PDict d) =>
      if py_eqb (field "format" d) (PStr _EXTERNAL_ATTESTATION_FORMAT) && py_eqb (field "version" d) (PInt _EXTERNAL_ATTESTATION_VERSION)
         && key_set d _EXTERNAL_ATTESTATION_FIELDS
      then mret (Some d) else raise (NativeProviderUnavailable "external producer attestation is malformed")
  | Some _ => raise (NativeProviderUnavailable "external producer attestation is malformed")
  end.

(** *** Records of native_authoring_handoff.py *)

Definition _MAX_RECORD_BYTES : Z := 128 * 1024.
Definition _HANDOFF_FORMAT : string := "project-control.todo-authoring-handoff".
Definition _HANDOFF_VERSION : Z := 1.
Definition handoff_fields : list string :=
  ["format"; "version"; "project_id"; "authority_id"; "attempt_id"; "lease_id"; "workspace_id"; "idempotency_key"; "request_digest";
   "source_commit"; "source_tree"; "source_digest"; "source_ref"; "receipt"].

Definition _read_record (f : file) (format : string) (version : Z) (fields : list string) : run (option pydict) :=
  s ← query (ReadFile f);
  v ← pure (open_private _MAX_RECORD_BYTES "native Todo host record must not be a symlink" "native Todo host record could not be opened"
              "native Todo host record has unsafe ownership or permissions" "native Todo host record is unreadable" s);
  match v with
  | None => mret None
  | Some (PDict d) =>
      if py_eqb (field "format" d) (PStr format) && py_eqb (field "version" d) (PInt version) && key_set d fields
      then mret (Some d) else raise (NativeProviderUnavailable "native Todo host record is malformed")
  | Some _ => raise (NativeProviderUnavailable "native Todo host record is malformed")
  end.

(** Any hand-off marker counts, even one that cannot be read. *)
Definition has_handoff_marker (attempt : string) : run bool :=
  let f := HandoffRecord (sha256 attempt) in
  try_except
    (_ ← invoke (EnsurePrivate "record_root");
     r ← locked (RecordLock f) (_read_record f _HANDOFF_FORMAT _HANDOFF_VERSION handoff_fields);
     mret (match r with Some _ => true | None => false end))
    (fun _ => mret true).

(** ** Processes *)

(** What follows the last ")". *)
Fixpoint after_close (s : string) : option string :=
  match s with
  | EmptyString => None
  | String c s => match after_close s with Some r => Some r | None => if (code c =? 41)%nat then Some s else None end
  end.

Definition _process_start (pid : Z) : run (option string * option string) :=
  r ← query (ReadProc pid);
  mret (match r with
        | ProcGone => (None, Some "gone")
        | ProcUnreadable => (None, None)
        | ProcText raw => match after_close raw with
                          | None => (None, None)
                          | Some rest => let fields := split_ws rest in
                              if (length fields <=? 19)%nat then (None, None) else (fields !! 19%nat, fields !! 0%nat)
                          end
        end).

Definition _stop_supervisor (h : nat) : run bool :=
  code ← query (Poll h);
  _ ← match code with
      | Some _ => mret tt
      | None => r ← query (KillGroup h); match r with KillFailed => query (Kill h) | _ => mret tt end
      end;
  stopped ← query (Wait h 2000);
  mret (bool_decide (stopped <> None)).

(** ** Results *)

Definition _unknown {A} (operation reason : string) : run (provider_result A) := mret (Unknown operation reason).
Definition _unavailable {A} (operation reason : string) : run (provider_result A) := mret (Unavailable operation reason).

Definition opt_str (s : option string) : pyval := match s with Some s => PStr s | None => PNone end.

(** "value[key]" of a dict. *)
Definition item (key : string) (d : pydict) : result pyval :=
  match dict_get key d with Some v => Ok v | None => Err (KeyError key) end.

Definition optional_digest (v : pyval) : result (option string) :=
  match v with PNone => Ok None | _ => s ← Sha256Digest k v; Ok (Some s) end.

Definition _record_observation (d : pydict) : result observation :=
  operation ← item "operation_id" d ≫= StableId k; code ← item "exit_code" d; timed_out ← item "timed_out" d;
  started ← item "started_at" d ≫= fromisoformat k; completed ← item "completed_at" d ≫= fromisoformat k;
  out ← item "stdout_digest" d ≫= optional_digest; err ← item "stderr_digest" d ≫= optional_digest;
  CommandObservation k {| ob_operation := operation; ob_exit_code := code; ob_timed_out := timed_out; ob_started := started;
                          ob_completed := completed; ob_stdout := out; ob_stderr := err |}.

Definition _receipt_from (v : pyval) : result receipt :=
  match v with
  | PDict d =>
      rid ← item "receipt_id" d ≫= StableId k; provider ← item "provider_id" d ≫= StableId k;
      version ← item "provider_version" d; contract ← item "provider_contract_version" d;
      who ← ProviderIdentity k provider version contract;
      correlation ← item "correlation_id" d ≫= StableId k; digest ← item "request_digest" d ≫= Sha256Digest k;
      provenance ← item "provenance_ref" d ≫= StableId k; observed ← item "observed_at" d ≫= fromisoformat k;
      ProviderReceipt k {| rc_id := rid; rc_provider := who; rc_correlation := correlation; rc_request := digest;
                           rc_provenance := provenance; rc_observed := observed |}
  | _ => Err (TypeError "not subscriptable")
  end.

Definition _receipt_value (r : receipt) : pydict :=
  [("receipt_id", PStr (rc_id r)); ("provider_id", PStr (id_provider (rc_provider r))); ("provider_version", id_version (rc_provider r));
   ("provider_contract_version", id_contract (rc_provider r)); ("correlation_id", PStr (rc_correlation r));
   ("request_digest", PStr (rc_request r)); ("provenance_ref", PStr (rc_provenance r)); ("observed_at", PStr (isoformat k (rc_observed r)))].

(** The executor of one project. *)
Record executor := { ex_project : string; ex_identity : identity; ex_attestations : bool; ex_handoff : bool }.

Definition _receipt (ex : executor) (rq : command_request) (observed_at : moment) : result receipt :=
  let digest := provider_request_digest k rq in
  rid ← StableId k (PStr ("pc-command-" +:+ sha256 (cr_operation rq +:+ digest)));
  ProviderReceipt k {| rc_id := rid; rc_provider := ex_identity ex; rc_correlation := cr_operation rq; rc_request := digest;
                       rc_provenance := cr_operation rq; rc_observed := observed_at |}.

(** ** Running a command *)

Definition _workspace (rq : command_request) : run (path * path) :=
  match cr_workspace rq with
  | None => raise (NativeProviderUnavailable "command workspace is unavailable")
  | Some id =>
      workspace ← invoke (WorkspacePath id); root ← invoke WorkspaceRoot;
      _ ← guard_act (negb (below root workspace)) (NativeProviderUnavailable "command workspace escaped its configured root");
      source ← invoke (WorkspaceSource id);
      _ ← guard_act (negb (String.eqb source (cr_source rq)))
            (NativeProviderUnavailable "command source differs from its authorized source identity");
      let cwd := match cr_cwd rq with Some "." | None => None | Some c => Some c end in
      '(resolved, is_dir) ← invoke (ResolveDirectory workspace cwd);
      _ ← guard_act (negb (bool_decide (resolved = workspace) || below workspace resolved) || negb is_dir)
            (NativeProviderUnavailable "command working directory escaped its workspace");
      mret (workspace, resolved)
  end.

(** The environment of the supervisor: an allowlist. *)
Definition command_environment : run (list (string * string)) :=
  path_ ← query (Environ "PATH"); home ← invoke HomePath; temporary ← invoke TempDir; tmpdir ← query (Environ "TMPDIR");
  mret [("PATH", default "/usr/bin:/bin" path_); ("HOME", path_text home); ("LC_ALL", "C"); ("LANG", "C"); ("PYTHONNOUSERSITE", "1");
        ("PYTHONDONTWRITEBYTECODE", "1"); ("TMPDIR", default (path_text temporary) tmpdir)].

Definition supervisor_request (rq : command_request) (workspace cwd : path) (prefix : string) (repository : option path) : pydict :=
  [("argv", PList (map PStr (cr_argv rq))); ("timeout_ms", PInt (cr_timeout_ms rq)); ("cleanup_ms", PInt _COMMAND_SUPERVISOR_CLEANUP_MS);
   ("workspace", PStr (path_text workspace)); ("cwd", PStr (path_text cwd)); ("runtime_prefix", PStr prefix);
   ("repository_root", opt_str (path_text <$> repository))].

Definition starting_record (rq : command_request) : pydict :=
  [("format", PStr _COMMAND_FORMAT); ("version", PInt _COMMAND_VERSION); ("operation_id", PStr (cr_operation rq));
   ("attempt_id", PStr (cr_attempt rq)); ("project_id", PStr (cr_project rq)); ("request_digest", PStr (provider_request_digest k rq));
   ("state", PStr "starting"); ("pid", PNone); ("process_start", PNone)].

Definition running_record (record : pydict) (pid : Z) (start : option string) : pydict :=
  dict_update record [("state", PStr "running"); ("pid", PInt pid); ("process_start", opt_str start); ("process_group", PInt pid)].

Definition not_started_record (record : pydict) (reason : pyval) : pydict :=
  dict_update record [("state", PStr "not_started"); ("reason", reason)].

Definition live_state (state : option string) : bool :=
  match state with Some s => negb (bool_decide (s ∈ ["Z"; "X"; "x"])) | None => false end.

(** A launch that ended here, or a supervisor that has its request. *)
Definition launched (A : Type) : Type := A + (nat * Z * moment * pydict).

(** From the start of the supervisor to its request. *)
Definition supervise (rq : command_request) (record payload : pydict) (started : moment) (h : nat) (pid : Z) :
    run (launched (provider_result observation)) :=
  let op := cr_operation rq in let f := CommandRecord (sha256 op) in
  '(start, state) ← _process_start pid;
  let running := running_record record pid start in
  if bool_decide (start = None) || negb (live_state state) || bool_decide (state = Some "gone") then
    _ ← try_except (_write f running) (fun _ => mret tt);
    stopped ← _stop_supervisor h;
    if stopped : bool then
      _ ← _write f (not_started_record running (PStr "command_supervisor_identity_unavailable"));
      r ← _unavailable op "command_supervisor_identity_unavailable"; mret (inl r)
    else r ← _unknown op "command_supervisor_identity_unconfirmed"; mret (inl r)
  else
    written ← try_except (_ ← _write f running; mret true) (fun _ => mret false);
    if negb written then
      _ ← query (CloseStdin h); _ ← _stop_supervisor h; r ← _unknown op "command_journal_update_failed"; mret (inl r)
    else
      sent ← try_except (_ ← invoke (SendRequest h payload); mret true)
               (fun e => match e with OSError _ => mret false | _ => raise e end);
      if negb sent then _ ← _stop_supervisor h; r ← _unknown op "command_supervisor_request_unconfirmed"; mret (inl r)
      else mret (inr (h, pid, started, running)).

(** Under the attempt's lock: the fences, the record, and the supervisor. *)
Definition launch (ex : executor) (rq : command_request) : run (launched (provider_result observation)) :=
  let op := cr_operation rq in let f := CommandRecord (sha256 op) in
  attested ← (if ex_attestations ex then _read_attestation (cr_attempt rq) else mret None);
  if (match attested with Some _ => true | None => false end : bool) then r ← _unavailable op "external_producer_completion_attested"; mret (inl r) else
  handed ← (if ex_handoff ex then has_handoff_marker (cr_attempt rq) else mret false);
  if handed : bool then r ← _unavailable op "attempt_authoring_handed_off"; mret (inl r) else
  place ← try_except (p ← _workspace rq; mret (Some p)) (fun _ => mret None);
  match place with
  | None => r ← _unavailable op "command_workspace_unqualified"; mret (inl r)
  | Some (workspace, cwd) =>
      let record := starting_record rq in
      _ ← _write f record;
      env ← command_environment; started ← query Now; repository ← invoke RepositoryRoot; prefix ← query RuntimePrefix;
      let payload := supervisor_request rq workspace cwd prefix repository in
      _ ← invoke Pipe;
      process ← try_except (p ← invoke (Popen rq cwd env); mret (Some p))
                  (fun e => match e with OSError _ => mret None | _ => raise e end);
      match process with
      | None =>
          _ ← _write f (not_started_record record (PStr "command_launch_failed"));
          r ← _unavailable op "command_launch_failed"; mret (inl r)
      | Some (h, pid) => supervise rq record payload started h pid
      end
  end.

(** *** The supervisor's report *)

Inductive verdict :=
  | VUnknown (reason : string)
  | VNotStarted (reason : pyval)
  | VCompleted (exit_code : pyval) (timed_out : bool) (stdout stderr : string).

Definition as_bool (v : pyval) : option bool := match v with PBool b => Some b | _ => None end.

(** 64 lower-case hexadecimal digits. *)
Definition is_hex64 (v : pyval) : option string :=
  match v with
  | PStr s => if (String.length s =? 64)%nat && all_chars (fun c => is_digit c || in_range 97 102 c) s then Some s else None
  | _ => None
  end.

(** "json.loads(payload)" of the report's bytes; only those that are UTF-8, the encoding the
    supervisor writes: json.loads would also take UTF-16, UTF-32 and encoded surrogates. *)
Definition parse_report (text : string) : option pyval := if JsonParse.utf8_ok text then JsonParse.json_loads float_of text else None.

(** A report of the right shape: its fields and its flags. *)
Definition report_shape (v : pyval) : option (pydict * bool * bool) :=
  match v with
  | PDict d =>
      if py_eqb (field "protocol" d) (PStr _COMMAND_SUPERVISOR_PROTOCOL) && py_eqb (field "version" d) (PInt _COMMAND_SUPERVISOR_VERSION)
      then t ← as_bool (field "timed_out" d); q ← as_bool (field "tree_quiescent" d); Some (d, t, q)
      else None
  | _ => None
  end.

(** Testing a list or a dict for membership in a set raises, which [execute] answers with
    "command_provider_unavailable". *)
Definition judge (text : string) (returncode : Z) : verdict :=
  if (65536 <? Z.of_nat (String.length text)) then VUnknown "command_supervisor_report_size_unconfirmed" else
  match parse_report text with
  | None => VUnknown "command_supervisor_report_parse_failed"
  | Some v =>
      match report_shape v with
      | None => VUnknown "command_supervisor_report_shape_invalid"
      | Some (d, timed_out, quiescent) =>
          let state := field "state" d in let code := field "exit_code" d in
          if negb (hashable state) then VUnknown "command_provider_unavailable" else
          if py_eqb state (PStr "unavailable") || py_eqb state (PStr "not_started") then
            if quiescent || negb (py_eqb code PNone) then VUnknown "command_supervisor_report_invalid" else VNotStarted (field "reason" d)
          else if negb (py_eqb state (PStr "completed")) || negb (returncode =? 0) || negb quiescent
          then VUnknown "command_descendant_quiescence_unconfirmed"
          else match is_hex64 (field "stdout_digest" d), is_hex64 (field "stderr_digest" d) with
               | Some out, Some err =>
                   if timed_out && negb (py_eqb code PNone) || negb timed_out && negb (match code with PInt _ => true | _ => false end)
                   then VUnknown "command_supervisor_report_invalid"
                   else VCompleted code timed_out out err
               | _, _ => VUnknown "command_supervisor_output_digest_invalid"
               end
      end
  end.

Definition known_reasons : list string :=
  ["child_subreaper_unavailable"; "command_launch_failed"; "bubblewrap_unavailable"; "linux_sandbox_unavailable";
   "command_executable_unavailable"; "command_sandbox_configuration_invalid"].

Definition public_reason (reason : pyval) : string :=
  match reason with
  | PStr s => if bool_decide (s ∈ known_reasons) then s else "command_supervisor_unavailable"
  | _ => "command_supervisor_unavailable"
  end.

Definition completed_record (record : pydict) (o : observation) (r : receipt) : pydict :=
  dict_update record
    [("state", PStr "completed"); ("started_at", PStr (isoformat k (ob_started o))); ("completed_at", PStr (isoformat k (ob_completed o)));
     ("exit_code", ob_exit_code o); ("timed_out", ob_timed_out o); ("stdout_digest", opt_str (ob_stdout o));
     ("stderr_digest", opt_str (ob_stderr o)); ("tree_quiescent", PBool true); ("receipt", PDict (_receipt_value r))].

(** From the wait for the supervisor to the result. *)
Definition observe (ex : executor) (rq : command_request) (h : nat) (started : moment) (record : pydict) : run (provider_result observation) :=
  let op := cr_operation rq in let f := CommandRecord (sha256 op) in
  exited ← query (Wait h (cr_timeout_ms rq + 2 * _COMMAND_SUPERVISOR_CLEANUP_MS + 5000));
  match exited with
  | None => _ ← _stop_supervisor h; _unknown op "command_supervisor_stop_unconfirmed"
  | Some returncode =>
      reading ← query (JoinReaders h); text ← invoke (ReadReport h);
      if reading : bool then _unknown op "command_output_stream_unclosed" else
      match judge text returncode with
      | VUnknown reason => _unknown op reason
      | VNotStarted reason =>
          _ ← _write f (not_started_record record reason);
          _ ← guard_act (negb (hashable reason)) (TypeError "unhashable type");
          _unavailable op (public_reason reason)
      | VCompleted code timed_out out err =>
          completed ← query Now;
          unchanged ← (if timed_out then mret true else try_except (_ ← _workspace rq; mret true) (fun _ => mret false));
          if negb unchanged then _unknown op "command_source_changed_during_execution" else
          stdout ← pure (Sha256Digest k (PStr out)); stderr ← pure (Sha256Digest k (PStr err));
          o ← pure (CommandObservation k {| ob_operation := op; ob_exit_code := code; ob_timed_out := PBool timed_out; ob_started := started;
                                            ob_completed := completed; ob_stdout := Some stdout; ob_stderr := Some stderr |});
          r ← pure (_receipt ex rq completed);
          _ ← _write f (completed_record record o r);
          mret (Observed op o r)
      end
  end.

(** The answer for an operation that has a record. *)
Definition replay (rq : command_request) (prior : pydict) : run (provider_result observation) :=
  let op := cr_operation rq in
  if negb (py_eqb (field "format" prior) (PStr _COMMAND_FORMAT))
     || negb (py_eqb (field "request_digest" prior) (PStr (provider_request_digest k rq)))
  then _unknown op "command_operation_identity_mismatch"
  else if negb (py_eqb (field "state" prior) (PStr "completed")) then _unknown op "command_result_requires_inspection"
  else if negb (bool_decide (as_bool (field "tree_quiescent" prior) = Some true)) then _unknown op "command_descendant_quiescence_unconfirmed"
  else o ← pure (_record_observation prior); r ← pure (item "receipt" prior ≫= _receipt_from); mret (Observed op o r).

(** None: the argument is not a CommandExecutionRequest. *)
Definition execute (ex : executor) (request : option command_request) : run (provider_result observation) :=
  match request with
  | None => _unavailable "invalid-command-request" "command_request_invalid"
  | Some rq =>
      let op := cr_operation rq in let token := sha256 op in
      if negb (String.eqb (cr_project rq) (ex_project ex)) then _unavailable op "command_project_unavailable"
      else if _MAX_COMMAND_TIMEOUT_MS <? cr_timeout_ms rq then _unavailable op "command_timeout_exceeds_host_limit"
      else
        try_except
          (_ ← invoke (EnsurePrivate "journal_root");
           safe_journal ← invoke JournalIsPrivate;
           if negb safe_journal then _unavailable op "command_journal_permissions_invalid" else
           locked (OperationLock token)
             (prior ← _read (CommandRecord token);
              match prior with
              | Some d => replay rq d
              | None =>
                  started ← locked (AttemptLock (_attempt_token (cr_attempt rq))) (launch ex rq);
                  match started with
                  | inl r => mret r
                  | inr (h, _, t, record) => observe ex rq h t record
                  end
              end))
          (fun _ => _unknown op "command_provider_unavailable")
  end.

(** ** Inspection *)

Record inspection_request := { ir_operation : string; ir_correlation : string; ir_project : string; ir_original : string; ir_digest : string }.

Inductive inspection :=
  | NotStarted
  | Running
  | Completed (o : observation) (r : receipt).

Definition inspection_receipt (ex : executor) (rq : inspection_request) (now : moment) : result receipt :=
  rid ← StableId k (PStr ("pc-command-inspect-" +:+ sha256 (ir_operation rq +:+ ir_correlation rq +:+ isoformat k now)));
  ProviderReceipt k {| rc_id := rid; rc_provider := ex_identity ex; rc_correlation := ir_correlation rq; rc_request := ir_digest rq;
                       rc_provenance := ir_operation rq; rc_observed := now |}.

(** What a record says now. *)
Definition inspect_record (rq : inspection_request) (value : option pydict) : run (string + inspection) :=
  match value with
  | None => mret (inr NotStarted)
  | Some d =>
      let state := field "state" d in
      if negb (py_eqb (field "format" d) (PStr _COMMAND_FORMAT)) || negb (py_eqb (field "request_digest" d) (PStr (ir_original rq)))
      then mret (inl "command_operation_identity_mismatch")
      else if py_eqb state (PStr "not_started") then mret (inr NotStarted)
      else if py_eqb state (PStr "completed") then
        if negb (bool_decide (as_bool (field "tree_quiescent" d) = Some true)) then mret (inl "command_descendant_quiescence_unconfirmed")
        else o ← pure (_record_observation d); r ← pure (item "receipt" d ≫= _receipt_from); mret (inr (Completed o r))
      else if py_eqb state (PStr "running") then
        match field "pid" d, field "process_start" d with
        | PInt pid, PStr expected =>
            '(actual, now) ← _process_start pid;
            if bool_decide (actual = Some expected) && negb (bool_decide (now = Some "Z") || bool_decide (now = Some "X") || bool_decide (now = Some "x"))
            then mret (inr Running) else mret (inl "command_completion_unobserved")
        | _, _ => mret (inl "command_start_unobserved")
        end
      else mret (inl "command_effect_unknown")
  end.

Definition inspect (ex : executor) (request : option inspection_request) : run (provider_result inspection) :=
  match request with
  | None => _unavailable "invalid-command-inspection" "command_inspection_invalid"
  | Some rq =>
      if negb (String.eqb (ir_project rq) (ex_project ex)) then _unavailable (ir_correlation rq) "command_project_unavailable" else
      try_except
        (value ← locked (OperationLock (sha256 (ir_operation rq))) (_read (CommandRecord (sha256 (ir_operation rq))));
         now ← query Now;
         found ← inspect_record rq value;
         match found with
         | inl reason => _unknown (ir_correlation rq) reason
         | inr i => r ← pure (inspection_receipt ex rq now); mret (Observed (ir_correlation rq) i r)
         end)
        (fun _ => _unknown (ir_correlation rq) "command_inspection_unavailable")
  end.

(** ** Is anything of an attempt unsettled *)

(** A record of the attempt that is neither completed nor not started. *)
Definition unsettled (attempt : string) (d : pydict) : bool :=
  py_eqb (field "attempt_id" d) (PStr attempt)
  && negb (py_eqb (field "state" d) (PStr "completed") || py_eqb (field "state" d) (PStr "not_started")).

Fixpoint entries_clear (attempt : string) (entries : list journal_entry) : run bool :=
  match entries with
  | [] => mret true
  | JournalUnsettled :: _ => mret false
  | JournalOther :: l => entries_clear attempt l
  | JournalRecord token :: l =>
      value ← try_except (v ← _read (CommandRecord token); mret (Some v)) (fun _ => mret None);
      match value with
      | None => mret false
      | Some None => entries_clear attempt l
      | Some (Some d) =>
          if negb (py_eqb (field "format" d) (PStr _COMMAND_FORMAT)) || negb (py_eqb (field "version" d) (PInt _COMMAND_VERSION))
          then mret false
          else
            _ ← guard_act (py_eqb (field "attempt_id" d) (PStr attempt) && negb (hashable (field "state" d))) (TypeError "unhashable type");
            if unsettled attempt d then mret false else entries_clear attempt l
      end
  end.

Definition _command_journal_clear (attempt : string) : run bool :=
  found ← query ListJournal;
  match found with
  | NoJournal => mret true
  | BadJournal => mret false
  | Entries l => entries_clear attempt l
  end.

End Host.

End Commands.
