(* ===== verification/Handoff.v ===== *)
(** * Hand-off of an attempt, its credential and its observers

    native_authoring_handoff.py, and what native_providers.py composes around it: the fence
    of Git effects, the attestation that an external producer has completed, and the
    observers of processes and children.  Programs over the host of Commands. *)

From Stdlib Require Import ZArith SpecFloat.
From S2P Require Import Prelude PyValue Text Json Journal BearerStore Program Commands.
Import Journal BearerStore Commands.

#[local] Open Scope string_scope.
#[local] Open Scope Z_scope.
#[local] Open Scope list_scope.

Module Handoff.

Definition _CREDENTIAL_FORMAT : string := "project-control.todo-attempt-credential".
Definition _CREDENTIAL_VERSION : Z := 1.
Definition _EXTERNAL_ATTESTATION_TTL_SECONDS : Z := 24 * 60 * 60.

Definition unavailable {A} (message : string) : run A := raise (NativeProviderUnavailable message).

Definition _text (value : option string) (name : string) : result string :=
  match value with
  | None => Err (NativeProviderUnavailable (name +:+ " is invalid"))
  | Some raw =>
      if String.eqb raw "" || negb (String.eqb raw (strip raw)) || (256 <? Z.of_nat (String.length raw))
      then Err (NativeProviderUnavailable (name +:+ " is invalid")) else Ok raw
  end.

Definition _digest (value : pyval) : result string :=
  match is_hex64 value with Some d => Ok d | None => Err (NativeProviderUnavailable "native Todo intent digest is invalid") end.

Section Host.
Context (float_repr : spec_float -> string) (sha256 : string -> string) (k : contracts).
#[local] Abbreviation write_private := (write_private float_repr).
#[local] Abbreviation _attempt_token := (_attempt_token sha256).
#[local] Abbreviation has_handoff_marker := (has_handoff_marker sha256).

Definition _write_record (f : file) (d : pydict) : run unit :=
  write_private _MAX_RECORD_BYTES "native Todo host record exceeds its size limit" f d.

(** ** Credentials *)

Record credential_request := {
  cq_project : option string; cq_authority : option string; cq_attempt : option string; cq_capability : option string;
  cq_key : option string; cq_intent : pyval
}.

(** project, authority, attempt, capability, key and intent. *)
Definition _request_id (rq : credential_request) : result (list string) :=
  p ← _text (cq_project rq) "project_id"; a ← _text (cq_authority rq) "authority_id"; t ← _text (cq_attempt rq) "attempt_id";
  c ← _text (cq_capability rq) "capability_id"; i ← _text (cq_key rq) "idempotency_key"; d ← _digest (cq_intent rq);
  Ok [p; a; t; c; i; d].

Definition identity_names : list string :=
  ["project_id"; "authority_id"; "attempt_id"; "capability_id"; "idempotency_key"; "intent_digest"].
Definition credential_fields : list string := ["format"; "version"] ++ identity_names ++ ["bearer_token"].

Definition credential_record (identity : list string) (token : string) : pydict :=
  [("format", PStr _CREDENTIAL_FORMAT); ("version", PInt _CREDENTIAL_VERSION)] ++ zip identity_names (map PStr identity)
  ++ [("bearer_token", PStr token)].

(** "f'{attempt_id}\0{capability_id}'". *)
Definition credential_key (attempt capability : string) : string := attempt +:+ chr 0 +:+ capability.

Definition prepare_attempt_credential (project authority : string) (rq : credential_request) : run string :=
  try_except
    (identity ← pure (_request_id rq);
     _ ← guard_act (negb (bool_decide (take 2 identity = [project; authority])))
           (NativeProviderUnavailable "attempt credential request has a different project authority");
     _ ← invoke (EnsurePrivate "root");
     let f := Credential (sha256 (credential_key (default "" (identity !! 2%nat)) (default "" (identity !! 3%nat)))) in
     locked (RecordLock f)
       (prior ← _read_record f _CREDENTIAL_FORMAT _CREDENTIAL_VERSION credential_fields;
        match prior with
        | Some d =>
            _ ← guard_act (negb (forallb (fun nv => py_eqb (field nv.1 d) (PStr nv.2)) (zip identity_names identity)))
                  (NativeProviderUnavailable "attempt credential identity conflicts with its durable record");
            match field "bearer_token" d with
            | PStr token => if String.eqb token "" then unavailable "durable attempt credential is invalid" else mret token
            | _ => unavailable "durable attempt credential is invalid"
            end
        | None =>
            token ← query RandomToken;
            _ ← _write_record f (credential_record identity token); mret token
        end))
    (fun e => match e with
              | NativeProviderUnavailable m => raise (NativeProviderUnavailable m)
              | _ => unavailable "attempt credential could not be prepared durably"
              end).

(** ** Handing an attempt off *)

(** None: the attribute is missing. *)
Record handoff_request := {
  hq_project : option string; hq_authority : option string; hq_attempt : option entity_ref; hq_lease : option string;
  hq_workspace : option string; hq_key : option string
}.

(** The request of a proof, with its identifiers. *)
Record proof_request := {
  pq_project : string; pq_authority : string; pq_attempt : entity_ref; pq_lease : string; pq_workspace : string; pq_key : string
}.

Record proof := { pf_request : proof_request; pf_commit : string; pf_tree : string; pf_digest : string; pf_receipt : receipt }.

(** Digests of these requests, and what the type of a proof refuses. *)
Context (py_repr : pyval -> string) (request_digest : proof_request -> string) (handoff_digest : proof_request -> string -> string -> string -> string).
Context (AttemptAuthoringHandoff : proof -> result proof).

(** The provider, and the host it asks. *)
Record provider := { pv_project : string; pv_authority : string; pv_identity : identity }.

Definition _ids (pv : provider) (rq : handoff_request) : result proof_request :=
  p ← _text (hq_project rq) "project_id"; a ← _text (hq_authority rq) "authority_id";
  match hq_attempt rq with
  | Some attempt =>
      _ ← raise_if (negb (String.eqb (en_kind attempt) "attempt") || negb (String.eqb (en_project attempt) (pv_project pv)))
            (NativeProviderUnavailable "authoring handoff attempt is outside the registered project");
      t ← _text (Some (en_id attempt)) "attempt_id"; l ← _text (hq_lease rq) "lease_id"; w ← _text (hq_workspace rq) "workspace_id";
      i ← _text (hq_key rq) "idempotency_key";
      _ ← raise_if (negb (String.eqb p (pv_project pv) && String.eqb a (pv_authority pv)))
            (NativeProviderUnavailable "authoring handoff request has a different project authority");
      Ok {| pq_project := p; pq_authority := a; pq_attempt := attempt; pq_lease := l; pq_workspace := w; pq_key := i |}
  | None => Err (NativeProviderUnavailable "authoring handoff attempt is outside the registered project")
  end.

(** The clean commit of a workspace: commit, tree and digest. *)
Definition _workspace_snapshot (workspace : string) : run (string * string * string) :=
  head ← invoke (WorkspaceHead workspace);
  '(clean, digest) ← invoke (WorkspaceState workspace head);
  _ ← guard_act (negb clean) (NativeProviderUnavailable "authoring handoff requires a clean committed workspace");
  tree_digest ← invoke (TreeDigest head);
  _ ← guard_act (negb (String.eqb digest tree_digest))
        (NativeProviderUnavailable "authoring handoff source digest differs from its immutable commit");
  out ← invoke (GitText ["rev-parse"; "--verify"; head +:+ "^{tree}"] true);
  let tree := strip out in
  _ ← guard_act (String.eqb tree "" || negb (all_chars (fun c => is_digit c || in_range 97 102 c) tree))
        (NativeProviderUnavailable "authoring handoff commit tree is unavailable");
  mret (head, tree, digest).

Definition handoff_ref (attempt : string) : string := "refs/todo-orchestrator/authoring-handoffs/" +:+ _attempt_token attempt.

(** The ref is created, or already is what it should be. *)
Definition _pin (attempt commit : string) : run string :=
  let reference := handoff_ref attempt in
  code ← invoke (UpdateRef reference commit);
  out ← invoke (GitText ["rev-parse"; "--verify"; reference] (code =? 0));
  _ ← guard_act (negb (String.eqb (strip out) commit)) (NativeProviderUnavailable "authoring handoff source pin conflicts with another source");
  mret reference.

Definition _make_proof (pv : provider) (rq : proof_request) (commit tree digest : string) (now : moment) : result proof :=
  commit ← StableId k (PStr commit); tree ← StableId k (PStr tree);
  let d := handoff_digest rq commit tree digest in
  rid ← StableId k (PStr ("pc-handoff-" +:+ sha256 (en_id (pq_attempt rq) +:+ chr 0 +:+ d)));
  correlation ← StableId k (PStr (en_id (pq_attempt rq)));
  r ← ProviderReceipt k {| rc_id := rid; rc_provider := pv_identity pv; rc_correlation := correlation; rc_request := d;
                           rc_provenance := commit; rc_observed := now |};
  AttemptAuthoringHandoff {| pf_request := rq; pf_commit := commit; pf_tree := tree; pf_digest := digest; pf_receipt := r |}.

Definition _record (pv : provider) (rq : proof_request) (commit tree digest ref : string) (p : proof) : pydict :=
  [("format", PStr _HANDOFF_FORMAT); ("version", PInt _HANDOFF_VERSION); ("project_id", PStr (pv_project pv));
   ("authority_id", PStr (pv_authority pv)); ("attempt_id", PStr (en_id (pq_attempt rq))); ("lease_id", PStr (pq_lease rq));
   ("workspace_id", PStr (pq_workspace rq)); ("idempotency_key", PStr (pq_key rq)); ("request_digest", PStr (request_digest rq));
   ("source_commit", PStr commit); ("source_tree", PStr tree); ("source_digest", PStr digest); ("source_ref", PStr ref);
   ("receipt", PDict (_receipt_value k (pf_receipt p)))].

(** Nothing of the attempt runs: no unsettled command, no registered owner, no child. *)
Definition _require_quiescent_host (attempt : string) : run unit :=
  clear ← _command_journal_clear attempt;
  _ ← guard_act (negb clear) (NativeProviderUnavailable "unresolved authored command effects prevent handoff");
  rows ← query (Owners attempt);
  _ ← match rows with
      | NoQuery => unavailable "host resource ownership is unavailable for handoff"
      | QueryRaised => raise (RuntimeError "owners_for_attempt")
      | Rows (PList []) => mret tt
      | Rows _ => unavailable "active or unknown host resource ownership prevents handoff"
      end;
  activity ← invoke (Children attempt);
  match activity with
  | ChildNone => mret tt
  | _ => unavailable "active or unknown child execution prevents handoff"
  end.

(** The receipt of a record, every field made a string or an integer first. *)
Definition str_item (key : string) (d : pydict) : result pyval := v ← item key d; Ok (PStr (py_str py_repr v)).

Definition _receipt_from (v : pyval) : result receipt :=
  match v with
  | PDict d =>
      rid ← str_item "receipt_id" d ≫= StableId k; provider ← str_item "provider_id" d ≫= StableId k; version ← str_item "provider_version" d;
      contract ← item "provider_contract_version" d ≫= py_int; who ← ProviderIdentity k provider version (PInt contract);
      correlation ← str_item "correlation_id" d ≫= StableId k; digest ← str_item "request_digest" d ≫= Sha256Digest k;
      provenance ← str_item "provenance_ref" d ≫= StableId k; observed ← str_item "observed_at" d ≫= fromisoformat k;
      ProviderReceipt k {| rc_id := rid; rc_provider := who; rc_correlation := correlation; rc_request := digest;
                           rc_provenance := provenance; rc_observed := observed |}
  | _ => Err (TypeError "not subscriptable")
  end.

Definition _proof_from_record (d : pydict) (attempt : entity_ref) : result proof :=
  p ← item "project_id" d ≫= StableId k; a ← item "authority_id" d ≫= StableId k; l ← item "lease_id" d ≫= StableId k;
  w ← item "workspace_id" d ≫= StableId k; i ← item "idempotency_key" d ≫= StableId k;
  commit ← item "source_commit" d ≫= StableId k; tree ← item "source_tree" d ≫= StableId k;
  digest ← item "source_digest" d ≫= Sha256Digest k; r ← item "receipt" d ≫= _receipt_from;
  AttemptAuthoringHandoff
    {| pf_request := {| pq_project := p; pq_authority := a; pq_attempt := attempt; pq_lease := l; pq_workspace := w; pq_key := i |};
       pf_commit := commit; pf_tree := tree; pf_digest := digest; pf_receipt := r |}.

Definition is_text (v : pyval) (s : string) : bool := py_eqb v (PStr s).

(** The record against its proof and what the workspace holds now; any exception is False. *)
Definition _validate_record (pv : provider) (d : pydict) (p : proof) (attempt lease workspace : string) : run bool :=
  try_except
    (let q := pf_request p in
     if negb (is_text (field "attempt_id" d) attempt && is_text (field "lease_id" d) lease && is_text (field "workspace_id" d) workspace)
     then mret false
     else if negb (String.eqb (pq_project q) (pv_project pv)) || negb (String.eqb (pq_authority q) (pv_authority pv))
          || negb (String.eqb (en_id (pq_attempt q)) attempt) || negb (String.eqb (pq_lease q) lease)
          || negb (String.eqb (pq_workspace q) workspace) || negb (is_text (field "idempotency_key" d) (pq_key q))
          || negb (is_text (field "request_digest" d) (request_digest q))
     then mret false
     else if negb (is_text (field "source_ref" d) (handoff_ref attempt)) then mret false
     else
       pinned ← invoke (GitText ["rev-parse"; "--verify"; handoff_ref attempt] false);
       '(current, tree, digest) ← _workspace_snapshot workspace;
       if negb (is_text (field "source_commit" d) (strip pinned)) || negb (is_text (field "source_commit" d) current)
          || negb (is_text (field "source_tree" d) tree) || negb (is_text (field "source_digest" d) digest)
       then mret false
       else mret (py_eqb (PDict (_receipt_value k (pf_receipt p))) (field "receipt" d) && String.eqb (pf_commit p) current
                  && String.eqb (pf_tree p) tree && String.eqb (pf_digest p) digest))
    (fun _ => mret false).

(** The fields that a retry must repeat. *)
Definition same_handoff (pv : provider) (rq : proof_request) (d : pydict) : bool :=
  is_text (field "project_id" d) (pv_project pv) && is_text (field "authority_id" d) (pv_authority pv)
  && is_text (field "attempt_id" d) (en_id (pq_attempt rq)) && is_text (field "lease_id" d) (pq_lease rq)
  && is_text (field "workspace_id" d) (pq_workspace rq) && is_text (field "idempotency_key" d) (pq_key rq)
  && is_text (field "request_digest" d) (request_digest rq).

Definition handoff_authoring (pv : provider) (request : option handoff_request) : run proof :=
  match request with
  | None => unavailable "authoring handoff requires its typed request"
  | Some typed =>
      rq ← pure (_ids pv typed);
      let attempt := en_id (pq_attempt rq) in let f := HandoffRecord (sha256 attempt) in
      _ ← invoke (EnsurePrivate "record_root");
      locked (AttemptLock (_attempt_token attempt)) (locked (RecordLock f)
        (prior ← _read_record f _HANDOFF_FORMAT _HANDOFF_VERSION handoff_fields;
         match prior with
         | Some d =>
             _ ← guard_act (negb (same_handoff pv rq d)) (NativeProviderUnavailable "authoring handoff conflicts with its durable record");
             p ← pure (_proof_from_record d (pq_attempt rq));
             valid ← _validate_record pv d p attempt (pq_lease rq) (pq_workspace rq);
             if valid : bool then mret p else unavailable "authoring handoff source changed after it was pinned"
         | None =>
             _ ← _require_quiescent_host attempt;
             '(commit, tree, digest) ← _workspace_snapshot (pq_workspace rq);
             reference ← _pin attempt commit;
             '(commit2, tree2, digest2) ← _workspace_snapshot (pq_workspace rq);
             _ ← guard_act (negb (String.eqb commit2 commit && String.eqb tree2 tree && String.eqb digest2 digest))
                   (NativeProviderUnavailable "authoring handoff workspace changed while it was being pinned");
             now ← query Now;
             p ← pure (_make_proof pv rq commit tree digest now);
             _ ← _write_record f (_record pv rq commit tree digest reference p);
             mret p
         end))
  end.

(** An attempt of the native model; its lease: the identifier and the expiry. *)
Record attempt_view := {
  at_ref : option entity_ref; at_project : string; at_actor : entity_ref; at_work_item : entity_ref;
  at_lease : option (string * moment); at_accepted : bool
}.

Definition authoring_handoff_for (pv : provider) (a : attempt_view) : run (option proof) :=
  match at_ref a with
  | Some ref =>
      if negb (String.eqb (en_kind ref) "attempt") then mret None else
      let attempt := en_id ref in let f := HandoffRecord (sha256 attempt) in
      try_except
        (r ← locked (RecordLock f) (_read_record f _HANDOFF_FORMAT _HANDOFF_VERSION handoff_fields);
         match r with
         | Some d =>
             if negb (is_text (field "project_id" d) (pv_project pv)) || negb (is_text (field "authority_id" d) (pv_authority pv))
             then mret None else
             lease ← match at_lease a with
                     | None => if at_accepted a then _ ← _require_quiescent_host attempt; mret (as_str (field "lease_id" d)) else mret None
                     | Some (l, _) => mret (if is_text (field "lease_id" d) l then Some l else None)
                     end;
             match lease, field "workspace_id" d with
             | Some lease, PStr workspace =>
                 p ← pure (_proof_from_record d ref);
                 valid ← _validate_record pv d p attempt lease workspace;
                 mret (if valid : bool then Some p else None)
             | _, _ => mret None
             end
         | None => mret None
         end)
        (fun _ => mret None)
  | None => mret None
  end.

(** ** The fence of Git effects *)

Definition authoring_kinds : list string := ["apply_change"; "commit"; "publish"; "create_workspace"].

(** A result of the Git provider, or the refusal. *)
Definition fence_authoring_effect (attempt : option string) (kind : string) : run (string + pyval) :=
  match attempt with
  | Some a =>
      if bool_decide (kind ∈ authoring_kinds) then
        locked (AttemptLock (_attempt_token a))
          (handed ← has_handoff_marker a;
           if handed : bool then mret (inl "attempt_authoring_handed_off")
           else r ← invoke (GitEffect (Some a) kind); mret (inr r))
      else r ← invoke (GitEffect (Some a) kind); mret (inr r)
  | None => r ← invoke (GitEffect None kind); mret (inr r)
  end.

End Host.

End Handoff.
