(* ===== verification/Attest.v ===== *)
(** * Attested external producers, and the observers (native_providers.py)

    The record that a producer outside the host has completed, what it replaces a registered
    process for, and what the observers of processes and children say.  Programs over the
    host of Commands. *)

From Stdlib Require Import ZArith SpecFloat.
From S2P Require Import Prelude PyValue Text Json Journal BearerStore Program Commands Handoff.
Import Journal BearerStore Commands Handoff.

#[local] Open Scope string_scope.
#[local] Open Scope Z_scope.
#[local] Open Scope list_scope.

Module Attest.

(** ** Observers *)

Inductive liveness := Live | Stopped | LivenessUnknown | ExternalQuiescent.
#[export] Instance liveness_eq_dec : EqDecision liveness.
Proof. solve_decision. Defined.

(** None: no sound observation. *)
Definition owners_for_id (attempt : string) : run (option (list pydict)) :=
  r ← query (Owners attempt);
  mret (match r with
        | Rows (PList l) => mapM (fun v => match v with PDict d => Some d | _ => None end) l
        | _ => None
        end).

(** "for row in rows". *)
Fixpoint inspect_each (rows : list pydict) : run liveness :=
  match rows with
  | [] => mret Stopped
  | row :: rows =>
      match field "pid" row, field "process_start" row with
      | PInt pid, PStr expected =>
          if (pid <=? 0) || String.eqb expected "" then mret LivenessUnknown else
          '(actual, state) ← _process_start pid;
          match actual with
          | None => if bool_decide (state = Some "gone") then inspect_each rows else mret LivenessUnknown
          | Some a =>
              if String.eqb a expected && negb (bool_decide (state = Some "Z") || bool_decide (state = Some "X") || bool_decide (state = Some "x"))
              then mret Live else inspect_each rows
          end
      | _, _ => mret LivenessUnknown
      end
  end.

Definition inspect_rows (rows : option (list pydict)) : run liveness :=
  match rows with None | Some [] => mret LivenessUnknown | Some rows => inspect_each rows end.

(** A successful query without rows. *)
Definition no_rows (rows : option (list pydict)) : bool := match rows with Some [] => true | _ => false end.

Definition tracked_inspect (attempt : string) : run liveness := rows ← owners_for_id attempt; inspect_rows rows.

(** Children of an attempt in a read model; None: its rows are unavailable. *)
Definition child_inspect (project model_project attempt : string) (rows : option (list pydict)) : child_activity :=
  if negb (String.eqb model_project project) then ChildUnknown else
  match rows with
  | None => ChildUnknown
  | Some rows =>
      let children := List.filter (fun row => py_eqb (field "parent_attempt_id" row) (PStr attempt)) rows in
      let state row := field "state" row in
      if existsb (fun row => negb (hashable (state row))) children then ChildUnknown
      else if existsb (fun row => py_eqb (state row) (PStr "active") || py_eqb (state row) (PStr "cancel_requested")
                             || py_eqb (state row) (PStr "candidate")) children then ChildActive
      else if existsb (fun row => negb (py_eqb (state row) (PStr "stopped"))) children then ChildUnknown
      else ChildNone
  end.

Section Host.
Context (float_repr : spec_float -> string) (sha256 : string -> string) (k : contracts).
#[local] Abbreviation _attempt_token := (_attempt_token sha256).
#[local] Abbreviation _read_attestation := (_read_attestation sha256).

Definition _write_attestation (f : file) (d : pydict) : run unit :=
  write_private float_repr _MAX_JOURNAL_BYTES "external producer attestation exceeds its size limit" f d.

Definition _attestation_digest (d : pydict) : result string :=
  let material := List.filter (fun kv => negb (String.eqb kv.1 "attestation_id")) d in
  _ ← raise_if (has_nan (PDict material)) (ValueError "Out of range float values are not JSON compliant");
  Ok (sha256 (json_ascii float_repr "," ":" (PDict material))).

Definition _entity_value (e : entity_ref) : pydict :=
  [("project_id", PStr (en_project e)); ("kind", PStr (en_kind e)); ("entity_id", PStr (en_id e));
   ("definition_revision_id", opt_str (en_definition e)); ("incarnation_id", opt_str (en_incarnation e))].

Definition ttl : Z := _EXTERNAL_ATTESTATION_TTL_SECONDS * 1000000.

(** ** The observer that may trust an attestation *)

Definition text_item (v : pyval) : bool := match v with PStr s => negb (blank s) | _ => false end.
Definition is_str (v : pyval) : bool := match v with PStr _ => true | _ => false end.

(** The record names exactly this attempt, as it is. *)
Definition attests (root : string) (a : attempt_view) (attempt lease : string) (expires : moment) (d : pydict) : bool :=
  is_text (field "project_id" d) (at_project a) && is_text (field "project_root" d) root && is_text (field "attempt_id" d) attempt
  && py_eqb (field "actor" d) (PDict (_entity_value (at_actor a))) && py_eqb (field "target" d) (PDict (_entity_value (at_work_item a)))
  && is_text (field "lease_id" d) lease && is_text (field "lease_expires_at" d) (isoformat k expires)
  && is_text (field "lifecycle_state" d) "completed" && is_text (field "lifecycle_source" d) "configured_codex_collaboration"
  && text_item (field "producer_id" d)
  && match field "attested_by" d with PDict b => text_item (field "principal" b) && text_item (field "profile" b) | _ => false end
  && match field "host_receipt" d with
     | PDict r => is_str (field "receipt_id" r)
                  && match field "request_digest" r with PStr s => (points s =? 64)%nat | _ => false end
     | _ => false
     end.

(** The workspace of the record still is what it says: questions to the Git provider, whose
    safety is "clean" or "dirty" when it is known. *)
Definition same_source (d : pydict) (qualified : result (string * string * pyval)) (safety source : string) : result bool :=
  '(workspace, base_ref, base_digest) ← qualified;
  Ok (is_text (field "workspace_id" d) workspace && is_text (field "base_ref" d) base_ref && py_eqb base_digest (field "base_digest" d)
      && bool_decide (safety ∈ ["clean"; "dirty"]) && is_text (field "source_safety" d) safety && is_text (field "source_digest" d) source).

(** Instants compare when both have an offset. *)
Definition fresh (observed expires now : moment) : bool :=
  mo_aware observed && mo_aware expires && (mo_time expires - mo_time observed =? ttl)
  && (mo_time observed <=? mo_time now) && (mo_time now <? mo_time expires).

(** [qualify] and [safety_of] are the Git provider's answers for the workspace of the record. *)
Definition external_inspect (root : string) (git : bool) (a : attempt_view) (attempt : string)
    (qualify : string -> result (string * string * pyval)) (safety_of : string -> result (string * string)) : run liveness :=
  rows ← owners_for_id attempt;
  process ← inspect_rows rows;
  if bool_decide (process = Live) || bool_decide (process = Stopped) then mret process else
  if negb (no_rows rows) then mret LivenessUnknown else
  clear ← _command_journal_clear attempt;
  if negb clear then mret LivenessUnknown else
  match git, at_lease a with
  | true, Some (lease, expires_at) =>
      try_except
        (record ← _read_attestation attempt;
         match record with
         | None => mret LivenessUnknown
         | Some d =>
             observed ← pure (item "observed_at" d ≫= fromisoformat k); expires ← pure (item "expires_at" d ≫= fromisoformat k);
             now ← query Now;
             if negb (fresh observed expires now) || negb (attests root a attempt lease expires_at d) then mret LivenessUnknown else
             digest ← pure (_attestation_digest d);
             if negb (is_text (field "attestation_id" d) digest) then mret LivenessUnknown else
             workspace ← pure (item "workspace_id" d ≫= StableId k);
             '(safety, source) ← pure (safety_of workspace);
             same ← pure (same_source d (qualify workspace) safety source);
             mret (if same : bool then ExternalQuiescent else LivenessUnknown)
         end)
        (fun _ => mret LivenessUnknown)
  | _, _ => mret LivenessUnknown
  end.

(** ** Recording a completion *)

Definition terminal_states : list string := ["accepted"; "rejected"; "released"].

(** The authenticated view of the attempt: its lease, expiry, row and host observation. *)
Definition attested_view (attempt : string) (i : attempt_inspection) : result (string * moment * pydict * host_observation) :=
  match ai_attempt i with
  | Some ref =>
      _ ← raise_if (negb (String.eqb (en_id ref) attempt))
            (NativeProviderUnavailable "authenticated Todo inspection did not identify this attempt");
      match ai_lease i, ai_lease_expires i with
      | Some lease, Some expires =>
          match ai_rows i with
          | None => Err (NativeProviderUnavailable "authenticated Todo attempt projection is unavailable")
          | Some rows =>
              match List.filter (fun row => py_eqb (field "attempt_id" row) (PStr attempt)) rows with
              | [row] =>
                  _ ← raise_if (negb (hashable (field "state" row))) (TypeError "unhashable type");
                  _ ← raise_if (existsb (is_text (field "state" row)) terminal_states)
                        (NativeProviderUnavailable "terminal Todo attempts cannot receive producer attestations");
                  match ai_host i with
                  | Some host =>
                      if bool_decide (ho_attempt host = ref) && String.eqb (ho_lease host) lease && bool_decide (ho_lease_expires host = expires)
                         && bool_decide (ho_source host ∈ ["clean"; "dirty"]) && bool_decide (ho_source_digest host <> None)
                         && ho_process_unknown host && (match ho_children host with ChildNone => true | _ => false end)
                         && bool_decide (ai_workspace i = Some (ho_workspace host))
                      then
                        _ ← raise_if (negb (is_text (field "lease_id" row) lease && is_text (field "lease_expires_at" row) (isoformat k expires)
                                           && String.eqb (ho_receipt_correlation host) attempt
                                           && String.eqb (ho_receipt_provenance host) (ho_base_ref host)))
                              (NativeProviderUnavailable "Todo host observation does not match its current lease");
                        Ok (lease, expires, row, host)
                      else Err (NativeProviderUnavailable "Todo host observation is not clean, exact, and child-free")
                  | None => Err (NativeProviderUnavailable "Todo host observation is not clean, exact, and child-free")
                  end
              | _ => Err (NativeProviderUnavailable "authenticated Todo attempt projection is ambiguous")
              end
          end
      | _, _ => Err (NativeProviderUnavailable "external producer attestation requires an active attempt lease")
      end
  | None => Err (NativeProviderUnavailable "authenticated Todo inspection did not identify this attempt")
  end.

Definition row_entity (project kind id : string) (row : pydict) (definition incarnation : option string) : result pyval :=
  e ← item id row;
  d ← match definition with Some n => item n row | None => Ok PNone end;
  i ← match incarnation with Some n => item n row | None => Ok PNone end;
  Ok (PDict [("project_id", PStr project); ("kind", PStr kind); ("entity_id", e); ("definition_revision_id", d); ("incarnation_id", i)]).

Definition attestation_payload (project root attempt producer lifecycle principal profile : string) (lease : string) (lease_expires : moment)
    (row : pydict) (host : host_observation) (now : moment) : result pydict :=
  actor ← row_entity project "actor" "actor_id" row None (Some "actor_incarnation_id");
  target ← row_entity project "work_item" "work_item_id" row (Some "definition_revision_id") None;
  let expires := {| mo_time := mo_time now + ttl; mo_aware := mo_aware now |} in
  Ok [("format", PStr _EXTERNAL_ATTESTATION_FORMAT); ("version", PInt _EXTERNAL_ATTESTATION_VERSION); ("project_id", PStr project);
      ("project_root", PStr root); ("attempt_id", PStr attempt); ("actor", actor); ("target", target); ("lease_id", PStr lease);
      ("lease_expires_at", PStr (isoformat k lease_expires)); ("workspace_id", PStr (ho_workspace host)); ("base_ref", PStr (ho_base_ref host));
      ("base_digest", ho_base_digest host); ("source_safety", PStr (ho_source host)); ("source_digest", opt_str (ho_source_digest host));
      ("producer_id", PStr producer); ("lifecycle_source", PStr "configured_codex_collaboration"); ("lifecycle_state", PStr lifecycle);
      ("attested_by", PDict [("principal", PStr principal); ("profile", PStr profile)]);
      ("host_receipt", PDict [("receipt_id", PStr (ho_receipt_id host)); ("request_digest", PStr (ho_receipt_request host));
                              ("observed_at", PStr (isoformat k (ho_receipt_observed host)))]);
      ("observed_at", PStr (isoformat k now)); ("expires_at", PStr (isoformat k expires))].

Definition attestation_identity : list string :=
  ["project_id"; "project_root"; "attempt_id"; "actor"; "target"; "lease_id"; "lease_expires_at"; "workspace_id"; "base_ref"; "base_digest";
   "source_safety"; "source_digest"; "producer_id"; "lifecycle_source"; "lifecycle_state"].

(** What is returned of a record. *)
Definition attested (id : pyval) (attempt : string) (expires : pyval) : pydict :=
  [("attestation_id", id); ("attempt_id", PStr attempt); ("expires_at", expires)].

(** An earlier record: kept when it says the same, replaced once it has expired. *)
Definition settle_prior (attempt : string) (prior payload : pydict) (now : moment) : result (option pydict) :=
  let same := forallb (fun n => py_eqb (field n prior) (field n payload)) attestation_identity in
  let prior_expiry := match item "expires_at" prior ≫= fromisoformat k with Ok m => m | Err _ => now end in
  _ ← raise_if (same && negb (bool_decide (mo_aware prior_expiry = mo_aware now))) (TypeError "can't compare offset-naive and offset-aware datetimes");
  if negb same || (mo_time now <? mo_time prior_expiry) then
    digest ← (if same then _attestation_digest prior else Ok "");
    if same && is_text (field "attestation_id" prior) digest then Ok (Some (attested (field "attestation_id" prior) attempt (field "expires_at" prior)))
    else Err (NativeProviderUnavailable "a conflicting external producer attestation already exists")
  else Ok None.

Definition record_external_producer_completion (root : string) (attempt producer lifecycle principal profile : string) : run pydict :=
  _ ← guard_act (negb (String.eqb lifecycle "completed")) (NativeProviderUnavailable "external producer lifecycle is not completed");
  _ ← guard_act (blank attempt || blank producer) (NativeProviderUnavailable "external producer identity is required");
  _ ← invoke (EnsurePrivate "command_root"); _ ← invoke (EnsurePrivate "attestation_root");
  try_except
    (locked (AttemptLock (_attempt_token attempt))
      (i ← invoke (InspectAttempt attempt);
       '(lease, expires, row, host) ← pure (attested_view attempt i);
       owners ← owners_for_id attempt;
       _ ← guard_act (negb (no_rows owners))
             (NativeProviderUnavailable "registered physical process owners remain or are unavailable");
       clear ← _command_journal_clear attempt;
       _ ← guard_act (negb clear) (NativeProviderUnavailable "managed command activity remains unresolved");
       now ← query Now;
       payload ← pure (attestation_payload (ai_project i) root attempt producer lifecycle principal profile lease expires row host now);
       digest ← pure (_attestation_digest payload);
       let payload := payload ++ [("attestation_id", PStr digest)] in
       prior ← _read_attestation attempt;
       kept ← match prior with None => mret None | Some d => pure (settle_prior attempt d payload now) end;
       match kept with
       | Some answer => mret answer
       | None =>
           _ ← _write_attestation (Attestation (_attempt_token attempt)) payload;
           mret (attested (PStr digest) attempt (field "expires_at" payload))
       end))
    (fun e => match e with
              | NativeProviderUnavailable m => raise (NativeProviderUnavailable m)
              | _ => unavailable "trusted external producer attestation could not be recorded"
              end).

End Host.

End Attest.
