(* ===== verification/CommandSafety.v ===== *)
(** * The host of the commands, and what one call may do

    [commands]: locks, files, processes and what the history records of them.  A supervisor
    waits for its request, has it, runs the command, or is over; only the supervisor itself
    and the kernel move it on, and a report that settles the command is only read of one
    that is over (SupervisorProps shows that the supervisor writes no other).  [safe_world]
    is the invariant, [knows] what a thread relies on while it holds its locks. *)

From Stdlib Require Import ZArith SpecFloat.
From stdpp Require Import relations.
From S2P Require Import Prelude PyValue Text Json Journal BearerStore Program Commands.
Import Journal BearerStore Commands.

#[local] Open Scope string_scope.
#[local] Open Scope Z_scope.
#[local] Open Scope list_scope.

Module CommandSafety.

(** ** The world *)

Inductive stage := Waiting | Asked | Running | Over.
#[export] Instance stage_eq_dec : EqDecision stage.
Proof. solve_decision. Defined.

Inductive stage_step : stage -> stage -> Prop :=
  | waiting_over : stage_step Waiting Over
  | asked_running : stage_step Asked Running
  | asked_over : stage_step Asked Over
  | running_over : stage_step Running Over.

Record process := { p_token : string; p_attempt : string; p_stage : stage }.
Definition at_stage (p : process) (s : stage) : process := {| p_token := p_token p; p_attempt := p_attempt p; p_stage := s |}.

(** [w_started]: the operations whose command was started, newest first.  [w_effects]: the
    authoring effects on Git, each with whether its attempt was handed off. *)
Record state := {
  w_locks : gmap lock nat; w_files : gmap file stored; w_procs : gmap nat process;
  w_started : list string; w_effects : list (string * bool)
}.

Definition with_locks (f : gmap lock nat -> gmap lock nat) (w : state) : state :=
  {| w_locks := f (w_locks w); w_files := w_files w; w_procs := w_procs w; w_started := w_started w; w_effects := w_effects w |}.
Definition with_files (f : gmap file stored -> gmap file stored) (w : state) : state :=
  {| w_locks := w_locks w; w_files := f (w_files w); w_procs := w_procs w; w_started := w_started w; w_effects := w_effects w |}.
Definition with_procs (f : gmap nat process -> gmap nat process) (w : state) : state :=
  {| w_locks := w_locks w; w_files := w_files w; w_procs := f (w_procs w); w_started := w_started w; w_effects := w_effects w |}.

Definition written (d : pydict) (size : Z) : stored :=
  {| s_symlink := false; s_opens := true; s_private := true; s_size := size; s_value := Some (PDict d) |}.

Definition released (tid : nat) (l : lock) (w : state) : state :=
  with_locks (fun m => if decide (m !! l = Some tid) then delete l m else m) w.

Definition moved (h : nat) (from to : stage) (w : state) : state :=
  match w_procs w !! h with
  | Some p => if decide (p_stage p = from) then with_procs <[h := at_stage p to]> w else w
  | None => w
  end.

Section Host.
Context (float_of : string -> spec_float) (sha256 : string -> string) (authoring_kinds : list string).

(** The report of a supervisor settles its command. *)
Definition settles (text : string) : Prop :=
  exists code, match judge float_of text code with VUnknown _ => False | _ => True end.

(** Every record is listed. *)
Definition lists (w : state) (l : listing) : Prop :=
  match l with
  | NoJournal => forall t, w_files w !! CommandRecord t = None
  | BadJournal => True
  | Entries l => JournalUnsettled ∈ l \/ forall t, is_Some (w_files w !! CommandRecord t) -> JournalRecord t ∈ l
  end.

Definition effect_on (a kind : string) (w : state) : state :=
  if bool_decide (kind ∈ authoring_kinds) then
    {| w_locks := w_locks w; w_files := w_files w; w_procs := w_procs w; w_started := w_started w;
       w_effects := (a, bool_decide (is_Some (w_files w !! HandoffRecord (sha256 a)))) :: w_effects w |}
  else w.

Definition host_does (tid : nat) (c : host_call) (w : state) : host_answer c -> state -> Prop :=
  match c return host_answer c -> state -> Prop with
  | Acquire l => fun r w' => (r = Ok tt /\ w_locks w !! l = None /\ w' = with_locks <[l := tid]> w) \/ (exists e, r = Err e /\ w' = w)
  | Release l => fun _ w' => w' = released tid l w
  | ReadFile f => fun r w' => r = w_files w !! f /\ w' = w
  | WriteFile f d size => fun r w' => w' = with_files <[f := written d size]> w \/ (exists e, r = Err e /\ w' = w)
  | ListJournal => fun r w' => lists w r /\ w' = w
  | Popen rq _ _ => fun r w' =>
      (exists e, r = Err e /\ w' = w) \/
      (exists h pid, r = Ok (h, pid) /\ w_procs w !! h = None /\
         w' = with_procs <[h := {| p_token := sha256 (cr_operation rq); p_attempt := cr_attempt rq; p_stage := Waiting |}]> w)
  | SendRequest h _ => fun _ w' => w' = w \/ w' = moved h Waiting Asked w
  | Wait h _ => fun r w' => w' = match r with Some _ => moved h Waiting Over w | None => w end
  | ReadReport h => fun r w' =>
      w' = w /\ forall text, r = Ok text -> settles text -> forall p, w_procs w !! h = Some p -> p_stage p = Over
  | GitEffect (Some a) kind => fun _ w' => w' = effect_on a kind w
  | _ => fun _ w' => w' = w
  end.

(** A supervisor goes on by itself. *)
Inductive kernel : state -> state -> Prop :=
  | kernel_step w h p s :
      w_procs w !! h = Some p -> stage_step (p_stage p) s ->
      kernel w {| w_locks := w_locks w; w_files := w_files w; w_procs := <[h := at_stage p s]> (w_procs w);
                  w_started := if decide (s = Running) then p_token p :: w_started w else w_started w; w_effects := w_effects w |}.

(** A thread that ends gives its locks back. *)
Definition gone (tid : nat) (w : state) : state := with_locks (filter (fun lt => lt.2 <> tid)) w.

Definition commands : system host :=
  {| world := state; handle := fun tid (c : call host) (w : state) (r : answer host c) (w' : state) => host_does tid c w r w'; environment := kernel; ended := gone |}.

(** ** The invariant *)

Definition alive (p : process) : Prop := p_stage p <> Over.
Definition unsent (p : process) : Prop := p_stage p = Waiting \/ p_stage p = Asked.

(** The record of a readable file. *)
Definition record_of (s : stored) : option pydict :=
  match open_private _MAX_JOURNAL_BYTES "" "" "" "" (Some s) with Ok (Some (PDict d)) => Some d | _ => None end.

(** [_command_journal_clear] passes this record for the attempt. *)
Definition record_clear (attempt : string) (s : stored) : bool :=
  match record_of s with
  | Some d => py_eqb (field "format" d) (PStr _COMMAND_FORMAT) && py_eqb (field "version" d) (PInt _COMMAND_VERSION)
              && negb (unsettled attempt d)
  | None => false
  end.

Definition settled_record (s : stored) : Prop :=
  exists d, record_of s = Some d /\ (field "state" d = PStr "completed" \/ field "state" d = PStr "not_started").

(** The file is a marker or an attestation of the attempt. *)
Definition names (attempt : string) (s : stored) : Prop :=
  exists d, s_value s = Some (PDict d) /\ field "attempt_id" d = PStr attempt.

Definition fenced (w : state) (attempt : string) : Prop :=
  exists s, (w_files w !! HandoffRecord (sha256 attempt) = Some s \/ w_files w !! Attestation (sha256 attempt) = Some s) /\ names attempt s.

Record safe_world (w : state) : Prop := {
  ok_record : forall h p, w_procs w !! h = Some p -> alive p ->
    exists s, w_files w !! CommandRecord (p_token p) = Some s /\ record_clear (p_attempt p) s = false;
  ok_fence : forall h p, w_procs w !! h = Some p -> alive p -> ~ fenced w (p_attempt p);
  ok_started : NoDup (w_started w) /\ forall t, t ∈ w_started w -> is_Some (w_files w !! CommandRecord t);
  ok_one : forall h h' p p', w_procs w !! h = Some p -> w_procs w !! h' = Some p' -> alive p -> alive p' -> p_token p = p_token p' -> h = h';
  ok_unsent : forall h p, w_procs w !! h = Some p -> unsent p -> p_token p ∉ w_started w;
  ok_effects : forall a b, (a, b) ∈ w_effects w -> b = false
}.

(** ** What a thread relies on *)

Definition holds (tid : nat) (l : lock) (w : state) : Prop := w_locks w !! l = Some tid.

(** Locks that order the threads: not those of single records. *)
Definition ordering (l : lock) : Prop := match l with RecordLock _ => False | _ => True end.

Record knows (tid : nat) (w w' : state) : Prop := {
  k_locks : forall l, ordering l -> holds tid l w -> holds tid l w';
  k_files : forall f, is_Some (w_files w !! f) -> is_Some (w_files w' !! f);
  k_fenced : forall a, fenced w a -> fenced w' a;
  k_settled : forall t s, w_files w !! CommandRecord t = Some s -> settled_record s -> w_files w' !! CommandRecord t = Some s;
  k_record : forall t, holds tid (OperationLock t) w -> w_files w' !! CommandRecord t = w_files w !! CommandRecord t;
  k_blocks : forall a t s', holds tid (AttemptLock (sha256 a)) w -> w_files w' !! CommandRecord t = Some s' -> record_clear a s' = false ->
    exists s, w_files w !! CommandRecord t = Some s /\ record_clear a s = false;
  k_marks : forall t, holds tid (AttemptLock t) w ->
    w_files w' !! HandoffRecord t = w_files w !! HandoffRecord t /\ w_files w' !! Attestation t = w_files w !! Attestation t;
  k_procs : forall t h p', holds tid (OperationLock t) w -> w_procs w' !! h = Some p' -> p_token p' = t -> alive p' ->
    exists p, w_procs w !! h = Some p /\ p_token p = t /\ p_attempt p' = p_attempt p /\ rtc stage_step (p_stage p) (p_stage p');
  k_keep : forall h p, w_procs w !! h = Some p -> exists p', w_procs w' !! h = Some p' /\ p_token p' = p_token p /\ p_attempt p' = p_attempt p;
  k_started : forall t, holds tid (OperationLock t) w -> t ∈ w_started w' -> t ∈ w_started w \/
    exists h p, w_procs w !! h = Some p /\ p_token p = t /\ p_stage p = Asked
}.

#[local] Abbreviation stable := (stable commands knows).
#[local] Abbreviation others := (others_rely commands knows).

#[local] Ltac same := try (intros ? ? q ? ? ? ?; by exists q; split_and!).

Lemma knows_refl tid w : knows tid w w.
Proof. split; cbn; try done; eauto; same. Qed.

(** *** Locks *)

Lemma knows_with_locks tid f w :
  (forall l, ordering l -> holds tid l w -> holds tid l (with_locks f w)) -> knows tid w (with_locks f w).
Proof. intros H. split; cbn; try done; eauto; same. Qed.

Lemma safe_with_locks f w : safe_world w -> safe_world (with_locks f w).
Proof. intros [H1 H2 H3 H4 H5 H6]. by split. Qed.

Lemma acquire_knows tid t l w : w_locks w !! l = None -> knows t w (with_locks <[l := tid]> w).
Proof.
  intros Hl. apply knows_with_locks. intros l' _ Hh. unfold holds in *. cbn. rewrite lookup_insert_ne; [done|]. intros ->. congruence.
Qed.

Lemma release_others tid l w : others tid w (released tid l w).
Proof.
  intros t Ht. apply knows_with_locks. intros l' _ Hh. unfold holds in *. cbn. destruct (decide (_ = Some tid)) as [Hl|]; [|done].
  rewrite lookup_delete_ne; [done|]. intros ->. congruence.
Qed.

Lemma gone_others tid w : safe_world w -> safe_world (gone tid w) /\ others tid w (gone tid w).
Proof.
  intros Hw. split; [by apply safe_with_locks|]. intros t Ht. apply knows_with_locks. intros l _ Hl. unfold holds in *. cbn.
  apply map_lookup_filter_Some. split; [done|]. cbn. congruence.
Qed.

(** *** Supervisors by themselves *)

Lemma stage_from_over s : ~ stage_step Over s.
Proof. by inversion 1. Qed.

Lemma over_stays s s' : rtc stage_step s s' -> s = Over -> s' = Over.
Proof. induction 1 as [|s1 s2 s3 H _ IH]; [done|]. intros ->. by apply stage_from_over in H. Qed.

Lemma kernel_safe w w' : safe_world w -> kernel w w' -> safe_world w' /\ forall tid, knows tid w w'.
Proof.
  intros [H1 H2 H3 H4 H5 H6] Hk. destruct Hk as [w h p s Hp Hs]. assert (alive p) as Hal by (intros E; rewrite E in Hs; by apply stage_from_over in Hs).
  assert (forall t, t ∈ (if decide (s = Running) then p_token p :: w_started w else w_started w) ->
            t ∈ w_started w \/ s = Running /\ t = p_token p) as Hst.
  { intros t. case_decide; [|by left]. rewrite elem_of_cons. naive_solver. }
  assert (s = Running -> p_stage p = Asked) as Hasked by (intros ->; by inversion Hs).
  split.
  - split; cbn.
    + intros h' p'. rewrite lookup_insert_Some. intros [[<- <-]|[_ Hp']] Ha; [by apply (H1 h p)|by apply (H1 h' p')].
    + intros h' p'. rewrite lookup_insert_Some. intros [[<- <-]|[_ Hp']] Ha; [by apply (H2 h p)|by apply (H2 h' p')].
    + destruct H3 as [Hnd Hrec]. split.
      * case_decide; [|done]. apply NoDup_cons. split; [|done]. apply (H5 h p Hp). right. by apply Hasked.
      * intros t [Ht|[_ ->]]%Hst; [by apply Hrec|]. destruct (H1 h p Hp Hal) as (st & Hs' & _). by exists st.
    + intros h1 h2 p1 p2. rewrite !lookup_insert_Some. intros [[<- <-]|[Hn1 Hp1]] [[<- <-]|[Hn2 Hp2]] Ha1 Ha2 Ht; [done| | |by eapply H4].
      * by apply (H4 h h2 p p2).
      * by apply (H4 h1 h p1 p).
    + intros h' p'. rewrite lookup_insert_Some. intros [[<- <-]|[Hne Hp']] Hu Hin.
      * destruct Hu as [E|E]; cbn in E; rewrite E in Hs; inversion Hs.
      * apply Hst in Hin as [Hin|[_ E]]; [by apply (H5 h' p')|]. destruct Hne. apply (H4 h h' p p' Hp Hp' Hal); [|done].
        destruct Hu as [E'|E']; unfold alive; by rewrite E'.
    + done.
  - intros tid. split; cbn; try done; eauto; same.
    + intros t h' p' _. rewrite lookup_insert_Some. intros [[<- <-]|[_ Hp']] Ht Ha; [|by exists p'; split_and!].
      exists p. split_and!; [done..|]. by apply rtc_once.
    + intros h' p' Hp'. destruct (decide (h = h')) as [<-|Hne].
      * exists (at_stage p s). rewrite lookup_insert_eq. assert (p' = p) as -> by congruence. done.
      * exists p'. by rewrite lookup_insert_ne.
    + intros t _ [Ht|[Hs' ->]]%Hst; [by left|]. right. exists h, p. split_and!; [done..|]. by apply Hasked.
Qed.

Lemma moved_over h w : moved h Waiting Over w = w \/ kernel w (moved h Waiting Over w).
Proof.
  unfold moved. destruct (w_procs w !! h) as [p|] eqn:Hp; [|by left]. destruct (decide _) as [Hs|]; [|by left]. right.
  apply (kernel_step w h p Over Hp). rewrite Hs. constructor.
Qed.

(** *** Requests and starts *)

Lemma holds_one tid t l w : holds tid l w -> holds t l w -> t = tid.
Proof. unfold holds. congruence. Qed.

Lemma send_safe tid h w :
  safe_world w -> (forall p, w_procs w !! h = Some p -> p_stage p = Waiting -> holds tid (OperationLock (p_token p)) w) ->
  safe_world (moved h Waiting Asked w) /\ others tid w (moved h Waiting Asked w).
Proof.
  intros Hw Hh. unfold moved. destruct (w_procs w !! h) as [p|] eqn:Hp; [|split; [done|]; intros t _; apply knows_refl].
  destruct (decide _) as [Hs|]; [|split; [done|]; intros t _; apply knows_refl]. specialize (Hh p eq_refl Hs).
  assert (alive p) as Hal by (unfold alive; by rewrite Hs). destruct Hw as [H1 H2 H3 H4 H5 H6]. split.
  - split; cbn; try done.
    + intros h' p'. rewrite lookup_insert_Some. intros [[<- <-]|[_ Hp']] Ha; [by apply (H1 h p)|by apply (H1 h' p')].
    + intros h' p'. rewrite lookup_insert_Some. intros [[<- <-]|[_ Hp']] Ha; [by apply (H2 h p)|by apply (H2 h' p')].
    + intros h1 h2 p1 p2. rewrite !lookup_insert_Some. intros [[<- <-]|[Hn1 Hp1]] [[<- <-]|[Hn2 Hp2]] Ha1 Ha2 Ht; [done| | |by eapply H4].
      * by apply (H4 h h2 p p2).
      * by apply (H4 h1 h p1 p).
    + intros h' p'. rewrite lookup_insert_Some. intros [[<- <-]|[Hne Hp']] Hu; [|by apply (H5 h' p')]. apply (H5 h p Hp). by left.
  - intros t Ht. split; cbn; try done; eauto; same.
    + intros t' h' p' Ho. rewrite lookup_insert_Some. intros [[<- <-]|[_ Hp']] Htok Ha; [|by exists p'; split_and!].
      destruct Ht. cbn in Htok. subst t'. by eapply holds_one.
    + intros h' p' Hp'. destruct (decide (h = h')) as [<-|Hne].
      * exists (at_stage p Asked). rewrite lookup_insert_eq. assert (p' = p) as -> by congruence. done.
      * exists p'. by rewrite lookup_insert_ne.
Qed.

(** What a thread must know to start a supervisor. *)
Record may_start (tid : nat) (t a : string) (w : state) : Prop := {
  ms_op : holds tid (OperationLock t) w;
  ms_record : exists s, w_files w !! CommandRecord t = Some s /\ record_clear a s = false;
  ms_fence : ~ fenced w a;
  ms_none : forall h p, w_procs w !! h = Some p -> p_token p = t -> ~ alive p;
  ms_new : t ∉ w_started w
}.

Lemma popen_safe tid h t a w :
  safe_world w -> may_start tid t a w -> w_procs w !! h = None ->
  let w' := with_procs <[h := {| p_token := t; p_attempt := a; p_stage := Waiting |}]> w in safe_world w' /\ others tid w w'.
Proof.
  intros [H1 H2 H3 H4 H5 H6] [Hop Hrec Hfence Hnone Hnew] Hh. cbn. split.
  - split; cbn; try done.
    + intros h' p'. rewrite lookup_insert_Some. intros [[<- <-]|[_ Hp']] Ha; [done|by apply (H1 h' p')].
    + intros h' p'. rewrite lookup_insert_Some. intros [[<- <-]|[_ Hp']] Ha; [done|by apply (H2 h' p')].
    + intros h1 h2 p1 p2. rewrite !lookup_insert_Some. intros [[<- <-]|[Hn1 Hp1]] [[<- <-]|[Hn2 Hp2]] Ha1 Ha2 Ht; [done| | |by eapply H4].
      * by destruct (Hnone h2 p2).
      * by destruct (Hnone h1 p1).
    + intros h' p'. rewrite lookup_insert_Some. intros [[<- <-]|[Hne Hp']] Hu; [done|by apply (H5 h' p')].
  - intros t' Ht. split; cbn; try done; eauto; same.
    + intros t2 h' p' Ho. rewrite lookup_insert_Some. intros [[<- <-]|[_ Hp']] Htok Ha; [|by exists p'; split_and!].
      destruct Ht. cbn in Htok. subst t2. by eapply holds_one.
    + intros h' p' Hp'. exists p'. rewrite lookup_insert_ne; [done|]. intros ->. congruence.
Qed.

(** *** Files *)

(** What a thread must know to write a record. *)
Record may_record (tid : nat) (t : string) (s : stored) (w : state) : Prop := {
  mr_op : holds tid (OperationLock t) w;
  mr_alive : forall h p, w_procs w !! h = Some p -> alive p -> p_token p = t -> record_clear (p_attempt p) s = false;
  mr_blocks : forall a, record_clear a s = false ->
    (exists s0, w_files w !! CommandRecord t = Some s0 /\ record_clear a s0 = false) \/ holds tid (AttemptLock (sha256 a)) w;
  mr_open : forall s0, w_files w !! CommandRecord t = Some s0 -> ~ settled_record s0
}.

Lemma fenced_write f s w : match f with HandoffRecord _ | Attestation _ => False | _ => True end ->
  forall a, fenced (with_files <[f := s]> w) a <-> fenced w a.
Proof. intros Hf a. unfold fenced. cbn. by destruct f; try done; rewrite !lookup_insert_ne by done. Qed.

Lemma write_keeps (f : file) s (m : gmap file stored) g : is_Some (m !! g) -> is_Some (<[f := s]> m !! g).
Proof. rewrite lookup_insert_is_Some. destruct (decide (f = g)); naive_solver. Qed.

Lemma record_safe tid t s w :
  safe_world w -> may_record tid t s w -> let w' := with_files <[CommandRecord t := s]> w in safe_world w' /\ others tid w w'.
Proof.
  intros [H1 H2 H3 H4 H5 H6] [Hop Halive Hblocks Hopen]. cbn. split.
  - split; cbn; try done.
    + intros h p Hp Ha. destruct (decide (p_token p = t)) as [<-|Hne].
      * exists s. rewrite lookup_insert_eq. split; [done|]. by apply (Halive h p).
      * rewrite lookup_insert_ne by congruence. by apply (H1 h p).
    + intros h p Hp Ha. rewrite fenced_write by done. by apply (H2 h p).
    + destruct H3 as [Hnd Hrec]. split; [done|]. intros t' Ht'. by apply write_keeps, Hrec.
  - intros t' Ht. split; cbn; try done; eauto; same.
    + intros f. apply write_keeps.
    + intros a. by rewrite fenced_write.
    + intros t2 s2 Hs2 Hset. rewrite lookup_insert_ne; [done|]. intros [= <-]. by apply (Hopen s2).
    + intros t2 Ho. rewrite lookup_insert_ne; [done|]. intros [= <-]. destruct Ht. by eapply holds_one.
    + intros a t2 s2 Hat. rewrite lookup_insert_Some. intros [[[= <-] <-]|[_ Hs2]] Hc; [|by exists s2].
      destruct (Hblocks a Hc) as [?|Hmine]; [done|]. destruct Ht. by eapply holds_one.
    + intros t2 _. by rewrite !lookup_insert_ne.
Qed.

(** A marker or an attestation: under the attempt's lock, once nothing of the attempt is alive. *)
Record may_mark (tid : nat) (a : string) (f : file) (s : stored) (w : state) : Prop := {
  mm_lock : holds tid (AttemptLock (sha256 a)) w;
  mm_file : f = HandoffRecord (sha256 a) \/ f = Attestation (sha256 a);
  mm_names : forall a', names a' s -> a' = a;
  mm_old : forall a' s0, w_files w !! f = Some s0 -> names a' s0 -> names a' s;
  mm_quiet : forall h p, w_procs w !! h = Some p -> p_attempt p = a -> ~ alive p
}.

Lemma mark_safe tid a f s w :
  safe_world w -> may_mark tid a f s w -> let w' := with_files <[f := s]> w in safe_world w' /\ others tid w w'.
Proof.
  intros [H1 H2 H3 H4 H5 H6] [Hlock Hfile Hnames Hold Hquiet]. cbn.
  assert (forall t, CommandRecord t <> f) as Hf by (intros t <-; by destruct Hfile).
  assert (forall a', fenced w a' -> fenced (with_files <[f := s]> w) a') as Hmono.
  { intros a' (s0 & Hs0 & Hn). unfold fenced. cbn. destruct (decide (f = HandoffRecord (sha256 a'))) as [->|Hne1].
    - rewrite lookup_insert_eq. destruct Hs0 as [Hs0|Hs0]; [exists s; split; [by left|by eapply Hold]|].
      exists s0. split; [right; by rewrite lookup_insert_ne|done].
    - rewrite (lookup_insert_ne _ f (HandoffRecord _)) by done. destruct (decide (f = Attestation (sha256 a'))) as [->|Hne2].
      + rewrite lookup_insert_eq. destruct Hs0 as [Hs0|Hs0]; [by exists s0; split; [left|]|]. exists s. split; [by right|by eapply Hold].
      + rewrite lookup_insert_ne by done. by exists s0. }
  assert (forall a', fenced (with_files <[f := s]> w) a' -> fenced w a' \/ a' = a) as Hback.
  { intros a' (s0 & Hs0 & Hn). cbn in Hs0. rewrite !lookup_insert_Some in Hs0.
    destruct Hs0 as [[[_ <-]|[_ Hs0]]|[[_ <-]|[_ Hs0]]]; [right; by apply Hnames| |right; by apply Hnames|].
    - left. exists s0. by split; [left|].
    - left. exists s0. by split; [right|]. }
  split.
  - split; cbn; try done.
    + intros h p Hp Ha. rewrite lookup_insert_ne by done. by apply (H1 h p).
    + intros h p Hp Ha [Hfe|Hfe]%Hback; [by apply (H2 h p)|by apply (Hquiet h p)].
    + destruct H3 as [Hnd Hrec]. split; [done|]. intros t' Ht'. by apply write_keeps, Hrec.
  - intros t' Ht. split; cbn; try done; eauto; same.
    + intros g. apply write_keeps.
    + intros t2 s2 Hs2 _. by rewrite lookup_insert_ne.
    + intros t2 _. by rewrite lookup_insert_ne.
    + intros a2 t2 s2 _. rewrite lookup_insert_ne by done. by eauto.
    + intros t2 Ho. destruct (decide (t2 = sha256 a)) as [->|Hne]; [destruct Ht; by eapply holds_one|].
      rewrite !lookup_insert_ne; [done|..]; intros ->; destruct Hfile; congruence.
Qed.

(** A credential. *)
Lemma credential_safe t s w : safe_world w ->
  let w' := with_files <[Credential t := s]> w in safe_world w' /\ forall tid, knows tid w w'.
Proof.
  intros [H1 H2 H3 H4 H5 H6]. cbn. split.
  - split; cbn; try done.
    + intros h p Hp Ha. rewrite lookup_insert_ne by done. by apply (H1 h p).
    + intros h p Hp Ha. rewrite fenced_write by done. by apply (H2 h p).
    + destruct H3 as [Hnd Hrec]. split; [done|]. intros t' Ht'. by apply write_keeps, Hrec.
  - intros t'. split; cbn; try done; eauto; same.
    + intros f. apply write_keeps.
    + intros a. by rewrite fenced_write.
    + intros t2 s2 Hs2 _. by rewrite lookup_insert_ne.
    + intros t2 _. by rewrite lookup_insert_ne.
    + intros a t2 s2 _. rewrite lookup_insert_ne by done. by eauto.
    + intros t2 _. by rewrite !lookup_insert_ne.
Qed.

(** *** Git *)

Lemma effect_safe a kind w :
  safe_world w -> (kind ∈ authoring_kinds -> w_files w !! HandoffRecord (sha256 a) = None) ->
  safe_world (effect_on a kind w) /\ forall tid, knows tid w (effect_on a kind w).
Proof.
  intros Hw Ha. unfold effect_on. case_bool_decide as Hk; [|split; [done|]; intros; apply knows_refl].
  destruct Hw as [H1 H2 H3 H4 H5 H6]. split.
  - split; cbn; try done. intros a' b [[= -> ->]|Hab]%elem_of_cons; [|by eapply H6]. rewrite Ha by done.
    apply bool_decide_eq_false. by intros [? ?].
  - intros tid. split; cbn; try done; eauto; same.
Qed.

End Host.

End CommandSafety.

(** * Rules for programs of the command host

    [harmless]: programs that only ask, read, wait and take locks keep whatever their thread
    knows.  [does]: the triple of a program whose exceptions promise nothing.  Rules for
    locks, reads, writes, starts and requests, from the obligations of CommandSafety. *)

From Stdlib Require Import ZArith SpecFloat.
From stdpp Require Import relations.
From S2P Require Import Prelude PyValue Text Json Journal BearerStore Program Commands.
Import Journal BearerStore Commands CommandSafety.

#[local] Open Scope string_scope.
#[local] Open Scope Z_scope.
#[local] Open Scope list_scope.

(** ** Harmless programs *)

Definition harmless_call (c : host_call) : Prop :=
  match c with
  | Release (RecordLock _) | WriteFile (Credential _) _ _ => True
  | Release _ | WriteFile _ _ _ | Popen _ _ _ | SendRequest _ _ | GitEffect _ _ => False
  | _ => True
  end.

Fixpoint harmless {A} (p : prog host A) : Prop :=
  match p with Ret _ => True | Call c k => harmless_call c /\ forall r, harmless (k r) end.

Lemma harmless_prog_bind {A B} (p : prog host A) (f : A -> prog host B) :
  harmless p -> (forall a, harmless (f a)) -> harmless (prog_bind p f).
Proof. induction p as [a|c k IH]; cbn; [by auto|]. intros [Hc Hk] Hf. split; [done|]. intros r. by apply IH. Qed.

Lemma harmless_bind {A B} (p : run A) (f : A -> run B) : harmless p -> (forall a, harmless (f a)) -> harmless (p ≫= f).
Proof. intros Hp Hf. apply harmless_prog_bind; [done|]. by intros [a|e]; [apply Hf|]. Qed.

Lemma harmless_try {A} (p : run A) h : harmless p -> (forall e, harmless (h e)) -> harmless (try_except p h).
Proof. intros Hp Hh. apply harmless_prog_bind; [done|]. by intros [a|e]; [|apply Hh]. Qed.

Lemma harmless_finally {A B} (p : run A) (q : prog host B) : harmless p -> harmless q -> harmless (try_finally p q).
Proof. intros Hp Hq. apply harmless_prog_bind; [done|]. intros r. by apply harmless_prog_bind. Qed.

Lemma harmless_invoke {A} c (H : host_answer c = result A) : harmless_call c -> harmless (call_result c H).
Proof. by intros Hc. Qed.

Lemma harmless_query c : harmless_call c -> harmless (ask (I := host) c).
Proof. by intros Hc. Qed.

Lemma harmless_locked {A} f (body : run A) : harmless body -> harmless (locked (RecordLock f) body).
Proof. intros Hb. apply harmless_bind; [by apply harmless_invoke|]. intros _. apply harmless_finally; [done|]. by cbn. Qed.

(** [harmless_tac] walks a program. *)
Create HintDb harmless.
Ltac harmless_tac :=
  repeat first
    [ exact I
    | progress intros
    | match goal with
      | |- harmless (Ret _) => exact I
      | |- harmless (mret _) => exact I
      | |- harmless (pure _) => exact I
      | |- harmless (raise _) => exact I
      | |- harmless (guard_act _ _) => exact I
      | |- harmless (call_result _ _) => apply harmless_invoke; exact I
      | |- harmless (ask _) => apply harmless_query; exact I
      | |- harmless (locked (RecordLock _) _) => apply harmless_locked
      | |- harmless (try_except _ _) => apply harmless_try
      | |- harmless (try_finally _ _) => apply harmless_finally
      | |- harmless (_ ≫= _) => apply harmless_bind
      | |- harmless (let '(_, _) := ?x in _) => destruct x
      | |- harmless (match ?x with _ => _ end) => destruct x
      end
    | solve [eauto with harmless] ].

Section Rules.
Context (float_repr : spec_float -> string) (float_of : string -> spec_float) (sha256 : string -> string) (kinds : list string) (tid : nat).
#[local] Abbreviation system := (commands float_of sha256 kinds).
#[local] Abbreviation ok := (safe_world sha256).
#[local] Abbreviation knows := (knows sha256).
#[local] Abbreviation stable := (stable system knows tid).
#[local] Abbreviation triple := (triple system ok knows tid).

Lemma harmless_call_ok c w r w' :
  harmless_call c -> ok w -> host_does float_of sha256 kinds tid c w r w' -> ok w' /\ forall t, knows t w w'.
Proof.
  intros Hc Hw Hd.
  assert (w' = w -> ok w' /\ forall t, knows t w w') as Hid by (intros ->; split; [done|]; intros; apply knows_refl).
  destruct c as [l|l| |f d size| | | | | | | | | | | | | | | | | | | |h timeout| | | | | | | | | | | | | | ]; cbn in Hc; try done; cbn in Hd;
    try (by apply Hid); try (by apply Hid; destruct Hd).
  - destruct Hd as [(_ & Hl & ->)|(e & _ & ->)]; [|by apply Hid]. split; [by apply safe_with_locks|]. intros t. by apply acquire_knows.
  - destruct l; try done. subst w'. split; [by apply safe_with_locks|]. intros t. apply knows_with_locks. intros l' Hord Hl.
    unfold holds in *. cbn. destruct (decide _); [|done]. rewrite lookup_delete_ne; [done|]. by intros <-.
  - destruct f; try done. destruct Hd as [->|(e & _ & ->)]; [|by apply Hid]. by apply credential_safe.
  - destruct r; [|by apply Hid]. subst w'. destruct (moved_over h w) as [E|Hk]; [by apply Hid|]. by apply kernel_safe.
Qed.

Lemma harmless_triple {A} (p : prog host A) P : harmless p -> stable P -> triple P p (fun _ w => P w).
Proof.
  intros Hp HP. induction p as [a|c k IH]; [by apply triple_ret|]. destruct Hp as [Hc Hk]. intros w Hw HPw r w' Hd.
  destruct (harmless_call_ok c w r w' Hc Hw Hd) as [Hw' Hkn]. split; [done|]. split; [by intros t _|]. intros w2 Hr.
  apply IH; [done| |].
  - by eapply interfered_ok.
  - eapply interfered_stable; [done..|]. by eapply HP.
Qed.

(** ** Triples that promise nothing of an exception *)

Definition does {A} (P : state -> Prop) (p : run A) (Q : A -> state -> Prop) : Prop :=
  triple P p (fun r w => match r with Ok a => Q a w | Err _ => True end).

Lemma does_ret {A} P (a : A) Q : (forall w, P w -> Q a w) -> does P (mret a) Q.
Proof. intros H. by apply triple_ret. Qed.

Lemma does_raise {A} P e (Q : A -> state -> Prop) : does P (raise e) Q.
Proof. by apply triple_ret. Qed.

Lemma does_bind {A B} P (p : run A) (f : A -> run B) R Q : does P p R -> (forall a, does (R a) (f a) Q) -> does P (p ≫= f) Q.
Proof. intros Hp Hf. by apply (act_bind_triple system ok knows tid P p f R (fun _ _ => True)). Qed.

Lemma does_pure {A} P (r : result A) Q : (forall a w, r = Ok a -> P w -> Q a w) -> does P (pure r) Q.
Proof. intros H. apply pure_triple. intros w Hw. destruct r; [by apply H|done]. Qed.

Lemma does_pure_eq {A} P (r : result A) : does P (pure r) (fun a w => r = Ok a /\ P w).
Proof. by apply does_pure. Qed.

(** A pure fact of the precondition. *)
Lemma does_fact {A} (F : Prop) P (p : run A) Q : (F -> does P p Q) -> does (fun w => F /\ P w) p Q.
Proof. intros H w Hw [HF HP]. by apply H. Qed.

Lemma does_guard P b e Q : (forall w, b = false -> P w -> Q tt w) -> does P (guard_act b e) Q.
Proof. intros H. apply does_pure. intros [] w Hb Hw. apply H; [|done]. by destruct b. Qed.

Lemma does_harmless {A} P (p : run A) : harmless p -> stable P -> does P p (fun _ w => P w).
Proof. intros Hp HP. eapply triple_conseq; [by apply harmless_triple|done|]. by intros [a|e] w. Qed.

Lemma does_conseq {A} P P' (p : run A) Q Q' :
  does P' p Q' -> (forall w, P w -> P' w) -> (forall a w, Q' a w -> Q a w) -> does P p Q.
Proof. intros H HP HQ. eapply triple_conseq; [done|done|]. intros [a|e] w; [apply HQ|done]. Qed.

Lemma does_pre {A} P P' (p : run A) Q : does P' p Q -> (forall w, P w -> P' w) -> does P p Q.
Proof. intros H HP. by eapply does_conseq. Qed.

(** The invariant holds wherever a program is. *)
Lemma does_ok {A} P (p : run A) Q : does (fun w => P w /\ ok w) p Q -> does P p Q.
Proof. intros H w Hw HP. by apply H. Qed.

(** An exception handled: what is known when it is raised. *)
Lemma does_try {A} P (p : run A) h E Q :
  triple P p (fun r w => match r with Ok a => Q a w | Err e => E e w end) -> (forall e, does (E e) (h e) Q) -> does P (try_except p h) Q.
Proof. intros Hp Hh. eapply try_except_triple; [exact Hp|done|exact Hh]. Qed.

Lemma does_try_any {A} P (p : run A) h Q : does P p Q -> (forall e, does (fun _ => True) (h e) Q) -> does P (try_except p h) Q.
Proof. intros Hp Hh. by apply (does_try _ _ _ (fun _ _ => True)). Qed.

(** *** Stability *)

Lemma stable_true : stable (fun _ => True).
Proof. by intros w w'. Qed.

Lemma stable_and P Q : stable P -> stable Q -> stable (fun w => P w /\ Q w).
Proof. intros HP HQ w w' [H1 H2] Hk. split; [by eapply HP|by eapply HQ]. Qed.

Lemma stable_imp (b : Prop) P : stable P -> stable (fun w => b -> P w).
Proof. intros HP w w' H Hk Hb. eapply HP; [by apply H|done]. Qed.

Lemma stable_holds l : ordering l -> stable (holds tid l).
Proof. intros Hl w w' H Hk. by eapply k_locks. Qed.

(** *** Locks *)

Lemma triple_request_any c P (Q : host_answer c -> state -> Prop) :
  (forall w r w', ok w -> P w -> host_does float_of sha256 kinds tid c w r w' ->
     ok w' /\ others_rely system knows tid w w' /\ Q r w') ->
  (forall r, stable (Q r)) -> triple P (request (I := host) c) Q.
Proof. intros H HQ. by apply triple_request. Qed.

Lemma does_locked {A} l P (body : run A) (Qin Q : A -> state -> Prop) :
  stable P -> ordering l -> does (fun w => P w /\ holds tid l w) body Qin ->
  (forall a w, Qin a w -> Q a (released tid l w)) -> (forall a, stable (Q a)) -> does P (locked l body) Q.
Proof.
  intros HP Hl Hb Hrel HQ. eapply (does_bind _ _ _ (fun _ w => P w /\ holds tid l w)).
  - unfold does. apply (triple_request_any (Acquire l) P (fun r w => match r with Ok _ => P w /\ holds tid l w | Err _ => True end)).
    + intros w r w' Hw HPw Hd. pose proof (harmless_call_ok (Acquire l) w r w' I Hw Hd) as [Hw' Hk]. split; [done|]. split; [by intros t _|].
      destruct Hd as [(-> & _ & ->)|(e & -> & ->)]; [|done]. split; [by eapply HP|]. unfold holds. cbn. by rewrite lookup_insert_eq.
    + intros [u|e]; [|by intros w w']. by apply stable_and; [|apply stable_holds].
  - intros _. unfold does, try_finally. eapply triple_bind; [exact Hb|]. intros r.
    apply (triple_bind system ok knows tid _ (request (I := host) (Release l)) _
             (fun _ w => match r with Ok a => Q a w | Err _ => True end)); [|by intros ?; apply triple_ret].
    apply (triple_request_any (Release l)).
    + intros w u w' Hw Hr Hd. cbn in Hd. subst w'. split; [by apply safe_with_locks|]. split; [apply release_others|]. destruct r; [by apply Hrel|done].
    + intros _. destruct r; [apply HQ|by intros w w'].
Qed.

(** The lock of a single record keeps whatever is known. *)
Lemma does_locked_record {A} f P (body : run A) (Q : A -> state -> Prop) :
  stable P -> does P body Q -> (forall a, stable (Q a)) -> does P (locked (RecordLock f) body) Q.
Proof.
  intros HP Hb HQ. eapply does_bind; [by apply does_harmless; [apply harmless_invoke|]|]. intros u. cbv beta. clear u. unfold does, try_finally.
  eapply triple_bind; [exact Hb|]. intros r.
  apply (triple_bind system ok knows tid _ (request (I := host) (Release (RecordLock f))) _
           (fun _ w => match r with Ok a => Q a w | Err _ => True end)); [|by intros ?; apply triple_ret].
  apply harmless_triple; [by cbn|]. destruct r; [apply HQ|by intros w w'].
Qed.

(** *** Reading *)

(** Reading a file that the thread's locks protect. *)
Lemma does_read_file f P :
  stable P -> (forall w w', P w -> knows tid w w' -> w_files w' !! f = w_files w !! f) ->
  does P (ask (I := host) (ReadFile f)) (fun r w => P w /\ w_files w !! f = r).
Proof.
  intros HP Hf. unfold does, ask.
  apply (triple_bind system ok knows tid P (request (I := host) (ReadFile f)) _ (fun r w => P w /\ w_files w !! f = r)).
  - apply (triple_request_any (ReadFile f)).
    + intros w r w' Hw HPw [-> ->]. split; [done|]. split; [|done]. intros t _. apply knows_refl.
    + intros r w w' [HPw Hr] Hk. split; [by eapply HP|]. rewrite <-Hr. by apply Hf.
  - intros r. by apply triple_ret.
Qed.

(** *** Writing *)

(** A write that is allowed, with what is known before and after; a failed one may have
    replaced the file. *)
Lemma does_write f d limit msg P (Q : state -> Prop) (E : state -> Prop) :
  (forall size w, size <= limit -> ok w -> P w -> let w' := with_files <[f := written d size]> w in
     ok w' /\ others_rely system knows tid w w' /\ Q w' /\ E w') ->
  (forall w, P w -> E w) -> stable Q -> stable E -> stable P ->
  triple P (write_private float_repr limit msg f d) (fun r w => match r with Ok _ => Q w | Err _ => E w end).
Proof.
  intros H HE HQ HsE HsP. unfold write_private.
  apply (act_bind_triple system ok knows tid P _ _ (fun _ w => P w) (fun _ w => E w)); [|intros _|done].
  { apply pure_triple. intros w Hw. destruct (has_nan _); cbn; [by apply HE|done]. }
  apply (act_bind_triple system ok knows tid P _ _ (fun _ w => P w /\ Z.of_nat (String.length (json_ascii float_repr "," ":" (PDict d))) <= limit)
            (fun _ w => E w)); [|intros _|done].
  { apply pure_triple. intros w Hw. destruct (Z.ltb_spec limit (Z.of_nat (String.length (json_ascii float_repr "," ":" (PDict d))))); cbn;
      [by apply HE|done]. }
  apply (triple_request_any (WriteFile f d _)).
  - intros w r w' Hw [HP Hsize] Hd. destruct Hd as [->|(e & -> & ->)].
    + destruct (H _ w Hsize Hw HP) as (H1 & H2 & H3 & H4). split; [done|]. split; [done|]. by destruct r.
    + split; [done|]. split; [|by apply HE]. intros t _. apply knows_refl.
  - intros [u|e]; done.
Qed.

End Rules.
