(* ===== verification/CommandProps.v ===== *)
(** * Commands run once, and never after a hand-off

    Whatever calls run at once, wherever any of them stops: the command of an operation is
    started at most once and every answer about it is the same; once an attempt is handed
    off or attested, none of its commands is left or started again, and no authoring effect
    on Git follows a hand-off. *)

From Stdlib Require Import ZArith SpecFloat.
From stdpp Require Import relations.
From S2P Require Import Prelude PyValue Text Json Journal BearerStore Program Commands CommandSafety Handoff Attest.
Import Journal BearerStore Commands CommandSafety Handoff Attest.

#[local] Open Scope string_scope.
#[local] Open Scope Z_scope.
#[local] Open Scope list_scope.

(** ** Harmless programs of the components *)

Lemma harmless_entries attempt l : harmless (entries_clear attempt l).
Proof.
  induction l as [|[t| |] l IH]; [done| | |done]; [|done]. cbn [entries_clear]. unfold _read.
  harmless_tac.
Qed.
#[export] Hint Resolve harmless_entries : harmless.

Lemma harmless_inspect_each rows : harmless (inspect_each rows).
Proof.
  induction rows as [|row rows IH]; [done|]. cbn [inspect_each]. unfold _process_start. harmless_tac.
Qed.
#[export] Hint Resolve harmless_inspect_each : harmless.

Section Harmless.
Context (float_repr : spec_float -> string) (float_of : string -> spec_float) (sha256 : string -> string) (k : contracts).
Context (py_repr : pyval -> string) (request_digest : proof_request -> string) (AttemptAuthoringHandoff : proof -> result proof).

Lemma harmless_read f : harmless (_read f).
Proof. unfold _read. harmless_tac. Qed.

Lemma harmless_read_record f format version fields : harmless (_read_record f format version fields).
Proof. unfold _read_record. harmless_tac. Qed.

Lemma harmless_read_attestation a : harmless (_read_attestation sha256 a).
Proof. unfold _read_attestation. harmless_tac. Qed.

Lemma harmless_marker a : harmless (has_handoff_marker sha256 a).
Proof. unfold has_handoff_marker, _read_record. harmless_tac. Qed.

Lemma harmless_process_start pid : harmless (_process_start pid).
Proof. unfold _process_start. harmless_tac. Qed.

Lemma harmless_stop h : harmless (_stop_supervisor h).
Proof. unfold _stop_supervisor. harmless_tac. Qed.

Lemma harmless_workspace rq : harmless (_workspace rq).
Proof. unfold _workspace. harmless_tac. Qed.

Lemma harmless_environment : harmless command_environment.
Proof. unfold command_environment. harmless_tac. Qed.

Lemma harmless_replay rq d : harmless (replay k rq d).
Proof. unfold replay, _unknown. harmless_tac. Qed.

Lemma harmless_clear a : harmless (_command_journal_clear a).
Proof. unfold _command_journal_clear. harmless_tac. Qed.

Lemma harmless_snapshot w : harmless (_workspace_snapshot w).
Proof. unfold _workspace_snapshot. harmless_tac. Qed.

Lemma harmless_pin a c : harmless (_pin sha256 a c).
Proof. unfold _pin. harmless_tac. Qed.

#[local] Hint Resolve harmless_read harmless_read_record harmless_read_attestation harmless_marker harmless_process_start harmless_stop
  harmless_workspace harmless_environment harmless_replay harmless_clear harmless_snapshot harmless_pin : harmless.

Lemma harmless_quiescent a : harmless (_require_quiescent_host a).
Proof. unfold _require_quiescent_host, unavailable. harmless_tac. Qed.
#[local] Hint Resolve harmless_quiescent : harmless.

Lemma harmless_validate pv d p a l w : harmless (_validate_record sha256 k request_digest pv d p a l w).
Proof. unfold _validate_record. harmless_tac. Qed.
#[local] Hint Resolve harmless_validate : harmless.

Lemma harmless_handoff_for pv a : harmless (authoring_handoff_for sha256 k py_repr request_digest AttemptAuthoringHandoff pv a).
Proof. unfold authoring_handoff_for. harmless_tac. Qed.

Lemma harmless_credential project authority rq : harmless (prepare_attempt_credential float_repr sha256 project authority rq).
Proof. unfold prepare_attempt_credential, _write_record, write_private, unavailable. harmless_tac. Qed.

Lemma harmless_owners a : harmless (owners_for_id a).
Proof. unfold owners_for_id. harmless_tac. Qed.
#[local] Hint Resolve harmless_owners : harmless.

Lemma harmless_external root git a attempt q s : harmless (external_inspect float_repr sha256 k root git a attempt q s).
Proof. unfold external_inspect, inspect_rows. harmless_tac. Qed.

Lemma harmless_inspect_record rq d : harmless (inspect_record k rq d).
Proof. unfold inspect_record. harmless_tac. Qed.
End Harmless.

#[export] Hint Resolve harmless_read harmless_read_record harmless_read_attestation harmless_marker harmless_process_start harmless_stop
  harmless_workspace harmless_environment harmless_replay harmless_clear harmless_snapshot harmless_pin harmless_quiescent harmless_validate
  harmless_owners harmless_inspect_record : harmless.

(** ** Records *)

Lemma record_of_written d size : size <= _MAX_JOURNAL_BYTES -> record_of (written d size) = Some d.
Proof.
  intros H. unfold record_of, open_private, written. cbn [s_symlink s_opens s_private s_size s_value negb orb].
  by rewrite (proj2 (Z.ltb_ge _ _)).
Qed.

Lemma reads_record s d : open_private _MAX_JOURNAL_BYTES "" "" "" "" (Some s) = Ok (Some (PDict d)) -> record_of s = Some d.
Proof. intros H. unfold record_of. by rewrite H. Qed.

(** The messages of a reader do not change what it reads. *)
Lemma open_private_same limit a b c d (f : option stored) v :
  open_private limit a b c d f = Ok v -> open_private limit "" "" "" "" f = Ok v.
Proof.
  destruct f as [f|]; cbn; [|done]. destruct (s_symlink f), (s_opens f), (s_private f), (limit <? s_size f), (s_value f); cbn; done.
Qed.

Lemma open_private_none limit a b c d f : open_private limit a b c d f = Ok None -> f = None.
Proof.
  destruct f as [f|]; cbn; [|done]. destruct (s_symlink f), (s_opens f), (s_private f), (limit <? s_size f), (s_value f); cbn; done.
Qed.

Lemma open_private_value limit a b c d f v : open_private limit a b c d f = Ok (Some v) -> exists s, f = Some s /\ s_value s = Some v.
Proof.
  destruct f as [f|]; cbn; [|done].
  destruct (s_symlink f), (s_opens f), (s_private f), (limit <? s_size f), (s_value f) eqn:E; cbn; intros; simplify_eq; eauto.
Qed.

Lemma py_eqb_str_refl s : py_eqb (PStr s) (PStr s) = true.
Proof. apply String.eqb_refl. Qed.

Section Records.
Context (k : contracts).

(** The record of a command that this call runs. *)
Definition own_record (rq : command_request) (s : stored) : Prop :=
  exists size, size <= _MAX_JOURNAL_BYTES /\
    (s = written (starting_record k rq) size \/ exists pid start, s = written (running_record (starting_record k rq) pid start) size).

Definition base_record (rq : command_request) (d : pydict) : Prop :=
  d = starting_record k rq \/ exists pid start, d = running_record (starting_record k rq) pid start.

Lemma own_blocks rq s : own_record rq s ->
  record_clear (cr_attempt rq) s = false /\ (forall a, record_clear a s = false -> a = cr_attempt rq) /\ ~ settled_record s.
Proof.
  intros (size & Hsize & Hs). assert (exists d, record_of s = Some d /\ base_record rq d) as (d & Hd & Hb).
  { destruct Hs as [->|(pid & start & ->)]; rewrite record_of_written by done; eexists; split; try done; [by left|by right; eauto]. }
  clear Hs Hsize.
  assert (field "format" d = PStr _COMMAND_FORMAT /\ field "version" d = PInt _COMMAND_VERSION /\ field "attempt_id" d = PStr (cr_attempt rq)
          /\ (field "state" d = PStr "starting" \/ field "state" d = PStr "running")) as (Hf & Hv & Ha & Hst).
  { destruct Hb as [->|(pid & start & ->)]; cbn; split_and!; try done; [by left|by right]. }
  unfold record_clear, unsettled. rewrite Hd, Hf, Hv, Ha. rewrite py_eqb_str_refl.
  assert (py_eqb (field "state" d) (PStr "completed") || py_eqb (field "state" d) (PStr "not_started") = false) as Hn
    by (by destruct Hst as [-> | ->]). rewrite Hn. split; [|split].
  - cbn. by rewrite String.eqb_refl.
  - intros a. cbn. destruct (String.eqb_spec (cr_attempt rq) a); done.
  - intros (d' & Hd' & Hs'). assert (d' = d) as -> by congruence. destruct Hst as [E|E], Hs' as [E'|E']; rewrite E in E'; discriminate.
Qed.

Definition settled_dict (d : pydict) : Prop :=
  field "format" d = PStr _COMMAND_FORMAT /\ field "version" d = PInt _COMMAND_VERSION
  /\ (field "state" d = PStr "completed" \/ field "state" d = PStr "not_started").

Lemma settled_clear d size a : size <= _MAX_JOURNAL_BYTES -> settled_dict d -> record_clear a (written d size) = true.
Proof.
  intros Hs (Hf & Hv & Hst). unfold record_clear, unsettled. rewrite record_of_written by done. rewrite Hf, Hv.
  assert (py_eqb (field "state" d) (PStr "completed") || py_eqb (field "state" d) (PStr "not_started") = true) as ->
    by (by destruct Hst as [-> | ->]). by rewrite andb_false_r.
Qed.

Lemma not_started_settled rq d reason : base_record rq d -> settled_dict (not_started_record d reason).
Proof. by intros [->|(pid & start & ->)]; repeat split; right. Qed.

Lemma completed_settled rq d o r : base_record rq d -> settled_dict (completed_record k d o r).
Proof. by intros [->|(pid & start & ->)]; repeat split; left. Qed.

Lemma base_written rq d size : size <= _MAX_JOURNAL_BYTES -> base_record rq d -> own_record rq (written d size).
Proof. intros Hs [->|(pid & start & ->)]; exists size; (split; [done|]); [by left|right; eauto]. Qed.
End Records.

(** ** Records read back *)

(** What the constructors of todo_orchestrator.contracts promise: they only check, and what
    they accepted they accept again; a time reads back from its text. *)
Class ContractLaws (k : contracts) : Prop := {
  law_id : forall v s, StableId k v = Ok s -> StableId k (PStr s) = Ok s;
  law_digest : forall v s, Sha256Digest k v = Ok s -> Sha256Digest k (PStr s) = Ok s;
  law_observation : forall o o', CommandObservation k o = Ok o' -> o' = o;
  law_receipt : forall r r', ProviderReceipt k r = Ok r' -> r' = r;
  law_time : forall m, fromisoformat k (PStr (isoformat k m)) = Ok m
}.

(** The identifiers of a typed request and of an executor are valid. *)
Definition good_request (k : contracts) (rq : command_request) : Prop :=
  StableId k (PStr (cr_operation rq)) = Ok (cr_operation rq)
  /\ Sha256Digest k (PStr (provider_request_digest k rq)) = Ok (provider_request_digest k rq).

Definition good_executor (k : contracts) (ex : executor) : Prop :=
  let i := ex_identity ex in
  StableId k (PStr (id_provider i)) = Ok (id_provider i) /\ ProviderIdentity k (id_provider i) (id_version i) (id_contract i) = Ok i.

Section Decode.
Context (sha256 : string -> string) (k : contracts) `{!ContractLaws k}.

(** A record says this of its command. *)
Definition decodes (d : pydict) (o : observation) (r : receipt) : Prop :=
  _record_observation k d = Ok o /\ item "receipt" d ≫= Commands._receipt_from k = Ok r.

Lemma completed_items rq d o r : base_record k rq d -> let d' := completed_record k d o r in
  item "operation_id" d' = Ok (PStr (cr_operation rq)) /\ item "exit_code" d' = Ok (ob_exit_code o) /\ item "timed_out" d' = Ok (ob_timed_out o)
  /\ item "started_at" d' = Ok (PStr (isoformat k (ob_started o))) /\ item "completed_at" d' = Ok (PStr (isoformat k (ob_completed o)))
  /\ item "stdout_digest" d' = Ok (opt_str (ob_stdout o)) /\ item "stderr_digest" d' = Ok (opt_str (ob_stderr o))
  /\ item "receipt" d' = Ok (PDict (_receipt_value k r)).
Proof. by intros [->|(pid & start & ->)]. Qed.

Lemma receipt_items r : let d := _receipt_value k r in
  item "receipt_id" d = Ok (PStr (rc_id r)) /\ item "provider_id" d = Ok (PStr (id_provider (rc_provider r)))
  /\ item "provider_version" d = Ok (id_version (rc_provider r)) /\ item "provider_contract_version" d = Ok (id_contract (rc_provider r))
  /\ item "correlation_id" d = Ok (PStr (rc_correlation r)) /\ item "request_digest" d = Ok (PStr (rc_request r))
  /\ item "provenance_ref" d = Ok (PStr (rc_provenance r)) /\ item "observed_at" d = Ok (PStr (isoformat k (rc_observed r))).
Proof. done. Qed.

Lemma completed_decodes ex rq d out err code timed_out started completed o r stdout stderr :
  good_request k rq -> good_executor k ex -> base_record k rq d ->
  Sha256Digest k (PStr out) = Ok stdout -> Sha256Digest k (PStr err) = Ok stderr ->
  CommandObservation k {| ob_operation := cr_operation rq; ob_exit_code := code; ob_timed_out := PBool timed_out; ob_started := started;
                          ob_completed := completed; ob_stdout := Some stdout; ob_stderr := Some stderr |} = Ok o ->
  _receipt sha256 k ex rq completed = Ok r -> decodes (completed_record k d o r) o r.
Proof.
  intros [Hop Hdig] [Hpid Hpi] Hb Hout Herr Ho Hr. pose proof (law_observation _ _ Ho) as ->.
  apply law_digest in Hout. apply law_digest in Herr. unfold _receipt in Hr. apply result_bind_ok in Hr as (rid & Hrid & Hr).
  apply law_id in Hrid. pose proof (law_receipt _ _ Hr) as ->.
  match goal with |- decodes (completed_record _ _ ?o ?r) _ _ =>
    destruct (completed_items rq d o r Hb) as (E1 & E2 & E3 & E4 & E5 & E6 & E7 & E8); destruct (receipt_items r) as (F1 & F2 & F3 & F4 & F5 & F6 & F7 & F8) end.
  split.
  - unfold _record_observation. rewrite E1, E2, E3, E4, E5, E6, E7. cbn. by rewrite Hop, !law_time, Hout; cbn; rewrite Herr.
  - rewrite E8. cbn [mbind result_bind Commands._receipt_from].
    rewrite F1, F2, F3, F4, F5, F6, F7, F8. cbn. rewrite Hrid. cbn. rewrite Hpid. cbn. rewrite Hpi. cbn. rewrite Hop. cbn. rewrite Hdig. cbn.
    by rewrite law_time.
Qed.
End Decode.

(** ** What a call knows *)

Create HintDb rely.

Section Threads.
Context (float_repr : spec_float -> string) (float_of : string -> spec_float) (sha256 : string -> string) (k : contracts) (tid : nat).
#[local] Abbreviation system := (commands float_of sha256 authoring_kinds).
#[local] Abbreviation ok := (safe_world sha256).
#[local] Abbreviation knows := (knows sha256).
#[local] Abbreviation stable := (stable system knows tid).
#[local] Abbreviation triple := (triple system ok knows tid).
#[local] Abbreviation does := (does float_of sha256 authoring_kinds tid).

(** No process of the operation is left. *)
Definition alone (t : string) (w : state) : Prop :=
  holds tid (OperationLock t) w /\ forall h p, w_procs w !! h = Some p -> p_token p = t -> ~ alive p.

(** Only this one may be. *)
Definition only (t a : string) (h : nat) (w : state) : Prop :=
  holds tid (OperationLock t) w /\ forall h' p, w_procs w !! h' = Some p -> p_token p = t -> alive p -> h' = h /\ p_attempt p = a.

(** It was not sent its request. *)
Definition unasked (t : string) (h : nat) (w : state) : Prop :=
  holds tid (OperationLock t) w /\ exists p, w_procs w !! h = Some p /\ p_token p = t /\ (p_stage p = Waiting \/ p_stage p = Over).

Definition has_own (rq : command_request) (w : state) : Prop :=
  let t := sha256 (cr_operation rq) in
  holds tid (OperationLock t) w /\ exists s, w_files w !! CommandRecord t = Some s /\ own_record k rq s.

Definition no_record (t : string) (w : state) : Prop := holds tid (OperationLock t) w /\ w_files w !! CommandRecord t = None.

Definition unfenced (a : string) (w : state) : Prop :=
  holds tid (AttemptLock (sha256 a)) w /\ w_files w !! HandoffRecord (sha256 a) = None /\ w_files w !! Attestation (sha256 a) = None.

Definition not_started_yet (t : string) (w : state) : Prop := alone t w /\ t ∉ w_started w.

Lemma holds_stable t : stable (holds tid (OperationLock t)).
Proof. by apply stable_holds. Qed.

Lemma waiting_steps s : rtc stage_step Waiting s -> s = Waiting \/ s = Over.
Proof.
  intros H. apply rtc_inv in H as [<-|(y & H & Hy)]; [by left|]. inversion H; subst. right. by eapply over_stays.
Qed.

Lemma dead_before p p' : rtc stage_step (p_stage p) (p_stage p') -> alive p' -> alive p.
Proof. intros H Ha Ho. apply Ha. by eapply over_stays. Qed.

Lemma alone_stable t : stable (alone t).
Proof.
  intros w w' [Hl H] Hk. split; [by eapply holds_stable|]. intros h p' Hp' Ht Ha.
  destruct (k_procs _ _ _ _ Hk t h p' Hl Hp' Ht Ha) as (p & Hp & Hpt & _ & Hs). by apply (H h p Hp Hpt), (dead_before p p').
Qed.

Lemma only_stable t a h : stable (only t a h).
Proof.
  intros w w' [Hl H] Hk. split; [by eapply holds_stable|]. intros h' p' Hp' Ht Ha.
  destruct (k_procs _ _ _ _ Hk t h' p' Hl Hp' Ht Ha) as (p & Hp & Hpt & -> & Hs). apply (H h' p Hp Hpt). by eapply dead_before.
Qed.

Lemma unasked_stable t h : stable (unasked t h).
Proof.
  intros w w' [Hl (p & Hp & Ht & Hs)] Hk. split; [by eapply holds_stable|]. destruct (k_keep _ _ _ _ Hk h p Hp) as (p' & Hp' & Ht' & _).
  exists p'. split; [done|]. split; [congruence|]. destruct (decide (p_stage p' = Over)) as [|Ha]; [by right|].
  destruct (k_procs _ _ _ _ Hk t h p' Hl Hp') as (p0 & Hp0 & _ & _ & Hst); [congruence|done|]. assert (p0 = p) as -> by congruence.
  destruct Hs as [E|E]; rewrite E in Hst; [by apply waiting_steps|]. right. by eapply over_stays.
Qed.

Lemma own_stable rq : stable (has_own rq).
Proof.
  intros w w' [Hl (s & Hs & Ho)] Hk. split; [by eapply holds_stable|]. exists s. by rewrite (k_record _ _ _ _ Hk).
Qed.

Lemma no_record_stable t : stable (no_record t).
Proof. intros w w' [Hl H] Hk. split; [by eapply holds_stable|]. by rewrite (k_record _ _ _ _ Hk). Qed.

Lemma unfenced_stable a : stable (unfenced a).
Proof.
  intros w w' (Hl & H1 & H2) Hk. split; [by eapply (stable_holds float_of sha256 authoring_kinds tid (AttemptLock (sha256 a)))|].
  destruct (k_marks _ _ _ _ Hk _ Hl) as [-> ->]. done.
Qed.

Lemma not_started_stable t : stable (not_started_yet t).
Proof.
  intros w w' [Ha Hn] Hk. split; [by eapply alone_stable|]. intros [?|(h & p & Hp & Ht & Hs)]%(k_started _ _ _ _ Hk t (proj1 Ha)); [done|].
  apply (proj2 Ha h p Hp Ht). unfold alive. by rewrite Hs.
Qed.

Lemma unfenced_not a w : unfenced a w -> ~ fenced sha256 w a.
Proof. intros (_ & H1 & H2) (s & [Hs|Hs] & _); congruence. Qed.

#[local] Hint Resolve alone_stable only_stable unasked_stable own_stable no_record_stable unfenced_stable not_started_stable holds_stable : rely.

(** ** Writing records *)

Lemma record_write_ok rq d size (w : state) :
  let t := sha256 (cr_operation rq) in
  ok w -> size <= _MAX_JOURNAL_BYTES -> has_own rq w ->
  (settled_dict d /\ alone t w \/ base_record k rq d /\ exists h, only t (cr_attempt rq) h w) ->
  let w' := with_files <[CommandRecord t := written d size]> w in ok w' /\ others_rely system knows tid w w'.
Proof.
  intros t Hw Hsize [Hl (s & Hs & Hown)] Hd. subst t. destruct (own_blocks k rq s Hown) as (Hc & Hothers & Hopen). apply record_safe; [done|].
  split; [done| | |].
  - intros h p Hp Ha Ht. destruct Hd as [[_ [_ Halone]]|[Hb (h0 & _ & Honly)]]; [by destruct (Halone h p)|].
    destruct (Honly h p Hp Ht Ha) as [_ ->]. by apply (own_blocks k rq), base_written.
  - intros a Ha. left. exists s. split; [done|]. destruct Hd as [[Hset _]|[Hb _]].
    + rewrite settled_clear in Ha by done. discriminate.
    + apply (own_blocks k rq) in Ha as ->; [done|by apply base_written].
  - intros s0 Hs0. by assert (s0 = s) as -> by congruence.
Qed.

(** Rewriting the record of a command that may be running. *)
Lemma write_running rq d h (P : state -> Prop) :
  base_record k rq d -> stable P ->
  (forall w, P w -> has_own rq w /\ only (sha256 (cr_operation rq)) (cr_attempt rq) h w) ->
  (forall w m, P w -> P (with_files (<[CommandRecord (sha256 (cr_operation rq)) := m]>) w) \/ ~ own_record k rq m) ->
  triple P (_write float_repr (CommandRecord (sha256 (cr_operation rq))) d) (fun _ w => P w).
Proof.
  intros Hb HP Hknow Hkeep. eapply triple_conseq; [apply (does_write _ _ _ _ _ _ _ _ _ P P P)|done|by intros [?|?] w]; try done.
  intros size w Hsize Hw HPw. destruct (Hknow w HPw) as [Hown Honly].
  destruct (record_write_ok rq d size w Hw Hsize Hown) as [H1 H2]; [right; eauto|].
  destruct (Hkeep w (written d size) HPw) as [H|H]; [done|]. by destruct H; apply base_written.
Qed.

(** Settling it once nothing of it is left. *)
Lemma write_settled rq d :
  settled_dict d ->
  does (fun w => has_own rq w /\ alone (sha256 (cr_operation rq)) w) (_write float_repr (CommandRecord (sha256 (cr_operation rq))) d)
    (fun _ w => exists size, size <= _MAX_JOURNAL_BYTES /\ w_files w !! CommandRecord (sha256 (cr_operation rq)) = Some (written d size)).
Proof.
  intros Hd. eapply triple_conseq; [apply (does_write _ _ _ _ _ _ _ _ _ (fun w => has_own rq w /\ alone (sha256 (cr_operation rq)) w)
    (fun w => exists size, size <= _MAX_JOURNAL_BYTES /\ w_files w !! CommandRecord (sha256 (cr_operation rq)) = Some (written d size)) (fun _ => True))|done|by intros [?|?] w]; try done.
  - intros size w Hsize Hw [Hown Halone]. destruct (record_write_ok rq d size w Hw Hsize Hown) as [H1 H2]; [by left|].
    split_and!; try done. exists size. split; [done|]. cbn. by rewrite lookup_insert_eq.
  - intros w w' (size & Hsize & Hs) Hk. exists size. split; [done|]. apply (k_settled _ _ _ _ Hk); [done|]. exists d.
    split; [by apply record_of_written|apply Hd].
  - apply stable_and; auto with rely.
Qed.
(** ** Running a command *)

(** A supervisor that has no request yet. *)
Definition during (rq : command_request) (h : nat) (w : state) : Prop :=
  has_own rq w /\ only (sha256 (cr_operation rq)) (cr_attempt rq) h w /\ unasked (sha256 (cr_operation rq)) h w.

(** One that may have it. *)
Definition running_one (rq : command_request) (h : nat) (w : state) : Prop :=
  has_own rq w /\ only (sha256 (cr_operation rq)) (cr_attempt rq) h w.

Definition over_one (rq : command_request) (w : state) : Prop := has_own rq w /\ alone (sha256 (cr_operation rq)) w.

Lemma during_stable rq h : stable (during rq h).
Proof. apply (stable_and _ _ _ _ (has_own rq)); [apply own_stable|]. apply stable_and; [apply only_stable|apply unasked_stable]. Qed.
Lemma running_stable rq h : stable (running_one rq h).
Proof. apply (stable_and _ _ _ _ (has_own rq)); [apply own_stable|apply only_stable]. Qed.
Lemma over_stable rq : stable (over_one rq).
Proof. apply (stable_and _ _ _ _ (has_own rq)); [apply own_stable|apply alone_stable]. Qed.
#[local] Hint Resolve during_stable running_stable over_stable : rely.

Lemma own_rewrite rq m w : own_record k rq m -> has_own rq w ->
  has_own rq (with_files <[CommandRecord (sha256 (cr_operation rq)) := m]> w).
Proof. intros Hm [Hl _]. split; [done|]. exists m. cbn. by rewrite lookup_insert_eq. Qed.

Lemma write_during rq d h : base_record k rq d ->
  triple (during rq h) (_write float_repr (CommandRecord (sha256 (cr_operation rq))) d) (fun _ w => during rq h w).
Proof.
  intros Hb. eapply triple_conseq; [apply (does_write _ _ _ _ _ _ _ _ _ (during rq h) (during rq h) (during rq h))|done|by intros [?|?] w];
    auto with rely. intros size w Hsize Hw (Hown & Honly & Hun). destruct (record_write_ok rq d size w Hw Hsize Hown) as [H1 H2]; [right; eauto|].
  assert (during rq h (with_files <[CommandRecord (sha256 (cr_operation rq)) := written d size]> w)) as Hd; [|done].
  split; [by apply own_rewrite; [apply base_written|]|done].
Qed.

Lemma stop_does rq h : does (during rq h) (_stop_supervisor h) (fun b w => has_own rq w /\ (b = true -> alone (sha256 (cr_operation rq)) w)).
Proof.
  unfold _stop_supervisor. eapply does_bind; [apply does_harmless; [harmless_tac|auto with rely]|]. intros code. cbv beta.
  eapply does_bind; [apply does_harmless; [harmless_tac|auto with rely]|]. intros ?. cbv beta.
  apply (does_bind _ _ _ _ _ _ _ (fun (r : option Z) w => has_own rq w /\ (r <> None -> alone (sha256 (cr_operation rq)) w)));
    [|intros r; apply does_ret; intros w [Ho Ha]; split; [done|]; intros Hb; apply Ha; by apply bool_decide_eq_true in Hb].
  unfold does, ask. apply (triple_bind system ok knows tid _ (request (I := host) (Wait h 2000)) _
    (fun (r : option Z) w => has_own rq w /\ (r <> None -> alone (sha256 (cr_operation rq)) w))); [|intros r; by apply triple_ret].
  apply (triple_request_any float_of sha256 authoring_kinds tid (Wait h 2000)).
  - intros w r w' Hw HP Hd. pose proof (harmless_call_ok float_of sha256 authoring_kinds tid (Wait h 2000) w r w' I Hw Hd) as [Hw' Hk].
    split; [done|]. split; [by intros t _|]. pose proof (during_stable rq h w w' HP (Hk tid)) as (Ho & [Hl Honly] & _).
    split; [done|]. intros Hr. split; [done|]. intros h' p' Hp' Ht Ha. destruct (Honly h' p' Hp' Ht Ha) as [-> _].
    destruct r as [code'|]; [|done]. cbn in Hd. subst w'. destruct HP as (_ & _ & _ & p & Hp & _ & Hs). unfold moved in Hp'. rewrite Hp in Hp'.
    destruct (decide _); cbn in Hp'; [rewrite lookup_insert_eq in Hp'; by injection Hp' as <-|]. assert (p' = p) as -> by congruence.
    by destruct Hs as [?|?].
  - intros r. apply stable_and; [auto with rely|]. apply stable_imp. auto with rely.
Qed.

(** What a launch leaves: a finished call, or a supervisor with its request. *)
Definition after_launch (rq : command_request) (r : launched (provider_result observation)) (w : state) : Prop :=
  match r with
  | inl (Observed _ _ _) => False
  | inl _ => True
  | inr (h, _, _, record) => base_record k rq record /\ running_one rq h w
  end.

Lemma send_does rq h payload : triple (during rq h) (try_except (_ ← invoke (SendRequest h payload); mret true)
    (fun e => match e with OSError _ => mret false | _ => raise e end)) (fun _ w => running_one rq h w).
Proof.
  eapply (try_except_triple system ok knows tid _ _ _ (fun _ w => running_one rq h w) (fun _ w => running_one rq h w)); [|done|].
  2: { intros [] ; by apply triple_ret. }
  eapply (act_bind_triple system ok knows tid _ _ _ (fun _ w => running_one rq h w) (fun _ w => running_one rq h w)); [|by intros _; apply triple_ret|done].
  eapply triple_conseq; [apply (triple_request_any float_of sha256 authoring_kinds tid (SendRequest h payload) (during rq h) (fun _ w => running_one rq h w))|done|by intros [?|?] w].
  - intros w r w' Hw (Hown & [Hl Honly] & Hun) Hd. destruct Hd as [->| ->].
    + split; [done|]. split; [intros t _; apply knows_refl|done].
    + destruct (send_safe float_of sha256 authoring_kinds tid h w Hw) as [H1 H2].
      { intros p Hp _. destruct Hun as (_ & p' & Hp' & Ht & _). assert (p = p') as -> by congruence. by rewrite Ht. }
      split; [done|]. split; [done|]. unfold moved. destruct (w_procs w !! h) as [p|] eqn:Hp; [|done]. destruct (decide _); [|done].
      split; [done|]. split; [done|]. intros h' p'. cbn. rewrite lookup_insert_Some. intros [[<- <-]|[_ Hp']] Ht Ha; [|by apply (Honly h' p')].
      split; [done|]. assert (alive p) as Hap by (unfold alive; congruence). by apply (Honly h p Hp Ht).
  - intros _. auto with rely.
Qed.

Lemma supervise_does rq payload started h pid :
  does (during rq h) (supervise float_repr sha256 rq (starting_record k rq) payload started h pid) (after_launch rq).
Proof.
  unfold supervise. eapply does_bind; [apply does_harmless; [harmless_tac|auto with rely]|]. intros [start state]. cbv beta iota zeta.
  assert (base_record k rq (running_record (starting_record k rq) pid start)) as Hb by (right; eauto).
  destruct (_ || _).
  - apply (does_bind _ _ _ _ _ _ _ (fun _ w => during rq h w)); [eapply (does_try _ _ _ _ _ _ _ (fun _ w => during rq h w)); [|intros e; by apply does_ret]|].
    { eapply triple_conseq; [by apply write_during|done|by intros [?|?] w]. }
    intros ?. cbv beta. eapply does_bind; [apply stop_does|]. intros stopped. destruct stopped.
    + eapply does_bind; [eapply does_pre; [by apply (write_settled rq), (not_started_settled k rq)|]|].
      { intros w [Hown Ha]. split; [done|by apply Ha]. }
      intros ?. by repeat apply triple_ret.
    + by repeat apply triple_ret.
  - apply (does_bind _ _ _ _ _ _ _ (fun _ w => during rq h w)); [eapply (does_try _ _ _ _ _ _ _ (fun _ w => during rq h w)); [|intros e; by apply does_ret]|].
    { eapply (act_bind_triple system ok knows tid _ _ _ (fun _ w => during rq h w) (fun _ w => during rq h w)); [|by intros _; apply triple_ret|done].
      eapply triple_conseq; [by apply write_during|done|by intros [?|?] w]. }
    intros written. cbv beta. destruct written; cbn [negb].
    + eapply does_bind; [eapply triple_conseq; [apply send_does|done|]; intros [?|?] w; [|done]; intros Hw; exact Hw|].
      intros sent. destruct sent; cbn [negb].
      * by apply does_ret.
      * eapply does_bind; [apply does_harmless; [harmless_tac|apply running_stable]|]. intros b. by repeat apply triple_ret.
    + eapply does_bind; [apply does_harmless; [harmless_tac|apply during_stable]|]. intros ?.
      eapply does_bind; [apply does_harmless; [harmless_tac|apply during_stable]|]. intros b. by repeat apply triple_ret.
Qed.
(** *** Fences *)

Lemma attestation_none a P :
  stable P -> (forall w, P w -> holds tid (AttemptLock (sha256 a)) w) ->
  does P (_read_attestation sha256 a)
    (fun r w => P w /\ exists f, w_files w !! Attestation (sha256 a) = f /\ match r with None => f = None | Some d => exists s, f = Some s /\ s_value s = Some (PDict d) end).
Proof.
  intros HP Hl. unfold _read_attestation. eapply does_bind.
  { apply does_read_file; [done|]. intros w w' Hw Hk. by apply (k_marks _ _ _ _ Hk), Hl. }
  intros f. cbv beta. apply (does_bind _ _ _ _ _ _ _ (fun v w => (P w /\ w_files w !! Attestation (sha256 a) = f) /\
    match v with None => f = None | Some v => exists s, f = Some s /\ s_value s = Some v end)).
  - apply does_pure. intros v w Hv Hw. split; [done|]. destruct v; [by eapply open_private_value|by eapply open_private_none].
  - intros [v|]; cbv beta iota; [|apply does_ret; intros w [[HPw Hf] ->]; split; [done|by exists None]].
    destruct v as [| | | | | |d]; try apply does_raise. destruct (_ && _); [|apply does_raise].
    apply does_ret. intros w [[HPw Hf] (s & -> & Hs)]. split; [done|]. exists (Some s). split; [done|]. by exists s.
Qed.

Lemma record_none a P :
  stable P -> (forall w, P w -> holds tid (AttemptLock (sha256 a)) w) ->
  does P (_read_record (HandoffRecord (sha256 a)) _HANDOFF_FORMAT _HANDOFF_VERSION handoff_fields)
    (fun r w => P w /\ (r = None -> w_files w !! HandoffRecord (sha256 a) = None)).
Proof.
  intros HP Hl. unfold _read_record. eapply does_bind.
  { apply does_read_file; [done|]. intros w w' Hw Hk. by apply (k_marks _ _ _ _ Hk), Hl. }
  intros f. cbv beta. eapply does_bind; [apply does_pure_eq|]. intros v. apply does_fact. intros Hv. destruct v as [v|].
  - destruct v as [| | | | | |d]; try apply does_raise. destruct (_ && _); [|apply does_raise]. apply does_ret. by intros w [Hw _].
  - apply open_private_none in Hv as ->. apply does_ret. by intros w [Hw Hf].
Qed.

Lemma marks_stable a (b : Prop) P :
  stable P -> (forall w, P w -> holds tid (AttemptLock (sha256 a)) w) ->
  stable (fun w => P w /\ (b -> w_files w !! HandoffRecord (sha256 a) = None)).
Proof.
  intros HP Hl w w' [Hw Hb] Hk. split; [by eapply HP|]. intros ?. rewrite (proj1 (k_marks _ _ _ _ Hk _ (Hl w Hw))). by apply Hb.
Qed.

Lemma marker_none a P :
  stable P -> (forall w, P w -> holds tid (AttemptLock (sha256 a)) w) ->
  does P (has_handoff_marker sha256 a) (fun b w => P w /\ (b = false -> w_files w !! HandoffRecord (sha256 a) = None)).
Proof.
  intros HP Hl. unfold has_handoff_marker.
  eapply (does_try _ _ _ _ _ _ _ (fun _ w => P w)); [|intros e; apply does_ret; by split].
  set (p := _ ← invoke (EnsurePrivate "record_root"); _).
  apply (triple_conseq system ok knows tid P P p _ (fun r w => P w /\ match r with Ok b => b = false -> w_files w !! HandoffRecord (sha256 a) = None | Err _ => True end));
    [|done|by intros [b|e] w [Hw Hb]].
  apply triple_and; [apply harmless_triple; [unfold p, _read_record; harmless_tac|done]|].
  eapply (does_bind _ _ _ _ _ _ _ (fun _ w => P w)); [apply does_harmless; [harmless_tac|done]|]. intros u. cbv beta. clear u.
  eapply (does_bind _ _ _ _ _ _ _ (fun (r : option pydict) w => r = None -> w_files w !! HandoffRecord (sha256 a) = None)).
  - eapply does_conseq with (P' := P) (Q' := fun (r : option pydict) w => P w /\ (r = None -> w_files w !! HandoffRecord (sha256 a) = None)); [|done|by intros r w []].
    apply does_locked_record; [done|by apply record_none|by intros r; apply marks_stable].
  - intros r. apply does_ret. intros w Hr Hb. apply Hr. by destruct r.
Qed.
(** *** Launching *)

(** An executor with the fences that the composed providers give it. *)
Definition fencing (ex : executor) : Prop := ex_attestations ex = true /\ ex_handoff ex = true.

(** A record was written and no process started: the moment a command may start. *)
Definition ready (rq : command_request) (w : state) : Prop :=
  has_own rq w /\ not_started_yet (sha256 (cr_operation rq)) w /\ unfenced (cr_attempt rq) w.

Definition launching (rq : command_request) (w : state) : Prop :=
  no_record (sha256 (cr_operation rq)) w /\ holds tid (AttemptLock (sha256 (cr_attempt rq))) w.

Lemma ready_stable rq : stable (ready rq).
Proof.
  apply (stable_and _ _ _ _ (has_own rq)); [apply own_stable|]. apply stable_and; [apply not_started_stable|apply unfenced_stable].
Qed.

Lemma launching_stable rq : stable (launching rq).
Proof. apply stable_and; [apply no_record_stable|by apply stable_holds]. Qed.
#[local] Hint Resolve ready_stable launching_stable : rely.

Lemma ready_may_start rq w : ready rq w -> may_start sha256 tid (sha256 (cr_operation rq)) (cr_attempt rq) w.
Proof.
  intros ([Hl (s & Hs & Ho)] & [[_ Ha] Hn] & Hu). split; [done| |by apply unfenced_not|done|done].
  exists s. split; [done|]. by apply (own_blocks k rq).
Qed.

(** The first record of an operation. *)
Lemma write_starting rq :
  does (fun w => launching rq w /\ unfenced (cr_attempt rq) w)
    (_write float_repr (CommandRecord (sha256 (cr_operation rq))) (starting_record k rq)) (fun _ w => ready rq w).
Proof.
  eapply triple_conseq; [apply (does_write _ _ _ _ _ _ _ _ _ (fun w => launching rq w /\ unfenced (cr_attempt rq) w) (ready rq) (fun _ => True))|done|by intros [?|?] w];
    [|done|auto with rely|done|by apply stable_and; auto with rely].
  intros size w Hsize Hw [[[Hl Hnone] Hatt] Hu].
  assert (own_record k rq (written (starting_record k rq) size)) as Hown by (exists size; split; [done|by left]).
  destruct (own_blocks k rq _ Hown) as (_ & Hothers & _).
  assert (forall h p, w_procs w !! h = Some p -> p_token p = sha256 (cr_operation rq) -> ~ alive p) as Halone.
  { intros h p Hp Ht Ha. destruct (ok_record _ _ Hw h p Hp Ha) as (s & Hs & _). rewrite Ht in Hs. congruence. }
  destruct (record_safe float_of sha256 authoring_kinds tid (sha256 (cr_operation rq)) (written (starting_record k rq) size) w Hw) as [H1 H2].
  { split; [done| | |].
    - intros h p Hp Ha Ht. by destruct (Halone h p).
    - intros a Ha. right. by rewrite (Hothers a Ha).
    - intros s0 Hs0. congruence. }
  split; [done|]. split; [done|]. split; [|done]. split.
  - split; [done|]. exists (written (starting_record k rq) size). cbn. rewrite lookup_insert_eq. by split.
  - split; [split; [by split|]|].
    + intros Hin. destruct (ok_started _ _ Hw) as [_ Hrec]. apply Hrec in Hin as [? Hin]. cbn in Hnone. congruence.
    + destruct Hu as (? & ? & ?). split; [done|]. cbn. by rewrite !lookup_insert_ne.
Qed.

(** Starting the supervisor. *)
Lemma popen_does rq cwd env :
  does (ready rq) (try_except (p ← invoke (Popen rq cwd env); mret (Some p)) (fun e => match e with OSError _ => mret None | _ => raise e end))
    (fun r w => match r with Some (h, _) => during rq h w | None => over_one rq w end).
Proof.
  assert (forall w, ready rq w -> over_one rq w) as Hover by (by intros w (? & [? _] & _)).
  eapply (does_try _ _ _ _ _ _ _ (fun _ w => over_one rq w)); [|intros []; try apply does_raise; by apply does_ret].
  eapply (act_bind_triple system ok knows tid _ _ _ (fun (p : nat * Z) w => during rq p.1 w) (fun _ w => over_one rq w));
    [|by intros [h pid]; apply triple_ret|done].
  apply (triple_request_any float_of sha256 authoring_kinds tid (Popen rq cwd env) (ready rq)).
  - intros w r w' Hw Hr Hd. destruct Hd as [(e & -> & ->)|(h & pid & -> & Hh & ->)].
    + split; [done|]. split; [intros t _; apply knows_refl|by apply Hover].
    + destruct (popen_safe float_of sha256 authoring_kinds tid h _ _ w Hw (ready_may_start rq w Hr) Hh) as [H1 H2].
      split; [done|]. split; [done|]. destruct Hr as ([Hl Hown] & [[_ Ha] _] & _). split; [done|]. split.
      * split; [done|]. intros h' p. cbn. rewrite lookup_insert_Some. intros [[<- <-]|[_ Hp]] Ht Hal; [done|]. by destruct (Ha h' p).
      * split; [done|]. eexists. cbn. rewrite lookup_insert_eq. split; [reflexivity|]. split; [done|by left].
  - intros [[h pid]|e]; auto with rely.
Qed.

Lemma launch_does ex rq : fencing ex ->
  does (launching rq) (launch float_repr sha256 k ex rq) (fun r w => after_launch rq r w).
Proof.
  intros [Hatt Hhand]. unfold launch. rewrite Hatt, Hhand. eapply does_bind; [apply attestation_none; [auto with rely|by intros w []]|].
  intros attested. cbv beta iota. destruct attested as [d|]; [by repeat apply triple_ret|]. 
  eapply does_bind.
  { eapply does_conseq; [apply (marker_none (cr_attempt rq) (fun w => launching rq w /\ w_files w !! Attestation (sha256 (cr_attempt rq)) = None))| |].
    - intros w w' [Hw Hn] Hk. split; [by eapply launching_stable|]. by rewrite (proj2 (k_marks _ _ _ _ Hk _ (proj2 Hw))).
    - by intros w [[] _].
    - intros w [Hw (f & Hf & ->)]. by split.
    - intros b w H. exact H. }
  intros handed. cbv beta. destruct handed; [by repeat apply triple_ret|].
  eapply does_bind.
  { eapply does_pre; [apply (does_harmless _ _ _ _ (fun w => launching rq w /\ unfenced (cr_attempt rq) w)); [harmless_tac|by apply stable_and; auto with rely]|].
    intros w [[Hw Ha] Hm]. split; [done|]. split; [by destruct Hw|]. split; [by apply Hm|done]. }
  intros [[workspace cwd]|]; cbv beta iota; [|by repeat apply triple_ret].
  eapply does_bind; [apply write_starting|]. intros u. cbv beta. clear u.
  eapply does_bind; [apply does_harmless; [harmless_tac|auto with rely]|]. intros env. cbv beta.
  eapply does_bind; [apply does_harmless; [harmless_tac|auto with rely]|]. intros started. cbv beta.
  eapply does_bind; [apply does_harmless; [harmless_tac|auto with rely]|]. intros repository. cbv beta.
  eapply does_bind; [apply does_harmless; [harmless_tac|auto with rely]|]. intros prefix. cbv beta zeta.
  eapply does_bind; [apply does_harmless; [harmless_tac|auto with rely]|]. intros u. cbv beta. clear u.
  eapply does_bind; [apply popen_does|]. intros [[h pid]|]; cbv beta iota.
  - apply supervise_does.
  - eapply does_bind; [apply (write_settled rq), (not_started_settled k rq); by left|]. intros u. by repeat apply triple_ret.
Qed.
(** *** Observing *)

(** The journal answers for the operation. *)
Definition answered (rq : command_request) (o : observation) (r : receipt) (w : state) : Prop :=
  exists s d, w_files w !! CommandRecord (sha256 (cr_operation rq)) = Some s /\ record_of s = Some d /\ field "state" d = PStr "completed"
    /\ decodes k d o r.

Definition answer_of (rq : command_request) (p : provider_result observation) (w : state) : Prop :=
  match p with Observed _ o r => answered rq o r w | _ => True end.

Lemma answered_stable rq o r : stable (answered rq o r).
Proof.
  intros w w' (s & d & Hs & Hd & Hst & Hdec) Hk. exists s, d. split; [|done]. apply (k_settled _ _ _ _ Hk); [done|]. exists d. by split; [|left].
Qed.

Lemma answer_stable rq p : stable (answer_of rq p).
Proof. destruct p; [by intros w w'..|apply answered_stable]. Qed.
#[local] Hint Resolve answered_stable answer_stable : rely.

(** A report that settles the command is read of a supervisor that is over. *)
Lemma report_does rq h : does (running_one rq h) (invoke (ReadReport h))
    (fun text w => running_one rq h w /\ (settles float_of text -> over_one rq w)).
Proof.
  assert (forall text, stable (fun w => running_one rq h w /\ (settles float_of text -> over_one rq w))) as Hst.
  { intros text. apply stable_and; [apply running_stable|]. apply stable_imp, over_stable. }
  apply (triple_request_any float_of sha256 authoring_kinds tid (ReadReport h) (running_one rq h)).
  - intros w r w' Hw Hr [-> Hd]. split; [done|]. split; [intros t _; apply knows_refl|]. destruct r as [text|]; [|done]. split; [done|].
    intros Hset. destruct Hr as [Hown [Hl Honly]]. split; [done|]. split; [done|]. intros h' p Hp Ht Ha.
    destruct (Honly h' p Hp Ht Ha) as [-> _]. by destruct Ha; apply (Hd text eq_refl Hset p Hp).
  - intros [text|e]; [apply Hst|by intros w w'].
Qed.

Lemma observe_does `{!ContractLaws k} ex rq h started record :
  good_request k rq -> good_executor k ex ->
  does (fun w => base_record k rq record /\ running_one rq h w) (observe float_repr float_of sha256 k ex rq h started record) (answer_of rq).
Proof.
  intros Hrq Hex. unfold observe. assert (stable (fun w => base_record k rq record /\ running_one rq h w)) as Hst.
  { apply stable_and; [by intros w w'|auto with rely]. }
  eapply does_bind; [apply does_harmless; [harmless_tac|done]|]. intros [code|]; cbv beta iota.
  2: { eapply does_bind; [apply does_harmless; [harmless_tac|done]|]. intros b. by apply triple_ret. }
  eapply does_bind; [apply does_harmless; [harmless_tac|done]|]. intros reading. cbv beta.
  apply does_fact. intros Hb.
  eapply does_bind; [apply report_does|]. intros text. cbv beta. destruct reading; [by apply triple_ret|].
  destruct (judge float_of text code) as [reason|reason|code' timed_out out err] eqn:Hj; [by apply triple_ret| |].
  - eapply (does_pre _ _ _ _ _ (over_one rq)); [|intros w [_ Ho]; apply Ho; exists code; by rewrite Hj].
    eapply does_bind; [by apply (write_settled rq), (not_started_settled k rq)|]. intros u. cbv beta. clear u.
    eapply does_bind; [by apply (does_guard _ _ _ _ _ _ _ (fun _ _ => True))|]. intros u. by apply triple_ret.
  - eapply (does_pre _ _ _ _ _ (over_one rq)); [|intros w [_ Ho]; apply Ho; exists code; by rewrite Hj].
    eapply does_bind; [apply does_harmless; [harmless_tac|auto with rely]|]. intros completed. cbv beta.
    eapply does_bind; [apply does_harmless; [harmless_tac|auto with rely]|]. intros unchanged. cbv beta.
    destruct unchanged; cbn [negb]; [|by apply triple_ret].
    eapply does_bind; [apply does_pure_eq|]. intros stdout. apply does_fact. intros Hout.
    eapply does_bind; [apply does_pure_eq|]. intros stderr. apply does_fact. intros Herr.
    eapply does_bind; [apply does_pure_eq|]. intros o. apply does_fact. intros Ho.
    eapply does_bind; [apply does_pure_eq|]. intros r. apply does_fact. intros Hr.
    pose proof (completed_decodes sha256 k ex rq record out err code' timed_out started completed o r stdout stderr Hrq Hex Hb Hout Herr Ho Hr) as Hdec.
    eapply does_bind; [by apply (write_settled rq), (completed_settled k rq)|]. intros u. cbv beta. clear u. apply does_ret.
    intros w (size & Hsize & Hs). exists (written (completed_record k record o r) size), (completed_record k record o r).
    split; [done|]. split; [by apply record_of_written|]. split; [|done]. by destruct Hb as [->|(pid & st & ->)].
Qed.
(** *** The whole call *)

Lemma read_does t :
  does (holds tid (OperationLock t)) (_read (CommandRecord t))
    (fun r w => holds tid (OperationLock t) w /\ match r with
                 | None => w_files w !! CommandRecord t = None
                 | Some d => exists s, w_files w !! CommandRecord t = Some s /\ record_of s = Some d
                 end).
Proof.
  unfold _read. eapply does_bind.
  { apply does_read_file; [auto with rely|]. intros w w' Hw Hk. by apply (k_record _ _ _ _ Hk). }
  intros f. cbv beta. eapply does_bind; [apply does_pure_eq|]. intros v. apply does_fact. intros Hv.
  destruct v as [v|].
  - pose proof (open_private_value _ _ _ _ _ _ _ Hv) as (s & -> & _). apply open_private_same in Hv.
    destruct v as [| | | | | |d]; try apply does_raise. apply does_ret. intros w [Hl Hf]. split; [done|]. exists s. split; [done|]. by apply reads_record.
  - apply open_private_none in Hv as ->. by apply does_ret.
Qed.

Lemma replay_does rq d t :
  t = sha256 (cr_operation rq) ->
  does (fun w => holds tid (OperationLock t) w /\ exists s, w_files w !! CommandRecord t = Some s /\ record_of s = Some d)
    (replay k rq d) (answer_of rq).
Proof.
  intros ->. unfold replay. destruct (_ || _); [by apply does_ret|]. destruct (py_eqb (field "state" d) (PStr "completed")) eqn:Hst; cbn [negb]; [|by apply does_ret].
  destruct (negb _); [by apply does_ret|].
  eapply does_bind; [apply does_pure_eq|]. intros o. apply does_fact. intros Ho.
  eapply does_bind; [apply does_pure_eq|]. intros r. apply does_fact. intros Hr. apply does_ret.
  intros w (_ & s & Hs & Hd). exists s, d. split_and!; [done|done| |by split].
  destruct (field "state" d); try discriminate. apply String.eqb_eq in Hst. by subst.
Qed.

Lemma execute_does `{!ContractLaws k} ex rq :
  fencing ex -> good_executor k ex -> good_request k rq ->
  does (fun _ => True) (execute float_repr float_of sha256 k ex (Some rq)) (answer_of rq).
Proof.
  intros Hf Hex Hrq. unfold execute. destruct (negb _); [by apply does_ret|]. destruct (_ <? _); [by apply does_ret|].
  apply does_try_any; [|intros e; by apply does_ret].
  eapply does_bind; [apply does_harmless; [harmless_tac|apply stable_true]|]. intros u. cbv beta. clear u.
  eapply does_bind; [apply does_harmless; [harmless_tac|apply stable_true]|]. intros safe_journal. cbv beta.
  destruct safe_journal; cbn [negb]; [|by apply does_ret].
  apply (does_locked _ _ _ _ _ _ _ (answer_of rq)); [apply stable_true|done| |by intros p w; destruct p|intros p; apply answer_stable].
  eapply does_pre; [|by intros w [_ Hl]; exact Hl]. eapply does_bind; [apply read_does|]. intros [d|]; cbv beta iota; [by apply replay_does|].
  apply (does_bind _ _ _ _ _ _ _ (after_launch rq)).
  - apply (does_locked _ _ _ _ _ _ _ (after_launch rq)); [apply no_record_stable|done| | |].
    + eapply does_pre; [by apply launch_does|]. by intros w [H1 H2].
    + intros [p|[[[h pid] t] record]] w; [by destruct p|]. intros [Hb [[Hl Hs] [Hl2 Ho]]]. cbn.
      assert (holds tid (OperationLock (sha256 (cr_operation rq))) (released tid (AttemptLock (_attempt_token sha256 (cr_attempt rq))) w)) as Hl'.
      { unfold holds. cbn. destruct (decide _); [|done]. by rewrite lookup_delete_ne. }
      split; [done|]. split; [by split|by split].
    + intros [p|[[[h pid] t] record]]; [destruct p; by intros w w'|]. apply stable_and; [by intros w w'|auto with rely].
  - intros [p|[[[h pid] t] record]]; cbv beta iota; [by apply does_ret; intros w; destruct p|]. by apply observe_does.
Qed.

(** Whatever is harmless but for the lock of an operation. *)
Lemma locked_harmless {A} l (p : run A) : ordering l -> harmless p -> does (fun _ => True) (locked l p) (fun _ _ => True).
Proof.
  intros Hl Hp. apply (does_locked _ _ _ _ _ _ _ (fun _ _ => True)); [apply stable_true|done| |done|by intros a w w'].
  eapply does_conseq; [apply (does_harmless _ _ _ _ (fun _ => True)); [done|apply stable_true]|done|done].
Qed.

Lemma inspect_does ex request : does (fun _ => True) (inspect sha256 k ex request) (fun _ _ => True).
Proof.
  unfold inspect. destruct request as [rq|]; [|by apply does_ret]. destruct (negb _); [by apply does_ret|].
  apply does_try_any; [|intros e; by apply does_ret].
  eapply does_bind; [apply locked_harmless; [done|apply harmless_read]|]. intros value. cbv beta.
  eapply does_conseq; [apply (does_harmless _ _ _ _ (fun _ => True)); [unfold _unknown; harmless_tac|apply stable_true]|done|done].
Qed.

(** ** Nothing of an attempt is left *)

(** No record of the journal blocks the attempt but those still to be read. *)
Definition blocked_within (a : string) (l : list journal_entry) (w : state) : Prop :=
  holds tid (AttemptLock (sha256 a)) w /\
  forall t s, w_files w !! CommandRecord t = Some s -> record_clear a s = false -> JournalRecord t ∈ l.

Lemma blocked_stable a l : stable (blocked_within a l).
Proof.
  intros w w' [Hl H] Hk. split; [by eapply (stable_holds float_of sha256 authoring_kinds tid (AttemptLock (sha256 a)))|].
  intros t s' Hs' Hc. destruct (k_blocks _ _ _ _ Hk a t s' Hl Hs' Hc) as (s & Hs & Hc'). by apply (H t s).
Qed.

Lemma entries_does a l :
  does (blocked_within a l) (entries_clear a l) (fun b w => b = true -> blocked_within a [] w).
Proof.
  induction l as [|[t| |] l IH]; cbn [entries_clear]; [by apply does_ret| | |by apply does_ret].
  2: { eapply does_pre; [exact IH|]. intros w [Hl H]. split; [done|]. intros t s Hs Hc. by specialize (H t s Hs Hc) as [?|?]%elem_of_cons. }
  (* the record as it was read, or nothing readable *)
  apply (does_bind _ _ _ _ _ _ _ (fun (v : option (option pydict)) w => match v with
    | Some (Some d) => blocked_within a (if record_clear a (written d 0) then l else JournalRecord t :: l) w
    | Some None => blocked_within a l w
    | None => True
    end)).
  - apply does_try_any; [|intros e; by apply does_ret].
    eapply (does_bind _ _ _ _ _ _ _ (fun (r : option pydict) w => match r with
      | Some d => blocked_within a (if record_clear a (written d 0) then l else JournalRecord t :: l) w | None => blocked_within a l w end));
      [|intros r; apply does_ret; by destruct r].
    unfold _read, ask.
    apply (does_bind _ _ _ _ _ _ _ (fun (f : option stored) w => blocked_within a (if match f with Some s => record_clear a s | None => true end then l else JournalRecord t :: l) w)).
    { unfold does. apply (triple_bind system ok knows tid _ (request (I := host) (ReadFile (CommandRecord t))) _
        (fun (f : option stored) w => blocked_within a (if match f with Some s => record_clear a s | None => true end then l else JournalRecord t :: l) w));
        [|by intros r; apply triple_ret].
      apply (triple_request_any float_of sha256 authoring_kinds tid (ReadFile (CommandRecord t))); [|intros r; apply blocked_stable].
      intros w r w' Hw [Hl H] [-> ->]. split; [done|]. split; [intros t' _; apply knows_refl|]. destruct (w_files w !! CommandRecord t) as [s|] eqn:Hs.
      - destruct (record_clear a s) eqn:Hc; [|done]. split; [done|]. intros t' s' Hs' Hc'. specialize (H t' s' Hs' Hc') as [[= ->]|?]%elem_of_cons; [|done]. congruence.
      - split; [done|]. intros t' s' Hs' Hc'. specialize (H t' s' Hs' Hc') as [[= ->]|?]%elem_of_cons; [|done]. congruence. }
    intros f. eapply does_bind; [apply does_pure_eq|]. intros v. apply does_fact. intros Hv. destruct v as [v|].
    + pose proof (open_private_value _ _ _ _ _ _ _ Hv) as (s & -> & _). apply open_private_same in Hv. destruct v as [| | | | | |d]; try apply does_raise.
      apply does_ret. intros w. apply reads_record in Hv. unfold record_clear at 1. unfold record_clear. rewrite Hv, record_of_written by done. done.
    + apply open_private_none in Hv as ->. by apply does_ret.
  - intros [[d|]|]; cbv beta iota; [|by eapply does_pre; [exact IH|]|by apply does_ret].
    unfold record_clear. rewrite record_of_written by done.
    destruct (py_eqb (field "format" d) (PStr _COMMAND_FORMAT)); cbn [negb orb andb]; [|by apply does_ret].
    destruct (py_eqb (field "version" d) (PInt _COMMAND_VERSION)); cbn [negb orb andb]; [|by apply does_ret].
    apply (does_bind _ _ _ _ _ _ _ (fun _ w => blocked_within a (if negb (unsettled a d) then l else JournalRecord t :: l) w)); [by apply does_guard|].
    intros u. cbv beta. destruct (unsettled a d); cbn [negb]; [by apply does_ret|exact IH].
Qed.

Lemma clear_does a :
  does (holds tid (AttemptLock (sha256 a))) (_command_journal_clear a) (fun b w => b = true -> blocked_within a [] w).
Proof.
  unfold _command_journal_clear.
  apply (does_bind _ _ _ _ _ _ _ (fun (r : listing) w => match r with
    | NoJournal => blocked_within a [] w | BadJournal => True | Entries l => JournalUnsettled ∈ l \/ blocked_within a l w end)).
  - unfold does, ask. apply (triple_bind system ok knows tid _ (request (I := host) ListJournal) _ (fun (r : listing) w => match r with
    | NoJournal => blocked_within a [] w | BadJournal => True | Entries l => JournalUnsettled ∈ l \/ blocked_within a l w end)); [|by intros r; apply triple_ret].
    apply (triple_request_any float_of sha256 authoring_kinds tid ListJournal).
    + intros w r w' Hw Hl [Hlist ->]. split; [done|]. split; [intros t' _; apply knows_refl|]. destruct r as [| |l]; cbn in Hlist; [|done|].
      * split; [done|]. intros t s Hs. by rewrite Hlist in Hs.
      * destruct Hlist as [?|H]; [by left|]. right. split; [done|]. intros t s Hs _. apply H. by exists s.
    + intros [| |l]; [apply blocked_stable|by intros w w'|]. intros w w' [?|H] Hk; [by left|]. right. by eapply blocked_stable.
  - intros [| |l]; cbv beta iota; [by apply does_ret|by apply does_ret|].
    intros w Hw [Hin|H]; [|by apply entries_does].
    revert w Hw. assert (does (fun _ => True) (entries_clear a l) (fun b w => b = true -> blocked_within a [] w)) as H; [|intros w Hw; by apply H].
    clear -Hin. induction l as [|[t| |] l IH]; [by apply elem_of_nil in Hin| | |by apply does_ret]; (apply elem_of_cons in Hin as [|Hin]; [done|]); cbn [entries_clear].
    + eapply does_bind; [apply does_harmless; [unfold _read; harmless_tac|apply stable_true]|]. intros [[d|]|]; cbv beta iota; [|by apply IH|by apply does_ret].
      destruct (_ || _); [by apply does_ret|]. eapply does_bind; [by apply (does_guard _ _ _ _ _ _ _ (fun _ _ => True))|]. intros u. cbv beta.
      destruct (unsettled a d); [by apply does_ret|by apply IH].
    + by apply IH.
Qed.

Lemma quiet_attempt a w : ok w -> blocked_within a [] w -> forall h p, w_procs w !! h = Some p -> p_attempt p = a -> ~ alive p.
Proof.
  intros Hw [_ H] h p Hp <- Ha. destruct (ok_record _ _ Hw h p Hp Ha) as (s & Hs & Hc). by apply (H _ s Hs), elem_of_nil in Hc.
Qed.
(** ** Hand-offs, attestations, effects *)

Lemma write_mark a f d limit msg P :
  (f = HandoffRecord (sha256 a) \/ f = Attestation (sha256 a)) -> field "attempt_id" d = PStr a -> stable P ->
  (forall w, P w -> blocked_within a [] w /\ forall a' s, w_files w !! f = Some s -> names a' s -> a' = a) ->
  does P (write_private float_repr limit msg f d) (fun _ _ => True).
Proof.
  intros Hf Hd HP Hknow. eapply triple_conseq; [apply (does_write _ _ _ _ _ _ _ _ _ P (fun _ => True) (fun _ => True))|done|by intros [?|?] w]; try done.
  intros size w Hsize Hw HPw. destruct (Hknow w HPw) as [Hb Hold].
  destruct (mark_safe float_of sha256 authoring_kinds tid a f (written d size) w Hw) as [H1 H2]; [|done].
  split; [apply Hb|done| | |].
  - intros a' (d' & Hd' & Ha'). cbn in Hd'. injection Hd' as <-. rewrite Hd in Ha'. by injection Ha'.
  - intros a' s0 Hs0 Hn. rewrite (Hold a' s0 Hs0 Hn). by exists d.
  - by apply quiet_attempt.
Qed.

Lemma quiescent_does a :
  does (holds tid (AttemptLock (sha256 a))) (_require_quiescent_host a) (fun _ w => blocked_within a [] w).
Proof.
  unfold _require_quiescent_host. eapply does_bind; [apply clear_does|]. intros clear. cbv beta.
  apply (does_bind _ _ _ _ _ _ _ (fun _ w => blocked_within a [] w)).
  { apply does_guard. intros w Hc H. apply H. by destruct clear. }
  intros u. cbv beta. eapply does_bind; [apply does_harmless; [harmless_tac|apply blocked_stable]|]. intros rows. cbv beta.
  eapply does_bind; [apply does_harmless; [unfold unavailable; harmless_tac|apply blocked_stable]|]. intros u'. cbv beta.
  eapply does_bind; [apply does_harmless; [harmless_tac|apply blocked_stable]|]. intros activity. cbv beta.
  destruct activity; [by apply does_ret|apply does_raise|apply does_raise].
Qed.

Section Handoffs.
Context (py_repr : pyval -> string) (request_digest : proof_request -> string) (handoff_digest : proof_request -> string -> string -> string -> string).
Context (AttemptAuthoringHandoff : proof -> result proof).

Lemma handoff_does pv request :
  does (fun _ => True) (handoff_authoring float_repr sha256 k py_repr request_digest handoff_digest AttemptAuthoringHandoff pv request) (fun _ _ => True).
Proof.
  unfold handoff_authoring. destruct request as [typed|]; [|apply does_raise].
  eapply does_bind; [apply (does_pure _ _ _ _ _ _ (fun _ _ => True)); done|]. intros rq. cbv beta zeta.
  eapply does_bind; [apply does_harmless; [harmless_tac|apply stable_true]|]. intros u. cbv beta. clear u.
  set (a := en_id (pq_attempt rq)).
  apply (does_locked _ _ _ _ _ _ _ (fun _ _ => True)); [apply stable_true|done| |done|by intros p w w'].
  apply does_locked_record; [apply stable_and; [apply stable_true|by apply stable_holds]| |by intros p w w'].
  eapply does_bind; [apply record_none; [apply stable_and; [apply stable_true|by apply stable_holds]|by intros w [_ ?]]|].
  intros [d|]; cbv beta iota.
  - eapply does_pre; [|intros w _; exact I].
    eapply does_conseq; [apply (does_harmless _ _ _ _ (fun _ => True)); [unfold unavailable; harmless_tac|apply stable_true]|done|done].
  - apply (does_bind _ _ _ _ _ _ _ (fun _ w => blocked_within a [] w /\ (True -> w_files w !! HandoffRecord (sha256 a) = None))).
    { intros w Hw [[_ Hl] Hm]. eapply safe_mono; [|apply (triple_and system ok knows tid (fun w => holds tid (AttemptLock (sha256 a)) w /\ (True -> w_files w !! HandoffRecord (sha256 a) = None))
        (_require_quiescent_host a) (fun r w => match r with Ok _ => blocked_within a [] w | Err _ => True end)
        (fun _ w => holds tid (AttemptLock (sha256 a)) w /\ (True -> w_files w !! HandoffRecord (sha256 a) = None))); [| |done|split; [done|intros _; by apply Hm]]].
      - by intros [r|e] w1 [? [? ?]].
      - eapply triple_pre; [apply quiescent_does|]. by intros w1 [? _].
      - apply harmless_triple; [apply harmless_quiescent|]. by apply marks_stable; [apply stable_holds|]. }
    intros u. cbv beta. clear u.
    assert (stable (fun w => blocked_within a [] w /\ (True -> w_files w !! HandoffRecord (sha256 a) = None))) as Hst
      by (apply marks_stable; [apply blocked_stable|by intros w []]).
    eapply does_bind; [apply does_harmless; [harmless_tac|exact Hst]|]. intros [[commit tree] digest]. cbv beta iota.
    eapply does_bind; [apply does_harmless; [harmless_tac|exact Hst]|]. intros reference. cbv beta.
    eapply does_bind; [apply does_harmless; [harmless_tac|exact Hst]|]. intros [[commit2 tree2] digest2]. cbv beta iota.
    eapply does_bind; [apply does_harmless; [harmless_tac|exact Hst]|]. intros u. cbv beta. clear u.
    eapply does_bind; [apply does_harmless; [harmless_tac|exact Hst]|]. intros now. cbv beta.
    eapply does_bind; [apply does_harmless; [harmless_tac|exact Hst]|]. intros p. cbv beta.
    eapply does_bind; [|intros u; by apply does_ret].
    unfold _write_record. eapply (write_mark a); [by left|done|exact Hst|]. intros w [Hb Hm]. split; [done|]. intros a' s Hs. rewrite Hm in Hs; done.
Qed.
End Handoffs.

Lemma settle_prior_names attempt prior payload now :
  settle_prior float_repr sha256 k attempt prior payload now = Ok None -> py_eqb (field "attempt_id" prior) (field "attempt_id" payload) = true.
Proof.
  unfold settle_prior. intros H. apply result_bind_ok in H as (u & _ & H).
  destruct (forallb _ attestation_identity) eqn:Hall; cbn [negb orb] in H.
  - rewrite forallb_forall in Hall. apply Hall. cbn. tauto.
  - apply result_bind_ok in H as (d & _ & H). by cbn in H.
Qed.

Lemma payload_names project root attempt producer lifecycle principal profile lease expires row ob now payload tail :
  attestation_payload k project root attempt producer lifecycle principal profile lease expires row ob now = Ok payload ->
  field "attempt_id" (payload ++ tail) = PStr attempt.
Proof.
  intros H. unfold attestation_payload in H. apply result_bind_ok in H as (actor & _ & H). apply result_bind_ok in H as (target & _ & H).
  by apply Ok_inj in H as <-.
Qed.

Lemma attest_does root attempt producer lifecycle principal profile :
  does (fun _ => True) (record_external_producer_completion float_repr sha256 k root attempt producer lifecycle principal profile) (fun _ _ => True).
Proof.
  unfold record_external_producer_completion.
  do 4 (eapply does_bind; [apply (does_harmless _ _ _ _ (fun _ => True)); [harmless_tac|apply stable_true]|]; intros ?; cbv beta).
  apply does_try_any; [|intros []; apply does_raise].
  apply (does_locked _ _ _ _ _ _ _ (fun _ _ => True)); [apply stable_true|done| |done|by intros p w w'].
  eapply does_pre; [|by intros w [_ Hl]; exact Hl]. assert (stable (holds tid (AttemptLock (_attempt_token sha256 attempt)))) as Hst by by apply stable_holds.
  eapply does_bind; [apply does_harmless; [harmless_tac|exact Hst]|]. intros i. cbv beta.
  eapply does_bind; [apply does_harmless; [harmless_tac|exact Hst]|]. intros [[[lease expires] row] ob]. cbv beta iota.
  eapply does_bind; [apply does_harmless; [harmless_tac|exact Hst]|]. intros owners. cbv beta.
  eapply does_bind; [apply does_harmless; [harmless_tac|exact Hst]|]. intros u. cbv beta. clear u.
  eapply does_bind; [apply clear_does|]. intros clear. cbv beta.
  apply (does_bind _ _ _ _ _ _ _ (fun _ w => blocked_within attempt [] w)).
  { apply does_guard. intros w Hc H. apply H. by destruct clear. }
  intros u. cbv beta. clear u. eapply does_bind; [apply does_harmless; [harmless_tac|apply blocked_stable]|]. intros now. cbv beta.
  eapply does_bind; [apply does_pure_eq|]. intros payload. apply does_fact. intros Hp.
  eapply does_bind; [apply does_harmless; [harmless_tac|apply blocked_stable]|]. intros digest. cbv beta zeta.
  pose proof (fun tail => payload_names _ _ _ _ _ _ _ _ _ _ _ _ _ tail Hp) as Hname.
  eapply does_bind; [apply attestation_none; [apply blocked_stable|by intros w []]|]. intros prior. cbv beta.
  set (d := payload ++ _).
  apply (does_bind _ _ _ _ _ _ _ (fun (kept : option pydict) w => kept = None -> blocked_within attempt [] w /\
    forall a' s, w_files w !! Attestation (sha256 attempt) = Some s -> names a' s -> a' = attempt)).
  { destruct prior as [pr|]; [|apply does_ret; intros w [Hb (f & Hf & ->)] _; split; [done|]; intros a' s Hs; congruence].
    apply does_pure. intros kept w Hk [Hb (f & Hf & s & -> & Hv)] ->. split; [done|]. intros a' s' Hs' (d' & Hd' & Ha').
    assert (s' = s) as -> by congruence. assert (d' = pr) as -> by congruence. apply settle_prior_names in Hk. unfold d in Hk.
    rewrite Hname, Ha' in Hk. by apply String.eqb_eq in Hk. }
  intros [answer|]; cbv beta iota; [by apply does_ret|]. eapply does_bind; [|intros u; by apply does_ret].
  unfold _write_attestation. apply (write_mark attempt _ _ _ _ (fun w => None = None -> blocked_within attempt [] w /\
    forall a' s, w_files w !! Attestation (sha256 attempt) = Some s -> names a' s -> a' = attempt)); [by right|by apply Hname| |].
  - intros w w' H Hk _. destruct (H eq_refl) as [Hb Hn]. split; [by eapply blocked_stable|]. intros a' s. 
    rewrite (proj2 (k_marks _ _ _ _ Hk _ (proj1 Hb))). apply Hn.
  - intros w H. by destruct (H eq_refl).
Qed.

Lemma effect_does attempt kind : does (fun _ => True) (fence_authoring_effect sha256 attempt kind) (fun _ _ => True).
Proof.
  unfold fence_authoring_effect. destruct attempt as [a|].
  2: { apply (does_bind _ _ _ _ _ _ _ (fun _ _ => True)); [|intros r; by apply does_ret].
       eapply triple_conseq; [apply (triple_request_any float_of sha256 authoring_kinds tid (GitEffect None kind) (fun _ => True) (fun _ _ => True))|done|by intros [?|?] w];
         [|by intros r w w'].
       intros w r w' Hw _ Hd. cbn in Hd. subst w'. split_and!; [done|intros t _; apply knows_refl|done]. }
  assert (forall P, stable P -> (forall w, P w -> kind ∈ authoring_kinds -> w_files w !! HandoffRecord (sha256 a) = None) ->
    does P (invoke (GitEffect (Some a) kind)) (fun _ _ => True)) as Hgit.
  { intros P HP Hm. eapply triple_conseq; [apply (triple_request_any float_of sha256 authoring_kinds tid (GitEffect (Some a) kind) P (fun _ _ => True))|done|by intros [?|?] w]; [|by intros r w w'].
    intros w r w' Hw HPw Hd. cbn in Hd. subst w'. destruct (effect_safe sha256 authoring_kinds a kind w Hw) as [H1 H2]; [by apply Hm|]. split_and!; [done|by intros t _|done]. }
  case_bool_decide as Hk.
  - apply (does_locked _ _ _ _ _ _ _ (fun _ _ => True)); [apply stable_true|done| |done|by intros p w w'].
    assert (stable (fun w : state => True /\ holds tid (AttemptLock (sha256 a)) w)) as Hst by (apply stable_and; [apply stable_true|by apply stable_holds]).
    eapply does_bind; [apply marker_none; [exact Hst|by intros w []]|]. intros [|]; cbv beta iota; [by apply does_ret|].
    eapply does_bind; [apply Hgit; [by apply marks_stable; [|intros w []]|by intros w [_ H] _; apply H]|]. intros r. by apply does_ret.
  - eapply does_bind; [apply Hgit; [apply stable_true|done]|]. intros r. by apply does_ret.
Qed.
End Threads.
