(* ===== verification/CommandRuns.v ===== *)
(** * Any calls at once

    The entry points of the command executor, the hand-off provider, the attestation and the
    fence, as threads over one host: what holds of the world and of their answers however
    they interleave and wherever they stop. *)

From Stdlib Require Import ZArith SpecFloat.
From stdpp Require Import relations.
From S2P Require Import Prelude PyValue Text Json Journal BearerStore Program Commands CommandSafety Handoff Attest CommandProps.
Import Journal BearerStore Commands CommandSafety Handoff Attest.

#[local] Open Scope string_scope.
#[local] Open Scope Z_scope.
#[local] Open Scope list_scope.

Module CommandRuns.

(** A call of one of the components. *)
Inductive entry_point :=
  | CallExecute (ex : executor) (rq : command_request)
  | CallInspect (ex : executor) (rq : option inspection_request)
  | CallHandoff (pv : provider) (rq : option handoff_request)
  | CallHandoffFor (pv : provider) (a : attempt_view)
  | CallCredential (project authority : string) (rq : credential_request)
  | CallAttest (root attempt producer lifecycle principal profile : string)
  | CallExternal (root : string) (git : bool) (a : attempt_view) (attempt : string)
      (qualify : string -> result (string * string * pyval)) (safety : string -> result (string * string))
  | CallGit (attempt : option string) (kind : string).

(** What it returned; the answers of executions are told apart by their request. *)
Inductive returned :=
  | Executed (rq : command_request) (r : result (provider_result observation))
  | Handed (r : result proof)
  | Answered.

Section Runs.
Context (float_repr : spec_float -> string) (float_of : string -> spec_float) (sha256 : string -> string) (k : contracts).
Context (py_repr : pyval -> string) (request_digest : proof_request -> string) (handoff_digest : proof_request -> string -> string -> string -> string).
Context (AttemptAuthoringHandoff : proof -> result proof).
#[local] Abbreviation system := (commands float_of sha256 authoring_kinds).

Definition then_return {A} (p : run A) (f : result A -> returned) : prog host returned := prog_bind p (fun r => Ret (f r)).

Definition program_of (e : entry_point) : prog host returned :=
  match e with
  | CallExecute ex rq => then_return (execute float_repr float_of sha256 k ex (Some rq)) (Executed rq)
  | CallInspect ex rq => then_return (inspect sha256 k ex rq) (fun _ => Answered)
  | CallHandoff pv rq =>
      then_return (handoff_authoring float_repr sha256 k py_repr request_digest handoff_digest AttemptAuthoringHandoff pv rq) Handed
  | CallHandoffFor pv a => then_return (authoring_handoff_for sha256 k py_repr request_digest AttemptAuthoringHandoff pv a) (fun _ => Answered)
  | CallCredential p a rq => then_return (prepare_attempt_credential float_repr sha256 p a rq) (fun _ => Answered)
  | CallAttest root a producer life principal profile =>
      then_return (record_external_producer_completion float_repr sha256 k root a producer life principal profile) (fun _ => Answered)
  | CallExternal root git a attempt q s => then_return (external_inspect float_repr sha256 k root git a attempt q s) (fun _ => Answered)
  | CallGit a kind => then_return (fence_authoring_effect sha256 a kind) (fun _ => Answered)
  end.

(** Executions are composed with their fences, and their requests are typed. *)
Definition good_entry (e : entry_point) : Prop :=
  match e with CallExecute ex rq => fencing ex /\ good_executor k ex /\ good_request k rq | _ => True end.

Definition entry (p : prog host returned) : Prop := exists e, good_entry e /\ p = program_of e.

(** At first nothing runs; the files are whatever was left. *)
Definition at_rest (w : state) : Prop := w_locks w = ∅ /\ w_procs w = ∅ /\ w_started w = [] /\ w_effects w = [].

Definition reaches : config system -> Prop := reachable system entry at_rest.
#[local] Abbreviation step := (step system entry).

Definition returns (r : returned) (w : state) : Prop :=
  match r with Executed rq (Ok p) => answer_of sha256 k rq p w | _ => True end.

Section Proofs.
Context `{!ContractLaws k}.

Lemma at_rest_safe w : at_rest w -> safe_world sha256 w.
Proof.
  intros (_ & Hp & Hs & He). split; rewrite ?Hp, ?Hs, ?He.
  - by intros h p; rewrite lookup_empty.
  - by intros h p; rewrite lookup_empty.
  - split; [constructor|]. by intros t Ht%elem_of_nil.
  - by intros h h' p p'; rewrite lookup_empty.
  - by intros h p; rewrite lookup_empty.
  - by intros a b Hab%elem_of_nil.
Qed.

Lemma then_return_does {A} tid (p : run A) f :
  does float_of sha256 authoring_kinds tid (fun _ => True) p (fun _ _ => True) -> (forall r w, returns (f r) w) ->
  triple system (safe_world sha256) (knows sha256) tid (fun _ => True) (then_return p f) returns.
Proof.
  intros Hp Hf. apply (triple_bind _ _ _ _ _ _ _ (fun _ _ => True)); [|intros r; by apply triple_ret].
  eapply triple_conseq; [exact Hp|done|done].
Qed.

Lemma harmless_does {A} tid (p : run A) : harmless p -> does float_of sha256 authoring_kinds tid (fun _ => True) p (fun _ _ => True).
Proof. intros H. apply (does_harmless _ _ _ _ (fun _ => True)); [done|apply stable_true]. Qed.

Lemma entry_safe tid p : entry p -> triple system (safe_world sha256) (knows sha256) tid (fun _ => True) p returns.
Proof.
  intros (e & Hg & ->). destruct e as [ex rq|ex rq|pv rq|pv a|pr au rq|root a producer life principal profile|root git a attempt q s|a kind];
    cbn [program_of]; try (apply then_return_does; [|done]).
  - destruct Hg as (Hf & Hex & Hrq). apply (triple_bind system (safe_world sha256) (knows sha256) tid _ (execute float_repr float_of sha256 k ex (Some rq)) _ (fun r (w : state) => match r with Ok p => answer_of sha256 k rq p w | Err _ => True end)).
    + exact (execute_does float_repr float_of sha256 k tid ex rq Hf Hex Hrq).
    + intros r. apply triple_ret. intros w H. by destruct r.
  - apply inspect_does.
  - apply handoff_does.
  - apply harmless_does, harmless_handoff_for.
  - apply harmless_does, harmless_credential.
  - apply attest_does.
  - apply harmless_does, harmless_external.
  - apply effect_does.
Qed.

Lemma kernel_world w w' : safe_world sha256 w -> kernel w w' -> safe_world sha256 w' /\ forall tid, knows sha256 tid w w'.
Proof. exact (kernel_safe float_of sha256 w w'). Qed.

Lemma reaches_ok c : reaches c -> safe_world sha256 c.2.
Proof.
  apply (reachable_ok system (safe_world sha256) (knows sha256) entry at_rest returns);
    [apply at_rest_safe|apply entry_safe|apply kernel_world|intros tid w; apply gone_others].
Qed.

(** C11: The command of an operation is started at most once, however many calls execute,
    inspect or retry it at the same time and wherever any of them, or the service, stops. *)
Theorem command_started_once c : reaches c -> NoDup (w_started c.2).
Proof. intros Hc. by destruct (ok_started _ _ (reaches_ok c Hc)). Qed.

(** C13: All successful executions of one request report the same observation and the same
    receipt: the one that ran the command, and any that answers from its journal. *)
Theorem executions_agree c t1 t2 rq op1 op2 o1 o2 r1 r2 :
  reaches c ->
  c.1 !! t1 = Some (Ret (Executed rq (Ok (Observed op1 o1 r1)))) -> c.1 !! t2 = Some (Ret (Executed rq (Ok (Observed op2 o2 r2)))) ->
  o1 = o2 /\ r1 = r2.
Proof.
  intros Hc H1 H2. assert (forall tid a, c.1 !! tid = Some (Ret a) -> returns a c.2) as Hr.
  { intros tid a. apply (reachable_returned system (safe_world sha256) (knows sha256) entry at_rest returns);
      [apply at_rest_safe|apply entry_safe|apply kernel_world|intros t w; apply gone_others|done]. }
  destruct (Hr _ _ H1) as (s1 & d1 & Hs1 & Hd1 & _ & Ho1 & Hr1), (Hr _ _ H2) as (s2 & d2 & Hs2 & Hd2 & _ & Ho2 & Hr2).
  assert (s1 = s2) as <- by congruence. assert (d1 = d2) as <- by congruence. split; congruence.
Qed.

(** C12: Once an attempt is handed off, or its producer is attested as completed, no command
    of it is running, waiting to run or ever started again, and no authoring effect on Git
    is ever made for an attempt that was handed off. *)
Theorem nothing_after_handoff c c' a h p :
  reaches c -> fenced sha256 c.2 a -> rtc step c c' ->
  (w_procs c'.2 !! h = Some p -> p_attempt p = a -> p_stage p = Over) /\ (a, true) ∉ w_effects c'.2.
Proof.
  intros Hc Hf Hs. assert (reaches c') as Hc'.
  { destruct Hc as (w & Hw & Hr). exists w. split; [done|]. by etrans. }
  assert (fenced sha256 c'.2 a) as Hf'.
  { eapply (reachable_mono system (safe_world sha256) (knows sha256) entry at_rest returns at_rest_safe entry_safe kernel_world
      (fun tid w H => gone_others _ _ _ tid w H) (fun w w' => fenced sha256 w a -> fenced sha256 w' a)); [done|by auto| |exact Hc|exact Hs|done].
    intros tid w w' Hk. apply (k_fenced _ _ _ _ Hk). }
  apply reaches_ok in Hc'. split.
  - intros Hp <-. destruct (decide (p_stage p = Over)) as [|Ha]; [done|]. by destruct (ok_fence _ _ Hc' h p Hp Ha).
  - intros Hin. by apply (ok_effects _ _ Hc') in Hin.
Qed.
End Proofs.
End Runs.

End CommandRuns.

(** * A host that answers: a command run, replayed and fenced

    [answer_as]: a host that grants what it is asked, one answer for each call; [drive] runs
    a program against it.  A command is executed, its journal answers a second execution,
    and the attempt is handed off; the theorems of CommandRuns are applied to that run. *)

From Stdlib Require Import Ascii ZArith SpecFloat.
From stdpp Require Import relations.
From S2P Require Import Prelude PyValue Text Json Journal BearerStore Program Commands CommandSafety Handoff Attest CommandProps.
Import Journal BearerStore Commands CommandSafety Handoff Attest CommandRuns.

#[local] Open Scope string_scope.
#[local] Open Scope Z_scope.
#[local] Open Scope list_scope.

(** ** Contracts *)

Definition a_text (v : pyval) : result string := match v with PStr s => Ok s | _ => Err (TypeError "str expected") end.

Fixpoint ticks (n : nat) : string := match n with O => "" | S n => String "t"%char (ticks n) end.
Fixpoint count_ticks (s : string) : nat := match s with EmptyString => O | String _ s => S (count_ticks s) end.

Definition a_time (m : moment) : string :=
  String (if mo_aware m then "z"%char else "n"%char) (String (if mo_time m <? 0 then "-"%char else "+"%char) (ticks (Z.abs_nat (mo_time m)))).

Definition read_time (v : pyval) : result moment :=
  match v with
  | PStr (String z (String sign s)) =>
      let n := Z.of_nat (count_ticks s) in
      Ok {| mo_time := if Ascii.eqb sign "-"%char then - n else n; mo_aware := Ascii.eqb z "z"%char |}
  | _ => Err (ValueError "isoformat")
  end.

Definition the_contracts : contracts := {|
  StableId := a_text; Sha256Digest := a_text;
  ProviderIdentity := fun p v c => Ok {| id_provider := p; id_version := v; id_contract := c |};
  CommandObservation := fun o => Ok o; ProviderReceipt := fun r => Ok r;
  provider_request_digest := cr_operation; fromisoformat := read_time; isoformat := a_time
|}.

Lemma count_all n : count_ticks (ticks n) = n.
Proof. induction n as [|n IH]; [done|]. cbn. by rewrite IH. Qed.

#[export] Instance the_laws : ContractLaws the_contracts.
Proof.
  split; cbn.
  - intros v s. destruct v; cbn; congruence.
  - intros v s. destruct v; cbn; congruence.
  - congruence.
  - congruence.
  - intros [t aware]. unfold a_time. cbn [mo_time mo_aware]. cbn [read_time]. rewrite count_all. f_equal.
    destruct (Z.ltb_spec t 0), aware; cbn [Ascii.eqb Bool.eqb]; f_equal; lia.
Qed.

(** ** The host *)

Definition no_floats (f : spec_float) : string := "0.0".
Definition no_float (s : string) : spec_float := S754_zero false.
Definition no_hash (s : string) : string := s.

Definition good_report : string :=
  json_ascii no_floats "," ":" (PDict [("protocol", PStr _COMMAND_SUPERVISOR_PROTOCOL); ("version", PInt 1); ("state", PStr "completed");
    ("exit_code", PInt 0); ("timed_out", PBool false); ("tree_quiescent", PBool true); ("reason", PNone);
    ("stdout_digest", PStr (String.concat "" (repeat "0123456789abcdef" 4))); ("stderr_digest", PStr (String.concat "" (repeat "fedcba9876543210" 4)))]).

Definition noon : moment := {| mo_time := 5; mo_aware := true |}.

Definition answer_as (tid : nat) (c : host_call) (w : state) : option (host_answer c * state) :=
  match c return option (host_answer c * state) with
  | Acquire l => match w_locks w !! l with None => Some (Ok tt, with_locks <[l := tid]> w) | Some _ => None end
  | Release l => Some (tt, released tid l w)
  | ReadFile f => Some (w_files w !! f, w)
  | WriteFile f d size => Some (Ok tt, with_files <[f := written d size]> w)
  | ListJournal => Some (Entries (omap (fun fs => match fs.1 with CommandRecord t => Some (JournalRecord t) | _ => None end) (map_to_list (w_files w))), w)
  | EnsurePrivate _ => Some (Ok tt, w)
  | JournalIsPrivate => Some (Ok true, w)
  | Now => Some (noon, w)
  | Environ _ => Some (None, w)
  | HomePath => Some (Ok ["home"], w)
  | TempDir => Some (Ok ["tmp"], w)
  | RuntimePrefix => Some ("/usr", w)
  | RepositoryRoot => Some (Ok None, w)
  | WorkspacePath id => Some (Ok ["work"; id], w)
  | WorkspaceRoot => Some (Ok ["work"], w)
  | WorkspaceSource _ => Some (Ok "source", w)
  | ResolveDirectory p _ => Some (Ok (p, true), w)
  | Pipe => Some (Ok tt, w)
  | Popen rq _ _ =>
      let h := size (w_procs w) in
      match w_procs w !! h with
      | None => Some (Ok (h, 100), with_procs <[h := {| p_token := no_hash (cr_operation rq); p_attempt := cr_attempt rq; p_stage := Waiting |}]> w)
      | Some _ => None
      end
  | ReadProc _ => Some (ProcText "100 (python) S 1 2 3 4 5 6 7 8 9 10 11 12 13 14 15 16 17 18 777", w)
  | Poll _ => Some (None, w)
  | KillGroup _ => Some (Killed, w)
  | Kill _ => Some (tt, w)
  | Wait h _ => Some (Some 0, moved h Waiting Over w)
  | CloseStdin _ => Some (tt, w)
  | SendRequest h _ => Some (Ok tt, moved h Waiting Asked w)
  | JoinReaders _ => Some (false, w)
  | ReadReport h =>
      match w_procs w !! h with
      | Some p => if decide (p_stage p = Over) then Some (Ok good_report, w) else None
      | None => None
      end
  | WorkspaceHead _ => Some (Ok "c0ffee", w)
  | WorkspaceState _ _ => Some (Ok (true, "d1"), w)
  | TreeDigest _ => Some (Ok "d1", w)
  | GitText arguments _ => Some (Ok (match arguments with [_; _; r] => if String.prefix "refs/" r then "c0ffee" else "beef" | _ => "" end), w)
  | UpdateRef _ _ => Some (Ok 0, w)
  | Owners _ => Some (Rows (PList []), w)
  | Children _ => Some (Ok ChildNone, w)
  | RandomToken => Some ("token", w)
  | _ => None
  end.

Section Drive.
#[local] Abbreviation sys := (commands no_float no_hash authoring_kinds).

Lemma answer_allowed tid c w r w' : answer_as tid c w = Some (r, w') -> host_does no_float no_hash authoring_kinds tid c w r w'.
Proof.
  destruct c; cbn; intros H; try discriminate; try (by injection H as <- <-); try (by injection H as <- <-; left).
  - destruct (w_locks w !! l) eqn:Hl; [discriminate|]. injection H as <- <-. by left.
  - injection H as <- <-. split; [|done]. right. intros t [s Hs]. apply list_elem_of_omap. exists (CommandRecord t, s). split; [|done].
    by apply elem_of_map_to_list.
  - destruct (w_procs w !! size (w_procs w)) eqn:Hh; [discriminate|]. injection H as <- <-. right. by eexists _, _.
  - injection H as <- <-. by right.
  - destruct (w_procs w !! h) as [p|] eqn:Hp; [|discriminate]. destruct (decide _) as [Ho|]; [|discriminate]. injection H as <- <-.
    split; [done|]. intros text _ _ p' Hp'. congruence.
Qed.

(** The supervisor of a process runs its command to the end. *)
Definition finish (h : nat) (w : state) : state :=
  match w_procs w !! h with
  | Some p =>
      if decide (p_stage p = Asked) then
        {| w_locks := w_locks w; w_files := w_files w; w_procs := <[h := at_stage p Over]> (<[h := at_stage p Running]> (w_procs w));
           w_started := p_token p :: w_started w; w_effects := w_effects w |}
      else w
  | None => w
  end.

Lemma finish_kernel h w : rtc kernel w (finish h w).
Proof.
  unfold finish. destruct (w_procs w !! h) as [p|] eqn:Hp; [|done]. destruct (decide _) as [Hs|]; [|done].
  eapply rtc_l; [apply (kernel_step w h p Running Hp); rewrite Hs; constructor|]. apply rtc_once.
  exact (kernel_step {| w_locks := w_locks w; w_files := w_files w; w_procs := <[h := at_stage p Running]> (w_procs w);
    w_started := p_token p :: w_started w; w_effects := w_effects w |} h (at_stage p Running) Over (lookup_insert_eq _ _ _) running_over).
Qed.

Definition before (c : host_call) (w : state) : state := match c with Wait h _ => finish h w | _ => w end.

Fixpoint drive (fuel : nat) (tid : nat) (p : prog host returned) (w : state) : option (returned * state) :=
  match fuel, p with
  | _, Ret a => Some (a, w)
  | S fuel, Call c k => match answer_as tid c (before c w) with Some (r, w') => drive fuel tid (k r) w' | None => None end
  | O, _ => None
  end.

Context (entry : prog host returned -> Prop).

Lemma kernels_step (ts : gmap nat (prog host returned)) w w' : rtc kernel w w' -> rtc (step sys entry) (ts, w) (ts, w').
Proof. induction 1 as [|w w1 w2 H _ IH]; [done|]. eapply rtc_l; [by apply (step_world sys)|done]. Qed.

Lemma drive_sound fuel tid p ts w a w' :
  drive fuel tid p w = Some (a, w') -> rtc (step sys entry) (<[tid := p]> ts, w) (<[tid := Ret a]> ts, w').
Proof.
  revert p w. induction fuel as [|fuel IH]; intros [b|c k] w H; cbn in H; try discriminate; try (by injection H as <- <-).
  destruct (answer_as tid c (before c w)) as [[r w1]|] eqn:Ha; [|discriminate].
  etrans; [apply (kernels_step _ w (before c w)); destruct c; try done; apply finish_kernel|].
  eapply rtc_l.
  - apply (step_call sys entry tid c k r); [by rewrite lookup_insert_eq|]. by apply answer_allowed.
  - rewrite insert_insert_eq. by apply IH.
Qed.
End Drive.

(** ** A run *)

Definition the_identity : identity := {| id_provider := "host"; id_version := PInt 1; id_contract := PInt 1 |}.
Definition the_executor : executor := {| ex_project := "p"; ex_identity := the_identity; ex_attestations := true; ex_handoff := true |}.
Definition the_request : command_request :=
  {| cr_operation := "op"; cr_attempt := "a"; cr_project := "p"; cr_argv := ["true"]; cr_timeout_ms := 1000; cr_cwd := None;
     cr_workspace := Some "w1"; cr_source := "source" |}.

Definition the_attempt : entity_ref := {| en_project := "p"; en_kind := "attempt"; en_id := "a"; en_definition := None; en_incarnation := None |}.
Definition the_provider : provider := {| pv_project := "p"; pv_authority := "auth"; pv_identity := the_identity |}.
Definition the_handoff : handoff_request :=
  {| hq_project := Some "p"; hq_authority := Some "auth"; hq_attempt := Some the_attempt; hq_lease := Some "l"; hq_workspace := Some "w1"; hq_key := Some "k" |}.

Definition no_repr (v : pyval) : string := "".
Definition no_request (q : proof_request) : string := "r".
Definition no_handoff (q : proof_request) (commit tree digest : string) : string := "h".

Definition the_program : entry_point -> prog host returned := program_of no_floats no_float no_hash the_contracts no_repr no_request no_handoff Ok.

Definition outcome (tid : nat) (e : entry_point) (w : state) : returned * state := default (Answered, w) (drive 200 tid (the_program e) w).

Definition nothing : state := {| w_locks := ∅; w_files := ∅; w_procs := ∅; w_started := []; w_effects := [] |}.
(** Another command of the attempt, after the hand-off. *)
Definition late_request : command_request :=
  {| cr_operation := "late"; cr_attempt := "a"; cr_project := "p"; cr_argv := ["true"]; cr_timeout_ms := 1000; cr_cwd := None;
     cr_workspace := Some "w1"; cr_source := "source" |}.

#[local] Abbreviation calls := (config (A := returned) (commands no_float no_hash authoring_kinds)).
#[local] Abbreviation the_step := (step (commands no_float no_hash authoring_kinds) (entry no_floats no_float no_hash the_contracts no_repr no_request no_handoff Ok)).
Definition c0 : calls := (∅, nothing).
Definition extend (tid : nat) (o : returned * state) (c : calls) :
  calls := (<[tid := Ret o.1]> c.1, o.2).
Definition visited (tid : nat) (e : entry_point) (c : calls) : calls := extend tid (outcome tid e c.2) c.

Definition executing : entry_point := CallExecute the_executor the_request.
Definition c1 := visited 0 executing c0.
Definition c2 := visited 1 executing c1.
Definition c3 := visited 2 (CallHandoff the_provider (Some the_handoff)) c2.
Definition c4 := visited 3 (CallExecute the_executor late_request) c3.
Definition the_answer (tid : nat) (c : calls) : option returned := match c.1 !! tid with Some (Ret a) => Some a | _ => None end.

Lemma visit tid e (c : calls) :
  good_entry the_contracts e -> c.1 !! tid = None ->
  match drive 200 tid (the_program e) c.2 with Some _ => true | None => false end = true -> rtc the_step c (visited tid e c).
Proof.
  destruct c as [ts w]. intros He Ht Hd. cbn [fst snd] in *. eapply rtc_l; [apply step_start; [exact Ht|]; by exists e|].
  unfold visited, extend, outcome. cbn [fst snd]. destruct (drive 200 tid _ w) as [[a w']|] eqn:E; [|discriminate]. by eapply drive_sound.
Qed.

Lemma request_good op : good_entry the_contracts (CallExecute the_executor {| cr_operation := op; cr_attempt := "a"; cr_project := "p";
  cr_argv := ["true"]; cr_timeout_ms := 1000; cr_cwd := None; cr_workspace := Some "w1"; cr_source := "source" |}).
Proof. by repeat split. Qed.

Ltac visit := refine (visit _ _ _ _ _ _); [try exact (request_good _); exact I|reflexivity|vm_compute; reflexivity].

Lemma run1 : rtc the_step c0 c1.
Proof. visit. Qed.
Lemma run2 : rtc the_step c1 c2.
Proof. visit. Qed.
Lemma run3 : rtc the_step c2 c3.
Proof. visit. Qed.
Lemma run4 : rtc the_step c3 c4.
Proof. visit. Qed.

#[local] Abbreviation reached := (reaches no_floats no_float no_hash the_contracts no_repr no_request no_handoff Ok).

Lemma reached2 : reached c2.
Proof. exists nothing. split; [by repeat split|]. etrans; [exact run1|exact run2]. Qed.
Lemma reached3 : reached c3.
Proof. exists nothing. split; [by repeat split|]. etrans; [exact run1|]. etrans; [exact run2|exact run3]. Qed.

Definition the_observation : observation := {|
  ob_operation := "op"; ob_exit_code := PInt 0; ob_timed_out := PBool false; ob_started := noon; ob_completed := noon;
  ob_stdout := Some (String.concat "" (repeat "0123456789abcdef" 4)); ob_stderr := Some (String.concat "" (repeat "fedcba9876543210" 4)) |}.
Definition the_receipt : receipt := {|
  rc_id := "pc-command-opop"; rc_provider := the_identity; rc_correlation := "op"; rc_request := "op"; rc_provenance := "op"; rc_observed := noon |}.

Definition observed : returned := Executed the_request (Ok (Observed "op" the_observation the_receipt)).

Lemma answers : the_answer 0 c2 = Some observed /\ the_answer 1 c2 = Some observed.
Proof. split; vm_compute; reflexivity. Qed.

Lemma answer_returned tid c a : the_answer tid c = Some a -> c.1 !! tid = Some (Ret a).
Proof. unfold the_answer. destruct (c.1 !! tid) as [[b|call f]|]; intros H; [by injection H as ->|discriminate..]. Qed.

(** The command runs once, and the second execution is answered from the journal. *)
Lemma command_started_once_witness : w_started c2.2 = ["op"] /\ NoDup (w_started c2.2).
Proof. split; [vm_compute; reflexivity|]. exact (command_started_once _ _ _ _ _ _ _ _ c2 reached2). Defined.

Lemma executions_agree_witness : the_observation = the_observation /\ the_receipt = the_receipt.
Proof.
  apply (executions_agree no_floats no_float no_hash the_contracts no_repr no_request no_handoff Ok c2 0 1 the_request "op" "op"); [exact reached2| |];
    apply answer_returned; [exact (proj1 answers)|exact (proj2 answers)].
Defined.

(** The attempt is handed off; its next command is refused. *)
Lemma nothing_after_handoff_witness :
  the_answer 3 c4 = Some (Executed late_request (Ok (Unavailable "late" "attempt_authoring_handed_off"))) /\ ("a", true) ∉ w_effects c4.2.
Proof.
  split; [vm_compute; reflexivity|].
  apply (nothing_after_handoff no_floats no_float no_hash the_contracts no_repr no_request no_handoff Ok c3 c4 "a" 0
    {| p_token := "op"; p_attempt := "a"; p_stage := Over |}); [exact reached3| |exact run4].
  eexists. split; [left; vm_compute; reflexivity|]. eexists. by split.
Defined.
