(* ===== verification/Sandbox.v ===== *)
(** * The sandbox of an authored command (native_command_supervisor.py)

    [_sandbox_command]: the bubblewrap invocation of one request, as a function of what the
    file system answers ([filesystem]), and what it lets the command see.  Paths are the
    components pathlib keeps: a leading double slash is read as one. *)

From Stdlib Require Import ZArith.
From S2P Require Import Prelude PyValue Text Commands.
Import Commands.

#[local] Open Scope string_scope.
#[local] Open Scope Z_scope.
#[local] Open Scope list_scope.

Module Sandbox.

(** FileNotFoundError with its text, or an OSError, ValueError, KeyError or TypeError. *)
Inductive refusal := FileNotFound (text : string) | Invalid.

#[export] Instance refusal_ret : MRet (sum refusal) := fun A a => inr a.
#[export] Instance refusal_bind : MBind (sum refusal) := fun A B f r => match r with inl e => inl e | inr a => f a end.

Definition refuse_if (b : bool) (r : refusal) : refusal + unit := if b then inl r else inr tt.
Definition found {A} (o : option A) (text : string) : refusal + A := match o with Some a => inr a | None => inl (FileNotFound text) end.

(** ** Paths *)

(** Path(s): whether it is absolute, and its components. *)
Definition py_path (s : string) : bool * list string :=
  (starts_with "/" s, List.filter (fun c => negb (String.eqb c "" || String.eqb c ".")) (split_on (Ascii.ascii_of_nat 47) s)).

(** os.path.abspath of an absolute path. *)
Definition abspath (p : path) : path :=
  rev (fold_left (fun up c => if String.eqb c ".." then tail up else c :: up) p []).

Definition usr : path := ["usr"].

(** "path.relative_to(root)" does not raise. *)
Definition _path_is_within (p root : path) : bool := bool_decide (root `prefix_of` p).

(** The proper prefixes of a path, the shortest first: "reversed(path.parents)". *)
Definition ancestors (p : path) : list path := map (fun n => take n p) (seq 0 (length p)).

(** ** The request *)

(** What the outer supervisor is told besides; None: these keys are missing. *)
Record location := { lo_workspace : string; lo_cwd : string; lo_prefix : string; lo_repository : option string }.
Record sandbox_request := { sr_argv : list string; sr_timeout_ms : Z; sr_cleanup_ms : Z; sr_place : option location }.

(** The answers of the file system, strict resolution included, and of the interpreter. *)
Record filesystem := {
  fs_which : string -> string -> option string;
  fs_resolve : bool * list string -> refusal + path;
  fs_is_dir : path -> bool; fs_is_file : path -> bool; fs_executable : path -> bool;
  fs_cwd : path; fs_file : string; fs_python : string
}.

(** ** Directories for the mounts *)

(** An argument list under construction: options with their operands, and what exists. *)
Definition options : Type := list (list string).

Definition add_directory (p : path) (acc : options * list path) : options * list path :=
  (acc.1 ++ [["--dir"; path_text p]], p :: acc.2).

(** A parent that needs no placeholder. *)
Definition provided (created : list path) (p : path) : bool :=
  bool_decide (p = []) || bool_decide (p = usr) || bool_decide (p ∈ created) || _path_is_within p usr
  || bool_decide (p ∈ [["home"]; ["tmp"]; ["run"]]).

Definition add_parent (acc : options * list path) (parent : path) : options * list path :=
  if provided acc.2 parent then acc else add_directory parent acc.

Definition _add_destination_directories (destination : path) (include_leaf : bool) (acc : options * list path) : options * list path :=
  let p := abspath destination in
  let acc := fold_left add_parent (ancestors p) acc in
  if include_leaf && negb (bool_decide (p = [])) && negb (bool_decide (p ∈ acc.2)) && negb (_path_is_within p usr)
  then add_directory p acc else acc.

(** ** The invocation *)

Section Command.
Context (fs : filesystem).

(** The executable of the request: its path here, and its resolution. *)
Definition host_command (prefix : path) (name : string) : refusal + path :=
  let '(absolute, parts) := py_path name in
  if absolute then inr parts
  else if any_char (fun c => (code c =? 47)%nat) name then inr (fs_cwd fs ++ parts)
  else
    let trusted := path_text (prefix ++ ["bin"]) +:+ ":/usr/local/bin:/usr/bin:/bin" in
    exe ← found (fs_which fs name trusted) "authored command executable is unavailable"; inr (py_path exe).2.

(** The name the executable has inside, which the invocation does not use. *)
Definition inside_name (command executable prefix source workspace : path) : refusal + string :=
  if _path_is_within command prefix then inr (path_text command)
  else if _path_is_within executable source then inr (path_text (prefix ++ drop (length source) executable))
  else if _path_is_within executable usr || _path_is_within executable workspace then inr (path_text executable)
  else inl (FileNotFound "authored command executable is outside trusted mounts").

Definition base_options (prefix : path) : options :=
  [["--die-with-parent"]; ["--unshare-all"]; ["--unshare-user"]; ["--new-session"]; ["--cap-drop"; "ALL"]; ["--disable-userns"];
   ["--assert-userns-disabled"]; ["--ro-bind"; "/usr"; "/usr"]; ["--symlink"; "usr/bin"; "/bin"]; ["--symlink"; "usr/lib"; "/lib"];
   ["--symlink"; "usr/lib64"; "/lib64"]; ["--symlink"; "usr/sbin"; "/sbin"]; ["--proc"; "/proc"]; ["--dev"; "/dev"];
   ["--tmpfs"; "/tmp"]; ["--tmpfs"; "/run"]; ["--tmpfs"; "/home"]; ["--dir"; "/home/todo"]; ["--dir"; "/run/todo"]; ["--clearenv"];
   ["--setenv"; "HOME"; "/home/todo"];
   ["--setenv"; "PATH"; "/usr/local/sbin:/usr/local/bin:/usr/sbin:/usr/bin:/sbin:/bin:" +:+ path_text (prefix ++ ["bin"])];
   ["--setenv"; "LANG"; "C"]; ["--setenv"; "LC_ALL"; "C"]; ["--setenv"; "TMPDIR"; "/tmp"];
   ["--setenv"; "XDG_CONFIG_HOME"; "/tmp/xdg-config"]; ["--setenv"; "XDG_CACHE_HOME"; "/tmp/xdg-cache"];
   ["--setenv"; "XDG_DATA_HOME"; "/tmp/xdg-data"]; ["--setenv"; "XDG_STATE_HOME"; "/tmp/xdg-state"];
   ["--setenv"; "XDG_RUNTIME_DIR"; "/run/todo"]; ["--setenv"; "PYTHONNOUSERSITE"; "1"]; ["--setenv"; "PYTHONDONTWRITEBYTECODE"; "1"]].

(** The runtime prefix, unless /usr has it. *)
Definition runtime_mount (prefix source : path) (acc : options * list path) : options * list path :=
  if _path_is_within source usr then acc
  else let '(o, created) := _add_destination_directories prefix true acc in (o ++ [["--ro-bind"; path_text source; path_text prefix]], created).

(** This module, unless a mount has it. *)
Definition helper_mount (helper source workspace : path) (acc : options * list path) : options * list path :=
  if _path_is_within helper usr || _path_is_within helper source || _path_is_within helper workspace then acc
  else let '(o, created) := _add_destination_directories helper false acc in (o ++ [["--ro-bind"; path_text helper; path_text helper]], created).

Definition sandbox_options (prefix source helper workspace cwd : path) : options :=
  let acc := (base_options prefix, [["home"; "todo"]; ["run"; "todo"]]) in
  let acc := helper_mount helper source workspace (runtime_mount prefix source acc) in
  let '(o, _) := _add_destination_directories workspace true acc in
  o ++ [["--bind"; path_text workspace; path_text workspace]; ["--chdir"; path_text cwd]].

(** The repository and the workspace are under no directory that is mounted read-only. *)
Definition placed (workspace cwd source : path) (repository : option path) : bool :=
  fs_is_dir fs workspace && fs_is_dir fs cwd && _path_is_within cwd workspace
  && negb (match repository with Some r => _path_is_within r usr || _path_is_within r source | None => false end)
  && negb (_path_is_within workspace source || _path_is_within workspace usr).

Definition _sandbox_command (rq : sandbox_request) : refusal + list string :=
  bwrap ← found (fs_which fs "bwrap" "/usr/local/bin:/usr/bin:/bin") "bubblewrap is unavailable";
  match sr_place rq with
  | None => inl Invalid
  | Some lo =>
      workspace ← fs_resolve fs (py_path (lo_workspace lo)); cwd ← fs_resolve fs (py_path (lo_cwd lo));
      let '(absolute, prefix) := py_path (lo_prefix lo) in
      _ ← refuse_if (negb absolute) Invalid;
      source ← fs_resolve fs (true, prefix); helper ← fs_resolve fs (py_path (fs_file fs));
      repository ← match lo_repository lo with None => inr None | Some r => r ← fs_resolve fs (py_path r); inr (Some r) end;
      _ ← refuse_if (negb (placed workspace cwd source repository)) Invalid;
      command ← host_command prefix (default "" (head (sr_argv rq)));
      executable ← fs_resolve fs (true, command);
      _ ← refuse_if (negb (fs_is_file fs executable && fs_executable fs executable)) Invalid;
      _ ← inside_name command executable prefix source workspace;
      inr (bwrap :: concat (sandbox_options prefix source helper workspace cwd)
             ++ ["--"; fs_python fs; "-S"; path_text helper; "--sandbox"])
  end.

End Command.

(** ** What bubblewrap makes of its arguments *)

(** The operands of an option that its documentation lists; None: one that is not read here,
    so that no argument list with it is read. *)
Definition operands (o : string) : option nat :=
  if bool_decide (o ∈ ["--ro-bind"; "--ro-bind-try"; "--bind"; "--bind-try"; "--dev-bind"; "--dev-bind-try"; "--symlink"; "--setenv"])
  then Some 2%nat
  else if bool_decide (o ∈ ["--proc"; "--dev"; "--tmpfs"; "--dir"; "--chdir"; "--cap-drop"]) then Some 1%nat
  else if bool_decide (o ∈ ["--die-with-parent"; "--unshare-all"; "--unshare-user"; "--new-session"; "--disable-userns";
                            "--assert-userns-disabled"; "--clearenv"]) then Some 0%nat
  else None.

(** The options of an argument list, each with its operands, and the command after them. *)
Fixpoint read_options (l : list string) : option (options * list string) :=
  match l with
  | [] => None
  | o :: l =>
      if String.eqb o "--" then Some ([], l) else
      match operands o, l with
      | Some 2%nat, a :: b :: l => '(os, command) ← read_options l; Some ([o; a; b] :: os, command)
      | Some 1%nat, a :: l => '(os, command) ← read_options l; Some ([o; a] :: os, command)
      | Some 0%nat, l => '(os, command) ← read_options l; Some ([o] :: os, command)
      | _, _ => None
      end
  end.

(** A part of the host that the sandbox shows. *)
Inductive mount := ReadOnly (source target : string) | Writable (source target : string) | Devices (source target : string).

Definition host_mount (o : list string) : option mount :=
  match o with
  | [name; a; b] =>
      if bool_decide (name ∈ ["--ro-bind"; "--ro-bind-try"]) then Some (ReadOnly a b)
      else if bool_decide (name ∈ ["--bind"; "--bind-try"]) then Some (Writable a b)
      else if bool_decide (name ∈ ["--dev-bind"; "--dev-bind-try"]) then Some (Devices a b)
      else None
  | _ => None
  end.

(** A file system of the sandbox's own. *)
Definition fresh_mount (o : list string) : option (string * string) :=
  match o with [name; p] => if bool_decide (name ∈ ["--proc"; "--dev"; "--tmpfs"]) then Some (name, p) else None | _ => None end.

(** An option with its operands. *)
Definition well_formed (o : list string) : Prop :=
  match o with name :: l => name <> "--" /\ operands name = Some (length l) | [] => False end.

Lemma operands_bound o n : operands o = Some n -> (n <= 2)%nat.
Proof. unfold operands. intros H. repeat case_bool_decide; simplify_eq; lia. Qed.

Lemma read_group o l : well_formed o -> read_options (o ++ l) = '(os, command) ← read_options l; Some (o :: os, command).
Proof.
  destruct o as [|name args]; [done|]. intros [Hn Ha]. cbn [app read_options]. destruct (String.eqb_spec name "--"); [done|].
  rewrite Ha. apply operands_bound in Ha. destruct args as [|a [|b [|c args]]]; cbn [length app] in *; [done..|lia].
Qed.

Lemma read_groups (os : options) command : Forall well_formed os -> read_options (concat os ++ "--" :: command) = Some (os, command).
Proof.
  induction 1 as [|o os Ho _ IH]; [done|]. cbn [concat]. by rewrite <-app_assoc, read_group, IH.
Qed.

(** *** The options of this module *)

Definition is_directory (o : list string) : Prop := exists p, o = ["--dir"; path_text p].

(** Directories are appended. *)
Definition grows (acc acc' : options * list path) : Prop := exists os, acc'.1 = acc.1 ++ os /\ Forall is_directory os.

Lemma grows_refl acc : grows acc acc.
Proof. exists []. by rewrite app_nil_r. Qed.

Lemma grows_trans acc1 acc2 acc3 : grows acc1 acc2 -> grows acc2 acc3 -> grows acc1 acc3.
Proof.
  intros (o1 & H1 & F1) (o2 & H2 & F2). exists (o1 ++ o2). rewrite H2, H1, app_assoc. split; [done|]. by apply Forall_app.
Qed.

Lemma grows_add p acc : grows acc (add_directory p acc).
Proof. exists [["--dir"; path_text p]]. split; [done|]. constructor; [by exists p|constructor]. Qed.

Lemma fold_grows (f : options * list path -> path -> options * list path) ps acc :
  (forall acc p, grows acc (f acc p)) -> grows acc (fold_left f ps acc).
Proof. intros Hf. revert acc. induction ps as [|p ps IH]; intros acc; [apply grows_refl|]. eapply grows_trans; [apply Hf|apply IH]. Qed.

Lemma add_directories_grow destination leaf acc : grows acc (_add_destination_directories destination leaf acc).
Proof.
  unfold _add_destination_directories. cbv zeta. eapply grows_trans; [apply (fold_grows add_parent)|].
  - intros a p. unfold add_parent. destruct (provided a.2 p); [apply grows_refl|apply grows_add].
  - match goal with |- grows _ (if ?b then _ else _) => destruct b end; [apply grows_add|apply grows_refl].
Qed.

Lemma directories_mount os : Forall is_directory os -> Forall well_formed os /\ omap host_mount os = [] /\ omap fresh_mount os = [].
Proof.
  induction 1 as [|o os [p ->] _ (IH1 & IH2 & IH3)]; [done|]. cbn. rewrite IH2, IH3. split_and!; [by constructor|done..].
Qed.

(** Options that show the host's [sources] read-only and mount the [fresh] file systems. *)
Definition mounting (sources : list string) (fresh : list (string * string)) (os : options) : Prop :=
  Forall well_formed os /\ Forall (fun m => exists s d, m = ReadOnly s d /\ s ∈ sources) (omap host_mount os) /\ omap fresh_mount os = fresh.

Lemma mounting_app sources fresh fresh' os os' : mounting sources fresh os -> mounting sources fresh' os' -> mounting sources (fresh ++ fresh') (os ++ os').
Proof.
  intros (H1 & H2 & <-) (H1' & H2' & <-). unfold mounting. rewrite !omap_app, !Forall_app. done.
Qed.

Lemma mounting_grows sources fresh acc acc' : grows acc acc' -> mounting sources fresh acc.1 -> mounting sources fresh acc'.1.
Proof.
  intros (os & -> & (H1 & H2 & H3)%directories_mount) Hm. rewrite <-(app_nil_r fresh). apply mounting_app; [done|]. unfold mounting. by rewrite H2, H3.
Qed.

Lemma mounting_bind sources fresh s d os : s ∈ sources -> mounting sources fresh os -> mounting sources fresh (os ++ [["--ro-bind"; s; d]]).
Proof.
  intros Hs Hm. rewrite <-(app_nil_r fresh). apply mounting_app; [done|]. split_and!; [by repeat constructor| |done].
  constructor; [by eexists _, _|constructor].
Qed.

(** The file systems of a sandbox's own. *)
Definition own_mounts : list (string * string) :=
  [("--proc", "/proc"); ("--dev", "/dev"); ("--tmpfs", "/tmp"); ("--tmpfs", "/run"); ("--tmpfs", "/home")].

Section Mounts.
Context (prefix source helper workspace cwd : path).
#[local] Abbreviation sources := ["/usr"; path_text source; path_text helper].

Lemma base_mounting : mounting sources own_mounts (base_options prefix).
Proof.
  split_and!; [by repeat constructor| |reflexivity].
  change (omap host_mount (base_options prefix)) with [ReadOnly "/usr" "/usr"].
  constructor; [|constructor]. eexists _, _. split; [reflexivity|]. by left.
Qed.

Lemma runtime_mounting acc : mounting sources own_mounts acc.1 -> mounting sources own_mounts (runtime_mount prefix source acc).1.
Proof.
  unfold runtime_mount. intros H. destruct (_path_is_within _ _); [done|].
  pose proof (add_directories_grow prefix true acc) as Hg. destruct (_add_destination_directories _ _ _) as [o created].
  apply mounting_bind; [right; by left|]. by apply (mounting_grows _ _ _ _ Hg).
Qed.

Lemma helper_mounting acc : mounting sources own_mounts acc.1 -> mounting sources own_mounts (helper_mount helper source workspace acc).1.
Proof.
  unfold helper_mount. intros H. destruct (_ || _); [done|].
  pose proof (add_directories_grow helper false acc) as Hg. destruct (_add_destination_directories _ _ _) as [o created].
  apply mounting_bind; [right; right; by left|]. by apply (mounting_grows _ _ _ _ Hg).
Qed.

(** What the mounts before the workspace's start with stays. *)
Lemma options_kept o : o ∈ base_options prefix -> o ∈ sandbox_options prefix source helper workspace cwd.
Proof.
  set (acc0 := (base_options prefix, [["home"; "todo"]; ["run"; "todo"]]) : options * list path). intros H.
  assert (forall acc acc', grows acc acc' -> o ∈ acc.1 -> o ∈ acc'.1) as Hg.
  { intros acc acc' (os & E & _) Ho. rewrite E. apply elem_of_app. by left. }
  assert (o ∈ (runtime_mount prefix source acc0).1) as H1.
  { unfold runtime_mount. destruct (_path_is_within _ _); [done|]. apply (Hg _ _ (add_directories_grow prefix true acc0)) in H.
    destruct (_add_destination_directories _ _ _) as [o' created]. apply elem_of_app. by left. }
  assert (o ∈ (helper_mount helper source workspace (runtime_mount prefix source acc0)).1) as H2.
  { unfold helper_mount at 1. destruct (_ || _); [done|]. apply (Hg _ _ (add_directories_grow helper false _)) in H1.
    destruct (_add_destination_directories _ _ _) as [o' created]. apply elem_of_app. by left. }
  apply (Hg _ _ (add_directories_grow workspace true _)) in H2. unfold sandbox_options. fold acc0. cbv zeta.
  destruct (_add_destination_directories _ _ _) as [o' created]. apply elem_of_app. by left.
Qed.

(** Everything of the host but the workspace is read-only. *)
Lemma sandbox_mounting :
  let os := sandbox_options prefix source helper workspace cwd in
  Forall well_formed os /\ omap fresh_mount os = own_mounts
  /\ exists ms, omap host_mount os = ms ++ [Writable (path_text workspace) (path_text workspace)]
       /\ Forall (fun m => exists s d, m = ReadOnly s d /\ s ∈ sources) ms.
Proof.
  cbv zeta. unfold sandbox_options. cbv zeta.
  set (acc := helper_mount _ _ _ _). assert (mounting sources own_mounts acc.1) as Hacc by (apply helper_mounting, runtime_mounting, base_mounting).
  pose proof (add_directories_grow workspace true acc) as Hg. destruct (_add_destination_directories _ _ _) as [o created].
  apply (mounting_grows sources own_mounts) in Hg as (Hwf & Hm & Hf); [|done]. cbn in Hwf, Hm, Hf.
  rewrite !omap_app, Hf. cbn. split_and!; [apply Forall_app; split; [done|by repeat constructor]|done|by eexists].
Qed.
End Mounts.

(** *** Inversion *)

Lemma bind_inr {A B} (r : refusal + A) (f : A -> refusal + B) b : r ≫= f = inr b -> exists a, r = inr a /\ f a = inr b.
Proof. destruct r as [e|a]; [discriminate|]. by exists a. Qed.

Lemma refuse_inr b r u : refuse_if b r = inr u -> b = false.
Proof. by destruct b. Qed.

Lemma not_within p root : _path_is_within p root = false -> ~ root `prefix_of` p.
Proof. apply bool_decide_eq_false. Qed.

(** C15: Every option of the invocation is understood; of the host a sandbox shows its own
    workspace, which alone the command can write, and /usr, the runtime prefix and this module
    read-only; it has a fresh /proc, /dev, /tmp, /run and /home, none of the host's
    namespaces, capabilities and environment, and runs only this module in it.  The
    repository and the workspace lie under neither of the directories shown read-only. *)
Theorem sandbox_exposes fs rq bwrap args :
  _sandbox_command fs rq = inr (bwrap :: args) ->
  exists lo workspace source helper,
    sr_place rq = Some lo /\ fs_resolve fs (py_path (lo_workspace lo)) = inr workspace
    /\ fs_resolve fs (true, (py_path (lo_prefix lo)).2) = inr source /\ fs_resolve fs (py_path (fs_file fs)) = inr helper
    /\ (exists os, read_options args = Some (os, [fs_python fs; "-S"; path_text helper; "--sandbox"])
         /\ (exists ms, omap host_mount os = ms ++ [Writable (path_text workspace) (path_text workspace)]
              /\ Forall (fun m => exists s d, m = ReadOnly s d /\ s ∈ ["/usr"; path_text source; path_text helper]) ms)
         /\ omap fresh_mount os = [("--proc", "/proc"); ("--dev", "/dev"); ("--tmpfs", "/tmp"); ("--tmpfs", "/run"); ("--tmpfs", "/home")]
         /\ ["--unshare-all"] ∈ os /\ ["--cap-drop"; "ALL"] ∈ os /\ ["--disable-userns"] ∈ os /\ ["--clearenv"] ∈ os)
    /\ (forall r repository, lo_repository lo = Some r -> fs_resolve fs (py_path r) = inr repository ->
         ~ usr `prefix_of` repository /\ ~ source `prefix_of` repository)
    /\ ~ usr `prefix_of` workspace /\ ~ source `prefix_of` workspace.
Proof.
  unfold _sandbox_command. intros (exe & _ & H)%bind_inr. destruct (sr_place rq) as [lo|]; [|discriminate].
  apply bind_inr in H as (workspace & Hw & H). apply bind_inr in H as (cwd & _ & H). destruct (py_path (lo_prefix lo)) as [absolute prefix] eqn:Epre.
  apply bind_inr in H as (u & _ & H). apply bind_inr in H as (source & Hs & H). apply bind_inr in H as (helper & Hh & H).
  apply bind_inr in H as (repository & Hr & H). apply bind_inr in H as (u' & Hp%refuse_inr & H). apply bind_inr in H as (command & _ & H).
  apply bind_inr in H as (executable & _ & H). apply bind_inr in H as (u'' & _ & H). apply bind_inr in H as (inside & _ & [= _ <-]).
  apply negb_false_iff in Hp. unfold placed in Hp. rewrite !andb_true_iff, !negb_true_iff in Hp. destruct Hp as (((_ & _) & Hrepo) & Hws).
  apply orb_false_iff in Hws as [Hws1 Hws2].
  exists lo, workspace, source, helper. split_and!; [done|done|by rewrite Epre|done| | |exact (not_within _ _ Hws2)|exact (not_within _ _ Hws1)].
  - destruct (sandbox_mounting prefix source helper workspace cwd) as (Hwf & Hf & Hm).
    exists (sandbox_options prefix source helper workspace cwd). split_and!; [by apply read_groups|done|done|..]; apply options_kept; unfold base_options; rewrite !elem_of_cons; tauto.
  - intros r repo Er Hrr. rewrite Er, Hrr in Hr. injection Hr as <-. apply orb_false_iff in Hrepo as [H1 H2]. split; by apply not_within.
Qed.

(** The same step of two runs. *)
Ltac same_bind H H' :=
  let E := fresh in let E' := fresh in
  apply bind_inr in H as (? & E & H); apply bind_inr in H' as (? & E' & H'); rewrite E in E'; apply (inj inr) in E' as <-; clear E.

(** What [_sandbox_command] computes for the executable of a bare name is not what runs:
    the invocation is the same for every name that is accepted. *)
Lemma executable_not_selected fs rq argv args args' :
  _sandbox_command fs rq = inr args ->
  _sandbox_command fs {| sr_argv := argv; sr_timeout_ms := sr_timeout_ms rq; sr_cleanup_ms := sr_cleanup_ms rq; sr_place := sr_place rq |} = inr args' ->
  args' = args.
Proof.
  unfold _sandbox_command. cbn [sr_argv sr_place]. intros H H'. same_bind H H'. destruct (sr_place rq) as [lo|]; [|discriminate].
  same_bind H H'. same_bind H H'. destruct (py_path (lo_prefix lo)) as [absolute prefix]. same_bind H H'. same_bind H H'.
  same_bind H H'. same_bind H H'. do 5 (apply bind_inr in H as (? & _ & H)). do 5 (apply bind_inr in H' as (? & _ & H')). congruence.
Qed.

End Sandbox.
