(* ===== verification/Supervisor.v ===== *)
(** * The supervisor of one command (native_command_supervisor.py)

    The process that runs a command in a sandbox and the one inside it, as programs over
    their kernel: children, a clock, the report.  Times are integers of microseconds.  A
    loop that reaps children has [reaps] turns and one with a deadline as many as its sleeps
    allow; a program whose turns are spent stops there for ever ([spin]), which
    SupervisorProps shows does not happen. *)

From Stdlib Require Import ZArith SpecFloat.
From S2P Require Import Prelude PyValue Text Json JsonParse Journal BearerStore Program Commands Sandbox.
Import Journal BearerStore Commands Sandbox.

#[local] Open Scope string_scope.
#[local] Open Scope Z_scope.
#[local] Open Scope list_scope.

Module Supervisor.

Definition _PROTOCOL : string := "project-control.todo-command-supervisor".
Definition _VERSION : Z := 1.
Definition _MAX_REQUEST_BYTES : Z := 1024 * 1024.
Definition _CLEANUP_MS : Z := 5000.

(** ** The kernel *)

(** waitpid(-1, WNOHANG): ECHILD, a reaped process, or none that has exited. *)
Inductive waited := NoChild | Reaped (pid : Z) | NotYet.

Inductive sup_call :=
  | Argv | ReadLine (limit : Z) | IsLinux | Prctl (option : Z)
  | WaitAny | ChildrenText | KillChild (pid : Z) | KillTarget (pid : Z)
  | Monotonic | Sleep (microseconds : Z)
  | FileSystem | Spawn (command : list string)
  | WaitFor (pid : Z) (timeout : Z) | Communicate (pid : Z) (payload : option pydict) (timeout : Z) | PollChild (pid : Z)
  | JoinDigests
  | Write (data : string)
  | OutOfTurns | Stopped.

(** A communication that ended: the two streams and the exit code. *)
Definition sup_answer (c : sup_call) : Type :=
  match c with
  | Argv => list string
  | ReadLine _ => result string
  | IsLinux => bool
  | Prctl _ => Z
  | WaitAny => waited
  | ChildrenText => option string
  | KillChild _ => kill_result
  | KillTarget _ => unit
  | Monotonic => Z
  | Sleep _ => unit
  | FileSystem => filesystem
  | Spawn _ => result Z
  | WaitFor _ _ => option Z
  | Communicate _ _ _ => result (option (string * string * Z))
  | PollChild _ => option Z
  | JoinDigests => bool * option string * option string
  | Write _ => result nat
  | OutOfTurns => unit
  | Stopped => Empty_set
  end.

Definition kernel_host : interface := {| call := sup_call; answer := sup_answer |}.
Abbreviation sup := (act kernel_host).
Abbreviation sup_ask c := (ask (I := kernel_host) c).

(** A call whose answer may be an exception. *)
Definition sup_result {A} (c : sup_call) (H : sup_answer c = result A) : sup A :=
  Call (I := kernel_host) c (fun r => Ret (eq_rect _ id r _ H)).
Abbreviation sup_invoke c := (sup_result c eq_refl).

Definition spin {A} : sup A :=
  Call (I := kernel_host) OutOfTurns (fun _ => Call (I := kernel_host) Stopped (fun r => match r with end)).

Section Supervisor.
Context (float_repr : spec_float -> string) (float_of : string -> spec_float) (reaps : nat).

(** ** The report *)

Definition report_payload (state : pyval) (exit_code : pyval) (timed_out tree_quiescent : bool) (reason stdout stderr : pyval) : pydict :=
  [("protocol", PStr _PROTOCOL); ("version", PInt _VERSION); ("state", state); ("exit_code", exit_code); ("timed_out", PBool timed_out);
   ("tree_quiescent", PBool tree_quiescent); ("reason", reason); ("stdout_digest", stdout); ("stderr_digest", stderr)].

Definition report_text (d : pydict) : string := json_ascii float_repr "," ":" (PDict d) +:+ chr 10.

(** "while view": every write takes at least one byte. *)
Fixpoint write_all (turns : nat) (data : string) : sup unit :=
  if String.eqb data "" then mret tt else
  match turns with
  | O => spin
  | S turns => n ← sup_invoke (Write data); write_all turns (drop_str n data)
  end.

Definition send_report (d : pydict) : sup unit := let text := report_text d in write_all (String.length text) text.

(** A report of a state and a reason only. *)
Definition _report (state : string) (timed_out : bool) (reason : pyval) : sup unit :=
  send_report (report_payload (PStr state) PNone timed_out false reason PNone PNone).

(** ** Children *)

Definition _enable_child_subreaper : sup bool :=
  linux ← sup_ask IsLinux;
  if negb linux then mret false else
  r ← sup_ask (Prctl 36);
  if negb (r =? 0) then mret false else
  r ← sup_ask (Prctl 4);
  mret (r =? 0).

Fixpoint no_children_in (turns : nat) : sup bool :=
  match turns with
  | O => spin
  | S turns =>
      r ← sup_ask WaitAny;
      match r with NoChild => mret true | NotYet => mret false | Reaped _ => no_children_in turns end
  end.

Definition _no_children_now : sup bool := no_children_in reaps.

Definition _direct_children : sup (option (list Z)) :=
  content ← sup_ask ChildrenText;
  mret (text ← content; let s := strip text in if String.eqb s "" then Some [] else mapM int_of_str (split_ws s)).

(** The sleeps of 10 ms that a wait of so many milliseconds can hold, and the turns of its loop. *)
Definition turns_for (milliseconds : Z) : nat := S (S (Z.to_nat (milliseconds / 10))).

Fixpoint _wait_for_children (turns : nat) (deadline : Z) : sup bool :=
  match turns with
  | O => spin
  | S turns =>
      none ← _no_children_now;
      if none : bool then mret true else
      now ← sup_ask Monotonic;
      if deadline <=? now then mret false else
      _ ← sup_ask (Sleep 10000);
      _wait_for_children turns deadline
  end.

(** False: a signal could not be sent. *)
Fixpoint kill_each (pids : list Z) : sup bool :=
  match pids with
  | [] => mret true
  | pid :: pids => r ← sup_ask (KillChild pid); match r with KillFailed => mret false | _ => kill_each pids end
  end.

Fixpoint _kill_and_reap_children (turns : nat) (deadline : Z) : sup bool :=
  match turns with
  | O => spin
  | S turns =>
      none ← _no_children_now;
      if none : bool then mret true else
      children ← _direct_children;
      match children with
      | None => mret false
      | Some pids =>
          killed ← kill_each pids;
          if negb killed then mret false else
          now ← sup_ask Monotonic;
          if deadline <=? now then _no_children_now else
          _ ← sup_ask (Sleep 10000);
          _kill_and_reap_children turns deadline
      end
  end.

(** "_kill_and_reap_children(time.monotonic() + milliseconds / 1000)". *)
Definition kill_and_reap_for (milliseconds : Z) : sup bool :=
  now ← sup_ask Monotonic;
  _kill_and_reap_children (turns_for milliseconds) (now + milliseconds * 1000).

Definition seconds_left (deadline now : Z) : Z := Z.max 0 (deadline - now).

(** ** Inside the sandbox *)

Definition digest_value (d : option string) : pyval := match d with Some s => PStr s | None => PNone end.

(** What became of a command: its exit code, whether it ran out of time, whether nothing of
    it is left, and the digests of its streams. *)
Record outcome := { oc_code : option Z; oc_late : bool; oc_quiet : bool; oc_stdout : option string; oc_stderr : option string }.

Definition completed (o : outcome) : bool := oc_quiet o && bool_decide (oc_code o <> None).

Definition outcome_payload (o : outcome) : pydict :=
  report_payload (PStr (if completed o then "completed" else "unresolved"))
    (if oc_late o then PNone else match oc_code o with Some c => PInt c | None => PNone end) (oc_late o) (oc_quiet o)
    (if completed o then PNone else PStr "descendant_quiescence_unconfirmed") (digest_value (oc_stdout o)) (digest_value (oc_stderr o)).

Definition run_target (target deadline cleanup timeout : Z) : sup outcome :=
  now ← sup_ask Monotonic;
  first ← sup_ask (WaitFor target (seconds_left deadline now));
  '(code, late) ← match first with
                  | Some code => mret (Some code, false)
                  | None => _ ← sup_ask (KillTarget target); c ← sup_ask (WaitFor target (cleanup * 1000)); mret (c, true)
                  end;
  '(quiet, late) ← match code with
                   | None => q ← kill_and_reap_for cleanup; mret (q, late)
                   | Some _ =>
                       q ← _wait_for_children (turns_for timeout) deadline;
                       if q : bool then mret (true, late)
                       else _ ← sup_ask (KillTarget target); q ← kill_and_reap_for cleanup; mret (q, true)
                   end;
  now ← sup_ask Monotonic;
  '(reading, out, err) ← sup_ask JoinDigests;
  mret {| oc_code := code; oc_late := late || (deadline <? now); oc_quiet := quiet && negb reading; oc_stdout := out; oc_stderr := err |}.

(** Only the report can raise. *)
Definition _run_command_tree (rq : sandbox_request) : sup Z :=
  enabled ← _enable_child_subreaper;
  if negb enabled then _ ← _report "unavailable" false (PStr "child_subreaper_unavailable"); mret 1 else
  now ← sup_ask Monotonic;
  let deadline := now + sr_timeout_ms rq * 1000 in
  target ← try_except (pid ← sup_invoke (Spawn (sr_argv rq)); mret (Some pid))
             (fun e => match e with OSError _ => mret None | _ => raise e end);
  match target with
  | None => _ ← _report "not_started" false (PStr "command_launch_failed"); mret 1
  | Some pid =>
      o ← run_target pid deadline (sr_cleanup_ms rq) (sr_timeout_ms rq);
      try_except
        (_ ← send_report (outcome_payload o); mret (if completed o then 0 else 1))
        (fun _ =>
           _ ← sup_ask (KillTarget pid); quiet ← kill_and_reap_for (sr_cleanup_ms rq);
           _ ← try_except (send_report (report_payload (PStr "unresolved") PNone (oc_late o) quiet (PStr "supervisor_internal_error") PNone PNone))
                 (fun e => match e with OSError _ => mret tt | _ => raise e end);
           mret 1)
  end.

(** ** Around the sandbox *)

Definition digest_ok (v : pyval) : bool :=
  match v with PNone => true | PStr s => (points s =? 64)%nat | _ => false end.

(** The report of the process inside, if it has the right shape: its two flags. *)
Definition inner_shape (v : pyval) : option (pydict * bool * bool) :=
  '(d, timed_out, quiet) ← report_shape v;
  if digest_ok (field "stdout_digest" d) && digest_ok (field "stderr_digest" d) then Some (d, timed_out, quiet) else None.

(** What is reported of a sandbox without children left. *)
Definition relay (stdout : string) (code : Z) : sup Z :=
  match parse_report float_of stdout with
  | None => _ ← _report "unresolved" false (PStr "sandbox_supervisor_report_unconfirmed"); mret 1
  | Some v =>
      match inner_shape v with
      | None => _ ← _report "unresolved" false (PStr "sandbox_supervisor_report_invalid"); mret 1
      | Some (d, timed_out, quiet) =>
          let state := field "state" d in
          _ ← guard_act (negb (hashable state)) (TypeError "unhashable type");
          if (py_eqb state (PStr "not_started") || py_eqb state (PStr "unavailable")) && negb (code =? 0)
          then _ ← send_report (report_payload state PNone false false (field "reason" d) PNone PNone); mret 1
          else if negb (py_eqb state (PStr "completed")) || negb (code =? 0) || negb quiet
          then _ ← send_report (report_payload (PStr "unresolved") PNone timed_out quiet (field "reason" d) PNone PNone); mret 1
          else _ ← send_report (report_payload (PStr "completed") (field "exit_code" d) timed_out true PNone
                                  (field "stdout_digest" d) (field "stderr_digest" d));
               mret 0
      end
  end.

(** The reason of a refusal. *)
Definition refusal_reason (r : refusal) : string :=
  match r with
  | FileNotFound text => if bool_decide (is_Some (String.index 0 "bubblewrap" text)) then "bubblewrap_unavailable" else "command_executable_unavailable"
  | Invalid => "command_sandbox_configuration_invalid"
  end.

Definition os_error (e : exn) : bool := match e with OSError _ => true | _ => false end.

(** A sandbox that was started, to its report.  A time-out too large for a float makes the
    code raise OverflowError before it writes a report; that is not modelled. *)
Definition attend (rq : sandbox_request) (request : pydict) (pid : Z) : sup Z :=
  let cleanup := sr_cleanup_ms rq in
  now ← sup_ask Monotonic;
  let deadline := now + (sr_timeout_ms rq + cleanup + 5000) * 1000 in
  now ← sup_ask Monotonic;
  ended ← sup_invoke (Communicate pid (Some request) (seconds_left deadline now));
  match ended with
  | None =>
      _ ← sup_ask (KillTarget pid); _ ← kill_and_reap_for cleanup;
      _ ← sup_invoke (Communicate pid None (cleanup * 1000));
      _ ← _report "unresolved" true (PStr "sandbox_supervisor_stop_unconfirmed"); mret 1
  | Some (stdout, stderr, code) =>
      if (65536 <? Z.of_nat (String.length stdout)) || (65536 <? Z.of_nat (String.length stderr))
      then _ ← _report "unresolved" false (PStr "sandbox_supervisor_output_too_large"); mret 1
      else
        now ← sup_ask Monotonic;
        none ← _wait_for_children (turns_for cleanup) (now + cleanup * 1000);
        if negb none then _ ← _report "unresolved" false (PStr "sandbox_descendant_quiescence_unconfirmed"); mret 1
        else relay stdout code
  end.

Definition _run_request (rq : sandbox_request) (request : pydict) : sup Z :=
  linux ← sup_ask IsLinux;
  enabled ← (if (linux : bool) then _enable_child_subreaper else mret false);
  if negb enabled then _ ← _report "unavailable" false (PStr "linux_sandbox_unavailable"); mret 1 else
  fs ← sup_ask FileSystem;
  match _sandbox_command fs rq with
  | inl r => _ ← _report "unavailable" false (PStr (refusal_reason r)); mret 1
  | inr command =>
      started ← try_except (pid ← sup_invoke (Spawn command); mret (Some pid)) (fun e => if os_error e then mret None else raise e);
      let failed : sup Z :=
        _ ← try_except (_report "unresolved" false (PStr "sandbox_supervisor_protocol_failed"))
              (fun e => if os_error e then mret tt else raise e);
        mret 1 in
      match started with
      | None => failed
      | Some pid =>
          try_except (attend rq request pid)
            (fun e =>
               if negb (os_error e) then raise e else
               code ← sup_ask (PollChild pid);
               _ ← match code with
                   | None => _ ← sup_ask (KillTarget pid); _ ← kill_and_reap_for (sr_cleanup_ms rq); mret tt
                   | Some _ => mret tt
                   end;
               failed)
      end
  end.

(** ** The request and the entry point *)

Definition required_fields : list string := ["argv"; "timeout_ms"; "cleanup_ms"].
Definition outer_fields : list string := required_fields ++ ["workspace"; "cwd"; "runtime_prefix"; "repository_root"].

Definition as_text (v : pyval) : option string := match v with PStr s => Some s | _ => None end.

Definition read_location (d : pydict) : option location :=
  w ← as_text (field "workspace" d); c ← as_text (field "cwd" d); p ← as_text (field "runtime_prefix" d);
  r ← match field "repository_root" d with PNone => Some None | v => Some <$> as_text v end;
  Some {| lo_workspace := w; lo_cwd := c; lo_prefix := p; lo_repository := r |}.

(** A request of the right shape. *)
Definition read_request (v : pyval) : option (sandbox_request * pydict) :=
  match v with
  | PDict d =>
      if negb (key_set d required_fields || key_set d outer_fields) then None else
      match field "argv" d, field "timeout_ms" d, field "cleanup_ms" d with
      | PList (_ :: _ as l), PInt timeout, PInt cleanup =>
          argv ← mapM as_text l;
          if (timeout <=? 0) || negb (cleanup =? _CLEANUP_MS) then None else
          if key_set d outer_fields
          then lo ← read_location d; Some ({| sr_argv := argv; sr_timeout_ms := timeout; sr_cleanup_ms := cleanup; sr_place := Some lo |}, d)
          else Some ({| sr_argv := argv; sr_timeout_ms := timeout; sr_cleanup_ms := cleanup; sr_place := None |}, d)
      | _, _, _ => None
      end
  | _ => None
  end.

Definition _read_request : sup (option (sandbox_request * pydict)) :=
  raw ← sup_invoke (ReadLine (_MAX_REQUEST_BYTES + 1));
  if String.eqb raw "" || (_MAX_REQUEST_BYTES <? Z.of_nat (String.length raw)) then mret None else
  match parse_report float_of raw with
  | None => raise (ValueError "Expecting value")
  | Some v => mret (read_request v)
  end.

Definition caught (e : exn) : bool := match e with OSError _ | ValueError _ | TypeError _ => true | _ => false end.

(** An exit code that the interpreter answers for what is not caught is none of these. *)
Definition main : sup Z :=
  argv ← sup_ask Argv;
  let guarded (p : sup Z) := try_except p (fun e => if caught e then mret 2 else raise e) in
  match argv with
  | [_; mode] =>
      if String.eqb mode "--sandbox" then
        guarded
          (request ← _read_request;
           match request with
           | Some (rq, _) =>
               match sr_place rq with
               | Some _ => _run_command_tree rq
               | None => _ ← _report "not_started" false (PStr "supervisor_request_invalid"); mret 2
               end
           | None => _ ← _report "not_started" false (PStr "supervisor_request_invalid"); mret 2
           end)
      else
        guarded
          (_ ← guard_act (bool_decide (int_of_str mode = None)) (ValueError "invalid literal for int() with base 10");
           request ← _read_request;
           match request with
           | Some (rq, d) => _run_request rq d
           | None => _ ← _report "not_started" false (PStr "supervisor_request_invalid"); mret 2
           end)
  | _ => mret 2
  end.

End Supervisor.

End Supervisor.
