(* ===== verification/SupervisorProps.v ===== *)
(** * What a supervisor's report proves

    The kernel of the supervisor of a command ([supervised]): its descendants, those that
    escaped it, the report it has written, a clock.  A report that settles the command is
    written only when nothing of it is left, whenever the supervisor is stopped; the process
    inside the sandbox answers zero only then; and no loop of either runs out of turns. *)

From Stdlib Require Import ZArith SpecFloat.
From stdpp Require Import relations.
From S2P Require Import Prelude PyValue Text Json JsonParse JsonProps Journal BearerStore Program Commands CommandSafety Sandbox Supervisor.
Import Journal BearerStore Commands CommandSafety Sandbox Supervisor.

#[local] Open Scope string_scope.
#[local] Open Scope Z_scope.
#[local] Open Scope list_scope.

(** ** The kernel *)

(** [m_tree]: the descendants that are not reaped.  [m_loose]: those that another process
    adopted.  [m_births]: how many processes are still created, by whomever. *)
Record machine := {
  m_argv : list string; m_tree : gset Z; m_loose : gset Z; m_reaper : bool; m_report : string; m_clock : Z; m_births : nat; m_spun : bool
}.

Definition quiet (w : machine) : Prop := m_tree w = ∅ /\ m_loose w = ∅.

Definition with_tree (f : gset Z -> gset Z) (w : machine) : machine :=
  {| m_argv := m_argv w; m_tree := f (m_tree w); m_loose := m_loose w; m_reaper := m_reaper w; m_report := m_report w;
     m_clock := m_clock w; m_births := m_births w; m_spun := m_spun w |}.
Definition reaped (pid : Z) : machine -> machine := with_tree (fun t => t ∖ {[pid]}).
Definition with_report (s : string) (w : machine) : machine :=
  {| m_argv := m_argv w; m_tree := m_tree w; m_loose := m_loose w; m_reaper := m_reaper w; m_report := m_report w +:+ s;
     m_clock := m_clock w; m_births := m_births w; m_spun := m_spun w |}.
Definition at_time (t : Z) (w : machine) : machine :=
  {| m_argv := m_argv w; m_tree := m_tree w; m_loose := m_loose w; m_reaper := m_reaper w; m_report := m_report w;
     m_clock := t; m_births := m_births w; m_spun := m_spun w |}.
Definition born (pid : Z) (w : machine) : machine :=
  {| m_argv := m_argv w; m_tree := {[pid]} ∪ m_tree w; m_loose := m_loose w; m_reaper := m_reaper w; m_report := m_report w;
     m_clock := m_clock w; m_births := Nat.pred (m_births w); m_spun := m_spun w |}.
Definition adopting (w : machine) : machine :=
  {| m_argv := m_argv w; m_tree := m_tree w; m_loose := m_loose w; m_reaper := true; m_report := m_report w;
     m_clock := m_clock w; m_births := m_births w; m_spun := m_spun w |}.
Definition lost (tree loose : gset Z) (w : machine) : machine :=
  {| m_argv := m_argv w; m_tree := tree; m_loose := loose; m_reaper := m_reaper w; m_report := m_report w;
     m_clock := m_clock w; m_births := m_births w; m_spun := m_spun w |}.
Definition spun (w : machine) : machine :=
  {| m_argv := m_argv w; m_tree := m_tree w; m_loose := m_loose w; m_reaper := m_reaper w; m_report := m_report w;
     m_clock := m_clock w; m_births := m_births w; m_spun := true |}.

(** The bytes a pipe takes at once: PIPE_BUF. *)
Definition pipe_buf : nat := 4096.

(** Waiting for any child fails with ECHILD only when there is no descendant: each is a
    child, or has one that is. *)
Definition kernel_does (c : sup_call) (w : machine) : sup_answer c -> machine -> Prop :=
  match c return sup_answer c -> machine -> Prop with
  | Argv => fun r w' => r = m_argv w /\ w' = w
  | Prctl option => fun r w' => w' = (if (option =? 36) && (r =? 0) then adopting w else w)
  | WaitAny => fun r w' => match r with NoChild => m_tree w = ∅ /\ w' = w | Reaped pid => pid ∈ m_tree w /\ w' = reaped pid w | NotYet => w' = w end
  | Monotonic => fun r w' => r = m_clock w /\ w' = w
  | Sleep d => fun _ w' => exists t, (m_clock w + d <= t) /\ w' = at_time t w
  | Spawn _ => fun r w' => match r with Ok pid => (pid ∉ m_tree w) /\ (0 < m_births w)%nat /\ w' = born pid w | Err _ => w' = w end
  | WaitFor pid _ => fun r w' => w' = (match r with Some _ => reaped pid w | None => w end)
  | Communicate pid _ _ => fun r w' => w' = (match r with Ok (Some _) => reaped pid w | _ => w end)
  | PollChild pid => fun r w' => w' = (match r with Some _ => reaped pid w | None => w end)
  | Write data => fun r w' =>
      match r with
      | Ok n => (0 < n)%nat /\ (n <= String.length data)%nat /\ ((String.length data <= pipe_buf)%nat -> n = String.length data)
                /\ w' = with_report (String.substring 0 n data) w
      | Err e => os_error e = true /\ w' = w
      end
  | OutOfTurns => fun _ w' => w' = spun w
  | _ => fun _ w' => w' = w
  end.

(** What the other processes do: time passes, a descendant forks or is reaped by its
    parent; without a subreaper an orphan escapes; what has escaped does what it likes. *)
Inductive others_do : machine -> machine -> Prop :=
  | time_passes w t : m_clock w <= t -> others_do w (at_time t w)
  | forks w p c : p ∈ m_tree w -> c ∉ m_tree w -> (0 < m_births w)%nat -> others_do w (born c w)
  | parent_reaps w p : p ∈ m_tree w -> others_do w (reaped p w)
  | escapes w p : m_reaper w = false -> p ∈ m_tree w -> others_do w (lost (m_tree w ∖ {[p]}) ({[p]} ∪ m_loose w) w)
  | roams w p loose : p ∈ m_loose w -> others_do w (lost (m_tree w) loose w).

(** A supervisor that is stopped leaves its descendants to another process. *)
Definition abandoned (w : machine) : machine := lost ∅ (m_tree w ∪ m_loose w) w.

Definition supervised : system kernel_host :=
  {| world := machine; handle := fun tid (c : call kernel_host) (w : machine) (r : answer kernel_host c) (w' : machine) => kernel_does c w r w';
     environment := others_do; ended := fun (tid : nat) (w : machine) => match tid with O => abandoned w | S _ => w end |}.

(** ** The logic *)

Section Logic.
Context (reaps : nat).
(** What a report claims of the command, and whether turns must last. *)
Context (claims : string -> Prop) (strict : Prop).

Record sound (w : machine) : Prop := {
  sound_report : claims (m_report w) -> quiet w;
  sound_turns : strict -> m_spun w = false /\ (m_births w + size (m_tree w) < reaps)%nat
}.

(** What happens around a supervisor that does nothing of importance. *)
Record calm (w w' : machine) : Prop := {
  calm_argv : m_argv w' = m_argv w;
  calm_report : m_report w' = m_report w;
  calm_reaper : m_reaper w' = m_reaper w;
  calm_tree : m_tree w = ∅ -> m_tree w' = ∅;
  calm_loose : m_reaper w = true -> m_loose w = ∅ -> m_loose w' = ∅;
  calm_quiet : quiet w -> quiet w';
  calm_clock : m_clock w <= m_clock w';
  calm_budget : (m_births w' + size (m_tree w') <= m_births w + size (m_tree w))%nat;
  calm_spun : m_spun w' = m_spun w
}.

Definition around (tid : nat) (w w' : machine) : Prop := tid = 0%nat -> calm w w'.

#[local] Abbreviation stable := (stable supervised around 0).
#[local] Abbreviation triple := (triple supervised sound around 0).

Lemma calm_refl w : calm w w.
Proof. split; try done; lia. Qed.

Lemma calm_sound w w' : calm w w' -> sound w -> sound w'.
Proof.
  intros H [H1 H2]. split.
  - rewrite (calm_report _ _ H). intros Hc. by apply (calm_quiet _ _ H), H1.
  - intros Hs. destruct (H2 Hs) as [Hsp Hb]. rewrite (calm_spun _ _ H). pose proof (calm_budget _ _ H). split; [done|lia].
Qed.

Lemma at_time_calm t w : m_clock w <= t -> calm w (at_time t w).
Proof. by split. Qed.

Lemma tree_empty (t : gset Z) p : t = ∅ -> t ∖ {[p]} = ∅.
Proof. set_solver. Qed.

Lemma reaped_calm pid w : calm w (reaped pid w).
Proof.
  split; cbn; try done; try lia.
  - apply tree_empty.
  - intros [H1 H2]. split; cbn; [by apply tree_empty|done].
  - assert (size (m_tree w ∖ {[pid]}) <= size (m_tree w))%nat by (apply subseteq_size; set_solver). lia.
Qed.

Lemma others_calm w w' : others_do w w' -> calm w w'.
Proof.
  destruct 1 as [w t Ht|w p c Hp Hc Hb|w p Hp|w p Hr Hp|w p loose Hp].
  - by apply at_time_calm.
  - split; cbn; try done; try lia.
    + intros E. set_solver.
    + intros [E _]. set_solver.
    + rewrite size_union by set_solver. rewrite size_singleton. lia.
  - apply reaped_calm.
  - split; cbn; try done; try lia.
    + apply tree_empty.
    + congruence.
    + intros [E _]. set_solver.
    + assert (size (m_tree w ∖ {[p]}) <= size (m_tree w))%nat by (apply subseteq_size; set_solver). lia.
  - split; cbn; try done; try lia.
    + intros _ E. set_solver.
    + intros [_ E]. set_solver.
Qed.

Lemma abandoned_sound w : sound w -> sound (abandoned w).
Proof.
  intros [H1 H2]. split.
  - intros Hc. destruct (H1 Hc) as [E1 E2]. split; cbn; [done|]. by rewrite E1, E2, union_empty_l_L.
  - intros Hs. destruct (H2 Hs) as [Hsp Hb]. split; [done|]. cbn. rewrite size_empty. lia.
Qed.

(** *** Calls that change nothing of importance *)

Definition calm_call (c : sup_call) : Prop := match c with Prctl _ | Spawn _ | Write _ | OutOfTurns => False | Sleep d => 0 <= d | _ => True end.

Lemma calm_call_ok c w r w' : calm_call c -> kernel_does c w r w' -> calm w w'.
Proof.
  destruct c; cbn; intros Hc Hd; try done; try (first [subst w'|destruct Hd as [_ Hd]; subst w']; apply calm_refl).
  - destruct r; [destruct Hd as [_ ->]; apply calm_refl|destruct Hd as [_ ->]; apply reaped_calm|subst w'; apply calm_refl].
  - destruct Hd as (t & Ht & ->). apply at_time_calm. lia.
  - subst w'. destruct r; [apply reaped_calm|apply calm_refl].
  - subst w'. destruct r as [[x|]|]; [apply reaped_calm|apply calm_refl..].
  - subst w'. destruct r; [apply reaped_calm|apply calm_refl].
Qed.

(** A program that returns or raises. *)
Definition runs {A} (P : machine -> Prop) (p : sup A) (Q : A -> machine -> Prop) (E : exn -> machine -> Prop) : Prop :=
  triple P p (fun r w => match r with Ok a => Q a w | Err e => E e w end).

Lemma runs_ret {A} P (a : A) Q E : (forall w, P w -> Q a w) -> runs P (mret a) Q E.
Proof. intros H. by apply triple_ret. Qed.

Lemma runs_raise {A} P e (Q : A -> machine -> Prop) E : (forall w, P w -> E e w) -> runs P (raise e) Q E.
Proof. intros H. by apply triple_ret. Qed.

Lemma runs_bind {A B} P (p : sup A) (f : A -> sup B) R Q E : runs P p R E -> (forall a, runs (R a) (f a) Q E) -> runs P (p ≫= f) Q E.
Proof. intros Hp Hf. by apply (act_bind_triple supervised sound around 0 P p f R E). Qed.

Lemma runs_try {A} P (p : sup A) h E' Q E : runs P p Q E' -> (forall e, runs (E' e) (h e) Q E) -> runs P (try_except p h) Q E.
Proof. intros Hp Hh. by eapply try_except_triple. Qed.

Lemma runs_conseq {A} P P' (p : sup A) Q Q' E E' :
  runs P' p Q' E' -> (forall w, P w -> P' w) -> (forall a w, Q' a w -> Q a w) -> (forall e w, E' e w -> E e w) -> runs P p Q E.
Proof. intros H HP HQ HE. eapply triple_conseq; [exact H|exact HP|]. intros [a|e] w; [apply HQ|apply HE]. Qed.

Lemma runs_pre {A} P P' (p : sup A) Q E : runs P' p Q E -> (forall w, P w -> P' w) -> runs P p Q E.
Proof. intros H HP. by eapply runs_conseq. Qed.

Lemma runs_guard P b e Q E : (forall w, b = false -> P w -> Q tt w) -> (forall w, P w -> E e w) -> runs P (guard_act b e) Q E.
Proof. intros HQ HE. apply pure_triple. intros w Hw. destruct b; [by apply HE|by apply HQ]. Qed.

Lemma runs_fact {A} (F : Prop) P (p : sup A) Q E : (F -> runs P p Q E) -> runs (fun w => F /\ P w) p Q E.
Proof. intros H w Hw [HF HP]. by apply H. Qed.

Lemma runs_or {A} P P' (p : sup A) Q E : runs P p Q E -> runs P' p Q E -> runs (fun w => P w \/ P' w) p Q E.
Proof. intros H H' w Hw [HP|HP]; [by apply H|by apply H']. Qed.

(** One call. *)
Lemma triple_one c P (Q : sup_answer c -> machine -> Prop) :
  (forall r, stable (Q r)) ->
  (forall w r w', sound w -> P w -> kernel_does c w r w' -> sound w' /\ Q r w') -> triple P (request (I := kernel_host) c) Q.
Proof.
  intros HQ H. apply (triple_request supervised sound around 0 P c); [done|]. intros w r w' Hw HP Hd.
  destruct (H w r w' Hw HP Hd) as [H1 H2]. split; [done|]. split; [|done]. intros t Ht E. done.
Qed.

(** A calm call keeps what is known, and its answer may add to it. *)
Lemma runs_calm c P (F : sup_answer c -> machine -> Prop) E :
  calm_call c -> stable P -> (forall r, stable (F r)) -> (forall w r w', P w -> kernel_does c w r w' -> F r w') ->
  runs P (ask (I := kernel_host) c) (fun r w => P w /\ F r w) E.
Proof.
  intros Hc HP HF H. unfold runs, ask. apply (triple_bind supervised sound around 0 P (request (I := kernel_host) c) _ (fun r w => P w /\ F r w)).
  - apply triple_one.
    + intros r w w' [H1 H2] Hr. split; [by eapply HP|by eapply HF].
    + intros w r w' Hw HPw Hd. pose proof (calm_call_ok c w r w' Hc Hd) as Hcalm. split; [by eapply calm_sound|].
      split; [|by eapply H]. eapply HP; [done|]. by intros _.
  - intros r. by apply triple_ret.
Qed.

Lemma runs_ask c P E : calm_call c -> stable P -> runs P (ask (I := kernel_host) c) (fun _ w => P w) E.
Proof.
  intros Hc HP. eapply runs_conseq; [apply (runs_calm c P (fun _ _ => True) E); [done|done|by intros r w w'|done]|done| |done]. by intros r w [H _].
Qed.

Lemma ask_then {A} c P (f : sup_answer c -> sup A) Q E :
  calm_call c -> stable P -> (forall r, runs P (f r) Q E) -> runs P (ask (I := kernel_host) c ≫= f) Q E.
Proof. intros Hc HP Hf. eapply runs_bind; [by apply runs_ask|exact Hf]. Qed.

(** One call that may raise. *)
Lemma runs_call {A} c (H : sup_answer c = result A) P Q E :
  (forall a, stable (Q a)) -> (forall e, stable (E e)) ->
  (forall w r w', sound w -> P w -> kernel_does c w r w' ->
     sound w' /\ match eq_rect _ id r _ H with Ok a => Q a w' | Err e => E e w' end) ->
  runs P (sup_result c H) Q E.
Proof.
  intros HQ HE Hd. unfold sup_result, runs.
  apply (triple_bind supervised sound around 0 P (request (I := kernel_host) c) (fun r => Ret (eq_rect _ id r _ H))
    (fun r w => match eq_rect _ id r _ H with Ok a => Q a w | Err e => E e w end)).
  - apply triple_one; [|done]. intros r. destruct (eq_rect _ _ _ _ _); [apply HQ|apply HE].
  - intros r. by apply triple_ret.
Qed.

Lemma runs_invoke {A} c (H : sup_answer c = result A) P : calm_call c -> stable P -> runs P (sup_result c H) (fun _ w => P w) (fun _ w => P w).
Proof.
  intros Hc HP. apply runs_call; [done|done|]. intros w r w' Hw HPw Hd. pose proof (calm_call_ok c w r w' Hc Hd) as Hcalm.
  split; [by eapply calm_sound|]. assert (P w') as HP' by (eapply HP; [done|]; by intros _). by destruct (eq_rect _ _ _ _ _).
Qed.

(** No turns are left only if that may be. *)
Lemma runs_spin {A} P (Q : A -> machine -> Prop) E : (forall w, P w -> ~ strict) -> runs P spin Q E.
Proof.
  intros H w [Hw1 Hw2] HP r w' ->. split; [split; [exact Hw1|intros Hs; by destruct (H w HP)]|]. split; [by intros t Ht E'|].
  intros w2 _ []. 
Qed.

(** *** What stays *)

Lemma stable_const (F : Prop) : stable (fun _ => F).
Proof. by intros w w'. Qed.
Lemma supervisor_stable_and P Q : stable P -> stable Q -> stable (fun w => P w /\ Q w).
Proof. intros HP HQ w w' [H1 H2] Hk. split; [by eapply HP|by eapply HQ]. Qed.
Lemma supervisor_stable_imp (F : Prop) P : stable P -> stable (fun w => F -> P w).
Proof. intros HP w w' H Hk HF. eapply HP; [by apply H|done]. Qed.
Lemma stable_or P Q : stable P -> stable Q -> stable (fun w => P w \/ Q w).
Proof. intros HP HQ w w' [H|H] Hk; [left; by eapply HP|right; by eapply HQ]. Qed.
Lemma stable_quiet : stable quiet.
Proof. intros w w' H Hk. by apply (calm_quiet _ _ (Hk eq_refl)). Qed.
Lemma stable_tree : stable (fun w => m_tree w = ∅).
Proof. intros w w' H Hk. by apply (calm_tree _ _ (Hk eq_refl)). Qed.
Lemma stable_report s : stable (fun w => m_report w = s).
Proof. intros w w' H Hk. by rewrite (calm_report _ _ (Hk eq_refl)). Qed.
Lemma stable_argv s : stable (fun w => m_argv w = s).
Proof. intros w w' H Hk. by rewrite (calm_argv _ _ (Hk eq_refl)). Qed.
Lemma stable_clock t : stable (fun w => t <= m_clock w).
Proof. intros w w' H Hk. pose proof (calm_clock _ _ (Hk eq_refl)). lia. Qed.

(** The supervisor adopts what is orphaned, and nothing escaped. *)
Definition armed (w : machine) : Prop := m_reaper w = true /\ m_loose w = ∅.
Lemma stable_armed : stable armed.
Proof.
  intros w w' [H1 H2] Hk. pose proof (Hk eq_refl) as Hc. split; [by rewrite (calm_reaper _ _ Hc)|by apply (calm_loose _ _ Hc)].
Qed.
End Logic.

Create HintDb calm.
#[export] Hint Resolve stable_const supervisor_stable_and supervisor_stable_imp stable_or stable_quiet stable_tree stable_report stable_argv stable_clock
  stable_armed : calm.

(** ** The loops *)

Section Loops.
Context (reaps : nat) (claims : string -> Prop) (strict : Prop).
#[local] Abbreviation runs := (runs reaps claims strict).
#[local] Abbreviation stable := (stable supervised around 0).
#[local] Abbreviation sound := (sound reaps claims strict).

#[local] Ltac stay := auto 8 with calm.

(** Processes that are left are too few for the turns. *)
Definition within (n : nat) (w : machine) : Prop := strict -> (m_births w + size (m_tree w) < n)%nat.
Lemma stable_within n : stable (within n).
Proof. intros w w' H Hk Hs. pose proof (H Hs). pose proof (calm_budget _ _ (Hk eq_refl)). lia. Qed.

(** The time that is left is too short for the turns. *)
Definition in_time (deadline : Z) (turns : nat) (w : machine) : Prop := strict -> (0 < turns)%nat /\ deadline - m_clock w < 10000 * (Z.of_nat turns - 1).
Lemma stable_in_time deadline turns : stable (in_time deadline turns).
Proof. intros w w' H Hk Hs. destruct (H Hs). pose proof (calm_clock _ _ (Hk eq_refl)). lia. Qed.

Definition no_child (b : bool) (w : machine) : Prop := b = true -> m_tree w = ∅.
Lemma stable_no_child b : stable (no_child b).
Proof. apply supervisor_stable_imp, stable_tree. Qed.
Hint Resolve stable_within stable_in_time stable_no_child : calm.

Lemma no_children_in_runs turns P E :
  stable P -> runs (fun w => P w /\ within turns w) (no_children_in turns) (fun b w => P w /\ no_child b w) E.
Proof.
  intros HP. revert P HP. induction turns as [|turns IH]; intros P HP; cbn [no_children_in].
  { apply runs_spin. intros w [_ H] Hs. pose proof (H Hs). lia. }
  eapply runs_bind.
  - apply (runs_calm reaps claims strict WaitAny (fun w => P w /\ within (S turns) w)
      (fun r w => match r with NoChild => m_tree w = ∅ | Reaped _ => within turns w | NotYet => True end)); [done|stay|intros []; stay|].
    intros w r w' [_ Hb] Hd. destruct r; cbn in Hd.
    + by destruct Hd as [? ->].
    + destruct Hd as [Hin ->]. intros Hs. pose proof (Hb Hs). cbn.
      assert (size (m_tree w ∖ {[pid]}) < size (m_tree w))%nat by (apply subset_size; set_solver). lia.
    + done.
  - intros [|pid|]; cbv beta iota.
    + apply runs_ret. intros w ((H & _) & Ht). split; [done|by intros _].
    + eapply runs_conseq; [apply (IH P HP)|by intros w ((H & _) & Hb)|done|done].
    + apply runs_ret. intros w ((H & _) & _). by split.
Qed.

Lemma no_children_now_runs P E : stable P -> runs P (_no_children_now reaps) (fun b w => P w /\ no_child b w) E.
Proof.
  intros HP w Hw HPw. apply (no_children_in_runs reaps P E HP); [done|]. split; [done|]. intros Hs. by destruct (sound_turns _ _ _ _ Hw Hs).
Qed.

(** Reading the clock against a deadline, then sleeping. *)
Lemma next_turn_runs turns deadline P (p : bool -> sup bool) Q E :
  stable P -> runs P (p true) Q E -> runs (fun w => P w /\ in_time deadline turns w) (p false) Q E ->
  runs (fun w => P w /\ in_time deadline (S turns) w)
    (now ← sup_ask Monotonic; if deadline <=? now then p true else _ ← sup_ask (Sleep 10000); p false) Q E.
Proof.
  intros HP Ht Hf. eapply runs_bind.
  - apply (runs_calm reaps claims strict Monotonic (fun w => P w /\ in_time deadline (S turns) w)
      (fun r w => r <= m_clock w /\ (strict -> deadline - r < 10000 * Z.of_nat turns))); [done|stay|stay|].
    intros w r w' [_ Hin] [-> ->]. split; [done|]. intros Hs. destruct (Hin Hs). lia.
  - intros now. cbv beta. destruct (Z.leb_spec deadline now); [eapply runs_conseq; [exact Ht| |done|done]; by intros w ((H' & _) & _)|].
    apply (runs_bind reaps claims strict _ _ _ (fun _ w => P w /\ in_time deadline turns w)); [|by intros u].
    eapply runs_conseq; [apply (runs_calm reaps claims strict (Sleep 10000)
      (fun w => (P w /\ in_time deadline (S turns) w) /\ now <= m_clock w /\ (strict -> deadline - now < 10000 * Z.of_nat turns))
      (fun _ w => in_time deadline turns w)); [done|stay|stay|]| | |].
    + intros w r w' (_ & Hnow & Hleft) (t & Hle & ->) Hs. pose proof (Hleft Hs). cbn in *. lia.
    + done.
    + by intros r w (((H1 & _) & _) & H2).
    + done.
Qed.

Lemma wait_for_children_runs turns deadline P E :
  stable P -> runs (fun w => P w /\ in_time deadline turns w) (_wait_for_children reaps turns deadline) (fun b w => P w /\ no_child b w) E.
Proof.
  intros HP. induction turns as [|turns IH]; cbn [_wait_for_children].
  { apply runs_spin. intros w [_ H] Hs. destruct (H Hs). lia. }
  eapply runs_bind; [apply no_children_now_runs; stay|]. intros [|]; cbv beta iota.
  { apply runs_ret. by intros w ((H & _) & Hn). }
  eapply runs_pre; [apply (next_turn_runs turns deadline P (fun b => if b : bool then mret false else _wait_for_children reaps turns deadline))|].
  - done.
  - apply runs_ret. intros w H. by split.
  - exact IH.
  - by intros w (H & _).
Qed.

Lemma kill_each_runs pids P E : stable P -> runs P (kill_each pids) (fun _ w => P w) E.
Proof.
  intros HP. induction pids as [|pid pids IH]; cbn [kill_each]; [by apply runs_ret|].
  apply (ask_then reaps claims strict (KillChild pid)); [done|done|]. intros []; [exact IH..|by apply runs_ret].
Qed.

Lemma direct_children_runs P E : stable P -> runs P _direct_children (fun _ w => P w) E.
Proof. intros HP. apply (ask_then reaps claims strict ChildrenText); [done|done|]. intros content. by apply runs_ret. Qed.

Lemma kill_and_reap_runs turns deadline P E :
  stable P -> runs (fun w => P w /\ in_time deadline turns w) (_kill_and_reap_children reaps turns deadline) (fun b w => P w /\ no_child b w) E.
Proof.
  intros HP. induction turns as [|turns IH]; cbn [_kill_and_reap_children].
  { apply runs_spin. intros w [_ H] Hs. destruct (H Hs). lia. }
  eapply runs_bind; [apply no_children_now_runs; stay|]. intros [|]; cbv beta iota.
  { apply runs_ret. by intros w ((H & _) & Hn). }
  assert (stable (fun w => P w /\ in_time deadline (S turns) w)) as HPin by stay.
  eapply runs_bind; [eapply runs_pre; [apply (direct_children_runs _ _ HPin)|]; by intros w (H & _)|]. intros [pids|]; cbv beta iota.
  2: { apply runs_ret. intros w (H & _). by split. }
  eapply runs_bind; [apply (kill_each_runs _ _ _ HPin)|]. intros [|]; cbv beta iota; cbn [negb].
  2: { apply runs_ret. intros w (H & _). by split. }
  apply (next_turn_runs turns deadline P (fun b => if b : bool then _no_children_now reaps else _kill_and_reap_children reaps turns deadline)).
  - done.
  - by apply no_children_now_runs.
  - exact IH.
Qed.

(** *** Waits of a given length *)

Lemma turns_for_enough deadline ms w : deadline - m_clock w <= ms * 1000 -> in_time deadline (turns_for ms) w.
Proof. intros H _. unfold turns_for. split; [lia|]. pose proof (Z.div_mod ms 10). pose proof (Z.mod_pos_bound ms 10). lia. Qed.

Lemma kill_and_reap_for_runs ms P E : stable P -> runs P (kill_and_reap_for reaps ms) (fun b w => P w /\ no_child b w) E.
Proof.
  intros HP. unfold kill_and_reap_for. eapply runs_bind.
  - apply (runs_calm reaps claims strict Monotonic P (fun r w => r <= m_clock w)); [done|done|stay|]. by intros w r w' _ [-> ->].
  - intros now. cbv beta. eapply runs_pre; [by apply kill_and_reap_runs|]. intros w [H Hn]. split; [done|]. apply turns_for_enough. lia.
Qed.

Lemma wait_for_runs ms now P E :
  stable P -> runs (fun w => P w /\ now <= m_clock w) (_wait_for_children reaps (turns_for ms) (now + ms * 1000)) (fun b w => P w /\ no_child b w) E.
Proof.
  intros HP. eapply runs_pre; [by apply wait_for_children_runs|]. intros w [H Hn]. split; [done|]. apply turns_for_enough. lia.
Qed.
End Loops.

#[export] Hint Resolve stable_within stable_in_time stable_no_child : calm.

(** ** Reports *)

Lemma drop_all s : drop_str (String.length s) s = "".
Proof. assert (String.length (drop_str (String.length s) s) = 0)%nat by (rewrite length_drop_str; lia). by destruct (drop_str _ _). Qed.

Section Reports.
Context (reaps : nat) (claims : string -> Prop) (strict : Prop).
#[local] Abbreviation runs := (runs reaps claims strict).
#[local] Abbreviation stable := (stable supervised around 0).
#[local] Ltac stay := auto 8 with calm.

(** Writing when a claim would be true. *)
Lemma write_all_true turns data P r0 :
  stable P -> (forall s w, P w -> P (with_report s w)) -> (forall r w, P w -> claims r -> quiet w) -> (String.length data <= turns)%nat ->
  runs (fun w => P w /\ m_report w = r0) (write_all turns data) (fun _ w => P w /\ m_report w = r0 +:+ data) (fun e w => os_error e = true /\ P w).
Proof.
  intros HP Hkeep Hclaim. revert data r0. induction turns as [|turns IH]; intros data r0 Hlen; destruct (String.eqb_spec data "") as [->|Hne].
  - apply runs_ret. intros w [H ->]. by rewrite append_nil.
  - destruct data; [done|]. cbn in Hlen. lia.
  - apply runs_ret. intros w [H ->]. by rewrite append_nil.
  - cbn [write_all]. rewrite (proj2 (String.eqb_neq _ _) Hne).
    apply (runs_bind reaps claims strict _ _ _ (fun n w => (0 < n)%nat /\ P w /\ m_report w = r0 +:+ String.substring 0 n data)).
    + apply (runs_call reaps claims strict (Write data)); [stay|stay|]. intros w [n|e] w' [Hs1 Hs2] [H Hr] Hd; cbn in Hd.
      * destruct Hd as (Hn & _ & _ & ->). split; [split; [intros Hc; exact (Hclaim _ _ H Hc)|exact Hs2]|].
        cbn. rewrite Hr. split; [done|]. by split; [apply Hkeep|].
      * destruct Hd as [He ->]. by split.
    + intros n. apply runs_fact. intros Hn. eapply runs_conseq; [apply (IH (drop_str n data) (r0 +:+ String.substring 0 n data))| | |done].
      * rewrite length_drop_str. destruct data; [done|]. cbn in *. lia.
      * by intros w H.
      * intros u w [H Hr]. split; [done|]. by rewrite Hr, <-append_assoc, take_drop_str.
Qed.

(** A claim that is not made may be written at any time: it is short. *)
Lemma write_all_short turns data P :
  stable P -> ~ claims data -> (0 < String.length data <= pipe_buf)%nat -> (0 < turns)%nat ->
  runs (fun w => P w /\ m_report w = "") (write_all turns data) (fun _ _ => True) (fun e w => os_error e = true /\ P w /\ m_report w = "").
Proof.
  intros HP Hclaim Hlen Hturns. destruct turns as [|turns]; [lia|]. destruct (String.eqb_spec data "") as [->|Hne]; [cbn in Hlen; lia|].
  cbn [write_all]. rewrite (proj2 (String.eqb_neq _ _) Hne).
  apply (runs_bind reaps claims strict _ _ _ (fun n w => n = String.length data /\ True)).
  - apply (runs_call reaps claims strict (Write data)); [stay|stay|]. intros w [n|e] w' [Hs1 Hs2] [H Hr] Hd; cbn in Hd.
    + destruct Hd as (_ & _ & Hall & ->). rewrite Hall by lia. split; [split; [|exact Hs2]|done].
      cbn. rewrite Hr, substring_whole by done. by intros Hc.
    + destruct Hd as [He ->]. by split.
  - intros n. apply runs_fact. intros ->. rewrite drop_all. destruct turns; by apply runs_ret.
Qed.
End Reports.

(** ** Starting a process *)

Section Starts.
Context (reaps : nat) (claims : string -> Prop) (strict : Prop).
#[local] Abbreviation runs := (runs reaps claims strict).
#[local] Abbreviation stable := (stable supervised around 0).
#[local] Ltac stay := auto 8 with calm.

(** Nothing started, nothing reported. *)
Definition fresh (w : machine) : Prop := quiet w /\ m_report w = "".
Lemma stable_fresh : stable fresh.
Proof. apply supervisor_stable_and; stay. Qed.

(** Started, and nothing reported. *)
Definition begun (w : machine) : Prop := m_report w = "" /\ armed w.
Lemma stable_begun : stable begun.
Proof. apply supervisor_stable_and; stay. Qed.
Hint Resolve stable_begun stable_fresh : calm.

Lemma stable_reaper : stable (fun w => m_reaper w = true).
Proof. intros w w' H Hk. by rewrite (calm_reaper _ _ (Hk eq_refl)). Qed.
Hint Resolve stable_reaper : calm.

Lemma prctl_runs o P E :
  stable P -> (forall w, P w -> P (adopting w)) ->
  runs P (sup_ask (Prctl o)) (fun r w => P w /\ ((o =? 36) && (r =? 0) = true -> m_reaper w = true)) E.
Proof.
  intros HP Hkeep. unfold SupervisorProps.runs, ask.
  apply (triple_bind supervised (sound reaps claims strict) around 0 P (request (I := kernel_host) (Prctl o)) _
    (fun r w => P w /\ ((o =? 36) && (r =? 0) = true -> m_reaper w = true))); [|intros r; by apply triple_ret].
  apply (triple_one reaps claims strict (Prctl o)); [stay|]. intros w r w' [H1 H2] HPw Hd. cbn in Hd. subst w'.
  destruct (_ && _); split; try done; by split; try apply Hkeep.
Qed.

Lemma enable_runs E :
  runs fresh _enable_child_subreaper (fun b w => fresh w /\ (b = true -> m_reaper w = true)) E.
Proof.
  unfold _enable_child_subreaper. apply (ask_then reaps claims strict IsLinux); [done|stay|]. intros [|]; cbn [negb].
  2: { apply runs_ret. by split. }
  apply (runs_bind reaps claims strict _ _ _ (fun r w => fresh w /\ ((r =? 0) = true -> m_reaper w = true))); [by apply prctl_runs; [stay|]|].
  intros r. destruct (r =? 0); cbn [negb]; [|apply runs_ret; by intros w [H _]].
  apply (runs_bind reaps claims strict _ _ _ (fun _ w => fresh w /\ m_reaper w = true)); [|intros r'; apply runs_ret; by intros w [H1 H2]].
  eapply runs_conseq; [apply (prctl_runs 4 (fun w => fresh w /\ m_reaper w = true) E); [stay|by intros w [H _]]| | |done].
  - intros w [H1 H2]. split; [done|]. by apply H2.
  - by intros r' w [H _].
Qed.

Lemma begun_of_fresh w : fresh w -> m_reaper w = true -> begun w.
Proof. by intros [[_ H1] H2] H3. Qed.

(** A process of ours is born. *)
Lemma spawn_runs command P :
  stable P -> (forall w, P w -> ~ claims (m_report w)) -> (forall pid w, P w -> P (born pid w)) ->
  runs P (sup_invoke (Spawn command)) (fun _ => P) (fun _ => P).
Proof.
  intros HP Hno Hborn. apply (runs_call reaps claims strict (Spawn command) eq_refl P); [done|done|].
  intros w [pid|e] w' [H1 H2] HPw Hd; cbn in Hd; [|by subst w'].
  destruct Hd as (Hn & Hb & ->). split; [|by apply Hborn]. split; cbn.
  - intros Hc. by destruct (Hno w HPw).
  - intros Hs. destruct (H2 Hs) as [Hsp Hlt]. split; [done|]. rewrite size_union by set_solver. rewrite size_singleton. lia.
Qed.

Lemma begun_claims_nothing w : ~ claims "" -> begun w -> ~ claims (m_report w).
Proof. by intros H [-> _]. Qed.
End Starts.

#[export] Hint Resolve stable_begun stable_fresh stable_reaper : calm.

(** ** The supervisor *)

Section Outer.
Context (float_repr : spec_float -> string) (float_of : string -> spec_float) (reaps : nat) (strict : Prop).
#[local] Abbreviation claims := (settles float_of).
#[local] Abbreviation runs := (runs reaps claims strict).
#[local] Abbreviation stable := (stable supervised around 0).
#[local] Ltac stay := auto 8 with calm.

Lemma nothing_claimed : ~ claims "".
Proof. intros [code H]. exact H. Qed.

Definition unresolved (late : bool) (reason : string) : string :=
  report_text float_repr (report_payload (PStr "unresolved") PNone late false (PStr reason) PNone PNone).

(** The reports that are made while something may be left. *)
Lemma unresolved_claims_nothing late reason :
  (late, reason) ∈ [(true, "sandbox_supervisor_stop_unconfirmed"); (false, "sandbox_supervisor_output_too_large");
    (false, "sandbox_descendant_quiescence_unconfirmed"); (false, "sandbox_supervisor_protocol_failed")] ->
  ~ claims (unresolved late reason) /\ (0 < String.length (unresolved late reason) <= pipe_buf)%nat.
Proof.
  intros H. assert (forall text, (forall code, judge float_of text code = VUnknown "command_descendant_quiescence_unconfirmed") -> ~ claims text) as Hno.
  { intros text Ht [code Hc]. by rewrite Ht in Hc. }
  rewrite !elem_of_cons in H. destruct H as [[= -> ->]|[[= -> ->]|[[= -> ->]|[[= -> ->]|[]%elem_of_nil]]]];
    (split; [apply Hno; intros code; vm_compute; reflexivity|apply (bool_decide_eq_true_1 (_ /\ _)); vm_compute; reflexivity]).
Qed.

Lemma report_unresolved_runs late reason P :
  stable P -> (late, reason) ∈ [(true, "sandbox_supervisor_stop_unconfirmed"); (false, "sandbox_supervisor_output_too_large");
    (false, "sandbox_descendant_quiescence_unconfirmed"); (false, "sandbox_supervisor_protocol_failed")] ->
  runs (fun w => P w /\ m_report w = "") (_report float_repr "unresolved" late (PStr reason)) (fun _ _ => True)
    (fun e w => os_error e = true /\ P w /\ m_report w = "").
Proof.
  intros HP H. apply unresolved_claims_nothing in H as [H1 H2]. apply write_all_short; [done|done|done|]. exact (proj1 H2).
Qed.

(** Any report when nothing is left. *)
Lemma send_quiet d : runs quiet (send_report float_repr d) (fun _ _ => True) (fun e w => os_error e = true /\ quiet w).
Proof.
  intros w Hw Hq. unfold send_report.
  assert (runs (fun w' => quiet w' /\ m_report w' = m_report w) (write_all (String.length (report_text float_repr d)) (report_text float_repr d))
            (fun _ _ => True) (fun e w => os_error e = true /\ quiet w)) as H.
  { eapply runs_conseq; [apply (write_all_true reaps claims strict _ _ quiet (m_report w)); [stay|done|done|done]|done|done|done]. }
  by apply H.
Qed.

(** A report, then an exit code. *)
Lemma then_exit P (p : sup unit) (z : Z) E : runs P p (fun _ _ => True) E -> runs P ((_ ← p; mret z) : sup Z) (fun _ _ => True) E.
Proof. intros H. eapply runs_bind; [exact H|]. intros u. by apply runs_ret. Qed.

Definition harmless_end (e : exn) (w : machine) : Prop := os_error e = true -> quiet w \/ m_report w = "".

Lemma relay_runs stdout code :
  runs quiet (relay float_repr float_of stdout code) (fun _ _ => True) harmless_end.
Proof.
  assert (forall d z, runs quiet ((_ ← send_report float_repr d; mret z) : sup Z) (fun _ _ => True) harmless_end) as Hsend.
  { intros d z. apply then_exit. eapply runs_conseq; [apply send_quiet|done|done|]. intros e w [_ H] _. by left. }
  unfold relay. destruct (parse_report float_of stdout) as [v|]; [|apply Hsend]. destruct (inner_shape v) as [[[d late] q]|]; [|apply Hsend].
  apply (runs_bind reaps claims strict _ _ _ (fun _ => quiet)); [by apply runs_guard|]. intros u.
  destruct (_ && _); [apply Hsend|]. destruct (_ || _); apply Hsend.
Qed.

Lemma unresolved_exit late reason :
  (late, reason) ∈ [(true, "sandbox_supervisor_stop_unconfirmed"); (false, "sandbox_supervisor_output_too_large");
    (false, "sandbox_descendant_quiescence_unconfirmed"); (false, "sandbox_supervisor_protocol_failed")] ->
  runs begun ((_ ← _report float_repr "unresolved" late (PStr reason); mret 1) : sup Z) (fun _ _ => True) harmless_end.
Proof.
  intros H. apply then_exit. eapply runs_conseq; [apply (report_unresolved_runs late reason armed); [stay|done]| |done|].
  - intros w [H1 H2]. by split.
  - intros e w (_ & _ & H') _. by right.
Qed.

Lemma attend_runs rq request pid : runs begun (attend float_repr float_of reaps rq request pid) (fun _ _ => True) harmless_end.
Proof.
  assert (forall e w, begun w -> harmless_end e w) as Hend by (intros e w [H _] _; by right).
  unfold attend. apply (ask_then reaps claims strict Monotonic); [done|stay|]. intros now.
  apply (ask_then reaps claims strict Monotonic); [done|stay|]. intros now'.
  apply (runs_bind reaps claims strict _ _ _ (fun _ => begun)).
  { eapply runs_conseq; [apply (runs_invoke reaps claims strict _ _ begun); [done|stay]|done|done|apply Hend]. }
  intros [[[stdout stderr] code]|]; cbv beta iota.
  2: { apply (ask_then reaps claims strict (KillTarget pid)); [done|stay|]. intros u.
    apply (runs_bind reaps claims strict _ _ _ (fun _ => begun)).
    { eapply runs_conseq; [apply (kill_and_reap_for_runs reaps claims strict _ begun harmless_end); stay|done| |done]. by intros b w [H _]. }
    intros b. apply (runs_bind reaps claims strict _ _ _ (fun _ => begun)).
    { eapply runs_conseq; [apply (runs_invoke reaps claims strict _ _ begun); [done|stay]|done|done|apply Hend]. }
    intros r. apply unresolved_exit. set_solver. }
  destruct (_ || _); [apply unresolved_exit; set_solver|].
  eapply runs_bind.
  { apply (runs_calm reaps claims strict Monotonic begun (fun r w => r <= m_clock w)); [done|stay|stay|]. by intros w r w' _ [-> ->]. }
  intros t. cbv beta. apply (runs_bind reaps claims strict _ _ _ (fun b w => begun w /\ no_child b w)).
  { apply wait_for_runs. stay. }
  intros [|]; cbn [negb].
  - eapply runs_pre; [apply (relay_runs stdout code)|]. intros w ((H1 & H2 & H3) & Hn). by split; [apply Hn|].
  - eapply runs_pre; [apply unresolved_exit; set_solver|]. by intros w [H _].
Qed.

(** An operating-system error at the end: a last report. *)
Lemma failed_runs :
  runs (fun w => quiet w \/ m_report w = "")
    ((_ ← try_except (_report float_repr "unresolved" false (PStr "sandbox_supervisor_protocol_failed")) (fun e => if os_error e then mret tt else raise e);
      mret 1) : sup Z) (fun _ _ => True) (fun _ _ => True).
Proof.
  apply then_exit. eapply (runs_try _ _ _ _ _ _ (fun _ _ => True)); [|intros e; destruct (os_error e); by apply triple_ret].
  apply runs_or.
  - eapply runs_conseq; [apply send_quiet|done|done|done].
  - eapply runs_conseq; [apply (report_unresolved_runs _ _ (fun _ => True)); [stay|set_solver]|by intros w H|done|done].
Qed.

Lemma run_request_runs rq request : runs fresh (_run_request float_repr float_of reaps rq request) (fun _ _ => True) (fun _ _ => True).
Proof.
  assert (forall reason, runs fresh ((_ ← _report float_repr "unavailable" false (PStr reason); mret 1) : sup Z) (fun _ _ => True) (fun _ _ => True)) as Hrefuse.
  { intros reason. apply then_exit. eapply runs_conseq; [apply send_quiet|by intros w [H _]|done|done]. }
  unfold _run_request. apply (ask_then reaps claims strict IsLinux); [done|stay|]. intros linux.
  apply (runs_bind reaps claims strict _ _ _ (fun b w => fresh w /\ (b = true -> m_reaper w = true))).
  { destruct linux; [apply enable_runs|]. apply runs_ret. by split. }
  intros [|]; cbn [negb]; [|eapply runs_pre; [apply Hrefuse|]; by intros w [H _]].
  apply (ask_then reaps claims strict FileSystem); [done|stay|]. intros fs.
  destruct (_sandbox_command fs rq) as [r|command]; [eapply runs_pre; [apply Hrefuse|]; by intros w [H _]|].
  apply (runs_pre reaps claims strict _ begun); [|intros w [H1 H2]; by apply begun_of_fresh; [|apply H2]].
  apply (runs_bind reaps claims strict _ _ _ (fun _ => begun)).
  { eapply (runs_try reaps claims strict _ _ _ (fun _ => begun)).
    - apply (runs_bind reaps claims strict _ _ _ (fun _ => begun)); [apply spawn_runs; [stay|exact (fun w => begun_claims_nothing claims w nothing_claimed)|done]|]. intros pid. by apply runs_ret.
    - intros e. destruct (os_error e); by apply triple_ret. }
  intros [pid|]; [|eapply runs_pre; [apply failed_runs|]; intros w [H _]; by right].
  eapply (runs_try reaps claims strict _ _ _ harmless_end); [apply attend_runs|]. intros e.
  destruct (os_error e) eqn:He; cbn [negb]; [|by apply runs_raise].
  apply (runs_pre reaps claims strict _ (fun w => quiet w \/ m_report w = "")); [|intros w H; by apply H].
  apply (ask_then reaps claims strict (PollChild pid)); [done|stay|]. intros code.
  apply (runs_bind reaps claims strict _ _ _ (fun _ w => quiet w \/ m_report w = "")); [|intros u; apply failed_runs].
  destruct code; [by apply runs_ret|]. apply (ask_then reaps claims strict (KillTarget pid)); [done|stay|]. intros u.
  eapply runs_bind; [apply kill_and_reap_for_runs; stay|]. intros b. apply runs_ret. by intros w [H _].
Qed.

Lemma read_request_runs P : stable P -> runs P (_read_request float_of) (fun _ => P) (fun _ => P).
Proof.
  intros HP. unfold _read_request. apply (runs_bind reaps claims strict _ _ _ (fun _ => P)); [by apply runs_invoke|]. intros raw.
  destruct (_ || _); [by apply runs_ret|]. destruct (parse_report float_of raw); [by apply runs_ret|by apply runs_raise].
Qed.

(** The supervisor of a request: its argument is not "--sandbox". *)
Lemma main_outer_runs name mode :
  mode <> "--sandbox" -> runs (fun w => fresh w /\ m_argv w = [name; mode]) (main float_repr float_of reaps) (fun _ _ => True) (fun _ _ => True).
Proof.
  intros Hmode. unfold main. eapply runs_bind.
  { apply (runs_calm reaps claims strict Argv _ (fun r w => r = [name; mode])); [done|stay|stay|]. by intros w r w' [_ H] [-> ->]. }
  intros argv. cbv beta. apply (runs_pre reaps claims strict _ (fun w => argv = [name; mode] /\ fresh w)); [|by intros w ((H1 & _) & H2)].
  apply runs_fact. intros ->. rewrite (proj2 (String.eqb_neq _ _) Hmode).
  eapply (runs_try reaps claims strict _ _ _ (fun _ _ => True)); [|intros e; destruct (caught e); by apply triple_ret].
  apply (runs_bind reaps claims strict _ _ _ (fun _ => fresh)); [by apply runs_guard|]. intros u.
  apply (runs_bind reaps claims strict _ _ _ (fun _ => fresh)); [eapply runs_conseq; [apply (read_request_runs fresh); stay|done|done|done]|].
  intros [[rq d]|]; [apply run_request_runs|].
  apply then_exit. eapply runs_conseq; [apply send_quiet|by intros w [H _]|done|done].
Qed.
End Outer.

(** ** Inside the sandbox *)

Section Inner.
Context (float_repr : spec_float -> string) (float_of : string -> spec_float) (reaps : nat) (strict : Prop).
#[local] Abbreviation claims := (fun _ : string => False).
#[local] Abbreviation runs := (runs reaps claims strict).
#[local] Abbreviation stable := (stable supervised around 0).
#[local] Ltac stay := auto 8 with calm.

Lemma run_target_runs pid now cleanup timeout E :
  runs (fun w => begun w /\ now <= m_clock w) (run_target reaps pid (now + timeout * 1000) cleanup timeout)
    (fun o w => begun w /\ no_child (oc_quiet o) w) E.
Proof.
  unfold run_target. apply (ask_then reaps claims strict Monotonic); [done|stay|]. intros t.
  apply (ask_then reaps claims strict (WaitFor pid (seconds_left (now + timeout * 1000) t))); [done|stay|]. intros first.
  apply (runs_bind reaps claims strict _ _ _ (fun _ w => begun w /\ now <= m_clock w)).
  { destruct first as [code|]; [by apply runs_ret|]. apply (ask_then reaps claims strict (KillTarget pid)); [done|stay|]. intros u.
    apply (ask_then reaps claims strict (WaitFor pid (cleanup * 1000))); [done|stay|]. intros c. by apply runs_ret. }
  intros [code late]. apply (runs_bind reaps claims strict _ _ _ (fun ql w => begun w /\ no_child ql.1 w)).
  { destruct code as [code|].
    - eapply runs_bind; [apply wait_for_runs; stay|]. intros [|]; [apply runs_ret; by intros w [H1 H2]|].
      apply (ask_then reaps claims strict (KillTarget pid)); [done|stay|]. intros u.
      apply (runs_bind reaps claims strict _ _ _ (fun q w => begun w /\ no_child q w)); [|intros q; by apply runs_ret].
      eapply runs_pre; [apply kill_and_reap_for_runs; stay|]. by intros w [H _].
    - apply (runs_bind reaps claims strict _ _ _ (fun q w => begun w /\ no_child q w)); [|intros q; by apply runs_ret].
      eapply runs_pre; [apply kill_and_reap_for_runs; stay|]. by intros w [H _]. }
  intros [q late']. cbn [fst]. apply (ask_then reaps claims strict Monotonic); [done|stay|]. intros t'.
  apply (ask_then reaps claims strict JoinDigests); [done|stay|]. intros [[reading out] err].
  apply runs_ret. intros w [H Hn]. split; [done|]. cbn. intros [Hq _]%andb_true_iff. by apply Hn.
Qed.

(** Zero is answered for a command that ended, with nothing of it left, and says so. *)
Definition finished (z : Z) (w : machine) : Prop :=
  z = 0 -> quiet w /\ exists o, completed o = true /\ m_report w = report_text float_repr (outcome_payload o).

Lemma finished_not z w : z <> 0 -> finished z w.
Proof. by intros Hz. Qed.

(** A failure: some report, and another exit code. *)
Lemma fails_with (p : sup unit) P z : z <> 0 -> (forall w, P w -> True) ->
  runs P p (fun _ _ => True) (fun _ _ => True) -> runs P ((_ ← p; mret z) : sup Z) finished (fun _ _ => True).
Proof. intros Hz _ Hp. eapply runs_bind; [exact Hp|]. intros u. apply runs_ret. intros w _. by apply finished_not. Qed.

Lemma send_any d P : stable P -> (forall s w, P w -> P (with_report s w)) ->
  runs P (send_report float_repr d) (fun _ _ => True) (fun e w => os_error e = true /\ P w).
Proof.
  intros HP Hkeep w Hw HPw. unfold send_report.
  assert (runs (fun w' => P w' /\ m_report w' = m_report w) (write_all (String.length (report_text float_repr d)) (report_text float_repr d))
            (fun _ _ => True) (fun e w => os_error e = true /\ P w)) as H.
  { eapply runs_conseq; [apply (write_all_true reaps claims strict _ _ P (m_report w)); [done|done|done|done]|done|done|done]. }
  by apply H.
Qed.

Lemma report_any P state late reason : runs P (_report float_repr state late reason) (fun _ _ => True) (fun _ _ => True).
Proof.
  eapply (runs_conseq reaps claims strict _ (fun _ => True)); [apply send_any; [stay|done]|done|done|done].
Qed.

Lemma run_command_tree_runs rq : runs fresh (_run_command_tree float_repr reaps rq) finished (fun _ _ => True).
Proof.
  unfold _run_command_tree. apply (runs_bind reaps claims strict _ _ _ (fun b w => fresh w /\ (b = true -> m_reaper w = true))); [apply enable_runs|].
  intros [|]; cbn [negb]; [|by apply fails_with; [done|done|apply report_any]].
  apply (runs_pre reaps claims strict _ begun); [|intros w [H1 H2]; by apply begun_of_fresh; [|apply H2]].
  eapply runs_bind.
  { apply (runs_calm reaps claims strict Monotonic begun (fun r w => r <= m_clock w)); [done|stay|stay|]. by intros w r w' _ [-> ->]. }
  intros now. cbv beta. apply (runs_bind reaps claims strict _ _ _ (fun _ w => begun w /\ now <= m_clock w)).
  { eapply (runs_try reaps claims strict _ _ _ (fun _ w => begun w /\ now <= m_clock w)).
    - apply (runs_bind reaps claims strict _ _ _ (fun _ w => begun w /\ now <= m_clock w)); [|intros pid; by apply runs_ret].
      apply spawn_runs; [stay|by intros w _ []|done].
    - intros e. destruct e; by apply triple_ret. }
  intros [pid|]; [|apply fails_with; [done|done|apply report_any]].
  eapply runs_bind; [apply run_target_runs|]. intros o. cbv beta.
  eapply (runs_try reaps claims strict _ _ _ (fun _ _ => True)).
  - apply (runs_bind reaps claims strict _ _ _ (fun _ w => (armed w /\ no_child (oc_quiet o) w) /\ m_report w = report_text float_repr (outcome_payload o))).
    + eapply runs_conseq; [apply (write_all_true reaps claims strict _ _ (fun w => armed w /\ no_child (oc_quiet o) w) "")| | |done].
      * stay.
      * done.
      * by intros r w _ [].
      * done.
      * by intros w ((H1 & H2) & H3).
      * done.
    + intros u. apply runs_ret. intros w (((Ha & Hl) & Hn) & Hr). destruct (completed o) eqn:Hc; [|by apply finished_not]. intros _.
      split; [|by exists o]. split; [|done]. apply Hn. unfold completed in Hc. by apply andb_true_iff in Hc as [Hc _].
  - intros e. apply (ask_then reaps claims strict (KillTarget pid)); [done|stay|]. intros u.
    eapply runs_bind; [apply kill_and_reap_for_runs; stay|]. intros b. apply fails_with; [done|done|].
    eapply (runs_try reaps claims strict _ _ _ (fun _ _ => True)); [|intros e'; destruct e'; by apply triple_ret].
    eapply runs_conseq; [apply (send_any _ (fun _ => True)); [stay|done]|done|done|done].
Qed.

Lemma main_inner_runs name :
  runs (fun w => fresh w /\ m_argv w = [name; "--sandbox"]) (main float_repr float_of reaps) finished (fun _ _ => True).
Proof.
  unfold main. eapply runs_bind.
  { apply (runs_calm reaps claims strict Argv _ (fun r w => r = [name; "--sandbox"])); [done|stay|stay|]. by intros w r w' [_ H] [-> ->]. }
  intros argv. cbv beta. apply (runs_pre reaps claims strict _ (fun w => argv = [name; "--sandbox"] /\ fresh w)); [|by intros w ((H1 & _) & H2)].
  apply runs_fact. intros ->. rewrite String.eqb_refl.
  eapply (runs_try reaps claims strict _ _ _ (fun _ _ => True)).
  2: { intros e; destruct (caught e); apply triple_ret; [|done]. intros w _. by apply finished_not. }
  apply (runs_bind reaps claims strict _ _ _ (fun _ => fresh)).
  { unfold _read_request. apply (runs_bind reaps claims strict _ _ _ (fun _ => fresh)).
    - eapply runs_conseq; [apply (runs_invoke reaps claims strict _ _ fresh); [done|stay]|done|done|done].
    - intros raw. destruct (_ || _); [by apply runs_ret|]. destruct (parse_report float_of raw); [by apply runs_ret|by apply runs_raise]. }
  assert (runs fresh ((_ ← _report float_repr "not_started" false (PStr "supervisor_request_invalid"); mret 2) : sup Z) finished (fun _ _ => True)) as Hbad
    by (apply fails_with; [done|done|apply report_any]).
  intros [[rq d]|]; [|exact Hbad]. destruct (sr_place rq); [apply run_command_tree_runs|exact Hbad].
Qed.
End Inner.

(** ** One process *)

Section Process.
Context (float_repr : spec_float -> string) (float_of : string -> spec_float) (reaps : nat).
#[local] Abbreviation program := (main float_repr float_of reaps).
#[local] Abbreviation config := (config (A := result Z) supervised).
#[local] Abbreviation step := (step supervised (fun _ : prog kernel_host (result Z) => False)).

(** A process that starts: no descendants, nothing reported.  With turns for every process
    that is still created ([many]), its loops must not run out of them. *)
Definition starts (mode : string) (many : Prop) (w : machine) : Prop :=
  fresh w /\ (exists name, m_argv w = [name; mode]) /\ (many -> m_spun w = false /\ (m_births w < reaps)%nat).

(** It runs, may be stopped anywhere, and its descendants go on. *)
Definition process : gmap nat (prog kernel_host (result Z)) := <[0%nat := program]> ∅.
Definition reached (w : machine) (c : config) : Prop := rtc step (process, w) c.

Lemma safe_kept claims strict (Q : result Z -> machine -> Prop) (c c' : config) :
  all_safe supervised (sound reaps claims strict) around Q c -> rtc step c c' -> all_safe supervised (sound reaps claims strict) around Q c'.
Proof.
  intros H Hs. induction Hs as [|c c1 c2 Hs _ IH]; [done|]. apply IH. revert H Hs. clear IH.
  apply (step_all_safe supervised (sound reaps claims strict) around (fun _ => False)); [by intros| |].
  - intros w1 w2 Hok He. apply others_calm in He. split; [by eapply calm_sound|]. by intros tid _.
  - intros [|tid] w1 Hok; cbn; (split; [first [by apply abandoned_sound|done]|]).
    + by intros t Ht ->.
    + intros t _ _. apply calm_refl.
Qed.

Lemma process_safe claims strict P Q w c :
  runs reaps claims strict P program Q (fun _ _ => True) -> stable supervised around 0 P -> sound reaps claims strict w -> P w ->
  reached w c ->
  sound reaps claims strict c.2 /\ (forall z, c.1 !! 0%nat = Some (Ret (Ok z)) -> Q z c.2).
Proof.
  intros Hp HP Hw HPw Hc. apply (safe_kept claims strict (fun r w => match r with Ok z => Q z w | Err _ => True end)) in Hc as [H1 H2].
  - split; [done|]. intros z Hz. exact (H2 0%nat _ Hz _ (rtc_refl _ _)).
  - split; [done|]. intros tid p. cbn. unfold process. rewrite lookup_insert_Some, lookup_empty. intros [[<- <-]|[_ [=]]] w' Hr.
    apply Hp; [exact (interfered_ok supervised (sound reaps claims strict) around 0 w w' Hr Hw)|].
    exact (interfered_stable supervised (sound reaps claims strict) around 0 P w w' HP Hr HPw).
Qed.

(** The invariants of the start of a process. *)
Lemma starts_sound mode claims (strict many : Prop) w : (strict -> many) -> ~ claims "" -> starts mode many w -> sound reaps claims strict w.
Proof.
  intros Hs Hno ((Hq & Hr) & _ & Hb). split; [rewrite Hr; by intros Hc|]. intros H. destruct (Hb (Hs H)) as [Hsp Hlt]. split; [done|].
  destruct Hq as [-> _]. rewrite size_empty. lia.
Qed.

(** C14: A report that settles the command, completed or not started, is there only when no
    descendant of the supervisor is left and none escaped it, whatever the command did and
    whenever the supervisor was stopped. *)
Theorem settled_report_quiet mode w c :
  starts mode False w -> mode <> "--sandbox" -> reached w c -> settles float_of (m_report c.2) -> m_tree c.2 = ∅ /\ m_loose c.2 = ∅.
Proof.
  intros Hw Hmode Hc. pose proof Hw as (Hf & (name & Ha) & _).
  destruct (process_safe (settles float_of) False _ _ w c (main_outer_runs float_repr float_of reaps False name mode Hmode)) as [[H _] _]; [..|exact H].
  - apply supervisor_stable_and; [apply stable_fresh|apply stable_argv].
  - apply (starts_sound mode _ False False w); [done|apply nothing_claimed|done].
  - by split.
  - done.
Qed.

(** C23: The process inside the sandbox answers zero only when its command ended in time to be
    seen, no descendant of it is left, and the whole report saying so is written. *)
Theorem sandbox_zero_quiet w c :
  starts "--sandbox" False w -> reached w c -> c.1 !! 0%nat = Some (Ret (Ok 0)) ->
  m_tree c.2 = ∅ /\ m_loose c.2 = ∅ /\ exists o, completed o = true /\ m_report c.2 = report_text float_repr (outcome_payload o).
Proof.
  intros Hw Hc Hz. pose proof Hw as (Hf & (name & Ha) & _).
  destruct (process_safe (fun _ => False) False _ _ w c (main_inner_runs float_repr float_of reaps False name)) as [_ H].
  - apply supervisor_stable_and; [apply stable_fresh|apply stable_argv].
  - apply (starts_sound "--sandbox" _ False False w); [done|by intros []|done].
  - by split.
  - done.
  - by destruct (H 0 Hz eq_refl) as [[H1 H2] H3].
Qed.

(** C24: Neither process loops for ever: with a turn for every process that is still created,
    and as many as the sleeps that its deadlines hold, no loop runs out of them. *)
Theorem supervisor_never_spins mode w c : starts mode True w -> reached w c -> m_spun c.2 = false.
Proof.
  intros Hw Hc. pose proof Hw as (Hf & (name & Ha) & _). destruct (String.eqb_spec mode "--sandbox") as [->|Hmode].
  - destruct (process_safe (fun _ => False) True _ _ w c (main_inner_runs float_repr float_of reaps True name)) as [[_ H] _]; [..|by apply H].
    + apply supervisor_stable_and; [apply stable_fresh|apply stable_argv].
    + apply (starts_sound "--sandbox" _ True True w); [done|by intros []|done].
    + by split.
    + done.
  - destruct (process_safe (settles float_of) True _ _ w c (main_outer_runs float_repr float_of reaps True name mode Hmode)) as [[_ H] _]; [..|by apply H].
    + apply supervisor_stable_and; [apply stable_fresh|apply stable_argv].
    + apply (starts_sound mode _ True True w); [done|apply nothing_claimed|done].
    + by split.
    + done.
Qed.
End Process.

(** * A command in its sandbox

    A request is read, a sandbox is started and its report relayed; inside, the command
    runs and its report is written.  The theorems of Sandbox and SupervisorProps are
    applied to these runs. *)

From Stdlib Require Import ZArith SpecFloat.
From stdpp Require Import relations.
From S2P Require Import Prelude PyValue Text Json JsonParse Program Commands CommandSafety Sandbox Supervisor.
Import Commands CommandSafety Sandbox Supervisor.

#[local] Open Scope string_scope.
#[local] Open Scope Z_scope.
#[local] Open Scope list_scope.

Definition no_repr (f : spec_float) : string := "0.0".
Definition no_float (s : string) : spec_float := S754_zero false.

(** ** The file system *)

Definition the_fs : filesystem := {|
  fs_which := fun name _ => if String.eqb name "bwrap" then Some "/usr/bin/bwrap" else Some ("/usr/bin/" +:+ name);
  fs_resolve := fun p => inr p.2;
  fs_is_dir := fun _ => true; fs_is_file := fun _ => true; fs_executable := fun _ => true;
  fs_cwd := ["work"; "w1"]; fs_file := "/opt/pc/supervisor.py"; fs_python := "/opt/venv/bin/python" |}.

Definition the_place : location :=
  {| lo_workspace := "/work/w1"; lo_cwd := "/work/w1/sub"; lo_prefix := "/opt/venv"; lo_repository := Some "/repo" |}.
Definition the_sandbox : sandbox_request :=
  {| sr_argv := ["pytest"; "-q"]; sr_timeout_ms := 1000; sr_cleanup_ms := 5000; sr_place := Some the_place |}.

Definition the_arguments : list string := match _sandbox_command the_fs the_sandbox with inr (_ :: args) => args | _ => [] end.

(** Three read-only mounts and the workspace; an option that is not documented is not read. *)
Lemma sandbox_exposes_witness :
  option_map (fun r => omap host_mount r.1) (read_options the_arguments)
  = Some [ReadOnly "/usr" "/usr"; ReadOnly "/opt/venv" "/opt/venv"; ReadOnly "/opt/pc/supervisor.py" "/opt/pc/supervisor.py";
          Writable "/work/w1" "/work/w1"]
  /\ read_options ("--share-net" :: the_arguments) = None
  /\ ~ usr `prefix_of` ["work"; "w1"].
Proof.
  split; [vm_compute; reflexivity|]. split; [vm_compute; reflexivity|].
  destruct (sandbox_exposes the_fs the_sandbox "/usr/bin/bwrap" the_arguments) as (lo & workspace & source & helper & Hlo & Hw & _ & _ & _ & _ & H & _).
  - vm_compute. reflexivity.
  - apply (inj Some) in Hlo as <-. apply (inj inr) in Hw as <-. exact H.
Defined.

(** ** The kernel *)

Definition request_line : string :=
  json_ascii no_repr "," ":" (PDict [("argv", PList [PStr "pytest"; PStr "-q"]); ("timeout_ms", PInt 1000); ("cleanup_ms", PInt 5000);
    ("workspace", PStr "/work/w1"); ("cwd", PStr "/work/w1/sub"); ("runtime_prefix", PStr "/opt/venv"); ("repository_root", PStr "/repo")]) +:+ chr 10.

Definition stdout_digest : string := String.concat "" (repeat "0123456789abcdef" 4).
Definition stderr_digest : string := String.concat "" (repeat "fedcba9876543210" 4).
Definition inner_outcome : outcome :=
  {| oc_code := Some 0; oc_late := false; oc_quiet := true; oc_stdout := Some stdout_digest; oc_stderr := Some stderr_digest |}.
Definition inner_report : string := report_text no_repr (outcome_payload inner_outcome).

Definition answer_one (c : sup_call) (w : machine) : option (sup_answer c * machine) :=
  match c return option (sup_answer c * machine) with
  | Argv => Some (m_argv w, w)
  | ReadLine _ => Some (Ok request_line, w)
  | IsLinux => Some (true, w)
  | Prctl o => Some (0, if (o =? 36) && (0 =? 0) then adopting w else w)
  | WaitAny => if decide (m_tree w = ∅) then Some (NoChild, w) else Some (NotYet, w)
  | Monotonic => Some (m_clock w, w)
  | FileSystem => Some (the_fs, w)
  | Spawn _ =>
      let pid := 7 in
      if decide (pid ∈ m_tree w) then None else match m_births w with O => None | S _ => Some (Ok pid, born pid w) end
  | WaitFor pid _ => Some (Some 0, reaped pid w)
  | Communicate pid _ _ => Some (Ok (Some (inner_report, "", 0)), reaped pid w)
  | JoinDigests => Some ((false, Some stdout_digest, Some stderr_digest), w)
  | Write data =>
      if String.eqb data "" then None else Some (Ok (String.length data), with_report (String.substring 0 (String.length data) data) w)
  | _ => None
  end.

Lemma supervisor_answer_allowed c w r w' : answer_one c w = Some (r, w') -> kernel_does c w r w'.
Proof.
  destruct c; cbn [answer_one kernel_does]; intros H; try discriminate; try (by injection H as <- <-).
  - destruct (decide (m_tree w = ∅)); by injection H as <- <-.
  - destruct (decide (7 ∈ m_tree w)); [discriminate|]. destruct (m_births w) as [|births] eqn:Hb; [discriminate|]. injection H as <- <-.
    split; [done|]. split; [lia|done].
  - destruct (String.eqb_spec data ""); [discriminate|]. injection H as <- <-. split; [destruct data; [done|cbn; lia]|]. by split; [|split].
Qed.

Fixpoint drive (fuel : nat) (p : prog kernel_host (result Z)) (w : machine) : option (result Z * machine) :=
  match fuel, p with
  | _, Ret a => Some (a, w)
  | S fuel, Call c k => match answer_one c w with Some (r, w') => drive fuel (k r) w' | None => None end
  | O, _ => None
  end.

Lemma supervisor_drive_sound fuel p ts w a w' :
  drive fuel p w = Some (a, w') ->
  rtc (step supervised (fun _ : prog kernel_host (result Z) => False)) (<[0%nat := p]> ts, w) (<[0%nat := Ret a]> ts, w').
Proof.
  revert p w. induction fuel as [|fuel IH]; intros [b|c k] w H; cbn in H; try discriminate; try (by injection H as <- <-).
  destruct (answer_one c w) as [[r w1]|] eqn:Ha; [|discriminate]. eapply rtc_l.
  - apply (step_call supervised _ 0%nat c k r); [by rewrite lookup_insert_eq|]. by apply supervisor_answer_allowed.
  - rewrite insert_insert_eq. by apply IH.
Qed.

(** ** The runs *)

Definition the_program : prog kernel_host (result Z) := main no_repr no_float 5.

Definition at_first (mode : string) : machine :=
  {| m_argv := ["supervisor.py"; mode]; m_tree := ∅; m_loose := ∅; m_reaper := false; m_report := ""; m_clock := 0; m_births := 2; m_spun := false |}.

Definition the_run (mode : string) : result Z * machine := default (Err OverflowError, at_first mode) (drive 100 the_program (at_first mode)).
Definition the_end (mode : string) : gmap nat (prog kernel_host (result Z)) * machine := (<[0%nat := Ret (the_run mode).1]> ∅, (the_run mode).2).

Lemma run_reached mode :
  match drive 100 the_program (at_first mode) with Some _ => true | None => false end = true -> reached no_repr no_float 5 (at_first mode) (the_end mode).
Proof.
  intros H. unfold the_end, the_run. destruct (drive 100 the_program (at_first mode)) as [[a w]|] eqn:E; [|discriminate].
  exact (supervisor_drive_sound _ _ ∅ _ _ _ E).
Qed.

Lemma run_starts mode many : starts 5 mode many (at_first mode).
Proof. split; [by repeat split|]. split; [by eexists|]. by repeat split; cbn; lia. Qed.

(** The report of a completed command is relayed, and nothing is left. *)
Lemma settled_report_quiet_witness :
  judge no_float (m_report (the_end "3").2) 0 = VCompleted (PInt 0) false stdout_digest stderr_digest /\ m_tree (the_end "3").2 = ∅.
Proof.
  split; [vm_compute; reflexivity|].
  apply (settled_report_quiet no_repr no_float 5 "3" (at_first "3") (the_end "3")).
  - apply run_starts.
  - intros H. discriminate H.
  - apply run_reached. vm_compute. reflexivity.
  - exists 0. vm_compute. exact I.
Defined.

Lemma sandbox_zero_quiet_witness : (the_run "--sandbox").1 = Ok 0 /\ m_tree (the_end "--sandbox").2 = ∅.
Proof.
  assert ((the_run "--sandbox").1 = Ok 0) as H by (vm_compute; reflexivity). split; [exact H|].
  apply (sandbox_zero_quiet no_repr no_float 5 (at_first "--sandbox") (the_end "--sandbox")).
  - apply run_starts.
  - apply run_reached. vm_compute. reflexivity.
  - unfold the_end. rewrite H. reflexivity.
Defined.

Lemma supervisor_never_spins_witness : m_spun (the_end "--sandbox").2 = false /\ m_spun (the_end "3").2 = false.
Proof.
  split.
  - apply (supervisor_never_spins no_repr no_float 5 "--sandbox" (at_first "--sandbox") _ (run_starts _ True)), run_reached. vm_compute. reflexivity.
  - apply (supervisor_never_spins no_repr no_float 5 "3" (at_first "3") _ (run_starts _ True)), run_reached. vm_compute. reflexivity.
Defined.
