(* ===== verification/TaskGraph.v ===== *)
(** * Plan validation: the task graph has no cycle (todo_orchestrator graph.py)

    [validate_acyclic] is Kahn's algorithm over parent and prerequisite edges.  The
    main theorem says what it accepts: exactly the plans whose references resolve and
    whose edges form no cycle.  Its loop takes fuel; the number of tasks is enough. *)

From Stdlib Require Import ZArith.
From S2P Require Import Prelude PyValue.

#[local] Open Scope string_scope.
#[local] Open Scope list_scope.

Module TaskGraph.

(** A plan task as the validator reads it: "parent_id" and the "depends_on" entries
    (their "type" and "task_id"). *)
Record task_spec := {
  ts_id : string;
  ts_parent : option string;
  ts_depends_on : list (string * option string)
}.

(** A string value that counts as true. *)
Definition nonempty (s : option string) : option string :=
  match s with Some x => if String.eqb x "" then None else Some x | None => None end.

(** The state of the first loop: children and indegree. *)
Record graph := {
  children : list (string * list string);
  indegree : list (string * Z)
}.

Definition children_of (g : graph) (k : string) : list string := default [] (dict_get k g.(children)).
Definition indegree_of (g : graph) (k : string) : Z := default 0%Z (dict_get k g.(indegree)).

(** "children[source].append(task_id); indegree[task_id] += 1". *)
Definition add_edge (g : graph) (source task_id : string) : graph :=
  {| children := dict_set source (children_of g source ++ [task_id]) g.(children);
     indegree := dict_set task_id (indegree_of g task_id + 1)%Z g.(indegree) |}.

(** The prerequisite an entry of "depends_on" names. *)
Definition prerequisite (d : string * option string) : option string :=
  if String.eqb d.1 "task" then nonempty d.2 else None.

Definition add_dependency (ids : list string) (task_id : string) (g : graph) (d : string * option string) :
    result graph :=
  match prerequisite d with
  | None => Ok g
  | Some p =>
      _ ← raise_if (negb (bool_decide (p ∈ ids))) (TodoError "unknown_dependency");
      Ok (add_edge g p task_id)
  end.

Definition add_task (ids : list string) (g : graph) (t : task_spec) : result graph :=
  g ← match nonempty t.(ts_parent) with
      | None => Ok g
      | Some parent =>
          _ ← raise_if (negb (bool_decide (parent ∈ ids))) (TodoError "unknown_parent");
          Ok (add_edge g parent t.(ts_id))
      end;
  foldM (add_dependency ids t.(ts_id)) g t.(ts_depends_on).

(** The inner loop: decrement a child, enqueue it when it reaches zero. *)
Definition visit (st : list (string * Z) * list string) (child : string) : list (string * Z) * list string :=
  let '(indegree, queue) := st in
  let n := (default 0%Z (dict_get child indegree) - 1)%Z in
  (dict_set child n indegree, if Z.eqb n 0 then queue ++ [child] else queue).

(** "while queue": the number of tasks visited; None when the fuel runs out. *)
Fixpoint kahn (fuel : nat) (kids : string -> list string) (indegree : list (string * Z))
    (queue : list string) (visited : nat) : option nat :=
  match queue with
  | [] => Some visited
  | current :: queue =>
      match fuel with
      | O => None
      | S fuel =>
          let '(indegree, queue) := foldl visit (indegree, queue) (kids current) in
          kahn fuel kids indegree queue (S visited)
      end
  end.

Definition ids_of (tasks : list task_spec) : list string := remove_dups (map ts_id tasks).

Definition build (tasks : list task_spec) : result graph :=
  let ids := ids_of tasks in
  foldM (add_task ids) {| children := []; indegree := map (fun i => (i, 0%Z)) ids |} tasks.

(** "sorted(key for key, value in indegree.items() if value == 0)". *)
Definition roots (g : graph) : list string :=
  merge_sort String.le (map fst (List.filter (fun e => Z.eqb e.2 0) g.(indegree))).

Definition validate_acyclic (tasks : list task_spec) : result unit :=
  let ids := ids_of tasks in
  g ← build tasks;
  match kahn (length ids) (children_of g) g.(indegree) (roots g) 0 with
  | Some visited => raise_if (negb (visited =? length ids)%nat) (TodoError "cyclic_graph")
  | None => Err (RuntimeError "fuel")
  end.

(** ** The edges of a plan *)

Definition task_edges (t : task_spec) : list (string * string) :=
  map (fun p => (p, t.(ts_id)))
    (option_list (nonempty t.(ts_parent)) ++ omap prerequisite t.(ts_depends_on)).

Definition edges (tasks : list task_spec) : list (string * string) := concat (map task_edges tasks).

Definition edge (tasks : list task_spec) (a b : string) : Prop := (a, b) ∈ edges tasks.

(** Every parent and prerequisite named is a task of the plan. *)
Definition references_resolve (tasks : list task_spec) : Prop :=
  forall a b, edge tasks a b -> a ∈ map ts_id tasks.

Definition acyclic (tasks : list task_spec) : Prop := forall x, ~ tc (edge tasks) x x.

End TaskGraph.

(** * Plan validation: Kahn's algorithm decides acyclicity *)

From Stdlib Require Import ZArith.
From S2P Require Import Prelude PyValue.
Import TaskGraph.

#[local] Open Scope string_scope.
#[local] Open Scope list_scope.

(** ** Counting *)

Definition count (x : string) (l : list string) : Z := Z.of_nat (length (List.filter (String.eqb x) l)).

Lemma count_nil x : count x [] = 0%Z.
Proof. done. Qed.

Lemma count_cons x y l : count x (y :: l) = ((if String.eqb x y then 1 else 0) + count x l)%Z.
Proof. unfold count. cbn. destruct (String.eqb x y); cbn [length]; lia. Qed.

Lemma count_nonneg x l : (0 <= count x l)%Z.
Proof. unfold count. lia. Qed.

Lemma count_pos x l : (0 < count x l)%Z <-> x ∈ l.
Proof.
  induction l as [|y l IH].
  - rewrite count_nil. split; [lia|by intros ?%not_elem_of_nil].
  - rewrite count_cons, elem_of_cons, <-IH. pose proof (count_nonneg x l).
    destruct (String.eqb_spec x y) as [->|Hne]; [split; [by left|lia]|]. split; [intros H1; right; lia|intros [?|?]; [done|lia]].
Qed.

Lemma count_app x l k : count x (l ++ k) = (count x l + count x k)%Z.
Proof. unfold count. rewrite List.filter_app, length_app. lia. Qed.

(** ** The inner loop *)

Definition degree (indeg : list (string * Z)) (x : string) : Z := default 0%Z (dict_get x indeg).

(** After visiting the children [cs], each degree is down by its number of occurrences and
    the queue has gained, once each, the children whose degree reached zero. *)
Lemma visit_fold cs indeg queue :
  (forall x, x ∈ cs -> (count x cs <= degree indeg x)%Z) ->
  exists more, (foldl visit (indeg, queue) cs).2 = queue ++ more /\
    (forall x, degree (foldl visit (indeg, queue) cs).1 x = (degree indeg x - count x cs)%Z) /\
    NoDup more /\ (forall x, x ∈ more <-> x ∈ cs /\ degree indeg x = count x cs).
Proof.
  revert indeg queue. induction cs as [|c cs IH]; intros indeg queue H; cbn [foldl].
  { exists []. rewrite app_nil_r. split; [done|]. split; [intros x; rewrite count_nil; cbn [fst]; lia|].
    split; [constructor|]. intros x. split; [by intros ?%not_elem_of_nil|by intros [?%not_elem_of_nil _]]. }
  set (n := (degree indeg c - 1)%Z).
  assert (visit (indeg, queue) c = (dict_set c n indeg, if Z.eqb n 0 then queue ++ [c] else queue)) as -> by done.
  assert (forall x, degree (dict_set c n indeg) x = (degree indeg x - if String.eqb x c then 1 else 0)%Z) as Hdeg.
  { intros x. unfold degree at 1. destruct (String.eqb_spec x c) as [->|Hne].
    - rewrite dict_get_set_eq. done.
    - rewrite dict_get_set_ne by congruence. unfold degree. lia. }
  destruct (IH (dict_set c n indeg) (if Z.eqb n 0 then queue ++ [c] else queue)) as (more & Hq & Hd & Hn & Hm).
  { intros x Hx. specialize (H x (list_elem_of_further _ _ _ Hx)). rewrite count_cons in H. rewrite Hdeg. lia. }
  assert ((count c (c :: cs) <= degree indeg c)%Z) as Hc by (apply H; left).
  rewrite count_cons, String.eqb_refl in Hc.
  exists (if Z.eqb n 0 then c :: more else more).
  destruct (Z.eqb_spec n 0) as [E|E]; rewrite Hq.
  - assert (~ c ∈ cs) as Hncs.
    { intros Hin%count_pos. unfold n in E. lia. }
    split; [by rewrite <-app_assoc|]. split.
    { intros x. rewrite Hd, Hdeg, count_cons. lia. }
    split.
    { apply NoDup_cons. split; [|done]. rewrite Hm. tauto. }
    intros x. rewrite elem_of_cons, Hm, elem_of_cons, Hdeg, count_cons.
    destruct (String.eqb_spec x c) as [->|Hne].
    + split; [|tauto]. intros _. split; [by left|]. unfold n in E.
      assert (count c cs = 0%Z); [|lia]. pose proof (count_nonneg c cs). rewrite <-count_pos in Hncs. lia.
    + rewrite Z.add_0_l, Z.sub_0_r. tauto.
  - split; [done|]. split.
    { intros x. rewrite Hd, Hdeg, count_cons. lia. }
    split; [done|]. intros x. rewrite Hm, elem_of_cons, Hdeg, count_cons.
    destruct (String.eqb_spec x c) as [->|Hne].
    + split; [intros [H1 H2]; split; [by left|lia]|]. intros [_ H2]. split; [|lia].
      apply count_pos. unfold n in E. pose proof (count_nonneg c cs). lia.
    + rewrite Z.add_0_l, Z.sub_0_r. tauto.
Qed.

(** ** The graph that is built *)

Definition kids (es : list (string * string)) (k : string) : list string :=
  map snd (List.filter (fun e => String.eqb e.1 k) es).

Record graph_of (ids : list string) (es : list (string * string)) (g : graph) : Prop := {
  go_children : forall k, children_of g k = kids es k;
  go_indegree : forall x, indegree_of g x = count x (map snd es);
  go_keys : g.(indegree).*1 = ids;
  go_targets : forall a b, (a, b) ∈ es -> a ∈ ids /\ b ∈ ids
}.

Lemma kids_app es es' k : kids (es ++ es') k = kids es k ++ kids es' k.
Proof. unfold kids. by rewrite List.filter_app, map_app. Qed.

Lemma add_edge_of ids es g a b :
  graph_of ids es g -> a ∈ ids -> b ∈ ids -> graph_of ids (es ++ [(a, b)]) (add_edge g a b).
Proof.
  intros [H1 H2 H3 H4] Ha Hb. constructor.
  - intros k. rewrite kids_app. unfold children_of, add_edge. cbn [children]. unfold kids at 2. cbn.
    destruct (String.eqb_spec a k) as [->|Hne].
    + rewrite dict_get_set_eq. cbn. by rewrite H1.
    + rewrite dict_get_set_ne by done. cbn. rewrite app_nil_r. apply H1.
  - intros x. rewrite map_app, count_app. cbn [map snd]. rewrite count_cons, count_nil.
    unfold indegree_of, add_edge. cbn [indegree]. destruct (String.eqb_spec x b) as [->|Hne].
    + rewrite dict_get_set_eq. cbn. rewrite H2. lia.
    + rewrite dict_get_set_ne by done. unfold indegree_of in H2. rewrite H2. lia.
  - unfold add_edge. cbn [indegree]. rewrite dict_set_keys, H3. by rewrite decide_True.
  - intros x y [Hx|Hx%list_elem_of_singleton]%elem_of_app; [by apply H4|]. by simplify_eq.
Qed.

Lemma add_dependencies_of ids task_id ds es g :
  graph_of ids es g -> task_id ∈ ids ->
  match foldM (add_dependency ids task_id) g ds with
  | Ok g' => graph_of ids (es ++ map (fun p => (p, task_id)) (omap prerequisite ds)) g'
  | Err e => e = TodoError "unknown_dependency" /\ exists p, p ∈ omap prerequisite ds /\ p ∉ ids
  end.
Proof.
  intros Hg Hid. revert es g Hg. induction ds as [|d ds IH]; intros es g Hg; cbn [foldM].
  { cbn. by rewrite app_nil_r. }
  assert (add_dependency ids task_id g d = match prerequisite d with
    | None => Ok g
    | Some p => if bool_decide (p ∈ ids) then Ok (add_edge g p task_id) else Err (TodoError "unknown_dependency")
    end) as -> by (unfold add_dependency; destruct (prerequisite d); [by destruct (bool_decide _)|done]).
  cbn [omap list_omap]. destruct (prerequisite d) as [p|].
  - destruct (bool_decide_reflect (p ∈ ids)) as [Hp|Hp].
    + rewrite bind_Ok. specialize (IH (es ++ [(p, task_id)]) (add_edge g p task_id)).
      destruct (foldM _ (add_edge g p task_id) ds) as [g'|e].
      * cbn [map]. rewrite <-app_assoc in IH. apply IH. by apply add_edge_of.
      * destruct IH as (He & q & Hq & Hn); [by apply add_edge_of|]. split; [done|]. exists q. split; [by right|done].
    + cbn. split; [done|]. exists p. split; [left|done].
  - rewrite bind_Ok. apply IH, Hg.
Qed.

Lemma add_task_of ids t es g :
  graph_of ids es g -> t.(ts_id) ∈ ids ->
  match add_task ids g t with
  | Ok g' => graph_of ids (es ++ task_edges t) g'
  | Err e => (e = TodoError "unknown_parent" \/ e = TodoError "unknown_dependency") /\
             exists a, (a, t.(ts_id)) ∈ task_edges t /\ a ∉ ids
  end.
Proof.
  intros Hg Hid. unfold task_edges.
  assert (add_task ids g t = match nonempty t.(ts_parent) with
    | None => foldM (add_dependency ids t.(ts_id)) g t.(ts_depends_on)
    | Some p => if bool_decide (p ∈ ids) then foldM (add_dependency ids t.(ts_id)) (add_edge g p t.(ts_id)) t.(ts_depends_on)
                else Err (TodoError "unknown_parent")
    end) as -> by (unfold add_task; destruct (nonempty _); [by destruct (bool_decide _)|done]).
  destruct (nonempty (ts_parent t)) as [p|]; cbn [option_list app].
  - destruct (bool_decide_reflect (p ∈ ids)) as [Hp|Hp].
    + pose proof (add_dependencies_of ids (ts_id t) (ts_depends_on t) _ _
        (add_edge_of _ _ _ _ _ Hg Hp Hid) Hid) as H.
      destruct (foldM _ _ _) as [g'|e].
      * cbn [map]. rewrite <-app_assoc in H. exact H.
      * destruct H as (-> & q & Hq & Hn). split; [by right|]. exists q. split; [|done].
        right. apply list_elem_of_fmap. by exists q.
    + cbn. split; [by left|]. exists p. split; [left|done].
  - pose proof (add_dependencies_of ids (ts_id t) (ts_depends_on t) _ _ Hg Hid) as H.
    destruct (foldM _ _ _) as [g'|e]; [exact H|].
    destruct H as (-> & q & Hq & Hn). split; [by right|]. exists q. split; [|done].
    apply list_elem_of_fmap. by exists q.
Qed.

Lemma elem_of_ids tasks x : x ∈ ids_of tasks <-> x ∈ map ts_id tasks.
Proof. apply elem_of_remove_dups. Qed.

Lemma build_of tasks :
  match build tasks with
  | Ok g => graph_of (ids_of tasks) (edges tasks) g
  | Err e => (e = TodoError "unknown_parent" \/ e = TodoError "unknown_dependency") /\ ~ references_resolve tasks
  end.
Proof.
  assert (forall ts es g, graph_of (ids_of tasks) es g -> (forall t, t ∈ ts -> t ∈ tasks) ->
    match foldM (add_task (ids_of tasks)) g ts with
    | Ok g => graph_of (ids_of tasks) (es ++ edges ts) g
    | Err e => (e = TodoError "unknown_parent" \/ e = TodoError "unknown_dependency") /\ ~ references_resolve tasks
    end) as H.
  { induction ts as [|t ts IH]; intros es g Hg Hts; cbn [foldM].
    { unfold edges. cbn. by rewrite app_nil_r. }
    assert (t ∈ tasks) as Ht by (apply Hts; left).
    assert (ts_id t ∈ ids_of tasks) as Hid by (apply elem_of_ids, list_elem_of_fmap; by exists t).
    pose proof (add_task_of _ _ _ _ Hg Hid) as Ha. destruct (add_task _ g t) as [g'|e].
    - rewrite bind_Ok. specialize (IH _ _ Ha (fun t' H' => Hts t' (list_elem_of_further _ _ _ H'))).
      unfold edges in *. cbn [map concat]. by rewrite app_assoc.
    - destruct Ha as (He & a & Hin & Hn). cbn. split; [done|]. intros Hr. apply Hn, elem_of_ids.
      apply (Hr a (ts_id t)). unfold edge, edges. apply list_elem_of_In, in_concat. exists (task_edges t).
      split; [by apply in_map, list_elem_of_In|by apply list_elem_of_In]. }
  apply (H tasks []); [|done]. constructor.
  - done.
  - intros x. rewrite count_nil. unfold indegree_of. cbn [indegree].
    destruct (dict_get x _) as [z|] eqn:E; [|done]. apply dict_get_elem in E.
    apply list_elem_of_fmap in E as (i & E & _). by simplify_eq.
  - cbn [indegree]. rewrite <-list_fmap_compose. by rewrite list_fmap_id.
  - intros a b Hab. by apply not_elem_of_nil in Hab.
Qed.

(** ** The main loop *)

Section Loop.
Context (ids : list string) (es : list (string * string)).
Context (Hids : NoDup ids) (Hes : forall a b, (a, b) ∈ es -> a ∈ ids /\ b ∈ ids).

(** The edges into [x] from tasks not yet visited. *)
Definition pending (p : list string) (x : string) : Z :=
  count x (map snd (List.filter (fun e => negb (bool_decide (e.1 ∈ p))) es)).

Lemma pending_snoc p c x : c ∉ p -> pending p x = (pending (p ++ [c]) x + count x (kids es c))%Z.
Proof.
  intros Hc. unfold pending, kids. clear Hes.
  induction es as [|[a b] l IH]; [done|]. cbn [List.filter fst].
  rewrite (bool_decide_ext (a ∈ p ++ [c]) (a ∈ p \/ a = c)) by (by rewrite elem_of_app, list_elem_of_singleton).
  destruct (String.eqb_spec a c) as [->|Hne].
  - rewrite bool_decide_false by done. rewrite (bool_decide_true (c ∈ p \/ c = c)) by (by right).
    cbn [negb map snd]. rewrite !count_cons, IH. lia.
  - destruct (bool_decide_reflect (a ∈ p)) as [Ha|Ha].
    + rewrite bool_decide_true by (by left). cbn [negb]. exact IH.
    + rewrite bool_decide_false by tauto. cbn [negb map snd]. rewrite !count_cons, IH. lia.
Qed.

Lemma pending_zero p x a : pending p x = 0%Z -> (a, x) ∈ es -> a ∈ p.
Proof.
  intros H0 He. destruct (decide (a ∈ p)) as [|Hn]; [done|]. exfalso.
  assert (0 < pending p x)%Z; [|lia]. unfold pending. apply count_pos, list_elem_of_fmap.
  exists (a, x). split; [done|]. apply list_elem_of_In, List.filter_In.
  split; [by apply list_elem_of_In|]. by rewrite bool_decide_false.
Qed.

Record loop_inv (p : list string) (indeg : list (string * Z)) (q : list string) : Prop := {
  li_nodup : NoDup (p ++ q);
  li_ids : forall x, x ∈ p ++ q -> x ∈ ids;
  li_degree : forall x, degree indeg x = pending p x;
  li_zero : forall x, x ∈ ids -> x ∈ p ++ q <-> degree indeg x = 0%Z;
  li_order : forall p1 x p2, p = p1 ++ x :: p2 -> forall a, (a, x) ∈ es -> a ∈ p1
}.

Lemma loop_step p indeg c q :
  loop_inv p indeg (c :: q) ->
  loop_inv (p ++ [c]) (foldl visit (indeg, q) (kids es c)).1 (foldl visit (indeg, q) (kids es c)).2.
Proof.
  intros [H1 H2 H3 H4 H5].
  assert (c ∉ p) as Hc.
  { intros Hin. apply NoDup_app in H1 as (_ & Hd & _). apply (Hd c Hin). left. }
  assert (forall x, degree indeg x = (pending (p ++ [c]) x + count x (kids es c))%Z) as Hsplit.
  { intros x. rewrite H3. by apply pending_snoc. }
  assert (forall x, (0 <= pending (p ++ [c]) x)%Z) as Hpos by (intros x; apply count_nonneg).
  destruct (visit_fold (kids es c) indeg q) as (more & Hq & Hd & Hn & Hm).
  { intros x _. specialize (Hsplit x). specialize (Hpos x). lia. }
  assert (forall x, x ∈ kids es c -> x ∈ ids) as Hkid.
  { intros x Hx. unfold kids in Hx. apply list_elem_of_fmap in Hx as ([a b] & -> & Hx).
    apply list_elem_of_In, List.filter_In in Hx as [Hx _]. apply list_elem_of_In in Hx. by apply (Hes a). }
  assert (forall x, x ∈ more -> x ∈ ids /\ x ∉ p ++ c :: q) as Hmore.
  { intros x [Hx Hx']%Hm. split; [by apply Hkid|]. intros Hin. apply H4 in Hin; [|by apply Hkid].
    apply count_pos in Hx. lia. }
  assert (forall x, x ∈ (p ++ [c]) ++ q ++ more <-> x ∈ p ++ c :: q \/ x ∈ more) as Hin.
  { intros x. rewrite !elem_of_app, !elem_of_cons, elem_of_nil. tauto. }
  rewrite Hq. constructor.
  - rewrite app_assoc. replace ((p ++ [c]) ++ q) with (p ++ c :: q) by (by rewrite <-app_assoc).
    apply NoDup_app. split; [done|]. split; [|done]. intros x Hx Hx'. by apply Hmore in Hx' as [_ ?].
  - intros x [Hx|Hx]%Hin; [by apply H2|]. by apply Hmore.
  - intros x. rewrite Hd, Hsplit. lia.
  - intros x Hx. rewrite Hin, Hd. specialize (Hsplit x). specialize (Hpos x). split.
    + intros [Hold|[_ Hnew]%Hm]; [|lia]. apply H4 in Hold; [|done]. pose proof (count_nonneg x (kids es c)). lia.
    + intros E. destruct (decide (x ∈ p ++ c :: q)) as [|Hn']; [by left|]. right. apply Hm.
      rewrite (H4 x Hx) in Hn'. split; [|lia]. apply count_pos. pose proof (count_nonneg x (kids es c)). lia.
  - intros p1 x p2 E a He. destruct p2 as [|y p2 _] using rev_ind.
    + apply app_inj_tail in E as [<- <-]. eapply pending_zero; [|exact He]. rewrite <-H3. apply H4.
      * apply H2. apply elem_of_app. right. left.
      * apply elem_of_app. right. left.
    + rewrite app_comm_cons, app_assoc in E. apply app_inj_tail in E as [E _]. by eapply H5.
Qed.

Lemma kahn_spec fuel p indeg q :
  loop_inv p indeg q -> (length ids <= fuel + length p)%nat ->
  exists p' indeg', kahn fuel (kids es) indeg q (length p) = Some (length p') /\ loop_inv p' indeg' [].
Proof.
  revert p indeg q. induction fuel as [|fuel IH]; intros p indeg q Hinv Hf.
  - destruct q as [|c q]; [by exists p, indeg|]. exfalso.
    assert (length (p ++ c :: q) <= length ids)%nat as Hl.
    { apply NoDup_incl_length; [apply NoDup_ListNoDup, (li_nodup _ _ _ Hinv)|].
      intros x Hx%list_elem_of_In. apply list_elem_of_In. by apply (li_ids _ _ _ Hinv). }
    rewrite length_app in Hl. cbn in Hl. lia.
  - destruct q as [|c q]; [by exists p, indeg|]. apply loop_step in Hinv. cbn [kahn].
    destruct (foldl visit (indeg, q) (kids es c)) as [indeg1 q1]. cbn [fst snd] in Hinv.
    destruct (IH _ _ _ Hinv) as (p' & i' & Hk & Hp).
    { rewrite length_app. cbn. lia. }
    rewrite length_app, Nat.add_1_r in Hk. by exists p', i'.
Qed.

(** An order in which every source of an edge comes first leaves no room for a cycle. *)
Lemma ordered_acyclic p :
  NoDup p -> (forall x, x ∈ ids -> x ∈ p) ->
  (forall p1 x p2, p = p1 ++ x :: p2 -> forall a, (a, x) ∈ es -> a ∈ p1) ->
  forall x, ~ tc (fun a b => (a, b) ∈ es) x x.
Proof.
  intros Hn Hall Hord.
  assert (forall a b, tc (fun a b => (a, b) ∈ es) a b -> forall i j, p !! i = Some a -> p !! j = Some b -> (i < j)%nat) as Hlt.
  { intros a b H. induction H as [a b H|a c b H _ IH]; intros i j Hi Hj.
    - apply list_elem_of_split_length in Hj as (p1 & p2 & E & ->).
      specialize (Hord _ _ _ E a H). apply list_elem_of_lookup in Hord as [k Hk].
      assert (k < length p1)%nat as Hkl by (by eapply lookup_lt_Some).
      assert (p !! k = Some a) as Hk' by (rewrite E, lookup_app_l by done; done).
      by rewrite (NoDup_lookup _ _ _ _ Hn Hi Hk').
    - assert (c ∈ p) as [k Hk]%list_elem_of_lookup by (apply Hall; by apply (Hes a c)).
      specialize (IH k j Hk Hj). apply list_elem_of_split_length in Hk as (p1 & p2 & E & ->).
      specialize (Hord _ _ _ E a H). apply list_elem_of_lookup in Hord as [k' Hk'].
      assert (k' < length p1)%nat as Hkl by (by eapply lookup_lt_Some).
      assert (p !! k' = Some a) as Hk2 by (rewrite E, lookup_app_l by done; done).
      rewrite (NoDup_lookup _ _ _ _ Hn Hi Hk2). lia. }
  intros x H. assert (x ∈ p) as [i Hi]%list_elem_of_lookup.
  { apply Hall. assert (forall a b, tc (fun a b => (a, b) ∈ es) a b -> a ∈ ids) as Ha; [|by eapply Ha].
    intros a b H'. destruct H' as [a b H'|a c b H' _]; by apply (Hes _ _ H'). }
  specialize (Hlt x x H i i Hi Hi). lia.
Qed.

(** If every task of a nonempty set has a source in the set, there is a cycle. *)
Lemma sources_cycle (r : list string) x0 :
  x0 ∈ r -> (forall x, x ∈ r -> exists a, a ∈ r /\ (a, x) ∈ es) -> exists x, tc (fun a b => (a, b) ∈ es) x x.
Proof.
  intros Hx0 Hsrc.
  assert (exists f : string -> string, forall x, x ∈ r -> f x ∈ r /\ (f x, x) ∈ es) as [f Hf].
  { exists (fun x => default x (fst <$> List.find (fun e => bool_decide (e.1 ∈ r) && String.eqb e.2 x) es)).
    intros x Hx. destruct (Hsrc x Hx) as (a & Ha & He).
    destruct (List.find _ es) as [[a' x']|] eqn:E; cbn.
    - apply List.find_some in E as [Hin E]. apply andb_true_iff in E as [E1 E2]. cbn in *.
      apply bool_decide_eq_true in E1. apply String.eqb_eq in E2 as ->. split; [done|by apply list_elem_of_In].
    - apply list_elem_of_In in He. pose proof (List.find_none _ _ E _ He) as E'. cbn in E'.
      by rewrite bool_decide_true, String.eqb_refl in E'. }
  assert (forall n, Nat.iter n f x0 ∈ r) as Hr.
  { induction n as [|n IH]; [done|]. cbn. by apply Hf. }
  assert (forall i d, tc (fun a b => (a, b) ∈ es) (Nat.iter (S d + i) f x0) (Nat.iter i f x0)) as Hstep.
  { intros i d. induction d as [|d IH]; cbn.
    - apply tc_once. by apply Hf.
    - eapply tc_l; [|exact IH]. cbn. by apply (Hf (f (Nat.iter (d + i) f x0))), Hf. }
  destruct (decide (NoDup (map (fun n => Nat.iter n f x0) (seq 0 (S (length r)))))) as [Hn|Hn].
  - exfalso. assert (length (map (fun n => Nat.iter n f x0) (seq 0 (S (length r)))) <= length r)%nat as Hl.
    { apply NoDup_incl_length; [by apply NoDup_ListNoDup|]. intros y Hy. apply in_map_iff in Hy as (n & <- & _).
      by apply list_elem_of_In. }
    rewrite length_map, length_seq in Hl. lia.
  - assert (exists i j, (i < j)%nat /\ Nat.iter i f x0 = Nat.iter j f x0) as (i & j & Hij & E).
    { destruct (decide (Exists (fun i => Exists (fun j => (i < j)%nat /\ Nat.iter i f x0 = Nat.iter j f x0)
          (seq 0 (S (length r)))) (seq 0 (S (length r))))) as [Hex|Hno].
      - apply Exists_exists in Hex as (i & _ & (j & _ & H)%Exists_exists). by exists i, j.
      - exfalso. apply Hn, NoDup_alt. intros i j y Hi Hj.
        rewrite list_lookup_fmap in Hi, Hj.
        destruct (seq 0 (S (length r)) !! i) as [a|] eqn:Ea; [|done].
        destruct (seq 0 (S (length r)) !! j) as [b|] eqn:Eb; [|done]. cbn in Hi, Hj.
        pose proof (proj1 (lookup_seq _ _ _ _) Ea) as [Ea' _]. pose proof (proj1 (lookup_seq _ _ _ _) Eb) as [Eb' _].
        apply list_elem_of_lookup_2 in Ea as Ia. apply list_elem_of_lookup_2 in Eb as Ib.
        destruct (Nat.lt_trichotomy i j) as [Hlt|[Heq|Hlt]]; [|done|]; exfalso; apply Hno, Exists_exists.
        + exists a. split; [done|]. apply Exists_exists. exists b. split; [done|]. split; [lia|congruence].
        + exists b. split; [done|]. apply Exists_exists. exists a. split; [done|]. split; [lia|congruence]. }
    exists (Nat.iter i f x0). rewrite E at 1. replace j with (S (j - i - 1) + i)%nat by lia. apply Hstep.
Qed.

End Loop.

Lemma kahn_ext fuel k k' indeg q v : (forall x, k x = k' x) -> kahn fuel k indeg q v = kahn fuel k' indeg q v.
Proof.
  intros H. revert indeg q v. induction fuel as [|fuel IH]; intros indeg [|c q] v; cbn; try done.
  rewrite H. destruct (foldl visit (indeg, q) (k' c)). apply IH.
Qed.

(** ** The start and the end of the loop *)

Lemma roots_of ids es g x :
  graph_of ids es g -> NoDup ids -> x ∈ roots g <-> x ∈ ids /\ degree g.(indegree) x = 0%Z.
Proof.
  intros [G1 G2 G3 G4] Hnd. unfold roots. rewrite merge_sort_Permutation, list_elem_of_fmap. split.
  - intros ([k z] & -> & H). apply list_elem_of_In, List.filter_In in H as [H Hz%Z.eqb_eq]. cbn in *. subst z.
    apply list_elem_of_In in H. split.
    + rewrite <-G3. apply list_elem_of_fmap. by exists (k, 0%Z).
    + unfold degree. rewrite (dict_get_NoDup _ 0%Z); [done|by rewrite G3|done].
  - intros [Hx Hd]. rewrite <-G3 in Hx. apply list_elem_of_fmap in Hx as ([k z] & -> & Hx). exists (k, z).
    split; [done|]. apply list_elem_of_In, List.filter_In. split; [by apply list_elem_of_In|].
    apply Z.eqb_eq. cbn in *. unfold degree in Hd. rewrite (dict_get_NoDup _ z) in Hd; [done|by rewrite G3|done].
Qed.

Lemma loop_start ids es g :
  graph_of ids es g -> NoDup ids -> loop_inv ids es [] g.(indegree) (roots g).
Proof.
  intros Hg Hnd. pose proof Hg as [G1 G2 G3 G4]. constructor; cbn [app].
  - unfold roots. rewrite merge_sort_Permutation. apply NoDup_map_filter. rewrite <-G3 in Hnd. exact Hnd.
  - intros x Hx. by apply (roots_of _ _ _ _ Hg Hnd) in Hx as [Hx _].
  - intros x. change (degree (indegree g) x) with (indegree_of g x). rewrite G2. unfold pending.
    replace (List.filter _ es) with es; [done|]. clear.
    induction es as [|e l IH]; cbn; [done|].
    rewrite bool_decide_false by apply not_elem_of_nil. cbn. by rewrite <-IH.
  - intros x Hx. rewrite (roots_of _ _ _ _ Hg Hnd). tauto.
  - intros p1 x p2 E. by destruct p1.
Qed.

Lemma loop_all_acyclic ids es p indeg :
  (forall a b, (a, b) ∈ es -> a ∈ ids /\ b ∈ ids) -> loop_inv ids es p indeg [] ->
  length p = length ids -> forall x, ~ tc (fun a b => (a, b) ∈ es) x x.
Proof.
  intros Hes [L1 L2 L3 L4 L5] Hlen. rewrite app_nil_r in L1, L2. apply (ordered_acyclic ids es Hes p L1); [|exact L5].
  intros y Hy. apply list_elem_of_In. apply list_elem_of_In in Hy. revert y Hy.
  apply NoDup_length_incl; [by apply NoDup_ListNoDup|lia|].
  intros y Hy%list_elem_of_In. apply list_elem_of_In. by apply L2.
Qed.

Lemma loop_stuck_cycle ids es p indeg :
  NoDup ids -> (forall a b, (a, b) ∈ es -> a ∈ ids /\ b ∈ ids) -> loop_inv ids es p indeg [] ->
  length p <> length ids -> exists x, tc (fun a b => (a, b) ∈ es) x x.
Proof.
  intros Hnd Hes [L1 L2 L3 L4 L5] Hne. rewrite app_nil_r in L1, L2. setoid_rewrite app_nil_r in L4.
  destruct (decide (Forall (fun y => y ∈ p) ids)) as [Hall|Hn].
  { rewrite Forall_forall in Hall. exfalso. apply Hne, Permutation_length, NoDup_Permutation; [done..|].
    intros y. split; auto. }
  apply not_Forall_Exists in Hn; [|apply _]. apply Exists_exists in Hn as (x0 & Hx0 & Hx0p).
  assert (forall x, x ∈ List.filter (fun x => negb (bool_decide (x ∈ p))) ids <-> x ∈ ids /\ x ∉ p) as Hr.
  { intros x. by rewrite list_elem_of_In, List.filter_In, <-list_elem_of_In, negb_true_iff, bool_decide_eq_false. }
  eapply (sources_cycle es (List.filter (fun x => negb (bool_decide (x ∈ p))) ids) x0); [by apply Hr|].
  intros x [Hxi Hxp]%Hr. rewrite (L4 x Hxi), L3 in Hxp.
  assert (0 < pending es p x)%Z as Hpos by (pose proof (count_nonneg x (map snd (List.filter (fun e => negb (bool_decide (e.1 ∈ p))) es))); unfold pending in *; lia).
  apply count_pos, list_elem_of_fmap in Hpos as ([a b] & -> & He).
  apply list_elem_of_In, List.filter_In in He as [He Ha]. apply list_elem_of_In in He.
  exists a. cbn in *. split; [|done]. apply Hr. split; [by apply (Hes a b)|].
  by apply negb_true_iff, bool_decide_eq_false in Ha.
Qed.

(** C39: The plan validator decides acyclicity.  It accepts exactly the plans in which every parent and
    prerequisite is a task of the plan and no chain of parent and prerequisite edges closes; it always
    terminates, and it answers "cyclic_graph" only for a plan whose references resolve and which has a
    cycle. *)
Theorem validate_acyclic_spec tasks :
  (validate_acyclic tasks = Ok tt <-> references_resolve tasks /\ acyclic tasks) /\
  (validate_acyclic tasks = Err (TodoError "cyclic_graph") <-> references_resolve tasks /\ ~ acyclic tasks) /\
  (~ references_resolve tasks ->
     validate_acyclic tasks = Err (TodoError "unknown_parent") \/ validate_acyclic tasks = Err (TodoError "unknown_dependency")).
Proof.
  unfold validate_acyclic. pose proof (build_of tasks) as Hb. destruct (build tasks) as [g|e].
  2: { destruct Hb as [He Hn]. cbn. split; [split; [done|tauto]|]. split; [|by destruct He as [-> | ->]; auto].
       split; [|tauto]. by destruct He as [-> | ->]. }
  rewrite bind_Ok. destruct Hb as [G1 G2 G3 G4].
  assert (references_resolve tasks) as Hres by (intros a b H; by apply elem_of_ids, (G4 a b)).
  assert (NoDup (ids_of tasks)) as Hnd by apply NoDup_remove_dups.
  pose proof (loop_start _ _ _ (Build_graph_of _ _ _ G1 G2 G3 G4) Hnd) as Hinv.
  rewrite (kahn_ext _ _ (kids (edges tasks))) by apply G1.
  destruct (kahn_spec _ _ G4 (length (ids_of tasks)) [] _ _ Hinv) as (p & indeg & Hk & Hend); [cbn; lia|].
  cbn [length] in Hk. rewrite Hk.
  assert ((length p =? length (ids_of tasks))%nat = true <-> acyclic tasks) as Hac.
  { rewrite Nat.eqb_eq. split; [intros Hl; exact (loop_all_acyclic _ _ _ _ G4 Hend Hl)|]. intros Hac.
    destruct (decide (length p = length (ids_of tasks))) as [|Hne]; [done|].
    destruct (loop_stuck_cycle _ _ _ _ Hnd G4 Hend Hne) as [x Hx]. by destruct (Hac x). }
  destruct (length p =? length (ids_of tasks))%nat eqn:E; cbn [negb raise_if].
  - split; [split; [intros _; split; [done|by apply Hac]|done]|]. split; [|tauto].
    split; [done|]. intros [_ Hna]. by destruct Hna; apply Hac.
  - split; [split; [done|]|].
    + intros [_ Ha]. by apply Hac in Ha.
    + split; [|tauto]. split; [|done]. intros _. split; [done|]. intros Ha. by apply Hac in Ha.
Qed.
