(* ===== verification/Ledger.v ===== *)
(** * The Todo ledger: rows and queries (todo_orchestrator migrations.py, graph.py)

    The tables the scheduler reads, one list of records per table, JSON columns
    parsed; the dependency and barrier rules of graph.py over them.  Timestamps are
    seconds (the texts all have one fixed-width format).  [py_repr] renders a JSON
    value in a reason. *)

From Stdlib Require Import ZArith.
From stdpp Require Import pretty.
From S2P Require Import Prelude PyValue Text Json.

#[local] Open Scope string_scope.
#[local] Open Scope Z_scope.
#[local] Open Scope list_scope.

Module Ledger.

(** ** Rows *)

Record task := {
  tk_id : string;
  tk_parent : option string;
  tk_kind : string;
  tk_status : string;
  tk_priority : Z;
  tk_policy : string;
  tk_result : option string;
  tk_attention : option string;
  tk_created : Z;
  tk_updated : Z;
  tk_version : Z;
  tk_revision : Z
}.

Record dependency := {
  dp_id : Z;
  dp_task : string;
  dp_type : string;
  dp_prerequisite : option string;
  dp_checkpoint : option string;
  dp_interface : option string;
  dp_barrier : option string;
  dp_decision : option string;
  dp_condition : pydict
}.

Record checkpoint := { cp_id : string; cp_task : string; cp_state : string }.

Record interface := {
  in_id : string;
  in_owner : string;
  in_state : string;
  in_version : string;
  in_paths : list string
}.

Record consumer := {
  cs_interface : string;
  cs_task : string;
  cs_state : string;
  cs_version : option string
}.

Record barrier := {
  br_id : string;
  br_mode : string;
  br_quorum : option Z;
  br_state : string;
  br_explanation : string;
  br_opened : option Z;
  br_revision : Z
}.

Record requirement := {
  rq_id : Z;
  rq_barrier : string;
  rq_type : string;
  rq_entity : string;
  rq_state : string;
  rq_dispositions : list pyval
}.

Record decision := { dc_id : string; dc_value : option pyval }.
Record gate := { ga_id : string; ga_task : option string; ga_status : string; ga_valid : bool }.
Record rendezvous := { rv_id : string; rv_state : string }.

(** A manifest of owned paths (git_state.py [scope_manifest]); "{}" has none of the keys. *)
Record manifest := {
  mf_roots : list string;
  mf_dirty : list string;
  mf_files : list (string * string);
  mf_fingerprint : option string
}.

Definition empty_manifest : manifest :=
  {| mf_roots := []; mf_dirty := []; mf_files := []; mf_fingerprint := None |}.

Record claim := {
  cl_id : string;
  cl_task : string;
  cl_session : string;
  cl_state : string;
  cl_created : Z;
  cl_expires : Z;
  cl_token : string;
  cl_heartbeat : Z;
  cl_head : option string;
  cl_baseline : manifest;
  cl_revision : Z;
  cl_orphan_reason : option string;
  cl_released : option Z;
  cl_owner : option string;
  cl_instance : option string
}.

Record scope := { sc_task : string; sc_mode : string; sc_path : string }.
Record task_lock := { tl_task : string; tl_lock : string; tl_phase : string }.

Record lock_lease := {
  ll_id : string;
  ll_lock : string;
  ll_claim : option string;
  ll_session : string;
  ll_token : string;
  ll_state : string;
  ll_expires : Z;
  ll_host : string;
  ll_pid : option Z;
  ll_start : option string;
  ll_command : option (list string)
}.

Record instance := {
  ri_id : string;
  ri_class : string;
  ri_capacity : Z;
  ri_host : option string;
  ri_enabled : bool
}.

Record request := {
  rr_id : string;
  rr_task : option string;
  rr_phase : string;
  rr_selector : string;
  rr_required : bool;
  rr_amount : Z
}.

Record resource_lease := {
  rl_id : string;
  rl_instance : string;
  rl_claim : option string;
  rl_session : string;
  rl_request : option string;
  rl_token : string;
  rl_state : string;
  rl_host : string;
  rl_pid : option Z;
  rl_start : option string;
  rl_command : option (list string);
  rl_expires : Z;
  rl_released : option Z
}.

Record run := { wr_id : string; wr_status : string }.
Record lane := {
  la_id : string;
  la_run : string;
  la_role : string;
  la_state : string;
  la_mode : string;
  la_updated : Z;
  la_revision : Z
}.
Record lane_task := {
  lt_lane : string;
  lt_task : string;
  lt_state : string;
  lt_activated : option Z;
  lt_revision : Z
}.
Record workspace := {
  ws_run : string;
  ws_lane : string;
  ws_mode : string;
  ws_state : string;
  ws_base : string;
  ws_integration : option string
}.
Record dispatch := {
  di_id : string;
  di_lane : string;
  di_claim : string;
  di_state : string;
  di_released : option Z;
  di_revision : Z
}.
Record child := { ch_id : string; ch_parent_claim : string; ch_state : string }.
Record child_scope := { cc_child : string; cc_path : string; cc_state : string }.

Record ledger := {
  tasks : list task;
  dependencies : list dependency;
  checkpoints : list checkpoint;
  interfaces : list interface;
  consumers : list consumer;
  barriers : list barrier;
  requirements : list requirement;
  decisions : list decision;
  gates : list gate;
  rendezvouses : list rendezvous;
  claims : list claim;
  scopes : list scope;
  task_locks : list task_lock;
  lock_leases : list lock_lease;
  instances : list instance;
  requests : list request;
  resource_leases : list resource_lease;
  runs : list run;
  lanes : list lane;
  lane_tasks : list lane_task;
  workspaces : list workspace;
  dispatches : list dispatch;
  children : list child;
  child_scopes : list child_scope
}.

(** ** Point queries: "SELECT ... WHERE id=?" *)

Definition task_by_id (db : ledger) (id : string) : option task :=
  List.find (fun t => String.eqb t.(tk_id) id) db.(tasks).
Definition checkpoint_by_id (db : ledger) (id : string) : option checkpoint :=
  List.find (fun c => String.eqb c.(cp_id) id) db.(checkpoints).
Definition interface_by_id (db : ledger) (id : string) : option interface :=
  List.find (fun i => String.eqb i.(in_id) id) db.(interfaces).
Definition barrier_by_id (db : ledger) (id : string) : option barrier :=
  List.find (fun b => String.eqb b.(br_id) id) db.(barriers).
Definition decision_by_id (db : ledger) (id : string) : option decision :=
  List.find (fun d => String.eqb d.(dc_id) id) db.(decisions).
Definition gate_by_id (db : ledger) (id : string) : option gate :=
  List.find (fun g => String.eqb g.(ga_id) id) db.(gates).
Definition rendezvous_by_id (db : ledger) (id : string) : option rendezvous :=
  List.find (fun r => String.eqb r.(rv_id) id) db.(rendezvouses).

Definition is_active_claim (c : claim) : bool := String.eqb c.(cl_state) "active".

(** "ORDER BY" a text or an integer column. *)
Definition by_text {A} (f : A -> string) (a b : A) : Prop := String.le (f a) (f b).
#[export] Instance by_text_dec {A} (f : A -> string) : RelDecision (by_text f).
Proof. intros a b. unfold by_text. apply _. Defined.
Definition by_int {A} (f : A -> Z) (a b : A) : Prop := f a <= f b.
#[export] Instance by_int_dec {A} (f : A -> Z) : RelDecision (by_int f).
Proof. intros a b. unfold by_int. apply _. Defined.

(** ** Dependencies *)

(** "x in c": an item of a list, a key of a dict, a part of a string. *)
Fixpoint is_substring (p s : string) : bool :=
  String.prefix p s || match s with EmptyString => false | String _ s => is_substring p s end.

Definition py_in (x c : pyval) : result bool :=
  match c, x with
  | PList l, _ => Ok (existsb (py_eqb x) l)
  | PDict d, PStr k => Ok (dict_mem k d)
  | PDict d, (PList _ | PDict _) => Err (TypeError "unhashable type")
  | PDict d, _ => Ok false
  | PStr s, PStr p => Ok (is_substring p s)
  | _, _ => Err (TypeError "argument is not iterable")
  end.

Definition opt_str (o : option string) : pyval := match o with Some s => PStr s | None => PNone end.

Definition _decision_matches (value : pyval) (condition : pydict) : result bool :=
  let operator := dict_get_default "operator" (PStr "equals") condition in
  let expected := dict_get_default "value" PNone condition in
  if py_eqb operator (PStr "equals") then Ok (py_eqb value expected)
  else if py_eqb operator (PStr "in") then py_in value (if truthy expected then expected else PList [])
  else Err (TodoError "unsafe_condition").

Definition show_opt (o : option string) : string := default "None" o.

Definition find_opt {A} (f : string -> option A) (id : option string) : option A := id ≫= f.

Section Deps.
Context (py_repr : pyval -> string).

Definition show_value (v : pyval) : string := match v with PStr s => s | _ => py_repr v end.

(** (satisfied, blocked_state, reason). *)
Definition dependency_status (db : ledger) (row : dependency) : result (bool * string * string) :=
  let condition := row.(dp_condition) in
  if String.eqb row.(dp_type) "task" then
    let allowed := dict_get_default "dispositions" PNone condition in
    ok ← match find_opt (task_by_id db) row.(dp_prerequisite) with
         | None => Ok false
         | Some t => if negb (String.eqb t.(tk_status) "done") then Ok false
                     else if negb (truthy allowed) then Ok true
                     else py_in (opt_str t.(tk_result)) allowed
         end;
    Ok (ok, "blocked_dependency", "task " +:+ show_opt row.(dp_prerequisite) +:+ " must be done")
  else if String.eqb row.(dp_type) "checkpoint" then
    Ok (match find_opt (checkpoint_by_id db) row.(dp_checkpoint) with
        | Some c => String.eqb c.(cp_state) "reached" | None => false end,
        "blocked_dependency", "checkpoint " +:+ show_opt row.(dp_checkpoint) +:+ " must be reached")
  else if String.eqb row.(dp_type) "interface" then
    let required_state := dict_get_default "state" (PStr "frozen") condition in
    let required_version := dict_get_default "version" PNone condition in
    Ok (match find_opt (interface_by_id db) row.(dp_interface) with
        | Some i => py_eqb (PStr i.(in_state)) required_state
                    && (negb (truthy required_version) || py_eqb (PStr i.(in_version)) required_version)
        | None => false end,
        "blocked_dependency",
        "interface " +:+ show_opt row.(dp_interface) +:+ " must be " +:+ show_value required_state)
  else if String.eqb row.(dp_type) "barrier" then
    Ok (match find_opt (barrier_by_id db) row.(dp_barrier) with
        | Some b => String.eqb b.(br_state) "open" | None => false end,
        "blocked_barrier", "barrier " +:+ show_opt row.(dp_barrier) +:+ " must be open")
  else if String.eqb row.(dp_type) "decision" then
    match find_opt (decision_by_id db) row.(dp_decision) with
    | None => Ok (false, "inactive", "decision " +:+ show_opt row.(dp_decision) +:+ " has no value")
    | Some d =>
        matched ← _decision_matches (default PNone d.(dc_value)) condition;
        Ok (matched, "inactive", "decision " +:+ show_opt row.(dp_decision) +:+ " condition is false")
    end
  else Ok (false, "blocked_dependency", "unknown dependency type " +:+ row.(dp_type)).

Record explanation := {
  ex_type : string;
  ex_satisfied : bool;
  ex_blocked : string;
  ex_reason : string
}.

Definition explain_dependency (db : ledger) (row : dependency) : result explanation :=
  '(ok, blocked, reason) ← dependency_status db row;
  Ok {| ex_type := row.(dp_type); ex_satisfied := ok; ex_blocked := blocked; ex_reason := reason |}.

(** A consumer row with its interface (the JOIN drops rows without one). *)
Definition consumed_interface (db : ledger) (c : consumer) : option (interface * consumer) :=
  i ← interface_by_id db c.(cs_interface); Some (i, c).

Definition version_ok (required : option string) (version : string) : bool :=
  match required with
  | None => true
  | Some v => String.eqb v "" || String.eqb version v
  end.

Definition explain_consumer (ic : interface * consumer) : explanation :=
  let '(i, c) := ic in
  {| ex_type := "consumed_interface";
     ex_satisfied := String.eqb i.(in_state) c.(cs_state) && version_ok c.(cs_version) i.(in_version);
     ex_blocked := "blocked_dependency";
     ex_reason := "interface " +:+ i.(in_id) +:+ " must be " +:+ c.(cs_state) +:+ " at version "
                  +:+ match c.(cs_version) with Some v => if String.eqb v "" then "any" else v | None => "any" end |}.

Definition dependencies_of (db : ledger) (task_id : string) : list dependency :=
  merge_sort (by_int dp_id) (List.filter (fun d => String.eqb d.(dp_task) task_id) db.(dependencies)).

Definition consumed_of (db : ledger) (task_id : string) : list (interface * consumer) :=
  merge_sort (by_text (fun ic => ic.1.(in_id)))
    (omap (consumed_interface db) (List.filter (fun c => String.eqb c.(cs_task) task_id) db.(consumers))).

Definition evaluate_dependencies (db : ledger) (task_id : string) : result (bool * list explanation) :=
  first ← mapM_result (explain_dependency db) (dependencies_of db task_id);
  let explanations := first ++ map explain_consumer (consumed_of db task_id) in
  Ok (forallb ex_satisfied explanations, explanations).

(** ** Barriers *)

Definition barrier_requirement_satisfied (db : ledger) (row : requirement) : bool :=
  let required := row.(rq_state) in
  if bool_decide (row.(rq_type) ∈ ["task"; "validation_task"]) then
    match task_by_id db row.(rq_entity) with
    | Some t => String.eqb t.(tk_status) required
                && match row.(rq_dispositions) with
                   | [] => true
                   | allowed => existsb (py_eqb (opt_str t.(tk_result))) allowed
                   end
    | None => false
    end
  else if String.eqb row.(rq_type) "checkpoint" then
    match checkpoint_by_id db row.(rq_entity) with Some c => String.eqb c.(cp_state) required | None => false end
  else if String.eqb row.(rq_type) "interface" then
    match interface_by_id db row.(rq_entity) with Some i => String.eqb i.(in_state) required | None => false end
  else if String.eqb row.(rq_type) "gate" then
    match gate_by_id db row.(rq_entity) with
    | Some g => String.eqb g.(ga_status) required && g.(ga_valid) | None => false end
  else if String.eqb row.(rq_type) "rendezvous" then
    match rendezvous_by_id db row.(rq_entity) with Some r => String.eqb r.(rv_state) required | None => false end
  else false.

Definition requirements_of (db : ledger) (barrier_id : string) : list requirement :=
  merge_sort (by_int rq_id) (List.filter (fun r => String.eqb r.(rq_barrier) barrier_id) db.(requirements)).

Definition satisfied_count (db : ledger) (rs : list requirement) : Z :=
  Z.of_nat (length (List.filter (barrier_requirement_satisfied db) rs)).

(** "len(results) if mode == 'all' else int(quorum or len(results))". *)
Definition barrier_target (b : barrier) (rs : list requirement) : Z :=
  if String.eqb b.(br_mode) "all" then Z.of_nat (length rs)
  else match b.(br_quorum) with
       | Some q => if q =? 0 then Z.of_nat (length rs) else q
       | None => Z.of_nat (length rs)
       end.

Definition barrier_opened (db : ledger) (b : barrier) : bool :=
  let rs := requirements_of db b.(br_id) in
  match rs with [] => false | _ => barrier_target b rs <=? satisfied_count db rs end.

Definition barrier_explanation (db : ledger) (b : barrier) : string :=
  let rs := requirements_of db b.(br_id) in
  pretty (satisfied_count db rs) +:+ "/" +:+ pretty (Z.of_nat (length rs)) +:+ " requirements satisfied; target="
  +:+ pretty (barrier_target b rs).

Record change := {
  bc_barrier : string;
  bc_state : string;
  bc_explanation : string;
  bc_affected : list string
}.

Definition with_tasks (db : ledger) (ts : list task) (bs : list barrier) : ledger :=
  {| tasks := ts; dependencies := db.(dependencies); checkpoints := db.(checkpoints);
     interfaces := db.(interfaces); consumers := db.(consumers); barriers := bs;
     requirements := db.(requirements); decisions := db.(decisions); gates := db.(gates);
     rendezvouses := db.(rendezvouses); claims := db.(claims); scopes := db.(scopes);
     task_locks := db.(task_locks); lock_leases := db.(lock_leases); instances := db.(instances);
     requests := db.(requests); resource_leases := db.(resource_leases); runs := db.(runs);
     lanes := db.(lanes); lane_tasks := db.(lane_tasks); workspaces := db.(workspaces);
     dispatches := db.(dispatches); children := db.(children); child_scopes := db.(child_scopes) |}.

(** "UPDATE barriers SET state=?,explanation=?,opened_at=...,revision=? WHERE id=?". *)
Definition set_barrier (state explanation : string) (now revision : Z) (b : barrier) : barrier :=
  {| br_id := b.(br_id); br_mode := b.(br_mode); br_quorum := b.(br_quorum); br_state := state;
     br_explanation := explanation;
     br_opened := if String.eqb state "open" then Some (default now b.(br_opened)) else None;
     br_revision := revision |}.

(** "UPDATE tasks SET status='attention_required',...". *)
Definition require_attention (reason : string) (now revision : Z) (t : task) : task :=
  {| tk_id := t.(tk_id); tk_parent := t.(tk_parent); tk_kind := t.(tk_kind);
     tk_status := "attention_required"; tk_priority := t.(tk_priority); tk_policy := t.(tk_policy);
     tk_result := t.(tk_result); tk_attention := Some reason; tk_created := t.(tk_created);
     tk_updated := now; tk_version := t.(tk_version); tk_revision := revision |}.

(** The dependents of a barrier that have an active claim. *)
Definition affected_tasks (db : ledger) (barrier_id : string) : list string :=
  List.filter (fun t => existsb (fun c => String.eqb c.(cl_task) t && is_active_claim c) db.(claims))
    (map dp_task (List.filter (fun d => String.eqb d.(dp_type) "barrier"
                                && bool_decide (d.(dp_barrier) = Some barrier_id)) db.(dependencies))).

(** One barrier of the loop of [reevaluate_barriers]; [b] is the row read before the loop. *)
Definition reevaluate_one (revision now : Z) (st : list change * ledger) (b : barrier) : list change * ledger :=
  let '(changes, db) := st in
  let new_state := if barrier_opened db b then "open" else "closed" in
  let explanation := barrier_explanation db b in
  if String.eqb new_state b.(br_state) && String.eqb explanation b.(br_explanation) then (changes, db)
  else
    let bs := map (fun x => if String.eqb x.(br_id) b.(br_id)
                            then set_barrier new_state explanation now revision x else x) db.(barriers) in
    let closes := String.eqb b.(br_state) "open" && String.eqb new_state "closed" in
    let affected := if closes then affected_tasks db b.(br_id) else [] in
    let ts := map (fun t => if bool_decide (t.(tk_id) ∈ affected)
                            then require_attention ("barrier " +:+ b.(br_id) +:+ " closed after claim") now revision t
                            else t) db.(tasks) in
    (changes ++ [{| bc_barrier := b.(br_id); bc_state := new_state; bc_explanation := explanation;
                    bc_affected := affected |}], with_tasks db ts bs).

Definition reevaluate_barriers (db : ledger) (revision now : Z) : list change * ledger :=
  foldl (reevaluate_one revision now) ([], db) (merge_sort (by_text br_id) db.(barriers)).

Definition downstream_unlock_value (db : ledger) (task_id : string) : Z :=
  Z.of_nat (length (List.filter (fun d => bool_decide (d.(dp_prerequisite) = Some task_id)) db.(dependencies)))
  + Z.of_nat (length (List.filter (fun d => match d.(dp_checkpoint) with
        | Some c => existsb (fun cp => String.eqb cp.(cp_id) c && String.eqb cp.(cp_task) task_id) db.(checkpoints)
        | None => false
        end) db.(dependencies))).

End Deps.

End Ledger.
