(* ===== verification/Ownership.v ===== *)
(** * Ownership, named locks and resources of the Todo ledger (ownership.py, resources.py)

    [ownership_conflicts] decides whether a task may start next to the active claims;
    named locks and resource leases are acquired and released by token; [guard_paths]
    admits edits.  The host name, the process table, the clock (seconds) and the fresh
    lease ids and tokens are arguments. *)

From Stdlib Require Import ZArith.
From S2P Require Import Prelude PyValue Text Json Ledger.
Import Ledger.

#[local] Open Scope string_scope.
#[local] Open Scope Z_scope.
#[local] Open Scope list_scope.

Module Ownership.

(** ** Paths *)

Definition is_slash (c : Ascii.ascii) : bool := (code c =? 47)%nat.

Definition path_contains (root path : string) : bool :=
  String.eqb path root || starts_with (rstrip_while is_slash root +:+ "/") path.

Definition paths_overlap (a b : string) : bool := path_contains a b || path_contains b a.

(** ** Conflicts *)

Definition scopes_for (db : ledger) (task_id mode : string) : list string :=
  merge_sort String.le
    (map sc_path (List.filter (fun s => String.eqb s.(sc_task) task_id && String.eqb s.(sc_mode) mode) db.(scopes))).

Definition _frozen_contract_read_allowed (db : ledger) (reader writer read_path writer_root : string) : bool :=
  existsb (fun i =>
    String.eqb i.(in_owner) writer &&
    existsb (fun c => String.eqb c.(cs_interface) i.(in_id) && String.eqb c.(cs_task) reader
                      && String.eqb i.(in_state) c.(cs_state) && version_ok c.(cs_version) i.(in_version))
      db.(consumers) &&
    existsb (fun p => paths_overlap read_path p && paths_overlap writer_root p) i.(in_paths)) db.(interfaces).

(** A lane with its workspace, as the joins of [_isolated_merge_overlap_allowed] read them. *)
Definition isolated_workspace (db : ledger) (l : lane) : list workspace :=
  List.filter (fun w => String.eqb w.(ws_run) l.(la_run) && String.eqb w.(ws_lane) l.(la_id)
                        && String.eqb l.(la_mode) "isolated_merge" && String.eqb w.(ws_mode) "isolated_merge"
                        && bool_decide (w.(ws_state) ∈ ["active"; "artifact_ready"])) db.(workspaces).

Definition run_active (db : ledger) (run_id : string) : bool :=
  existsb (fun r => String.eqb r.(wr_id) run_id && String.eqb r.(wr_status) "active") db.(runs).

(** "ORDER BY l.run_id,l.id LIMIT 1". *)
Definition lane_le (a b : lane * workspace) : Prop :=
  a.1.(la_run) <> b.1.(la_run) /\ String.le a.1.(la_run) b.1.(la_run)
  \/ a.1.(la_run) = b.1.(la_run) /\ String.le a.1.(la_id) b.1.(la_id).
#[export] Instance lane_le_dec : RelDecision lane_le.
Proof. intros a b. unfold lane_le. apply _. Defined.

Definition in_lane (db : ledger) (l : lane) (task_id state : string) : bool :=
  existsb (fun lt => String.eqb lt.(lt_lane) l.(la_id) && String.eqb lt.(lt_task) task_id
                     && String.eqb lt.(lt_state) state) db.(lane_tasks).

Definition with_workspaces (db : ledger) (ls : list lane) : list (lane * workspace) :=
  concat (map (fun l => map (fun w => (l, w)) (isolated_workspace db l)) ls).

Definition candidate_lane (db : ledger) (task_id : string) : option (lane * workspace) :=
  head (merge_sort lane_le (with_workspaces db
    (List.filter (fun l => in_lane db l task_id "queued" && String.eqb l.(la_state) "ready"
                           && run_active db l.(la_run)) db.(lanes)))).

Definition active_lane (db : ledger) (task_id claim_id : string) : option (lane * workspace) :=
  head (with_workspaces db
    (List.filter (fun l => existsb (fun d => String.eqb d.(di_lane) l.(la_id) && String.eqb d.(di_claim) claim_id
                                             && String.eqb d.(di_state) "active") db.(dispatches)
                           && in_lane db l task_id "active") db.(lanes))).

Definition destination_exists (db : ledger) (integration run_id base : string) : bool :=
  existsb (fun l => String.eqb l.(la_run) run_id && bool_decide (l.(la_role) ∈ ["integrator"; "validator"])
    && String.eqb l.(la_mode) "exclusive"
    && existsb (fun lt => String.eqb lt.(lt_lane) l.(la_id) && String.eqb lt.(lt_task) integration) db.(lane_tasks)
    && existsb (fun w => String.eqb w.(ws_run) l.(la_run) && String.eqb w.(ws_lane) l.(la_id)
         && String.eqb w.(ws_mode) "exclusive" && bool_decide (w.(ws_integration) = Some integration)
         && String.eqb w.(ws_base) base
         && bool_decide (w.(ws_state) ∈ ["active"; "artifact_ready"])) db.(workspaces)) db.(lanes).

Definition _isolated_merge_overlap_allowed (db : ledger) (candidate_task active_task claim_id : string) : bool :=
  match candidate_lane db candidate_task, active_lane db active_task claim_id with
  | Some (cl, cw), Some (al, aw) =>
      match cw.(ws_integration) with
      | Some integration =>
          String.eqb cl.(la_run) al.(la_run) && String.eqb cw.(ws_base) aw.(ws_base)
          && negb (String.eqb integration "") && bool_decide (aw.(ws_integration) = Some integration)
          && destination_exists db integration cl.(la_run) cw.(ws_base)
      | None => false
      end
  | _, _ => false
  end.

(** The (run, lane) pairs of a task queued or active in a lane of an active run. *)
Definition lane_positions (db : ledger) (task_id : string) : list (string * string) :=
  concat (map (fun lt =>
    map (fun l => (l.(la_run), l.(la_id)))
      (List.filter (fun l => String.eqb l.(la_id) lt.(lt_lane) && run_active db l.(la_run)) db.(lanes)))
    (List.filter (fun lt => String.eqb lt.(lt_task) task_id
                            && bool_decide (lt.(lt_state) ∈ ["queued"; "active"])) db.(lane_tasks))).

Definition _different_active_workflow_lanes (db : ledger) (candidate active : string) : bool :=
  existsb (fun left => existsb (fun right => String.eqb left.1 right.1 && negb (String.eqb left.2 right.2))
    (lane_positions db active)) (lane_positions db candidate).

Inductive conflict :=
  | missing_task (task_id : string)
  | parallel_policy (task_id : string)
  | active_parallel_policy (task_id : string)
  | missing_scope (task_id : string)
  | path_conflict (path other_path task_id : string).

Definition exclusive_policies : list string := ["project_exclusive"; "integration_exclusive"].

(** Active claims of other tasks, joined with their task. *)
Definition active_others (db : ledger) (task_id : string) : list (claim * task) :=
  omap (fun c => if is_active_claim c && negb (String.eqb c.(cl_task) task_id)
                 then t ← task_by_id db c.(cl_task); Some (c, t) else None) db.(claims).

(** The path conflicts with one active claim. *)
Definition path_conflicts (db : ledger) (task_id : string) (row : claim * task) : list conflict :=
  let other := row.1.(cl_task) in
  let theirs := scopes_for db other "exclusive" in
  let isolated := _isolated_merge_overlap_allowed db task_id other row.1.(cl_id) in
  concat (map (fun ours => omap (fun their =>
      if paths_overlap ours their && negb isolated then Some (path_conflict ours their other) else None) theirs)
    (scopes_for db task_id "exclusive")) ++
  concat (map (fun read => omap (fun their =>
      if paths_overlap read their && negb isolated
         && negb (_frozen_contract_read_allowed db task_id other read their)
      then Some (path_conflict read their other) else None) theirs)
    (scopes_for db task_id "read")).

Definition serial_blocked (db : ledger) (task_id : string) (row : claim * task) : bool :=
  negb (_different_active_workflow_lanes db task_id row.1.(cl_task)).

Definition blocks_others (db : ledger) (task_id : string) (row : claim * task) : bool :=
  bool_decide (row.2.(tk_policy) ∈ exclusive_policies)
  || String.eqb row.2.(tk_policy) "serial" && serial_blocked db task_id row.

Definition ownership_conflicts (db : ledger) (task_id : string) : list conflict :=
  match task_by_id db task_id with
  | None => [missing_task task_id]
  | Some t =>
      let active := active_others db task_id in
      if bool_decide (t.(tk_policy) ∈ exclusive_policies) && match active with [] => false | _ => true end
      then map (fun row => parallel_policy row.1.(cl_task)) active
      else
        let blocked := List.filter (serial_blocked db task_id) active in
        if String.eqb t.(tk_policy) "serial" && match blocked with [] => false | _ => true end
        then map (fun row => parallel_policy row.1.(cl_task)) blocked
        else
          match List.filter (blocks_others db task_id) active with
          | (_ :: _) as blocking => map (fun row => active_parallel_policy row.1.(cl_task)) blocking
          | [] =>
              if String.eqb t.(tk_policy) "parallel_safe"
                 && match scopes_for db task_id "exclusive" with [] => true | _ => false end
                 && negb (existsb (fun l => String.eqb l.(tl_task) task_id) db.(task_locks))
              then [missing_scope task_id]
              else concat (map (path_conflicts db task_id) active)
          end
  end.

(** ** Named locks *)

(** The host a call runs on. *)
Record host := {
  hostname : string;
  own_pid : Z;
  kill_ok : Z -> bool;                 (* os.kill(pid, 0) does not raise *)
  start_of : Z -> option string        (* process_start(pid) *)
}.

Definition local_process_alive (h : host) (pid : option Z) (expected : option string) : bool :=
  match pid with
  | None => false
  | Some p =>
      if p =? 0 then false
      else if negb (h.(kill_ok) p) then false
      else match expected, h.(start_of) p with
           | Some e, Some c => String.eqb e "" || String.eqb c "" || String.eqb c e
           | _, _ => true
           end
  end.

Definition with_leases (db : ledger) (ls : list lock_lease) (rs : list resource_lease) : ledger :=
  {| tasks := db.(tasks); dependencies := db.(dependencies); checkpoints := db.(checkpoints);
     interfaces := db.(interfaces); consumers := db.(consumers); barriers := db.(barriers);
     requirements := db.(requirements); decisions := db.(decisions); gates := db.(gates);
     rendezvouses := db.(rendezvouses); claims := db.(claims); scopes := db.(scopes);
     task_locks := db.(task_locks); lock_leases := ls; instances := db.(instances);
     requests := db.(requests); resource_leases := rs; runs := db.(runs);
     lanes := db.(lanes); lane_tasks := db.(lane_tasks); workspaces := db.(workspaces);
     dispatches := db.(dispatches); children := db.(children); child_scopes := db.(child_scopes) |}.

Definition lock_active (l : lock_lease) : bool := String.eqb l.(ll_state) "active".

Definition set_lock_state (state : string) (expires : option Z) (l : lock_lease) : lock_lease :=
  {| ll_id := l.(ll_id); ll_lock := l.(ll_lock); ll_claim := l.(ll_claim); ll_session := l.(ll_session);
     ll_token := l.(ll_token); ll_state := state; ll_expires := default l.(ll_expires) expires;
     ll_host := l.(ll_host); ll_pid := l.(ll_pid); ll_start := l.(ll_start); ll_command := l.(ll_command) |}.

(** Expired, and not held by a live process of this host. *)
Definition lock_stale (h : host) (now : Z) (l : lock_lease) : bool :=
  lock_active l && (l.(ll_expires) <=? now)
  && negb (String.eqb l.(ll_host) h.(hostname) && local_process_alive h l.(ll_pid) l.(ll_start)).

Definition sweep_lock_leases (h : host) (now : Z) (ls : list lock_lease) : list lock_lease :=
  map (fun l => if lock_stale h now l then set_lock_state "expired" None l else l) ls.

Definition lock_busy (ls : list lock_lease) (name : string) : bool :=
  existsb (fun l => String.eqb l.(ll_lock) name && lock_active l) ls.

Section Tokens.
Context (token_hash : string -> string).

(** The lease of one name; the n-th fresh id and token. *)
Definition new_lock_lease (h : host) (now : Z) (claim_id : option string) (session_id : string) (lease_seconds : Z)
    (command : list string) (name id token : string) : lock_lease :=
  {| ll_id := id; ll_lock := name; ll_claim := claim_id; ll_session := session_id;
     ll_token := token_hash token; ll_state := "active"; ll_expires := now + lease_seconds;
     ll_host := h.(hostname); ll_pid := Some h.(own_pid); ll_start := h.(start_of) h.(own_pid);
     ll_command := Some command |}.

(** The loop over the names; the caller's transaction is rolled back when it raises. *)
Fixpoint acquire_names (h : host) (now : Z) (claim_id : option string) (session_id : string) (lease_seconds : Z)
    (command : list string) (fresh : nat -> string * string) (n : nat) (names : list string) (ls : list lock_lease) :
    result (list lock_lease) :=
  match names with
  | [] => Ok ls
  | name :: names =>
      _ ← raise_if (lock_busy ls name) (TodoError "lock_unavailable");
      acquire_names h now claim_id session_id lease_seconds command fresh (S n) names
        (ls ++ [new_lock_lease h now claim_id session_id lease_seconds command name (fresh n).1 (fresh n).2])
  end.

Definition task_lock_names (db : ledger) (task_id : string) : list string :=
  merge_sort String.le
    (map tl_lock (List.filter (fun l => String.eqb l.(tl_task) task_id && String.eqb l.(tl_phase) "claim") db.(task_locks))).

Definition acquire_task_locks (h : host) (now : Z) (db : ledger) (task_id claim_id session_id : string)
    (lease_seconds : Z) (fresh : nat -> string * string) : result ledger :=
  ls ← acquire_names h now (Some claim_id) session_id lease_seconds [] fresh 0 (task_lock_names db task_id)
         (sweep_lock_leases h now db.(lock_leases));
  Ok (with_leases db ls db.(resource_leases)).

Definition acquire_named_locks (h : host) (now : Z) (db : ledger) (names : list string) (claim_id : option string)
    (session_id : string) (lease_seconds : Z) (command : list string) (fresh : nat -> string * string) : result ledger :=
  ls ← acquire_names h now claim_id session_id lease_seconds command fresh 0 (sorted_set names)
         (sweep_lock_leases h now db.(lock_leases));
  Ok (with_leases db ls db.(resource_leases)).

(** "SELECT * ... WHERE token_hash=? AND state='active'", then the update by id. *)
Definition release_lock (now : Z) (db : ledger) (lease_token : string) : result ledger :=
  match List.find (fun l => String.eqb l.(ll_token) (token_hash lease_token) && lock_active l) db.(lock_leases) with
  | None => Err (TodoError "invalid_lock_token")
  | Some row =>
      Ok (with_leases db (map (fun l => if String.eqb l.(ll_id) row.(ll_id)
                                        then set_lock_state "released" (Some now) l else l) db.(lock_leases))
            db.(resource_leases))
  end.

Definition release_claim_locks (now : Z) (db : ledger) (claim_id : string) : ledger :=
  with_leases db (map (fun l => if bool_decide (l.(ll_claim) = Some claim_id) && lock_active l
                                then set_lock_state "released" (Some now) l else l) db.(lock_leases))
    db.(resource_leases).

(** ** Resources *)

Definition resource_active (l : resource_lease) : bool := String.eqb l.(rl_state) "active".

Definition set_resource_state (state : string) (now : Z) (l : resource_lease) : resource_lease :=
  {| rl_id := l.(rl_id); rl_instance := l.(rl_instance); rl_claim := l.(rl_claim); rl_session := l.(rl_session);
     rl_request := l.(rl_request); rl_token := l.(rl_token); rl_state := state; rl_host := l.(rl_host);
     rl_pid := l.(rl_pid); rl_start := l.(rl_start); rl_command := l.(rl_command); rl_expires := l.(rl_expires); rl_released := Some now |}.

Definition resource_stale (h : host) (now : Z) (l : resource_lease) : bool :=
  resource_active l && (l.(rl_expires) <=? now)
  && negb (String.eqb l.(rl_host) h.(hostname) && local_process_alive h l.(rl_pid) l.(rl_start)).

Definition sweep_resource_leases (h : host) (now : Z) (ls : list resource_lease) : list resource_lease :=
  map (fun l => if resource_stale h now l then set_resource_state "expired" now l else l) ls.

Definition usable (h : host) (i : instance) : bool :=
  i.(ri_enabled) && match i.(ri_host) with None => true | Some n => String.eqb n h.(hostname) end.

(** "selector.endswith(":any")" and "selector[:-4]". *)
Definition any_class (selector : string) : option string :=
  let n := (String.length selector - 4)%nat in
  if (4 <=? String.length selector)%nat && String.eqb (drop_str n selector) ":any"
  then Some (String.substring 0 n selector) else None.

Definition matching_instances (h : host) (db : ledger) (selector : string) : list instance :=
  match any_class selector with
  | Some class_id =>
      merge_sort (by_text ri_id) (List.filter (fun i => String.eqb i.(ri_class) class_id && usable h i) db.(instances))
  | None =>
      option_list (List.find (fun i => String.eqb i.(ri_id) selector && usable h i) db.(instances))
  end.

Definition active_count (ls : list resource_lease) (instance_id : string) : Z :=
  Z.of_nat (length (List.filter (fun l => String.eqb l.(rl_instance) instance_id && resource_active l) ls)).

Definition has_room (ls : list resource_lease) (i : instance) : bool :=
  active_count ls i.(ri_id) <? i.(ri_capacity).

Definition acquire_resource (h : host) (now : Z) (db : ledger) (selector session_id : string)
    (claim_id request_id : option string) (lease_seconds : Z) (command : list string) (id token : string) :
    result (instance * ledger) :=
  let ls := sweep_resource_leases h now db.(resource_leases) in
  match List.find (has_room ls) (matching_instances h db selector) with
  | None => Err (TodoError "resource_unavailable")
  | Some i =>
      Ok (i, with_leases db db.(lock_leases) (ls ++
        [{| rl_id := id; rl_instance := i.(ri_id); rl_claim := claim_id; rl_session := session_id;
            rl_request := request_id; rl_token := token_hash token; rl_state := "active";
            rl_host := h.(hostname); rl_pid := Some h.(own_pid); rl_start := h.(start_of) h.(own_pid);
            rl_command := Some command;
            rl_expires := now + lease_seconds; rl_released := None |}]))
  end.

Definition release_resource (now : Z) (db : ledger) (lease_token : string) : result ledger :=
  match List.find (fun l => String.eqb l.(rl_token) (token_hash lease_token) && resource_active l)
          db.(resource_leases) with
  | None => Err (TodoError "invalid_resource_token")
  | Some row =>
      Ok (with_leases db db.(lock_leases)
            (map (fun l => if String.eqb l.(rl_id) row.(rl_id)
                           then set_resource_state "released" now l else l) db.(resource_leases)))
  end.

End Tokens.

(** ** The path guard *)

(** [guard_paths] on paths that [canonical_relative] has made repository-relative. *)
Definition in_scope (owned : list string) (path : string) : bool :=
  existsb (fun root => String.eqb path root || starts_with (root +:+ "/") path) owned.

Definition delegated_paths (db : ledger) (claim_id : string) (allowed : list string) : list (string * string * string) :=
  concat (map (fun s =>
    if String.eqb s.(cc_state) "active"
       && existsb (fun c => String.eqb c.(ch_id) s.(cc_child) && String.eqb c.(ch_parent_claim) claim_id) db.(children)
    then omap (fun path => if paths_overlap path s.(cc_path)
                           then Some (path, s.(cc_path), s.(cc_child)) else None) allowed
    else []) db.(child_scopes)).

Definition guard_paths (db : ledger) (claim_id : string) (paths : list string) : result (list string * string) :=
  match List.find (fun c => String.eqb c.(cl_id) claim_id && is_active_claim c) db.(claims) with
  | None => Err (TodoError "claim_not_active")
  | Some c =>
      let owned := scopes_for db c.(cl_task) "exclusive" in
      let allowed := List.filter (in_scope owned) paths in
      let denied := sorted_set (List.filter (fun p => negb (bool_decide (p ∈ allowed))) paths) in
      _ ← raise_if (match denied with [] => false | _ => true end) (TodoError "scope_violation");
      _ ← raise_if (match delegated_paths db claim_id allowed with [] => false | _ => true end)
            (TodoError "active_child_scope");
      Ok (allowed, c.(cl_task))
  end.

End Ownership.
