(* ===== verification/Readiness.v ===== *)
(** * Readiness: which tasks may be claimed (readiness.py) *)

From Stdlib Require Import ZArith.
From S2P Require Import Prelude PyValue Text Json Ledger Ownership.
Import Ledger Ownership.

#[local] Open Scope string_scope.
#[local] Open Scope Z_scope.
#[local] Open Scope list_scope.

Module Readiness.

Definition TERMINAL : list string := ["done"; "superseded"; "cancelled"; "stale"].

(** The reasons list of an explanation, by what put it there. *)
Inductive reason :=
  | text (s : string)
  | incomplete_children (ids : list string)
  | dependency_detail (e : explanation)
  | conflict_detail (c : conflict)
  | busy_locks (names : list string)
  | unavailable_resources (selectors : list string).

Record verdict := {
  v_task : string;
  v_lifecycle : option string;
  v_execution : string;
  v_ready : bool;
  v_reasons : list reason
}.

Definition refuse (task_id : string) (t : task) (execution : string) (reasons : list reason) : verdict :=
  {| v_task := task_id; v_lifecycle := Some t.(tk_status); v_execution := execution; v_ready := false;
     v_reasons := reasons |}.

(** "SELECT ... WHERE task_id=? AND state IN ('active','orphaned') ORDER BY created_at DESC LIMIT 1". *)
Definition newest_first (a b : claim) : Prop := b.(cl_created) <= a.(cl_created).
#[export] Instance newest_first_dec : RelDecision newest_first.
Proof. intros a b. unfold newest_first. apply _. Defined.

Definition current_claim (db : ledger) (task_id : string) : option claim :=
  head (merge_sort newest_first
    (List.filter (fun c => String.eqb c.(cl_task) task_id
                           && bool_decide (c.(cl_state) ∈ ["active"; "orphaned"])) db.(claims))).

Definition children_of_task (db : ledger) (task_id : string) : list task :=
  merge_sort (by_text tk_id) (List.filter (fun t => bool_decide (t.(tk_parent) = Some task_id)) db.(tasks)).

Definition incomplete (db : ledger) (task_id : string) : list string :=
  map tk_id (List.filter (fun t => negb (String.eqb t.(tk_status) "done")) (children_of_task db task_id)).

Definition busy_lock_names (db : ledger) (task_id : string) : list string :=
  merge_sort String.le
    (concat (map (fun tl => map (fun _ => tl.(tl_lock))
                (List.filter (fun ll => String.eqb ll.(ll_lock) tl.(tl_lock) && lock_active ll) db.(lock_leases)))
       (List.filter (fun tl => String.eqb tl.(tl_task) task_id && String.eqb tl.(tl_phase) "claim") db.(task_locks)))).

Definition claim_requests (db : ledger) (task_id : string) : list request :=
  List.filter (fun r => bool_decide (r.(rr_task) = Some task_id) && String.eqb r.(rr_phase) "claim" && r.(rr_required))
    db.(requests).

Definition unavailable (h : host) (db : ledger) (task_id : string) : list string :=
  map rr_selector
    (List.filter (fun r => negb (existsb (has_room db.(resource_leases)) (matching_instances h db r.(rr_selector))))
       (claim_requests db task_id)).

(** "task["attention_reason"] or default". *)
Definition attention (t : task) (dflt : string) : string :=
  match t.(tk_attention) with Some s => if String.eqb s "" then dflt else s | None => dflt end.

(** The group check of [explain_task]: unfinished children, or an epic without any. *)
Definition group_verdict (db : ledger) (task_id : string) (t : task) : option verdict :=
  if bool_decide (t.(tk_kind) ∈ ["epic"; "workstream"]) then
    match incomplete db task_id with
    | (_ :: _) as ids => Some (refuse task_id t "inactive" [incomplete_children ids])
    | [] =>
        if String.eqb t.(tk_kind) "epic" && match children_of_task db task_id with [] => true | _ => false end
        then Some (refuse task_id t "inactive" [text "leaf epics are not claimable"]) else None
    end
  else None.

Section Explain.
Context (py_repr : pyval -> string) (h : host).

(** From [evaluate_dependencies] on. *)
Definition explain_prerequisites (db : ledger) (task_id : string) (t : task) : result verdict :=
  '(ok, details) ← evaluate_dependencies py_repr db task_id;
  let reasons := map dependency_detail details in
  if negb ok then
    let state := match List.find (fun e => negb e.(ex_satisfied)) details with
                 | Some e => e.(ex_blocked) | None => "blocked_dependency" end in
    Ok (refuse task_id t state reasons)
  else
    match ownership_conflicts db task_id with
    | (_ :: _) as cs => Ok (refuse task_id t "blocked_scope" (reasons ++ map conflict_detail cs))
    | [] =>
        match busy_lock_names db task_id with
        | (_ :: _) as names => Ok (refuse task_id t "blocked_scope" [busy_locks names])
        | [] =>
            match unavailable h db task_id with
            | (_ :: _) as ss => Ok (refuse task_id t "blocked_resource" [unavailable_resources ss])
            | [] =>
                Ok {| v_task := task_id; v_lifecycle := Some t.(tk_status); v_execution := "ready"; v_ready := true;
                      v_reasons := match reasons with
                                   | [] => [text "all prerequisites and scopes are satisfied"]
                                   | _ => reasons
                                   end |}
            end
        end
    end.

Definition explain_task (db : ledger) (task_id : string) : result verdict :=
  match task_by_id db task_id with
  | None => Ok {| v_task := task_id; v_lifecycle := None; v_execution := "missing"; v_ready := false;
                  v_reasons := [text "task does not exist"] |}
  | Some t =>
      match group_verdict db task_id t with
      | Some v => Ok v
      | None =>
          if bool_decide (t.(tk_status) ∈ TERMINAL) then Ok (refuse task_id t "closed" [text "task is terminal"])
          else if String.eqb t.(tk_status) "attention_required"
          then Ok (refuse task_id t "attention_required" [text (attention t "reconciliation required")])
          else match current_claim db task_id with
               | Some c => Ok (refuse task_id t (if String.eqb c.(cl_state) "active" then "claimed" else "orphaned")
                                 [text ("task has " +:+ c.(cl_state) +:+ " claim")])
               | None =>
                   if String.eqb t.(tk_status) "blocked"
                   then Ok (refuse task_id t "blocked_dependency" [text (attention t "task is explicitly blocked")])
                   else explain_prerequisites db task_id t
               end
      end
  end.

Record candidate := {
  ca_task : string;
  ca_priority : Z;
  ca_unlock : Z;
  ca_age : Z;
  ca_score : Z;
  ca_verdict : verdict
}.

Definition score (priority unlock age : Z) : Z := priority * 1000000 + unlock * 10000 + Z.min age 9999.

(** One task of the loop of [ready_tasks]; [now] and the creation times are in seconds. *)
Definition candidate_of (db : ledger) (now : Z) (t : task) : result (option candidate) :=
  v ← explain_task db t.(tk_id);
  if negb v.(v_ready) then Ok None
  else
    let age := Z.max 0 (now - t.(tk_created)) in
    let unlock := downstream_unlock_value db t.(tk_id) in
    Ok (Some {| ca_task := t.(tk_id); ca_priority := t.(tk_priority); ca_unlock := unlock; ca_age := age;
                ca_score := score t.(tk_priority) unlock age; ca_verdict := v |}).

Definition open_tasks (db : ledger) : list task :=
  merge_sort (by_text tk_id)
    (List.filter (fun t => bool_decide (t.(tk_status) ∈ ["planned"; "in_progress"; "review"])) db.(tasks)).

(** "key=lambda item: (-score, task_id)". *)
Definition better (a b : candidate) : Prop :=
  b.(ca_score) < a.(ca_score) \/ a.(ca_score) = b.(ca_score) /\ String.le a.(ca_task) b.(ca_task).
#[export] Instance better_dec : RelDecision better.
Proof. intros a b. unfold better. apply _. Defined.

Definition ready_tasks (db : ledger) (now : Z) : result (list candidate) :=
  found ← mapM_result (candidate_of db now) (open_tasks db);
  Ok (merge_sort better (omap id found)).

End Explain.

End Readiness.
