(* ===== verification/SchedulerProps.v ===== *)
(** * The Todo scheduler: theorems on readiness, ownership, locks and resources *)

From Stdlib Require Import ZArith.
From S2P Require Import Prelude PyValue Text Json Ledger Ownership Readiness.
Import Ledger Ownership Readiness.

#[local] Open Scope string_scope.
#[local] Open Scope Z_scope.
#[local] Open Scope list_scope.

(** ** Readiness *)

(** The lifecycle part: the task is open and nobody holds it. *)
Definition open_and_free (db : ledger) (id : string) (t : task) : Prop :=
  group_verdict db id t = None /\ (t.(tk_status) ∉ TERMINAL) /\ t.(tk_status) <> "attention_required" /\
  t.(tk_status) <> "blocked" /\
  (forall c, c ∈ db.(claims) -> c.(cl_task) = id -> c.(cl_state) <> "active" /\ c.(cl_state) <> "orphaned").

(** The resource part: each required request has a usable instance with room. *)
Definition resources_available (h : host) (db : ledger) (id : string) : Prop :=
  forall r, r ∈ claim_requests db id -> exists i, i ∈ matching_instances h db r.(rr_selector) /\
    active_count db.(resource_leases) i.(ri_id) < i.(ri_capacity).

(** The lock part: no claim-phase lock of the task is leased. *)
Definition locks_free (db : ledger) (id : string) : Prop :=
  forall tl, tl ∈ db.(task_locks) -> tl.(tl_task) = id -> tl.(tl_phase) = "claim" ->
    lock_busy db.(lock_leases) tl.(tl_lock) = false.

Lemma current_claim_none db id :
  current_claim db id = None <->
  forall c, c ∈ db.(claims) -> c.(cl_task) = id -> c.(cl_state) <> "active" /\ c.(cl_state) <> "orphaned".
Proof.
  unfold current_claim. rewrite head_None. split.
  - intros H c Hc <-.
    assert (forall P : Prop, (c.(cl_state) = "active" \/ c.(cl_state) = "orphaned") -> P) as Hx.
    { intros P Hs. exfalso. assert (c ∈ @nil claim) as Hn; [|by apply not_elem_of_nil in Hn]. rewrite <-H.
      rewrite merge_sort_Permutation. apply list_elem_of_In, List.filter_In.
      split; [by apply list_elem_of_In|]. rewrite String.eqb_refl. cbn [andb].
      apply bool_decide_eq_true. rewrite !elem_of_cons. destruct Hs; auto. }
    split; intros E; apply Hx; auto.
  - intros H. apply Permutation_nil. rewrite merge_sort_Permutation.
    destruct (List.filter _ _) as [|c l] eqn:E; [done|]. exfalso.
    assert (c ∈ c :: l) as Hc by left. rewrite <-E in Hc. apply list_elem_of_In, List.filter_In in Hc as [Hc Hf].
    apply andb_true_iff in Hf as [Ht%String.eqb_eq Hs%bool_decide_eq_true].
    apply list_elem_of_In in Hc. destruct (H c Hc Ht) as [H1 H2].
    rewrite !elem_of_cons, elem_of_nil in Hs. tauto.
Qed.

Lemma busy_lock_names_nil db id : busy_lock_names db id = [] <-> locks_free db id.
Proof.
  unfold busy_lock_names, locks_free, lock_busy. split.
  - intros H tl Htl Ht Hp. apply existsb_false_forall. intros ll Hll.
    destruct (String.eqb ll.(ll_lock) tl.(tl_lock) && lock_active ll) eqn:E; [|done]. exfalso.
    assert (tl.(tl_lock) ∈ @nil string) as Hn; [|by apply not_elem_of_nil in Hn].
    rewrite <-H, merge_sort_Permutation. apply list_elem_of_In, in_concat. eexists. split.
    + apply in_map_iff. exists tl. split; [reflexivity|]. apply List.filter_In. split; [by apply list_elem_of_In|].
      by rewrite Ht, Hp, String.eqb_refl.
    + apply in_map_iff. exists ll. split; [done|]. apply List.filter_In. split; [by apply list_elem_of_In|done].
  - intros H. apply Permutation_nil. rewrite merge_sort_Permutation.
    destruct (concat _) as [|n l] eqn:E; [done|]. exfalso.
    assert (In n (n :: l)) as Hn by (by left). rewrite <-E in Hn. clear E.
    apply in_concat in Hn as (ns & Hns & Hn). apply in_map_iff in Hns as (tl & <- & Htl).
    apply List.filter_In in Htl as [Htl Hf]. apply andb_true_iff in Hf as [H1%String.eqb_eq H2%String.eqb_eq].
    apply in_map_iff in Hn as (ll & _ & Hll). apply List.filter_In in Hll as [Hll Hb].
    apply list_elem_of_In in Htl, Hll. specialize (H tl Htl H1 H2).
    rewrite existsb_false_forall in H. by rewrite (H ll Hll) in Hb.
Qed.

Lemma unavailable_nil h db id : unavailable h db id = [] <-> resources_available h db id.
Proof.
  unfold unavailable, resources_available. split.
  - intros H r Hr. apply map_eq_nil in H.
    destruct (existsb (has_room (resource_leases db)) (matching_instances h db (rr_selector r))) eqn:E.
    + apply existsb_exists in E as (i & Hi & Hroom). exists i. split; [by apply list_elem_of_In|].
      by apply Z.ltb_lt.
    + exfalso. assert (r ∈ @nil request) as Hn; [|by apply not_elem_of_nil in Hn]. rewrite <-H.
      apply list_elem_of_In, List.filter_In. split; [by apply list_elem_of_In|]. by rewrite E.
  - intros H. destruct (List.filter _ _) as [|r l] eqn:E; [done|]. exfalso.
    assert (r ∈ r :: l) as Hr by left. rewrite <-E in Hr. apply list_elem_of_In, List.filter_In in Hr as [Hr Hf].
    apply list_elem_of_In in Hr. destruct (H r Hr) as (i & Hi & Hroom).
    apply negb_true_iff, existsb_false_forall with (x := i) in Hf; [|done].
    unfold has_room in Hf. apply Z.ltb_ge in Hf. lia.
Qed.

(** The verdicts that refuse. *)
Lemma refuse_not_ready id t e rs : v_ready (refuse id t e rs) = false.
Proof. done. Qed.

Lemma group_verdict_not_ready db id t v : group_verdict db id t = Some v -> v_ready v = false.
Proof.
  unfold group_verdict. case_bool_decide; [|done].
  destruct (incomplete db id); [|by intros [= <-]].
  destruct (_ && _); [by intros [= <-]|done].
Qed.

Lemma explain_prerequisites_ready py_repr h db id t v :
  explain_prerequisites py_repr h db id t = Ok v ->
  v_ready v = true <->
  (exists details, evaluate_dependencies py_repr db id = Ok (true, details)) /\
  ownership_conflicts db id = [] /\ locks_free db id /\ resources_available h db id.
Proof.
  unfold explain_prerequisites. intros H. apply result_bind_ok in H as ([ok details] & He & H).
  rewrite He, <-busy_lock_names_nil, <-unavailable_nil.
  destruct ok; cbn [negb] in H.
  2: { apply Ok_inj in H as <-. split; [done|]. intros [(d & Hd) _]. by simplify_eq. }
  destruct (ownership_conflicts db id); [|apply Ok_inj in H as <-; split; [done|by intros (_ & ? & _)]].
  destruct (busy_lock_names db id); [|apply Ok_inj in H as <-; split; [done|by intros (_ & _ & ? & _)]].
  destruct (unavailable h db id); [|apply Ok_inj in H as <-; split; [done|by intros (_ & _ & _ & ?)]].
  apply Ok_inj in H as <-. split; [|done]. intros _. split; [by eexists|done].
Qed.

(** What a ready verdict says about claims. *)
Lemma ready_unclaimed py_repr h db id v :
  explain_task py_repr h db id = Ok v -> v_ready v = true ->
  exists t, task_by_id db id = Some t /\ ownership_conflicts db id = [] /\ current_claim db id = None /\
    locks_free db id /\ resources_available h db id.
Proof.
  unfold explain_task. destruct (task_by_id db id) as [t|]; [|by intros [= <-]]. intros H Hr. exists t. split; [done|].
  destruct (group_verdict db id t) as [g|] eqn:Eg.
  { apply Ok_inj in H as <-. by rewrite (group_verdict_not_ready _ _ _ _ Eg) in Hr. }
  case_bool_decide; [by apply Ok_inj in H as <-|].
  destruct (String.eqb _ _); [by apply Ok_inj in H as <-|].
  destruct (current_claim db id); [by apply Ok_inj in H as <-|].
  destruct (String.eqb _ _); [by apply Ok_inj in H as <-|].
  by apply (explain_prerequisites_ready _ _ _ _ _ _ H) in Hr as (_ & Hc & Hl & Ha).
Qed.

Lemma ready_candidate py_repr h db now queue ca :
  ready_tasks py_repr h db now = Ok queue -> ca ∈ queue ->
  exists v, explain_task py_repr h db ca.(ca_task) = Ok v /\ v_ready v = true.
Proof.
  unfold ready_tasks. intros H Hca. apply result_bind_ok in H as (found & Hf & H). apply Ok_inj in H as <-.
  rewrite merge_sort_Permutation in Hca. apply list_elem_of_omap in Hca as (o & Ho & E). cbn in E. subst o.
  revert found Hf Ho. induction (open_tasks db) as [|t ts IH]; intros found Hf Ho; cbn in Hf.
  { apply Ok_inj in Hf as <-. by apply not_elem_of_nil in Ho. }
  apply result_bind_ok in Hf as (x & Hx & Hf). apply result_bind_ok in Hf as (xs & Hxs & Hf). apply Ok_inj in Hf as <-.
  apply elem_of_cons in Ho as [<-|Ho]; [|by apply (IH xs)]. unfold candidate_of in Hx.
  apply result_bind_ok in Hx as (v & Hv & Hx). destruct (v_ready v) eqn:Er; [|discriminate].
  apply Ok_inj in Hx. injection Hx as <-. by exists v.
Qed.

(** "ready" means exactly what the scheduler needs.  [explain_task] answers ready if and only if the task
    exists, is open (not a group with unfinished children, not terminal, blocked or needing attention), has
    no active or orphaned claim, has every dependency satisfied, conflicts with no active claim, finds its
    claim locks unleased and, for each required resource, a usable instance with room. *)
Theorem explain_task_ready py_repr h db id v :
  explain_task py_repr h db id = Ok v ->
  v_ready v = true <->
  exists t, task_by_id db id = Some t /\ open_and_free db id t /\
    (exists details, evaluate_dependencies py_repr db id = Ok (true, details)) /\
    ownership_conflicts db id = [] /\ locks_free db id /\ resources_available h db id.
Proof.
  unfold explain_task, open_and_free. destruct (task_by_id db id) as [t|].
  2: { intros [= <-]. split; [done|by intros (t & ? & _)]. }
  assert (forall (P : task -> Prop), (exists t', Some t = Some t' /\ P t') <-> P t) as Hex.
  { intros P. split; [by intros (t' & [= <-] & ?)|]. intros HP. by exists t. }
  intros H. rewrite Hex. destruct (group_verdict db id t) as [g|] eqn:Eg.
  { apply Ok_inj in H as <-. rewrite (group_verdict_not_ready _ _ _ _ Eg). split; [done|by intros ((? & _) & _)]. }
  destruct (bool_decide_reflect (t.(tk_status) ∈ TERMINAL)).
  { apply Ok_inj in H as <-. split; [done|by intros ((_ & ? & _) & _)]. }
  destruct (String.eqb_spec t.(tk_status) "attention_required").
  { apply Ok_inj in H as <-. split; [done|by intros ((_ & _ & ? & _) & _)]. }
  rewrite <-(current_claim_none db id). destruct (current_claim db id) as [c|] eqn:Ec.
  { apply Ok_inj in H as <-. split; [done|by intros ((_ & _ & _ & _ & ?) & _)]. }
  destruct (String.eqb_spec t.(tk_status) "blocked").
  { apply Ok_inj in H as <-. split; [done|by intros ((_ & _ & _ & ? & _) & _)]. }
  rewrite (explain_prerequisites_ready _ _ _ _ _ _ H). tauto.
Qed.

#[local] Instance better_total : Total better.
Proof.
  intros a b. unfold better. destruct (Z.lt_trichotomy (ca_score a) (ca_score b)) as [|[|]]; [right; by left| |left; by left].
  destruct (total String.le (ca_task a) (ca_task b)); [left|right]; right; split; congruence.
Qed.

#[local] Instance better_trans : Transitive better.
Proof.
  intros a b c. unfold better. intros [H1|[H1 L1]] [H2|[H2 L2]]; [left; lia..|].
  right. split; [congruence|]. by etransitivity.
Qed.

(** The ready queue.  [ready_tasks] lists exactly the planned, in-progress or in-review tasks that
    [explain_task] finds ready, each with the score priority * 10^6 + unlocks * 10^4 + min(age, 9999), from
    the highest score down, ties by task id. *)
Theorem ready_tasks_spec py_repr h db now queue :
  ready_tasks py_repr h db now = Ok queue ->
  StronglySorted better queue /\
  forall c, c ∈ queue <->
    exists t v, t ∈ db.(tasks) /\ t.(tk_status) ∈ ["planned"; "in_progress"; "review"] /\
      explain_task py_repr h db t.(tk_id) = Ok v /\ v_ready v = true /\
      c = Build_candidate t.(tk_id) t.(tk_priority) (downstream_unlock_value db t.(tk_id))
            (Z.max 0 (now - t.(tk_created)))
            (score t.(tk_priority) (downstream_unlock_value db t.(tk_id)) (Z.max 0 (now - t.(tk_created)))) v.
Proof.
  unfold ready_tasks. intros H. apply result_bind_ok in H as (found & Hf & H). apply Ok_inj in H as <-.
  split; [apply StronglySorted_merge_sort; apply _|]. intros c. rewrite merge_sort_Permutation, list_elem_of_omap.
  assert (forall t, t ∈ open_tasks db <-> t ∈ db.(tasks) /\ t.(tk_status) ∈ ["planned"; "in_progress"; "review"]) as Hopen.
  { intros t. unfold open_tasks. rewrite merge_sort_Permutation, list_elem_of_In, List.filter_In, bool_decide_eq_true.
    by rewrite <-list_elem_of_In. }
  assert (forall o, o ∈ found <-> exists t, t ∈ open_tasks db /\ candidate_of py_repr h db now t = Ok o) as Hfound.
  { clear -Hf. revert found Hf. induction (open_tasks db) as [|t ts IH]; intros found Hf o; cbn in Hf.
    - apply Ok_inj in Hf as <-. split; [by intros ?%not_elem_of_nil|by intros (t & ?%not_elem_of_nil & _)].
    - apply result_bind_ok in Hf as (x & Hx & Hf). apply result_bind_ok in Hf as (xs & Hxs & Hf).
      apply Ok_inj in Hf as <-. rewrite elem_of_cons, (IH _ Hxs). split.
      + intros [->|(t' & Ht & Ho)]; [exists t; split; [left|done]|exists t'; split; [by right|done]].
      + intros (t' & [->|Ht]%elem_of_cons & Ho); [left; congruence|right; eauto]. }
  split.
  - intros (o & (t & [Ht Hs]%Hopen & Hc)%Hfound & Ho). cbn in Ho. subst o. unfold candidate_of in Hc.
    apply result_bind_ok in Hc as (v & Hv & Hc). destruct (v_ready v) eqn:Er; cbn in Hc; [|done].
    apply Ok_inj in Hc. injection Hc as <-. by exists t, v.
  - intros (t & v & Ht & Hs & Hv & Hr & ->). eexists. split; [|reflexivity]. apply Hfound. exists t.
    split; [by apply Hopen|]. unfold candidate_of. rewrite Hv, bind_Ok, Hr. done.
Qed.
