(* ===== verification/LeaseProps.v ===== *)
(** * The Todo scheduler: exclusive paths, locks and resource capacity *)

From Stdlib Require Import ZArith.
From S2P Require Import Prelude PyValue Text Json Ledger Ownership.
Import Ledger Ownership.

#[local] Open Scope string_scope.
#[local] Open Scope Z_scope.
#[local] Open Scope list_scope.

(** ** Paths *)

Lemma prefix_cons c c' p s :
  String.prefix (String c p) (String c' s) = bool_decide (c = c') && String.prefix p s.
Proof.
  cbn. destruct (Ascii.ascii_dec c c') as [->|Hne]; [by rewrite bool_decide_true|by rewrite bool_decide_false].
Qed.

Lemma prefix_app p s : String.prefix p s = true <-> exists t, s = p +:+ t.
Proof.
  revert s. induction p as [|c p IH]; intros s.
  { split; [intros _; by exists s|by destruct s]. }
  destruct s as [|c' s]; [split; [done|by intros (t & ?)]|].
  rewrite prefix_cons, andb_true_iff, bool_decide_eq_true, IH. split.
  - intros [-> (t & ->)]. by exists t.
  - intros (t & E). injection E as -> ->. split; [done|]. by exists t.
Qed.

(** Two directories of one path are nested or equal. *)
Lemma common_path r1 r2 t1 t2 :
  r1 +:+ "/" +:+ t1 = r2 +:+ "/" +:+ t2 ->
  r1 = r2 \/ (exists u, r2 = r1 +:+ "/" +:+ u) \/ (exists u, r1 = r2 +:+ "/" +:+ u).
Proof.
  revert r2. induction r1 as [|c r1 IH]; intros [|c2 r2] E; cbn in E.
  - by left.
  - injection E as <- E. right. left. by exists r2.
  - injection E as -> E. right. right. by exists r1.
  - injection E as -> E. destruct (IH _ E) as [->|[[u ->]|[u ->]]]; [by left|right; left; by exists u|right; right; by exists u].
Qed.

(** A stored scope is canonical: no trailing slash (canonical_relative strips them). *)
Definition canonical (root : string) : Prop := rstrip_while is_slash root = root.

Lemma str_app_assoc a b c : (a +:+ b) +:+ c = a +:+ (b +:+ c).
Proof.
  induction a as [|x a IH]; [done|].
  change (String x ((a +:+ b) +:+ c) = String x (a +:+ (b +:+ c))). by rewrite IH.
Qed.

Lemma path_contains_spec root path :
  canonical root -> path_contains root path = true <-> path = root \/ exists t, path = root +:+ "/" +:+ t.
Proof.
  unfold canonical, path_contains, starts_with. intros ->.
  rewrite orb_true_iff, String.eqb_eq, prefix_app. by setoid_rewrite str_app_assoc.
Qed.

Lemma in_scope_spec owned path :
  in_scope owned path = true <-> exists root, root ∈ owned /\ (path = root \/ exists t, path = root +:+ "/" +:+ t).
Proof.
  unfold in_scope, starts_with. rewrite existsb_exists. setoid_rewrite orb_true_iff.
  setoid_rewrite String.eqb_eq. setoid_rewrite prefix_app. setoid_rewrite str_app_assoc.
  by setoid_rewrite list_elem_of_In.
Qed.

(** Scopes that share a path overlap. *)
Lemma shared_path_overlaps r1 r2 path :
  canonical r1 -> canonical r2 ->
  (path = r1 \/ exists t, path = r1 +:+ "/" +:+ t) -> (path = r2 \/ exists t, path = r2 +:+ "/" +:+ t) ->
  paths_overlap r1 r2 = true.
Proof.
  intros C1 C2 H1 H2. unfold paths_overlap. apply orb_true_iff.
  rewrite (path_contains_spec r1 r2 C1), (path_contains_spec r2 r1 C2).
  destruct H1 as [->|[t1 ->]], H2 as [E|[t2 E]].
  - left. by left.
  - right. right. by exists t2.
  - left. right. exists t1. done.
  - destruct (common_path _ _ _ _ E) as [->|[H|H]]; [left; by left|left; by right|right; by right].
Qed.

(** A task without conflict has no root in common with the exclusive roots of a claimed task. *)
Lemma no_conflict_disjoint db task c other r1 r2 :
  ownership_conflicts db task = [] ->
  c ∈ db.(claims) -> is_active_claim c = true -> c.(cl_task) <> task ->
  task_by_id db c.(cl_task) = Some other ->
  _isolated_merge_overlap_allowed db task c.(cl_task) c.(cl_id) = false ->
  r1 ∈ scopes_for db task "exclusive" -> r2 ∈ scopes_for db c.(cl_task) "exclusive" ->
  paths_overlap r1 r2 = false.
Proof.
  intros Hfree Hc Hact Hne Hother Hiso Hr1 Hr2. apply not_true_iff_false. intros Hov.
  unfold ownership_conflicts in Hfree. destruct (task_by_id db task) as [t|]; [|done].
  assert ((c, other) ∈ active_others db task) as Hrow.
  { unfold active_others. apply list_elem_of_omap. exists c. split; [done|].
    rewrite Hact, Hother. destruct (String.eqb_spec c.(cl_task) task); [congruence|done]. }
  destruct (_ && _) in Hfree.
  { apply map_eq_nil in Hfree. rewrite Hfree in Hrow. by apply not_elem_of_nil in Hrow. }
  destruct (String.eqb _ "serial" && _) eqn:Eserial in Hfree.
  { apply map_eq_nil in Hfree. rewrite Hfree in Eserial. by apply andb_true_iff in Eserial as [_ Eserial]. }
  destruct (List.filter (blocks_others db task) (active_others db task)) as [|b bs]; [|discriminate].
  destruct (_ && _) in Hfree; [done|].
  assert (path_conflict r1 r2 c.(cl_task) ∈ concat (map (path_conflicts db task) (active_others db task))) as Hbad.
  { apply list_elem_of_In, in_concat. exists (path_conflicts db task (c, other)). split.
    { apply in_map. by apply list_elem_of_In. }
    unfold path_conflicts. apply in_app_iff. left. apply in_concat. eexists. split.
    { apply in_map_iff. exists r1. split; [reflexivity|by apply list_elem_of_In]. }
    apply list_elem_of_In, list_elem_of_omap. exists r2. split; [done|]. cbn [fst]. by rewrite Hov, Hiso. }
  rewrite Hfree in Hbad. by apply not_elem_of_nil in Hbad.
Qed.

Definition canonical_scopes (db : ledger) : Prop := forall s, s ∈ db.(scopes) -> canonical s.(sc_path).

Lemma scope_canonical db task mode r : canonical_scopes db -> r ∈ scopes_for db task mode -> canonical r.
Proof.
  intros H Hr. unfold scopes_for in Hr. rewrite merge_sort_Permutation in Hr.
  apply list_elem_of_fmap in Hr as (s & -> & Hs). apply list_elem_of_In, List.filter_In in Hs as [Hs _].
  apply H. by apply list_elem_of_In.
Qed.

(** Disjoint roots have no path in common. *)
Lemma disjoint_roots db t1 t2 path :
  canonical_scopes db ->
  (forall r1 r2, r1 ∈ scopes_for db t1 "exclusive" -> r2 ∈ scopes_for db t2 "exclusive" -> paths_overlap r1 r2 = false) ->
  in_scope (scopes_for db t1 "exclusive") path = true -> in_scope (scopes_for db t2 "exclusive") path = false.
Proof.
  intros Hcanon Hdis Hin. apply not_true_iff_false. intros Hin'.
  apply in_scope_spec in Hin as (r1 & Hr1 & P1). apply in_scope_spec in Hin' as (r2 & Hr2 & P2).
  specialize (Hdis r1 r2 Hr1 Hr2). apply not_true_iff_false in Hdis. apply Hdis.
  eapply shared_path_overlaps; eauto using scope_canonical.
Qed.

(** One editor per path.  If a task has no ownership conflict, then no path is inside its exclusive scope
    and inside the exclusive scope of a task with an active claim, unless the two were proved isolated
    (merge workspaces): whatever [guard_paths] admits for one of them it refuses for the other. *)
Theorem exclusive_scopes_disjoint db task c other path :
  (forall s, s ∈ db.(scopes) -> canonical s.(sc_path)) ->
  ownership_conflicts db task = [] ->
  c ∈ db.(claims) -> is_active_claim c = true -> c.(cl_task) <> task ->
  task_by_id db c.(cl_task) = Some other ->
  _isolated_merge_overlap_allowed db task c.(cl_task) c.(cl_id) = false ->
  in_scope (scopes_for db task "exclusive") path = true ->
  in_scope (scopes_for db c.(cl_task) "exclusive") path = false.
Proof.
  intros Hcanon Hfree Hc Hact Hne Hother Hiso. apply (disjoint_roots db task (cl_task c) path Hcanon).
  intros r1 r2. by apply (no_conflict_disjoint db task c other).
Qed.

(** The path guard.  [guard_paths] admits a request only for an active claim, only when every path lies in
    the claim's exclusive scope, and only when no path overlaps a path delegated to a child of the claim;
    it then returns exactly the paths asked for. *)
Theorem guard_paths_sound db claim_id paths allowed task :
  guard_paths db claim_id paths = Ok (allowed, task) ->
  exists c, c ∈ db.(claims) /\ c.(cl_id) = claim_id /\ is_active_claim c = true /\ c.(cl_task) = task /\
    allowed = paths /\
    (forall p, p ∈ paths -> in_scope (scopes_for db task "exclusive") p = true) /\
    (forall p s ch, p ∈ paths -> s ∈ db.(child_scopes) -> s.(cc_state) = "active" ->
       ch ∈ db.(children) -> ch.(ch_id) = s.(cc_child) -> ch.(ch_parent_claim) = claim_id ->
       paths_overlap p s.(cc_path) = false).
Proof.
  unfold guard_paths. destruct (List.find _ _) as [c|] eqn:Ec; [|done]. intros H.
  apply List.find_some in Ec as [Hc Ec]. apply andb_true_iff in Ec as [Hid%String.eqb_eq Hact].
  apply result_bind_ok in H as (u1 & Hden & H). apply raise_if_ok in Hden.
  apply result_bind_ok in H as (u2 & Hdel & H). apply raise_if_ok in Hdel. apply Ok_inj in H. injection H as Ha Ht.
  destruct (sorted_set _) eqn:Es in Hden; [|done]. apply sorted_set_nil in Es. clear Hden.
  assert (forall p, p ∈ paths -> in_scope (scopes_for db c.(cl_task) "exclusive") p = true) as Hin.
  { intros p Hp. destruct (in_scope _ p) eqn:E; [done|]. exfalso.
    assert (p ∈ @nil string) as Hn; [|by apply not_elem_of_nil in Hn]. rewrite <-Es.
    apply list_elem_of_In, List.filter_In. split; [by apply list_elem_of_In|].
    rewrite bool_decide_false; [done|]. intros Hx. apply list_elem_of_In, List.filter_In in Hx as [_ Hx]. congruence. }
  assert (allowed = paths) as Hall.
  { rewrite <-Ha. clear -Hin. induction paths as [|p ps IH]; cbn; [done|]. rewrite (Hin p) by left.
    f_equal. apply IH. intros q Hq. apply Hin. by right. }
  exists c. split; [by apply list_elem_of_In|]. rewrite <-Ht. do 4 (split; [done|]). split; [done|].
  intros p s ch Hp Hs Hst Hch Hchid Hpar. destruct (paths_overlap p s.(cc_path)) eqn:E; [|done]. exfalso.
  rewrite Ha in Hdel. destruct (delegated_paths db claim_id allowed) eqn:Ed; [|done].
  assert ((p, s.(cc_path), s.(cc_child)) ∈ delegated_paths db claim_id allowed) as Hd.
  { unfold delegated_paths. apply list_elem_of_In, in_concat. eexists. split.
    - apply in_map_iff. exists s. split; [reflexivity|by apply list_elem_of_In].
    - rewrite Hst. cbn [String.eqb]. rewrite (proj2 (existsb_exists _ _)).
      + apply list_elem_of_In, list_elem_of_omap. exists p. rewrite Hall. split; [done|]. by rewrite E.
      + exists ch. split; [by apply list_elem_of_In|]. by rewrite Hchid, Hpar, !String.eqb_refl. }
  rewrite Ed in Hd. by apply not_elem_of_nil in Hd.
Qed.

(** ** Named locks *)

(** At most one active lease per lock. *)
Definition lock_exclusive (ls : list lock_lease) : Prop := NoDup (map ll_lock (List.filter lock_active ls)).

Lemma lock_busy_spec ls name : lock_busy ls name = true <-> name ∈ map ll_lock (List.filter lock_active ls).
Proof.
  unfold lock_busy. rewrite existsb_exists, list_elem_of_fmap. split.
  - intros (l & Hl & E). apply andb_true_iff in E as [E%String.eqb_eq Ha]. exists l. split; [done|].
    apply list_elem_of_In, List.filter_In. done.
  - intros (l & -> & Hl). apply list_elem_of_In, List.filter_In in Hl as [Hl Ha]. exists l.
    by rewrite String.eqb_refl, Ha.
Qed.

(** Deactivating leases keeps the invariant. *)
Lemma deactivate_active f ls :
  (forall l, lock_active (f l) = true -> f l = l) ->
  exists keep, List.filter lock_active (map f ls) = List.filter (fun l => lock_active l && keep l) ls.
Proof.
  intros H. exists (fun l => lock_active (f l)). induction ls as [|l ls IH]; cbn; [done|].
  destruct (lock_active (f l)) eqn:E.
  - rewrite (H l E) in E |- *. rewrite E. cbn. by rewrite IH.
  - by rewrite andb_false_r.
Qed.

Lemma NoDup_map_subfilter {A B} (g : A -> B) (p q : A -> bool) ls :
  NoDup (map g (List.filter p ls)) -> NoDup (map g (List.filter (fun l => p l && q l) ls)).
Proof.
  induction ls as [|l ls IH]; cbn; [done|]. destruct (p l); cbn; [|auto]. intros [Hl Hn]%NoDup_cons.
  destruct (q l); cbn; [|auto]. apply NoDup_cons. split; [|auto]. intros (x & E & Hx)%list_elem_of_fmap. apply Hl.
  rewrite E. apply list_elem_of_fmap. exists x. split; [done|].
  apply list_elem_of_In, List.filter_In in Hx as [Hx Hp]. apply andb_true_iff in Hp as [Hp _].
  by apply list_elem_of_In, List.filter_In.
Qed.

Lemma deactivate_exclusive f ls :
  (forall l, lock_active (f l) = true -> f l = l) -> lock_exclusive ls -> lock_exclusive (map f ls).
Proof.
  unfold lock_exclusive. intros H Hex. destruct (deactivate_active f ls H) as [keep ->]. by apply NoDup_map_subfilter.
Qed.

Lemma sweep_exclusive h now ls : lock_exclusive ls -> lock_exclusive (sweep_lock_leases h now ls).
Proof. apply deactivate_exclusive. intros l. by destruct (lock_stale h now l). Qed.

Section Tokens.
Context (token_hash : string -> string).

Lemma acquire_names_spec h now claim session secs cmd fresh n names ls ls' :
  acquire_names token_hash h now claim session secs cmd fresh n names ls = Ok ls' ->
  lock_exclusive ls ->
  lock_exclusive ls' /\ (forall name, name ∈ names -> lock_busy ls name = false) /\
  exists more, ls' = ls ++ more /\ map ll_lock more = names /\
    forall l, l ∈ more -> lock_active l = true /\ l.(ll_claim) = claim /\ l.(ll_expires) = now + secs.
Proof.
  revert n ls. induction names as [|name names IH]; intros n ls H Hex; cbn in H.
  { apply Ok_inj in H as <-. split; [done|]. split; [by intros ? ?%not_elem_of_nil|].
    exists []. rewrite app_nil_r. split; [done|]. split; [done|]. by intros ? ?%not_elem_of_nil. }
  apply result_bind_ok in H as (u & Hb & H). apply raise_if_ok in Hb.
  set (new := new_lock_lease _ _ _ _ _ _ _ _ _ _) in H.
  assert (List.filter lock_active (ls ++ [new]) = List.filter lock_active ls ++ [new]) as Happ
    by (rewrite List.filter_app; done).
  assert (lock_exclusive (ls ++ [new])) as Hex1.
  { unfold lock_exclusive. rewrite Happ, map_app. apply NoDup_snoc; [done|]. cbn.
    rewrite <-lock_busy_spec. by rewrite Hb. }
  destruct (IH _ _ H Hex1) as (Hex' & Hbusy & more & -> & Hm & Hl). split; [done|]. split.
  - intros x [->|Hx]%elem_of_cons; [done|]. specialize (Hbusy x Hx).
    unfold lock_busy in *. rewrite existsb_app in Hbusy. by apply orb_false_iff in Hbusy as [? _].
  - exists (new :: more). rewrite <-app_assoc. split; [done|]. split; [by cbn; rewrite Hm|].
    intros l [->|Hx]%elem_of_cons; [done|auto].
Qed.

(** Taking locks is all or nothing and exclusive.  [acquire_task_locks] succeeds only when, after stale
    leases are swept, no claim lock of the task is leased; it then leases each of them to the claim until
    now + lease_seconds and touches nothing else, and a lock still never has two active leases. *)
Theorem acquire_task_locks_spec h now db task claim session secs fresh db' :
  lock_exclusive db.(lock_leases) ->
  acquire_task_locks token_hash h now db task claim session secs fresh = Ok db' ->
  lock_exclusive db'.(lock_leases) /\
  (forall name, name ∈ task_lock_names db task ->
     lock_busy (sweep_lock_leases h now db.(lock_leases)) name = false) /\
  exists more, db'.(lock_leases) = sweep_lock_leases h now db.(lock_leases) ++ more /\
    map ll_lock more = task_lock_names db task /\
    (forall l, l ∈ more -> lock_active l = true /\ l.(ll_claim) = Some claim /\ l.(ll_expires) = now + secs) /\
    db'.(resource_leases) = db.(resource_leases).
Proof.
  intros Hex H. unfold acquire_task_locks in H. apply result_bind_ok in H as (ls & Hls & H). apply Ok_inj in H as <-.
  destruct (acquire_names_spec _ _ _ _ _ _ _ _ _ _ _ Hls (sweep_exclusive h now _ Hex)) as (A & B & more & C & D & E).
  split; [done|]. split; [done|]. exists more. done.
Qed.

(** Releasing a lock by its token frees it.  The lease that the token names is active before; after, the
    lock has no active lease and can be taken again. *)
Theorem release_lock_frees now db token db' :
  lock_exclusive db.(lock_leases) -> release_lock token_hash now db token = Ok db' ->
  exists row, row ∈ db.(lock_leases) /\ lock_active row = true /\ row.(ll_token) = token_hash token /\
    lock_busy db'.(lock_leases) row.(ll_lock) = false /\ lock_exclusive db'.(lock_leases).
Proof.
  intros Hex H. unfold release_lock in H. destruct (List.find _ _) as [row|] eqn:E; [|done]. apply Ok_inj in H as <-.
  apply List.find_some in E as [Hrow E]. apply andb_true_iff in E as [Et%String.eqb_eq Ea].
  exists row. split; [by apply list_elem_of_In|]. do 2 (split; [done|]). cbn [with_leases lock_leases].
  split; [|by apply deactivate_exclusive; [intros l; by destruct (String.eqb _ _)|]].
  apply not_true_iff_false. intros Hb. unfold lock_busy in Hb. apply existsb_exists in Hb as (l & Hl & Hb).
  apply in_map_iff in Hl as (l0 & <- & Hl0). destruct (String.eqb_spec l0.(ll_id) row.(ll_id)) as [Hid|Hid].
  { cbn in Hb. by rewrite andb_false_r in Hb. }
  apply andb_true_iff in Hb as [Hlock%String.eqb_eq Hact].
  unfold lock_exclusive in Hex.
  assert (l0 = row) as ->; [|done].
  assert (forall x, In x db.(lock_leases) -> lock_active x = true -> x ∈ List.filter lock_active db.(lock_leases)) as Hf.
  { intros x Hx Hxa. by apply list_elem_of_In, List.filter_In. }
  apply (Hf _ Hl0) in Hact. apply (Hf _ Hrow) in Ea.
  apply list_elem_of_lookup in Hact as [i Hi], Ea as [j Hj].
  assert (i = j) as ->; [|congruence].
  eapply (NoDup_lookup _ _ _ _ Hex); [by rewrite list_lookup_fmap, Hi|by rewrite list_lookup_fmap, Hj; cbn; rewrite Hlock].
Qed.

(** ** Resources *)

(** No instance has more active leases than its capacity. *)
Definition within_capacity (db : ledger) : Prop :=
  forall i, i ∈ db.(instances) -> active_count db.(resource_leases) i.(ri_id) <= Z.max 0 i.(ri_capacity).

Lemma deactivate_count f ls id :
  (forall l, resource_active (f l) = true -> f l = l) -> active_count (map f ls) id <= active_count ls id.
Proof.
  intros H. unfold active_count. apply inj_le. induction ls as [|l ls IH]; [done|]. cbn [map List.filter].
  destruct (resource_active (f l)) eqn:E.
  - rewrite (H l E) in E |- *. rewrite E. destruct (String.eqb _ _ && true); cbn; lia.
  - rewrite andb_false_r. destruct (_ && _); cbn; lia.
Qed.

Lemma sweep_resource_count h now ls id : active_count (sweep_resource_leases h now ls) id <= active_count ls id.
Proof. apply deactivate_count. intros l. by destruct (resource_stale h now l). Qed.

Lemma matching_in_inventory h db selector i : i ∈ matching_instances h db selector -> i ∈ db.(instances) /\ usable h i = true.
Proof.
  unfold matching_instances. destruct (any_class selector).
  - rewrite merge_sort_Permutation, list_elem_of_In, List.filter_In, <-list_elem_of_In.
    intros [Hi E]. by apply andb_true_iff in E as [_ E].
  - destruct (List.find _ _) as [j|] eqn:E; cbn; [|by intros ?%not_elem_of_nil].
    intros ->%list_elem_of_singleton. apply List.find_some in E as [Hi E]. apply andb_true_iff in E as [_ E].
    split; [by apply list_elem_of_In|done].
Qed.

(** The two outcomes of leasing a resource. *)
Lemma acquire_resource_cases h now db selector session claim req secs cmd id token :
  within_capacity db -> NoDup (map ri_id db.(instances)) ->
  match acquire_resource token_hash h now db selector session claim req secs cmd id token with
  | Ok (i, db') =>
      i ∈ db.(instances) /\ usable h i = true /\
      active_count (sweep_resource_leases h now db.(resource_leases)) i.(ri_id) < i.(ri_capacity) /\
      within_capacity db' /\
      exists l, db'.(resource_leases) = sweep_resource_leases h now db.(resource_leases) ++ [l] /\
        l.(rl_instance) = i.(ri_id) /\ l.(rl_claim) = claim /\ l.(rl_expires) = now + secs /\ resource_active l = true
  | Err e =>
      e = TodoError "resource_unavailable" /\
      forall i, i ∈ matching_instances h db selector ->
        i.(ri_capacity) <= active_count (sweep_resource_leases h now db.(resource_leases)) i.(ri_id)
  end.
Proof.
  intros Hcap Hnd. unfold acquire_resource. destruct (List.find _ _) as [i|] eqn:E.
  - apply List.find_some in E as [Hi Hroom]. apply list_elem_of_In, matching_in_inventory in Hi as [Hi Hu].
    apply Z.ltb_lt in Hroom. do 3 (split; [done|]). split.
    + intros j Hj. cbn [with_leases instances resource_leases] in *. unfold active_count in *.
      rewrite List.filter_app, length_app. cbn [List.filter rl_instance resource_active rl_state].
      specialize (Hcap j Hj). pose proof (sweep_resource_count h now db.(resource_leases) j.(ri_id)) as Hs.
      unfold active_count in *. destruct (String.eqb_spec i.(ri_id) j.(ri_id)) as [Eij|Eij]; cbn [andb length].
      * assert (i = j) as ->; [|cbn; lia].
        apply list_elem_of_lookup in Hi as [a Ha], Hj as [b Hb]. assert (a = b) as ->; [|congruence].
        eapply (NoDup_lookup _ _ _ _ Hnd); [by rewrite list_lookup_fmap, Ha|].
        rewrite list_lookup_fmap, Hb. cbn. by rewrite Eij.
      * lia.
    + eexists. split; [reflexivity|]. done.
  - split; [done|]. intros i Hi%list_elem_of_In. pose proof (List.find_none _ _ E _ Hi) as Hf.
    unfold has_room in Hf. by apply Z.ltb_ge in Hf.
Qed.

(** Leasing a resource.  [acquire_resource] succeeds exactly when, after stale leases are swept, some
    usable instance matching the selector has room; it leases the first such instance in id order until
    now + lease_seconds, and no instance exceeds its capacity. *)
Theorem acquire_resource_spec h now db selector session claim req secs cmd id token :
  within_capacity db -> NoDup (map ri_id db.(instances)) ->
  match acquire_resource token_hash h now db selector session claim req secs cmd id token with
  | Ok (i, db') =>
      i ∈ db.(instances) /\ usable h i = true /\
      active_count (sweep_resource_leases h now db.(resource_leases)) i.(ri_id) < i.(ri_capacity) /\
      within_capacity db' /\
      exists l, db'.(resource_leases) = sweep_resource_leases h now db.(resource_leases) ++ [l] /\
        l.(rl_instance) = i.(ri_id) /\ l.(rl_claim) = claim /\ l.(rl_expires) = now + secs /\ resource_active l = true
  | Err e =>
      e = TodoError "resource_unavailable" /\
      forall i, i ∈ matching_instances h db selector ->
        i.(ri_capacity) <= active_count (sweep_resource_leases h now db.(resource_leases)) i.(ri_id)
  end.
Proof. apply acquire_resource_cases. Qed.

(** ** Runs: every operation on leases, at any time and on any host *)

Inductive lease_step : ledger -> ledger -> Prop :=
  | step_task_locks h now db task claim session secs fresh db' :
      acquire_task_locks token_hash h now db task claim session secs fresh = Ok db' -> lease_step db db'
  | step_named_locks h now db names claim session secs cmd fresh db' :
      acquire_named_locks token_hash h now db names claim session secs cmd fresh = Ok db' -> lease_step db db'
  | step_release_lock now db token db' : release_lock token_hash now db token = Ok db' -> lease_step db db'
  | step_release_claim now db claim : lease_step db (release_claim_locks now db claim)
  | step_resource h now db selector session claim req secs cmd id token i db' :
      acquire_resource token_hash h now db selector session claim req secs cmd id token = Ok (i, db') -> lease_step db db'
  | step_release_resource now db token db' : release_resource token_hash now db token = Ok db' -> lease_step db db'.

Lemma lease_step_safe db db' :
  lease_step db db' -> lock_exclusive db.(lock_leases) -> within_capacity db -> NoDup (map ri_id db.(instances)) ->
  lock_exclusive db'.(lock_leases) /\ within_capacity db' /\ db'.(instances) = db.(instances).
Proof.
  intros Hs Hex Hcap Hnd. destruct Hs as [h now db task claim session secs fresh db' H|h now db names claim session secs cmd fresh db' H|now db token db' H|now db claim|h now db selector session claim req secs cmd id token i db' H|now db token db' H].
  - unfold acquire_task_locks in H. apply result_bind_ok in H as (ls & Hls & H). apply Ok_inj in H as <-.
    by apply acquire_names_spec in Hls as (? & _); [|apply sweep_exclusive].
  - unfold acquire_named_locks in H. apply result_bind_ok in H as (ls & Hls & H). apply Ok_inj in H as <-.
    by apply acquire_names_spec in Hls as (? & _); [|apply sweep_exclusive].
  - assert (within_capacity db' /\ instances db' = instances db) as [? ?].
    { unfold release_lock in H. destruct (List.find _ _); [|done]. by apply Ok_inj in H as <-. }
    by destruct (release_lock_frees _ _ _ _ Hex H) as (row & _ & _ & _ & _ & ?).
  - split; [|done]. apply deactivate_exclusive; [|done]. intros l. by destruct (_ && _).
  - assert (lock_leases db' = lock_leases db /\ instances db' = instances db) as [-> ->].
    { unfold acquire_resource in H. destruct (List.find _ _); [|done]. apply Ok_inj in H. by injection H as _ <-. }
    pose proof (acquire_resource_cases h now db selector session claim req secs cmd id token Hcap Hnd) as Hr.
    rewrite H in Hr. by destruct Hr as (_ & _ & _ & ? & _).
  - unfold release_resource in H. destruct (List.find _ _) as [row|]; [|done]. apply Ok_inj in H as <-.
    split; [done|]. split; [|done]. intros i Hi. cbn. specialize (Hcap i Hi).
    etransitivity; [apply deactivate_count; intros l; by destruct (String.eqb _ _)|exact Hcap].
Qed.

(** Mutual exclusion over time.  Whatever sequence of acquisitions and releases runs, on any hosts and at
    any times, a named lock never has two active leases and a resource instance never more active leases than
    its capacity. *)
Theorem leases_safe db db' :
  rtc lease_step db db' -> lock_exclusive db.(lock_leases) -> within_capacity db -> NoDup (map ri_id db.(instances)) ->
  lock_exclusive db'.(lock_leases) /\ within_capacity db'.
Proof.
  intros Hs. induction Hs as [db|db db1 db' Hstep _ IH]; intros Hex Hcap Hnd; [done|].
  destruct (lease_step_safe _ _ Hstep Hex Hcap Hnd) as (Hex1 & Hcap1 & Hi). apply IH; [done..|]. by rewrite Hi.
Qed.

End Tokens.
