(* ===== verification/Claims.v ===== *)
(** * Claims of the Todo ledger (claims.py, sessions.py, git_state.py, db.py)

    A session claims the best ready task: one transaction inserts the claim, sets the
    task in progress, leases its claim locks and its resources.  Expired claims are swept
    into clean releases or orphans, and orphans are released or adopted.  [env] is what an
    operation reads outside the database: the host, the clock (seconds), git and the
    files of the repository.  Fresh ids and tokens are arguments ([fresh n] is the n-th
    id and token drawn).  An exception rolls the transaction back, so an operation is a
    function from the ledger to a result. *)

From Stdlib Require Import ZArith SpecFloat.
From S2P Require Import Prelude PyValue Text Json Stamps Ledger Ownership Readiness.
Import Ledger Ownership Readiness.

#[local] Open Scope string_scope.
#[local] Open Scope Z_scope.
#[local] Open Scope list_scope.

Module Claims.

(** ** The world outside *)

(** The background job database of the repository: absent, unreadable, or its jobs. *)
Inductive background :=
  | no_database
  | unreadable
  | jobs (rows : list (option string * string)).

Record env := {
  e_host : host;
  e_now : Z;
  e_head : option string;                      (* git_head *)
  e_dirty : list string;                       (* dirty_paths *)
  e_tree : string -> list (string * string);   (* the files under a root, with their hashes *)
  e_repo : string;                             (* repo_root.resolve() *)
  e_uid : Z;
  e_user : option string;                      (* pwd.getpwuid(uid).pw_name *)
  e_background : background
}.

(** [utc_now] of config.py: seconds, "Z". *)
Definition utc_text (t : Z) : string := String.substring 0 19 (format_stamp (t * 1000000)) +:+ "Z".

(** ** Updates by id *)

Definition with_claims (db : ledger) (ts : list task) (cs : list claim) : ledger :=
  {| tasks := ts; dependencies := db.(dependencies); checkpoints := db.(checkpoints);
     interfaces := db.(interfaces); consumers := db.(consumers); barriers := db.(barriers);
     requirements := db.(requirements); decisions := db.(decisions); gates := db.(gates);
     rendezvouses := db.(rendezvouses); claims := cs; scopes := db.(scopes);
     task_locks := db.(task_locks); lock_leases := db.(lock_leases); instances := db.(instances);
     requests := db.(requests); resource_leases := db.(resource_leases); runs := db.(runs);
     lanes := db.(lanes); lane_tasks := db.(lane_tasks); workspaces := db.(workspaces);
     dispatches := db.(dispatches); children := db.(children); child_scopes := db.(child_scopes) |}.

Definition update_claim (id : string) (f : claim -> claim) (db : ledger) : ledger :=
  with_claims db db.(tasks) (map (fun c => if String.eqb c.(cl_id) id then f c else c) db.(claims)).

Definition update_task (id : string) (f : task -> task) (db : ledger) : ledger :=
  with_claims db (map (fun t => if String.eqb t.(tk_id) id then f t else t) db.(tasks)) db.(claims).

Definition set_status (status : string) (attention : option string) (updated version revision : Z) (t : task) : task :=
  {| tk_id := t.(tk_id); tk_parent := t.(tk_parent); tk_kind := t.(tk_kind); tk_status := status;
     tk_priority := t.(tk_priority); tk_policy := t.(tk_policy); tk_result := t.(tk_result);
     tk_attention := attention; tk_created := t.(tk_created); tk_updated := updated;
     tk_version := version; tk_revision := revision |}.

(** "SET state=?, orphan_reason=?, released_at=?"; a column not named keeps its value. *)
Definition end_claim (state : string) (reason : option string) (released : option Z) (c : claim) : claim :=
  {| cl_id := c.(cl_id); cl_task := c.(cl_task); cl_session := c.(cl_session); cl_state := state;
     cl_created := c.(cl_created); cl_expires := c.(cl_expires); cl_token := c.(cl_token);
     cl_heartbeat := c.(cl_heartbeat); cl_head := c.(cl_head); cl_baseline := c.(cl_baseline);
     cl_revision := c.(cl_revision); cl_orphan_reason := reason; cl_released := released;
     cl_owner := c.(cl_owner); cl_instance := c.(cl_instance) |}.

Definition released (state : string) (now : Z) (c : claim) : claim :=
  end_claim state c.(cl_orphan_reason) (Some now) c.

(** ** Manifests of owned paths *)

Section WithHost.
Context (float_repr : spec_float -> string) (sha256 : string -> string) (py_repr : pyval -> string).

Definition token_hash (token : string) : string := sha256 token.

(** "json.dumps(v, sort_keys=True)". *)
Definition dumps (v : pyval) : string := json_ascii float_repr ", " ": " v.

Definition manifest_value (roots dirty : list string) (files : list (string * string)) : pyval :=
  PDict [("roots", PList (map PStr roots)); ("dirty_paths", PList (map PStr dirty));
         ("files", PDict (map (fun kv => (kv.1, PStr kv.2)) files))].

Definition make_manifest (roots dirty : list string) (files : list (string * string)) : manifest :=
  {| mf_roots := roots; mf_dirty := dirty; mf_files := files;
     mf_fingerprint := Some (sha256 (dumps (manifest_value roots dirty files))) |}.

Definition files_under (e : env) (roots : list string) : list (string * string) :=
  foldl (fun d root => foldl (fun d kv => dict_set kv.1 kv.2 d) d (e.(e_tree) root)) [] roots.

Definition scope_manifest (e : env) (roots : list string) : manifest :=
  let normalized := sorted_set roots in
  make_manifest normalized
    (List.filter (fun p => existsb (fun root => path_contains root p) normalized) e.(e_dirty))
    (files_under e normalized).

Definition same_fingerprint (a b : manifest) : bool := bool_decide (a.(mf_fingerprint) = b.(mf_fingerprint)).

(** The owned paths of a task as they are now. *)
Definition current_manifest (e : env) (db : ledger) (task_id : string) : manifest :=
  scope_manifest e (scopes_for db task_id "exclusive").

(** [claim_fingerprint]. *)
Definition claim_value (c : claim) : pyval :=
  PDict [("id", PStr c.(cl_id)); ("task_id", PStr c.(cl_task)); ("session_id", PStr c.(cl_session));
         ("token_hash", PStr c.(cl_token)); ("state", PStr c.(cl_state));
         ("created_at", PStr (utc_text c.(cl_created))); ("heartbeat_at", PStr (utc_text c.(cl_heartbeat)));
         ("expires_at", PStr (utc_text c.(cl_expires))); ("baseline_revision", PInt c.(cl_revision));
         ("owner_system", opt_str c.(cl_owner)); ("owner_instance_id", opt_str c.(cl_instance))].

Definition claim_fingerprint (c : claim) : string := sha256 (json_ascii float_repr "," ":" (claim_value c)).

(** ** Sweeping expired claims *)

Inductive swept_state := released_clean | orphaned_dirty | orphaned_live_resource.

Record swept := {
  sw_claim : string;
  sw_task : string;
  sw_state : swept_state;
  sw_manifest : manifest;
  sw_live : list string
}.

Definition of_claim (claim_id : string) (l : resource_lease) : bool :=
  bool_decide (l.(rl_claim) = Some claim_id) && resource_active l.

Definition locally_alive (h : host) (l : resource_lease) : bool :=
  String.eqb l.(rl_host) h.(hostname) && local_process_alive h l.(rl_pid) l.(rl_start).

Definition live_leases (h : host) (claim_id : string) (ls : list resource_lease) : list string :=
  map rl_id (List.filter (fun l => of_claim claim_id l && locally_alive h l) ls).

(** The leases of the claim without a local process are released, by id. *)
Definition release_dead (h : host) (now : Z) (claim_id : string) (ls : list resource_lease) : list resource_lease :=
  let dead := map rl_id (List.filter (fun l => of_claim claim_id l && negb (locally_alive h l)) ls) in
  map (fun l => if bool_decide (l.(rl_id) ∈ dead) then set_resource_state "released" now l else l) ls.

Definition planned_if_in_progress (now : Z) (t : task) : task :=
  if String.eqb t.(tk_status) "in_progress"
  then set_status "planned" None now t.(tk_version) t.(tk_revision) t else t.

(** One claim of the loop; [c] is the row read before it. *)
Definition sweep_one (e : env) (st : list swept * ledger) (c : claim) : list swept * ledger :=
  let '(out, db) := st in
  let now := e.(e_now) in
  let current := current_manifest e db c.(cl_task) in
  let clean := same_fingerprint c.(cl_baseline) current in
  let db := release_claim_locks now db c.(cl_id) in
  let live := live_leases e.(e_host) c.(cl_id) db.(resource_leases) in
  let db := with_leases db db.(lock_leases) (release_dead e.(e_host) now c.(cl_id) db.(resource_leases)) in
  let '(state, db) :=
    if clean && match live with [] => true | _ => false end then
      (released_clean,
       update_task c.(cl_task) (planned_if_in_progress now) (update_claim c.(cl_id) (released "expired_clean" now) db))
    else
      let reason := if negb clean then "owned paths changed after baseline"
                    else "expired claim still has a demonstrably live local resource process" in
      (if negb clean then orphaned_dirty else orphaned_live_resource,
       update_task c.(cl_task)
         (fun t => set_status "attention_required" (Some reason) now t.(tk_version) t.(tk_revision) t)
         (update_claim c.(cl_id) (fun x => end_claim "orphaned" (Some reason) x.(cl_released) x) db)) in
  (out ++ [{| sw_claim := c.(cl_id); sw_task := c.(cl_task); sw_state := state; sw_manifest := current; sw_live := live |}],
   db).

Definition expired_claim (now : Z) (claim_id : option string) (c : claim) : bool :=
  is_active_claim c && (c.(cl_expires) <=? now)
  && match claim_id with Some id => String.eqb c.(cl_id) id | None => true end.

Definition sweep_expired (e : env) (claim_id : option string) (db : ledger) : list swept * ledger :=
  foldl (sweep_one e) ([], db)
    (merge_sort (by_int cl_expires) (List.filter (expired_claim e.(e_now) claim_id) db.(claims))).

(** ** Claiming *)

(** The constraints of the table: PRIMARY KEY(id), UNIQUE(token_hash), one active claim per
    task, REFERENCES sessions. *)
Definition insert_claim (sessions : list string) (c : claim) (db : ledger) : result ledger :=
  _ ← raise_if (existsb (fun x => String.eqb x.(cl_id) c.(cl_id) || String.eqb x.(cl_token) c.(cl_token)
                                  || is_active_claim x && is_active_claim c && String.eqb x.(cl_task) c.(cl_task))
                  db.(claims)
                || negb (bool_decide (c.(cl_session) ∈ sessions))) IntegrityError;
  Ok (with_claims db db.(tasks) (db.(claims) ++ [c])).

(** "ORDER BY selector,id". *)
Definition request_le (a b : request) : Prop :=
  a.(rr_selector) <> b.(rr_selector) /\ String.le a.(rr_selector) b.(rr_selector)
  \/ a.(rr_selector) = b.(rr_selector) /\ String.le a.(rr_id) b.(rr_id).
#[export] Instance request_le_dec : RelDecision request_le.
Proof. intros a b. unfold request_le. apply _. Defined.

(** One entry per unit: "for _ in range(int(request["amount"]))". *)
Definition wanted_units (db : ledger) (task_id : string) : list request :=
  concat (map (fun r => replicate (Z.to_nat r.(rr_amount)) r) (merge_sort request_le (claim_requests db task_id))).

Fixpoint acquire_units (e : env) (session_id claim_id : string) (lease_seconds : Z) (fresh : nat -> string * string)
    (n : nat) (units : list request) (db : ledger) : result (list instance * ledger) :=
  match units with
  | [] => Ok ([], db)
  | r :: units =>
      '(i, db) ← acquire_resource token_hash e.(e_host) e.(e_now) db r.(rr_selector) session_id (Some claim_id)
                   (Some r.(rr_id)) lease_seconds [] (fresh n).1 (fresh n).2;
      '(got, db) ← acquire_units e session_id claim_id lease_seconds fresh (S n) units db;
      Ok (i :: got, db)
  end.

(** The ids and tokens a claim draws. *)
Record draw := {
  d_claim : string;
  d_token : string;
  d_locks : nat -> string * string;
  d_resources : nat -> string * string
}.

Record grant := {
  g_claim : claim;
  g_locks : list string;
  g_resources : list instance;
  g_selection : candidate
}.

Record owner := { o_system : option string; o_instance : option string }.

Definition new_claim (e : env) (d : draw) (db : ledger) (task_id session_id : string) (revision lease_seconds : Z)
    (o : owner) : claim :=
  {| cl_id := d.(d_claim); cl_task := task_id; cl_session := session_id; cl_state := "active";
     cl_created := e.(e_now); cl_expires := e.(e_now) + lease_seconds; cl_token := token_hash d.(d_token);
     cl_heartbeat := e.(e_now); cl_head := e.(e_head); cl_baseline := current_manifest e db task_id;
     cl_revision := revision; cl_orphan_reason := None; cl_released := None;
     cl_owner := o.(o_system); cl_instance := o.(o_instance) |}.

(** [claim_best] once the candidate is chosen. *)
Definition take_task (e : env) (d : draw) (sessions : list string) (session_id : string) (revision lease_seconds : Z)
    (o : owner) (ca : candidate) (db : ledger) : result (grant * ledger) :=
  let task_id := ca.(ca_task) in
  let c := new_claim e d db task_id session_id revision lease_seconds o in
  db ← match insert_claim sessions c db with
       | Err IntegrityError => Err (TodoError "claim_contention")
       | r => r
       end;
  let db := update_task task_id
              (fun t => set_status "in_progress" t.(tk_attention) e.(e_now) (t.(tk_version) + 1) revision t) db in
  db ← acquire_task_locks token_hash e.(e_host) e.(e_now) db task_id c.(cl_id) session_id lease_seconds d.(d_locks);
  '(got, db) ← acquire_units e session_id c.(cl_id) lease_seconds d.(d_resources) 0 (wanted_units db task_id) db;
  Ok ({| g_claim := c; g_locks := task_lock_names db task_id; g_resources := got; g_selection := ca |}, db).

Definition asked_for (requested : option string) (ca : candidate) : bool :=
  match requested with
  | None => true
  | Some id => String.eqb id "" || String.eqb ca.(ca_task) id
  end.

Definition claim_best (e : env) (d : draw) (sessions : list string) (session_id : string) (revision lease_seconds : Z)
    (requested : option string) (reconcile_expired : bool) (o : owner) (db : ledger) : result (grant * ledger) :=
  let db := if reconcile_expired then (sweep_expired e None db).2 else db in
  ready ← ready_tasks py_repr e.(e_host) db e.(e_now);
  match List.filter (asked_for requested) ready with
  | [] => Err (TodoError "no_actionable_work")
  | ca :: _ => take_task e d sessions session_id revision lease_seconds o ca db
  end.

(** ** Keeping and releasing a claim *)

(** "SELECT * FROM claims WHERE token_hash=? AND state IN (...)". *)
Definition authenticate_claim (token : option string) (allow_orphaned : bool) (db : ledger) : result claim :=
  match token with
  | None => Err (TodoError "invalid_claim_token")
  | Some token =>
      _ ← raise_if (String.eqb token "") (TodoError "invalid_claim_token");
      match List.find (fun c => String.eqb c.(cl_token) (token_hash token)
                        && bool_decide (c.(cl_state) ∈ (if allow_orphaned then ["active"; "orphaned"] else ["active"])))
              db.(claims) with
      | Some c => Ok c
      | None => Err (TodoError "invalid_claim_token")
      end
  end.

Definition beat_claim (now expires : Z) (c : claim) : claim :=
  {| cl_id := c.(cl_id); cl_task := c.(cl_task); cl_session := c.(cl_session); cl_state := c.(cl_state);
     cl_created := c.(cl_created); cl_expires := expires; cl_token := c.(cl_token); cl_heartbeat := now;
     cl_head := c.(cl_head); cl_baseline := c.(cl_baseline); cl_revision := c.(cl_revision);
     cl_orphan_reason := c.(cl_orphan_reason); cl_released := c.(cl_released);
     cl_owner := c.(cl_owner); cl_instance := c.(cl_instance) |}.

Definition extend_lock (claim_id : string) (expires : Z) (l : lock_lease) : lock_lease :=
  if bool_decide (l.(ll_claim) = Some claim_id) && lock_active l then set_lock_state l.(ll_state) (Some expires) l else l.

Definition extend_resource (claim_id : string) (expires : Z) (l : resource_lease) : resource_lease :=
  if of_claim claim_id l then
    {| rl_id := l.(rl_id); rl_instance := l.(rl_instance); rl_claim := l.(rl_claim); rl_session := l.(rl_session);
       rl_request := l.(rl_request); rl_token := l.(rl_token); rl_state := l.(rl_state); rl_host := l.(rl_host);
       rl_pid := l.(rl_pid); rl_start := l.(rl_start); rl_command := l.(rl_command); rl_expires := expires;
       rl_released := l.(rl_released) |}
  else l.

Definition _pulse_claim_row (e : env) (c : claim) (lease_seconds : Z) (db : ledger) : ledger :=
  let expires := e.(e_now) + lease_seconds in
  let db := update_claim c.(cl_id) (beat_claim e.(e_now) expires) db in
  with_leases db (map (extend_lock c.(cl_id) expires) db.(lock_leases))
    (map (extend_resource c.(cl_id) expires) db.(resource_leases)).

Definition pulse_claim (e : env) (token : option string) (lease_seconds : Z) (db : ledger) : result (claim * ledger) :=
  c ← authenticate_claim token false db;
  Ok (c, _pulse_claim_row e c lease_seconds db).

Definition renew_claim_for_session (e : env) (claim_id session_id : string) (lease_seconds : Z) (db : ledger) :
    result (claim * ledger) :=
  match List.find (fun c => String.eqb c.(cl_id) claim_id && String.eqb c.(cl_session) session_id
                            && is_active_claim c && (e.(e_now) <? c.(cl_expires))) db.(claims) with
  | None => Err (TodoError "claim_not_resumable")
  | Some c => Ok (c, _pulse_claim_row e c lease_seconds db)
  end.

Definition release_resources (now : Z) (claim_id : string) (db : ledger) : ledger :=
  with_leases db db.(lock_leases)
    (map (fun l => if of_claim claim_id l then set_resource_state "released" now l else l) db.(resource_leases)).

Definition release_claim_id (e : env) (claim_id next_status : string) (reason : option string) (db : ledger) :
    result (claim * ledger) :=
  match List.find (fun c => String.eqb c.(cl_id) claim_id && is_active_claim c) db.(claims) with
  | None => Err (TodoError "invalid_claim_authority")
  | Some c =>
      let now := e.(e_now) in
      let db := release_resources now c.(cl_id) (release_claim_locks now db c.(cl_id)) in
      let db := update_claim c.(cl_id) (released "released" now) db in
      Ok (c, update_task c.(cl_task)
               (fun t => set_status next_status reason now (t.(tk_version) + 1) t.(tk_revision) t) db)
  end.

Definition release_claim (e : env) (token : option string) (next_status : string) (reason : option string)
    (db : ledger) : result (claim * ledger) :=
  c ← authenticate_claim token false db;
  release_claim_id e c.(cl_id) next_status reason db.

(** ** Orphans *)

Record recovery := { r_claim : claim; r_current : manifest; r_clean : bool }.

(** The newest orphaned claim of the task. *)
Definition inspect_recovery (e : env) (task_id : string) (db : ledger) : result recovery :=
  match head (merge_sort newest_first
                (List.filter (fun c => String.eqb c.(cl_task) task_id && String.eqb c.(cl_state) "orphaned") db.(claims))) with
  | None => Err (TodoError "no_orphaned_claim")
  | Some c =>
      let current := current_manifest e db task_id in
      Ok {| r_claim := c; r_current := current; r_clean := same_fingerprint c.(cl_baseline) current |}
  end.

Definition recover_release (e : env) (task_id : string) (acknowledge_dirty : bool) (db : ledger) :
    result (recovery * ledger) :=
  report ← inspect_recovery e task_id db;
  _ ← raise_if (negb report.(r_clean) && negb acknowledge_dirty) (TodoError "dirty_orphan_quarantined");
  let db := update_claim report.(r_claim).(cl_id) (released "recovered_released" e.(e_now)) db in
  Ok (report, update_task task_id (fun t => set_status "planned" None e.(e_now) t.(tk_version) t.(tk_revision) t) db).

Definition recover_adopt (e : env) (d : draw) (sessions : list string) (task_id session_id : string)
    (revision lease_seconds : Z) (db : ledger) : result (grant * ledger) :=
  report ← inspect_recovery e task_id db;
  let db := update_claim report.(r_claim).(cl_id) (released "adopted" e.(e_now)) db in
  let db := update_task task_id (fun t => set_status "planned" None t.(tk_updated) t.(tk_version) t.(tk_revision) t) db in
  claim_best e d sessions session_id revision lease_seconds (Some task_id) true
    {| o_system := None; o_instance := None |} db.

End WithHost.

End Claims.
