(* ===== verification/Recovery.v ===== *)
(** * The Todo authority: sessions, transactions and live recovery (db.py, sessions.py, claims.py, service.py)

    [authority] is the whole database the claim operations touch: the ledger, the
    sessions, child attempts, events, the approvals and audits of live recovery, the
    workflow capabilities and the project revision.  [mutate] is one transaction of
    db.py: it runs an operation at the next revision and either appends its event and
    advances the revision, or rolls back.  An owner may replace ([override_live_claim]) or
    release ([force_release_live_claim]) a live claim after approving it with a reason; the
    approval names the claim as it was, the revision and the user, and is used once. *)

From Stdlib Require Import ZArith SpecFloat.
From stdpp Require Import pretty.
From S2P Require Import Prelude PyValue Text Json Stamps Ledger Ownership Readiness Claims.
Import Ledger Ownership Readiness Claims.

#[local] Open Scope string_scope.
#[local] Open Scope Z_scope.
#[local] Open Scope list_scope.

Module Recovery.

(** ** Rows *)

Record session := {
  se_id : string;
  se_label : string;
  se_token : string;
  se_external : option string;
  se_host : string;
  se_pid : Z;
  se_repo : string;
  se_metadata : pydict;
  se_created : Z;
  se_seen : Z;
  se_state : string
}.

Record attempt := { at_child : string; at_state : string }.

Record event := {
  ev_revision : Z;
  ev_time : Z;
  ev_actor : option string;
  ev_entity_type : string;
  ev_entity : option string;
  ev_type : string;
  ev_payload : pydict
}.

Record approval := {
  ap_id : string;
  ap_token : string;
  ap_repo : string;
  ap_project : string;
  ap_task : string;
  ap_fingerprint : string;
  ap_revision : Z;
  ap_uid : Z;
  ap_approver : string;
  ap_reason : string;
  ap_prior : string;
  ap_created : Z;
  ap_expires : Z;
  ap_state : string;
  ap_consumed : option Z;
  ap_kind : string;
  ap_context : pydict
}.

Record audit := {
  au_id : string;
  au_task : string;
  au_prior_fingerprint : string;
  au_new_fingerprint : string;
  au_approver : string;
  au_uid : Z;
  au_reason : string;
  au_approved : Z;
  au_consumed : Z;
  au_prior : string;
  au_new : string;
  au_disposition : string;
  au_revision : Z;
  au_context : pydict
}.

Record capability := { ca_claim : option string; ca_state : string; ca_revoked : option Z }.

Record authority := {
  a_ledger : ledger;
  a_sessions : list session;
  a_attempts : list attempt;
  a_events : list event;
  a_approvals : list approval;
  a_audits : list audit;
  a_capabilities : list capability;
  a_revision : Z
}.

Definition with_ledger (db : authority) (l : ledger) : authority :=
  {| a_ledger := l; a_sessions := db.(a_sessions); a_attempts := db.(a_attempts); a_events := db.(a_events);
     a_approvals := db.(a_approvals); a_audits := db.(a_audits); a_capabilities := db.(a_capabilities);
     a_revision := db.(a_revision) |}.

Definition with_sessions (db : authority) (ss : list session) : authority :=
  {| a_ledger := db.(a_ledger); a_sessions := ss; a_attempts := db.(a_attempts); a_events := db.(a_events);
     a_approvals := db.(a_approvals); a_audits := db.(a_audits); a_capabilities := db.(a_capabilities);
     a_revision := db.(a_revision) |}.

Definition with_approvals (db : authority) (aps : list approval) (aus : list audit) : authority :=
  {| a_ledger := db.(a_ledger); a_sessions := db.(a_sessions); a_attempts := db.(a_attempts); a_events := db.(a_events);
     a_approvals := aps; a_audits := aus; a_capabilities := db.(a_capabilities); a_revision := db.(a_revision) |}.

Definition with_capabilities (db : authority) (cs : list capability) : authority :=
  {| a_ledger := db.(a_ledger); a_sessions := db.(a_sessions); a_attempts := db.(a_attempts); a_events := db.(a_events);
     a_approvals := db.(a_approvals); a_audits := db.(a_audits); a_capabilities := cs; a_revision := db.(a_revision) |}.

(** ** Transactions *)

(** [Unchanged] marks a result that commits without a new revision. *)
Inductive outcome (A : Type) := changed (a : A) | unchanged (a : A).
Arguments changed {A} _.
Arguments unchanged {A} _.

(** "revision INTEGER NOT NULL UNIQUE". *)
Definition append_event (ev : event) (revision : Z) (db : authority) : result authority :=
  _ ← raise_if (existsb (fun x => x.(ev_revision) =? ev.(ev_revision)) db.(a_events)) IntegrityError;
  Ok {| a_ledger := db.(a_ledger); a_sessions := db.(a_sessions); a_attempts := db.(a_attempts);
        a_events := db.(a_events) ++ [ev]; a_approvals := db.(a_approvals); a_audits := db.(a_audits);
        a_capabilities := db.(a_capabilities); a_revision := revision |}.

Definition mutate {A} (op : Z -> authority -> result (outcome A * authority)) (row : A -> Z -> event)
    (db : authority) : result (A * Z) * authority :=
  let revision := db.(a_revision) + 1 in
  match ('(o, db1) ← op revision db;
         match o with
         | unchanged a => Ok (a, db.(a_revision), db1)
         | changed a => db2 ← append_event (row a revision) revision db1; Ok (a, revision, db2)
         end) with
  | Ok (a, r, db2) => (Ok (a, r), db2)
  | Err x => (Err x, db)
  end.

(** ** Sessions *)

Section WithHost.
Context (float_repr : spec_float -> string) (sha256 : string -> string) (py_repr : pyval -> string).

Definition remove_dashes (s : string) : string := String.concat "" (split_on (Ascii.ascii_of_nat 45) s).

Definition insert_session (s : session) (db : authority) : result authority :=
  _ ← raise_if (existsb (fun x => String.eqb x.(se_id) s.(se_id) || String.eqb x.(se_label) s.(se_label)
                                  || String.eqb x.(se_token) s.(se_token)) db.(a_sessions)) IntegrityError;
  Ok (with_sessions db (db.(a_sessions) ++ [s])).

(** [external]: CODEX_THREAD_ID or OPENAI_CODEX_THREAD_ID. *)
Definition create_session (e : env) (external : option string) (metadata : pydict) (id token : string)
    (db : authority) : result (session * authority) :=
  let s := {| se_id := id; se_label := "codex-" +:+ String.substring 0 6 (remove_dashes id);
              se_token := token_hash sha256 token; se_external := external; se_host := e.(e_host).(hostname);
              se_pid := e.(e_host).(own_pid); se_repo := e.(e_repo); se_metadata := metadata;
              se_created := e.(e_now); se_seen := e.(e_now); se_state := "active" |} in
  db ← insert_session s db; Ok (s, db).

Definition seen (now : Z) (s : session) : session :=
  {| se_id := s.(se_id); se_label := s.(se_label); se_token := s.(se_token); se_external := s.(se_external);
     se_host := s.(se_host); se_pid := s.(se_pid); se_repo := s.(se_repo); se_metadata := s.(se_metadata);
     se_created := s.(se_created); se_seen := now; se_state := s.(se_state) |}.

Definition authenticate_session (e : env) (token : option string) (db : authority) : result (session * authority) :=
  match token with
  | None => Err (TodoError "invalid_session_token")
  | Some token =>
      _ ← raise_if (String.eqb token "") (TodoError "invalid_session_token");
      match List.find (fun s => String.eqb s.(se_token) (token_hash sha256 token) && String.eqb s.(se_state) "active")
              db.(a_sessions) with
      | None => Err (TodoError "invalid_session_token")
      | Some s => Ok (s, with_sessions db (map (fun x => if String.eqb x.(se_id) s.(se_id) then seen e.(e_now) x else x)
                                             db.(a_sessions)))
      end
  end.

Definition session_ids (db : authority) : list string := map se_id db.(a_sessions).

(** ** continue_work *)

Definition claim_owner (system instance : option string) : result owner :=
  _ ← raise_if (negb (Bool.eqb (bool_decide (system = None)) (bool_decide (instance = None))))
        (TodoError "claim_owner_incomplete");
  _ ← raise_if (match system, instance with
                | Some s, Some i => negb (String.eqb s "coding-workflow") || negb (starts_with "fi_" i)
                | _, _ => false
                end) (TodoError "claim_owner_invalid");
  Ok {| o_system := system; o_instance := instance |}.

(** The operation of [continue_work] up to the context capsule: what was swept, the session,
    and the claim unless there is nothing to do. *)
Definition continue_operation (e : env) (d : draw) (session_draw : string * string) (external session_token : option string)
    (o : owner) (task_id : option string) (lease_seconds revision : Z) (db : authority) :
    result (list swept * session * option grant * authority) :=
  let '(out, l) := sweep_expired float_repr sha256 e None db.(a_ledger) in
  let db := with_ledger db l in
  '(s, db) ← match session_token with
             | Some (String _ _) => authenticate_session e session_token db
             | _ => create_session e external
                      [("command", PStr "continue"); ("owner_system", opt_str o.(o_system));
                       ("owner_instance_id", opt_str o.(o_instance))] session_draw.1 session_draw.2 db
             end;
  match claim_best float_repr sha256 py_repr e d (session_ids db) s.(se_id) revision lease_seconds task_id false o
          db.(a_ledger) with
  | Ok (g, l) => Ok (out, s, Some g, with_ledger db l)
  | Err (TodoError "no_actionable_work") => Ok (out, s, None, db)
  | Err x => Err x
  end.

(** ** What blocks a live recovery *)

Definition CANONICAL_WORKFLOW_OWNER : string := "project-control".
Definition COMPATIBLE_WORKFLOW_OWNERS : list string := [CANONICAL_WORKFLOW_OWNER; "coding-workflow"].

Definition compatible_workflow_owner (o : option string) : bool :=
  match o with Some s => bool_decide (s ∈ COMPATIBLE_WORKFLOW_OWNERS) | None => false end.

Definition child_of (db : authority) (claim_id child_id : string) : bool :=
  existsb (fun c => String.eqb c.(ch_id) child_id && String.eqb c.(ch_parent_claim) claim_id) db.(a_ledger).(children).

Definition gate_event (gate_id : string) (ev : event) : bool :=
  String.eqb ev.(ev_entity_type) "gate" && bool_decide (ev.(ev_entity) = Some gate_id).

(** Some gate of the task whose newest event says it started or still runs. *)
Definition gate_running (db : authority) (task_id : string) : bool :=
  existsb (fun g => bool_decide (g.(ga_task) = Some task_id) &&
    existsb (fun ev => gate_event g.(ga_id) ev
                       && forallb (fun x => negb (gate_event g.(ga_id) x) || (x.(ev_revision) <=? ev.(ev_revision))) db.(a_events)
                       && bool_decide (ev.(ev_type) ∈ ["gate.started"; "gate.heartbeat"])) db.(a_events))
    db.(a_ledger).(gates).

(** A lock of the claim that is not a claim lock of its task, or that runs a command. *)
Definition auxiliary_lock (db : authority) (task_id claim_id : string) (l : lock_lease) : bool :=
  bool_decide (l.(ll_claim) = Some claim_id) && lock_active l
  && (negb (existsb (fun t => String.eqb t.(tl_task) task_id && String.eqb t.(tl_lock) l.(ll_lock)
                              && String.eqb t.(tl_phase) "claim") db.(a_ledger).(task_locks))
      || match l.(ll_command) with Some (_ :: _) => true | _ => false end).

Definition background_active (task_id : string) (b : background) : list string :=
  match b with
  | no_database => []
  | unreadable => ["background_state_unverifiable"]
  | jobs rows => if existsb (fun r => bool_decide (r.1 = Some task_id) && bool_decide (r.2 ∈ ["queued"; "running"; "preempted"])) rows
                 then ["active_background_or_cuda_campaign"] else []
  end.

Definition live_children : list string :=
  ["authorized"; "running"; "recovery_required"; "ready_for_acceptance"; "succeeded"].

Definition blocker (b : bool) (name : string) : list string := if b then [name] else [].

Definition _live_override_blockers (e : env) (db : authority) (c : claim) : list string :=
  let l := db.(a_ledger) in
  sorted_set (
    blocker (existsb (fun x => String.eqb x.(ch_parent_claim) c.(cl_id) && bool_decide (x.(ch_state) ∈ live_children)) l.(children))
      "active_child_execution" ++
    blocker (existsb (fun a => child_of db c.(cl_id) a.(at_child) && String.eqb a.(at_state) "active") db.(a_attempts))
      "active_child_attempt" ++
    blocker (existsb (fun s => child_of db c.(cl_id) s.(cc_child) && String.eqb s.(cc_state) "active") l.(child_scopes))
      "active_child_scope" ++
    blocker (existsb (of_claim c.(cl_id)) l.(resource_leases)) "active_resource_lease" ++
    blocker (existsb (auxiliary_lock db c.(cl_task) c.(cl_id)) l.(lock_leases)) "active_auxiliary_lock" ++
    blocker (gate_running db c.(cl_task)) "active_gate_execution" ++
    background_active c.(cl_task) e.(e_background)).

(** A lease of a command that runs on this host. *)
Definition running_here (e : env) (command : option (list string)) (host : string) (pid : option Z) (start : option string) : bool :=
  match command with Some (_ :: _) => true | _ => false end
  && String.eqb host e.(e_host).(hostname) && local_process_alive e.(e_host) pid start.

Definition _force_release_blockers (e : env) (db : authority) (c : claim) : list string :=
  let l := db.(a_ledger) in
  let kept := List.filter (fun b => negb (bool_decide (b ∈ ["claim_owner_not_verifiable_facade"; "active_resource_lease";
                                                           "active_auxiliary_lock"]))) (_live_override_blockers e db c) in
  sorted_set (kept ++ blocker
    (existsb (fun x => of_claim c.(cl_id) x && running_here e x.(rl_command) x.(rl_host) x.(rl_pid) x.(rl_start)) l.(resource_leases)
     || existsb (fun x => bool_decide (x.(ll_claim) = Some c.(cl_id)) && lock_active x
                          && running_here e x.(ll_command) x.(ll_host) x.(ll_pid) x.(ll_start)) l.(lock_leases))
    "active_external_resource_process").

(** ** Material manifests *)

Definition generated (path : string) : bool :=
  bool_decide (path ∈ [".todo-orchestrator/state.snapshot.json"; "todo-status.md"; "todos.md"]) || starts_with "todos/" path.

Definition _material_scope_manifest (m : manifest) : manifest :=
  make_manifest float_repr sha256 m.(mf_roots) (List.filter (fun p => negb (generated p)) m.(mf_dirty))
    (List.filter (fun kv => negb (generated kv.1)) m.(mf_files)).

(** ** Inspection *)

Definition active_claims_of (db : authority) (task_id : string) : list claim :=
  List.filter (fun c => String.eqb c.(cl_task) task_id && is_active_claim c) db.(a_ledger).(claims).

Record report := {
  rp_claim : claim;
  rp_fingerprint : string;
  rp_blockers : list string;
  rp_prior : string;
  rp_baseline : manifest;
  rp_current : manifest;
  rp_context : pydict
}.

Definition eligible (r : report) : bool := match r.(rp_blockers) with [] => true | _ => false end.

Definition sole_claim (db : authority) (task_id : string) : result claim :=
  match active_claims_of db task_id with
  | [c] => Ok c
  | _ => Err (TodoError "live_claim_cardinality_invalid")
  end.

Definition inspect_live_override (e : env) (task_id : string) (db : authority) : result report :=
  c ← sole_claim db task_id;
  let blockers := sorted_set (
    _live_override_blockers e db c ++
    blocker (c.(cl_expires) <=? e.(e_now)) "claim_lease_not_live" ++
    blocker (negb (compatible_workflow_owner c.(cl_owner)) || String.eqb (default "" c.(cl_instance)) "")
      "claim_owner_not_verifiable_facade") in
  Ok {| rp_claim := c; rp_fingerprint := claim_fingerprint float_repr sha256 c; rp_blockers := blockers;
        rp_prior := default "" c.(cl_instance); rp_baseline := c.(cl_baseline); rp_current := empty_manifest;
        rp_context := [] |}.

Definition paths_value (ps : list string) : pyval := PList (map PStr ps).

Definition inspect_force_release (e : env) (task_id : string) (acknowledge_dirty : bool) (db : authority) : result report :=
  c ← sole_claim db task_id;
  let current := current_manifest float_repr sha256 e db.(a_ledger) task_id in
  let changed := negb (same_fingerprint c.(cl_baseline) current) in
  let blockers := sorted_set (
    _force_release_blockers e db c ++
    blocker (changed && negb acknowledge_dirty) "owned_scope_changed" ++
    blocker (c.(cl_expires) <=? e.(e_now)) "claim_lease_not_live") in
  Ok {| rp_claim := c; rp_fingerprint := claim_fingerprint float_repr sha256 c; rp_blockers := blockers;
        rp_prior := default "" c.(cl_instance); rp_baseline := c.(cl_baseline); rp_current := current;
        rp_context :=
          [("acknowledge_dirty", PBool acknowledge_dirty); ("scope_changed", PBool changed);
           ("baseline_scope_fingerprint", opt_str c.(cl_baseline).(mf_fingerprint));
           ("current_scope_fingerprint", opt_str current.(mf_fingerprint));
           ("baseline_material_scope_fingerprint", opt_str (_material_scope_manifest c.(cl_baseline)).(mf_fingerprint));
           ("current_material_scope_fingerprint", opt_str (_material_scope_manifest current).(mf_fingerprint));
           ("baseline_dirty_paths", paths_value c.(cl_baseline).(mf_dirty));
           ("current_dirty_paths", paths_value current.(mf_dirty))] |}.

(** ** Approvals *)

Definition _create_live_recovery_approval (e : env) (project_uuid task_id : string) (revision : Z) (reason : string)
    (ttl_seconds : Z) (r : report) (kind : string) (context : pydict) (id token : string) (db : authority) :
    result (approval * authority) :=
  let bounded := take_points 1000 (strip reason) in
  _ ← raise_if (String.eqb bounded "") (TodoError "recovery_reason_required");
  let ttl := Z.max 30 (Z.min ttl_seconds 900) in
  let a := {| ap_id := id; ap_token := token_hash sha256 token; ap_repo := e.(e_repo); ap_project := project_uuid;
              ap_task := task_id; ap_fingerprint := r.(rp_fingerprint); ap_revision := revision; ap_uid := e.(e_uid);
              ap_approver := "uid:" +:+ pretty e.(e_uid) +:+ ":" +:+ default "unknown" e.(e_user);
              ap_reason := bounded; ap_prior := r.(rp_prior); ap_created := e.(e_now); ap_expires := e.(e_now) + ttl;
              ap_state := "pending"; ap_consumed := None; ap_kind := kind; ap_context := context |} in
  _ ← raise_if (existsb (fun x => String.eqb x.(ap_id) id || String.eqb x.(ap_token) a.(ap_token)) db.(a_approvals)) IntegrityError;
  Ok (a, with_approvals db (db.(a_approvals) ++ [a]) db.(a_audits)).

Definition approve_live_override (e : env) (project_uuid task_id : string) (revision : Z) (reason : string)
    (ttl_seconds : Z) (id secret : string) (db : authority) : result (approval * authority) :=
  r ← inspect_live_override e task_id db;
  _ ← raise_if (negb (eligible r)) (TodoError "live_override_blocked");
  _create_live_recovery_approval e project_uuid task_id revision reason ttl_seconds r "live_claim_override" []
    id ("toa_" +:+ secret) db.

Definition approve_force_release (e : env) (project_uuid task_id : string) (revision : Z) (reason : string)
    (ttl_seconds : Z) (acknowledge_dirty : bool) (id secret : string) (db : authority) : result (approval * authority) :=
  r ← inspect_force_release e task_id acknowledge_dirty db;
  _ ← raise_if (negb (eligible r)) (TodoError "force_release_blocked");
  _create_live_recovery_approval e project_uuid task_id revision reason ttl_seconds r "live_claim_force_release"
    r.(rp_context) id ("tof_" +:+ secret) db.

(** The checks both recoveries make of an approval before they look at the claim again. *)
Definition pending_approval (e : env) (project_uuid task_id : string) (revision : Z) (token prefix kind missing : string)
    (db : authority) : result approval :=
  _ ← raise_if (negb (starts_with prefix token)) (TodoError missing);
  match List.find (fun a => String.eqb a.(ap_token) (token_hash sha256 token)) db.(a_approvals) with
  | None => Err (TodoError missing)
  | Some a =>
      _ ← raise_if (negb (String.eqb a.(ap_kind) kind)) (TodoError "approval_mismatch");
      _ ← raise_if (negb (String.eqb a.(ap_state) "pending")) (TodoError "approval_consumed");
      _ ← raise_if (a.(ap_expires) <=? e.(e_now)) (TodoError "stale_approval");
      _ ← raise_if (negb (String.eqb a.(ap_repo) e.(e_repo)) || negb (String.eqb a.(ap_project) project_uuid)
                    || negb (String.eqb a.(ap_task) task_id) || negb (a.(ap_uid) =? e.(e_uid))) (TodoError "approval_mismatch");
      _ ← raise_if (negb (a.(ap_revision) =? revision - 1)) (TodoError "stale_approval");
      Ok a
  end.

Definition consume (id : string) (now : Z) (a : approval) : approval :=
  if String.eqb a.(ap_id) id && String.eqb a.(ap_state) "pending" then
    {| ap_id := a.(ap_id); ap_token := a.(ap_token); ap_repo := a.(ap_repo); ap_project := a.(ap_project);
       ap_task := a.(ap_task); ap_fingerprint := a.(ap_fingerprint); ap_revision := a.(ap_revision); ap_uid := a.(ap_uid);
       ap_approver := a.(ap_approver); ap_reason := a.(ap_reason); ap_prior := a.(ap_prior); ap_created := a.(ap_created);
       ap_expires := a.(ap_expires); ap_state := "consumed"; ap_consumed := Some now; ap_kind := a.(ap_kind);
       ap_context := a.(ap_context) |}
  else a.

Definition consume_approval (a : approval) (now : Z) (row : audit) (db : authority) : result authority :=
  _ ← raise_if (existsb (fun x => String.eqb x.(au_id) row.(au_id)) db.(a_audits)) IntegrityError;
  Ok (with_approvals db (map (consume a.(ap_id) now) db.(a_approvals)) (db.(a_audits) ++ [row])).

Definition audit_of (e : env) (a : approval) (audit_id new_fingerprint new_instance disposition : string) (revision : Z)
    (context : pydict) : audit :=
  {| au_id := audit_id; au_task := a.(ap_task); au_prior_fingerprint := a.(ap_fingerprint);
     au_new_fingerprint := new_fingerprint; au_approver := a.(ap_approver); au_uid := a.(ap_uid);
     au_reason := a.(ap_reason); au_approved := a.(ap_created); au_consumed := e.(e_now); au_prior := a.(ap_prior);
     au_new := new_instance; au_disposition := disposition; au_revision := revision; au_context := context |}.

(** ** Replacing a live claim *)

(** The ids and tokens an override draws. *)
Record override_draw := {
  od_session : string;
  od_session_token : string;
  od_external : option string;
  od_claim : string;
  od_claim_token : string;
  od_audit : string
}.

Definition move_lock (old new session : string) (expires : Z) (l : lock_lease) : lock_lease :=
  if bool_decide (l.(ll_claim) = Some old) && lock_active l then
    {| ll_id := l.(ll_id); ll_lock := l.(ll_lock); ll_claim := Some new; ll_session := session; ll_token := l.(ll_token);
       ll_state := l.(ll_state); ll_expires := expires; ll_host := l.(ll_host); ll_pid := l.(ll_pid);
       ll_start := l.(ll_start); ll_command := l.(ll_command) |}
  else l.

Definition replacement (e : env) (d : override_draw) (old : claim) (session : string) (lease_seconds : Z)
    (new_instance : string) : claim :=
  {| cl_id := d.(od_claim); cl_task := old.(cl_task); cl_session := session; cl_state := "active";
     cl_created := e.(e_now); cl_expires := e.(e_now) + lease_seconds; cl_token := token_hash sha256 d.(od_claim_token);
     cl_heartbeat := e.(e_now); cl_head := old.(cl_head); cl_baseline := old.(cl_baseline);
     cl_revision := old.(cl_revision); cl_orphan_reason := None; cl_released := None;
     cl_owner := Some CANONICAL_WORKFLOW_OWNER; cl_instance := Some new_instance |}.

Definition overridden (now : Z) (c : claim) : claim :=
  if is_active_claim c then released "overridden" now c else c.

(** The ledger part: the old claim ends, the new one takes its locks and its task. *)
Definition replace_claim (e : env) (sessions : list string) (old c : claim) (lease_seconds revision : Z) (l : ledger) :
    result ledger :=
  l ← insert_claim sessions c (update_claim old.(cl_id) (overridden e.(e_now)) l);
  let l := with_leases l (map (move_lock old.(cl_id) c.(cl_id) c.(cl_session) (e.(e_now) + lease_seconds)) l.(lock_leases))
             l.(resource_leases) in
  Ok (update_task old.(cl_task)
        (fun t => set_status "in_progress" t.(tk_attention) e.(e_now) (t.(tk_version) + 1) revision t) l).

Definition override_live_claim (e : env) (d : override_draw) (project_uuid task_id : string) (revision : Z)
    (approval_token new_instance_id : string) (lease_seconds : Z) (db : authority) : result (claim * authority) :=
  a ← pending_approval e project_uuid task_id revision approval_token "toa_" "live_claim_override"
        "override_requires_permission" db;
  r ← inspect_live_override e task_id db;
  _ ← raise_if (negb (eligible r)) (TodoError "live_override_blocked");
  _ ← raise_if (negb (String.eqb r.(rp_fingerprint) a.(ap_fingerprint))) (TodoError "stale_approval");
  _ ← raise_if (negb (bool_decide (r.(rp_claim).(cl_instance) = Some a.(ap_prior)))) (TodoError "approval_mismatch");
  _ ← raise_if (negb (starts_with "fi_" new_instance_id)) (TodoError "invalid_facade_instance");
  let old := r.(rp_claim) in
  '(s, db) ← create_session e d.(od_external)
               [("command", PStr "recover live-override"); ("owner_system", PStr CANONICAL_WORKFLOW_OWNER);
                ("owner_instance_id", PStr new_instance_id)] d.(od_session) d.(od_session_token) db;
  let c := replacement e d old s.(se_id) lease_seconds new_instance_id in
  l ← replace_claim e (session_ids db) old c lease_seconds revision db.(a_ledger);
  db ← consume_approval a e.(e_now)
         (audit_of e a d.(od_audit) (claim_fingerprint float_repr sha256 c) new_instance_id "live_claim_replaced" revision [])
         (with_ledger db l);
  Ok (c, db).

(** ** Releasing a live claim *)

Definition with_lanes (db : ledger) (ls : list lane) (lts : list lane_task) (ds : list dispatch) : ledger :=
  {| tasks := db.(tasks); dependencies := db.(dependencies); checkpoints := db.(checkpoints);
     interfaces := db.(interfaces); consumers := db.(consumers); barriers := db.(barriers);
     requirements := db.(requirements); decisions := db.(decisions); gates := db.(gates);
     rendezvouses := db.(rendezvouses); claims := db.(claims); scopes := db.(scopes);
     task_locks := db.(task_locks); lock_leases := db.(lock_leases); instances := db.(instances);
     requests := db.(requests); resource_leases := db.(resource_leases); runs := db.(runs);
     lanes := ls; lane_tasks := lts; workspaces := db.(workspaces);
     dispatches := ds; children := db.(children); child_scopes := db.(child_scopes) |}.

Definition retire_dispatch_row (id : string) (now revision : Z) (d : dispatch) : dispatch :=
  if String.eqb d.(di_id) id && String.eqb d.(di_state) "active" then
    {| di_id := d.(di_id); di_lane := d.(di_lane); di_claim := d.(di_claim); di_state := "released";
       di_released := Some now; di_revision := revision |}
  else d.

Definition requeue (lane_id task_id : string) (revision : Z) (lt : lane_task) : lane_task :=
  if String.eqb lt.(lt_lane) lane_id && String.eqb lt.(lt_task) task_id && String.eqb lt.(lt_state) "active" then
    {| lt_lane := lt.(lt_lane); lt_task := lt.(lt_task); lt_state := "queued"; lt_activated := None; lt_revision := revision |}
  else lt.

Definition ready_lane (lane_id : string) (now revision : Z) (l : lane) : lane :=
  if String.eqb l.(la_id) lane_id then
    {| la_id := l.(la_id); la_run := l.(la_run); la_role := l.(la_role); la_state := "ready"; la_mode := l.(la_mode);
       la_updated := now; la_revision := revision |}
  else l.

(** One dispatch of the loop. *)
Definition retire_dispatch (task_id : string) (now revision : Z) (db : ledger) (d : dispatch) : ledger :=
  with_lanes db (map (ready_lane d.(di_lane) now revision) db.(lanes))
    (map (requeue d.(di_lane) task_id revision) db.(lane_tasks))
    (map (retire_dispatch_row d.(di_id) now revision) db.(dispatches)).

Definition claim_dispatches (db : ledger) (claim_id : string) : list dispatch :=
  merge_sort (by_text di_id)
    (List.filter (fun d => String.eqb d.(di_claim) claim_id && String.eqb d.(di_state) "active") db.(dispatches)).

(** The ledger part: leases, the claim, its task and the lanes it was dispatched to. *)
Definition force_release_ledger (e : env) (c : claim) (revision : Z) (db : ledger) : ledger :=
  let now := e.(e_now) in
  let dispatched := claim_dispatches db c.(cl_id) in
  let db := release_resources now c.(cl_id) (release_claim_locks now db c.(cl_id)) in
  let db := update_claim c.(cl_id) (fun x => if is_active_claim x then released "force_released" now x else x) db in
  let db := update_task c.(cl_task) (fun t => set_status "planned" None now (t.(tk_version) + 1) revision t) db in
  foldl (retire_dispatch c.(cl_task) now revision) db dispatched.

Definition retire_capability (claim_id : string) (now : Z) (c : capability) : capability :=
  if bool_decide (c.(ca_claim) = Some claim_id) && String.eqb c.(ca_state) "active" then
    {| ca_claim := c.(ca_claim); ca_state := "retired"; ca_revoked := Some now |}
  else c.

Definition force_release_live_claim (e : env) (project_uuid task_id : string) (revision : Z)
    (approval_token audit_id : string) (db : authority) : result (claim * authority) :=
  a ← pending_approval e project_uuid task_id revision approval_token "tof_" "live_claim_force_release"
        "force_release_requires_permission" db;
  let context := a.(ap_context) in
  r ← inspect_force_release e task_id (truthy (dict_get_default "acknowledge_dirty" PNone context)) db;
  _ ← raise_if (negb (eligible r)) (TodoError "force_release_blocked");
  _ ← raise_if (negb (String.eqb r.(rp_fingerprint) a.(ap_fingerprint))) (TodoError "stale_approval");
  _ ← raise_if (negb (py_eqb (opt_str (_material_scope_manifest r.(rp_current)).(mf_fingerprint))
                        (dict_get_default "current_material_scope_fingerprint" PNone context))) (TodoError "stale_approval");
  let c := r.(rp_claim) in
  let db := with_ledger db (force_release_ledger e c revision db.(a_ledger)) in
  let db := with_capabilities db (map (retire_capability c.(cl_id) e.(e_now)) db.(a_capabilities)) in
  db ← consume_approval a e.(e_now) (audit_of e a audit_id "" "" "owner_force_released" revision context) db;
  Ok (c, db).

End WithHost.

End Recovery.
