(* ===== verification/ClaimsProps.v ===== *)
(** * Claims: one live claim per task, one editor per path

    The invariant of the claim table and what every operation of Claims.v does to it. *)

From Stdlib Require Import ZArith SpecFloat.
From stdpp Require Import relations.
From S2P Require Import Prelude PyValue Text Json Stamps Ledger Ownership Readiness SchedulerProps LeaseProps Claims.
Import Ledger Ownership Readiness Claims.

#[local] Open Scope string_scope.
#[local] Open Scope Z_scope.
#[local] Open Scope list_scope.

(** Rows that keep their key and drop out of a filter, or stay. *)
Lemma NoDup_shrink {A B} (k : A -> B) (p : A -> bool) (g : A -> A) l :
  (forall x, x ∈ l -> k (g x) = k x) -> (forall x, x ∈ l -> p (g x) = true -> p x = true) ->
  NoDup (map k (List.filter p l)) -> NoDup (map k (List.filter p (map g l))).
Proof.
  induction l as [|x l IH]; [done|]. intros Hk Hp. cbn [map List.filter].
  assert (NoDup (map k (List.filter p l)) -> NoDup (map k (List.filter p (map g l)))) as IH'
    by (apply IH; intros y Hy; [apply Hk|apply Hp]; by right).
  destruct (p (g x)) eqn:E; [rewrite (Hp x ltac:(left) E)|destruct (p x); [|done]]; cbn [map].
  2: { intros [_ H]%NoDup_cons. by apply IH'. }
  intros [Hx H]%NoDup_cons. apply NoDup_cons. split; [|by apply IH']. rewrite Hk by left.
  intros (y & Ey & Hy)%list_elem_of_fmap. apply list_elem_of_In, List.filter_In in Hy as [Hy Hpy].
  apply in_map_iff in Hy as (z & <- & Hz). apply list_elem_of_In in Hz. apply Hx.
  rewrite Ey, Hk by (by right). apply list_elem_of_fmap. exists z.
  split; [done|]. apply list_elem_of_In, List.filter_In. split; [by apply list_elem_of_In|apply Hp; [by right|done]].
Qed.

(** ** The invariant *)

Definition held (c : claim) : bool := bool_decide (c.(cl_state) ∈ ["active"; "orphaned"]).

Lemma active_held c : is_active_claim c = true -> held c = true.
Proof. unfold is_active_claim, held. intros ->%String.eqb_eq. reflexivity. Qed.

(** A task under an active claim: in progress, or put on attention since a barrier it
    depends on closed. *)
Definition being_worked (t : task) : Prop :=
  t.(tk_status) = "in_progress" \/
  t.(tk_status) = "attention_required" /\ exists id, t.(tk_attention) = Some ("barrier " +:+ id +:+ " closed after claim").

(** The task is in a lane of the run with a workspace of its own from this base, for this
    integration task to merge. *)
Definition merge_place (l : ledger) (task run base integration : string) : Prop :=
  exists la w lt, la ∈ l.(lanes) /\ w ∈ isolated_workspace l la /\ lt ∈ l.(lane_tasks) /\
    lt.(lt_lane) = la.(la_id) /\ lt.(lt_task) = task /\ la.(la_run) = run /\ w.(ws_base) = base /\ w.(ws_integration) = Some integration.

(** Both work in isolated-merge workspaces of one run, from one base, for one integration task,
    which has a lane of its own to merge them. *)
Definition merge_isolated (l : ledger) (task1 task2 : string) : Prop :=
  exists run base integration, merge_place l task1 run base integration /\ merge_place l task2 run base integration /\
    integration <> "" /\ destination_exists l integration run base = true.

(** Two tasks that own no path in common, but merge-isolated ones. *)
Definition apart (l : ledger) (task1 task2 : string) : Prop :=
  merge_isolated l task1 task2 \/
  forall r1 r2, r1 ∈ scopes_for l task1 "exclusive" -> r2 ∈ scopes_for l task2 "exclusive" -> paths_overlap r1 r2 = false.

Lemma overlap_sym r1 r2 : paths_overlap r1 r2 = paths_overlap r2 r1.
Proof. unfold paths_overlap. apply orb_comm. Qed.

Lemma apart_sym l task1 task2 : apart l task1 task2 -> apart l task2 task1.
Proof.
  intros [(run & base & integration & H1 & H2 & H3)|H]; [left; by exists run, base, integration|right].
  intros r1 r2 Hr1 Hr2. rewrite overlap_sym. by apply H.
Qed.

(** A row of the joins that [_isolated_merge_overlap_allowed] reads. *)
Lemma placed_lane l task (p : lane -> bool) state la w integration :
  (forall x, p x = true -> in_lane l x task state = true) ->
  (la, w) ∈ with_workspaces l (List.filter p l.(lanes)) -> w.(ws_integration) = Some integration ->
  merge_place l task la.(la_run) w.(ws_base) integration.
Proof.
  intros Hp Hin Hi. unfold with_workspaces in Hin.
  apply list_elem_of_In, in_concat in Hin as (ws & Hws & Hin). apply in_map_iff in Hws as (x & <- & Hx).
  apply in_map_iff in Hin as (w' & E & Hw). injection E as -> ->. apply List.filter_In in Hx as [Hx Hpx].
  apply Hp, existsb_exists in Hpx as (lt & Hlt & E). rewrite !andb_true_iff, !String.eqb_eq in E. destruct E as [[E1 E2] _].
  exists la, w, lt. rewrite !list_elem_of_In. done.
Qed.

(** What it checks at the moment of a claim. *)
Lemma allowed_isolated l candidate active id :
  _isolated_merge_overlap_allowed l candidate active id = true -> merge_isolated l candidate active.
Proof.
  unfold _isolated_merge_overlap_allowed.
  destruct (candidate_lane l candidate) as [[cl cw]|] eqn:Ec; [|done]. destruct (active_lane l active id) as [[al aw]|] eqn:Ea; [|done].
  destruct (ws_integration cw) as [integration|] eqn:Ei; [|done].
  rewrite !andb_true_iff, negb_true_iff, bool_decide_eq_true, !String.eqb_eq, String.eqb_neq.
  intros ((((Erun & Ebase) & Hne) & Eint) & Hdest).
  apply head_Some_elem_of in Ec, Ea. rewrite merge_sort_Permutation in Ec.
  exists (la_run cl), (ws_base cw), integration. split_and!; [| |done|done].
  - eapply (placed_lane l candidate _ "queued"); [|exact Ec|done]. intros x Hx. by do 2 apply andb_true_iff in Hx as [Hx _].
  - rewrite Erun, Ebase. eapply (placed_lane l active _ "active"); [|exact Ea|done]. intros x Hx. by apply andb_true_iff in Hx as [_ Hx].
Qed.

(** Scopes stay, and so does isolation. *)
Record plan_kept (l l' : ledger) : Prop := {
  pk_scopes : l'.(scopes) = l.(scopes);
  pk_isolated : forall task1 task2, merge_isolated l task1 task2 -> merge_isolated l' task1 task2
}.

Lemma plan_kept_apart l l' task1 task2 : plan_kept l l' -> apart l task1 task2 -> apart l' task1 task2.
Proof.
  intros [E H] [Hm|Hd]; [left; by apply H|right]. unfold scopes_for. by rewrite E.
Qed.

Record claims_ok (l : ledger) : Prop := {
  co_ids : NoDup (map cl_id l.(claims));
  co_tokens : NoDup (map cl_token l.(claims));
  co_held : NoDup (map cl_task (List.filter held l.(claims)));
  co_tasks : forall c, c ∈ l.(claims) -> is_active_claim c = true ->
    exists t, task_by_id l c.(cl_task) = Some t /\ being_worked t;
  co_apart : forall c1 c2, c1 ∈ l.(claims) -> c2 ∈ l.(claims) ->
    is_active_claim c1 = true -> is_active_claim c2 = true -> c1.(cl_task) <> c2.(cl_task) -> apart l c1.(cl_task) c2.(cl_task)
}.

(** What plans fix and claims never touch: canonical scopes, distinct instances. *)
Record static (l : ledger) : Prop := {
  st_scopes : canonical_scopes l;
  st_instances : NoDup (map ri_id l.(instances))
}.

Record ledger_ok (l : ledger) : Prop := {
  lo_claims : claims_ok l;
  lo_locks : lock_exclusive l.(lock_leases);
  lo_capacity : within_capacity l;
  lo_static : static l
}.

(** No claim disappears or changes hands, and none becomes active again. *)
Definition keeps_claims (l l' : ledger) : Prop :=
  forall c, c ∈ l.(claims) -> exists c', c' ∈ l'.(claims) /\ c'.(cl_id) = c.(cl_id) /\ c'.(cl_token) = c.(cl_token) /\
    c'.(cl_task) = c.(cl_task) /\ (is_active_claim c' = true -> is_active_claim c = true).

#[export] Instance keeps_claims_preorder : PreOrder keeps_claims.
Proof.
  split; [intros l c Hc; by exists c|]. intros a b d H1 H2 c Hc.
  destruct (H1 c Hc) as (c1 & Hc1 & E1 & E2 & E3 & E4). destruct (H2 c1 Hc1) as (c2 & Hc2 & F1 & F2 & F3 & F4).
  exists c2. split; [done|]. split; [congruence|]. split; [congruence|]. split; [congruence|auto].
Qed.

Record next (l l' : ledger) : Prop := { nx_ok : ledger_ok l'; nx_keeps : keeps_claims l l' }.

Lemma next_refl l : ledger_ok l -> next l l.
Proof. intros H. split; [done|reflexivity]. Qed.

Lemma next_trans a b c : next a b -> next b c -> next a c.
Proof. intros [_ H1] [H2 H3]. split; [done|by etransitivity]. Qed.

Lemma held_unique l x y :
  claims_ok l -> x ∈ l.(claims) -> y ∈ l.(claims) -> held x = true -> held y = true -> x.(cl_task) = y.(cl_task) -> x = y.
Proof.
  intros H Hx Hy Hhx Hhy. apply (NoDup_map_eq cl_task (List.filter held l.(claims)) x y (co_held _ H)).
  - apply list_elem_of_In, List.filter_In. split; [by apply list_elem_of_In|done].
  - apply list_elem_of_In, List.filter_In. split; [by apply list_elem_of_In|done].
Qed.

Lemma id_unique l x y : claims_ok l -> x ∈ l.(claims) -> y ∈ l.(claims) -> x.(cl_id) = y.(cl_id) -> x = y.
Proof. intros H. apply NoDup_map_eq, (co_ids _ H). Qed.

(** ** Updates of claims *)

Record mild (cs : list claim) (f : claim -> claim) : Prop := {
  mi_id : forall c, c ∈ cs -> (f c).(cl_id) = c.(cl_id);
  mi_token : forall c, c ∈ cs -> (f c).(cl_token) = c.(cl_token);
  mi_task : forall c, c ∈ cs -> (f c).(cl_task) = c.(cl_task);
  mi_held : forall c, c ∈ cs -> held (f c) = true -> held c = true;
  mi_active : forall c, c ∈ cs -> is_active_claim (f c) = true -> is_active_claim c = true
}.

Definition map_claims (f : claim -> claim) (l : ledger) : ledger := with_claims l l.(tasks) (map f l.(claims)).

Lemma map_claims_ok f l : mild l.(claims) f -> claims_ok l -> claims_ok (map_claims f l).
Proof.
  intros Hf [H1 H2 H3 H4 H5].
  assert (forall (k : claim -> string), (forall c, c ∈ l.(claims) -> k (f c) = k c) -> map k (map f l.(claims)) = map k l.(claims)) as Hmap.
  { intros k Hk. rewrite map_map. apply map_ext_in. intros c Hc. apply Hk. by apply list_elem_of_In. }
  split; cbn [map_claims with_claims claims].
  - by rewrite (Hmap _ (mi_id _ _ Hf)).
  - by rewrite (Hmap _ (mi_token _ _ Hf)).
  - apply NoDup_shrink; [apply (mi_task _ _ Hf)|apply (mi_held _ _ Hf)|exact H3].
  - intros c' (c & -> & Hc)%list_elem_of_fmap Ha. rewrite (mi_task _ _ Hf) by done.
    apply (H4 c Hc), (mi_active _ _ Hf); done.
  - intros c1' c2' (c1 & -> & Hc1)%list_elem_of_fmap (c2 & -> & Hc2)%list_elem_of_fmap Ha1 Ha2.
    rewrite !(mi_task _ _ Hf) by done. apply (H5 c1 c2 Hc1 Hc2); by apply (mi_active _ _ Hf).
Qed.

Lemma map_claims_keeps f l : mild l.(claims) f -> keeps_claims l (map_claims f l).
Proof.
  intros Hf c Hc. exists (f c). split; [by apply list_elem_of_fmap_2|]. split; [by apply (mi_id _ _ Hf)|].
  split; [by apply (mi_token _ _ Hf)|]. split; [by apply (mi_task _ _ Hf)|by apply (mi_active _ _ Hf)].
Qed.

Lemma update_claim_map id f l : update_claim id f l = map_claims (fun c => if String.eqb c.(cl_id) id then f c else c) l.
Proof. done. Qed.

(** ** Updates of tasks *)

Lemma task_updated id g l task :
  (forall t, (g t).(tk_id) = t.(tk_id)) ->
  task_by_id (update_task id g l) task =
    option_map (fun t => if String.eqb t.(tk_id) id then g t else t) (task_by_id l task).
Proof.
  intros Hg. unfold task_by_id, update_task. cbn [with_claims tasks].
  apply (find_map_id tk_id). intros t. by destruct (String.eqb _ _).
Qed.

Lemma update_task_ok id g l :
  (forall t, (g t).(tk_id) = t.(tk_id)) ->
  (forall c, c ∈ l.(claims) -> is_active_claim c = true -> c.(cl_task) = id -> forall t, being_worked t -> being_worked (g t)) ->
  claims_ok l -> claims_ok (update_task id g l).
Proof.
  intros Hg Hst [H1 H2 H3 H4 H5]. split; try done. intros c Hc Ha. rewrite (task_updated id g l _ Hg).
  destruct (H4 c Hc Ha) as (t & Ht & Hs). rewrite Ht. eexists. split; [reflexivity|].
  destruct (String.eqb_spec (tk_id t) id) as [E|]; [|done]. apply (Hst c Hc Ha); [|done]. rewrite <-E.
  apply List.find_some in Ht as [_ Ht]. by apply String.eqb_eq in Ht.
Qed.

(** ** Steps of the invariant *)

Lemma static_fields l l' :
  l'.(scopes) = l.(scopes) -> l'.(instances) = l.(instances) -> static l -> static l'.
Proof. intros E1 E2 [H1 H2]. split; [unfold canonical_scopes; by rewrite E1|by rewrite E2]. Qed.

Lemma claims_fields l l' :
  l'.(claims) = l.(claims) -> l'.(tasks) = l.(tasks) -> plan_kept l l' -> claims_ok l -> claims_ok l'.
Proof.
  intros E1 E2 Hp [H1 H2 H3 H4 H5]. split; unfold task_by_id in *; rewrite ?E1, ?E2; try done.
  intros c1 c2 Hc1 Hc2 Ha1 Ha2 Hne. by apply (plan_kept_apart l), H5.
Qed.

(** Only leases change. *)
Lemma leases_next l ls rs :
  ledger_ok l -> lock_exclusive ls ->
  (forall i, i ∈ l.(instances) -> active_count rs i.(ri_id) <= Z.max 0 i.(ri_capacity)) -> next l (with_leases l ls rs).
Proof.
  intros [H1 H2 H3 H4] Hl Hc. split; [split|].
  - by apply (claims_fields l).
  - done.
  - exact Hc.
  - by apply (static_fields l).
  - intros c Hc'. by exists c.
Qed.

Lemma lock_map_next l f :
  ledger_ok l -> (forall x, (f x).(ll_lock) = x.(ll_lock)) -> (forall x, lock_active (f x) = true -> lock_active x = true) ->
  next l (with_leases l (map f l.(lock_leases)) l.(resource_leases)).
Proof.
  intros H Hk Hf. apply leases_next; [done| |apply (lo_capacity _ H)]. apply NoDup_shrink; auto. apply (lo_locks _ H).
Qed.

Lemma count_shrink f ls id :
  (forall x, (f x).(rl_instance) = x.(rl_instance)) -> (forall x, resource_active (f x) = true -> resource_active x = true) ->
  active_count (map f ls) id <= active_count ls id.
Proof.
  intros Hk Hf. unfold active_count. apply inj_le. induction ls as [|x ls IH]; [done|]. cbn [map List.filter].
  rewrite Hk. specialize (Hf x). destruct (String.eqb _ _); cbn [andb]; [|done].
  destruct (resource_active (f x)); [rewrite Hf by done; cbn; lia|]. destruct (resource_active x); cbn; lia.
Qed.

Lemma resource_map_next l f :
  ledger_ok l -> (forall x, (f x).(rl_instance) = x.(rl_instance)) ->
  (forall x, resource_active (f x) = true -> resource_active x = true) ->
  next l (with_leases l l.(lock_leases) (map f l.(resource_leases))).
Proof.
  intros H Hk Hf. apply leases_next; [done|apply (lo_locks _ H)|]. intros i Hi.
  etransitivity; [by apply count_shrink|by apply (lo_capacity _ H)].
Qed.

(** Claims and tasks change, leases do not. *)
Lemma claims_next l l' :
  ledger_ok l -> claims_ok l' -> keeps_claims l l' ->
  l'.(lock_leases) = l.(lock_leases) -> l'.(resource_leases) = l.(resource_leases) ->
  l'.(scopes) = l.(scopes) -> l'.(instances) = l.(instances) -> next l l'.
Proof.
  intros [H1 H2 H3 H4] Hc Hk E1 E2 E3 E5. split; [split|done].
  - done.
  - by rewrite E1.
  - unfold within_capacity. by rewrite E2, E5.
  - by apply (static_fields l).
Qed.

(** The claims that keep what identifies them, whatever happens to their state. *)
Record same_claim (c c' : claim) : Prop := {
  sc_id : c'.(cl_id) = c.(cl_id);
  sc_token : c'.(cl_token) = c.(cl_token);
  sc_owner_task : c'.(cl_task) = c.(cl_task)
}.

(** An update by id of one held claim, which ends it. *)
Lemma end_mild l c f :
  claims_ok l -> c ∈ l.(claims) -> held c = true -> same_claim c (f c) -> is_active_claim (f c) = false ->
  mild l.(claims) (fun x => if String.eqb x.(cl_id) c.(cl_id) then f x else x).
Proof.
  intros Hok Hc Hh [E1 E2 E3] Ha.
  split; intros x Hx; destruct (String.eqb_spec x.(cl_id) c.(cl_id)) as [E|]; try done;
    rewrite (id_unique l x c Hok Hx Hc E) in *; congruence.
Qed.

(** A held claim ends, and its task changes. *)
Lemma end_claim_next l c f g :
  ledger_ok l -> c ∈ l.(claims) -> held c = true -> same_claim c (f c) -> is_active_claim (f c) = false ->
  (forall t, (g t).(tk_id) = t.(tk_id)) -> next l (update_task c.(cl_task) g (update_claim c.(cl_id) f l)).
Proof.
  intros Hok Hc Hh Hf Ha Hg. pose proof (lo_claims _ Hok) as Hcl. pose proof (end_mild l c f Hcl Hc Hh Hf Ha) as Hm.
  apply claims_next; try done.
  - apply update_task_ok; [done| |by apply map_claims_ok]. rewrite update_claim_map.
    intros x' (x & -> & Hx)%list_elem_of_fmap Hax E. exfalso. cbn beta in *.
    destruct (String.eqb_spec x.(cl_id) c.(cl_id)) as [Ei|Ei].
    + rewrite (id_unique l x c Hcl Hx Hc Ei), Ha in Hax. done.
    + apply Ei. f_equal. apply (held_unique l x c Hcl Hx Hc (active_held _ Hax) Hh E).
  - by apply map_claims_keeps.
Qed.

(** The claim ends, its task does not change. *)
Lemma end_only_next l c f :
  ledger_ok l -> c ∈ l.(claims) -> held c = true -> same_claim c (f c) -> is_active_claim (f c) = false ->
  next l (update_claim c.(cl_id) f l).
Proof.
  intros Hok Hc Hh Hf Ha. pose proof (lo_claims _ Hok) as Hcl. pose proof (end_mild l c f Hcl Hc Hh Hf Ha) as Hm.
  apply claims_next; try done; [by apply map_claims_ok|by apply map_claims_keeps].
Qed.

(** ** Barriers *)

(** Tasks under an active claim may be put on attention by a closed barrier. *)
Lemma tasks_next l f bs :
  ledger_ok l -> (forall t, (f t).(tk_id) = t.(tk_id)) -> (forall t, being_worked t -> being_worked (f t)) ->
  next l (with_tasks l (map f l.(tasks)) bs).
Proof.
  intros Hok Hid Hf. apply claims_next; try done; [|by intros c Hc; exists c].
  destruct (lo_claims _ Hok) as [H1 H2 H3 H4 H5]. split; try done. intros c Hc Ha.
  destruct (H4 c Hc Ha) as (t & Ht & Hs). exists (f t). split; [|by apply Hf].
  unfold task_by_id in *. cbn [with_tasks tasks]. by rewrite (find_map_id tk_id f), Ht.
Qed.

Lemma reevaluate_one_next revision now out l b :
  ledger_ok l -> next l (reevaluate_one revision now (out, l) b).2.
Proof.
  intros Hok. unfold reevaluate_one. destruct (_ && _); [by apply next_refl|]. cbn [snd].
  apply tasks_next; [done| |]; intros t; case_bool_decide; try done. intros _. right. split; [done|]. by exists b.(br_id).
Qed.

Lemma reevaluate_next l revision now : ledger_ok l -> next l (reevaluate_barriers l revision now).2.
Proof.
  unfold reevaluate_barriers. generalize (merge_sort (by_text br_id) l.(barriers)) as bs. generalize (@nil change) as out. intros out bs.
  revert out l. induction bs as [|b bs IH]; intros out l Hok; [by apply next_refl|]. cbn [foldl].
  pose proof (reevaluate_one_next revision now out l b Hok) as N.
  destruct (reevaluate_one _ _ _ _) as [out1 l1]. eapply next_trans; [exact N|]. apply IH, (nx_ok _ _ N).
Qed.

(** ** Sweeping *)

Lemma release_claim_locks_next now l id : ledger_ok l -> next l (release_claim_locks now l id).
Proof. intros H. apply lock_map_next; [done| |]; intros x; by destruct (_ && _). Qed.

Lemma release_resources_next now l id : ledger_ok l -> next l (release_resources now id l).
Proof. intros H. apply resource_map_next; [done| |]; intros x; by destruct (of_claim id x). Qed.

Lemma release_dead_next h now l id :
  ledger_ok l -> next l (with_leases l l.(lock_leases) (release_dead h now id l.(resource_leases))).
Proof. intros H. apply resource_map_next; [done| |]; intros x; by case_bool_decide. Qed.

Lemma update_claim_other id f l c : c ∈ l.(claims) -> c.(cl_id) <> id -> c ∈ (update_claim id f l).(claims).
Proof.
  intros Hc Hi. apply list_elem_of_fmap. exists c. split; [|done]. by destruct (String.eqb_spec (cl_id c) id).
Qed.

Section WithHost.
Context (float_repr : spec_float -> string) (sha256 : string -> string) (py_repr : pyval -> string).
#[local] Abbreviation sweep_one := (sweep_one float_repr sha256).
#[local] Abbreviation sweep_expired := (sweep_expired float_repr sha256).
#[local] Abbreviation th := (token_hash sha256).

Lemma sweep_one_next e out l c :
  ledger_ok l -> c ∈ l.(claims) -> is_active_claim c = true ->
  next l (sweep_one e (out, l) c).2 /\
  forall c', c' ∈ l.(claims) -> c'.(cl_id) <> c.(cl_id) -> c' ∈ (sweep_one e (out, l) c).2.(claims).
Proof.
  intros Hok Hc Ha. pose proof (active_held _ Ha) as Hh.
  pose proof (release_claim_locks_next (e_now e) l (cl_id c) Hok) as N1. set (l1 := release_claim_locks _ _ _) in *.
  pose proof (release_dead_next (e_host e) (e_now e) l1 (cl_id c) (nx_ok _ _ N1)) as N2. set (l2 := with_leases _ _ _) in N2.
  pose proof (next_trans _ _ _ N1 N2) as N.
  unfold Claims.sweep_one. fold l1. fold l2. destruct (_ && _); cbn [snd].
  - split; [|intros c' Hc' Hi; by apply update_claim_other].
    eapply next_trans; [exact N|]. apply end_claim_next; [apply (nx_ok _ _ N)|done|done|done|done|].
    intros t. unfold planned_if_in_progress. by destruct (String.eqb _ _).
  - split; [|intros c' Hc' Hi; by apply update_claim_other].
    eapply next_trans; [exact N|]. by apply end_claim_next; [apply (nx_ok _ _ N)|..].
Qed.

Lemma sweep_fold_next e cs out l :
  ledger_ok l -> NoDup (map cl_id cs) -> (forall c, c ∈ cs -> c ∈ l.(claims) /\ is_active_claim c = true) ->
  next l (foldl (sweep_one e) (out, l) cs).2.
Proof.
  revert out l. induction cs as [|c cs IH]; intros out l Hok Hnd Hcs; [by apply next_refl|]. cbn [foldl].
  cbn [map] in Hnd. apply NoDup_cons in Hnd as [Hi Hnd]. destruct (Hcs c ltac:(left)) as [Hc Ha].
  destruct (sweep_one_next e out l c Hok Hc Ha) as [N Hkeep].
  destruct (sweep_one e (out, l) c) as [out1 l1] eqn:E. cbn [snd] in N, Hkeep.
  eapply next_trans; [exact N|]. apply IH; [apply (nx_ok _ _ N)|done|]. intros c' Hc'.
  destruct (Hcs c' ltac:(by right)) as [Hin Ha']. split; [|done]. apply Hkeep; [done|].
  intros E'. apply Hi. rewrite <-E'. by apply list_elem_of_fmap_2.
Qed.

Lemma expired_rows now id l c :
  c ∈ merge_sort (by_int cl_expires) (List.filter (expired_claim now id) l.(claims)) ->
  c ∈ l.(claims) /\ is_active_claim c = true /\ cl_expires c <= now.
Proof.
  rewrite merge_sort_Permutation. intros H. apply list_elem_of_In, List.filter_In in H as [H E].
  apply andb_true_iff in E as [E _]. apply andb_true_iff in E as [E1 E2]. apply Z.leb_le in E2.
  split; [by apply list_elem_of_In|done].
Qed.

Lemma sweep_expired_next e id l : ledger_ok l -> next l (sweep_expired e id l).2.
Proof.
  intros Hok. apply sweep_fold_next; [done| |].
  - rewrite merge_sort_Permutation. apply NoDup_map_filter, (co_ids _ (lo_claims _ Hok)).
  - intros c Hc. apply expired_rows in Hc as (? & ? & _). done.
Qed.

(** ** Claiming *)

Lemma current_claim_free l id c :
  current_claim l id = None -> c ∈ l.(claims) -> held c = true -> c.(cl_task) <> id.
Proof.
  intros H Hc Hh E. destruct (proj1 (current_claim_none l id) H c Hc E) as [H1 H2].
  unfold held in Hh. apply bool_decide_eq_true in Hh. rewrite !elem_of_cons, elem_of_nil in Hh. tauto.
Qed.

Lemma insert_claim_ok sessions c l l' :
  insert_claim sessions c l = Ok l' ->
  l' = with_claims l l.(tasks) (l.(claims) ++ [c]) /\ c.(cl_session) ∈ sessions /\
  forall x, x ∈ l.(claims) -> x.(cl_id) <> c.(cl_id) /\ x.(cl_token) <> c.(cl_token).
Proof.
  unfold insert_claim. intros H. apply result_bind_ok in H as (u & Hc & H). apply raise_if_ok, orb_false_iff in Hc as [Hc Hs].
  apply Ok_inj in H as <-. split; [done|]. split; [by apply negb_false_iff, bool_decide_eq_true in Hs|].
  intros x Hx. rewrite existsb_false_forall in Hc. specialize (Hc x Hx). cbn beta in Hc.
  apply orb_false_iff in Hc as [Hc _]. apply orb_false_iff in Hc as [H1 H2].
  by apply String.eqb_neq in H1, H2.
Qed.

(** A new claim whose exclusive roots are apart from everybody else's, with its task set in progress. *)
Lemma insert_next sessions c g t l l1 :
  ledger_ok l -> insert_claim sessions c l = Ok l1 -> task_by_id l c.(cl_task) = Some t ->
  (forall x, x ∈ l.(claims) -> held x = true -> x.(cl_task) <> c.(cl_task)) ->
  (forall c1, c1 ∈ l.(claims) -> is_active_claim c1 = true -> apart l c.(cl_task) c1.(cl_task)) ->
  (forall t, (g t).(tk_id) = t.(tk_id)) -> (forall t, (g t).(tk_status) = "in_progress") ->
  next l (update_task c.(cl_task) g l1).
Proof.
  intros Hok Hi Ht Hfree Hnew Hg Hs. apply insert_claim_ok in Hi as (-> & _ & Hfresh).
  pose proof (lo_claims _ Hok) as [H1 H2 H3 H4 H5].
  assert (claims_ok (with_claims l (map (fun t => if String.eqb t.(tk_id) c.(cl_task) then g t else t) l.(tasks)) (l.(claims) ++ [c]))) as Hok'.
  { split; cbn [with_claims claims].
    - rewrite map_app. apply NoDup_snoc; [done|]. intros (x & E & Hx)%list_elem_of_fmap. by apply (proj1 (Hfresh x Hx)).
    - rewrite map_app. apply NoDup_snoc; [done|]. intros (x & E & Hx)%list_elem_of_fmap. by apply (proj2 (Hfresh x Hx)).
    - rewrite List.filter_app. cbn [List.filter]. destruct (held c); [|by rewrite app_nil_r].
      rewrite map_app. apply NoDup_snoc; [done|]. intros (x & E & Hx)%list_elem_of_fmap.
      apply list_elem_of_In, List.filter_In in Hx as [Hx Hh]. apply list_elem_of_In in Hx. by apply (Hfree x Hx Hh).
    - intros x [Hx| ->%list_elem_of_singleton]%elem_of_app Ha.
      + destruct (H4 x Hx Ha) as (t' & Ht' & Hst). pose proof (task_updated c.(cl_task) g l x.(cl_task) Hg) as E.
        rewrite Ht' in E. cbn [option_map] in E. eexists. split; [exact E|]. destruct (String.eqb _ _); [left; apply Hs|done].
      + pose proof (task_updated c.(cl_task) g l c.(cl_task) Hg) as E. rewrite Ht in E. cbn [option_map] in E.
        eexists. split; [exact E|]. apply List.find_some in Ht as [_ ->]. left. apply Hs.
    - intros c1 c2 Hc1 Hc2 Ha1 Ha2 Hne.
      apply elem_of_app in Hc1 as [Hc1| ->%list_elem_of_singleton], Hc2 as [Hc2| ->%list_elem_of_singleton].
      + by apply (H5 c1 c2).
      + by apply apart_sym, (Hnew c1).
      + by apply (Hnew c2).
      + done. }
  apply claims_next; try done. intros x Hx. exists x. split; [apply elem_of_app; by left|done].
Qed.

(** A claim on a free task that conflicts with nobody. *)
Lemma claim_next sessions c g t l l1 :
  ledger_ok l -> insert_claim sessions c l = Ok l1 ->
  task_by_id l c.(cl_task) = Some t -> ownership_conflicts l c.(cl_task) = [] -> current_claim l c.(cl_task) = None ->
  (forall t, (g t).(tk_id) = t.(tk_id)) -> (forall t, (g t).(tk_status) = "in_progress") ->
  next l (update_task c.(cl_task) g l1).
Proof.
  intros Hok Hi Ht Hconf Hfree Hg Hs. apply (insert_next sessions c g t); try done.
  - intros x Hx Hh. by apply (current_claim_free l _ x).
  - intros c1 Hc1 Ha1. destruct (co_tasks _ (lo_claims _ Hok) c1 Hc1 Ha1) as (t1 & Ht1 & _).
    destruct (_isolated_merge_overlap_allowed l c.(cl_task) c1.(cl_task) c1.(cl_id)) eqn:Ei; [left; by eapply allowed_isolated|right].
    intros r1 r2 Hr1 Hr2. apply (no_conflict_disjoint l c.(cl_task) c1 t1); try done.
    by apply (current_claim_free l _ c1), active_held.
Qed.

Lemma task_locks_next h now l task claim session secs fresh l' :
  ledger_ok l -> acquire_task_locks th h now l task claim session secs fresh = Ok l' -> next l l'.
Proof.
  intros Hok H. unfold acquire_task_locks in H. apply result_bind_ok in H as (ls & Hls & H). apply Ok_inj in H as <-.
  apply leases_next; [done| |apply (lo_capacity _ Hok)].
  by apply acquire_names_spec in Hls as (? & _); [|apply sweep_exclusive, (lo_locks _ Hok)].
Qed.

Lemma named_locks_next h now l names claim session secs cmd fresh l' :
  ledger_ok l -> acquire_named_locks th h now l names claim session secs cmd fresh = Ok l' -> next l l'.
Proof.
  intros Hok H. unfold acquire_named_locks in H. apply result_bind_ok in H as (ls & Hls & H). apply Ok_inj in H as <-.
  apply leases_next; [done| |apply (lo_capacity _ Hok)].
  by apply acquire_names_spec in Hls as (? & _); [|apply sweep_exclusive, (lo_locks _ Hok)].
Qed.

Lemma acquire_resource_next h now l selector session claim req secs cmd id token i l' :
  ledger_ok l -> acquire_resource th h now l selector session claim req secs cmd id token = Ok (i, l') -> next l l'.
Proof.
  intros Hok H.
  pose proof (acquire_resource_cases th h now l selector session claim req secs cmd id token (lo_capacity _ Hok)
                (st_instances _ (lo_static _ Hok))) as Hr. rewrite H in Hr. destruct Hr as (_ & _ & _ & Hcap & _).
  unfold acquire_resource in H. destruct (List.find _ _); [|done]. apply Ok_inj in H. injection H as -> <-.
  apply leases_next; [done|apply (lo_locks _ Hok)|exact Hcap].
Qed.

Lemma acquire_units_next e session claim secs fresh n units l got l' :
  ledger_ok l -> acquire_units sha256 e session claim secs fresh n units l = Ok (got, l') -> next l l'.
Proof.
  revert n l got. induction units as [|r units IH]; intros n l got Hok H; cbn [acquire_units] in H.
  { apply Ok_inj in H. injection H as _ <-. by apply next_refl. }
  apply result_bind_ok in H as ([i l1] & H1 & H). apply result_bind_ok in H as ([got' l2] & H2 & H).
  apply Ok_inj in H. injection H as _ <-. pose proof (acquire_resource_next _ _ _ _ _ _ _ _ _ _ _ _ _ Hok H1) as N.
  eapply next_trans; [exact N|]. by apply (IH (S n) l1 got'); [apply (nx_ok _ _ N)|].
Qed.

Lemma take_task_next e d sessions session revision secs o ca l g l' :
  ledger_ok l ->
  (exists t, task_by_id l ca.(ca_task) = Some t /\ ownership_conflicts l ca.(ca_task) = [] /\ current_claim l ca.(ca_task) = None) ->
  take_task float_repr sha256 e d sessions session revision secs o ca l = Ok (g, l') -> next l l'.
Proof.
  intros Hok (t & Ht & Hconf & Hfree) H. unfold take_task in H. apply result_bind_ok in H as (l1 & Hins & H).
  destruct (insert_claim _ _ _) as [x|[]] eqn:Hi in Hins; try discriminate. apply Ok_inj in Hins as ->.
  apply result_bind_ok in H as (l3 & Hl & H). apply result_bind_ok in H as ([got l4] & Hr & H).
  apply Ok_inj in H. injection H as _ <-.
  assert (next l (update_task (ca_task ca) (fun t => set_status "in_progress" t.(tk_attention) e.(e_now) (t.(tk_version) + 1) revision t) l1)) as N1
    by (apply (claim_next sessions _ _ t l l1 Hok Hi); done).
  pose proof (task_locks_next _ _ _ _ _ _ _ _ _ (nx_ok _ _ N1) Hl) as N2.
  pose proof (acquire_units_next _ _ _ _ _ _ _ _ _ _ (nx_ok _ _ N2) Hr) as N3.
  eapply next_trans; [exact N1|]. by eapply next_trans.
Qed.

(** The candidate [claim_best] takes. *)
Lemma claim_best_takes e d sessions session revision secs requested sweep o l r :
  claim_best float_repr sha256 py_repr e d sessions session revision secs requested sweep o l = r ->
  let l0 := if sweep : bool then (sweep_expired e None l).2 else l in
  match ready_tasks py_repr e.(e_host) l0 e.(e_now) with
  | Err x => r = Err x
  | Ok queue =>
      match List.filter (asked_for requested) queue with
      | [] => r = Err (TodoError "no_actionable_work")
      | ca :: _ => ca ∈ queue /\ r = take_task float_repr sha256 e d sessions session revision secs o ca l0
      end
  end.
Proof.
  intros <- l0. unfold claim_best. fold l0. destruct (ready_tasks _ _ _ _) as [queue|x]; [|done]. rewrite bind_Ok.
  destruct (List.filter _ queue) as [|ca rest] eqn:E; [done|]. split; [|done].
  assert (In ca (ca :: rest)) as H by (by left). rewrite <-E in H. apply List.filter_In in H as [H _].
  by apply list_elem_of_In.
Qed.

Lemma claim_best_next e d sessions session revision secs requested sweep o l g l' :
  ledger_ok l ->
  claim_best float_repr sha256 py_repr e d sessions session revision secs requested sweep o l = Ok (g, l') -> next l l'.
Proof.
  intros Hok H. apply claim_best_takes in H. cbv zeta in H. set (l0 := if sweep : bool then _ else l) in H.
  assert (next l l0) as N by (unfold l0; destruct sweep; [by apply sweep_expired_next|by apply next_refl]).
  destruct (ready_tasks _ _ _ _) as [queue|x] eqn:Hq; [|discriminate].
  destruct (List.filter _ queue) as [|ca rest]; [discriminate|]. destruct H as [Hca H].
  destruct (ready_candidate _ _ _ _ _ _ Hq Hca) as (v & Hv & Hr).
  eapply next_trans; [exact N|]. eapply take_task_next; [apply (nx_ok _ _ N)| |by symmetry in H].
  destruct (ready_unclaimed py_repr (e_host e) l0 (ca_task ca) v Hv Hr) as (t & ? & ? & ? & _). by exists t.
Qed.

(** ** Keeping, releasing, recovering *)

Lemma beat_mild l id now expires : mild l.(claims) (fun c => if String.eqb c.(cl_id) id then beat_claim now expires c else c).
Proof. split; intros c _; by destruct (String.eqb _ _). Qed.

Lemma pulse_next e c secs l : ledger_ok l -> next l (_pulse_claim_row e c secs l).
Proof.
  intros Hok. unfold _pulse_claim_row. set (l1 := update_claim _ _ _).
  assert (next l l1) as N1.
  { apply claims_next; try done; [by apply map_claims_ok; [apply beat_mild|apply (lo_claims _ Hok)]|].
    apply map_claims_keeps, beat_mild. }
  assert (next l1 (with_leases l1 (map (extend_lock (cl_id c) (e_now e + secs)) (lock_leases l1)) (resource_leases l1))) as N2.
  { apply lock_map_next; [apply (nx_ok _ _ N1)| |]; intros x; unfold extend_lock; by destruct (_ && _). }
  eapply next_trans; [exact N1|].
  refine (next_trans _ _ _ N2 (resource_map_next _ (extend_resource (cl_id c) (e_now e + secs)) (nx_ok _ _ N2) _ _));
    intros x; unfold extend_resource; by destruct (of_claim _ _).
Qed.

Lemma release_id_next e id status reason l c l' :
  ledger_ok l -> release_claim_id e id status reason l = Ok (c, l') -> next l l' /\ c ∈ l.(claims) /\ is_active_claim c = true.
Proof.
  intros Hok H. unfold release_claim_id in H. destruct (List.find _ _) as [c0|] eqn:E; [|done].
  apply List.find_some in E as [Hc E]. apply andb_true_iff in E as [_ Ha]. apply list_elem_of_In in Hc.
  apply Ok_inj in H. injection H as <- <-. split; [|done].
  pose proof (release_claim_locks_next (e_now e) l (cl_id c0) Hok) as N1.
  pose proof (release_resources_next (e_now e) _ (cl_id c0) (nx_ok _ _ N1)) as N2.
  eapply next_trans; [exact N1|]. eapply next_trans; [exact N2|].
  by apply end_claim_next; [apply (nx_ok _ _ N2)|done|by apply active_held|..].
Qed.

Lemma authenticate_found token orphaned l c :
  authenticate_claim sha256 token orphaned l = Ok c ->
  exists t, token = Some t /\ t <> "" /\ c ∈ l.(claims) /\ c.(cl_token) = th t /\ held c = true /\
    (orphaned = false -> is_active_claim c = true).
Proof.
  unfold authenticate_claim. destruct token as [t|]; [|done]. intros H. apply result_bind_ok in H as (u & Ht & H).
  apply raise_if_ok, String.eqb_neq in Ht. destruct (List.find _ _) as [c0|] eqn:E; [|done]. apply Ok_inj in H as <-.
  apply List.find_some in E as [Hc E]. apply andb_true_iff in E as [E1%String.eqb_eq E2%bool_decide_eq_true].
  exists t. split; [done|]. split; [done|]. split; [by apply list_elem_of_In|]. split; [done|].
  unfold held, is_active_claim. destruct orphaned.
  - split; [by apply bool_decide_eq_true|done].
  - apply list_elem_of_singleton in E2 as ->. done.
Qed.

Lemma inspect_found e task l r :
  inspect_recovery float_repr sha256 e task l = Ok r ->
  r.(r_claim) ∈ l.(claims) /\ r.(r_claim).(cl_task) = task /\ r.(r_claim).(cl_state) = "orphaned" /\
  r.(r_clean) = same_fingerprint r.(r_claim).(cl_baseline) (current_manifest float_repr sha256 e l task).
Proof.
  unfold inspect_recovery. destruct (head _) as [c|] eqn:E; [|done]. intros H. apply Ok_inj in H as <-. cbn.
  apply head_Some_elem_of in E. rewrite merge_sort_Permutation in E.
  apply list_elem_of_In, List.filter_In in E as [Hc E]. apply andb_true_iff in E as [E1%String.eqb_eq E2%String.eqb_eq].
  split; [by apply list_elem_of_In|]. done.
Qed.

Lemma orphan_held c : c.(cl_state) = "orphaned" -> held c = true.
Proof. unfold held. intros ->. reflexivity. Qed.

Lemma recover_release_next e task ack l r l' :
  ledger_ok l -> recover_release float_repr sha256 e task ack l = Ok (r, l') -> next l l'.
Proof.
  intros Hok H. unfold recover_release in H. apply result_bind_ok in H as (r0 & Hr & H).
  apply result_bind_ok in H as (u & _ & H). apply Ok_inj in H. injection H as -> <-.
  apply inspect_found in Hr as (Hc & <- & Ho & _). by apply end_claim_next; [done|done|by apply orphan_held|..].
Qed.

Lemma recover_adopt_next e d sessions task session revision secs l g l' :
  ledger_ok l -> recover_adopt float_repr sha256 py_repr e d sessions task session revision secs l = Ok (g, l') -> next l l'.
Proof.
  intros Hok H. unfold recover_adopt in H. apply result_bind_ok in H as (r0 & Hr & H).
  apply inspect_found in Hr as (Hc & <- & Ho & _).
  match type of H with claim_best _ _ _ _ _ _ _ _ _ _ _ _ ?l1 = _ => assert (next l l1) as N end.
  { by apply end_claim_next; [done|done|by apply orphan_held|..]. }
  eapply next_trans; [exact N|]. by eapply claim_best_next; [apply (nx_ok _ _ N)|].
Qed.

End WithHost.
