(* ===== verification/ClaimsSpec.v ===== *)
(** * Claims: what claiming and sweeping do, and when claiming succeeds *)

From Stdlib Require Import ZArith SpecFloat.
From S2P Require Import Prelude PyValue Text Json Stamps Ledger Ownership Readiness SchedulerProps LeaseProps Claims ClaimsProps.
Import Ledger Ownership Readiness Claims.

#[local] Open Scope string_scope.
#[local] Open Scope Z_scope.
#[local] Open Scope list_scope.

Section WithHost.
Context (float_repr : spec_float -> string) (sha256 : string -> string) (py_repr : pyval -> string).
#[local] Abbreviation sweep_one := (sweep_one float_repr sha256).
#[local] Abbreviation sweep_expired := (sweep_expired float_repr sha256).
#[local] Abbreviation current_manifest := (current_manifest float_repr sha256).
#[local] Abbreviation th := (token_hash sha256).

(** ** Sweeping *)

(** The outcome of one expired claim. *)
Definition swept_as (e : env) (l0 l : ledger) (c : claim) : Prop :=
  exists c', c' ∈ l.(claims) /\ c'.(cl_id) = c.(cl_id) /\
    (c'.(cl_state) = "expired_clean" /\ same_fingerprint c.(cl_baseline) (current_manifest e l0 c.(cl_task)) = true \/
     c'.(cl_state) = "orphaned" /\ exists t, task_by_id l c.(cl_task) = Some t /\ t.(tk_status) = "attention_required").

Lemma sweep_one_scopes e out l c : (sweep_one e (out, l) c).2.(scopes) = l.(scopes).
Proof. unfold Claims.sweep_one. by destruct (_ && _). Qed.

Lemma updated_claim id f l c : c ∈ l.(claims) -> c.(cl_id) = id -> f c ∈ (update_claim id f l).(claims).
Proof. intros Hc <-. apply list_elem_of_fmap. exists c. by rewrite String.eqb_refl. Qed.

Lemma manifest_scopes e l l' task : l'.(scopes) = l.(scopes) -> current_manifest e l' task = current_manifest e l task.
Proof. intros E. unfold Claims.current_manifest, scopes_for. by rewrite E. Qed.

Lemma sweep_one_sweeps e out l c :
  ledger_ok l -> c ∈ l.(claims) -> is_active_claim c = true -> swept_as e l (sweep_one e (out, l) c).2 c.
Proof.
  intros Hok Hc Ha. destruct (co_tasks _ (lo_claims _ Hok) c Hc Ha) as (t & Ht & _).
  assert ((List.find (fun t => String.eqb t.(tk_id) c.(cl_task)) l.(tasks)) = Some t) as Hf by exact Ht.
  pose proof (List.find_some _ _ Hf) as [_ Hid].
  unfold Claims.sweep_one, swept_as. destruct (same_fingerprint _ _) eqn:Hs; cbn [andb negb snd].
  - destruct (live_leases _ _ _); cbn [snd].
    + eexists. split; [by apply updated_claim|]. split; [done|]. by left.
    + eexists. split; [by apply updated_claim|]. split; [done|]. right. split; [done|].
      eexists. split; [rewrite task_updated by done; cbv [task_by_id]; cbn [update_claim with_claims tasks with_leases release_claim_locks];
        rewrite Hf; reflexivity|]. cbn beta. by rewrite Hid.
  - eexists. split; [by apply updated_claim|]. split; [done|]. right. split; [done|].
    eexists. split; [rewrite task_updated by done; cbv [task_by_id]; cbn [update_claim with_claims tasks with_leases release_claim_locks];
        rewrite Hf; reflexivity|]. cbn beta. by rewrite Hid.
Qed.

(** Sweeping another claim changes neither the row nor the task. *)
Lemma sweep_one_other_task e out l c task :
  task <> c.(cl_task) -> task_by_id (sweep_one e (out, l) c).2 task = task_by_id l task.
Proof.
  intros Hne. unfold Claims.sweep_one.
  destruct (_ && _); cbn [snd]; rewrite task_updated;
    try (intros t; unfold planned_if_in_progress; by destruct (String.eqb _ _)); try done.
  all: cbv [task_by_id]; cbn [update_claim with_claims tasks with_leases release_claim_locks];
    destruct (List.find _ l.(tasks)) as [t|] eqn:E; [|done]; cbn [option_map];
    apply List.find_some in E as [_ E]; apply String.eqb_eq in E;
    destruct (String.eqb_spec (tk_id t) (cl_task c)); [congruence|done].
Qed.

Lemma swept_as_keeps e l0 out l c c2 :
  swept_as e l0 l c -> (forall x, x ∈ l.(claims) -> x.(cl_id) <> c2.(cl_id) -> x ∈ (sweep_one e (out, l) c2).2.(claims)) ->
  c.(cl_id) <> c2.(cl_id) -> c.(cl_task) <> c2.(cl_task) -> swept_as e l0 (sweep_one e (out, l) c2).2 c.
Proof.
  intros (c' & Hc' & Hid & H) Hkeep Hne Ht. exists c'. split; [apply Hkeep; [done|congruence]|]. split; [done|].
  destruct H as [H|(Hs & t & Ht' & Hst)]; [by left|right]. split; [done|]. exists t. by rewrite sweep_one_other_task.
Qed.

Lemma swept_as_ext e l0 l1 l c : l1.(scopes) = l0.(scopes) -> swept_as e l1 l c -> swept_as e l0 l c.
Proof.
  intros E (c' & H1 & H2 & H3). exists c'. split; [done|]. split; [done|]. by rewrite (manifest_scopes e l0 l1 _ E) in H3.
Qed.

Lemma sweep_fold_spec e l0 (all : list claim) cs out l :
  ledger_ok l -> l.(scopes) = l0.(scopes) ->
  NoDup (map cl_id cs) -> (forall c, c ∈ cs -> c ∈ l.(claims) /\ is_active_claim c = true) ->
  (forall c, c ∈ all -> swept_as e l0 l c /\ forall c2, c2 ∈ cs -> c.(cl_id) <> c2.(cl_id) /\ c.(cl_task) <> c2.(cl_task)) ->
  let l' := (foldl (sweep_one e) (out, l) cs).2 in
  (forall c, c ∈ all \/ c ∈ cs -> swept_as e l0 l' c) /\
  (forall c, c ∈ l.(claims) -> (forall c2, c2 ∈ cs -> c.(cl_id) <> c2.(cl_id)) -> c ∈ l'.(claims)) /\
  ledger_ok l' /\ keeps_claims l l'.
Proof.
  revert all out l. induction cs as [|c cs IH]; intros all out l Hok Hsc Hnd Hcs Hall; cbn [foldl snd].
  { split; [intros c [Hc|Hc%not_elem_of_nil]; [by apply Hall|done]|]. split; [done|]. split; [done|reflexivity]. }
  cbn [map] in Hnd. apply NoDup_cons in Hnd as [Hi Hnd]. destruct (Hcs c ltac:(left)) as [Hc Ha].
  destruct (sweep_one_next float_repr sha256 e out l c Hok Hc Ha) as [N Hkeep].
  pose proof (sweep_one_sweeps e out l c Hok Hc Ha) as Hsw. pose proof (sweep_one_scopes e out l c) as Hsc1.
  assert (forall c2, c2 ∈ cs -> c.(cl_id) <> c2.(cl_id) /\ c.(cl_task) <> c2.(cl_task)) as Hrest.
  { intros c2 Hc2. assert (c.(cl_id) <> c2.(cl_id)) as Hne by (intros E; apply Hi; rewrite E; by apply list_elem_of_fmap_2).
    split; [done|]. intros E. apply Hne. f_equal. destruct (Hcs c2 ltac:(by right)) as [Hin2 Ha2].
    apply (held_unique l); auto using active_held. apply (lo_claims _ Hok). }
  assert (forall x, x ∈ all -> swept_as e l0 (sweep_one e (out, l) c).2 x) as Hall1.
  { intros x Hx. destruct (Hall x Hx) as [Hsx Hox]. destruct (Hox c ltac:(left)) as [H1 H2]. by apply swept_as_keeps. }
  destruct (sweep_one e (out, l) c) as [out1 l1] eqn:E. cbn [snd] in *.
  destruct (IH (c :: all) out1 l1) as (H1 & H2 & H3 & H4).
  - apply (nx_ok _ _ N).
  - congruence.
  - done.
  - intros c2 Hc2. destruct (Hcs c2 ltac:(by right)) as [Hin Ha2]. split; [|done]. apply Hkeep; [done|].
    destruct (Hrest c2 Hc2) as [Hne _]. congruence.
  - intros x [->|Hx]%elem_of_cons.
    + split; [by apply (swept_as_ext e l0 l)|done].
    + split; [by apply Hall1|]. intros c2 Hc2. apply (proj2 (Hall x Hx)). by right.
  - split; [|split; [|split; [done|]]].
    + intros x [Hx|[->|Hx]%elem_of_cons]; apply H1; [left; by right|left; by left|by right].
    + intros x Hx Hne. apply H2; [apply Hkeep; [done|apply Hne; by left]|]. intros c2 Hc2. apply Hne. by right.
    + etransitivity; [apply (nx_keeps _ _ N)|done].
Qed.

(** C21: Sweeping expired claims.  Afterwards no active claim is past its expiry; a claim that was not active
    or not expired is untouched; an expired one is released as clean only if its owned paths are as they
    were at the baseline, and otherwise is orphaned with its task marked as requiring attention. *)
Theorem sweep_expired_spec e l :
  ledger_ok l ->
  let l' := (sweep_expired e None l).2 in
  (forall c, c ∈ l'.(claims) -> is_active_claim c = true -> e.(e_now) < c.(cl_expires)) /\
  (forall c, c ∈ l.(claims) -> expired_claim e.(e_now) None c = false -> c ∈ l'.(claims)) /\
  (forall c, c ∈ l.(claims) -> expired_claim e.(e_now) None c = true -> swept_as e l l' c).
Proof.
  intros Hok l'. set (cs := merge_sort (by_int cl_expires) (List.filter (expired_claim e.(e_now) None) l.(claims))) in *.
  assert (forall c, c ∈ cs <-> c ∈ l.(claims) /\ expired_claim e.(e_now) None c = true) as Hcs.
  { intros c. unfold cs. rewrite merge_sort_Permutation, list_elem_of_In, List.filter_In, <-list_elem_of_In. done. }
  pose proof (lo_claims _ Hok) as Hcl.
  assert (NoDup (map cl_id cs)) as Hnd by (unfold cs; rewrite merge_sort_Permutation; by apply NoDup_map_filter, co_ids).
  destruct (sweep_fold_spec e l [] cs [] l Hok eq_refl Hnd) as (H1 & H2 & H3 & H4).
  { intros c [Hc E]%Hcs. split; [done|]. unfold expired_claim in E. by do 2 apply andb_true_iff in E as [E _]. }
  { by intros c Hc%not_elem_of_nil. }
  fold l' in H1, H2, H3, H4.
  change (foldl (sweep_one e) ([], l) cs).2 with l' in *.
  assert (forall c, c ∈ l.(claims) -> expired_claim e.(e_now) None c = false -> c ∈ l'.(claims)) as Hkeep.
  { intros c Hc E. apply H2; [done|]. intros c2 [Hc2 E2]%Hcs Eid.
    rewrite (id_unique l c c2 Hcl Hc Hc2 Eid), E2 in E. done. }
  split; [|split; [done|]].
  - intros c' Hc' Ha. apply Z.lt_nge. intros Hexp.
    (* the claim was there before: the sweep adds none *)
    assert (exists c, c ∈ l.(claims) /\ c.(cl_id) = c'.(cl_id)) as (c & Hc & Hid).
    { assert (map cl_id l'.(claims) = map cl_id l.(claims)) as Eids.
      { clear -l'. unfold l', Claims.sweep_expired. generalize (@nil swept). clear l'.
        generalize (merge_sort (by_int cl_expires) (List.filter (expired_claim (e_now e) None) (claims l))) as ks.
        intros ks. revert l. induction ks as [|k ks IH]; intros l out; [done|]. cbn [foldl].
        destruct (sweep_one e (out, l) k) as [out1 l1] eqn:E. rewrite IH.
        assert (l1 = (sweep_one e (out, l) k).2) as -> by by rewrite E. unfold Claims.sweep_one.
        destruct (_ && _); cbn [snd update_task update_claim with_claims claims with_leases release_claim_locks];
          rewrite map_map; apply map_ext; intros x; by destruct (String.eqb _ _). }
      assert (c'.(cl_id) ∈ map cl_id l'.(claims)) as Hin by by apply list_elem_of_fmap_2.
      rewrite Eids in Hin. apply list_elem_of_fmap in Hin as (c & Ec & Hc). by exists c. }
    destruct (expired_claim e.(e_now) None c) eqn:E.
    + destruct (H1 c (or_intror (proj2 (Hcs c) (conj Hc E)))) as (x & Hx & Exid & Hst).
      rewrite (id_unique l' x c' (lo_claims _ H3) Hx Hc') in Hst by congruence. unfold is_active_claim in Ha.
      destruct Hst as [[Hst _]|[Hst _]]; by rewrite Hst in Ha.
    + rewrite (id_unique l' c c' (lo_claims _ H3) (Hkeep c Hc E) Hc' Hid) in E. unfold expired_claim in E.
      rewrite Ha, (proj2 (Z.leb_le _ _) Hexp) in E. done.
  - intros c Hc E. apply H1. right. by apply Hcs.
Qed.

(** ** Claiming *)

Lemma acquire_names_ok h now claim session secs cmd fresh n names ls :
  NoDup names -> (forall name, name ∈ names -> lock_busy ls name = false) ->
  exists ls', acquire_names th h now claim session secs cmd fresh n names ls = Ok ls'.
Proof.
  revert n ls. induction names as [|name names IH]; intros n ls Hnd Hfree; [by eexists|]. cbn [acquire_names].
  apply NoDup_cons in Hnd as [Hn Hnd]. rewrite (Hfree name ltac:(left)). cbn [raise_if]. rewrite bind_Ok.
  apply IH; [done|]. intros x Hx. unfold lock_busy. rewrite existsb_app. fold (lock_busy ls x).
  rewrite (Hfree x ltac:(by right)). cbn. destruct (String.eqb_spec name x); [congruence|done].
Qed.

Lemma sweep_lock_free h now ls name : lock_busy ls name = false -> lock_busy (sweep_lock_leases h now ls) name = false.
Proof.
  intros H. apply not_true_iff_false. intros (x & Hx & E)%existsb_exists. apply in_map_iff in Hx as (y & <- & Hy).
  unfold lock_busy in H. rewrite existsb_false_forall in H. apply list_elem_of_In in Hy. specialize (H y Hy).
  destruct (lock_stale h now y); [|congruence]. cbn in E. by rewrite andb_false_r in E.
Qed.

(** A free claim lock of a task is a name [acquire_task_locks] may take. *)
Lemma locks_free_names l task name : locks_free l task -> name ∈ task_lock_names l task -> lock_busy l.(lock_leases) name = false.
Proof.
  intros Hf Hn. unfold task_lock_names in Hn. rewrite merge_sort_Permutation in Hn.
  apply list_elem_of_fmap in Hn as (tl & -> & Htl). apply list_elem_of_In, List.filter_In in Htl as [Htl E].
  apply andb_true_iff in E as [E1%String.eqb_eq E2%String.eqb_eq]. apply Hf; [by apply list_elem_of_In|done|done].
Qed.

Lemma acquire_resource_ok h now l selector session claim req secs cmd id token i :
  i ∈ matching_instances h l selector -> active_count l.(resource_leases) i.(ri_id) < i.(ri_capacity) ->
  exists x l', acquire_resource th h now l selector session claim req secs cmd id token = Ok (x, l').
Proof.
  intros Hi Hc. unfold acquire_resource. destruct (List.find _ _) as [x|] eqn:E; [by do 2 eexists|]. exfalso.
  apply list_elem_of_In in Hi. pose proof (List.find_none _ _ E i Hi) as Hn. apply Z.ltb_ge in Hn.
  pose proof (sweep_resource_count h now l.(resource_leases) i.(ri_id)). lia.
Qed.

(** A unit is held: its instance is usable and matches, and the lease row is the claim's, for this request and
    until the claim expires. *)
Definition unit_held (e : env) (l : ledger) (session claim : string) (secs : Z) (r : request) (i : instance) (x : resource_lease) : Prop :=
  i ∈ l.(instances) /\ usable e.(e_host) i = true /\ i ∈ matching_instances e.(e_host) l r.(rr_selector) /\
  x.(rl_instance) = i.(ri_id) /\ x.(rl_claim) = Some claim /\ x.(rl_session) = session /\
  x.(rl_request) = Some r.(rr_id) /\ x.(rl_expires) = e.(e_now) + secs /\ (0 < secs -> resource_active x = true).

(** The leases before any of these units, which each acquisition sweeps. *)
Definition swept_for (e : env) (units : list request) (ls : list resource_lease) : list resource_lease :=
  match units with [] => ls | _ :: _ => sweep_resource_leases e.(e_host) e.(e_now) ls end.

Lemma sweep_resources_idempotent h now ls :
  sweep_resource_leases h now (sweep_resource_leases h now ls) = sweep_resource_leases h now ls.
Proof.
  unfold sweep_resource_leases. rewrite map_map. apply map_ext. intros x.
  destruct (resource_stale h now x) eqn:E; [done|]. by rewrite E.
Qed.

(** A sweep in the same second leaves the lease of a unit what it is. *)
Lemma held_swept e l session claim secs r i x :
  unit_held e l session claim secs r i x ->
  unit_held e l session claim secs r i
    (if resource_stale e.(e_host) e.(e_now) x then set_resource_state "expired" e.(e_now) x else x).
Proof.
  intros (H1 & H2 & H3 & H4 & H5 & H6 & H7 & Hx & Ha). destruct (resource_stale _ _ _) eqn:E; unfold unit_held; split_and!; try done.
  intros Hs. exfalso. unfold resource_stale in E.
  apply andb_true_iff in E as [E _]. apply andb_true_iff in E as [_ E%Z.leb_le]. lia.
Qed.

Lemma acquire_units_spec e session claim secs fresh n units l got l' :
  acquire_units sha256 e session claim secs fresh n units l = Ok (got, l') ->
  l' = with_leases l l.(lock_leases) l'.(resource_leases) /\
  exists taken, l'.(resource_leases) = swept_for e units l.(resource_leases) ++ taken /\
    Forall3 (unit_held e l session claim secs) units got taken.
Proof.
  revert n l got. induction units as [|r units IH]; intros n l got H; cbn [acquire_units] in H.
  { apply Ok_inj in H. injection H as <- <-. split; [by destruct l|]. exists []. rewrite app_nil_r. split; [done|constructor]. }
  apply result_bind_ok in H as ([i l1] & H1 & H). apply result_bind_ok in H as ([got' l2] & H2 & H).
  apply Ok_inj in H. injection H as <- <-. unfold acquire_resource in H1. destruct (List.find _ _) as [x|] eqn:Ef; [|done].
  apply Ok_inj in H1. injection H1 as -> <-. apply List.find_some in Ef as [Hi _]. apply list_elem_of_In in Hi.
  destruct (IH _ _ _ H2) as (E & taken & Et & Hf). split; [by rewrite E|]. rewrite Et. cbn [with_leases resource_leases].
  match goal with |- context [sweep_resource_leases _ _ _ ++ [?y]] =>
    assert (unit_held e l session claim secs r i y) as Hy end.
  { destruct (matching_in_inventory _ _ _ _ Hi). unfold unit_held. by split_and!. }
  destruct units as [|r' units]; cbn [swept_for].
  - eexists. rewrite <-app_assoc. split; [reflexivity|]. cbn [app]. by constructor.
  - unfold sweep_resource_leases at 1. rewrite map_app. fold (sweep_resource_leases e.(e_host) e.(e_now)).
    change (map (fun x => if resource_stale (e_host e) (e_now e) x then set_resource_state "expired" (e_now e) x else x) ?k)
      with (sweep_resource_leases e.(e_host) e.(e_now) k).
    rewrite sweep_resources_idempotent, <-app_assoc. eexists. split; [reflexivity|]. cbn [app].
    constructor; [by apply held_swept|exact Hf].
Qed.

(** The row a claim inserts. *)
Definition claim_row (e : env) (d : draw) (l : ledger) (task session : string) (revision secs : Z) (o : owner) : claim :=
  new_claim float_repr sha256 e d l task session revision secs o.

Lemma take_task_spec e d sessions session revision secs o ca l g l' :
  lock_exclusive l.(lock_leases) ->
  take_task float_repr sha256 e d sessions session revision secs o ca l = Ok (g, l') ->
  let c := claim_row e d l ca.(ca_task) session revision secs o in
  g.(g_claim) = c /\ g.(g_selection) = ca /\ l'.(claims) = l.(claims) ++ [c] /\
  (forall t, task_by_id l ca.(ca_task) = Some t ->
     task_by_id l' ca.(ca_task) = Some (set_status "in_progress" t.(tk_attention) e.(e_now) (t.(tk_version) + 1) revision t)) /\
  g.(g_locks) = task_lock_names l ca.(ca_task) /\
  (forall name, name ∈ g.(g_locks) -> exists x, x ∈ l'.(lock_leases) /\ lock_active x = true /\ x.(ll_lock) = name /\
     x.(ll_claim) = Some c.(cl_id) /\ x.(ll_expires) = e.(e_now) + secs) /\
  exists taken, l'.(resource_leases) = swept_for e (wanted_units l ca.(ca_task)) l.(resource_leases) ++ taken /\
    Forall3 (unit_held e l session c.(cl_id) secs) (wanted_units l ca.(ca_task)) g.(g_resources) taken.
Proof.
  intros Hex H. unfold take_task in H. apply result_bind_ok in H as (l1 & Hins & H).
  destruct (insert_claim _ _ _) as [x|[]] eqn:Hi in Hins; try discriminate. apply Ok_inj in Hins as ->.
  apply insert_claim_ok in Hi as (-> & _ & _).
  apply result_bind_ok in H as (l3 & Hl & H). apply result_bind_ok in H as ([got l4] & Hr & H).
  apply Ok_inj in H. injection H as <- <-. cbv zeta. do 2 (split; [done|]).
  apply acquire_units_spec in Hr as [-> Hf].
  unfold acquire_task_locks in Hl. apply result_bind_ok in Hl as (ls & Hls & Hl). apply Ok_inj in Hl as <-.
  destruct (acquire_names_spec _ _ _ _ _ _ _ _ _ _ _ _ Hls) as (_ & _ & more & -> & Hm & Hmore); [by apply sweep_exclusive|].
  cbn [with_leases claims update_task with_claims lock_leases]. split; [done|]. split; [|split; [done|split]].
  - intros t Ht. unfold task_by_id in *. cbn [with_leases tasks update_task with_claims].
    pose proof (task_updated ca.(ca_task)
      (fun t => set_status "in_progress" t.(tk_attention) e.(e_now) (t.(tk_version) + 1) revision t) l ca.(ca_task)
      (fun _ => eq_refl)) as E. unfold task_by_id in E. cbn [update_task with_claims tasks] in E. rewrite E, Ht. cbn [option_map].
    apply List.find_some in Ht as [_ ->]. done.
  - intros name Hn. assert (name ∈ map ll_lock more) as Hin by (rewrite Hm; exact Hn).
    apply list_elem_of_fmap in Hin as (x & -> & Hx). exists x. split; [apply elem_of_app; by right|].
    destruct (Hmore x Hx) as (? & ? & ?). done.
  - exact Hf.
Qed.

(** What is needed of the database and of the drawn values for a claim to go through: the session exists, the id
    and token are new, and the lock rows of the task are distinct (their primary key). *)
Record fresh_draw (sessions : list string) (session : string) (d : draw) (l : ledger) (task : string) : Prop := {
  fd_session : session ∈ sessions;
  fd_id : forall c, c ∈ l.(claims) -> c.(cl_id) <> d.(d_claim);
  fd_token : forall c, c ∈ l.(claims) -> c.(cl_token) <> th d.(d_token);
  fd_locks : NoDup (task_lock_names l task)
}.

Lemma take_task_ok e d sessions session revision secs o ca l :
  fresh_draw sessions session d l ca.(ca_task) ->
  current_claim l ca.(ca_task) = None -> locks_free l ca.(ca_task) -> resources_available e.(e_host) l ca.(ca_task) ->
  (length (wanted_units l ca.(ca_task)) <= 1)%nat ->
  exists g l', take_task float_repr sha256 e d sessions session revision secs o ca l = Ok (g, l').
Proof.
  intros [Hs Hid Htok Hnd] Hfree Hlocks Hres Hlen. unfold take_task, insert_claim.
  set (c := new_claim _ _ _ _ _ _ _ _ _ _).
  rewrite (proj2 (existsb_false_forall _ _)).
  2: { intros x Hx. destruct (String.eqb_spec (cl_id x) (cl_id c)); [by apply (Hid x) in Hx|].
       destruct (String.eqb_spec (cl_token x) (cl_token c)); [by apply (Htok x) in Hx|]. cbn [orb].
       destruct (is_active_claim x) eqn:Ha; [|done]. destruct (String.eqb_spec (cl_task x) (cl_task c)) as [E|]; [|by rewrite andb_false_r].
       exfalso. by apply (current_claim_free sha256 l _ x Hfree Hx (active_held _ Ha)). }
  rewrite bool_decide_eq_true_2 by done. cbn [negb orb raise_if]. rewrite !bind_Ok. unfold acquire_task_locks.
  destruct (acquire_names_ok e.(e_host) e.(e_now) (Some c.(cl_id)) session secs [] d.(d_locks) 0 (task_lock_names l ca.(ca_task))
              (sweep_lock_leases e.(e_host) e.(e_now) l.(lock_leases)) Hnd) as (ls & Hls).
  { intros name Hn. by apply sweep_lock_free, locks_free_names with (task := ca.(ca_task)). }
  match goal with |- context [acquire_names ?a ?b ?c ?d ?e ?f ?g ?h ?i ?j ?k] =>
    change (acquire_names a b c d e f g h i j k) with (acquire_names th b c d e f g h i (task_lock_names l ca.(ca_task))
      (sweep_lock_leases b c l.(lock_leases))) end.
  rewrite Hls, !bind_Ok.
  match goal with |- context [wanted_units ?x ?t] => change (wanted_units x t) with (wanted_units l ca.(ca_task)); set (l1 := x) end.
  destruct (wanted_units l ca.(ca_task)) as [|r [|]] eqn:E; [by do 2 eexists| |cbn in Hlen; lia]. cbn [acquire_units].
  assert (r ∈ claim_requests l ca.(ca_task)) as Hr.
  { assert (In r [r]) as Hin by (by left). rewrite <-E in Hin. apply in_concat in Hin as (us & Hus & Hin).
    apply in_map_iff in Hus as (r' & <- & Hr'). apply list_elem_of_In, elem_of_replicate in Hin as [<- _].
    apply list_elem_of_In in Hr'. by rewrite merge_sort_Permutation in Hr'. }
  destruct (Hres r Hr) as (i & Hi & Hroom).
  destruct (acquire_resource_ok e.(e_host) e.(e_now) l1 r.(rr_selector) session (Some c.(cl_id)) (Some r.(rr_id)) secs []
              (d.(d_resources) 0).1 (d.(d_resources) 0).2 i Hi Hroom) as (x & l' & Hx).
  rewrite Hx, !bind_Ok. by do 2 eexists.
Qed.

(** C20: What a successful claim did, for any number of resource units.  The grant is for the first ready task that
    was asked for, after the sweep; its claim row is the only new one, active until now + lease_seconds under the
    drawn token with the owned paths as they are now as baseline; its task is in progress one version on; every
    claim lock of the task has an active lease of this claim; and every wanted resource unit has a lease row of
    this claim on a usable instance its selector matches, active when lease_seconds is positive.  No other
    resource lease is added; the others are as they were or, if a unit was wanted, as a sweep leaves them. *)
Theorem claim_best_spec e d sessions session revision secs requested sweep o l g l' :
  ledger_ok l ->
  claim_best float_repr sha256 py_repr e d sessions session revision secs requested sweep o l = Ok (g, l') ->
  let l0 := if sweep : bool then (sweep_expired e None l).2 else l in
  exists queue ca rest t,
    ready_tasks py_repr e.(e_host) l0 e.(e_now) = Ok queue /\ List.filter (asked_for requested) queue = ca :: rest /\
    task_by_id l0 ca.(ca_task) = Some t /\
    let c := claim_row e d l0 ca.(ca_task) session revision secs o in
    g.(g_claim) = c /\ g.(g_selection) = ca /\ l'.(claims) = l0.(claims) ++ [c] /\
    task_by_id l' ca.(ca_task) = Some (set_status "in_progress" t.(tk_attention) e.(e_now) (t.(tk_version) + 1) revision t) /\
    g.(g_locks) = task_lock_names l0 ca.(ca_task) /\
    (forall name, name ∈ g.(g_locks) -> exists x, x ∈ l'.(lock_leases) /\ lock_active x = true /\ x.(ll_lock) = name /\
       x.(ll_claim) = Some c.(cl_id) /\ x.(ll_expires) = e.(e_now) + secs) /\
    exists taken, l'.(resource_leases) = swept_for e (wanted_units l0 ca.(ca_task)) l0.(resource_leases) ++ taken /\
      Forall3 (unit_held e l0 session c.(cl_id) secs) (wanted_units l0 ca.(ca_task)) g.(g_resources) taken.
Proof.
  intros Hok H l0. apply claim_best_takes in H. cbv zeta in H. fold l0 in H.
  assert (ledger_ok l0) as Hok0 by (unfold l0; destruct sweep; [apply (nx_ok l), sweep_expired_next|]; done).
  destruct (ready_tasks _ _ _ _) as [queue|x] eqn:Hq; [|discriminate].
  destruct (List.filter _ queue) as [|ca rest] eqn:Ef; [discriminate|]. destruct H as [Hca H]. symmetry in H.
  destruct (ready_candidate _ _ _ _ _ _ Hq Hca) as (v & Hv & Hr).
  destruct (ready_unclaimed py_repr (e_host e) l0 (ca_task ca) v Hv Hr) as (t & Ht & _).
  destruct (take_task_spec _ _ _ _ _ _ _ _ _ _ _ (lo_locks _ Hok0) H) as (H1 & H2 & H3 & H4 & H5).
  exists queue, ca, rest, t. do 3 (split; [done|]). cbv zeta. do 3 (split; [done|]). split; [by apply H4|exact H5].
Qed.

(** C19: Claiming makes progress.  When the ready queue has a task that was asked for, the drawn id and token are
    new, and the task wants at most one resource unit, [claim_best] succeeds with the first such task and the
    drawn token authenticates the new claim; with no such task it answers no_actionable_work. *)
Theorem claim_best_progress e d sessions session revision secs requested sweep o l queue :
  let l0 := if sweep : bool then (sweep_expired e None l).2 else l in
  ledger_ok l -> ready_tasks py_repr e.(e_host) l0 e.(e_now) = Ok queue ->
  let r := claim_best float_repr sha256 py_repr e d sessions session revision secs requested sweep o l in
  match List.filter (asked_for requested) queue with
  | [] => r = Err (TodoError "no_actionable_work")
  | ca :: _ =>
      fresh_draw sessions session d l0 ca.(ca_task) -> d.(d_token) <> "" ->
      (length (wanted_units l0 ca.(ca_task)) <= 1)%nat ->
      exists g l', r = Ok (g, l') /\ g.(g_claim).(cl_task) = ca.(ca_task) /\
        authenticate_claim sha256 (Some d.(d_token)) false l' = Ok g.(g_claim)
  end.
Proof.
  intros l0 Hok Hq r. pose proof (claim_best_takes float_repr sha256 py_repr e d sessions session revision secs requested sweep o l r eq_refl) as H.
  cbv zeta in H. fold l0 in H. rewrite Hq in H. destruct (List.filter _ queue) as [|ca rest]; [done|].
  destruct H as [Hca H]. intros Hd Htok Hlen.
  destruct (ready_candidate _ _ _ _ _ _ Hq Hca) as (v & Hv & Hr).
  destruct (ready_unclaimed py_repr (e_host e) l0 (ca_task ca) v Hv Hr) as (t & _ & _ & Hfree & Hlocks & Hres).
  destruct (take_task_ok e d sessions session revision secs o ca l0 Hd Hfree Hlocks Hres Hlen) as (g & l' & E).
  rewrite E in H. exists g, l'. split; [done|].
  assert (ledger_ok l0) as Hok0 by (unfold l0; destruct sweep; [apply (nx_ok l), sweep_expired_next|]; done).
  destruct (take_task_spec _ _ _ _ _ _ _ _ _ _ _ (lo_locks _ Hok0) E) as (-> & _ & Hcl & _). split; [done|].
  unfold authenticate_claim. rewrite (proj2 (String.eqb_neq _ _) Htok). cbn [raise_if]. rewrite bind_Ok, Hcl.
  rewrite find_app, (proj2 (find_none_forall _ _)).
  - cbn [List.find]. cbn [claim_row new_claim cl_token cl_state]. rewrite String.eqb_refl. done.
  - intros x Hx. apply andb_false_iff. left. apply String.eqb_neq, (fd_token _ _ _ _ _ Hd x Hx).
Qed.

End WithHost.
