(* ===== verification/RecoveryProps.v ===== *)
(** * The authority over time: transactions, live recovery, one editor per path *)

From Stdlib Require Import ZArith SpecFloat.
From stdpp Require Import relations.
From S2P Require Import Prelude PyValue Text Json Stamps Ledger Ownership Readiness SchedulerProps LeaseProps Claims Recovery ClaimsProps.
Import Ledger Ownership Readiness Claims Recovery.

#[local] Open Scope string_scope.
#[local] Open Scope Z_scope.
#[local] Open Scope list_scope.

Section WithHost.
Context (float_repr : spec_float -> string) (sha256 : string -> string) (py_repr : pyval -> string).
#[local] Abbreviation th := (token_hash sha256).

(** ** Ledger parts of the recoveries *)

Lemma overridden_same now c : same_claim c (overridden now c).
Proof. unfold overridden. destruct (is_active_claim c); by split. Qed.

Lemma overridden_inactive now c : is_active_claim (overridden now c) = false.
Proof. unfold overridden. by destruct (is_active_claim c) eqn:E. Qed.

Lemma replace_next e sessions old c secs revision l l' :
  ledger_ok l -> old ∈ l.(claims) -> is_active_claim old = true -> c.(cl_task) = old.(cl_task) ->
  replace_claim e sessions old c secs revision l = Ok l' -> next l l'.
Proof.
  intros Hok Ho Ha Et H. unfold replace_claim in H. apply result_bind_ok in H as (l2 & Hi & H). apply Ok_inj in H as <-.
  pose proof (lo_claims _ Hok) as Hcl.
  pose proof (end_only_next l old (overridden (e_now e)) Hok Ho (active_held _ Ha) (overridden_same _ _) (overridden_inactive _ _)) as N1.
  set (l1 := update_claim _ _ _) in *.
  destruct (co_tasks _ Hcl old Ho Ha) as (t & Ht & _).
  assert (forall x, x ∈ l1.(claims) -> held x = true -> is_active_claim x = true \/ x.(cl_task) <> old.(cl_task)) as Hl1.
  { intros x Hx Hh. destruct (decide (x.(cl_task) = old.(cl_task))) as [E|]; [left|by right].
    apply list_elem_of_fmap in Hx as (y & -> & Hy). destruct (String.eqb_spec y.(cl_id) old.(cl_id)) as [Ei|Ei].
    - rewrite (id_unique l y old Hcl Hy Ho Ei) in Hh. unfold overridden in Hh. rewrite Ha in Hh. discriminate Hh.
    - exfalso. apply Ei. f_equal. by apply (held_unique l y old Hcl Hy Ho Hh (active_held _ Ha) E). }
  assert (forall x, x ∈ l1.(claims) -> is_active_claim x = true -> x ∈ l.(claims) /\ x.(cl_task) <> old.(cl_task)) as Hact.
  { intros x Hx Hax. apply list_elem_of_fmap in Hx as (y & -> & Hy).
    destruct (String.eqb_spec y.(cl_id) old.(cl_id)) as [Ei|Ei]; [by rewrite overridden_inactive in Hax|].
    split; [done|]. intros E. apply Ei. f_equal.
    by apply (held_unique l y old Hcl Hy Ho (active_held _ Hax) (active_held _ Ha) E). }
  assert (next l1 (update_task (cl_task c) (fun t => set_status "in_progress" t.(tk_attention) e.(e_now) (t.(tk_version) + 1) revision t) l2)) as N2.
  { apply (insert_next sessions c _ t l1 l2); try done; [apply (nx_ok _ _ N1)|by rewrite Et| |].
    - intros x Hx Hh E. rewrite Et in E. destruct (Hl1 x Hx Hh) as [Hax|]; [|done]. by apply (Hact x Hx Hax).
    - intros c1 Hc1 Ha1. destruct (Hact c1 Hc1 Ha1) as [Hin Hne]. rewrite Et. by apply (co_apart _ Hcl old c1). }
  pose proof (next_trans _ _ _ N1 N2) as N. rewrite Et in N. eapply next_trans; [exact N|].
  apply insert_claim_ok in Hi as (-> & _).
  match type of N with next _ ?x =>
    refine (lock_map_next x (move_lock (cl_id old) (cl_id c) (cl_session c) (e_now e + secs)) (nx_ok _ _ N) _ _) end;
    intros x; unfold move_lock; by destruct (_ && _).
Qed.

(** Lanes and their tasks keep what makes them isolated, whatever becomes of their state. *)
Lemma lanes_next l f g ds :
  (forall la, (f la).(la_id) = la.(la_id) /\ (f la).(la_run) = la.(la_run) /\ (f la).(la_role) = la.(la_role) /\ (f la).(la_mode) = la.(la_mode)) ->
  (forall lt, (g lt).(lt_lane) = lt.(lt_lane) /\ (g lt).(lt_task) = lt.(lt_task)) ->
  ledger_ok l -> next l (with_lanes l (map f l.(lanes)) (map g l.(lane_tasks)) ds).
Proof.
  intros Hf Hg Hok. set (l' := with_lanes _ _ _ _).
  assert (forall la, isolated_workspace l' (f la) = isolated_workspace l la) as Hw.
  { intros la. destruct (Hf la) as (E1 & E2 & _ & E4). unfold isolated_workspace. by rewrite E1, E2, E4. }
  assert (forall integration run base, destination_exists l integration run base = true -> destination_exists l' integration run base = true) as Hd.
  { intros integration run base (la & Hla & H)%existsb_exists. apply existsb_exists. exists (f la). split; [by apply in_map|].
    destruct (Hf la) as (E1 & E2 & E3 & E4). rewrite E1, E2, E3, E4. rewrite !andb_true_iff in H |- *. destruct H as [[? Hlt] ?].
    split; [split; [done|]|done]. apply existsb_exists in Hlt as (lt & Hlt & Ht). apply existsb_exists. exists (g lt).
    destruct (Hg lt) as [-> ->]. split; [by apply in_map|done]. }
  assert (forall task run base integration, merge_place l task run base integration -> merge_place l' task run base integration) as Hp.
  { intros task run base integration (la & w & lt & Hla & Hws & Hlt & H). exists (f la), w, (g lt).
    destruct (Hf la) as (-> & -> & _), (Hg lt) as [-> ->]. rewrite Hw.
    split_and!; try apply H; [by apply list_elem_of_fmap_2|done|by apply list_elem_of_fmap_2]. }
  apply claims_next; try done; [|by intros c Hc; exists c]. apply (claims_fields l); [done|done| |apply (lo_claims _ Hok)].
  split; [done|]. intros t1 t2 (run & base & integration & H1 & H2 & H3 & H4). exists run, base, integration. auto.
Qed.

Lemma force_release_next e c revision l :
  ledger_ok l -> c ∈ l.(claims) -> is_active_claim c = true -> next l (force_release_ledger e c revision l).
Proof.
  intros Hok Hc Ha. unfold force_release_ledger.
  pose proof (release_claim_locks_next (e_now e) l (cl_id c) Hok) as N1.
  pose proof (release_resources_next (e_now e) _ (cl_id c) (nx_ok _ _ N1)) as N2.
  pose proof (next_trans _ _ _ N1 N2) as N3. set (l2 := release_resources _ _ _) in *.
  match goal with |- next l (foldl _ ?x _) => assert (next l x) as N; [|generalize dependent x] end.
  { eapply next_trans; [exact N3|]. apply end_claim_next; [apply (nx_ok _ _ N3)|done|by apply active_held| | |done].
    - rewrite Ha. by split.
    - by rewrite Ha. }
  intros l3 N. generalize (claim_dispatches l (cl_id c)) as ds. intros ds. revert l3 N.
  induction ds as [|d ds IH]; intros l3 N; [done|]. cbn [foldl]. apply IH.
  eapply next_trans; [exact N|]. apply lanes_next; [| |apply (nx_ok _ _ N)].
  - intros la. unfold ready_lane. by destruct (String.eqb _ _).
  - intros lt. unfold requeue. by destruct (_ && _).
Qed.

Lemma release_lock_next now l token l' : ledger_ok l -> release_lock th now l token = Ok l' -> next l l'.
Proof.
  intros Hok H. unfold release_lock in H. destruct (List.find _ _) as [row|]; [|done]. apply Ok_inj in H as <-.
  apply lock_map_next; [done| |]; intros x; by destruct (String.eqb _ _).
Qed.

Lemma release_resource_next now l token l' : ledger_ok l -> release_resource th now l token = Ok l' -> next l l'.
Proof.
  intros Hok H. unfold release_resource in H. destruct (List.find _ _) as [row|]; [|done]. apply Ok_inj in H as <-.
  apply resource_map_next; [done| |]; intros x; by destruct (String.eqb _ _).
Qed.

(** ** Operations and transactions *)

(** The operations that run inside a transaction at a revision. *)
Inductive operation (revision : Z) : authority -> authority -> Prop :=
  | op_session e external metadata id token db s db' :
      create_session sha256 e external metadata id token db = Ok (s, db') -> operation revision db db'
  | op_seen e token db s db' : authenticate_session sha256 e token db = Ok (s, db') -> operation revision db db'
  | op_sweep e id db : operation revision db (with_ledger db (sweep_expired float_repr sha256 e id db.(a_ledger)).2)
  | op_claim e d session secs requested sweep o db g l :
      claim_best float_repr sha256 py_repr e d (session_ids db) session revision secs requested sweep o db.(a_ledger) = Ok (g, l) ->
      operation revision db (with_ledger db l)
  | op_pulse e token secs db c l : pulse_claim sha256 e token secs db.(a_ledger) = Ok (c, l) -> operation revision db (with_ledger db l)
  | op_renew e id session secs db c l :
      renew_claim_for_session e id session secs db.(a_ledger) = Ok (c, l) -> operation revision db (with_ledger db l)
  | op_release e token status reason db c l :
      release_claim sha256 e token status reason db.(a_ledger) = Ok (c, l) -> operation revision db (with_ledger db l)
  | op_release_id e id status reason db c l :
      release_claim_id e id status reason db.(a_ledger) = Ok (c, l) -> operation revision db (with_ledger db l)
  | op_recover e task ack db r l :
      recover_release float_repr sha256 e task ack db.(a_ledger) = Ok (r, l) -> operation revision db (with_ledger db l)
  | op_adopt e d task session secs db g l :
      recover_adopt float_repr sha256 py_repr e d (session_ids db) task session revision secs db.(a_ledger) = Ok (g, l) ->
      operation revision db (with_ledger db l)
  | op_locks h now names claim session secs cmd fresh db l :
      acquire_named_locks th h now db.(a_ledger) names claim session secs cmd fresh = Ok l -> operation revision db (with_ledger db l)
  | op_unlock now token db l : release_lock th now db.(a_ledger) token = Ok l -> operation revision db (with_ledger db l)
  | op_resource h now selector session claim req secs cmd id token db i l :
      acquire_resource th h now db.(a_ledger) selector session claim req secs cmd id token = Ok (i, l) ->
      operation revision db (with_ledger db l)
  | op_return now token db l : release_resource th now db.(a_ledger) token = Ok l -> operation revision db (with_ledger db l)
  | op_barriers now db : operation revision db (with_ledger db (reevaluate_barriers db.(a_ledger) revision now).2)
  | op_approve_override e uuid task reason ttl id secret db a db' :
      approve_live_override float_repr sha256 e uuid task revision reason ttl id secret db = Ok (a, db') -> operation revision db db'
  | op_override e d uuid task token instance secs db c db' :
      override_live_claim float_repr sha256 e d uuid task revision token instance secs db = Ok (c, db') -> operation revision db db'
  | op_approve_release e uuid task reason ttl ack id secret db a db' :
      approve_force_release float_repr sha256 e uuid task revision reason ttl ack id secret db = Ok (a, db') -> operation revision db db'
  | op_force_release e uuid task token audit_id db c db' :
      force_release_live_claim float_repr sha256 e uuid task revision token audit_id db = Ok (c, db') -> operation revision db db'.

(** A committed transaction: some operations, then its event. *)
Inductive transaction (db db' : authority) : Prop :=
  commit db1 row :
    rtc (operation (db.(a_revision) + 1)) db db1 ->
    append_event row (db.(a_revision) + 1) db1 = Ok db' -> transaction db db'.

(** [mutate] of operations is a transaction, or changes nothing but what [Unchanged] commits. *)
Lemma mutate_transaction {A} (op : Z -> authority -> result (outcome A * authority)) row db a r db' :
  (forall revision o db1, op revision db = Ok (o, db1) -> rtc (operation revision) db db1) ->
  mutate op row db = (Ok (a, r), db') ->
  transaction db db' /\ r = db.(a_revision) + 1 \/ rtc (operation (db.(a_revision) + 1)) db db' /\ r = db.(a_revision).
Proof.
  intros Hop H. unfold mutate in H.
  destruct (op _ db) as [[o db1]|] eqn:E; [|by rewrite ?bind_Ok in H]. rewrite bind_Ok in H. apply Hop in E.
  destruct o as [x|x].
  - destruct (append_event _ _ db1) as [db2|] eqn:Ha; [|done]. rewrite bind_Ok in H. injection H as -> <- <-.
    left. split; [|done]. by apply (commit _ _ db1 (row a (a_revision db + 1))).
  - injection H as -> <- <-. right. done.
Qed.

(** ** What every transaction keeps *)

Record authority_ok (db : authority) : Prop := {
  ao_ledger : ledger_ok db.(a_ledger);
  ao_tokens : NoDup (map ap_token db.(a_approvals))
}.

(** Approvals stay, under the same terms; one that is not pending stays so. *)
Definition keeps_approvals (db db' : authority) : Prop :=
  forall a, a ∈ db.(a_approvals) -> exists a', a' ∈ db'.(a_approvals) /\ a'.(ap_token) = a.(ap_token) /\
    a'.(ap_revision) = a.(ap_revision) /\ (a'.(ap_state) = "pending" -> a.(ap_state) = "pending").

#[local] Instance keeps_approvals_preorder : PreOrder keeps_approvals.
Proof.
  split; [by intros db a Ha; exists a|]. intros x y z H1 H2 a Ha.
  destruct (H1 a Ha) as (b & Hb & E1 & E2 & E3). destruct (H2 b Hb) as (c & Hc & F1 & F2 & F3).
  exists c. split; [done|]. split; [congruence|]. split; [congruence|auto].
Qed.

Record anext (db db' : authority) : Prop := {
  an_ok : authority_ok db';
  an_claims : keeps_claims db.(a_ledger) db'.(a_ledger);
  an_approvals : keeps_approvals db db';
  an_revision : db'.(a_revision) = db.(a_revision)
}.

Lemma anext_trans a b c : anext a b -> anext b c -> anext a c.
Proof. intros [_ H1 H2 H3] [H4 H5 H6 H7]. split; [done|by etransitivity|by etransitivity|congruence]. Qed.

Lemma ledger_anext db l : authority_ok db -> next db.(a_ledger) l -> anext db (with_ledger db l).
Proof.
  intros [H1 H2] [N1 N2]. split; [by split|done|by intros a Ha; exists a|done].
Qed.

(** Only sessions, capabilities or the like change. *)
Lemma side_anext db db' :
  authority_ok db -> db'.(a_ledger) = db.(a_ledger) -> db'.(a_approvals) = db.(a_approvals) ->
  db'.(a_revision) = db.(a_revision) -> anext db db'.
Proof.
  intros [H1 H2] E1 E2 E3. split; [split; [by rewrite E1|by rewrite E2]|by rewrite E1| |done].
  intros a Ha. exists a. by rewrite E2.
Qed.

Lemma create_session_side e external metadata id token db s db' :
  create_session sha256 e external metadata id token db = Ok (s, db') ->
  db'.(a_ledger) = db.(a_ledger) /\ db'.(a_approvals) = db.(a_approvals) /\ db'.(a_revision) = db.(a_revision) /\
  db'.(a_audits) = db.(a_audits) /\ db'.(a_capabilities) = db.(a_capabilities).
Proof.
  unfold create_session. intros H. apply result_bind_ok in H as (db1 & Hi & H). apply Ok_inj in H. injection H as _ <-.
  unfold insert_session in Hi. apply result_bind_ok in Hi as (u & _ & Hi). by apply Ok_inj in Hi as <-.
Qed.

Lemma approval_anext e uuid task revision reason ttl r kind context id token db a db' :
  authority_ok db ->
  _create_live_recovery_approval sha256 e uuid task revision reason ttl r kind context id token db = Ok (a, db') ->
  anext db db' /\ a ∈ db'.(a_approvals) /\ a.(ap_token) = th token /\ a.(ap_revision) = revision /\ a.(ap_state) = "pending" /\
  db'.(a_ledger) = db.(a_ledger) /\ db'.(a_events) = db.(a_events).
Proof.
  intros [H1 H2] H. unfold _create_live_recovery_approval in H. apply result_bind_ok in H as (u1 & _ & H).
  apply result_bind_ok in H as (u2 & Hd & H). apply raise_if_ok in Hd. apply Ok_inj in H. injection H as <- <-.
  cbn [with_approvals a_approvals a_ledger a_events]. split; [split|].
  - split; [done|]. cbn [with_approvals a_approvals]. rewrite map_app. apply NoDup_snoc; [done|].
    intros (x & E & Hx)%list_elem_of_fmap. rewrite existsb_false_forall in Hd. specialize (Hd x Hx). cbn beta in Hd.
    apply orb_false_iff in Hd as [_ Hd]. apply String.eqb_neq in Hd. by apply Hd.
  - reflexivity.
  - intros x Hx. exists x. split; [apply elem_of_app; by left|done].
  - done.
  - split; [apply elem_of_app; right; left|done].
Qed.

Lemma consume_fields id now a :
  (consume id now a).(ap_token) = a.(ap_token) /\ (consume id now a).(ap_revision) = a.(ap_revision) /\
  ((consume id now a).(ap_state) = "pending" -> a.(ap_state) = "pending").
Proof. unfold consume. by destruct (_ && _). Qed.

Lemma consume_anext a now row db db' : authority_ok db -> consume_approval a now row db = Ok db' -> anext db db'.
Proof.
  intros [H1 H2] H. unfold consume_approval in H. apply result_bind_ok in H as (u & _ & H). apply Ok_inj in H as <-.
  split; [split; [done|]|reflexivity| |done].
  - cbn. rewrite map_map. by rewrite (map_ext _ ap_token (fun x => proj1 (consume_fields _ _ x))).
  - intros x Hx. exists (consume (ap_id a) now x). split; [by apply list_elem_of_fmap_2|apply consume_fields].
Qed.

Lemma sole_found db task c :
  sole_claim db task = Ok c -> c ∈ db.(a_ledger).(claims) /\ c.(cl_task) = task /\ is_active_claim c = true.
Proof.
  unfold sole_claim. destruct (active_claims_of db task) as [|x [|]] eqn:E; try done. intros H. apply Ok_inj in H as ->.
  assert (In c [c]) as Hin by (by left). rewrite <-E in Hin. apply List.filter_In in Hin as [Hc Hf].
  apply andb_true_iff in Hf as [E1%String.eqb_eq E2]. split; [by apply list_elem_of_In|done].
Qed.

Lemma inspect_override_found e task db r :
  inspect_live_override float_repr sha256 e task db = Ok r ->
  sole_claim db task = Ok r.(rp_claim) /\ r.(rp_fingerprint) = claim_fingerprint float_repr sha256 r.(rp_claim).
Proof. unfold inspect_live_override. intros H. apply result_bind_ok in H as (c & Hc & H). by apply Ok_inj in H as <-. Qed.

Lemma inspect_force_found e task ack db r :
  inspect_force_release float_repr sha256 e task ack db = Ok r ->
  sole_claim db task = Ok r.(rp_claim) /\ r.(rp_fingerprint) = claim_fingerprint float_repr sha256 r.(rp_claim).
Proof. unfold inspect_force_release. intros H. apply result_bind_ok in H as (c & Hc & H). by apply Ok_inj in H as <-. Qed.

(** What a successful override did: the approval, the old claim, the new one. *)
Lemma override_cases e d uuid task revision token instance secs db c db' :
  override_live_claim float_repr sha256 e d uuid task revision token instance secs db = Ok (c, db') ->
  exists a old s db1 l db2,
    pending_approval sha256 e uuid task revision token "toa_" "live_claim_override" "override_requires_permission" db = Ok a /\
    sole_claim db task = Ok old /\ claim_fingerprint float_repr sha256 old = a.(ap_fingerprint) /\
    create_session sha256 e d.(od_external)
      [("command", PStr "recover live-override"); ("owner_system", PStr CANONICAL_WORKFLOW_OWNER);
       ("owner_instance_id", PStr instance)] d.(od_session) d.(od_session_token) db = Ok (s, db1) /\
    c = replacement sha256 e d old s.(se_id) secs instance /\
    replace_claim e (session_ids db1) old c secs revision db1.(a_ledger) = Ok l /\
    db2 = with_ledger db1 l /\
    consume_approval a e.(e_now)
      (audit_of e a d.(od_audit) (claim_fingerprint float_repr sha256 c) instance "live_claim_replaced" revision []) db2 = Ok db'.
Proof.
  unfold override_live_claim. intros H. apply result_bind_ok in H as (a & Ha & H). apply result_bind_ok in H as (r & Hr & H).
  apply result_bind_ok in H as (u1 & _ & H). apply result_bind_ok in H as (u2 & Hf & H).
  apply result_bind_ok in H as (u3 & _ & H). apply result_bind_ok in H as (u4 & _ & H).
  apply result_bind_ok in H as ([s db1] & Hs & H). apply result_bind_ok in H as (l & Hl & H).
  apply result_bind_ok in H as (db3 & Hc & H). apply Ok_inj in H. injection H as <- <-.
  apply inspect_override_found in Hr as [Hsole Hfp]. apply raise_if_ok, negb_false_iff, String.eqb_eq in Hf.
  rewrite Hfp in Hf. exists a, r.(rp_claim), s, db1, l, (with_ledger db1 l). done.
Qed.

Lemma override_anext e d uuid task revision token instance secs db c db' :
  authority_ok db -> override_live_claim float_repr sha256 e d uuid task revision token instance secs db = Ok (c, db') -> anext db db'.
Proof.
  intros Hok H. apply override_cases in H as (a & old & s & db1 & l & db2 & _ & Hsole & _ & Hs & -> & Hl & -> & Hc).
  apply sole_found in Hsole as (Ho & Ht & Ha).
  destruct (create_session_side _ _ _ _ _ _ _ _ Hs) as (E1 & E2 & E3 & _). pose proof (side_anext db db1 Hok E1 E2 E3) as N1.
  assert (next db1.(a_ledger) l) as N by (eapply replace_next; [apply (ao_ledger _ (an_ok _ _ N1))|by rewrite E1|done| |exact Hl]; done).
  pose proof (ledger_anext db1 l (an_ok _ _ N1) N) as N2.
  eapply anext_trans; [exact N1|]. eapply anext_trans; [exact N2|]. by eapply consume_anext; [apply (an_ok _ _ N2)|].
Qed.

Lemma force_anext e uuid task revision token audit_id db c db' :
  authority_ok db -> force_release_live_claim float_repr sha256 e uuid task revision token audit_id db = Ok (c, db') ->
  anext db db' /\ exists a, pending_approval sha256 e uuid task revision token "tof_" "live_claim_force_release"
                              "force_release_requires_permission" db = Ok a.
Proof.
  intros Hok H. unfold force_release_live_claim in H. apply result_bind_ok in H as (a & Ha & H).
  apply result_bind_ok in H as (r & Hr & H). apply result_bind_ok in H as (u1 & _ & H).
  apply result_bind_ok in H as (u2 & _ & H). apply result_bind_ok in H as (u3 & _ & H).
  apply result_bind_ok in H as (db3 & Hc & H). apply Ok_inj in H. injection H as _ <-. split; [|by exists a].
  apply inspect_force_found in Hr as [Hsole _]. apply sole_found in Hsole as (Hin & _ & Hact).
  pose proof (ledger_anext db _ Hok (force_release_next e _ revision _ (ao_ledger _ Hok) Hin Hact)) as N1.
  eapply anext_trans; [exact N1|].
  match type of Hc with consume_approval _ _ _ ?x = _ => pose proof (side_anext _ x (an_ok _ _ N1) eq_refl eq_refl eq_refl) as N2 end.
  eapply anext_trans; [exact N2|]. by eapply consume_anext; [apply (an_ok _ _ N2)|].
Qed.

Lemma operation_anext revision db db' : operation revision db db' -> authority_ok db -> anext db db'.
Proof.
  intros H Hok. pose proof (ao_ledger _ Hok) as Hl. destruct H.
  - destruct (create_session_side _ _ _ _ _ _ _ _ H) as (? & ? & ? & _). by apply side_anext.
  - assert (a_ledger db' = a_ledger db /\ a_approvals db' = a_approvals db /\ a_revision db' = a_revision db) as (? & ? & ?).
    { unfold authenticate_session in H. destruct token; [|done]. apply result_bind_ok in H as (u & _ & H).
      destruct (List.find _ _); [|done]. apply Ok_inj in H. by injection H as _ <-. }
    by apply side_anext.
  - by apply ledger_anext, sweep_expired_next.
  - apply ledger_anext; [done|]. by eapply claim_best_next.
  - apply ledger_anext; [done|]. unfold pulse_claim in H. apply result_bind_ok in H as (x & _ & H).
    apply Ok_inj in H. injection H as _ <-. by apply pulse_next.
  - apply ledger_anext; [done|]. unfold renew_claim_for_session in H. destruct (List.find _ _); [|done].
    apply Ok_inj in H. injection H as _ <-. by apply pulse_next.
  - apply ledger_anext; [done|]. unfold release_claim in H. apply result_bind_ok in H as (x & _ & H).
    by eapply release_id_next.
  - apply ledger_anext; [done|]. by eapply release_id_next.
  - apply ledger_anext; [done|]. by eapply recover_release_next.
  - apply ledger_anext; [done|]. by eapply recover_adopt_next.
  - apply ledger_anext; [done|]. by eapply named_locks_next.
  - apply ledger_anext; [done|]. by eapply release_lock_next.
  - apply ledger_anext; [done|]. by eapply acquire_resource_next.
  - apply ledger_anext; [done|]. by eapply release_resource_next.
  - by apply ledger_anext, reevaluate_next.
  - unfold approve_live_override in H. apply result_bind_ok in H as (r & _ & H). apply result_bind_ok in H as (u & _ & H).
    by eapply approval_anext.
  - by eapply override_anext.
  - unfold approve_force_release in H. apply result_bind_ok in H as (r & _ & H). apply result_bind_ok in H as (u & _ & H).
    by eapply approval_anext.
  - by eapply force_anext.
Qed.

Lemma operations_anext revision db db' : rtc (operation revision) db db' -> authority_ok db -> anext db db'.
Proof.
  intros H. induction H as [db|db db1 db' H1 _ IH]; intros Hok; [by apply side_anext|].
  pose proof (operation_anext _ _ _ H1 Hok) as N. eapply anext_trans; [exact N|]. apply IH, (an_ok _ _ N).
Qed.

(** One transaction: the invariant, the claims and the approvals, and the next revision. *)
Lemma transaction_next db db' :
  transaction db db' -> authority_ok db ->
  authority_ok db' /\ keeps_claims db.(a_ledger) db'.(a_ledger) /\ keeps_approvals db db' /\ db'.(a_revision) = db.(a_revision) + 1.
Proof.
  intros [db1 row Hs Ha] Hok. destruct (operations_anext _ _ _ Hs Hok) as [[H1 H2] H3 H4 H5].
  unfold append_event in Ha. apply result_bind_ok in Ha as (u & _ & Ha). apply Ok_inj in Ha as <-.
  split; [by split|]. done.
Qed.

Lemma transactions_next db db' :
  rtc transaction db db' -> authority_ok db ->
  authority_ok db' /\ keeps_claims db.(a_ledger) db'.(a_ledger) /\ keeps_approvals db db' /\ db.(a_revision) <= db'.(a_revision).
Proof.
  intros H. induction H as [db|db db1 db' H1 _ IH]; intros Hok.
  { split; [done|]. split; [reflexivity|]. split; [reflexivity|lia]. }
  destruct (transaction_next _ _ H1 Hok) as (Hok1 & K1 & A1 & R1). destruct (IH Hok1) as (Hok2 & K2 & A2 & R2).
  split; [done|]. split; [by etransitivity|]. split; [by etransitivity|lia].
Qed.

(** [continue_work] refuses the owner that claims.py calls canonical. *)
Lemma canonical_owner_refused instance :
  claim_owner (Some CANONICAL_WORKFLOW_OWNER) (Some instance) = Err (TodoError "claim_owner_invalid").
Proof. done. Qed.

(** ** The theorems *)

(** C4: One editor per path.  Start from a ledger in order and run any transactions of claims, sweeps,
    renewals, releases, recoveries, overrides, forced releases, locks, resources and barrier
    re-evaluations, on any hosts and at any times.  If the path guard then admits one path for two
    claims, they are one claim, or their tasks are merge-isolated: they work in isolated-merge
    workspaces of one run, from one base, and one integration task merges what they did. *)
Theorem one_editor_per_path db0 db id1 id2 paths1 paths2 allowed1 allowed2 task1 task2 p :
  authority_ok db0 -> rtc transaction db0 db ->
  guard_paths db.(a_ledger) id1 paths1 = Ok (allowed1, task1) ->
  guard_paths db.(a_ledger) id2 paths2 = Ok (allowed2, task2) ->
  p ∈ paths1 -> p ∈ paths2 -> id1 = id2 \/ merge_isolated db.(a_ledger) task1 task2.
Proof.
  intros Hok0 Hs H1 H2 Hp1 Hp2. destruct (transactions_next _ _ Hs Hok0) as (Hok & _).
  pose proof (ao_ledger _ Hok) as Hl. pose proof (lo_claims _ Hl) as Hcl.
  destruct (guard_paths_sound _ _ _ _ _ H1) as (c1 & Hc1 & <- & Ha1 & <- & _ & Hin1 & _).
  destruct (guard_paths_sound _ _ _ _ _ H2) as (c2 & Hc2 & <- & Ha2 & <- & _ & Hin2 & _).
  destruct (decide (c1.(cl_task) = c2.(cl_task))) as [E|Hne].
  - left. f_equal. by apply (held_unique _ c1 c2 Hcl Hc1 Hc2 (active_held _ Ha1) (active_held _ Ha2)).
  - destruct (co_apart _ Hcl c1 c2 Hc1 Hc2 Ha1 Ha2 Hne) as [Hm|Hd]; [by right|]. exfalso.
    specialize (Hin1 p Hp1). specialize (Hin2 p Hp2).
    by rewrite (disjoint_roots db.(a_ledger) c1.(cl_task) c2.(cl_task) p (st_scopes _ (lo_static _ Hl)) Hd) in Hin2.
Qed.

(** C6: The ledger stays in order.  Whatever transactions of those operations ran, there is at most one
    active or orphaned claim per task, the task of every active claim exists and is in progress, or was
    put on attention because a barrier closed, no lock has two active leases, and no resource instance
    more active leases than its capacity. *)
Theorem reachable_ledger_ok db0 db :
  authority_ok db0 -> rtc transaction db0 db ->
  (forall c1 c2, c1 ∈ db.(a_ledger).(claims) -> c2 ∈ db.(a_ledger).(claims) ->
     held c1 = true -> held c2 = true -> c1.(cl_task) = c2.(cl_task) -> c1 = c2) /\
  (forall c, c ∈ db.(a_ledger).(claims) -> is_active_claim c = true ->
     exists t, task_by_id db.(a_ledger) c.(cl_task) = Some t /\
       (t.(tk_status) = "in_progress" \/
        t.(tk_status) = "attention_required" /\ exists id, t.(tk_attention) = Some ("barrier " +:+ id +:+ " closed after claim"))) /\
  lock_exclusive db.(a_ledger).(lock_leases) /\ within_capacity db.(a_ledger).
Proof.
  intros Hok0 Hs. destruct (transactions_next _ _ Hs Hok0) as (Hok & _). pose proof (ao_ledger _ Hok) as [Hcl Hx Hcap _].
  split; [intros c1 c2 Hc1 Hc2 Hh1 Hh2 E; by apply (held_unique db.(a_ledger))|]. split; [apply (co_tasks _ Hcl)|done].
Qed.

(** An ended claim is over.  Once a claim is not active (released, expired, orphaned, overridden), its
    token authenticates no active claim in any later state, so it can neither renew, release nor guard. *)
Theorem ended_claim_token_dead db db' c token :
  authority_ok db -> rtc transaction db db' ->
  c ∈ db.(a_ledger).(claims) -> is_active_claim c = false -> c.(cl_token) = th token ->
  authenticate_claim sha256 (Some token) false db'.(a_ledger) = Err (TodoError "invalid_claim_token").
Proof.
  intros Hok Hs Hc Ha Ht. destruct (transactions_next _ _ Hs Hok) as (Hok' & Hk & _).
  destruct (Hk c Hc) as (c' & Hc' & _ & Et & _ & Hact).
  destruct (authenticate_claim _ _ _ _) as [x|x] eqn:E.
  - apply authenticate_found in E as (t & [= <-] & _ & Hx & Ex & _ & Hax). specialize (Hax eq_refl).
    rewrite (NoDup_map_eq cl_token _ x c' (co_tokens _ (lo_claims _ (ao_ledger _ Hok'))) Hx Hc') in Hax by congruence.
    rewrite (Hact Hax) in Ha. done.
  - unfold authenticate_claim in E. destruct (String.eqb token ""); [by injection E as <-|]. cbn [raise_if] in E.
    rewrite bind_Ok in E. destruct (List.find _ _); [done|by injection E as <-].
Qed.

(** A pending approval names the revision just before the transaction. *)
Lemma pending_found e uuid task revision token prefix kind missing db a :
  pending_approval sha256 e uuid task revision token prefix kind missing db = Ok a ->
  a ∈ db.(a_approvals) /\ a.(ap_token) = th token /\ a.(ap_state) = "pending" /\ a.(ap_revision) = revision - 1 /\
  a.(ap_kind) = kind /\ e.(e_now) < a.(ap_expires) /\ a.(ap_task) = task /\ a.(ap_uid) = e.(e_uid).
Proof.
  unfold pending_approval. intros H. apply result_bind_ok in H as (u & _ & H).
  destruct (List.find _ _) as [x|] eqn:E; [|done]. apply List.find_some in E as [Hx E]. apply String.eqb_eq in E.
  apply result_bind_ok in H as (u1 & H1 & H). apply result_bind_ok in H as (u2 & H2 & H).
  apply result_bind_ok in H as (u3 & H3 & H). apply result_bind_ok in H as (u4 & H4 & H).
  apply result_bind_ok in H as (u5 & H5 & H). apply Ok_inj in H as <-.
  apply raise_if_ok in H1, H2, H3, H4, H5. apply negb_false_iff, String.eqb_eq in H1. apply negb_false_iff, String.eqb_eq in H2.
  apply Z.leb_gt in H3. repeat apply orb_false_iff in H4 as [H4 ?]. apply negb_false_iff, Z.eqb_eq in H5.
  split; [by apply list_elem_of_In|]. do 4 (split; [done|]). split; [lia|].
  split; [by apply String.eqb_eq, negb_false_iff|by apply Z.eqb_eq, negb_false_iff].
Qed.

(** C5: An owner's approval binds one state and is used at most once.  After an approval to override or
    force-release a claim is committed, the first further transaction of any kind (using it among them)
    makes it useless: no override and no forced release with its token succeeds later. *)
Theorem approval_binds_state db a token db1 row db2 db3 db4 :
  authority_ok db ->
  (exists e uuid task reason ttl r kind context id,
     _create_live_recovery_approval sha256 e uuid task (db.(a_revision) + 1) reason ttl r kind context id token db = Ok (a, db1)) ->
  append_event row (db.(a_revision) + 1) db1 = Ok db2 ->
  transaction db2 db3 -> rtc transaction db3 db4 ->
  (forall e d uuid task instance secs,
     is_ok (override_live_claim float_repr sha256 e d uuid task (db4.(a_revision) + 1) token instance secs db4) = false) /\
  (forall e uuid task audit_id,
     is_ok (force_release_live_claim float_repr sha256 e uuid task (db4.(a_revision) + 1) token audit_id db4) = false).
Proof.
  intros Hok (e & uuid & task & reason & ttl & r & kind & context & id & H) Ha H23 H34.
  destruct (approval_anext _ _ _ _ _ _ _ _ _ _ _ _ _ _ Hok H) as (N & Hin & Et & Er & _).
  unfold append_event in Ha. apply result_bind_ok in Ha as (u & _ & Ha). apply Ok_inj in Ha as <-.
  match type of H23 with transaction ?x _ => assert (authority_ok x) as Hok2 by (destruct (an_ok _ _ N); by split) end.
  destruct (transaction_next _ _ H23 Hok2) as (Hok3 & _ & A3 & R3).
  destruct (transactions_next _ _ H34 Hok3) as (Hok4 & _ & A4 & R4). cbn [a_revision] in R3.
  destruct (A3 a Hin) as (a3 & Ha3 & Et3 & Er3 & _). destruct (A4 a3 Ha3) as (a4 & Ha4 & Et4 & Er4 & _).
  assert (forall e uuid task prefix kind missing a',
    pending_approval sha256 e uuid task (db4.(a_revision) + 1) token prefix kind missing db4 <> Ok a') as Hno.
  { intros e' uuid' task' prefix kind' missing a' Hp. apply pending_found in Hp as (Hx & Ex & _ & Rx & _).
    rewrite (NoDup_map_eq ap_token _ a' a4 (ao_tokens _ Hok4) Hx Ha4) in Rx by congruence. lia. }
  split.
  - intros e' d uuid' task' instance secs. destruct (override_live_claim _ _ _ _ _ _ _ _ _ _ _) as [[c db5]|] eqn:E; [|done].
    exfalso. apply override_cases in E as (a' & ? & ? & ? & ? & ? & Hp & _). by apply (Hno _ _ _ _ _ _ _ Hp).
  - intros e' uuid' task' audit_id. destruct (force_release_live_claim _ _ _ _ _ _ _ _ _) as [[c db5]|] eqn:E; [|done].
    exfalso. apply (force_anext _ _ _ _ _ _ _ _ _ Hok4) in E as (_ & a' & Hp). by apply (Hno _ _ _ _ _ _ _ Hp).
Qed.

End WithHost.
