(* ===== verification/SchedulerWitness.v ===== *)
(** * The scheduler at work: a small ledger with a finished task, a claimed one and a ready one. *)

From Stdlib Require Import ZArith.
From stdpp Require Import relations.
From S2P Require Import Prelude PyValue Text Json Ledger Ownership Readiness SchedulerProps LeaseProps.
Import Ledger Ownership Readiness.

#[local] Open Scope string_scope.
#[local] Open Scope Z_scope.
#[local] Open Scope list_scope.

Definition repr0 (_ : pyval) : string := "value".
Definition hash0 (s : string) : string := s.

Definition row (id status : string) (priority : Z) : task :=
  {| tk_id := id; tk_parent := None; tk_kind := "task"; tk_status := status; tk_priority := priority;
     tk_policy := "parallel_safe"; tk_result := None; tk_attention := None; tk_created := 0; tk_updated := 0;
     tk_version := 1; tk_revision := 1 |}.

Definition after_done (id prerequisite : string) : dependency :=
  {| dp_id := 1; dp_task := id; dp_type := "task"; dp_prerequisite := Some prerequisite; dp_checkpoint := None;
     dp_interface := None; dp_barrier := None; dp_decision := None; dp_condition := [] |}.

Definition owns (task path : string) : scope := {| sc_task := task; sc_mode := "exclusive"; sc_path := path |}.

Definition claim0 : claim :=
  {| cl_id := "c1"; cl_task := "C"; cl_session := "s"; cl_state := "active"; cl_created := 1; cl_expires := 999;
     cl_token := "t1"; cl_heartbeat := 1; cl_head := None; cl_baseline := empty_manifest; cl_revision := 1;
     cl_orphan_reason := None; cl_released := None; cl_owner := None; cl_instance := None |}.

(** A is done; B waits for A, wants lock "build" and a GPU; C is claimed and owns "lib". *)
Definition board : ledger :=
  {| tasks := [row "A" "done" 1; row "B" "planned" 5; row "C" "in_progress" 9];
     dependencies := [after_done "B" "A"]; checkpoints := []; interfaces := []; consumers := []; barriers := [];
     requirements := []; decisions := []; gates := []; rendezvouses := []; claims := [claim0];
     scopes := [owns "B" "src"; owns "C" "lib"];
     task_locks := [{| tl_task := "B"; tl_lock := "build"; tl_phase := "claim" |}]; lock_leases := [];
     instances := [{| ri_id := "gpu0"; ri_class := "gpu"; ri_capacity := 1; ri_host := None; ri_enabled := true |}];
     requests := [{| rr_id := "q1"; rr_task := Some "B"; rr_phase := "claim"; rr_selector := "gpu:any"; rr_required := true; rr_amount := 1 |}];
     resource_leases := []; runs := []; lanes := []; lane_tasks := []; workspaces := []; dispatches := [];
     children := []; child_scopes := [] |}.

Definition host0 : host :=
  {| hostname := "h"; own_pid := 5; kill_ok := fun p => p =? 5; start_of := fun p => if p =? 5 then Some "boot" else None |}.

Definition fresh0 (n : nat) : string * string := ("lease", "token").

Lemma explain_task_ready_witness :
  exists v, explain_task repr0 host0 board "B" = Ok v /\ v_ready v = true /\ locks_free board "B" /\
    ownership_conflicts board "B" = [].
Proof.
  assert (match explain_task repr0 host0 board "B" with Ok v => v_ready v = true | Err _ => False end) as Hv
    by (vm_compute; reflexivity).
  destruct (explain_task repr0 host0 board "B") as [v|x] eqn:H; [|destruct Hv].
  exists v. split; [reflexivity|]. split; [exact Hv|].
  destruct (proj1 (explain_task_ready repr0 host0 board "B" v H) Hv) as (t & _ & _ & _ & Hc & Hl & _).
  split; [exact Hl|exact Hc].
Defined.

Lemma ready_tasks_spec_witness :
  exists queue, ready_tasks repr0 host0 board 100 = Ok queue /\ map ca_task queue = ["B"] /\ StronglySorted better queue.
Proof.
  assert (match ready_tasks repr0 host0 board 100 with Ok q => map ca_task q = ["B"] | Err _ => False end) as Hq
    by (vm_compute; reflexivity).
  destruct (ready_tasks repr0 host0 board 100) as [queue|x] eqn:H; [|destruct Hq].
  exists queue. split; [reflexivity|]. split; [exact Hq|].
  exact (proj1 (ready_tasks_spec repr0 host0 board 100 queue H)).
Defined.

Lemma exclusive_scopes_disjoint_witness :
  in_scope (scopes_for board "B" "exclusive") "src/a.c" = true /\
  in_scope (scopes_for board "C" "exclusive") "src/a.c" = false.
Proof.
  split; [vm_compute; reflexivity|].
  apply (exclusive_scopes_disjoint board "B" claim0 (row "C" "in_progress" 9) "src/a.c"); try (vm_compute; reflexivity).
  - intros s Hs. repeat (apply elem_of_cons in Hs as [->|Hs]; [vm_compute; reflexivity|]).
    by apply not_elem_of_nil in Hs.
  - left.
  - vm_compute. discriminate.
Defined.

Lemma guard_paths_sound_witness :
  exists allowed task, guard_paths board "c1" ["lib/a.c"; "lib/b.c"] = Ok (allowed, task) /\
    allowed = ["lib/a.c"; "lib/b.c"] /\ forall p, p ∈ allowed -> in_scope (scopes_for board task "exclusive") p = true.
Proof.
  destruct (guard_paths board "c1" ["lib/a.c"; "lib/b.c"]) as [[allowed task]|x] eqn:H; [|vm_compute in H; discriminate].
  exists allowed, task. split; [reflexivity|].
  destruct (guard_paths_sound _ _ _ _ _ H) as (c & _ & _ & _ & _ & -> & Hin & _). split; [reflexivity|exact Hin].
Defined.

Definition locked : result ledger := acquire_task_locks hash0 host0 10 board "B" "c2" "s" 60 fresh0.

Lemma no_locks : lock_exclusive board.(lock_leases).
Proof. constructor. Qed.

Lemma acquire_task_locks_spec_witness :
  exists db', locked = Ok db' /\ lock_exclusive db'.(lock_leases) /\ db'.(resource_leases) = [].
Proof.
  assert (is_ok locked = true) as Hok by (vm_compute; reflexivity).
  destruct locked as [db'|x] eqn:H; [|discriminate Hok]. exists db'. split; [reflexivity|].
  destruct (acquire_task_locks_spec hash0 _ _ _ _ _ _ _ _ _ no_locks H) as (Hex & _ & _ & _ & _ & _ & Hr).
  split; [exact Hex|exact Hr].
Defined.

Lemma board_capacity : within_capacity board.
Proof. intros i ->%list_elem_of_singleton. vm_compute. discriminate. Qed.

Lemma board_instances : NoDup (map ri_id board.(instances)).
Proof. compute_decide. Qed.

Definition take_gpu : result (instance * ledger) :=
  acquire_resource hash0 host0 10 board "gpu:any" "s" (Some "c2") None 60 [] "r1" "tok".

Lemma acquire_resource_spec_witness :
  exists i db', take_gpu = Ok (i, db') /\ i ∈ board.(instances) /\ within_capacity db'.
Proof.
  pose proof (acquire_resource_spec hash0 host0 10 board "gpu:any" "s" (Some "c2") None 60 [] "r1" "tok"
                board_capacity board_instances) as H.
  assert (is_ok take_gpu = true) as Hok by (vm_compute; reflexivity). fold take_gpu in H.
  destruct take_gpu as [[i db']|x]; [|discriminate Hok].
  destruct H as (Hi & _ & _ & Hw & _). exists i, db'. split; [reflexivity|]. split; [exact Hi|exact Hw].
Defined.

(** Take the locks, then the GPU, then drop the claim's locks. *)
Lemma leases_safe_witness :
  exists db', rtc (lease_step hash0) board db' /\ lock_exclusive db'.(lock_leases) /\ within_capacity db'.
Proof.
  assert (match locked with
          | Ok d => is_ok (acquire_resource hash0 host0 10 d "gpu:any" "s" (Some "c2") None 60 [] "r1" "tok")
          | Err _ => false end = true) as Hok by (vm_compute; reflexivity).
  destruct locked as [d1|x] eqn:H1; [|discriminate Hok].
  destruct (acquire_resource hash0 host0 10 d1 "gpu:any" "s" (Some "c2") None 60 [] "r1" "tok") as [[i d2]|x] eqn:H2;
    [|discriminate Hok].
  assert (rtc (lease_step hash0) board (release_claim_locks 20 d2 "c2")) as Hs.
  { eapply rtc_l; [eapply step_task_locks; exact H1|]. eapply rtc_l; [eapply step_resource; exact H2|].
    apply rtc_once, step_release_claim. }
  eexists. split; [exact Hs|].
  exact (leases_safe hash0 board _ Hs no_locks board_capacity board_instances).
Defined.

(** * The Todo authority at work: two claims, a sweep, a release, an approved override. *)

From Stdlib Require Import ZArith SpecFloat.
From stdpp Require Import relations.
From S2P Require Import Prelude PyValue Text Json Stamps Ledger Ownership Readiness SchedulerProps LeaseProps Claims Recovery ClaimsProps ClaimsSpec RecoveryProps.
Import Ledger Ownership Readiness Claims Recovery.

#[local] Open Scope string_scope.
#[local] Open Scope Z_scope.
#[local] Open Scope list_scope.

Definition zero_repr (_ : spec_float) : string := "0.0".
Definition same_hash (s : string) : string := s.

(** The board without a claim: A is done, B owns "src" and wants a lock and a GPU, C owns "lib". *)
Definition idle : ledger :=
  with_claims board [row "A" "done" 1; row "B" "planned" 5; row "C" "planned" 3] [].

Definition at_time (now : Z) : env :=
  {| e_host := host0; e_now := now; e_head := None; e_dirty := [];
     e_tree := fun root => [(root +:+ "/a.c", "h1")]; e_repo := "/repo"; e_uid := 1000; e_user := Some "ann";
     e_background := no_database |}.

(** The same repository after an edit under "src". *)
Definition edited (now : Z) : env :=
  {| e_host := host0; e_now := now; e_head := None; e_dirty := ["src/a.c"];
     e_tree := fun root => [(root +:+ "/a.c", if String.eqb root "src" then "h2" else "h1")]; e_repo := "/repo";
     e_uid := 1000; e_user := Some "ann"; e_background := no_database |}.

Definition session0 : session :=
  {| se_id := "s"; se_label := "codex-s"; se_token := "ts"; se_external := None; se_host := "h"; se_pid := 5;
     se_repo := "/repo"; se_metadata := []; se_created := 0; se_seen := 0; se_state := "active" |}.

Definition db0 : authority :=
  {| a_ledger := idle; a_sessions := [session0]; a_attempts := []; a_events := []; a_approvals := []; a_audits := [];
     a_capabilities := []; a_revision := 1 |}.

Definition draw0 (id : string) : draw :=
  {| d_claim := id; d_token := "token-" +:+ id; d_locks := fun _ => ("l-" +:+ id, "lt-" +:+ id);
     d_resources := fun _ => ("r-" +:+ id, "rt-" +:+ id) |}.

Definition facade : owner := {| o_system := Some "coding-workflow"; o_instance := Some "fi_1" |}.

(** ** Operations as transactions *)

Definition happened (now : Z) (kind : string) (revision : Z) : event :=
  {| ev_revision := revision; ev_time := now; ev_actor := Some "s"; ev_entity_type := "claim"; ev_entity := None;
     ev_type := kind; ev_payload := [] |}.

Definition on_ledger {A} (f : Z -> ledger -> result (A * ledger)) (revision : Z) (db : authority) :
    result (outcome unit * authority) :=
  '(_, l) ← f revision db.(a_ledger); Ok (changed tt, with_ledger db l).

Definition run {A} (f : Z -> ledger -> result (A * ledger)) (now : Z) (db : authority) : result (unit * Z) * authority :=
  mutate (on_ledger f) (fun _ => happened now "claim.changed") db.

Lemma run_transaction {A} (f : Z -> ledger -> result (A * ledger)) now db :
  (forall revision a l, f revision db.(a_ledger) = Ok (a, l) ->
     operation zero_repr same_hash repr0 revision db (with_ledger db l)) ->
  is_ok (run f now db).1 = true ->
  transaction zero_repr same_hash repr0 db (run f now db).2.
Proof.
  intros Hop Hok. unfold run, mutate, on_ledger in *.
  destruct (f _ (a_ledger db)) as [[a l]|x] eqn:E; [|discriminate Hok]. rewrite !bind_Ok in Hok |- *. cbv beta iota in Hok |- *.
  destruct (append_event _ _ _) as [db2|x] eqn:Ha; [|discriminate Hok]. rewrite bind_Ok. cbv beta iota. cbn [snd].
  eapply commit; [apply rtc_once, (Hop _ _ _ E)|exact Ha].
Qed.

Definition grab (now : Z) (id task : string) (revision : Z) (l : ledger) : result (grant * ledger) :=
  claim_best zero_repr same_hash repr0 (at_time now) (draw0 id) ["s"] "s" revision 300 (Some task) true facade l.

Definition db1 : authority := (run (grab 100 "c1" "B") 100 db0).2.
Definition db2 : authority := (run (grab 110 "c2" "C") 110 db1).2.
Definition drop (revision : Z) (l : ledger) : result (claim * ledger) :=
  release_claim same_hash (at_time 120) (Some "token-c1") "planned" None l.
Definition db3 : authority := (run drop 120 db2).2.
Definition db4 : authority := (run (grab 130 "c3" "B") 130 db3).2.

Lemma grab_transaction now id task db :
  session_ids db = ["s"] -> is_ok (run (grab now id task) now db).1 = true ->
  transaction zero_repr same_hash repr0 db (run (grab now id task) now db).2.
Proof.
  intros Hs. apply run_transaction. intros revision g l H. unfold grab in H. rewrite <-Hs in H.
  eapply op_claim. exact H.
Qed.

Lemma drop_transaction db :
  is_ok (run drop 120 db).1 = true -> transaction zero_repr same_hash repr0 db (run drop 120 db).2.
Proof. apply run_transaction. intros revision c l H. unfold drop in H. eapply op_release. exact H. Qed.

Lemma step_01 : transaction zero_repr same_hash repr0 db0 db1.
Proof. apply grab_transaction; vm_compute; reflexivity. Qed.
Lemma step_12 : transaction zero_repr same_hash repr0 db1 db2.
Proof. apply grab_transaction; vm_compute; reflexivity. Qed.
Lemma step_23 : transaction zero_repr same_hash repr0 db2 db3.
Proof. apply drop_transaction. vm_compute. reflexivity. Qed.
Lemma step_34 : transaction zero_repr same_hash repr0 db3 db4.
Proof. apply grab_transaction; vm_compute; reflexivity. Qed.

Lemma idle_ok : ledger_ok idle.
Proof.
  split; [split|constructor|exact board_capacity|split].
  - constructor.
  - constructor.
  - constructor.
  - by intros c Hc%not_elem_of_nil.
  - by intros c1 c2 Hc%not_elem_of_nil.
  - intros s Hs. repeat (apply elem_of_cons in Hs as [->|Hs]; [vm_compute; reflexivity|]). by apply not_elem_of_nil in Hs.
  - exact board_instances.
Qed.

Lemma db0_ok : authority_ok db0.
Proof. split; [exact idle_ok|constructor]. Qed.

Lemma reached_2 : rtc (transaction zero_repr same_hash repr0) db0 db2.
Proof. eapply rtc_l; [exact step_01|]. apply rtc_once, step_12. Qed.

Lemma claimed_ok : authority_ok db2.
Proof. exact (proj1 (transactions_next _ _ _ _ _ reached_2 db0_ok)). Qed.

(** ** The witnesses *)

(** B is claimed and dispatched to a lane with an isolated workspace; C, which owns "src" too, waits in another
    such lane; the integrator lane merges both for the task I. *)
Definition lane_of (id role mode state : string) : lane :=
  {| la_id := id; la_run := "r1"; la_role := role; la_state := state; la_mode := mode; la_updated := 0; la_revision := 1 |}.
Definition in_the_lane (lane task state : string) : lane_task :=
  {| lt_lane := lane; lt_task := task; lt_state := state; lt_activated := None; lt_revision := 1 |}.
Definition space_of (lane mode : string) : workspace :=
  {| ws_run := "r1"; ws_lane := lane; ws_mode := mode; ws_state := "active"; ws_base := "abc"; ws_integration := Some "I" |}.

Definition merging : ledger :=
  {| tasks := [row "B" "in_progress" 5; row "C" "planned" 3; row "D" "planned" 2; row "I" "planned" 1];
     dependencies := [{| dp_id := 1; dp_task := "B"; dp_type := "barrier"; dp_prerequisite := None; dp_checkpoint := None;
                         dp_interface := None; dp_barrier := Some "gate"; dp_decision := None; dp_condition := [] |}];
     checkpoints := []; interfaces := []; consumers := [];
     barriers := [{| br_id := "gate"; br_mode := "all"; br_quorum := None; br_state := "open"; br_explanation := "";
                     br_opened := Some 1; br_revision := 1 |}];
     requirements := []; decisions := []; gates := []; rendezvouses := [];
     claims := [{| cl_id := "c1"; cl_task := "B"; cl_session := "s"; cl_state := "active"; cl_created := 1; cl_expires := 999;
                   cl_token := "t1"; cl_heartbeat := 1; cl_head := None; cl_baseline := empty_manifest; cl_revision := 1;
                   cl_orphan_reason := None; cl_released := None; cl_owner := None; cl_instance := None |}];
     scopes := [owns "B" "src"; owns "C" "src"; owns "D" "src"; owns "I" "docs"]; task_locks := []; lock_leases := [];
     instances := []; requests := []; resource_leases := []; runs := [{| wr_id := "r1"; wr_status := "active" |}];
     lanes := [lane_of "L1" "writer" "isolated_merge" "active"; lane_of "L2" "writer" "isolated_merge" "ready";
               lane_of "L3" "integrator" "exclusive" "ready"];
     lane_tasks := [in_the_lane "L1" "B" "active"; in_the_lane "L2" "C" "queued"; in_the_lane "L3" "I" "queued"];
     workspaces := [space_of "L1" "isolated_merge"; space_of "L2" "isolated_merge"; space_of "L3" "exclusive"];
     dispatches := [{| di_id := "d1"; di_lane := "L1"; di_claim := "c1"; di_state := "active"; di_released := None; di_revision := 1 |}];
     children := []; child_scopes := [] |}.

Definition dbm (l : ledger) : authority :=
  {| a_ledger := l; a_sessions := [session0]; a_attempts := []; a_events := []; a_approvals := []; a_audits := [];
     a_capabilities := []; a_revision := 1 |}.

Lemma merging_ok : ledger_ok merging.
Proof.
  split; [split|constructor| |split].
  - compute_decide.
  - compute_decide.
  - compute_decide.
  - intros c ->%list_elem_of_singleton _. eexists. split; [vm_compute; reflexivity|]. by left.
  - by intros c1 c2 ->%list_elem_of_singleton ->%list_elem_of_singleton.
  - by intros i Hi%not_elem_of_nil.
  - intros s Hs. repeat (apply elem_of_cons in Hs as [->|Hs]; [vm_compute; reflexivity|]). by apply not_elem_of_nil in Hs.
  - constructor.
Qed.

Lemma dbm_ok : authority_ok (dbm merging).
Proof. split; [exact merging_ok|constructor]. Qed.

Definition dbm1 : authority := (run (grab 110 "c2" "C") 110 (dbm merging)).2.

Lemma step_m1 : transaction zero_repr same_hash repr0 (dbm merging) dbm1.
Proof. apply grab_transaction; vm_compute; reflexivity. Qed.

(** Only c1 may edit under "src" on the plain board.  Among the isolated lanes C was claimed too, on the same
    path, while D, which is in no lane, could not be. *)
Lemma one_editor_per_path_witness :
  is_ok (guard_paths db2.(a_ledger) "c1" ["src/a.c"]) = true /\
  (forall id paths allowed task, guard_paths db2.(a_ledger) id paths = Ok (allowed, task) -> "src/a.c" ∈ paths -> "c1" = id) /\
  is_ok (run (grab 110 "c2" "D") 110 (dbm merging)).1 = false /\ merge_isolated dbm1.(a_ledger) "B" "C".
Proof.
  split; [vm_compute; reflexivity|]. split; [|split; [vm_compute; reflexivity|]].
  - intros id paths allowed task H Hp.
    assert (guard_paths db2.(a_ledger) "c1" ["src/a.c"] = Ok (["src/a.c"], "B")) as H1 by (vm_compute; reflexivity).
    destruct (one_editor_per_path zero_repr same_hash repr0 db0 db2 "c1" id ["src/a.c"] paths ["src/a.c"] allowed "B" task "src/a.c"
             db0_ok reached_2 H1 H ltac:(by left) Hp) as [E|(run0 & base & integration & (la & w & lt & Hla & _) & _)]; [exact E|].
    assert (lanes db2.(a_ledger) = []) as E by (vm_compute; reflexivity). rewrite E in Hla. by apply not_elem_of_nil in Hla.
  - assert (guard_paths dbm1.(a_ledger) "c1" ["src/a.c"] = Ok (["src/a.c"], "B")) as H1 by (vm_compute; reflexivity).
    assert (guard_paths dbm1.(a_ledger) "c2" ["src/a.c"] = Ok (["src/a.c"], "C")) as H2 by (vm_compute; reflexivity).
    destruct (one_editor_per_path zero_repr same_hash repr0 (dbm merging) dbm1 "c1" "c2" _ _ _ _ _ _ "src/a.c"
             dbm_ok (rtc_once _ _ step_m1) H1 H2 ltac:(by left) ltac:(by left)) as [E|E]; [discriminate E|exact E].
Defined.

(** The barrier that B depends on has no requirements left, and closes. *)
Definition close_gate (revision : Z) (l : ledger) : result (unit * ledger) := Ok (tt, (reevaluate_barriers l revision 120).2).
Definition dbm2 : authority := (run close_gate 120 dbm1).2.

Lemma step_m2 : transaction zero_repr same_hash repr0 dbm1 dbm2.
Proof.
  apply run_transaction; [|vm_compute; reflexivity]. generalize dbm1 as db. intros db revision a l H. unfold close_gate in H.
  apply Ok_inj in H. injection H as _ <-. apply op_barriers.
Qed.

Lemma reachable_ledger_ok_witness :
  map cl_id (List.filter is_active_claim db2.(a_ledger).(claims)) = ["c1"; "c2"] /\
  lock_exclusive db2.(a_ledger).(lock_leases) /\ within_capacity db2.(a_ledger) /\
  map tk_status dbm2.(a_ledger).(tasks) = ["attention_required"; "in_progress"; "planned"; "planned"] /\
  lock_exclusive dbm2.(a_ledger).(lock_leases).
Proof.
  split; [vm_compute; reflexivity|].
  destruct (reachable_ledger_ok zero_repr same_hash repr0 db0 db2 db0_ok reached_2) as (_ & _ & H1 & H2).
  do 2 (split; [assumption|]). split; [vm_compute; reflexivity|].
  exact (proj1 (proj2 (proj2 (reachable_ledger_ok zero_repr same_hash repr0 (dbm merging) dbm2 dbm_ok
           (rtc_l _ _ _ _ step_m1 (rtc_once _ _ step_m2)))))).
Defined.

Definition first_claim (db : authority) : claim := default claim0 (head db.(a_ledger).(claims)).

Lemma first_claim_in db : db.(a_ledger).(claims) <> [] -> first_claim db ∈ db.(a_ledger).(claims).
Proof. unfold first_claim. destruct (claims _); [done|]. intros _. left. Qed.

Lemma dropped_ok : authority_ok db3.
Proof. exact (proj1 (transaction_next _ _ _ _ _ step_23 claimed_ok)). Qed.

(** C1 was released, and its task claimed again as c3; the old token is dead. *)
Lemma ended_claim_token_dead_witness :
  (first_claim db3).(cl_state) = "released" /\
  authenticate_claim same_hash (Some "token-c1") false db4.(a_ledger) = Err (TodoError "invalid_claim_token").
Proof.
  split; [vm_compute; reflexivity|].
  apply (ended_claim_token_dead zero_repr same_hash repr0 db3 db4 (first_claim db3)).
  - exact dropped_ok.
  - apply rtc_once, step_34.
  - apply first_claim_in. vm_compute. discriminate.
  - vm_compute. reflexivity.
  - vm_compute. reflexivity.
Defined.

(** A sweep long after both leases expired: "src" was edited, "lib" was not. *)
Lemma sweep_expired_spec_witness :
  map cl_state (sweep_expired zero_repr same_hash (edited 1000) None db2.(a_ledger)).2.(claims) = ["orphaned"; "expired_clean"] /\
  forall c, c ∈ db2.(a_ledger).(claims) -> expired_claim 1000 None c = true ->
    swept_as zero_repr same_hash (edited 1000) db2.(a_ledger)
      (sweep_expired zero_repr same_hash (edited 1000) None db2.(a_ledger)).2 c.
Proof.
  split; [vm_compute; reflexivity|].
  exact (proj2 (proj2 (sweep_expired_spec zero_repr same_hash (edited 1000) db2.(a_ledger) (ao_ledger _ claimed_ok)))).
Defined.

Lemma claim_best_spec_witness :
  exists g l', claim_best zero_repr same_hash repr0 (at_time 100) (draw0 "c1") ["s"] "s" 2 300 (Some "B") true facade idle = Ok (g, l') /\
    map ri_id g.(g_resources) = ["gpu0"] /\ g.(g_locks) = ["build"] /\
    (exists x, x ∈ l'.(lock_leases) /\ lock_active x = true /\ x.(ll_lock) = "build" /\ x.(ll_claim) = Some "c1") /\
    exists x, x ∈ l'.(resource_leases) /\ resource_active x = true /\ x.(rl_instance) = "gpu0" /\ x.(rl_claim) = Some "c1".
Proof.
  assert (match claim_best zero_repr same_hash repr0 (at_time 100) (draw0 "c1") ["s"] "s" 2 300 (Some "B") true facade idle with
          | Ok (g, l') => map ri_id g.(g_resources) = ["gpu0"] /\ g.(g_locks) = ["build"]
          | Err _ => False end) as Hok by (vm_compute; split; reflexivity).
  destruct (claim_best _ _ _ _ _ _ _ _ _ _ _ _ _) as [[g l']|x] eqn:H; [|destruct Hok]. destruct Hok as [Hr Hl].
  exists g, l'. split; [reflexivity|]. do 2 (split; [assumption|]).
  destruct (claim_best_spec _ _ _ _ _ _ _ _ _ _ _ _ _ _ _ idle_ok H)
    as (queue & ca & rest & t & _ & _ & _ & _ & _ & _ & _ & _ & Hlock & taken & Et & Hf).
  split; [destruct (Hlock "build" ltac:(rewrite Hl; left)) as (x & Hx & Ha & Hn & Hc & _); exists x; done|].
  destruct (g_resources g) as [|i [|]]; [discriminate Hr| |discriminate Hr]. injection Hr as Hi.
  destruct taken as [|x more]; [inversion Hf|]. apply Forall3_cons_inv_m in Hf as (r & z & rs & zs & _ & E & Hx & _).
  injection E as <- <-. destruct Hx as (_ & _ & _ & H1 & H2 & _ & _ & _ & Ha).
  exists x. split; [rewrite Et; apply elem_of_app; right; left|]. split; [apply Ha; lia|]. split; [by rewrite H1|exact H2].
Defined.

Lemma claim_best_progress_witness :
  exists g l', claim_best zero_repr same_hash repr0 (at_time 100) (draw0 "c1") ["s"] "s" 2 300 None true facade idle = Ok (g, l') /\
    g.(g_claim).(cl_task) = "B" /\ authenticate_claim same_hash (Some "token-c1") false l' = Ok g.(g_claim).
Proof.
  destruct (ready_tasks repr0 host0 (sweep_expired zero_repr same_hash (at_time 100) None idle).2 100) as [queue|x] eqn:Hq;
    [|vm_compute in Hq; discriminate].
  pose proof (claim_best_progress zero_repr same_hash repr0 (at_time 100) (draw0 "c1") ["s"] "s" 2 300 None true facade idle
                queue idle_ok Hq) as H.
  vm_compute in Hq. injection Hq as <-. cbn [List.filter asked_for] in H. cbv zeta in H.
  apply H.
  - split; [by left|by intros c Hc%not_elem_of_nil|by intros c Hc%not_elem_of_nil|vm_compute; compute_decide].
  - discriminate.
  - apply Nat.leb_le. vm_compute. reflexivity.
Defined.

(** A ready task that needs two units of a capacity-one instance cannot be claimed: readiness asks for one free unit. *)
Definition greedy : ledger :=
  {| tasks := idle.(tasks); dependencies := []; checkpoints := []; interfaces := []; consumers := []; barriers := [];
     requirements := []; decisions := []; gates := []; rendezvouses := []; claims := []; scopes := idle.(scopes);
     task_locks := []; lock_leases := []; instances := idle.(instances);
     requests := [{| rr_id := "q1"; rr_task := Some "B"; rr_phase := "claim"; rr_selector := "gpu:any"; rr_required := true; rr_amount := 2 |}];
     resource_leases := []; runs := []; lanes := []; lane_tasks := []; workspaces := []; dispatches := [];
     children := []; child_scopes := [] |}.

Example ready_but_unclaimable :
  match ready_tasks repr0 host0 greedy 100 with Ok q => map ca_task q = ["B"; "C"] | Err _ => False end /\
  claim_best zero_repr same_hash repr0 (at_time 100) (draw0 "c1") ["s"] "s" 2 300 None true facade greedy
  = Err (TodoError "resource_unavailable").
Proof. vm_compute. split; reflexivity. Qed.

(** ** An approved override *)

Definition approve (db : authority) : result (approval * authority) :=
  approve_live_override zero_repr same_hash (at_time 140) "p" "C" (db.(a_revision) + 1) "operator left" 300 "ap1" "x" db.

Definition record (db db1 : authority) : result authority :=
  append_event (happened 140 "approval" (db.(a_revision) + 1)) (db.(a_revision) + 1) db1.

Definition approved (db : authority) : result authority := '(_, db1) ← approve db; record db db1.
Definition db5 : authority := match approved db2 with Ok db => db | Err _ => db2 end.

Lemma approved_eq : approved db2 = Ok db5.
Proof. vm_compute. reflexivity. Qed.

Lemma approved_inv db db2 :
  approved db = Ok db2 ->
  exists a db1, (exists e uuid task reason ttl r kind context id,
    _create_live_recovery_approval same_hash e uuid task (db.(a_revision) + 1) reason ttl r kind context id "toa_x" db = Ok (a, db1)) /\
    append_event (happened 140 "approval" (db.(a_revision) + 1)) (db.(a_revision) + 1) db1 = Ok db2.
Proof.
  unfold approved, approve, approve_live_override. intros H. apply result_bind_ok in H as ([a db1] & H & Hr).
  apply result_bind_ok in H as (r & _ & H). apply result_bind_ok in H as (u & _ & H).
  exists a, db1. split; [|exact Hr].
  exists (at_time 140), "p", "C", "operator left", 300, r, "live_claim_override", [], "ap1". exact H.
Qed.

Definition od0 : override_draw :=
  {| od_session := "s9"; od_session_token := "ts9"; od_external := None; od_claim := "c9"; od_claim_token := "token-c9"; od_audit := "au1" |}.

Definition override_at (db : authority) : result (claim * authority) :=
  override_live_claim zero_repr same_hash (at_time 150) od0 "p" "C" (db.(a_revision) + 1) "toa_x" "fi_2" 300 db.

(** The first transaction after the approval is another one: c1 is released. *)
Definition db6 : authority := (run drop 120 db5).2.

Lemma step_56 : transaction zero_repr same_hash repr0 db5 db6.
Proof. apply drop_transaction. vm_compute. reflexivity. Qed.

(** Used at once the approval replaces the claim; after the release of c1 it is useless. *)
Lemma approval_binds_state_witness :
  match override_at db5 with
  | Ok (c, db) => c.(cl_id) = "c9" /\ map cl_state db.(a_ledger).(claims) = ["active"; "overridden"; "active"]
  | Err _ => False
  end /\
  is_ok (override_live_claim zero_repr same_hash (at_time 150) od0 "p" "C" (db6.(a_revision) + 1) "toa_x" "fi_2" 300 db6) = false.
Proof.
  split; [vm_compute; split; reflexivity|].
  destruct (approved_inv _ _ approved_eq) as (a & dba & Ha & Hr).
  exact (proj1 (approval_binds_state zero_repr same_hash repr0 db2 a "toa_x" dba _ db5 db6 db6 claimed_ok Ha Hr
           step_56 (rtc_refl _ _)) (at_time 150) od0 "p" "C" "fi_2" 300).
Defined.
