(* ===== verification/JournalWitness.v ===== *)
(** * The workflow journal at work: one actor, one reserved workflow, one preview. *)

From Stdlib Require Import ZArith SpecFloat.
From stdpp Require Import relations.
From S2P Require Import Prelude PyValue Text Json Journal JournalProps Phases PhaseProps.
Import Journal Phases.

#[local] Open Scope string_scope.
#[local] Open Scope Z_scope.
#[local] Open Scope list_scope.

Definition float0 (_ : spec_float) : string := "0.0".
Definition digest0 (s : string) : string := s.
Definition actor0 : actor := {| a_principal := "alice"; a_profile := "mutator" |}.
Definition request0 : pydict := [("task_id", PStr "T1")].

Definition start0 := reserve_workflow float0 digest0 actor0 "demo" "core" request0 "wf-1" (PInt 10) None.
Definition file1 : option file := start0.2.
Definition record1 : pydict := selecting_record "demo" "core" request0 (PInt 10).

Lemma start0_eq : start0 = (Ok ("wf-1", record1, true), file1).
Proof. vm_compute. reflexivity. Qed.

Lemma unused_none token : forall es, _read None = Ok es -> unused digest0 actor0 token es.
Proof. intros es [= <-] e He. by apply not_elem_of_nil in He. Qed.

Lemma step1 : step float0 digest0 actor0 None file1.
Proof.
  exists (PInt 10), (CWorkflow "demo" "core" request0 "wf-1"). split; [reflexivity|].
  split; [apply unused_none|reflexivity].
Qed.

Lemma file1_ok : journal_ok digest0 actor0 file1.
Proof.
  destruct (absent_ok digest0 actor0) as (es & Hr & Hok).
  destruct (call_next float0 digest0 actor0 None file1 es step1 Hr Hok) as (es1 & ? & ? & _). by exists es1.
Qed.

Lemma reachable_journal_ok_witness :
  exists es, _read file1 = Ok es /\ entries_ok digest0 actor0 es /\ (length es <= _MAX_RECORDS)%nat.
Proof.
  apply (reachable_journal_ok float0 digest0 actor0 file1).
  apply (reachable_step float0 digest0 actor0 None file1); [constructor|exact step1].
Defined.

Lemma reserve_workflow_exclusive_witness :
  reserve_workflow float0 digest0 actor0 "demo" "core" [("task_id", PStr "T2")] "wf-2" (PInt 11) file1 =
    (Err (WorkflowError "workflow_task_already_active"), file1).
Proof.
  exact (reserve_workflow_exclusive float0 digest0 actor0 "demo" "core" request0 [("task_id", PStr "T2")] "wf-1" "wf-2"
    (PInt 10) (PInt 11) None file1 "wf-1" record1 true (absent_ok digest0 actor0) eq_refl (unused_none "wf-1") start0_eq eq_refl).
Defined.

(** A second phase is journalled after the first. *)
Definition native0 (_ _ _ : string) (_ : pydict) (n : nat) : result pyval * nat := (Err (ValueError "offline"), n).
Definition args0 : pydict := [("workspace_id", PStr "ws-1")].
Definition later : call :=
  CAtomic "workflow" "wf-1" "demo" "core" (persist "dispatch_attempt" "d" "k" 4).

Definition phase1 :=
  _phase_intent float0 digest0 (fun _ => "value") native0 actor0 (PInt 12) "wf-1" "demo" "core" record1
    "create_workspace" "todo_create_workspace" args0 (PInt 3) (PStr "key-1") (file1, 0%nat).
Definition file2 : option file := phase1.2.1.
Definition file3 : option file := run_call float0 digest0 actor0 (PInt 13) later file2.
Lemma handle_scope_permanent_witness :
  exists d, get_any_scope digest0 actor0 "workflow" (PStr "wf-1") file3 = Ok ("demo", "core", d).
Proof.
  apply (handle_scope_permanent float0 digest0 actor0 file1 file3 "workflow" "wf-1" "demo" "core" record1).
  - exact file1_ok.
  - apply (rtc_l _ _ file2).
    + exists (PInt 12), (CAtomic "workflow" "wf-1" "demo" "core"
        (persist "create_workspace" match payload_digest float0 digest0 (payload_of "todo_create_workspace" args0) with
                                    | Ok s => s | Err _ => "" end "key-1" 3)).
      split; [reflexivity|]. split; [done|]. vm_compute. reflexivity.
    + apply rtc_once. exists (PInt 13), later. split; [reflexivity|]. split; [done|reflexivity].
  - vm_compute. reflexivity.
Defined.

(** A preview recorded by an administrator and completed twice. *)
Definition package : string := "0123456789abcdef0123456789abcdef0123456789abcdef0123456789abcdef".
Definition preview1 : result string * option file :=
  record_admin_preview float0 digest0 actor0 (PStr "demo") (PStr "core") (PStr "apply") (PStr package) (PInt 7)
    [("plan", PStr "p")] "token" (PInt 20) file1.
Definition receipt0 : pydict := [("status", PStr "applied")].
Definition complete1 :=
  complete_admin_preview float0 digest0 actor0 (PStr "demo") (PStr "core") "token" (PStr "pc-token") receipt0 (PInt 21) preview1.2.
Definition file5 : option file := complete1.2.
Definition preview_record : pydict := match complete1.1 with Ok d => d | Err _ => [] end.

Lemma preview1_ok : journal_ok digest0 actor0 preview1.2.
Proof.
  destruct file1_ok as (es & Hr & Hok).
  destruct (call_next float0 digest0 actor0 file1 preview1.2 es) as (es1 & Hr1 & Hok1 & _); [|exact Hr|exact Hok|].
  - exists (PInt 20), (CCreate "admin_preview" "demo" "core"
      [("action", PStr "apply"); ("package_digest", PStr package); ("authority_revision", PInt 7);
       ("preview", PDict [("plan", PStr "p")]); ("idempotency_key", PStr "pc-token"); ("result", PNone)] (Some "token") "").
    split; [reflexivity|]. split; [done|]. vm_compute. reflexivity.
  - by exists es1.
Qed.

Lemma complete1_eq :
  complete_admin_preview float0 digest0 actor0 (PStr "demo") (PStr "core") "token" (PStr "pc-token") receipt0 (PInt 21)
    preview1.2 = (Ok preview_record, file5).
Proof. vm_compute. reflexivity. Qed.

Definition complete2 :=
  complete_admin_preview float0 digest0 actor0 (PStr "demo") (PStr "core") "token" (PStr "pc-token")
    [("status", PStr "rejected")] (PInt 22) file5.

Lemma admin_preview_once_witness : complete2.2 = file5.
Proof.
  apply (proj1 (admin_preview_once float0 digest0 actor0 "demo" "core" "token" (PStr "pc-token") (PStr "pc-token") receipt0
    [("status", PStr "rejected")] (PInt 21) (PInt 22) preview1.2 file5 file5 complete2.2 preview_record complete2.1
    preview1_ok eq_refl eq_refl complete1_eq (rtc_refl _ _) (surjective_pairing complete2))).
Defined.

(** * The compact workflow at work: one task taken, verified, completed or released *)

From Stdlib Require Import ZArith SpecFloat.
From stdpp Require Import relations.
From S2P Require Import Prelude PyValue Text Json Journal JournalProps Phases PhaseProps Workflow Coordinate TaskContext TaskPacket Selection Inspect Records WorkflowLogic SelectionProps InspectProps Session GatesProps ContextProps.
Import Journal Phases Workflow Coordinate TaskContext TaskPacket Selection Inspect Records.

#[local] Open Scope string_scope.
#[local] Open Scope Z_scope.
#[local] Open Scope list_scope.

(** ** An authority with one task *)

Definition float1 (_ : spec_float) : string := "0.0".
Definition digest1 (s : string) : string := "0123456789abcdef0123456789abcdef0123456789abcdef0123456789abcdef".
Definition float_of1 (_ : string) : spec_float := S754_nan.
Definition show1 (_ : pyval) : string := "value".
Definition mutator : actor := {| a_principal := "alice"; a_profile := "mutator" |}.

Definition item_ref : pydict := [("fragment_id", PStr "work:T1"); ("kind", PStr "work_item"); ("digest", PStr "d1")].
Definition capsule1 : pydict :=
  [("manifest", PDict [("fragments", PList [PDict item_ref])]);
   ("fragments", PList [PDict [("reference", PDict item_ref);
      ("payload", PDict [("requirements", PList [PDict [("kind", PStr "check"); ("id", PStr "unit-tests")]])])]])].
Definition workflow_answer1 (tool : string) : pydict :=
  if String.eqb tool "todo_read_authority" then [("semantic_revision", PInt 5)]
  else if String.eqb tool "todo_select_next_work" then
    [("work_item_id", PStr "T1"); ("run_id", PStr "R1"); ("assignment_id", PStr "A1"); ("plan_revision_id", PStr "P1"); ("authority_revision", PInt 5)]
  else if String.eqb tool "todo_dispatch_attempt" then [("attempt_id", PStr "AT1"); ("lease_id", PStr "L1")]
  else if String.eqb tool "todo_build_context" then capsule1
  else if String.eqb tool "todo_handback_attempt" then
    [("attempt_id", PStr "AT1"); ("source_commit", PStr "c0ffee"); ("source_digest", PStr (digest1 ""))]
  else if String.eqb tool "todo_report_outcome" then [("candidate_ref", PDict [("entity_id", PStr "C1")])]
  else [].
Definition native1 (tool project repository : string) (arguments : pydict) (n : nat) : result pyval * nat :=
  (Ok (PDict [("status", PStr "ok"); ("data", PDict (workflow_answer1 tool))]), S n).

Definition resolver1 : option (string -> option string -> option string + pyval) := Some (fun p _ => inr (PStr "core")).
(** No journal yet. *)
Definition world0 : option file * (nat * list string) := (None, (0%nat, [])).
Definition run := run_event float1 digest1 show1 float_of1 native1 resolver1 mutator.

(** ** A session: the task is taken, then its attempt is released *)

Abbreviation run1 := (run_event float1 digest1 show1 float_of1 native1 resolver1 mutator).
Definition taken : option file * (nat * list string) :=
  run1 (PInt 10) (ENext (PStr "demo") (PStr "core") PNone PNone "wf-1") world0.
Definition ended : option file * (nat * list string) := run1 (PInt 20) (EFinish "wf-1" "release" PNone PNone PNone "cand-1") taken.
Definition stored_at (w : option file * (nat * list string)) : pydict :=
  match get_any_scope digest1 mutator "workflow" (PStr "wf-1") w.1 with Ok (_, _, d) => d | Err _ => [] end.
Definition task1 : pydict := stored_at taken.
Definition released1 : pydict := stored_at ended.

Abbreviation session1 := (Session.session float1 digest1 show1 float_of1 native1 resolver1 mutator).
Abbreviation session_step1 := (Session.session_step float1 digest1 show1 float_of1 native1 resolver1 mutator).

Lemma taken_step : session_step1 world0 taken.
Proof.
  apply (step_event float1 digest1 show1 float_of1 native1 resolver1 mutator (PInt 10)); [reflexivity|].
  intros es Hr e He. apply Ok_inj in Hr as <-. by apply not_elem_of_nil in He.
Qed.

Lemma ended_step : session_step1 taken ended.
Proof. by apply (step_event float1 digest1 show1 float_of1 native1 resolver1 mutator (PInt 20)). Qed.

Lemma taken_session : session1 taken.
Proof. exists O. apply rtc_once. exact taken_step. Qed.

Lemma ended_session : session1 ended.
Proof. exists O. eapply rtc_l; [exact taken_step|]. apply rtc_once. exact ended_step. Qed.

(** What a handle resolves to is what the journal holds. *)
Lemma resolved_record w p q d :
  session1 w -> get_any_scope digest1 mutator "workflow" (PStr "wf-1") w.1 = Ok (p, q, d) -> record_at digest1 mutator w.1 "wf-1" p q d.
Proof.
  intros Hs H. apply session_good in Hs.
  destruct (keeps_handle float1 digest1 mutator (N0:=nat) "wf-1" w (Ok (p, q, d)) w Hs I) as [_ Hh]; [|by apply (Hh (p, q, d))].
  exact (f_equal (fun r => (r, w)) H).
Qed.

Lemma task1_eq : get_any_scope digest1 mutator "workflow" (PStr "wf-1") taken.1 = Ok ("demo", "core", task1).
Proof. vm_compute. reflexivity. Qed.

Lemma released1_eq : get_any_scope digest1 mutator "workflow" (PStr "wf-1") ended.1 = Ok ("demo", "core", released1).
Proof. vm_compute. reflexivity. Qed.

Lemma task1_at : record_at digest1 mutator taken.1 "wf-1" "demo" "core" task1.
Proof. apply resolved_record; [exact taken_session|exact task1_eq]. Qed.

Lemma released1_at : record_at digest1 mutator ended.1 "wf-1" "demo" "core" released1.
Proof. apply resolved_record; [exact ended_session|exact released1_eq]. Qed.

Lemma task1_phase : field "phase" task1 = PStr "active".
Proof. vm_compute. reflexivity. Qed.

Lemma released1_phase : field "phase" released1 = PStr "released".
Proof. vm_compute. reflexivity. Qed.

Lemma session_records_typed_witness :
  exists phase facts, field "phase" released1 = PStr phase /\ facts_of (is_review released1) phase = Some facts /\
    forall x, x ∈ facts -> fact_holds float1 released1 x = true.
Proof.
  exact (proj2 (session_records_typed float1 digest1 show1 float_of1 native1 resolver1 mutator ended "wf-1" "demo" "core"
    released1 ended_session released1_at)).
Defined.

Lemma session_phases_advance_witness :
  exists d', record_at digest1 mutator ended.1 "wf-1" "demo" "core" d' /\ field "attempt_id" d' = PStr "AT1".
Proof.
  destruct (session_phases_advance float1 digest1 show1 float_of1 native1 resolver1 mutator taken ended "wf-1" "demo" "core"
    task1 taken_session (rtc_once _ _ ended_step) task1_at) as (d' & Hd & _ & Hp).
  exists d'. split; [exact Hd|]. destruct (Hp "active" task1_phase) as [_ Hk]. rewrite Hk; [vm_compute; reflexivity|].
  replace (is_review task1) with false by (vm_compute; reflexivity). compute_decide.
Defined.

Lemma session_ends_on_proof_witness :
  (recovered released1 = true \/ releases released1 = true /\ proof_ok float1 released1 = true) /\
  exists d', record_at digest1 mutator ended.1 "wf-1" "demo" "core" d' /\ field "phase" d' = PStr "released".
Proof.
  apply (session_ends_on_proof float1 digest1 show1 float_of1 native1 resolver1 mutator ended ended "wf-1" "demo" "core"
    released1 "released" ended_session (rtc_refl _ _) released1_at released1_phase). right. left.
Defined.

(** A phase is journalled with key-1 at revision 3; the attempt is released; the phase is asked for again, with
    another key and revision. *)
Definition probe1 (key : string) (revision now : Z) (record : pydict) (w : option file * (nat * list string)) :=
  _phase_intent float1 digest1 show1 (native native1) mutator (PInt now) "wf-1" "demo" "core" record "probe"
    "todo_read_authority" [("limit", PInt 1)] (PInt revision) (PStr key) w.
Definition probed : option file * (nat * list string) := (probe1 "key-1" 3 15 task1 taken).2.
Definition probed_record : pydict := match (probe1 "key-1" 3 15 task1 taken).1 with Ok a => a.2 | Err _ => [] end.
Definition probed_ended : option file * (nat * list string) :=
  run1 (PInt 20) (EFinish "wf-1" "release" PNone PNone PNone "cand-1") probed.

Lemma probed_eq : probe1 "key-1" 3 15 task1 taken = (Ok (("key-1", 3), probed_record), probed).
Proof. vm_compute. reflexivity. Qed.

Lemma probed_step : session_step1 probed probed_ended.
Proof. by apply (step_event float1 digest1 show1 float_of1 native1 resolver1 mutator (PInt 20)). Qed.

Lemma phase_intent_replays_witness :
  match (probe1 "key-2" 9 30 [] probed_ended).1 with Ok a => a.1 = ("key-1", 3) | Err _ => False end /\
  exists d2 kr2, record_at digest1 mutator probed_ended.1 "wf-1" "demo" "core" d2 /\
    forall n, probe1 "key-2" 9 30 [] (probed_ended.1, n) = (Ok (kr2, dict_update [] d2), (probed_ended.1, n)).
Proof.
  split; [vm_compute; reflexivity|].
  destruct (phase_intent_replays float1 digest1 show1 float_of1 native1 resolver1 mutator taken probed probed_ended (PInt 15)
    "wf-1" "demo" "core" task1 "probe" "todo_read_authority" [("limit", PInt 1)] (PInt 3) (PStr "key-1") ("key-1", 3) probed_record
    taken_session eq_refl probed_eq (rtc_once _ _ probed_step)) as (d1 & i1 & d2 & i2 & kr2 & _ & _ & Hd2 & _ & _ & Hask & _).
  exists d2, kr2. split; [exact Hd2|]. intros n. apply Hask.
Defined.

(** ** Completing: the check is verified before the attempt is handed back *)

Definition completed :=
  finish_task float1 digest1 show1 (logged native1) mutator (PInt 20) "wf-1" "complete" PNone PNone PNone "cand-1"
    (taken.1, ((5%nat, []), ["wf-1"])).
Definition calls1 : list native_call := log_of completed.2.

(** The calls are the verification, the handing back and the report, with the revisions they read. *)
Lemma calls1_tools :
  map nc_tool calls1 = ["todo_read_authority"; "todo_verify_attempt"; "todo_read_authority"; "todo_handback_attempt";
                        "todo_read_authority"; "todo_report_outcome"].
Proof. vm_compute. reflexivity. Qed.

Definition before1 : list native_call := take 3 calls1.
Definition handback1 : native_call := default {| nc_tool := ""; nc_arguments := []; nc_answer := Ok PNone |} (calls1 !! 3%nat).

Lemma calls1_split : calls1 = before1 ++ handback1 :: drop 4 calls1.
Proof. vm_compute. reflexivity. Qed.

Lemma handback1_tool : nc_tool handback1 = "todo_handback_attempt".
Proof. vm_compute. reflexivity. Qed.

Lemma task1_attempt : field "attempt_id" task1 = PStr "AT1".
Proof. vm_compute. reflexivity. Qed.

Lemma task1_requirements : field "requirement_ids" task1 = strs ["unit-tests"].
Proof. vm_compute. reflexivity. Qed.

Lemma complete_after_gates_witness : verified (PStr "AT1") "unit-tests" before1.
Proof.
  destruct (complete_after_gates float1 digest1 show1 native1 mutator (PInt 20) "wf-1" PNone PNone PNone "cand-1" taken.1 5%nat []
    ["wf-1"] "demo" "core" task1 ["unit-tests"] completed.1 completed.2 task1_eq task1_phase task1_requirements
    (surjective_pairing completed)) as (new & Hnew & Hall).
  assert (new = calls1) as -> by (symmetry; exact Hnew). rewrite task1_attempt in Hall.
  apply (Hall before1 handback1 (drop 4 calls1) calls1_split); [rewrite handback1_tool; compute_decide|by left].
Defined.

(** ** Contexts *)

Definition wide1 : pydict :=
  [("manifest", PDict [("fragments", PList [PDict item_ref; PDict [("fragment_id", PStr "plan:P1"); ("kind", PStr "plan")]])]);
   ("fragments", PList [PDict [("reference", PDict item_ref); ("payload", PDict [])]])].
Definition wide_size : Z := match text_size float1 (compact_base wide1 []) with Ok n => n | Err _ => 0 end.

Lemma compact_context_states_size_witness :
  exists n, _compact_public_context float1 wide1 [] = Ok (compact_base wide1 [] ++ [("encoded_bytes", PInt n)]) /\
    text_size float1 (compact_base wide1 [] ++ [("encoded_bytes", PInt n)]) = Ok n.
Proof.
  apply (compact_context_states_size float1 wide1 [] wide_size); [reflexivity|]. vm_compute. reflexivity.
Defined.

(** A plan too large for a response: it is left out and named. *)
Definition long_text : string := Nat.iter 10 (fun s => s +:+ s) "0123456789".
Definition plan_ref : pydict := [("fragment_id", PStr "plan:P1"); ("kind", PStr "plan")].
Definition large1 : pydict :=
  [("context", PDict
     [("manifest", PDict [("fragments", PList [PDict item_ref; PDict plan_ref])]);
      ("fragments", PList [PDict [("reference", PDict plan_ref); ("payload", PDict [("text", PStr long_text)])];
                           PDict [("reference", PDict item_ref); ("payload", PDict [])]])])].
Definition packet1 : pydict := match _task_packet float1 float_of1 "wf-1" large1 false with Ok d => d | Err _ => [] end.

Lemma packet1_eq : _task_packet float1 float_of1 "wf-1" large1 false = Ok packet1.
Proof. vm_compute. reflexivity. Qed.

Lemma packet1_omits : listed_omissions packet1 = [PStr "plan:P1"].
Proof. vm_compute. reflexivity. Qed.

Lemma task_packet_complete_witness : exists n, text_size float1 packet1 = Ok n /\ n <= 8192.
Proof. exact (proj1 (task_packet_complete float1 float_of1 "wf-1" large1 false packet1 packet1_eq)). Defined.

(** ** A work item in chunks *)

Definition item_text : string := "{" +:+ quote "requirements" +:+ ":[]}".
Definition bare1 : pydict := [("manifest", PDict [("fragments", PList [PDict item_ref])]); ("fragments", PList [])].
Definition chunked1 (tool project repository : string) (arguments : pydict) (n : nat) : result pyval * nat :=
  (Ok (PDict [("status", PStr "ok"); ("data", PDict (chunk_at digest1 item_ref item_text 7 (asked arguments)))]), S n).
Definition scope1 : pydict := [("project", PStr "demo"); ("repository", PStr "core")].

Lemma chunked1_serves : serves digest1 chunked1 item_ref item_text 7 "demo" "core".
Proof. intros arguments n. by exists (S n). Qed.

Lemma work_item_reassembled_witness :
  exists w', _ensure_work_item_fragment float1 digest1 float_of1 chunked1 bare1 scope1 (None, (0%nat, [])) =
    (Ok (dict_set "fragments" (PList [PDict [("reference", PDict item_ref);
       ("payload", PDict [("requirements", PList [])])]]) bare1), w') /\ w'.1 = None.
Proof.
  apply (work_item_reassembled float1 digest1 float_of1 chunked1 item_ref item_text 7 scope1 [("requirements", PList [])]
    "demo" "core" "work:T1" "d1" eq_refl eq_refl eq_refl eq_refl chunked1_serves eq_refl ltac:(vm_compute; reflexivity) ltac:(vm_compute; reflexivity)
    ltac:(lia) ltac:(vm_compute; discriminate) ltac:(vm_compute; discriminate) bare1 [] (None, (0%nat, [])) eq_refl eq_refl eq_refl).
  vm_compute. lia.
Defined.

(** ** Inspection *)

Definition seen1 := inspect_task float1 digest1 show1 native1 mutator "wf-1" "handoff" PNone (PInt 4096) taken.

Lemma inspect_task_bounded_witness : seen1.2.1 = taken.1.
Proof.
  exact (proj1 (inspect_task_bounded float1 digest1 show1 native1 mutator "wf-1" "handoff" PNone (PInt 4096) taken
    seen1.1 seen1.2 (surjective_pairing seen1))).
Defined.
